(* ===== verification/_CoqProject ===== *)
-Q . S2P
Prelude.v
Order.v
Loop.v
Effects.v
PyStr.v
Files.v
Descriptors.v
Disk.v
Tame.v
Float64.v
Json.v
Text.v
Patch.v
PatchFacts.v
Hash.v
Datetime.v
Fields.v
Usage.v
Budget.v
Models.v
Specs.v
LocalEvaluation.v
Protocol.v
ProtocolFacts.v
Wire.v
Replay.v
SampleRun.v
ReplayFacts.v
Sqlite.v
EventStore.v
SampleLedger.v
StoreReads.v
StoreGrowth.v
Snapshots.v
StoreOps.v
Artifacts.v
ArtifactFacts.v
Fixture.v
SampleFixture.v
FixtureFacts.v
Integrity.v
SampleStore.v
IntegrityFacts.v
AuditFacts.v
AuditLimits.v
Coordinator.v
AuditErrors.v
CoordinatorFacts.v
Maintenance.v
MaintenanceFacts.v
LeaseEffects.v
LeaseFacts.v
Recovery.v
RecoveryFacts.v
Runner.v
RunnerFacts.v
SampleRunner.v
Reports.v
QuarantineRecords.v
QuarantineFiles.v
Quarantine.v
QuarantineTrace.v
QuarantineMoves.v
QuarantineRun.v
QuarantineOutcome.v
QuarantineFacts.v
SampleQuarantine.v
Campaign.v
CampaignFiles.v
CampaignRun.v
CampaignRecords.v
CampaignFacts.v
CampaignReconcile.v
CampaignDispatch.v
CampaignPublish.v
CampaignReport.v
SampleCampaign.v
