(* ===== verification/Prelude.v ===== *)
(** * Guildmind: a verification library (root file)

    Guildmind runs a coding agent against a fixture and keeps evidence of the run: an
    append-only event ledger in SQLite, a content-addressed store of artifacts, and
    reports derived from both.  This library models the part of src/src/guildmind/ that
    decides what counts as evidence, and proves what that evidence is worth.

    ** Files and what they model

    - Prelude, Order, Loop, Effects: exceptions and the error monad [result], its inversion
      tactic [inv_ok], folds, sorted lists; lexicographic keys and [sorted(set(...))];
      while loops with a binary bound; the state and error monad [eff] with [catch] and
      [finally] for [try], in which every stateful part is written.
    - PyStr, Float64, Json, Text, Hash, Datetime: Python strings, binary64 floats
      (arithmetic, repr, parsing), the canonical JSON writer of domain/serialization.py
      with the [json.loads] reader, the encodings [json.loads] detects, SHA-256, datetimes.
      Round trip: [loads_canonical]; the canonical text determines the value
      ([canonical_json_inj]).
    - Fields, Usage, Models, Specs, Wire: domain/models.py.  Per record, [check_X] is what
      the constructor does with typed fields (constraints and model validators),
      [validate_X] reads a JSON value, [dump_X] is [model_dump]; [validate_dump_X] is the
      round trip, [settles_X] says that validation is idempotent; Wire joins them.
    - Budget: runtime/budget.py, the authority that admits reservations.
    - Replay, ReplayFacts, SampleRun: runtime/replay.py.  [replay_events] is the fold of
      [replay_step] over the stream; ReplayFacts abstracts it to a lifecycle automaton
      ([replay_refines_lifecycle]) and derives the accounting theorems.
    - Sqlite, EventStore: storage/events.py.  Tables are lists of rows with the declared
      constraints; the store is a state monad over the tables, a clock and the outcomes
      of outside checks.  One definition per operation, with the code's names.
      StoreReads, StoreGrowth, StoreOps, Snapshots: what the operations do to the ledger.
      SampleLedger evaluates a run from creation to recovery.
    - Files, Artifacts, ArtifactFacts: the file system as system-call outcomes, and
      storage/artifacts.py, reading and publishing.
    - Integrity, IntegrityFacts, AuditFacts, AuditLimits, SampleStore:
      storage/integrity.py, the audit that finds what the ledger reaches in the artifact
      store and what is garbage.
    - Coordinator, CoordinatorFacts: storage/coordinator.py, the audit of ledger and
      artifacts together, its report and the gates it grants.  AuditErrors: which exceptions
      the audit can raise at all, for the protocols that classify them.
    - Descriptors, Maintenance, MaintenanceFacts, LeaseEffects, LeaseFacts:
      storage/maintenance.py, the shared and exclusive leases over [flock], in a model of a
      process's descriptors; the last two say which effects a lease has and what it holds.
    - Recovery, RecoveryFacts: runtime/recovery.py, which terminalizes an existing run.
    - Patch, PatchFacts: sandbox/local.py, the reader of patches and the workspace copies.
    - LocalEvaluation, Protocol, ProtocolFacts: evaluation/local.py and
      evaluation/protocol.py, sealed tests and call cases and the local evaluator.
    - Fixture, FixtureFacts, SampleFixture: evaluation/local.py [from_fixture] and
      runtime/fixture.py, from a fixture's directory to a task with its content hash.
    - Runner, RunnerFacts, SampleRunner: runtime/runner.py, models/ and evaluation/base.py.
      [ModelClient] and [Evaluator] are classes; [ScriptedPatchModel] and [local_evaluator]
      are instances; SampleRunner evaluates a whole run.
    - Disk, Reports, QuarantineRecords, QuarantineFiles, Quarantine: storage/quarantine.py,
      from the calls it adds and its records to [quarantine_orphans].  Tame (programs whose
      effects and exceptions are of a kind), QuarantineTrace, QuarantineMoves,
      QuarantineRun, QuarantineOutcome: what each layer may do and raise;
      QuarantineFacts has the claims and SampleQuarantine a transaction that is resumed.
    - Campaign, CampaignRecords, CampaignFacts: domain/campaign.py, the schedule, evidence
      and report of a reliability campaign with their checks.  CampaignFiles, CampaignRun:
      runtime/campaign.py, the identities of trees, publication and loading; dispatch and
      reconciliation.  CampaignReconcile, CampaignDispatch, CampaignPublish and
      CampaignReport have the claims; SampleCampaign runs a campaign that passes.

    ** How the parts interact

    The event store calls replay on every append and on every verification; its
    transactions verify the whole ledger before and after the body.  The audit takes the
    verified roots of the ledger ([VerifiedRunRoot]), validates them again, and follows
    the references of their manifests through the artifact store.  The coordinator binds
    an audit to the snapshot of a ledger.  Recovery takes a shared lease, asks the
    coordinator, opens the ledger for writing, pins it with [verified_run_roots_sha256]
    and audits the artifacts again inside the transaction.
    The runner joins them all: under a shared lease it materializes the fixture, writes the
    run's events through the event store, charges the budget, asks the model and the
    evaluator, and leaves a run that fails to the guarded recovery.  A quarantine holds an
    exclusive lease, audits through the coordinator before, between and after its moves,
    and its ACTIVE record is the fence that the leases of publishers look for.
    A campaign runs the runner once per attempt, each in a state directory of its own, and
    then audits, replays and reads each of them through the coordinator, the event store
    and the artifact store.

    ** What the groups of theorems show

    - Budget: caps hold under any interleaving; reservations are conserved.
    - Replay: accepted streams have the shape of one run, prefixes are accepted, charges
      match what became of the model request, every expected artifact is accounted for.
    - Hashes: the head hash and the snapshot pin commit to the stream and the ledger, up
      to an exhibited collision.  No theorem assumes that SHA-256 has none.
    - Store: operations are atomic; the ledger only grows; terminal runs never change.
    - Artifacts: what is got has the digest asked for; what is put is durable and confined.
    - Audit: it always ends, within its limits; a report that allows quarantine stands for
      a closed, verified graph, and a file called an orphan is never reachable.
    - Coordinator: gates that open stand for the evidence they need.
    - Leases: registered locks count exactly their leases, descriptors do not leak, and a
      returned lease stands for a lock of the verified file.
    - Recovery: a result stands for the evidence, a denial changes nothing.
    - Wire: records read back from their dumps; canonical text names its value.
    - Patches and calls: the patch reader decides its grammar; sealed cases read back, and
      the challenge says nothing of what is expected.
    - Fixtures: a loaded fixture is closed, and its task's content hash commits to what is
      evaluated.
    - Runs: the model is asked only after its request is on record within the caps; a run
      that returns stands for its evidence; however it ends, the ledger was only extended.
    - Quarantine: only planned orphans that were just seen are moved, whatever happens; a
      result stands for a clean audit, and an exception says how far it came.
    - Campaigns: a report's claims are those of its evidence, and evidence of a declared
      result stands for a run that was executed and is still there; failures are noted and
      do not end the schedule; evidence is published whole and reads back.

    ** Modelling decisions

    - Strings are lists of code points U+0000..U+00FF; bytes are [Byte.byte].
    - Integers are unbounded, as Python's are; the 64-bit limit of SQLite's integers is
      not modelled.
    - Exceptions keep their class and the constant part of their message.
    - Aware datetimes are in UTC when they enter ([UtcDatetime] normalises them before).
    - pydantic's readers of datetimes and of JSON bytes are the classes
      [PydanticDatetime] and [PydanticJson]; the hash function is the class [Hashing],
      with FIPS 180-4 as an instance.
    - A COMMIT or a ROLLBACK ends as [commit_ending] and [rollback_ending] say, and may leave
      the transaction open ([left_open]).  Closing a file or a descriptor
      may fail too.
    - [Environment] answers the store's clock and its checks of paths, sidecar files,
      schema and [PRAGMA quick_check].
    - The machine is a clock of moments.  [World] gives the file system of each moment,
      [Kernel] and [Disk] the answers to calls on descriptors, [Workspaces] those to
      copying, walking and [git apply], [Ledgers] and [WritableLedgers] what opening the
      database file gives.  Each call is answered at its moment and advances it, so that anything may
      happen between two calls; one artifact audit runs within one moment
      ([audit_now]), since its loops are defined over a file system ([FileSystem]).
    - [_append_locked] never receives [causal_parent_ids], so the argument is dropped.
    - Loops carry bounds: a JSON text's length bounds its reader ([loads_canonical]), the
      lines of a patch its loops, and the limits of the audit its loops
      ([audit_always_ends]); a reading loop is bounded by the claimed size.  The loops
      that only the outside ends, opening the lock file while others replace it, reading a
      file that keeps growing and walking a tree, take a bound [patience] and raise an
      [AssertionError] of the model's own when they outrun it; so does the writing of
      evidence if [os.write] never writes.

    ** Not modelled

    Opening a database file, which is an outcome of an environment;
    the subprocess of the hidden tests, containers and Docker, and the probes
    that measure them; the evaluation corpus; the command line and schema export. *)

From stdpp Require Export base tactics option list gmap strings sorting.
From Stdlib Require Export ZArith NArith Lia.

#[global] Set Default Goal Selector "!".

(** ** Python exceptions and the error monad

    Every [raise] of the modelled code is a value of [exn].  Messages are kept as far
    as they are constant; the interpolated part of an f-string (a run identifier, a
    sequence number) is dropped.  pydantic's [ValidationError] is a subclass of
    [ValueError], which [is_value_error] records for the [except] clauses. *)
Inductive exn : Type :=
  | ValueError (msg : string)
  | ValidationError (msg : string)
  | TypeError (msg : string)
  | KeyError (msg : string)
  | IndexError (msg : string)
  | JSONDecodeError (msg : string)
  | UnicodeDecodeError (msg : string)
  | OverflowError (msg : string)
  | ReplayIntegrityError (msg : string)
  | StoreIntegrityError (msg : string)
  | SqliteIntegrityError (msg : string)
  | SqliteOperationalError (msg : string)
  | ReservationExceededError (reservation_id : string)
  | BudgetExceededError (dimensions : list string)
  | ArtifactCorruptionError (msg : string)
  | FixtureConfigurationError (msg : string)
  | OSException (number : option Z)
  | CampaignConfigurationError (msg : string)
  | CampaignEvidenceError (msg : string)
  | MaintenanceBusyError (reason : string)
  | MaintenanceIntegrityError (reason msg : string)
  | RecoveryDeniedError (reason : string) (storage_state : option string)
  | RecoveryPostCommitMaintenanceError (run_id : string)
  | FixtureRunPostCommitMaintenanceError (run_id : string)
  | PatchValidationError (msg : string)
  | PatchApplyError (msg : string)
  (* of quarantine: the reason, the transaction, and for an authoritative result its
     outcome, transaction and completion digest *)
  | _ProtocolFailure (reason : string)
  | _CommittedFailure (outcome : string) (transaction completion : option string)
  | QuarantineDeniedError (reason : string)
  | QuarantineIncompleteError (reason : string) (transaction : option string)
  | QuarantineFinalizationError (outcome : string) (transaction completion : option string)
  | AssertionError (msg : string).

Definition is_value_error (e : exn) : bool :=
  match e with
  | ValueError _ | ValidationError _ | JSONDecodeError _ | UnicodeDecodeError _ | FixtureConfigurationError _
  | CampaignConfigurationError _ | PatchValidationError _ => true
  | _ => false
  end.

Inductive result (A : Type) : Type :=
  | Ok (a : A)
  | Err (e : exn).
Arguments Ok {A} a.
Arguments Err {A} e.

#[export] Instance result_ret : MRet result := λ A, Ok.
#[export] Instance result_bind : MBind result := λ A B f m,
  match m with Ok a => f a | Err e => Err e end.
#[export] Instance result_fmap : FMap result := λ A B f m,
  match m with Ok a => Ok (f a) | Err e => Err e end.

#[export] Instance exn_eq_dec : EqDecision exn.
Proof. solve_decision. Defined.
#[export] Instance result_eq_dec {A} `{EqDecision A} : EqDecision (result A).
Proof. solve_decision. Defined.

(** [require b e] is the code's [if not b: raise e]. *)
Definition require (b : bool) (e : exn) : result unit := if b then Ok tt else Err e.

(** [except f m] is [try: m; except E as error: raise f(error)], with [f] the identity
    on the exceptions the clause does not catch. *)
Definition except {A} (f : exn → exn) (m : result A) : result A :=
  match m with Ok a => Ok a | Err e => Err (f e) end.

Definition of_option {A} (e : exn) (o : option A) : result A :=
  match o with Some a => Ok a | None => Err e end.

(** [o is not None] *)
Definition present {A} (o : option A) : bool := match o with Some _ => true | None => false end.

Definition is_ok {A} (r : result A) : bool := match r with Ok _ => true | Err _ => false end.

(** [for x in l: acc = f(acc, x)], stopping at the first exception. *)
Fixpoint foldM {A B} (f : A → B → result A) (acc : A) (l : list B) : result A :=
  match l with
  | [] => Ok acc
  | x :: l => acc' ← f acc x; foldM f acc' l
  end.

Fixpoint mapR {A B} (f : A → result B) (l : list A) : result (list B) :=
  match l with
  | [] => Ok []
  | x :: l => y ← f x; ys ← mapR f l; Ok (y :: ys)
  end.

(** ** Inversion of successful computations *)

Create HintDb guild.

Lemma bind_Ok {A B} (f : A → result B) (m : result A) b :
  (m ≫= f) = Ok b ↔ ∃ a, m = Ok a ∧ f a = Ok b.
Proof. destruct m; simpl; split; [eauto|naive_solver|done|naive_solver]. Qed.

Lemma fmap_Ok {A B} (f : A → B) (m : result A) b :
  (f <$> m) = Ok b ↔ ∃ a, m = Ok a ∧ b = f a.
Proof. destruct m; simpl; naive_solver. Qed.

Lemma require_Ok b e u : require b e = Ok u ↔ b = true.
Proof. destruct b, u; simpl; naive_solver. Qed.

Lemma require_Err b e e' : require b e = Err e' ↔ b = false ∧ e' = e.
Proof. destruct b; simpl; naive_solver. Qed.

Lemma except_Ok {A} f (m : result A) a : except f m = Ok a ↔ m = Ok a.
Proof. destruct m; simpl; naive_solver. Qed.

Lemma of_option_Ok {A} e (o : option A) a : of_option e o = Ok a ↔ o = Some a.
Proof. destruct o; simpl; naive_solver. Qed.

Lemma is_ok_spec {A} (r : result A) : is_ok r = true ↔ ∃ a, r = Ok a.
Proof. destruct r; simpl; naive_solver. Qed.

(** [inv_ok] opens every hypothesis saying that a monadic computation returned. *)
Ltac inv_ok_step :=
  match goal with
  | H : (_ ≫= _) = Ok _ |- _ =>
      let a := fresh "a" in let Ha := fresh "H" in apply bind_Ok in H; destruct H as [a [Ha H]]
  | H : (_ <$> _) = Ok _ |- _ =>
      let a := fresh "a" in let Ha := fresh "H" in apply fmap_Ok in H; destruct H as [a [Ha H]]
  | H : require _ _ = Ok _ |- _ => apply require_Ok in H
  | H : except _ _ = Ok _ |- _ => apply except_Ok in H
  | H : of_option _ _ = Ok _ |- _ => apply of_option_Ok in H
  | H : Ok _ = Ok _ |- _ => injection H as H; try subst
  | H : Err _ = Ok _ |- _ => discriminate H
  | H : Ok _ = Err _ |- _ => discriminate H
  | u : unit |- _ => destruct u
  end.
Ltac inv_ok := repeat (inv_ok_step; cbv beta in * ).

(** [run_ok] steps a goal [m = Ok _] through binds whose head is known to return. *)
Ltac run_ok_step :=
  match goal with
  | |- context [require true _] => simpl
  | H : ?m = Ok _ |- context [?m ≫= _] => rewrite H; simpl
  | H : ?b = true |- context [require ?b _] => rewrite H; simpl
  end.
Ltac run_ok := repeat run_ok_step.

(** Split boolean conjunctions in hypotheses. *)
Ltac split_andb :=
  repeat match goal with
  | H : (_ && _) = true |- _ => apply andb_true_iff in H as [? ?]
  | H : (_ || _) = false |- _ => apply orb_false_iff in H as [? ?]
  | H : negb _ = true |- _ => apply negb_true_iff in H
  | H : negb _ = false |- _ => apply negb_false_iff in H
  | H : bool_decide _ = true |- _ => apply bool_decide_eq_true_1 in H
  | H : bool_decide _ = false |- _ => apply bool_decide_eq_false_1 in H
  end.

(** ** Folds and maps in the error monad *)

Lemma foldM_app {A B} (f : A → B → result A) acc l1 l2 :
  foldM f acc (l1 ++ l2) = (acc' ← foldM f acc l1; foldM f acc' l2).
Proof.
  revert acc. induction l1 as [|x l1 IH]; intros acc; [done|].
  simpl. destruct (f acc x); simpl; [apply IH|done].
Qed.

Lemma foldM_snoc {A B} (f : A → B → result A) acc l x :
  foldM f acc (l ++ [x]) = (acc' ← foldM f acc l; f acc' x).
Proof.
  rewrite foldM_app. destruct (foldM f acc l) as [a|]; simpl; [|done].
  by destruct (f a x).
Qed.

Lemma foldM_prefix {A B} (f : A → B → result A) acc l1 l2 a :
  foldM f acc (l1 ++ l2) = Ok a → ∃ a', foldM f acc l1 = Ok a' ∧ foldM f a' l2 = Ok a.
Proof. rewrite foldM_app. intros H. by inv_ok; eauto. Qed.

(** Rule induction for a fold: an invariant of the start state kept by each step. *)
Lemma foldM_ind {A B} (P : A → Prop) (f : A → B → result A) acc l a :
  foldM f acc l = Ok a → P acc →
  (∀ a1 x a2, x ∈ l → P a1 → f a1 x = Ok a2 → P a2) → P a.
Proof.
  revert acc. induction l as [|x l IH]; intros acc H HP Hstep; simpl in H; inv_ok; [done|].
  eapply IH; [done| |].
  - eapply Hstep; [apply list_elem_of_here|done|done].
  - intros; eapply Hstep; [by apply list_elem_of_further| |]; eauto.
Qed.

Lemma mapR_Ok_length {A B} (f : A → result B) l l' : mapR f l = Ok l' → length l' = length l.
Proof. revert l'. induction l; intros; simpl in *; inv_ok; simpl; auto. Qed.

Lemma mapR_total {A B} (f : A → result B) (g : A → B) l :
  (∀ x, x ∈ l → f x = Ok (g x)) → mapR f l = Ok (g <$> l).
Proof.
  induction l as [|x l IH]; intros H; [done|]. simpl.
  rewrite (H x) by apply list_elem_of_here. simpl.
  rewrite IH; [done|]. intros; apply H. by apply list_elem_of_further.
Qed.

Lemma mapR_app {A B} (f : A → result B) l1 l2 :
  mapR f (l1 ++ l2) = (y ← mapR f l1; z ← mapR f l2; Ok (y ++ z)).
Proof.
  induction l1 as [|x l1 IH]; simpl; [by destruct (mapR f l2)|].
  destruct (f x); simpl; [|done]. rewrite IH.
  destruct (mapR f l1); simpl; [|done]. by destruct (mapR f l2).
Qed.

Lemma mapR_elem {A B} (f : A → result B) l l' x :
  mapR f l = Ok l' → x ∈ l → ∃ y, f x = Ok y ∧ y ∈ l'.
Proof.
  revert l'. induction l as [|a l IH]; intros l' H Hx; [by apply not_elem_of_nil in Hx|].
  simpl in H. inv_ok. apply elem_of_cons in Hx as [->|Hx].
  - eexists. split; [eassumption|]. left.
  - destruct (IH _ H1 Hx) as (y & Hy & Hin). exists y. split; [done|]. by right.
Qed.

Lemma mapR_elem_inv {A B} (f : A → result B) l l' y :
  mapR f l = Ok l' → y ∈ l' → ∃ x, f x = Ok y ∧ x ∈ l.
Proof.
  revert l'. induction l as [|a l IH]; intros l' H Hy; simpl in H; inv_ok; [by apply not_elem_of_nil in Hy|].
  apply elem_of_cons in Hy as [->|Hy].
  - eexists. split; [eassumption|]. left.
  - destruct (IH _ H1 Hy) as (x & Hx & Hin). exists x. split; [done|]. by right.
Qed.

(** ** Sorted lists *)

(** The result of a sort is determined by the elements when the order separates them:
    sorting a sorted list is the identity, and permutations sort to the same list. *)
Section sort.
Context {A : Type} (R : relation A) `{!∀ x y, Decision (R x y)}.
Context `{!Transitive R, !Total R}.

Definition separates (l : list A) : Prop :=
  ∀ x y, x ∈ l → y ∈ l → R x y → R y x → x = y.

Lemma merge_sort_perm l1 l2 :
  separates l1 → l1 ≡ₚ l2 → merge_sort R l1 = merge_sort R l2.
Proof.
  intros Hsep Hl. apply (StronglySorted_unique_strong R).
  - intros x y Hx Hy. rewrite merge_sort_Permutation in Hx, Hy.
    rewrite <- Hl in Hy. by apply Hsep.
  - by apply StronglySorted_merge_sort.
  - by apply StronglySorted_merge_sort.
  - by rewrite !merge_sort_Permutation.
Qed.

Lemma merge_sort_id l : separates l → StronglySorted R l → merge_sort R l = l.
Proof.
  intros Hsep Hl. apply (StronglySorted_unique_strong R).
  - intros x y Hx Hy. rewrite merge_sort_Permutation in Hx. by apply Hsep.
  - by apply StronglySorted_merge_sort.
  - done.
  - apply merge_sort_Permutation.
Qed.

Lemma merge_sort_idemp l : separates l → merge_sort R (merge_sort R l) = merge_sort R l.
Proof. intros. apply merge_sort_perm; [|apply merge_sort_Permutation].
  intros x y. rewrite merge_sort_Permutation. auto.
Qed.
End sort.

#[export] Hint Resolve foldM_snoc : guild.
