(* ===== verification/Order.v ===== *)
(** * Ordered keys

    Python orders tuples lexicographically and strings by code points.  [Ordered] is a
    comparison with its laws, with instances for integers, strings, pairs and lists (a
    tuple is compared as nested pairs); [sort_by] is [sorted(l, key=...)] and
    [sorted_set] is [sorted(s)] for a set [s]. *)

From S2P Require Import Prelude.

Class Ordered (A : Type) := {
  cmp : A → A → comparison;
  cmp_eq : ∀ a b, cmp a b = Eq ↔ a = b;
  cmp_antisym : ∀ a b, cmp a b = CompOpp (cmp b a);
  cmp_trans : ∀ a b c, cmp a b = Lt → cmp b c = Lt → cmp a c = Lt;
}.

Lemma cmp_refl {A} `{Ordered A} (a : A) : cmp a a = Eq.
Proof. by apply cmp_eq. Qed.

#[export] Instance Z_ordered : Ordered Z.
Proof.
  refine {| cmp := Z.compare |}.
  - intros a b. apply Z.compare_eq_iff.
  - intros a b. apply Z.compare_antisym.
  - intros a b c. rewrite !Z.compare_lt_iff. lia.
Defined.

Lemma string_compare_refl s : String.compare s s = Eq.
Proof.
  pose proof (String.compare_antisym s s) as H. by destruct (String.compare s s).
Qed.

#[export] Instance string_ordered : Ordered string.
Proof.
  refine {| cmp := String.compare |}.
  - intros a b. split; [apply String.compare_eq_iff|intros ->; apply string_compare_refl].
  - apply String.compare_antisym.
  - intros a b c Hab Hbc.
    assert (String.le a c) as Hac.
    { transitivity b; unfold String.le, String.leb; [by rewrite Hab|by rewrite Hbc]. }
    unfold String.le, String.leb in Hac. destruct (String.compare a c) eqn:E; try done.
    apply String.compare_eq_iff in E as ->. rewrite String.compare_antisym, Hbc in Hab. done.
Defined.

(** First components first. *)
Definition cmp_then (c1 c2 : comparison) : comparison := match c1 with Eq => c2 | _ => c1 end.

#[export] Instance prod_ordered {A B} `{Ordered A} `{Ordered B} : Ordered (A * B).
Proof.
  refine {| cmp := λ p q, cmp_then (cmp p.1 q.1) (cmp p.2 q.2) |}.
  - intros [a b] [a' b']. simpl. destruct (cmp a a') eqn:E; simpl.
    + apply cmp_eq in E as ->. rewrite cmp_eq. naive_solver.
    + split; [done|]. intros [= -> ->]. by rewrite cmp_refl in E.
    + split; [done|]. intros [= -> ->]. by rewrite cmp_refl in E.
  - intros [a b] [a' b']. simpl. rewrite (cmp_antisym a a').
    destruct (cmp a' a); simpl; [apply cmp_antisym|done|done].
  - intros [a b] [a' b'] [a'' b'']. simpl.
    destruct (cmp a a') eqn:E1, (cmp a' a'') eqn:E2; simpl; try done.
    + apply cmp_eq in E1 as ->. apply cmp_eq in E2 as ->. rewrite cmp_refl. simpl. apply cmp_trans.
    + apply cmp_eq in E1 as ->. by rewrite E2.
    + apply cmp_eq in E2 as ->. by rewrite E1.
    + by rewrite (cmp_trans _ _ _ E1 E2).
Defined.

Fixpoint cmp_list {A} `{Ordered A} (l k : list A) : comparison :=
  match l, k with
  | [], [] => Eq
  | [], _ => Lt
  | _, [] => Gt
  | x :: l, y :: k => cmp_then (cmp x y) (cmp_list l k)
  end.

#[export] Instance list_ordered {A} `{Ordered A} : Ordered (list A).
Proof.
  refine {| cmp := cmp_list |}.
  - induction a as [|x a IH]; intros [|y b]; simpl; try done.
    destruct (cmp x y) eqn:E; simpl.
    + apply cmp_eq in E as ->. rewrite IH. naive_solver.
    + split; [done|]. intros [= -> ->]. by rewrite cmp_refl in E.
    + split; [done|]. intros [= -> ->]. by rewrite cmp_refl in E.
  - induction a as [|x a IH]; intros [|y b]; simpl; try done.
    rewrite (cmp_antisym x y). destruct (cmp y x); simpl; [apply IH|done|done].
  - induction a as [|x a IH]; intros [|y b] [|z c]; simpl; try done.
    destruct (cmp x y) eqn:E1, (cmp y z) eqn:E2; simpl; try done.
    + apply cmp_eq in E1 as ->. apply cmp_eq in E2 as ->. rewrite cmp_refl. simpl. apply IH.
    + apply cmp_eq in E1 as ->. by rewrite E2.
    + apply cmp_eq in E2 as ->. by rewrite E1.
    + by rewrite (cmp_trans _ _ _ E1 E2).
Defined.

(** ** The order and sorting by a key *)

Definition le_by {A K} `{Ordered K} (key : A → K) (a b : A) : Prop := cmp (key a) (key b) ≠ Gt.

Section le_by.
Context {A K : Type} `{Ordered K} (key : A → K).

#[export] Instance le_by_dec : RelDecision (le_by key).
Proof. intros a b. unfold le_by. apply _. Defined.

#[export] Instance le_by_total : Total (le_by key).
Proof.
  intros a b. unfold le_by. rewrite (cmp_antisym (key b)). destruct (cmp (key a) (key b)); naive_solver.
Qed.

#[export] Instance le_by_trans : Transitive (le_by key).
Proof.
  intros a b c. unfold le_by. intros H1 H2 H3.
  destruct (cmp (key a) (key b)) eqn:E1; [|destruct (cmp (key b) (key c)) eqn:E2|done]; try done.
  - apply cmp_eq in E1. by rewrite E1 in H3.
  - apply cmp_eq in E2. rewrite E2 in E1. by rewrite E1 in H3.
  - by rewrite (cmp_trans _ _ _ E1 E2) in H3.
Qed.

(** Elements with the same rank have the same key. *)
Lemma le_by_antisym a b : le_by key a b → le_by key b a → key a = key b.
Proof.
  unfold le_by. rewrite (cmp_antisym (key b)). intros H1 H2. apply cmp_eq.
  destruct (cmp (key a) (key b)); naive_solver.
Qed.

(** [sorted(l, key=key)] *)
Definition sort_by (l : list A) : list A := merge_sort (le_by key) l.

Lemma sort_by_perm l : sort_by l ≡ₚ l.
Proof. apply merge_sort_Permutation. Qed.

Lemma elem_of_sort_by l x : x ∈ sort_by l ↔ x ∈ l.
Proof. by rewrite sort_by_perm. Qed.

(** Keys that determine the elements of the list make the sorted list unique. *)
Lemma sort_by_unique l1 l2 :
  (∀ x y, x ∈ l1 → y ∈ l1 → key x = key y → x = y) → l1 ≡ₚ l2 → sort_by l1 = sort_by l2.
Proof.
  intros Hinj Hp. apply merge_sort_perm; [apply _|apply _| |done].
  intros x y Hx Hy H1 H2. by apply Hinj, le_by_antisym.
Qed.

Lemma sort_by_idemp l :
  (∀ x y, x ∈ l → y ∈ l → key x = key y → x = y) → sort_by (sort_by l) = sort_by l.
Proof. intros Hinj. symmetry. apply sort_by_unique; [done|]. by rewrite sort_by_perm. Qed.
End le_by.

(** [tuple(sorted(set(l), key=key))] *)
Definition sorted_set {A K} `{EqDecision A} `{Ordered K} (key : A → K) (l : list A) : list A :=
  sort_by key (remove_dups l).

Section sorted_set.
Context {A K : Type} `{EqDecision A} `{Ordered K} (key : A → K).

Lemma elem_of_sorted_set l x : x ∈ sorted_set key l ↔ x ∈ l.
Proof. unfold sorted_set. by rewrite elem_of_sort_by, elem_of_remove_dups. Qed.

(** What is sorted and has no duplicates is a fixed point. *)
Lemma sorted_set_fixed l : Inj (=) (=) key → NoDup l → sorted_set key (sort_by key l) = sort_by key l.
Proof.
  intros Hinj Hnd. unfold sorted_set. apply sort_by_unique.
  - intros x y _ _ E. by apply Hinj.
  - apply NoDup_Permutation; [apply NoDup_remove_dups|done|].
    intros x. by rewrite elem_of_remove_dups, elem_of_sort_by.
Qed.
End sorted_set.
