(* ===== verification/Loop.v ===== *)
(** * Bounded while loops

    [while True: ...] whose body either continues with a new state or leaves with a
    result.  The bound is a binary number, so that a bound of a gigabyte costs nothing:
    [run_loop p f s] runs the body at most [p] times.  [run_loop_terminates] is how a
    client shows that its bound is enough. *)

From S2P Require Import Prelude.

Inductive step (S R : Type) := Continue (s : S) | Leave (r : R).
Arguments Continue {S R} s.
Arguments Leave {S R} r.

Fixpoint run_loop {S R} (p : positive) (f : S → step S R) (s : S) : step S R :=
  match p with
  | xH => f s
  | xO p =>
      match run_loop p f s with Leave r => Leave r | Continue s => run_loop p f s end
  | xI p =>
      match f s with
      | Leave r => Leave r
      | Continue s =>
          match run_loop p f s with Leave r => Leave r | Continue s => run_loop p f s end
      end
  end.

(** The result, [None] when the bound was too small. *)
Definition leave {S R} (o : step S R) : option R := match o with Leave r => Some r | Continue _ => None end.

(** A loop that outruns its bound.  No modelled loop does: see the [_terminates] lemmas. *)
Definition bounded {S R} (o : step S R) : result R := of_option (AssertionError "loop bound") (leave o).

Section loop.
Context {T R : Type} (f : T → step T R).

(** The loop run exactly [n] times, for reasoning. *)
Fixpoint steps (n : nat) (s : T) : step T R :=
  match n with
  | O => Continue s
  | S n => match f s with Leave r => Leave r | Continue s => steps n s end
  end.

Lemma steps_add n m s :
  steps (n + m) s = match steps n s with Leave r => Leave r | Continue s => steps m s end.
Proof. revert s. induction n as [|n IH]; intros s; simpl; [done|]. by destruct (f s). Qed.

Lemma run_loop_steps p s : run_loop p f s = steps (Pos.to_nat p) s.
Proof.
  revert s. induction p as [p IH|p IH|]; intros s; cbn [run_loop].
  - rewrite Pos2Nat.inj_xI. simpl. destruct (f s) as [s'|r]; [|done].
    rewrite Nat.add_0_r, steps_add, IH. destruct (steps _ s'); [|done]. apply IH.
  - rewrite Pos2Nat.inj_xO. simpl. rewrite Nat.add_0_r, steps_add, IH.
    destruct (steps _ s); [|done]. apply IH.
  - change (Pos.to_nat 1) with 1%nat. simpl. by destruct (f s).
Qed.

(** What holds initially and is kept by every iteration holds where the loop leaves. *)
Lemma run_loop_ind (P : T → Prop) (Q : R → Prop) p s r :
  run_loop p f s = Leave r → P s →
  (∀ s s', P s → f s = Continue s' → P s') → (∀ s r, P s → f s = Leave r → Q r) → Q r.
Proof.
  rewrite run_loop_steps. intros H Hs Hc Hl. revert s H Hs.
  induction (Pos.to_nat p) as [|n IH]; intros s H Hs; simpl in H; [done|].
  destruct (f s) as [s'|r'] eqn:E; [eauto|]. injection H as <-. eauto.
Qed.

(** A measure that every continuing iteration decreases bounds the iterations. *)
Lemma run_loop_terminates (P : T → Prop) (μ : T → Z) p s :
  P s → (∀ s s', P s → f s = Continue s' → P s' ∧ 0 ≤ μ s' < μ s)%Z →
  (0 ≤ μ s < Z.pos p)%Z → ∃ r, run_loop p f s = Leave r.
Proof.
  rewrite run_loop_steps. intros Hs Hstep Hμ.
  assert (μ s < Z.of_nat (Pos.to_nat p))%Z as Hlt by lia. destruct Hμ as [H0 _].
  revert s Hs H0 Hlt.
  induction (Pos.to_nat p) as [|n IH]; intros s Hs H0 Hlt; [lia|]. simpl.
  destruct (f s) as [s'|r] eqn:E; [|eauto]. destruct (Hstep s s' Hs E) as [Hs' Hμ]. apply IH; [done|lia|lia].
Qed.
End loop.
