(* ===== verification/Effects.v ===== *)
(** * Programs with a state and exceptions

    [eff S A] is a program over a state [S] that returns an [A] or raises: the state
    survives an exception, as it does in Python.  The event store runs over its tables and
    the artifact store over the world of system calls. *)

From S2P Require Import Prelude.

Definition eff (S A : Type) : Type := S → result A * S.

#[export] Instance eff_ret {S} : MRet (eff S) := λ A a s, (Ok a, s).
#[export] Instance eff_bind {S} : MBind (eff S) := λ A B f m s,
  match m s with (Ok a, s') => f a s' | (Err e, s') => (Err e, s') end.

Definition lift {S A} (r : result A) : eff S A := λ s, (r, s).

(** [exceptM f m] is [try: m; except E as error: raise f(error)]. *)
Definition exceptM {S A} (f : exn → exn) (m : eff S A) : eff S A := λ s,
  match m s with (Ok a, s') => (Ok a, s') | (Err e, s') => (Err (f e), s') end.

(** [try: m; except ...: handler]; [None] lets the exception through. *)
Definition catch {S A} (m : eff S A) (handler : exn → option (eff S A)) : eff S A := λ s,
  match m s with
  | (Ok a, s') => (Ok a, s')
  | (Err e, s') => match handler e with Some h => h s' | None => (Err e, s') end
  end.

(** [try: m; finally: cleanup]: the cleanup may depend on how [m] ended; an exception of
    the cleanup replaces that of the body. *)
Definition finally {S A} (m : eff S A) (cleanup : result A → eff S unit) : eff S A := λ s,
  match m s with
  | (r, s') => match cleanup r s' with (Ok _, s'') => (r, s'') | (Err e, s'') => (Err e, s'') end
  end.

(** [for x in l: f(x)] *)
Fixpoint forM {S A} (f : A → eff S unit) (l : list A) : eff S unit :=
  match l with
  | [] => mret tt
  | x :: l => _ ← f x; forM f l
  end.

(** [[f(x) for x in l]] *)
Fixpoint mapM_eff {S A B} (f : A → eff S B) (l : list A) : eff S (list B) :=
  match l with
  | [] => mret []
  | x :: l => y ← f x; ys ← mapM_eff f l; mret (y :: ys)
  end.

(** ** Inversion *)

Section inversion.
Context {S A B : Type}.
Implicit Types (m : eff S A) (f : A → eff S B) (s : S).

Lemma bindM_Ok m f s b s' : (m ≫= f) s = (Ok b, s') ↔ ∃ a s1, m s = (Ok a, s1) ∧ f a s1 = (Ok b, s').
Proof.
  unfold mbind, eff_bind. destruct (m s) as [[a|e] s1]; split.
  - eauto.
  - intros (a' & s2 & [= -> ->] & H). done.
  - done.
  - intros (a' & s2 & [=] & _).
Qed.

Lemma bindM_Err m f s e s' :
  (m ≫= f) s = (Err e, s') ↔ m s = (Err e, s') ∨ ∃ a s1, m s = (Ok a, s1) ∧ f a s1 = (Err e, s').
Proof.
  unfold mbind, eff_bind. destruct (m s) as [[a|e'] s1]; split.
  - intros H. right. eauto.
  - intros [[=]|(a' & s2 & [= -> ->] & H)]. done.
  - intros [= -> ->]. by left.
  - intros [[= -> ->]|(a' & s2 & [=] & _)]. done.
Qed.

(** A program that ends has ended in its first part, or gone on. *)
Lemma bindM_inv m f s r s' : (m ≫= f) s = (r, s') →
  (∃ a s1, m s = (Ok a, s1) ∧ f a s1 = (r, s')) ∨ (∃ e, m s = (Err e, s') ∧ r = Err e).
Proof.
  unfold mbind, eff_bind. destruct (m s) as [[a|e] s1]; [eauto|]. intros [= <- <-]. eauto.
Qed.

Lemma retM_Ok (a b : A) s s' : (mret a : eff S A) s = (Ok b, s') ↔ b = a ∧ s' = s.
Proof. unfold mret, eff_ret. split; [by intros [= -> ->]|by intros [-> ->]]. Qed.

Lemma lift_Ok (r : result A) s a s' : lift r s = (Ok a, s') ↔ r = Ok a ∧ s' = s.
Proof. unfold lift. split; [by intros [= -> ->]|by intros [-> ->]]. Qed.

Lemma lift_Err (r : result A) s e s' : lift r s = (Err e, s') ↔ r = Err e ∧ s' = s.
Proof. unfold lift. split; [by intros [= -> ->]|by intros [-> ->]]. Qed.

Lemma exceptM_Ok h m s a s' : exceptM h m s = (Ok a, s') ↔ m s = (Ok a, s').
Proof. unfold exceptM. destruct (m s) as [[]]; split; try done; by intros [= -> ->]. Qed.

Lemma finally_Ok m c s a s' :
  finally m c s = (Ok a, s') ↔ ∃ s1, m s = (Ok a, s1) ∧ c (Ok a) s1 = (Ok tt, s').
Proof.
  unfold finally. destruct (m s) as [r s1]. destruct (c r s1) as [[[]|e] s2] eqn:E; split.
  - intros [= -> ->]. eauto.
  - intros (s3 & [= -> ->] & H). rewrite E in H. by injection H as ->.
  - done.
  - intros (s3 & [= -> ->] & H). rewrite E in H. done.
Qed.

Lemma catch_Ok m h s a s' : catch m h s = (Ok a, s') ↔
  m s = (Ok a, s') ∨ ∃ e s1 k, m s = (Err e, s1) ∧ h e = Some k ∧ k s1 = (Ok a, s').
Proof.
  unfold catch. destruct (m s) as [[a'|e] s1]; [naive_solver|].
  destruct (h e) as [k|] eqn:E; naive_solver.
Qed.
End inversion.

(** Opens the run of a program that returned. *)
Ltac inv_eff_step :=
  match goal with
  | H : (_ ≫= _) _ = (Ok _, _) |- _ =>
      let a := fresh "a" in let s := fresh "s" in let Ha := fresh "H" in
      apply bindM_Ok in H; destruct H as (a & s & Ha & H)
  | H : mret _ _ = (Ok _, _) |- _ => apply retM_Ok in H; destruct H as [? ?]; try subst
  | H : lift _ _ = (Ok _, _) |- _ => apply lift_Ok in H; destruct H as [H ?]; try subst
  | H : exceptM _ _ _ = (Ok _, _) |- _ => apply exceptM_Ok in H
  end.

(** ** What a program may raise *)

Section raises.
Context {S : Type} (P : exn → Prop).

Definition raises {A} (m : eff S A) : Prop := ∀ s e s', m s = (Err e, s') → P e.

Lemma raises_ret {A} (a : A) : raises (mret a).
Proof. by intros s e s' [=]. Qed.
Lemma raises_lift {A} (r : result A) : (∀ e, r = Err e → P e) → raises (lift r).
Proof. intros H s e s' [= -> <-]. by apply H. Qed.
Lemma raises_bind {A B} (m : eff S A) (f : A → eff S B) : raises m → (∀ a, raises (f a)) → raises (m ≫= f).
Proof. intros Hm Hf s e s' [H|(a & s1 & _ & H)]%bindM_Err; [by eapply Hm|by eapply Hf]. Qed.
Lemma raises_forM {A} (f : A → eff S unit) l : (∀ a, raises (f a)) → raises (forM f l).
Proof. intros Hf. induction l as [|a l IH]; simpl; [apply raises_ret|by apply raises_bind]. Qed.
Lemma raises_mapM {A B} (f : A → eff S B) l : (∀ a, raises (f a)) → raises (mapM_eff f l).
Proof.
  intros Hf. induction l as [|a l IH]; simpl; [apply raises_ret|]. apply raises_bind; [apply Hf|intros ?].
  apply raises_bind; [apply IH|intros ?; apply raises_ret].
Qed.
Lemma raises_finally {A} (m : eff S A) c : raises m → (∀ r, raises (c r)) → raises (finally m c).
Proof.
  intros Hm Hc s e s'. unfold finally. destruct (m s) as [r s1] eqn:E1, (c r s1) as [[u|e2] s2] eqn:E2.
  - intros [= -> <-]. by eapply Hm.
  - intros [= <- <-]. by eapply Hc.
Qed.
Lemma raises_exceptM {A} f (m : eff S A) : (∀ s e s', m s = (Err e, s') → P (f e)) → raises (exceptM f m).
Proof. intros Hm s e s'. unfold exceptM. destruct (m s) as [[a|e0] s1] eqn:E; [done|]. intros [= <- <-]. by eapply Hm. Qed.
Lemma raises_catch {A} (m : eff S A) h :
  (∀ s e s', m s = (Err e, s') → match h e with Some k => raises k | None => P e end) → raises (catch m h).
Proof.
  intros Hm s e s'. unfold catch. destruct (m s) as [[a|e0] s1] eqn:E; [done|]. specialize (Hm _ _ _ E).
  destruct (h e0) as [k|]; [by apply Hm|]. by intros [= <- <-].
Qed.
End raises.
