(* ===== verification/PyStr.v ===== *)
(** * Python strings

    Python [str] values are modelled by [string] with one [ascii] per code point, so over
    the code points U+0000..U+00FF.  This file has the string methods the sources use
    ([strip], [startswith], [removeprefix], slicing, membership of a character class),
    UTF-8 encoding, and decimal numerals, with the lemmas the JSON and domain layers
    need. *)

From Stdlib Require Import Ascii Decimal DecimalString DecimalN DecimalFacts.
From S2P Require Import Prelude.
Import String.

Local Open Scope N_scope.

#[global] Arguments String.append !s1 s2 / : simpl nomatch, rename.

(** ** Characters *)

Definition code (c : ascii) : N := N_of_ascii c.
Definition chr (n : N) : ascii := ascii_of_N n.

Lemma code_chr n : n < 256 → code (chr n) = n.
Proof. apply N_ascii_embedding. Qed.
Lemma chr_code c : chr (code c) = c.
Proof. apply ascii_N_embedding. Qed.
Lemma code_bound c : code c < 256.
Proof. destruct c as [[] [] [] [] [] [] [] []]; reflexivity. Qed.
Lemma code_inj c d : code c = code d → c = d.
Proof. intros H. by rewrite <- (chr_code c), H, chr_code. Qed.

(** [for every character] by computation over the 256 code points. *)
Definition all_chars : list ascii := chr <$> (N.of_nat <$> seq 0 256).

Lemma all_chars_complete c : c ∈ all_chars.
Proof.
  unfold all_chars. apply list_elem_of_fmap. exists (code c). split; [by rewrite chr_code|].
  apply list_elem_of_fmap. exists (N.to_nat (code c)). split; [lia|].
  apply elem_of_seq. pose proof (code_bound c). lia.
Qed.

Lemma forall_chars (P : ascii → bool) : forallb P all_chars = true → ∀ c, P c = true.
Proof.
  intros H c. rewrite forallb_forall in H. apply H, list_elem_of_In, all_chars_complete.
Qed.

(** [str.isspace] on one character, as used by [str.strip]. *)
Definition py_isspace (c : ascii) : bool :=
  let n := code c in
  ((9 <=? n) && (n <=? 13)) || ((28 <=? n) && (n <=? 32)) || (n =? 133) || (n =? 160).

(** The Unicode [White_Space] property, which pydantic's [strip_whitespace] uses: unlike
    Python's it leaves the information separators U+001C..U+001F in place. *)
Definition unicode_ws (c : ascii) : bool :=
  let n := code c in
  ((9 <=? n) && (n <=? 13)) || (n =? 32) || (n =? 133) || (n =? 160).

Definition is_lower_hex_char (c : ascii) : bool :=
  let n := code c in ((48 <=? n) && (n <=? 57)) || ((97 <=? n) && (n <=? 102)).

Definition is_digit (c : ascii) : bool :=
  let n := code c in (48 <=? n) && (n <=? 57).

(** ** Strings *)

Fixpoint str_all (f : ascii → bool) (s : string) : bool :=
  match s with
  | EmptyString => true
  | String c s => f c && str_all f s
  end.

Fixpoint lstrip (f : ascii → bool) (s : string) : string :=
  match s with
  | EmptyString => EmptyString
  | String c s' => if f c then lstrip f s' else s
  end.

Fixpoint rstrip (f : ascii → bool) (s : string) : string :=
  match s with
  | EmptyString => EmptyString
  | String c s' =>
      match rstrip f s' with
      | EmptyString => if f c then EmptyString else String c EmptyString
      | r => String c r
      end
  end.

(** [value.strip()] *)
Definition py_strip (s : string) : string := rstrip py_isspace (lstrip py_isspace s).

(** [StringConstraints(strip_whitespace=True)] *)
Definition strip_whitespace (s : string) : string := rstrip unicode_ws (lstrip unicode_ws s).

Definition str_nonempty (s : string) : bool := negb (String.eqb s "").

(** [bool(value.strip())] *)
Definition py_strip_nonempty (s : string) : bool := str_nonempty (py_strip s).

Definition str_eqb : string → string → bool := String.eqb.

Lemma existsb_str x l : existsb (str_eqb x) l = true ↔ x ∈ l.
Proof.
  rewrite existsb_exists. unfold str_eqb. setoid_rewrite String.eqb_eq. setoid_rewrite list_elem_of_In. naive_solver.
Qed.

(** [value.startswith(p)] *)
Definition startswith (p s : string) : bool := String.prefix p s.

(** [value.removeprefix(p)] *)
Definition removeprefix (p s : string) : string :=
  if String.prefix p s then String.substring (String.length p) (String.length s) s else s.

(** [value[:n]] *)
Definition take_prefix (n : nat) (s : string) : string := String.substring 0 n s.

(** [len(value) == 64 and all(character in "0123456789abcdef" for character in value)] *)
Definition is_lower_hex (n : nat) (s : string) : bool :=
  Nat.eqb (String.length s) n && str_all is_lower_hex_char s.
Definition is_lower_sha256 (s : string) : bool := is_lower_hex 64 s.

(** ** Stripping *)

Lemma str_all_lstrip f s : lstrip f s = EmptyString ↔ str_all f s = true.
Proof. induction s as [|c s IH]; simpl; [done|]. by destruct (f c). Qed.

Lemma rstrip_empty f s : rstrip f s = EmptyString ↔ str_all f s = true.
Proof.
  induction s as [|c s IH]; simpl; [done|].
  destruct (rstrip f s) eqn:E.
  - destruct (f c); simpl; [by rewrite <- IH|done].
  - split; [done|]. intros H%andb_true_iff. destruct H as [_ H%IH]. done.
Qed.

Lemma rstrip_idemp f s : rstrip f (rstrip f s) = rstrip f s.
Proof.
  induction s as [|c s IH]; simpl; [done|].
  destruct (rstrip f s) as [|d r] eqn:E.
  - destruct (f c) eqn:Ec; simpl; [done|by rewrite Ec].
  - simpl in *. rewrite IH. done.
Qed.

Lemma lstrip_head f s : lstrip f s = s ↔ match s with String c _ => f c = false | _ => True end.
Proof.
  destruct s as [|c s]; simpl; [done|]. destruct (f c) eqn:E; [|done].
  split; [|done]. intros H. exfalso.
  assert (∀ s, (String.length (lstrip f s) ≤ String.length s)%nat) as Hlen.
  { clear. induction s; simpl; [lia|]. destruct (f a); simpl; lia. }
  specialize (Hlen s). rewrite H in Hlen. simpl in Hlen. lia.
Qed.

Lemma rstrip_head f s :
  match rstrip f s with
  | String c _ => match s with String d _ => c = d | _ => False end
  | _ => True
  end.
Proof.
  destruct s as [|c s]; simpl; [done|].
  destruct (rstrip f s); [by destruct (f c)|done].
Qed.

Lemma lstrip_not_head f s : match lstrip f s with String c _ => f c = false | _ => True end.
Proof. induction s as [|c s IH]; simpl; [done|]. by destruct (f c) eqn:E. Qed.

(** A stripped string is a fixed point of stripping. *)
Lemma strip_idemp f s : rstrip f (lstrip f (rstrip f (lstrip f s))) = rstrip f (lstrip f s).
Proof.
  rewrite (proj2 (lstrip_head f (rstrip f (lstrip f s)))); [apply rstrip_idemp|].
  pose proof (rstrip_head f (lstrip f s)) as H1. pose proof (lstrip_not_head f s) as H2.
  destruct (rstrip f (lstrip f s)); [done|].
  destruct (lstrip f s); [done|]. by subst.
Qed.

Lemma strip_whitespace_idemp s : strip_whitespace (strip_whitespace s) = strip_whitespace s.
Proof. apply strip_idemp. Qed.

(** A string without white space is not changed by stripping. *)
Lemma strip_id (f g : ascii → bool) s :
  (∀ c, g c = true → f c = false) → str_all g s = true → rstrip f (lstrip f s) = s.
Proof.
  intros Hfg Hs.
  assert (∀ s, str_all g s = true → rstrip f s = s) as Hr.
  { clear s Hs. induction s as [|c s IH]; simpl; intros H; [done|]. split_andb.
    rewrite IH by done. destruct s; [|done]. by rewrite Hfg. }
  rewrite (proj2 (lstrip_head f s)); [by apply Hr|].
  destruct s; simpl in *; [done|]. split_andb. auto.
Qed.

Lemma lower_hex_not_ws c : is_lower_hex_char c = true → unicode_ws c = false.
Proof.
  intros H. pose proof (forall_chars
    (λ c, implb (is_lower_hex_char c) (negb (unicode_ws c))) ltac:(vm_compute; reflexivity) c) as Hc.
  simpl in Hc. rewrite H in Hc. by apply negb_true_iff in Hc.
Qed.

Lemma lower_hex_not_space c : is_lower_hex_char c = true → py_isspace c = false.
Proof.
  intros H. pose proof (forall_chars
    (λ c, implb (is_lower_hex_char c) (negb (py_isspace c))) ltac:(vm_compute; reflexivity) c) as Hc.
  simpl in Hc. rewrite H in Hc. by apply negb_true_iff in Hc.
Qed.

(** Every string Python considers blank of those pydantic accepts as nonblank consists of
    information separators; the converse inclusion holds without exception. *)
Lemma unicode_ws_py_isspace c : unicode_ws c = true → py_isspace c = true.
Proof.
  intros H. pose proof (forall_chars
    (λ c, implb (unicode_ws c) (py_isspace c)) ltac:(vm_compute; reflexivity) c) as Hc.
  simpl in Hc. by rewrite H in Hc.
Qed.

Lemma str_all_impl (f g : ascii → bool) s :
  (∀ c, f c = true → g c = true) → str_all f s = true → str_all g s = true.
Proof. intros Hfg. induction s; simpl; intros; split_andb; [done|]. rewrite Hfg, IHs; auto. Qed.

Lemma str_all_app f s1 s2 : str_all f (s1 +:+ s2) = str_all f s1 && str_all f s2.
Proof. induction s1; simpl; [done|]. rewrite IHs1. by rewrite andb_assoc. Qed.

Lemma py_strip_nonempty_strip s : py_strip_nonempty s = true → str_nonempty (strip_whitespace s) = true.
Proof.
  unfold py_strip_nonempty, str_nonempty. rewrite !negb_true_iff, !String.eqb_neq.
  intros H Hs. apply H. unfold py_strip, strip_whitespace in *.
  assert (str_all py_isspace s = true) as Hall.
  { apply (str_all_impl unicode_ws); [apply unicode_ws_py_isspace|].
    apply rstrip_empty in Hs. clear H. revert Hs. induction s as [|c s IH]; simpl; [done|].
    destruct (unicode_ws c) eqn:E; simpl; [done|]. by rewrite E. }
  by rewrite (proj2 (str_all_lstrip _ _) Hall).
Qed.

(** ** UTF-8 *)

Definition byte_of (n : N) : Byte.byte :=
  match Byte.of_N n with Some b => b | None => Byte.x00 end.

(** [value.encode("utf-8")] *)
Definition utf8_char (c : ascii) : list Byte.byte :=
  let n := code c in
  if n <? 128 then [byte_of n] else [byte_of (192 + n / 64); byte_of (128 + n mod 64)].

Fixpoint utf8_encode (s : string) : list Byte.byte :=
  match s with
  | EmptyString => []
  | String c s => (utf8_char c ++ utf8_encode s)%list
  end.

(** [data.decode("utf-8")], for the code points of the model. *)
Fixpoint utf8_decode (bs : list Byte.byte) : option string :=
  match bs with
  | [] => Some EmptyString
  | b :: bs' =>
      let n := Byte.to_N b in
      if n <? 128 then String (chr n) <$> utf8_decode bs'
      else if (194 <=? n) && (n <=? 195) then
        match bs' with
        | b2 :: bs'' =>
            let m := Byte.to_N b2 in
            if (128 <=? m) && (m <=? 191)
            then String (chr (64 * (n - 192) + (m - 128))) <$> utf8_decode bs''
            else None
        | [] => None
        end
      else None
  end.

Lemma utf8_decode_char c bs :
  utf8_decode (utf8_char c ++ bs)%list = String c <$> utf8_decode bs.
Proof. destruct c as [[] [] [] [] [] [] [] []]; reflexivity. Qed.

Lemma utf8_decode_encode s : utf8_decode (utf8_encode s) = Some s.
Proof.
  induction s as [|c s IH]; [done|]. cbn [utf8_encode].
  by rewrite utf8_decode_char, IH.
Qed.

Lemma utf8_encode_inj s1 s2 : utf8_encode s1 = utf8_encode s2 → s1 = s2.
Proof. intros H. apply (f_equal utf8_decode) in H. rewrite !utf8_decode_encode in H. by injection H. Qed.

(** ** Decimal numerals *)

(** [str(n)] for a nonnegative integer. *)
Definition dec (n : N) : string := NilEmpty.string_of_uint (N.to_uint n).

(** [int(s)] of a string of decimal digits, continuing from [acc]. *)
Fixpoint dval (acc : N) (s : string) : N :=
  match s with
  | EmptyString => acc
  | String c s => dval (10 * acc + (code c - 48)) s
  end.

(** The longest run of decimal digits at the head of a string, and the rest. *)
Fixpoint take_digits (s : string) : string * string :=
  match s with
  | EmptyString => (EmptyString, EmptyString)
  | String c s' =>
      if is_digit c then (String c (take_digits s').1, (take_digits s').2)
      else (EmptyString, s)
  end.

Definition head_not (f : ascii → bool) (s : string) : Prop :=
  match s with EmptyString => True | String c _ => f c = false end.

Fixpoint zeros (n : nat) : string :=
  match n with O => EmptyString | S n => String "0" (zeros n) end.

(** [f"{n:0{w}d}"]: zero padding on the left to a minimum width. *)
Definition zero_pad (w : nat) (n : N) : string :=
  let s := dec n in zeros (w - String.length s) +:+ s.

Lemma str_app_assoc s1 s2 s3 : (s1 +:+ s2) +:+ s3 = s1 +:+ (s2 +:+ s3).
Proof. induction s1 as [|c s1 IH]; simpl; [done|]. by rewrite IH. Qed.

Lemma str_app_nil_r s : s +:+ "" = s.
Proof. induction s as [|c s IH]; simpl; [done|]. by rewrite IH. Qed.

Lemma str_length_app s1 s2 :
  String.length (s1 +:+ s2) = (String.length s1 + String.length s2)%nat.
Proof. induction s1; simpl; auto. Qed.

Lemma take_digits_app ds rest :
  str_all is_digit ds = true → head_not is_digit rest → take_digits (ds +:+ rest) = (ds, rest).
Proof.
  intros Hds Hr. induction ds as [|c ds IH]; simpl in *.
  - destruct rest; simpl in *; [done|]. by rewrite Hr.
  - split_andb. by rewrite H, IH.
Qed.

Lemma dval_app acc s1 s2 : dval acc (s1 +:+ s2) = dval (dval acc s1) s2.
Proof. revert acc. induction s1; intros; simpl; auto. Qed.

Lemma dval_zeros acc k : dval acc (zeros k) = acc * 10 ^ N.of_nat k.
Proof.
  revert acc. induction k as [|k IH]; intros acc; simpl; [lia|].
  rewrite IH. change (code "0" - 48) with 0.
  rewrite Nat2N.inj_succ, N.pow_succ_r'. lia.
Qed.

Lemma dval_string_of_uint_acc d acc :
  dval (Npos acc) (NilEmpty.string_of_uint d) = Npos (Pos.of_uint_acc d acc).
Proof.
  revert acc. induction d; intros acc; [done|..];
    cbn [NilEmpty.string_of_uint dval Pos.of_uint_acc]; rewrite <- IHd; f_equal;
    match goal with |- context [code ?c] => let v := eval vm_compute in (code c) in
      change (code c) with v end; lia.
Qed.

Lemma dval_string_of_uint d : dval 0 (NilEmpty.string_of_uint d) = N.of_uint d.
Proof.
  induction d; [done|..]; cbn [NilEmpty.string_of_uint dval]; [exact IHd|..];
    rewrite <- ?dval_string_of_uint_acc; try done;
    match goal with |- dval ?a _ = N.of_uint ?u =>
      let v := eval vm_compute in a in change a with v;
      rewrite dval_string_of_uint_acc; reflexivity end.
Qed.

(** Reading back a printed numeral gives the number. *)
Lemma dval_dec n : dval 0 (dec n) = n.
Proof. unfold dec. rewrite dval_string_of_uint. apply DecimalN.Unsigned.of_to. Qed.

Lemma dec_inj n m : dec n = dec m → n = m.
Proof. intros H. apply (f_equal (dval 0)) in H. by rewrite !dval_dec in H. Qed.

Lemma dec_all_digits n : str_all is_digit (dec n) = true.
Proof. unfold dec. generalize (N.to_uint n) as d. induction d; simpl; auto. Qed.

Lemma zeros_all_digits k : str_all is_digit (zeros k) = true.
Proof. induction k; simpl; auto. Qed.

Lemma zeros_length k : String.length (zeros k) = k.
Proof. induction k; simpl; auto. Qed.

Lemma dec_nonempty n : dec n ≠ "".
Proof.
  unfold dec. assert (N.to_uint n ≠ Nil) as H.
  { destruct n; [done|]. simpl. apply DecimalPos.Unsigned.to_uint_nonnil. }
  by destruct (N.to_uint n).
Qed.

Lemma dec_head n : ∃ c s, dec n = String c s ∧ is_digit c = true.
Proof.
  pose proof (dec_all_digits n) as H1. pose proof (dec_nonempty n).
  destruct (dec n); [done|]; simpl in *. split_andb. eauto.
Qed.

Lemma zero_pad_all_digits w n : str_all is_digit (zero_pad w n) = true.
Proof. unfold zero_pad. by rewrite str_all_app, zeros_all_digits, dec_all_digits. Qed.

Lemma dval_zero_pad w n : dval 0 (zero_pad w n) = n.
Proof. unfold zero_pad. by rewrite dval_app, dval_zeros, N.mul_0_l, dval_dec. Qed.

Lemma zero_pad_inj w n m : zero_pad w n = zero_pad w m → n = m.
Proof. intros H. apply (f_equal (dval 0)) in H. by rewrite !dval_zero_pad in H. Qed.

(** A numeral below [10 ^ w] is padded to exactly [w] characters. *)
Lemma dval_bound s acc :
  str_all is_digit s = true →
  acc * 10 ^ N.of_nat (String.length s) ≤ dval acc s < (acc + 1) * 10 ^ N.of_nat (String.length s).
Proof.
  revert acc. induction s as [|c s IH]; intros acc H; cbn [String.length dval str_all] in *.
  { simpl. lia. }
  split_andb. specialize (IH (10 * acc + (code c - 48)) H0).
  rewrite Nat2N.inj_succ, N.pow_succ_r'. unfold is_digit in H. split_andb.
  apply N.leb_le in H, H1. nia.
Qed.

Lemma dec_to_uint_unorm n : N.to_uint n = Decimal.unorm (N.to_uint n).
Proof. rewrite <- (DecimalN.Unsigned.to_of (N.to_uint n)), DecimalN.Unsigned.of_to. done. Qed.

(** A numeral of more than one digit does not begin with a zero. *)
Lemma dec_no_lead_zero n : 0 < n → ∃ c s, dec n = String c s ∧ 49 ≤ code c ≤ 57.
Proof.
  intros Hn. unfold dec. pose proof (dec_to_uint_unorm n) as Hu.
  assert (N.to_uint n ≠ D0 Nil) as Hne.
  { intros H. apply (f_equal N.of_uint) in H. rewrite DecimalN.Unsigned.of_to in H.
    change (N.of_uint (D0 Nil)) with 0 in H. lia. }
  pose proof (dec_nonempty n) as Hnil. unfold dec in Hnil.
  destruct (N.to_uint n) as [|d|d|d|d|d|d|d|d|d|d] eqn:E; simpl;
    [done| |eexists _, _; split; [reflexivity|vm_compute; done]..].
  exfalso. unfold Decimal.unorm in Hu. simpl in Hu.
  destruct (nzhead d) eqn:E2; try done.
  by apply (DecimalFacts.nzhead_nonzero d u).
Qed.

Lemma dec_length_bound n w : n < 10 ^ N.of_nat w → (0 < w)%nat → (String.length (dec n) ≤ w)%nat.
Proof.
  intros Hn Hw. destruct (decide (n = 0)) as [->|H0]; [vm_compute; lia|].
  destruct (dec_no_lead_zero n) as (c & s & E & Hc); [lia|].
  pose proof (dval_dec n) as Hv. pose proof (dec_all_digits n) as Hd.
  rewrite E in *. cbn [dval str_all String.length] in *. split_andb.
  pose proof (dval_bound s (10 * 0 + (code c - 48))) as Hlo. rewrite Hv in Hlo.
  specialize (Hlo ltac:(done)).
  destruct (decide (String.length s < w)%nat) as [|Hge]; [lia|]. exfalso.
  assert (10 ^ N.of_nat w ≤ 10 ^ N.of_nat (String.length s)) by (apply N.pow_le_mono_r; lia).
  nia.
Qed.

Lemma zero_pad_length w n :
  n < 10 ^ N.of_nat w → (0 < w)%nat → String.length (zero_pad w n) = w.
Proof.
  intros. unfold zero_pad. rewrite str_length_app, zeros_length.
  pose proof (dec_length_bound n w). lia.
Qed.
