(* ===== verification/Files.v ===== *)
(** * The file system, as a reader sees it

    What the system calls of src/guildmind/storage/ answer: [os.lstat], [os.scandir],
    [os.open] with [O_NOFOLLOW], [os.fstat], [os.read] and [Path.resolve], each with its
    failures.  A [FileSystem] answers during a window in which nothing changes; a [World]
    answers one call after another, so that anything may change between two calls.
    Paths are lists of components below the root.  Error numbers are Linux's. *)

From Stdlib Require Import Strings.Byte.
From S2P Require Import Prelude Effects PyStr.

Local Open Scope Z_scope.

Definition ENOENT : Z := 2.
Definition EIO : Z := 5.
Definition EEXIST : Z := 17.
Definition EINVAL : Z := 22.
Definition EROFS : Z := 30.
Definition ELOOP : Z := 40.

(** A system call returns, or raises [OSError] with its [errno] attribute. *)
Inductive os_result (A : Type) := Done (a : A) | OSError (number : option Z).
Arguments Done {A} a.
Arguments OSError {A} number.

(** [isinstance(error, FileNotFoundError)] *)
Definition not_found (number : option Z) : bool := bool_decide (number = Some ENOENT).

#[export] Instance byte_eq_decision : EqDecision Byte.byte := Byte.byte_eq_dec.

Definition path := list string.

(** [path.parent] and [path.name] *)
Definition path_parent (p : path) : path := removelast p.
Definition path_name (p : path) : string := List.last p "".

(** [stat.S_ISREG(mode)] and so on. *)
Inductive file_kind := Regular | Directory | SymbolicLink | OtherKind.
#[export] Instance file_kind_eq_dec : EqDecision file_kind.
Proof. solve_decision. Defined.

Record stat_result := {
  st_kind : file_kind;
  st_perm : Z;  (* [stat.S_IMODE(mode)] *)
  st_dev : Z;
  st_ino : Z;
  st_nlink : Z;
  st_size : Z;
  st_mtime_ns : Z;
  st_ctime_ns : Z;
}.

Definition is_kind (k : file_kind) (m : stat_result) : bool := bool_decide (st_kind m = k).

(** A directory entry's name is text, or bytes that no text encodes. *)
Inductive entry_name := Name (s : string) | RawName (raw : list Byte.byte).

Record DirEntry := {
  de_name : entry_name;
  de_stat : os_result stat_result;  (* [entry.stat(follow_symlinks=False)] *)
}.

(** The entries an [os.scandir] yields, and the error that ends it early, if any. *)
Record listing := { entries : list DirEntry; scan_error : option (option Z) }.

(** An open file: what [os.fstat] answers at first and once the reading is over, the
    [k]-th read of at most [n] bytes, and what [os.close] answers where the file is opened
    and closed within one moment; where it is not, closing is the effect [CloseFile]. *)
Record descriptor := {
  fd_stat : os_result stat_result;
  fd_final_stat : os_result stat_result;
  fd_read : nat → Z → os_result (list Byte.byte);
  fd_close : os_result unit;
}.

(** The reads of a descriptor, from the [k]-th on, deliver these bytes and then end. *)
Inductive delivers (fd : descriptor) : nat → list Byte.byte → Prop :=
  | delivers_end k n : fd_read fd k n = Done [] → delivers fd k []
  | delivers_more k n chunk bs : fd_read fd k n = Done chunk → chunk ≠ [] →
      delivers fd (S k) bs → delivers fd k (chunk ++ bs).

Class FileSystem := {
  lstat : path → os_result stat_result;
  scandir : path → listing;
  open_file : path → os_result descriptor;
  resolve : bool → path → os_result path;  (* [Path.resolve(strict=...)] *)
}.

(** [_errno(error)] of integrity.py *)
Definition _errno (number : option Z) : Z :=
  match number with Some n => if 0 <=? n then n else EIO | None => EIO end.

(** [try: r; finally: os.close(descriptor)] within one moment: the [OSError] of closing
    replaces how the body ended. *)
Definition closing {A} (fd : descriptor) (r : result A) : result A :=
  match fd_close fd with Done _ => r | OSError n => Err (OSException n) end.

Lemma closing_Ok {A} fd (r : result A) a : closing fd r = Ok a ↔ fd_close fd = Done tt ∧ r = Ok a.
Proof. unfold closing. destruct (fd_close fd) as [[]|n]; naive_solver. Qed.

(** ** A world that changes between calls *)

(** The calls that change something: [os.mkdir]; [tempfile.mkstemp], which returns a path;
    writing a stream and flushing it; [os.fsync] of a file and of a directory; the rename
    that never replaces; [Path.unlink]; [os.close]. *)
Inductive effect :=
  | Mkdir (p : path)
  | Mkstemp (directory : path) (prefix : string)
  | WriteFile (p : path) (data : list Byte.byte)
  | FsyncFile (p : path)
  | FsyncDirectory (p : path)
  | RenameNoreplace (source target : path)
  | Unlink (p : path)
  | CloseFile
  (* the calls on descriptors of Descriptors.v *)
  | OpenFd (fd : Z)
  | CreateFd (directory : Z) (name : string) (fd : Z)
  | CloseFd (fd : Z)
  | FsyncFd (fd : Z)
  | LockFd (fd : Z) (exclusive : bool)
  | UnlockFd (fd : Z)
  | WriteFd (fd : Z) (data : list Byte.byte)
  | MkdirAt (directory : Z) (name : string)
  | UnlinkAt (directory : Z) (name : string)
  | RenameAt (source : Z) (name : string) (target : Z) (new_name : string).

(** What the [n]-th call is answered, whoever else is at work. *)
Class World := {
  fs_at : nat → FileSystem;
  effect_at : nat → effect → os_result path;
}.

(** Nothing changes, and nothing can be changed. *)
Definition frozen (fs : FileSystem) : World :=
  {| fs_at := λ _, fs; effect_at := λ _ _, OSError (Some EROFS) |}.

(** How many calls were made, and the effects that succeeded, oldest first. *)
Record sys := { moment : nat; effects : list effect }.
Definition start : sys := {| moment := 0; effects := [] |}.

Abbreviation Sys := (eff sys).

Section world.
Context {world : World}.

(** A call that reads. *)
Definition call {A} (f : FileSystem → A) : Sys A := λ s,
  (Ok (f (fs_at (moment s))), {| moment := S (moment s); effects := effects s |}).

(** A call that changes something; its failure is a value, for the [except] clauses. *)
Definition attempt (e : effect) : Sys (os_result path) := λ s,
  match effect_at (moment s) e with
  | Done p => (Ok (Done p), {| moment := S (moment s); effects := effects s ++ [e] |})
  | OSError n => (Ok (OSError n), {| moment := S (moment s); effects := effects s |})
  end.

(** The same, raising [OSError]. *)
Definition perform (e : effect) : Sys path :=
  r ← attempt e;
  match r with Done p => mret p | OSError n => lift (Err (OSException n)) end.
End world.
