(* ===== verification/Descriptors.v ===== *)
(** * Calls on descriptors

    The calls of src/guildmind/storage/maintenance.py that name a file by an open
    directory and an entry, or by its descriptor: [os.open], [os.dup], [os.close],
    [os.fstat], [os.stat] and [os.scandir] below a directory, [os.fsync], [fcntl.flock].
    A [Kernel] answers each call at its moment; what a call opened, closed or locked goes
    to the log of effects that the path-based calls of Files.v share. *)

From S2P Require Import Prelude Effects PyStr Files.

Local Open Scope Z_scope.

(** What is opened: an entry of an open directory, or a path. *)
Inductive location := At (directory : Z) (name : string) | Rooted (p : path).

(** The flag sets the code opens with, all of them with [O_NOFOLLOW] and [O_CLOEXEC]:
    [_DIRECTORY_FLAGS], [_MARKER_OPEN_FLAGS], [_LOCK_OPEN_FLAGS]. *)
Inductive open_flags := DirectoryFlags | ReadFlags | ReadWriteFlags.

Class Kernel := {
  kernel_open : nat → location → open_flags → os_result Z;
  kernel_create : nat → Z → string → os_result Z;  (* [O_CREAT | O_EXCL] *)
  kernel_dup : nat → Z → os_result Z;
  kernel_close : nat → Z → os_result unit;
  kernel_fstat : nat → Z → os_result stat_result;
  kernel_stat : nat → Z → string → os_result stat_result;
  kernel_scan : nat → Z → listing;
  kernel_fsync : nat → Z → os_result unit;
  kernel_flock : nat → Z → bool → os_result unit;  (* with [LOCK_NB]; exclusively or shared *)
  kernel_unlock : nat → Z → os_result unit;
}.

(** [isinstance(error, FileExistsError)] *)
Definition file_exists (number : option Z) : bool := bool_decide (number = Some EEXIST).

(** A call's failure is a value, for the [except] clauses; [raise_os] raises it. *)
Definition raise_os {A} (o : os_result A) : Sys A :=
  match o with Done a => mret a | OSError n => lift (Err (OSException n)) end.

Section kernel.
Context {kernel : Kernel}.

(** A call that is answered and, if it succeeds, logged. *)
Definition system {A} (f : nat → os_result A) (log : A → list effect) : Sys (os_result A) := λ s,
  let o := f (moment s) in
  (Ok o, {| moment := S (moment s);
            effects := match o with Done a => effects s ++ log a | OSError _ => effects s end |}).

Definition os_open (l : location) (flags : open_flags) : Sys (os_result Z) :=
  system (λ n, kernel_open n l flags) (λ fd, [OpenFd fd]).
Definition os_create (directory : Z) (name : string) : Sys (os_result Z) :=
  system (λ n, kernel_create n directory name) (λ fd, [CreateFd directory name fd]).
Definition os_dup (fd : Z) : Sys (os_result Z) := system (λ n, kernel_dup n fd) (λ fd', [OpenFd fd']).
Definition os_fstat (fd : Z) : Sys (os_result stat_result) := system (λ n, kernel_fstat n fd) (λ _, []).
Definition os_stat (directory : Z) (name : string) : Sys (os_result stat_result) :=
  system (λ n, kernel_stat n directory name) (λ _, []).
Definition os_scandir (fd : Z) : Sys listing := λ s,
  (Ok (kernel_scan (moment s) fd), {| moment := S (moment s); effects := effects s |}).
Definition os_fsync (fd : Z) : Sys (os_result unit) := system (λ n, kernel_fsync n fd) (λ _, [FsyncFd fd]).
Definition flock (fd : Z) (exclusive : bool) : Sys (os_result unit) :=
  system (λ n, kernel_flock n fd exclusive) (λ _, [LockFd fd exclusive]).
Definition unlock (fd : Z) : Sys (os_result unit) := system (λ n, kernel_unlock n fd) (λ _, [UnlockFd fd]).
(** A descriptor is gone once its closing was asked for, error or not: it is logged. *)
Definition os_close (fd : Z) : Sys (os_result unit) := λ s,
  (Ok (kernel_close (moment s) fd), {| moment := S (moment s); effects := effects s ++ [CloseFd fd] |}).

(** [os.close(fd)] outside a [try] *)
Definition close_fd (fd : Z) : Sys unit := o ← os_close fd; raise_os o.

(** [try: m; except BaseException: os.close(fd); raise] *)
Definition close_on_error {A} (fd : Z) (m : Sys A) : Sys A :=
  finally m (λ r, match r with Ok _ => mret tt | Err _ => close_fd fd end).
End kernel.
