(* ===== verification/Disk.v ===== *)
(** * More calls on descriptors, and programs that run over a machine

    The calls src/guildmind/storage/quarantine.py adds to those of Descriptors.v: [os.read]
    and [os.write], [os.mkdir] and [os.unlink] below a directory, the rename that never
    replaces, and [secrets.token_hex].  Loops whose body makes calls. *)

From S2P Require Import Prelude Loop Effects PyStr Files Descriptors.

Local Open Scope Z_scope.

Definition EXDEV : Z := 18.

Class Disk := {
  disk_read : nat → Z → Z → os_result (list Byte.byte);  (* at most so many bytes *)
  disk_write : nat → Z → list Byte.byte → os_result Z;
  disk_mkdir : nat → Z → string → os_result unit;
  disk_unlink : nat → Z → string → os_result unit;
  disk_rename : nat → Z → string → Z → string → os_result unit;  (* [rename_noreplace_at] *)
  disk_token : nat → string;  (* [token_hex(16)] *)
}.

Section disk.
Context {kernel : Kernel} {disk : Disk}.

Definition os_read (fd n : Z) : Sys (os_result (list Byte.byte)) := system (λ t, disk_read t fd n) (λ _, []).
(** The prefix of the data that was written is logged. *)
Definition os_write (fd : Z) (data : list Byte.byte) : Sys (os_result Z) :=
  system (λ t, disk_write t fd data) (λ n, [WriteFd fd (take (Z.to_nat n) data)]).
Definition os_mkdir (directory : Z) (name : string) : Sys (os_result unit) :=
  system (λ t, disk_mkdir t directory name) (λ _, [MkdirAt directory name]).
Definition os_unlink (directory : Z) (name : string) : Sys (os_result unit) :=
  system (λ t, disk_unlink t directory name) (λ _, [UnlinkAt directory name]).
Definition rename_noreplace_at (source : Z) (name : string) (target : Z) (new_name : string) : Sys (os_result unit) :=
  system (λ t, disk_rename t source name target new_name) (λ _, [RenameAt source name target new_name]).
Definition token_hex : Sys string := λ s, (Ok (disk_token (moment s)), {| moment := S (moment s); effects := effects s |}).
End disk.

(** ** Loops that make calls *)

(** [while True: body], for at most [p] rounds. *)
Definition loopM {S A B} (p : positive) (body : A → eff S (step A B)) (a : A) : eff S B := λ s,
  match run_loop p (λ '(a, s),
          match body a s with
          | (Ok (Continue a), s) => Continue (a, s)
          | (Ok (Leave b), s) => Leave (Ok b, s)
          | (Err e, s) => Leave (Err e, s)
          end) (a, s) with
  | Leave r => r
  | Continue (_, s) => (Err (AssertionError "loop bound"), s)
  end.

(** What holds initially and is kept by every round holds where the loop ends. *)
Lemma loopM_ind {S A B} (P : A → S → Prop) (Q : result B → S → Prop) p (body : A → eff S (step A B)) a s r s' :
  loopM p body a s = (r, s') → P a s →
  (∀ a s a' s', P a s → body a s = (Ok (Continue a'), s') → P a' s') →
  (∀ a s b s', P a s → body a s = (Ok (Leave b), s') → Q (Ok b) s') →
  (∀ a s e s', P a s → body a s = (Err e, s') → Q (Err e) s') →
  (∀ a s, P a s → Q (Err (AssertionError "loop bound")) s) → Q r s'.
Proof.
  unfold loopM. rewrite run_loop_steps. intros H Hs Hc Hl He Hb. revert a s H Hs.
  induction (Pos.to_nat p) as [|n IH]; intros a s H Hs; simpl in H.
  { injection H as <- <-. by eapply Hb. }
  destruct (body a s) as [[[a1|b]|e] s1] eqn:E; simpl in H.
  - eapply IH; [exact H|]. by eapply Hc.
  - injection H as <- <-. by eapply Hl.
  - injection H as <- <-. by eapply He.
Qed.

(** A measure that every round decreases bounds the rounds: the loop ends by itself. *)
Lemma loopM_ends {S A B} (μ : A → Z) (P : A → S → Prop) (Q : result B → S → Prop) p (body : A → eff S (step A B)) a s r s' :
  loopM p body a s = (r, s') → P a s → 0 ≤ μ a < Z.pos p →
  (∀ a s a' s', P a s → body a s = (Ok (Continue a'), s') → P a' s' ∧ 0 ≤ μ a' < μ a) →
  (∀ a s b s', P a s → body a s = (Ok (Leave b), s') → Q (Ok b) s') →
  (∀ a s e s', P a s → body a s = (Err e, s') → Q (Err e) s') → Q r s'.
Proof.
  unfold loopM. rewrite run_loop_steps. intros H Hs [H0 Hμ] Hc Hl He.
  assert (μ a < Z.of_nat (Pos.to_nat p)) as Hlt by lia. clear Hμ. revert a s H Hs H0 Hlt.
  induction (Pos.to_nat p) as [|n IH]; intros a s H Hs H0 Hlt; [simpl in Hlt; lia|]. simpl in H.
  destruct (body a s) as [[[a1|b]|e] s1] eqn:E; simpl in H.
  - destruct (Hc _ _ _ _ Hs E) as [? ?]. eapply IH; [exact H|done|lia|lia].
  - injection H as <- <-. by eapply Hl.
  - injection H as <- <-. by eapply He.
Qed.
