(* ===== verification/Tame.v ===== *)
(** * Programs that are tame

    What can be said of a program on the machine however it ends: time does not run back,
    its effects are of a given kind, and so are the exceptions it raises.  [solve_tame]
    walks through a program and leaves the effects and exceptions of its own. *)

From S2P Require Import Prelude Loop Effects PyStr Files Descriptors Disk.

Local Open Scope Z_scope.

(** ** Exceptions of a computation *)

Definition fails {A} (E : exn → Prop) (r : result A) : Prop := ∀ e, r = Err e → E e.

Section fails.
Context (E : exn → Prop).

Lemma fails_Ok {A} (a : A) : fails E (Ok a).
Proof. by intros e [=]. Qed.
Lemma fails_Err {A} e : E e → fails E (@Err A e).
Proof. by intros H e' [= <-]. Qed.
Lemma fails_bind {A B} (r : result A) (f : A → result B) : fails E r → (∀ a, fails E (f a)) → fails E (r ≫= f).
Proof. intros Hr Hf e. destruct r as [a|e']; [by apply Hf|]. intros [= ->]. by apply Hr. Qed.
Lemma fails_require b e : E e → fails E (require b e).
Proof. intros H e'. unfold require. destruct b; [done|]. by intros [= <-]. Qed.
Lemma fails_fmap {A B} (f : A → B) (r : result A) : fails E r → fails E (f <$> r).
Proof. intros H e. destruct r as [a|e']; [done|]. intros [= ->]. by apply H. Qed.
Lemma fails_mapR {A B} (f : A → result B) l : (∀ a, fails E (f a)) → fails E (mapR f l).
Proof.
  intros Hf. induction l as [|a l IH]; simpl; [apply fails_Ok|].
  apply fails_bind; [apply Hf|intros b]. apply fails_bind; [apply IH|intros bs; apply fails_Ok].
Qed.
Lemma fails_of_option {A} e (o : option A) : E e → fails E (of_option e o).
Proof. intros H e'. destruct o; [done|]. by intros [= <-]. Qed.
Lemma fails_except {A} (f : exn → exn) (r : result A) : (∀ e, r = Err e → E (f e)) → fails E (except f r).
Proof. intros H e. destruct r as [a|e']; [done|]. intros [= <-]. by apply H. Qed.
End fails.

Lemma fails_mono {A} (E F : exn → Prop) (r : result A) : (∀ e, E e → F e) → fails E r → fails F r.
Proof. intros H Hr e He. by apply H, Hr. Qed.

(** Neither a failed assertion nor an exception of the quarantine protocol or of a lease. *)
Definition ordinary (e : exn) : Prop :=
  match e with
  | AssertionError _ | MaintenanceBusyError _ | MaintenanceIntegrityError _ _ | _ProtocolFailure _
  | _CommittedFailure _ _ _ | QuarantineDeniedError _ | QuarantineIncompleteError _ _
  | QuarantineFinalizationError _ _ _ => False
  | _ => True
  end.

Lemma fails_foldM {A B} (E : exn → Prop) (f : A → B → result A) l a : (∀ a b, fails E (f a b)) → fails E (foldM f a l).
Proof.
  intros Hf. revert a. induction l as [|b l IH]; intros a; simpl; [apply fails_Ok|].
  apply fails_bind; [apply Hf|]. intros a'. apply IH.
Qed.

Create HintDb fails.
#[export] Hint Resolve fails_Ok : fails.

Ltac solve_fails :=
  repeat match goal with
  | |- fails _ (mbind _ _) => apply fails_bind; [|intros ?]
  | |- fails _ (require _ _) => apply fails_require
  | |- fails _ (Err _) => apply fails_Err
  | |- fails _ (of_option _ _) => apply fails_of_option
  | |- fails _ (mapR _ _) => apply fails_mapR; intros ?
  | |- fails _ (foldM _ _ _) => apply fails_foldM; intros ? ?
  | |- fails _ (fmap _ _) => apply fails_fmap
  | |- fails _ (if ?x then _ else _) => destruct x
  | |- fails _ (match ?x with _ => _ end) => destruct x
  | |- fails _ _ => solve [eauto with fails]
  end.

(** ** Programs *)

Definition tame {A} (P : effect → Prop) (E : exn → Prop) (m : Sys A) : Prop := ∀ s r s', m s = (r, s') →
  (moment s ≤ moment s')%nat ∧ (∃ new, effects s' = effects s ++ new ∧ Forall P new) ∧ fails E r.

(** A log that went on with effects of a kind. *)
Definition added (P : effect → Prop) (s s' : sys) : Prop :=
  (moment s ≤ moment s')%nat ∧ ∃ new, effects s' = effects s ++ new ∧ Forall P new.

Lemma added_refl P s : added P s s.
Proof. split; [done|]. exists []. by rewrite app_nil_r. Qed.
Lemma added_trans P s1 s2 s3 : added P s1 s2 → added P s2 s3 → added P s1 s3.
Proof.
  intros (? & n1 & E1 & ?) (? & n2 & E2 & ?). split; [lia|]. exists (n1 ++ n2).
  rewrite E2, E1, app_assoc. split; [done|]. by apply Forall_app.
Qed.
Lemma added_mono (P Q : effect → Prop) s s' : (∀ e, P e → Q e) → added P s s' → added Q s s'.
Proof. intros H (? & new & ? & ?). split; [done|]. exists new. split; [done|]. by eapply Forall_impl. Qed.

Section tame.
Context (P : effect → Prop) (E : exn → Prop).

Lemma tame_run {A} (m : Sys A) s r s' : tame P E m → m s = (r, s') → added P s s' ∧ fails E r.
Proof. intros Hm H. destruct (Hm _ _ _ H) as (? & ? & ?). done. Qed.

Lemma tame_intro {A} (m : Sys A) : (∀ s r s', m s = (r, s') → added P s s' ∧ fails E r) → tame P E m.
Proof. intros H s r s' Hm. destruct (H _ _ _ Hm) as [[? ?] ?]. done. Qed.

Lemma tame_ret {A} (a : A) : tame P E (mret a).
Proof. apply tame_intro. intros s r s' [= <- <-]. split; [apply added_refl|apply fails_Ok]. Qed.
Lemma tame_lift {A} (r : result A) : fails E r → tame P E (lift r).
Proof. intros Hr. apply tame_intro. intros s r' s' [= <- <-]. split; [apply added_refl|done]. Qed.

Lemma tame_seq {A B} (m : Sys A) (f : A → Sys B) : tame P E m → (∀ a, tame P E (f a)) → tame P E (m ≫= f).
Proof.
  intros Hm Hf. apply tame_intro. intros s r s' [(a & s1 & H1 & H2)|(e & H1 & ->)]%bindM_inv.
  - destruct (tame_run _ _ _ _ Hm H1) as [? _], (tame_run _ _ _ _ (Hf a) H2) as [? ?].
    split; [by eapply added_trans|done].
  - destruct (tame_run _ _ _ _ Hm H1) as [? He]. split; [done|]. intros e' [= <-]. by apply He.
Qed.

(** A cleanup that knows what kind of exception it is under. *)
Lemma tame_cleanup {A} (m : Sys A) c : tame P E m → (∀ r, fails E r → tame P E (c r)) → tame P E (finally m c).
Proof.
  intros Hm Hc. apply tame_intro. intros s r s'. unfold finally.
  destruct (m s) as [r1 s1] eqn:E1, (c r1 s1) as [r2 s2] eqn:E2.
  destruct (tame_run _ _ _ _ Hm E1) as [? He]. destruct (tame_run _ _ _ _ (Hc r1 He) E2) as [? Hr2].
  destruct r2; intros [= <- <-]; (split; [by eapply added_trans|]); [done|]. intros e' [= <-]. by apply Hr2.
Qed.
Lemma tame_finally {A} (m : Sys A) c : tame P E m → (∀ r, tame P E (c r)) → tame P E (finally m c).
Proof. intros Hm Hc. by apply tame_cleanup. Qed.

Lemma tame_catch {A} (m : Sys A) h : tame P E m → (∀ e k, h e = Some k → tame P E k) → tame P E (catch m h).
Proof.
  intros Hm Hh. apply tame_intro. intros s r s'. unfold catch. destruct (m s) as [[a|e] s1] eqn:E1.
  - intros [= <- <-]. by eapply tame_run.
  - destruct (tame_run _ _ _ _ Hm E1) as [? He]. destruct (h e) as [k|] eqn:Ek.
    + intros E2. destruct (tame_run _ _ _ _ (Hh _ _ Ek) E2). split; [by eapply added_trans|done].
    + intros [= <- <-]. split; [done|]. intros e' [= <-]. by apply He.
Qed.

Lemma tame_exceptM {A} f (m : Sys A) : tame P E m → (∀ e, E e → E (f e)) → tame P E (exceptM f m).
Proof.
  intros Hm Hf. apply tame_intro. intros s r s'. unfold exceptM. destruct (m s) as [[a|e] s1] eqn:E1;
    destruct (tame_run _ _ _ _ Hm E1) as [? He]; intros [= <- <-]; (split; [done|]); [by intros e' [=]|].
  intros e' [= <-]. by apply Hf, He.
Qed.

Lemma tame_forM {A} (f : A → Sys unit) l : (∀ a, a ∈ l → tame P E (f a)) → tame P E (forM f l).
Proof.
  induction l as [|a l IH]; intros Hf; simpl; [apply tame_ret|]. apply tame_seq; [apply Hf; left|].
  intros _. apply IH. intros b Hb. apply Hf. by right.
Qed.
Lemma tame_mapM {A B} (f : A → Sys B) l : (∀ a, a ∈ l → tame P E (f a)) → tame P E (mapM_eff f l).
Proof.
  induction l as [|a l IH]; intros Hf; simpl; [apply tame_ret|]. apply tame_seq; [apply Hf; left|].
  intros b. apply tame_seq; [|intros bs; apply tame_ret]. apply IH. intros b' Hb. apply Hf. by right.
Qed.

(** Calls. *)
Lemma tame_system {A} (f : nat → os_result A) log : (∀ n a, f n = Done a → Forall P (log a)) → tame P E (system f log).
Proof.
  intros Hl. apply tame_intro. intros s r s'. unfold system. intros [= <- <-]. split; [|apply fails_Ok].
  split; [simpl; lia|]. cbn [effects]. destruct (f (moment s)) as [a|n] eqn:Ea; [|exists []; by rewrite app_nil_r].
  exists (log a). split; [done|]. by eapply Hl.
Qed.
Lemma tame_call `{World} {A} (f : FileSystem → A) : tame P E (call f).
Proof.
  apply tame_intro. intros s r s' [= <- <-]. split; [|apply fails_Ok]. split; [simpl; lia|].
  exists []. by rewrite app_nil_r.
Qed.

(** A loop that a measure bounds. *)
Lemma tame_loop {A B} (μ : A → Z) p (body : A → Sys (step A B)) a : 0 ≤ μ a < Z.pos p →
  (∀ a s a' s', body a s = (Ok (Continue a'), s') → 0 ≤ μ a' < μ a) → (∀ a, tame P E (body a)) →
  tame P E (loopM p body a).
Proof.
  intros Hμ Hstep Hbody. apply tame_intro. intros s r s' H.
  eapply (loopM_ends μ (λ _ s', added P s s') (λ r s', added P s s' ∧ fails E r)); [exact H|apply added_refl|exact Hμ|..].
  - intros a1 s1 a2 s2 H1 H2. destruct (tame_run _ _ _ _ (Hbody a1) H2).
    split; [by eapply added_trans|by eapply Hstep].
  - intros a1 s1 b s2 H1 H2. destruct (tame_run _ _ _ _ (Hbody a1) H2).
    split; [by eapply added_trans|apply fails_Ok].
  - intros a1 s1 e s2 H1 H2. destruct (tame_run _ _ _ _ (Hbody a1) H2) as [? He].
    split; [by eapply added_trans|]. intros e' [= <-]. by apply He.
Qed.
End tame.

Lemma tame_mono {A} (P Q : effect → Prop) (E F : exn → Prop) (m : Sys A) : (∀ e, P e → Q e) → (∀ e, E e → F e) →
  tame P E m → tame Q F m.
Proof.
  intros HP HE Hm. apply tame_intro. intros s r s' H. destruct (tame_run _ _ _ _ _ _ Hm H) as [Ha Hf].
  split; [by eapply added_mono|by eapply fails_mono].
Qed.

Create HintDb tame.
#[export] Hint Resolve tame_ret : tame.

Lemma tame_weaken {A} (P Q : effect → Prop) (E F : exn → Prop) (m : Sys A) :
  tame P E m → (∀ e, P e → Q e) → (∀ e, E e → F e) → tame Q F m.
Proof. intros. by eapply tame_mono. Qed.

Ltac solve_tame :=
  repeat match goal with
  | |- tame _ _ (mbind _ _) => apply tame_seq; [|intros ?]
  | |- tame _ _ (finally _ _) => apply tame_cleanup; [|intros ? ?]
  | |- tame _ _ (lift _) => apply tame_lift; solve_fails
  | |- tame _ _ (call _) => apply tame_call
  | |- tame _ _ (if ?x then _ else _) => destruct x
  | |- tame _ _ (match ?x with _ => _ end) => destruct x
  | |- tame _ _ _ => solve [eauto with tame]
  end.
