(* ===== verification/Float64.v ===== *)
(** * Python floats

    CPython's [float] is an IEEE 754 binary64.  Every finite one is an integer multiple
    of 2^-1074, so a finite float is modelled by its sign (which zero has too) and that
    multiple.  Addition and subtraction are exact integer operations followed by one
    rounding to 53 significant bits, half to even; comparison is exact; [repr] is the
    shortest decimal that reads back, found by search, and [float(text)] is the correctly
    rounded conversion.  The main facts: rounding is idempotent and monotone, a sum of
    nonnegative floats is never below its terms, [x - x] is zero, and reading back the
    [repr] of a representable float gives the float. *)

From Stdlib Require Import Ascii.
From S2P Require Import Prelude PyStr.

Local Open Scope N_scope.

Inductive float64 : Type :=
  | Finite (neg : bool) (mag : N)
  | Infinite (neg : bool)
  | NotANumber.

#[export] Instance float64_eq_dec : EqDecision float64.
Proof. solve_decision. Defined.

(** The scale 2^1074 and the bound of the finite range in that scale. *)
Definition scale : N := 2 ^ 1074.
Definition mag_bound : N := 2 ^ 2098.

(** Division of naturals rounding half to even. *)
Definition div_half_even (a b : N) : N :=
  let '(q, r) := N.div_eucl a b in
  match N.compare (2 * r) b with
  | Lt => q
  | Gt => q + 1
  | Eq => if N.even q then q else q + 1
  end.

(** The ratio [p / q], in units of 2^-1074, rounded to 53 significant bits. *)
Definition round_ratio (p q : N) : N :=
  let s := N.log2 (p / q) - 52 in
  div_half_even p (q * 2 ^ s) * 2 ^ s.

Definition of_ratio (neg : bool) (p q : N) : float64 :=
  let m := round_ratio p q in
  if m <? mag_bound then Finite neg m else Infinite neg.

(** A magnitude is representable when its significant bits fit. *)
Definition representable (m : N) : bool :=
  (m mod 2 ^ (N.log2 m - 52) =? 0) && (m <? mag_bound).

Definition float_valid (f : float64) : bool :=
  match f with Finite _ m => representable m | _ => true end.

Definition is_finite (f : float64) : bool :=
  match f with Finite _ _ => true | _ => false end.

Definition fzero : float64 := Finite false 0.

Lemma div_half_even_eq a b : div_half_even a b =
  match N.compare (2 * (a mod b)) b with
  | Lt => a / b
  | Gt => a / b + 1
  | Eq => if N.even (a / b) then a / b else a / b + 1
  end.
Proof. unfold div_half_even, N.div, N.modulo. by destruct (N.div_eucl a b). Qed.

(** ** Arithmetic and comparison *)

Definition signed (neg : bool) (m : N) : Z := if neg then - Z.of_N m else Z.of_N m.

Definition fneg (f : float64) : float64 :=
  match f with
  | Finite s m => Finite (negb s) m
  | Infinite s => Infinite (negb s)
  | NotANumber => NotANumber
  end.

Definition fadd (x y : float64) : float64 :=
  match x, y with
  | Finite s1 m1, Finite s2 m2 =>
      let z := (signed s1 m1 + signed s2 m2)%Z in
      if (z =? 0)%Z then Finite (s1 && s2) 0
      else of_ratio (z <? 0)%Z (Z.abs_N z) 1
  | Infinite s1, Infinite s2 => if Bool.eqb s1 s2 then Infinite s1 else NotANumber
  | Infinite s, Finite _ _ | Finite _ _, Infinite s => Infinite s
  | NotANumber, _ | _, NotANumber => NotANumber
  end.

Definition fsub (x y : float64) : float64 := fadd x (fneg y).

(** [x <= y], [x == y]; false as soon as one side is not a number. *)
Definition fleb (x y : float64) : bool :=
  match x, y with
  | Finite s1 m1, Finite s2 m2 => (signed s1 m1 <=? signed s2 m2)%Z
  | NotANumber, _ | _, NotANumber => false
  | Infinite true, _ | _, Infinite false => true
  | _, _ => false
  end.

Definition feqb (x y : float64) : bool := fleb x y && fleb y x.
Definition fltb (x y : float64) : bool := fleb x y && negb (fleb y x).

(** [float(n)] for an integer. *)
Definition float_of_Z (z : Z) : float64 := of_ratio (z <? 0)%Z (Z.abs_N z * scale) 1.

(** Exact comparison of an integer with a float, as Python's [==] does it. *)
Definition int_float_eqb (z : Z) (f : float64) : bool :=
  match f with
  | Finite s m => (z * Z.of_N scale =? signed s m)%Z
  | _ => false
  end.

(** ** Rounding *)

Lemma div_half_even_exact k b : 0 < b → div_half_even (k * b) b = k.
Proof.
  intros Hb. rewrite div_half_even_eq. rewrite N.div_mul by lia. rewrite N.Div0.mod_mul.
  rewrite N.mul_0_r. destruct b; [lia|done].
Qed.

Lemma div_half_even_bounds a b :
  0 < b → a / b ≤ div_half_even a b ≤ a / b + 1.
Proof.
  intros Hb. rewrite div_half_even_eq. destruct (N.compare _ _); [destruct (N.even _)|..]; lia.
Qed.

Lemma div_half_even_lower a b k : 0 < b → k * b ≤ a → k ≤ div_half_even a b.
Proof.
  intros Hb H. pose proof (div_half_even_bounds a b Hb).
  assert (k ≤ a / b) by (apply N.div_le_lower_bound; lia). lia.
Qed.

Lemma pow2_pos s : 0 < 2 ^ s.
Proof. apply N.neq_0_lt_0, N.pow_nonzero. lia. Qed.

(** Scaling a ratio does not change its rounding. *)
Lemma div_half_even_scale a b c : 0 < b → 0 < c → div_half_even (a * c) (b * c) = div_half_even a b.
Proof.
  intros Hb Hc. rewrite !div_half_even_eq.
  rewrite N.Div0.div_mul_cancel_r by lia.
  replace (a * c) with (c * a) by lia. replace (b * c) with (c * b) by lia.
  rewrite N.Div0.mul_mod_distr_l.
  replace (2 * (c * (a mod b))) with (c * (2 * (a mod b))) by lia.
  destruct (N.compare_spec (2 * (a mod b)) b), (N.compare_spec (c * (2 * (a mod b))) (c * b));
    try done; exfalso; nia.
Qed.

Lemma round_ratio_scale p q c : 0 < q → 0 < c → round_ratio (p * c) (q * c) = round_ratio p q.
Proof.
  intros Hq Hc. unfold round_ratio. rewrite N.Div0.div_mul_cancel_r by lia.
  set (s := N.log2 (p / q) - 52). f_equal.
  replace (q * c * 2 ^ s) with (q * 2 ^ s * c) by lia.
  apply div_half_even_scale; [|done]. pose proof (pow2_pos s). nia.
Qed.

(** Rounding a representable value, however the ratio is written, is exact. *)
Lemma round_ratio_exact m q :
  m mod 2 ^ (N.log2 m - 52) = 0 → 0 < q → round_ratio (m * q) q = m.
Proof.
  intros Hm Hq. unfold round_ratio. rewrite N.div_mul by lia.
  set (s := N.log2 m - 52) in *. pose proof (pow2_pos s).
  apply N.Div0.div_exact in Hm. set (k := m / 2 ^ s) in *.
  replace (m * q) with (k * (q * 2 ^ s)) by nia.
  rewrite div_half_even_exact by nia. lia.
Qed.

(** The rounded significand has at most 53 bits (or is the next power of two). *)
Lemma round_ratio_significand p q :
  0 < q → div_half_even p (q * 2 ^ (N.log2 (p / q) - 52)) ≤ 2 ^ 53.
Proof.
  intros Hq. set (s := N.log2 (p / q) - 52). pose proof (pow2_pos s).
  pose proof (div_half_even_bounds p (q * 2 ^ s) ltac:(nia)) as [_ Hub].
  assert (p / (q * 2 ^ s) < 2 ^ 53); [|lia].
  rewrite <- N.Div0.div_div.
  apply N.Div0.div_lt_upper_bound. rewrite <- N.pow_add_r.
  destruct (N.eq_dec (p / q) 0) as [->|Hn]; [apply pow2_pos|].
  subst s. generalize dependent (p / q). intros x _ _ Hx.
  apply N.log2_lt_pow2; lia.
Qed.

Lemma round_ratio_divides p q :
  0 < q → round_ratio p q mod 2 ^ (N.log2 (round_ratio p q) - 52) = 0.
Proof.
  intros Hq. pose proof (round_ratio_significand p q Hq) as Hk. unfold round_ratio.
  set (s := N.log2 (p / q) - 52) in *. set (k := div_half_even p (q * 2 ^ s)) in *.
  destruct (N.eq_dec k 0) as [->|H0]; [done|].
  rewrite N.log2_mul_pow2 by lia.
  destruct (N.eq_dec k (2 ^ 53)) as [->|Hne].
  - rewrite N.log2_pow2 by lia. rewrite <- N.pow_add_r.
    replace (53 + s) with (52 + (s + 1)) by lia.
    replace (s + 53 - 52) with (s + 1) by lia.
    rewrite N.pow_add_r. apply N.Div0.mod_mul.
  - assert (N.log2 k < 53) by (apply N.log2_lt_pow2; lia).
    set (t := s + N.log2 k - 52).
    replace (2 ^ s) with (2 ^ (s - t) * 2 ^ t) by (rewrite <- N.pow_add_r; f_equal; lia).
    rewrite N.mul_assoc. apply N.Div0.mod_mul.
Qed.

Lemma div_half_even_mono a1 a2 b : 0 < b → a1 ≤ a2 → div_half_even a1 b ≤ div_half_even a2 b.
Proof.
  intros Hb Ha.
  pose proof (div_half_even_bounds a1 b Hb). pose proof (div_half_even_bounds a2 b Hb).
  assert (a1 / b ≤ a2 / b) by (apply N.Div0.div_le_mono; done).
  destruct (N.eq_dec (a1 / b) (a2 / b)) as [Heq|]; [|lia].
  rewrite !div_half_even_eq, Heq.
  assert (a1 mod b ≤ a2 mod b).
  { pose proof (N.div_mod' a1 b). pose proof (N.div_mod' a2 b). nia. }
  destruct (N.compare_spec (2 * (a1 mod b)) b), (N.compare_spec (2 * (a2 mod b)) b),
    (N.even (a2 / b)); lia.
Qed.

Definition round_mag (n : N) : N := round_ratio n 1.

Lemma round_mag_unfold n :
  round_mag n = div_half_even n (2 ^ (N.log2 n - 52)) * 2 ^ (N.log2 n - 52).
Proof. unfold round_mag, round_ratio. by rewrite N.div_1_r, N.mul_1_l. Qed.

(** Rounding to nearest is monotone. *)
Lemma round_mag_mono n1 n2 : n1 ≤ n2 → round_mag n1 ≤ round_mag n2.
Proof.
  intros Hn. rewrite !round_mag_unfold.
  pose proof (N.log2_le_mono n1 n2 Hn) as Hlog.
  set (s1 := N.log2 n1 - 52) in *. set (s2 := N.log2 n2 - 52) in *.
  destruct (N.eq_dec s1 s2) as [->|Hne].
  { apply N.mul_le_mono_r, div_half_even_mono; [apply pow2_pos|done]. }
  assert (div_half_even n1 (2 ^ s1) ≤ 2 ^ 53) as Hk1.
  { pose proof (round_ratio_significand n1 1 ltac:(lia)) as H.
    by rewrite N.div_1_r, N.mul_1_l in H. }
  assert (2 ^ 52 ≤ div_half_even n2 (2 ^ s2)) as Hk2.
  { apply div_half_even_lower; [apply pow2_pos|]. rewrite <- N.pow_add_r.
    replace (52 + s2) with (N.log2 n2) by lia.
    apply N.log2_spec. destruct (N.eq_dec n2 0) as [E2|]; [|lia]. exfalso.
    assert (n1 = 0) as E1 by lia. apply Hne. unfold s1, s2. by rewrite E1, E2. }
  transitivity (2 ^ 53 * 2 ^ s1); [by apply N.mul_le_mono_r|].
  transitivity (2 ^ 52 * 2 ^ s2); [|by apply N.mul_le_mono_r].
  rewrite <- !N.pow_add_r. apply N.pow_le_mono_r; lia.
Qed.

Lemma round_mag_exact m : representable m = true → round_mag m = m.
Proof.
  unfold representable. intros H. split_andb. apply N.eqb_eq in H.
  unfold round_mag. rewrite <- (N.mul_1_r m) at 1. by apply round_ratio_exact.
Qed.

Lemma representable_bound m : representable m = true → m < mag_bound.
Proof. unfold representable. intros H. split_andb. by apply N.ltb_lt. Qed.

Lemma of_ratio_valid neg p q : 0 < q → float_valid (of_ratio neg p q) = true.
Proof.
  intros Hq. unfold of_ratio. destruct (_ <? _) eqn:E; [|done]. simpl. unfold representable.
  rewrite E, andb_true_r. apply N.eqb_eq. by apply round_ratio_divides.
Qed.

Lemma of_ratio_exact neg m q : representable m = true → 0 < q → of_ratio neg (m * q) q = Finite neg m.
Proof.
  intros Hm Hq. unfold of_ratio. unfold representable in Hm. split_andb.
  rewrite round_ratio_exact by (try done; by apply N.eqb_eq). by rewrite H0.
Qed.

Lemma fadd_valid x y :
  float_valid x = true → float_valid y = true → float_valid (fadd x y) = true.
Proof.
  destruct x as [s1 m1|[]|], y as [s2 m2|[]|]; simpl; try done. intros.
  destruct (_ =? _)%Z; [done|]. by apply of_ratio_valid.
Qed.

Lemma fneg_valid x : float_valid (fneg x) = float_valid x.
Proof. by destruct x. Qed.

Lemma fsub_valid x y :
  float_valid x = true → float_valid y = true → float_valid (fsub x y) = true.
Proof. intros. apply fadd_valid; [done|]. by rewrite fneg_valid. Qed.

(** ** Nonnegative floats, the only ones the budget and score fields admit *)

Definition nonneg (f : float64) : bool :=
  match f with Finite s m => negb s || (m =? 0) | _ => false end.

Definition nonneg_valid (f : float64) : bool := nonneg f && float_valid f.

Lemma nonneg_signed s m : nonneg (Finite s m) = true → signed s m = Z.of_N m.
Proof. destruct s; simpl; [|done]. intros ->%N.eqb_eq. done. Qed.

Lemma of_ratio_abs m : representable m = true → of_ratio false m 1 = Finite false m.
Proof. intros. rewrite <- (N.mul_1_r m) at 1. by apply of_ratio_exact. Qed.

(** Python's [0 + x], the way the sums of the budget start: it only loses the sign of a
    negative zero. *)
Lemma fadd_zero_l x :
  nonneg_valid x = true → fadd fzero x = match x with Finite _ m => Finite false m | _ => x end.
Proof.
  unfold nonneg_valid. intros H. split_andb. destruct x as [s m| |]; try done.
  pose proof (nonneg_signed s m H) as Hs. unfold fadd, fzero.
  replace (signed false 0) with 0%Z by done. rewrite Hs, Z.add_0_l.
  destruct (Z.eqb_spec (Z.of_N m) 0) as [Hm|Hm].
  { by replace m with 0 by lia. }
  replace (Z.of_N m <? 0)%Z with false by lia. rewrite Zabs2N.id. by apply of_ratio_abs.
Qed.

Lemma fadd_zero_r x :
  nonneg_valid x = true → fadd x fzero = match x with Finite _ m => Finite false m | _ => x end.
Proof.
  intros H. rewrite <- fadd_zero_l by done. destruct x as [s m| |]; try done.
  unfold fadd, fzero. rewrite Z.add_comm. by rewrite andb_comm.
Qed.

(** [x - x] is zero, exactly. *)
Lemma fsub_diag x : is_finite x = true → feqb (fsub x x) fzero = true.
Proof.
  destruct x as [s m| |]; try done. intros _. unfold fsub, fneg, fadd.
  replace (signed s m + signed (negb s) m)%Z with 0%Z by (unfold signed; destruct s; simpl; lia).
  by destruct s.
Qed.

(** Adding a nonnegative float never decreases a nonnegative float. *)
Lemma fadd_nondecreasing x y :
  nonneg_valid x = true → nonneg_valid y = true → fleb x (fadd x y) = true.
Proof.
  unfold nonneg_valid. intros Hx Hy. split_andb.
  destruct x as [s1 m1| |], y as [s2 m2| |]; try done.
  pose proof (nonneg_signed _ _ H1) as E1. pose proof (nonneg_signed _ _ H) as E2.
  unfold fadd. rewrite E1, E2. destruct (Z.eqb_spec (Z.of_N m1 + Z.of_N m2) 0).
  { replace m1 with 0 by lia. unfold fleb. destruct s1, s2; done. }
  replace (_ <? 0)%Z with false by lia. unfold of_ratio.
  destruct (_ <? mag_bound); [|by destruct s1].
  unfold fleb. rewrite E1. apply Z.leb_le. unfold signed. apply N2Z.inj_le.
  transitivity (round_mag m1); [by rewrite round_mag_exact|]. apply round_mag_mono. lia.
Qed.

Lemma fadd_nonneg x y :
  nonneg_valid x = true → nonneg_valid y = true → is_finite (fadd x y) = true →
  nonneg_valid (fadd x y) = true.
Proof.
  unfold nonneg_valid. intros Hx Hy Hf. split_andb. apply andb_true_iff. split.
  2:{ by apply fadd_valid. }
  destruct x as [s1 m1| |], y as [s2 m2| |]; try done.
  pose proof (nonneg_signed _ _ H1) as E1. pose proof (nonneg_signed _ _ H) as E2.
  unfold fadd in *. rewrite E1, E2 in *. destruct (Z.eqb_spec (Z.of_N m1 + Z.of_N m2) 0).
  { simpl. by destruct s1, s2. }
  replace (_ <? 0)%Z with false in * by lia. unfold of_ratio in *.
  by destruct (_ <? mag_bound).
Qed.

Lemma fleb_refl x : is_finite x = true → fleb x x = true.
Proof. destruct x; try done. intros. apply Z.leb_refl. Qed.

Lemma feqb_refl x : is_finite x = true → feqb x x = true.
Proof. intros. unfold feqb. by rewrite fleb_refl. Qed.

Lemma fleb_trans x y z : fleb x y = true → fleb y z = true → fleb x z = true.
Proof.
  destruct x as [? ?|[]|], y as [? ?|[]|], z as [? ?|[]|]; simpl; try done.
  intros ?%Z.leb_le ?%Z.leb_le. apply Z.leb_le. lia.
Qed.

Lemma fleb_total x y : is_finite x = true → is_finite y = true → fleb x y = true ∨ fleb y x = true.
Proof. destruct x, y; try done. intros. unfold fleb. rewrite !Z.leb_le. lia. Qed.

Lemma feqb_sym x y : feqb x y = feqb y x.
Proof. unfold feqb. apply andb_comm. Qed.

Lemma feqb_trans x y z : feqb x y = true → feqb y z = true → feqb x z = true.
Proof. unfold feqb. intros. split_andb. apply andb_true_iff. eauto using fleb_trans. Qed.

(** ** Decimal conversion *)

(** [float("<digits>e<k>")]: the correctly rounded value of [d * 10^k]. *)
Definition of_decimal (neg : bool) (d : N) (k : Z) : float64 :=
  of_ratio neg (d * 10 ^ Z.to_N k * scale) (10 ^ Z.to_N (- k)).

Lemma of_ratio_cross neg p q p' q' :
  0 < q → 0 < q' → p * q' = p' * q → of_ratio neg p q = of_ratio neg p' q'.
Proof.
  intros Hq Hq' H. unfold of_ratio.
  by rewrite <- (round_ratio_scale p q q'), <- (round_ratio_scale p' q' q), H,
    (N.mul_comm q q') by done.
Qed.

Lemma pow10_pos n : 0 < 10 ^ n.
Proof. apply N.neq_0_lt_0, N.pow_nonzero. lia. Qed.

(** Moving [j] zeros from the exponent to the digits does not change the value. *)
Lemma of_decimal_scale neg d k j :
  of_decimal neg (d * 10 ^ j) (k - Z.of_N j) = of_decimal neg d k.
Proof.
  unfold of_decimal. apply of_ratio_cross; [apply pow10_pos..|].
  transitivity (d * scale * 10 ^ (j + Z.to_N (k - Z.of_N j) + Z.to_N (- k))).
  { rewrite !N.pow_add_r. lia. }
  transitivity (d * scale * 10 ^ (Z.to_N k + Z.to_N (- (k - Z.of_N j)))).
  { do 2 f_equal. lia. }
  rewrite !N.pow_add_r. lia.
Qed.

(** The exact decimal expansion of a magnitude. *)
Definition exact_decimal (m : N) : N * Z := (m * 5 ^ 1074, (-1074)%Z).

Lemma of_decimal_exact neg m :
  representable m = true →
  of_decimal neg (exact_decimal m).1 (exact_decimal m).2 = Finite neg m.
Proof.
  intros Hm. unfold of_decimal, exact_decimal. cbn [fst snd].
  transitivity (of_ratio neg (m * 1) 1); [|by apply of_ratio_exact].
  apply of_ratio_cross; [apply pow10_pos|lia|].
  change (Z.to_N (-1074)) with 0. change (Z.to_N (- -1074)) with 1074. unfold scale.
  rewrite N.pow_0_r, !N.mul_1_r. rewrite <- (N.mul_assoc m), <- N.pow_mul_l. done.
Qed.

(** How many decimal digits a number has; an estimate by the binary logarithm saves
    writing them out. *)
Definition decimal_length (d : N) : nat :=
  let e := N.log2 d * 30102 / 100000 in
  let p := 10 ^ e in
  if (p <=? d) && (d <? 10 * p) then N.to_nat (e + 1)
  else if (10 * p <=? d) && (d <? 100 * p) then N.to_nat (e + 2)
  else String.length (dec d).

(** [m * 5^1074 / 10^j] rounded half to even, with the common factors left out. *)
Definition decimal_quotient (m j : N) : N :=
  if j <=? 1074 then div_half_even (m * 5 ^ (1074 - j)) (2 ^ j) else div_half_even m (2 ^ 1074 * 10 ^ (j - 1074)).

(** The decimal of [n] significant digits nearest to a magnitude. *)
Definition decimal_candidate (m : N) (n : nat) : N * Z :=
  let len := decimal_length (exact_decimal m).1 in
  if (n <? len)%nat
  then (decimal_quotient m (N.of_nat (len - n)), (Z.of_nat (len - n) - 1074)%Z)
  else exact_decimal m.

Definition reads_back (m : N) (c : N * Z) : bool :=
  bool_decide (of_decimal false c.1 c.2 = Finite false m).

(** The first of these numbers of digits whose candidate reads back. *)
Fixpoint first_reading_back (m : N) (ns : list nat) : option (N * Z) :=
  match ns with
  | [] => None
  | n :: ns => let c := decimal_candidate m n in if reads_back m c then Some c else first_reading_back m ns
  end.

(** The shortest candidate that reads back; the exact expansion always does, so the
    search cannot fail.  An integer below 2^53 needs none: no multiple of ten but itself is
    as near to it. *)
Definition shortest_decimal (m : N) : N * Z :=
  let n := N.shiftr m 1074 in
  if (N.shiftl n 1074 =? m) && (n <? 2 ^ 53) then (n, 0%Z)
  else match first_reading_back m (seq 1 17) with
  | Some c => c
  | None => exact_decimal m
  end.

Fixpoint strip_trailing_zeros (fuel : nat) (d : N) (k : Z) : N * Z :=
  match fuel with
  | O => (d, k)
  | S fuel =>
      if d mod 10 =? 0 then strip_trailing_zeros fuel (d / 10) (k + 1)%Z else (d, k)
  end.

Fixpoint str_take (n : nat) (s : string) : string :=
  match n, s with
  | S n, String c s => String c (str_take n s)
  | _, _ => EmptyString
  end.
Fixpoint str_drop (n : nat) (s : string) : string :=
  match n, s with
  | S n, String _ s => str_drop n s
  | _, _ => s
  end.

(** The layout CPython gives the digits of a [repr]: positional between 1e-4 and 1e16,
    scientific with at least two exponent digits outside. *)
Definition layout (d : N) (k : Z) : string :=
  let ds := dec d in
  let len := Z.of_nat (String.length ds) in
  let decpt := (len + k)%Z in
  if ((-4 <? decpt) && (decpt <=? 16))%Z then
    if (decpt <=? 0)%Z then "0." +:+ zeros (Z.to_nat (- decpt)) +:+ ds
    else if (len <=? decpt)%Z then ds +:+ zeros (Z.to_nat (decpt - len)) +:+ ".0"
    else str_take (Z.to_nat decpt) ds +:+ "." +:+ str_drop (Z.to_nat decpt) ds
  else
    let e := (decpt - 1)%Z in
    let rest := str_drop 1 ds in
    str_take 1 ds +:+ (if String.eqb rest "" then "" else "." +:+ rest) +:+ "e"
      +:+ (if (e <? 0)%Z then "-" else "+") +:+ zero_pad 2 (Z.abs_N e).

(** [repr(x)], which is what [json.dumps] writes for a float. *)
Definition float_repr (f : float64) : string :=
  match f with
  | NotANumber => "NaN"
  | Infinite neg => if neg then "-Infinity" else "Infinity"
  | Finite neg m =>
      (if neg then "-" else "") +:+
      (if m =? 0 then "0.0" else
         let c := shortest_decimal m in
         let c := strip_trailing_zeros (String.length (dec c.1)) c.1 c.2 in
         layout c.1 c.2)
  end.

(** ** Reading numbers *)

Inductive number : Type :=
  | NInt (z : Z)
  | NFloat (f : float64).

(** The pieces of JSON's number syntax: an integer part without leading zeros, an
    optional fraction, an optional exponent. *)
Definition scan_int (s : string) : option (string * string) :=
  match s with
  | EmptyString => None
  | String c s' =>
      if is_digit c then
        if code c =? 48 then Some ("0", s') else Some (take_digits s)
      else None
  end.

Definition scan_frac (s : string) : option string * string :=
  match s with
  | String c s' =>
      if code c =? 46 then
        match (take_digits s').1 with
        | EmptyString => (None, s)
        | ds => (Some ds, (take_digits s').2)
        end
      else (None, s)
  | EmptyString => (None, s)
  end.

Definition scan_exp (s : string) : option Z * string :=
  match s with
  | String c s' =>
      if (code c =? 101) || (code c =? 69) then
        let '(neg, s'') := match s' with
          | String d t => if code d =? 45 then (true, t)
                          else if code d =? 43 then (false, t) else (false, s')
          | EmptyString => (false, s')
          end in
        match (take_digits s'').1 with
        | EmptyString => (None, s)
        | ds => (Some (signed neg (dval 0 ds)), (take_digits s'').2)
        end
      else (None, s)
  | EmptyString => (None, s)
  end.

Definition scan_unsigned (neg : bool) (s : string) : option (number * string) :=
  match scan_int s with
  | None => None
  | Some (ip, s1) =>
      let fr := scan_frac s1 in
      let ex := scan_exp fr.2 in
      match fr.1, ex.1 with
      | None, None => Some (NInt (signed neg (dval 0 ip)), ex.2)
      | _, _ =>
          let fp := default "" fr.1 in
          Some (NFloat (of_decimal neg (dval 0 (ip +:+ fp))
                  (default 0%Z ex.1 - Z.of_nat (String.length fp))), ex.2)
      end
  end.

Definition scan_number (s : string) : option (number * string) :=
  match s with
  | String c s' => if code c =? 45 then scan_unsigned true s' else scan_unsigned false s
  | EmptyString => None
  end.

(** ** Reading back what was printed *)

Lemma strip_trailing_zeros_value neg fuel d k :
  of_decimal neg (strip_trailing_zeros fuel d k).1 (strip_trailing_zeros fuel d k).2
  = of_decimal neg d k.
Proof.
  revert d k. induction fuel as [|fuel IH]; intros d k; simpl; [done|].
  destruct (N.eqb_spec (d mod 10) 0) as [Hd|]; [|done]. rewrite IH.
  rewrite <- (of_decimal_scale neg (d / 10) (k + 1) 1). f_equal; [|lia].
  pose proof (N.div_mod' d 10). lia.
Qed.

Lemma strip_trailing_zeros_pos fuel d k : 0 < d → 0 < (strip_trailing_zeros fuel d k).1.
Proof.
  revert d k. induction fuel as [|fuel IH]; intros d k Hd; simpl; [done|].
  destruct (N.eqb_spec (d mod 10) 0) as [Hd'|]; [|done]. apply IH.
  pose proof (N.div_mod' d 10). nia.
Qed.

Lemma of_ratio_neg neg neg' p q m : of_ratio neg p q = Finite neg m → of_ratio neg' p q = Finite neg' m.
Proof. unfold of_ratio. destruct (_ <? _); congruence. Qed.

Lemma of_ratio_zero_num neg q : of_ratio neg 0 q = Finite neg 0.
Proof.
  unfold of_ratio, round_ratio. rewrite N.Div0.div_0_l. simpl.
  rewrite div_half_even_eq. rewrite N.Div0.div_0_l, N.Div0.mod_0_l. by destruct q.
Qed.

Lemma dec_length_between d e : 10 ^ e ≤ d → d < 10 ^ (e + 1) → String.length (dec d) = N.to_nat (e + 1).
Proof.
  intros Hlo Hhi. apply Nat.le_antisymm.
  - apply dec_length_bound; [by rewrite N2Nat.id|lia].
  - pose proof (dval_bound (dec d) 0 (dec_all_digits d)) as [_ Hd]. rewrite dval_dec, N.add_0_l, N.mul_1_l in Hd.
    assert (10 ^ e < 10 ^ N.of_nat (String.length (dec d))) as Hlt by lia.
    apply N.pow_lt_mono_r_iff in Hlt; lia.
Qed.

Lemma decimal_length_dec d : decimal_length d = String.length (dec d).
Proof.
  unfold decimal_length. set (e := _ / _). clearbody e.
  assert (10 * 10 ^ e = 10 ^ (e + 1)) as E1 by (by rewrite N.pow_add_r, N.mul_comm).
  assert (100 * 10 ^ e = 10 ^ (e + 1 + 1)) as E2 by (rewrite !N.pow_add_r; lia).
  destruct ((10 ^ e <=? d) && _) eqn:H1; [|destruct ((10 * 10 ^ e <=? d) && _) eqn:H2; [|done]];
    symmetry; [apply dec_length_between|replace (e + 2) with (e + 1 + 1) by lia; apply dec_length_between];
    split_andb; rewrite <- ?E1, <- ?E2; (apply N.leb_le + apply N.ltb_lt); done.
Qed.

Lemma decimal_quotient_eq m j : decimal_quotient m j = div_half_even (exact_decimal m).1 (10 ^ j).
Proof.
  unfold decimal_quotient, exact_decimal. cbn [fst]. destruct (N.leb_spec j 1074).
  - assert (5 ^ 1074 = 5 ^ (1074 - j) * 5 ^ j) as -> by (rewrite <- N.pow_add_r; f_equal; lia).
    change 10 with (2 * 5). rewrite N.pow_mul_l, N.mul_assoc. symmetry. apply div_half_even_scale; [apply N.neq_0_lt_0, N.pow_nonzero; lia..].
  - assert (10 ^ j = 2 ^ 1074 * 10 ^ (j - 1074) * 5 ^ 1074) as ->.
    { replace j with (1074 + (j - 1074)) at 1 by lia. rewrite N.pow_add_r. change 10 with (2 * 5) at 1. rewrite N.pow_mul_l.
      generalize (2 ^ 1074) (5 ^ 1074) (10 ^ (j - 1074)). lia. }
    symmetry. apply div_half_even_scale; [|apply N.neq_0_lt_0, N.pow_nonzero; lia].
    apply N.mul_pos_pos; apply N.neq_0_lt_0, N.pow_nonzero; lia.
Qed.

Lemma first_reading_back_Some m ns c : first_reading_back m ns = Some c → reads_back m c = true.
Proof.
  induction ns as [|n ns IH]; cbn [first_reading_back]; [done|]. cbv zeta.
  destruct (reads_back m (decimal_candidate m n)) eqn:E; [by intros [= <-]|done].
Qed.

Lemma shortest_decimal_value neg m :
  representable m = true →
  of_decimal neg (shortest_decimal m).1 (shortest_decimal m).2 = Finite neg m.
Proof.
  intros Hm. unfold shortest_decimal. cbv zeta. destruct (_ && _) eqn:Hint.
  { apply andb_true_iff in Hint as [Hint%N.eqb_eq _]. cbn [fst snd]. unfold of_decimal.
    change (Z.to_N (- 0)) with 0. change (Z.to_N 0) with 0. rewrite N.pow_0_r.
    rewrite <- (of_ratio_exact neg m 1 Hm) by lia. f_equal. rewrite <- Hint at 2. rewrite N.shiftl_mul_pow2.
    by rewrite !N.mul_1_r. }
  destruct (first_reading_back _ _) as [c|] eqn:E.
  - apply first_reading_back_Some in E. unfold reads_back in E. apply bool_decide_eq_true in E.
    by apply (of_ratio_neg false).
  - by apply of_decimal_exact.
Qed.

Lemma shortest_decimal_pos m :
  representable m = true → 0 < m → 0 < (shortest_decimal m).1.
Proof.
  intros Hm Hpos. apply N.neq_0_lt_0. intros H0.
  pose proof (shortest_decimal_value false m Hm) as H. rewrite H0 in H.
  unfold of_decimal in H. rewrite !N.mul_0_l, of_ratio_zero_num in H. injection H. lia.
Qed.

Lemma str_take_drop n s : str_take n s +:+ str_drop n s = s.
Proof. revert s. induction n; intros [|c s]; simpl; [done..|]. by rewrite IHn. Qed.

Lemma str_take_length n s : (n ≤ String.length s)%nat → String.length (str_take n s) = n.
Proof. revert s. induction n; intros [|c s]; simpl; intros; [lia..|]. rewrite IHn; lia. Qed.

Lemma str_drop_length n s : String.length (str_drop n s) = (String.length s - n)%nat.
Proof. revert s. induction n; intros [|c s]; simpl; auto. Qed.

Definition is_exp_char (c : ascii) : bool := (code c =? 101) || (code c =? 69).
(** What may follow a number: no digit, dot or exponent mark. *)
Definition num_end (c : ascii) : bool := is_digit c || (code c =? 46) || is_exp_char c.

Lemma scan_frac_none s : head_not num_end s → scan_frac s = (None, s).
Proof.
  destruct s as [|c s]; simpl; [done|]. unfold num_end. intros. split_andb. by rewrite H1.
Qed.
Lemma scan_exp_none s : head_not num_end s → scan_exp s = (None, s).
Proof.
  destruct s as [|c s]; simpl; [done|]. unfold num_end. intros. split_andb.
  unfold is_exp_char in H0. by rewrite H0.
Qed.
Lemma head_not_digit s : head_not num_end s → head_not is_digit s.
Proof. destruct s; simpl; [done|]. unfold num_end. intros. by split_andb. Qed.

Lemma scan_int_digits c ds rest :
  49 ≤ code c ≤ 57 → str_all is_digit ds = true → head_not is_digit rest →
  scan_int (String c ds +:+ rest) = Some (String c ds, rest).
Proof.
  intros Hc Hds Hr. cbn [String.append scan_int].
  assert (is_digit c = true) as Hdc.
  { unfold is_digit. apply andb_true_iff. split; apply N.leb_le; lia. }
  rewrite Hdc. rewrite (proj2 (N.eqb_neq (code c) 48)) by lia.
  change (String c (ds +:+ rest)) with (String c ds +:+ rest).
  f_equal. apply take_digits_app; [|done]. simpl. by rewrite Hdc.
Qed.

Lemma scan_frac_dot ds rest :
  ds ≠ "" → str_all is_digit ds = true → head_not is_digit rest →
  scan_frac (String "." (ds +:+ rest)) = (Some ds, rest).
Proof.
  intros Hne Hds Hr. cbn [scan_frac]. change (code "." =? 46) with true. cbv iota.
  rewrite take_digits_app by done. cbn [fst snd]. by destruct ds.
Qed.

Lemma scan_exp_mark (neg : bool) ds rest :
  ds ≠ "" → str_all is_digit ds = true → head_not is_digit rest →
  scan_exp (String "e" ((if neg then "-" else "+") +:+ (ds +:+ rest)))
  = (Some (signed neg (dval 0 ds)), rest).
Proof.
  intros Hne Hds Hr. destruct neg; cbn [scan_exp String.append];
    change (code "e" =? 101) with true; cbn [orb].
  - change (code "-" =? 45) with true. cbv iota beta.
    rewrite take_digits_app by done. cbn [fst snd]. by destruct ds.
  - change (code "+" =? 45) with false. change (code "+" =? 43) with true. cbv iota beta.
    rewrite take_digits_app by done. cbn [fst snd]. by destruct ds.
Qed.

(** Scanning an integer part, a fraction and no exponent. *)
Lemma scan_unsigned_frac neg ip fp s rest :
  scan_int s = Some (ip, String "." (fp +:+ rest)) → fp ≠ "" → str_all is_digit fp = true →
  head_not num_end rest →
  scan_unsigned neg s
  = Some (NFloat (of_decimal neg (dval 0 (ip +:+ fp)) (- Z.of_nat (String.length fp))), rest).
Proof.
  intros Hi Hne Hfp Hr. unfold scan_unsigned. rewrite Hi, scan_frac_dot by auto using head_not_digit.
  cbn [fst snd]. rewrite scan_exp_none by done. done.
Qed.

Lemma layout_fixed_small d k rest neg :
  0 < d → head_not num_end rest → (Z.of_nat (String.length (dec d)) + k <= 0)%Z →
  scan_unsigned neg (("0." +:+ zeros (Z.to_nat (- (Z.of_nat (String.length (dec d)) + k))) +:+ dec d)
    +:+ rest) = Some (NFloat (of_decimal neg d k), rest).
Proof.
  intros Hd Hr Hk. set (z := Z.to_nat _). rewrite str_app_assoc.
  rewrite (scan_unsigned_frac neg "0" (zeros z +:+ dec d) _ rest); [|done|..|done].
  - do 3 f_equal. f_equal.
    + rewrite !dval_app, dval_zeros. change (dval 0 "0") with 0. rewrite N.mul_0_l. apply dval_dec.
    + rewrite str_length_app, zeros_length. lia.
  - intros H. apply (f_equal String.length) in H. rewrite str_length_app in H. simpl in H.
    pose proof (dec_nonempty d) as Hd'. destruct (dec d); [done|simpl in H; lia].
  - by rewrite str_all_app, zeros_all_digits, dec_all_digits.
Qed.

Lemma layout_fixed_large d k rest neg :
  0 < d → head_not num_end rest → (0 <= k)%Z →
  scan_unsigned neg ((dec d +:+ zeros (Z.to_nat k) +:+ ".0") +:+ rest)
  = Some (NFloat (of_decimal neg d k), rest).
Proof.
  intros Hd Hr Hk. destruct (dec_no_lead_zero d Hd) as (c & s & E & Hc).
  pose proof (dec_all_digits d) as Hall. rewrite E in Hall. simpl in Hall. split_andb.
  rewrite (scan_unsigned_frac neg (dec d +:+ zeros (Z.to_nat k)) "0" _ rest); [|..|done]; try done.
  - f_equal. f_equal. f_equal.
    rewrite !dval_app, dval_zeros, dval_dec. cbn [dval String.length].
    rewrite <- (of_decimal_scale neg d k (Z.to_N k + 1)). f_equal; [|lia].
    rewrite N.pow_add_r. replace (N.of_nat (Z.to_nat k)) with (Z.to_N k) by lia.
    change (code "0" - 48) with 0. lia.
  - rewrite E. rewrite !str_app_assoc. cbn [String.append].
    rewrite <- (str_app_assoc s).
    apply (scan_int_digits c (s +:+ zeros (Z.to_nat k)) (String "." (String "0" rest))); try done.
    by rewrite str_all_app, H0, zeros_all_digits.
Qed.

Lemma layout_fixed_split d (n : nat) rest neg :
  0 < d → head_not num_end rest → (0 < n < String.length (dec d))%nat →
  scan_unsigned neg ((str_take n (dec d) +:+ "." +:+ str_drop n (dec d)) +:+ rest)
  = Some (NFloat (of_decimal neg d (Z.of_nat n - Z.of_nat (String.length (dec d)))), rest).
Proof.
  intros Hd Hr Hn. destruct (dec_no_lead_zero d Hd) as (c & s & E & Hc).
  pose proof (dec_all_digits d) as Hall.
  rewrite <- (str_take_drop n (dec d)), str_all_app in Hall. split_andb.
  rewrite (scan_unsigned_frac neg (str_take n (dec d)) (str_drop n (dec d)) _ rest); [..|done];
    try done.
  - rewrite str_take_drop, dval_dec, str_drop_length. do 4 f_equal. lia.
  - rewrite E in *. destruct n as [|n]; [lia|]. simpl in H. split_andb.
    rewrite str_app_assoc. apply scan_int_digits; done.
  - intros E'. apply (f_equal String.length) in E'. rewrite str_drop_length in E'.
    change (String.length "") with 0%nat in E'. lia.
Qed.

Lemma signed_abs e : signed (e <? 0)%Z (Z.abs_N e) = e.
Proof. unfold signed. destruct (Z.ltb_spec e 0); lia. Qed.

Lemma zero_pad_nonempty w n : zero_pad w n ≠ "".
Proof.
  unfold zero_pad. pose proof (dec_nonempty n).
  destruct (zeros _); [done|]. done.
Qed.

Lemma layout_scientific d k rest neg :
  let e := (Z.of_nat (String.length (dec d)) + k - 1)%Z in
  let ds := str_drop 1 (dec d) in
  0 < d → head_not num_end rest →
  scan_unsigned neg ((str_take 1 (dec d) +:+ (if String.eqb ds "" then "" else "." +:+ ds) +:+ "e"
    +:+ (if (e <? 0)%Z then "-" else "+") +:+ zero_pad 2 (Z.abs_N e)) +:+ rest)
  = Some (NFloat (of_decimal neg d k), rest).
Proof.
  intros e ds Hd Hr. destruct (dec_no_lead_zero d Hd) as (c & s & E & Hc).
  pose proof (dec_all_digits d) as Hall. pose proof (dval_dec d) as Hv.
  subst ds. rewrite E in Hall, Hv |- *.
  simpl in Hall. cbn [str_take str_drop]. destruct s as [|c' s'].
  - change (String.eqb "" "") with true. cbv iota.
    cbn [String.append str_take]. unfold scan_unsigned.
    match goal with |- context [scan_int (String c ?X)] =>
      pose proof (scan_int_digits c "" X Hc eq_refl eq_refl) as Hi end.
    cbn [String.append] in Hi. rewrite Hi.
    match goal with |- context [scan_frac ?x] =>
      change (scan_frac x) with (@None string, x) end. cbn [fst snd].
    rewrite str_app_assoc, scan_exp_mark by
      auto using zero_pad_nonempty, zero_pad_all_digits, head_not_digit.
    cbn [fst snd default]. rewrite dval_zero_pad, signed_abs. do 4 f_equal; [done|].
    subst e. rewrite E. simpl. lia.
  - change (String.eqb (String c' s') "") with false. cbv iota.
    assert (str_all is_digit (String c' s') = true) as Hs by (by split_andb).
    set (s := String c' s') in *. cbn [String.append]. rewrite !str_app_assoc.
    unfold scan_unsigned.
    cbn [String.append]. match goal with |- context [scan_int (String c ?X)] =>
      pose proof (scan_int_digits c "" X Hc eq_refl eq_refl) as Hi end.
    cbn [String.append] in Hi. rewrite Hi.
    rewrite scan_frac_dot by done. cbn [fst snd].
    rewrite str_app_assoc, scan_exp_mark by
      auto using zero_pad_nonempty, zero_pad_all_digits, head_not_digit.
    cbn [fst snd default]. rewrite dval_zero_pad, signed_abs. do 4 f_equal.
    + done.
    + unfold id. subst e. rewrite E. cbn [String.length]. lia.
Qed.

Lemma scan_layout neg d k rest :
  0 < d → head_not num_end rest →
  scan_unsigned neg (layout d k +:+ rest) = Some (NFloat (of_decimal neg d k), rest).
Proof.
  intros Hd Hr. unfold layout. set (len := Z.of_nat (String.length (dec d))).
  destruct (_ && _)%bool.
  2:{ by apply layout_scientific. }
  destruct (Z.leb_spec (len + k) 0); [by apply layout_fixed_small|].
  destruct (Z.leb_spec len (len + k)).
  - replace (len + k - len)%Z with k by lia. apply layout_fixed_large; auto with lia.
  - pose proof (layout_fixed_split d (Z.to_nat (len + k)) rest neg Hd Hr ltac:(lia)) as H1.
    rewrite H1. do 4 f_equal. lia.
Qed.

(** [float(repr(x)) == x], bit for bit, in the middle of a text. *)
Lemma scan_float_repr f rest :
  is_finite f = true → float_valid f = true → head_not num_end rest →
  scan_number (float_repr f +:+ rest) = Some (NFloat f, rest).
Proof.
  destruct f as [neg m| |]; try done. intros _ Hm Hr. cbn [float_valid] in Hm.
  unfold float_repr. rewrite str_app_assoc.
  set (body := if m =? 0 then "0.0" else _).
  assert (∀ neg, scan_unsigned neg (body +:+ rest) = Some (NFloat (Finite neg m), rest)) as Hb.
  { intros n. subst body. destruct (N.eqb_spec m 0) as [->|Hm0].
    - rewrite (scan_unsigned_frac n "0" "0" _ rest) by done.
      unfold of_decimal. change (dval 0 ("0" +:+ "0")) with 0.
      by rewrite !N.mul_0_l, of_ratio_zero_num.
    - assert (0 < (shortest_decimal m).1) by (apply shortest_decimal_pos; [done|lia]).
      rewrite scan_layout by auto using strip_trailing_zeros_pos.
      by rewrite strip_trailing_zeros_value, shortest_decimal_value. }
  destruct neg; cbn [String.append scan_number]; [by apply Hb|].
  rewrite <- Hb. destruct (body +:+ rest) as [|c s] eqn:E; [by specialize (Hb false)|].
  cbn [scan_number]. destruct (code c =? 45) eqn:Ec; [|done].
  exfalso. apply N.eqb_eq in Ec. specialize (Hb false).
  unfold scan_unsigned in Hb. cbn [scan_int] in Hb. unfold is_digit in Hb. by rewrite Ec in Hb.
Qed.

(** A text that scans as a number begins with a digit or a minus sign. *)
Definition num_start (c : ascii) : bool := is_digit c || (code c =? 45).

Lemma scan_number_head s r :
  scan_number s = Some r → ∃ c s', s = String c s' ∧ num_start c = true.
Proof.
  destruct s as [|c s]; [done|]. cbn [scan_number]. unfold num_start. intros H. exists c, s.
  split; [done|]. destruct (code c =? 45); [by rewrite orb_true_r|]. rewrite orb_false_r.
  unfold scan_unsigned in H. cbn [scan_int] in H. by destruct (is_digit c).
Qed.

Lemma float_repr_head f :
  is_finite f = true → float_valid f = true →
  ∃ c s, float_repr f = String c s ∧ num_start c = true.
Proof.
  intros Hf Hv. pose proof (scan_float_repr f "" Hf Hv I) as H. rewrite str_app_nil_r in H.
  by apply scan_number_head in H.
Qed.

(** Distinct floats print differently. *)
Lemma float_repr_inj f g :
  is_finite f = true → float_valid f = true → is_finite g = true → float_valid g = true →
  float_repr f = float_repr g → f = g.
Proof.
  intros Hf Hfv Hg Hgv H.
  pose proof (scan_float_repr f "" Hf Hfv I) as H1. pose proof (scan_float_repr g "" Hg Hgv I) as H2.
  rewrite H in H1. congruence.
Qed.

(** Printing and scanning an integer. *)
Definition int_repr (z : Z) : string := (if (z <? 0)%Z then "-" else "") +:+ dec (Z.abs_N z).

Lemma scan_unsigned_dec neg n rest :
  head_not num_end rest → scan_unsigned neg (dec n +:+ rest) = Some (NInt (signed neg n), rest).
Proof.
  intros Hr. unfold scan_unsigned.
  assert (scan_int (dec n +:+ rest) = Some (dec n, rest)) as ->.
  { destruct (N.eq_dec n 0) as [->|Hn].
    - change (dec 0) with "0". destruct rest; done.
    - destruct (dec_no_lead_zero n) as (c & s & E & Hc); [lia|].
      pose proof (dec_all_digits n) as Hall. rewrite E in *. simpl in Hall. split_andb.
      apply scan_int_digits; auto using head_not_digit. }
  rewrite scan_frac_none by done. cbn [fst snd]. rewrite scan_exp_none by done. cbn [fst snd].
  by rewrite dval_dec.
Qed.

Lemma scan_int_repr z rest :
  head_not num_end rest → scan_number (int_repr z +:+ rest) = Some (NInt z, rest).
Proof.
  intros Hr. unfold int_repr. destruct (Z.ltb_spec z 0).
  - cbn [String.append scan_number]. change (code "-" =? 45) with true. cbv iota.
    rewrite scan_unsigned_dec by done. unfold signed. do 3 f_equal. lia.
  - cbn [String.append]. destruct (dec_head (Z.abs_N z)) as (c & s & E & Hc).
    pose proof (scan_unsigned_dec false (Z.abs_N z) rest Hr) as Hs.
    rewrite E in Hs |- *. cbn [String.append] in Hs |- *. cbn [scan_number].
    destruct (code c =? 45) eqn:E2.
    { apply N.eqb_eq in E2. unfold is_digit in Hc. by rewrite E2 in Hc. }
    rewrite Hs. unfold signed. do 3 f_equal. lia.
Qed.

Lemma int_repr_head z : ∃ c s, int_repr z = String c s ∧ num_start c = true.
Proof.
  pose proof (scan_int_repr z "" I) as H. rewrite str_app_nil_r in H.
  by apply scan_number_head in H.
Qed.

#[global] Arguments float_repr : simpl never.
#[global] Arguments of_decimal : simpl never.
