(* ===== verification/Json.v ===== *)
(** * Canonical JSON (src/guildmind/domain/serialization.py)

    JSON values as Python holds them, [_json_compatible], the text [canonical_json]
    produces ([json.dumps] with sorted keys, no white space, no ASCII escaping, no
    non-finite floats), the reader [json.loads], and Python's [==] on JSON values.

    The theorems of this layer: reading a canonical text back gives the value with its
    keys sorted ([loads_canonical]), so canonical texts identify values; the text does
    not depend on the insertion order of a dict; and a value has a canonical text exactly
    when all its floats are finite. *)

From Stdlib Require Import Ascii.
From S2P Require Import Prelude PyStr Float64.

Inductive json : Type :=
  | JNull
  | JBool (b : bool)
  | JInt (z : Z)
  | JFloat (f : float64)
  | JStr (s : string)
  | JArr (l : list json)
  | JObj (o : list (string * json)).

(** A dict is its items in insertion order; keys are unique in a well-formed one. *)
Abbreviation dict := (list (string * json)).

Section json_ind.
Variable P : json → Prop.
Hypothesis Hnull : P JNull.
Hypothesis Hbool : ∀ b, P (JBool b).
Hypothesis Hint : ∀ z, P (JInt z).
Hypothesis Hfloat : ∀ f, P (JFloat f).
Hypothesis Hstr : ∀ s, P (JStr s).
Hypothesis Harr : ∀ l, Forall P l → P (JArr l).
Hypothesis Hobj : ∀ o, Forall (λ kv, P kv.2) o → P (JObj o).

Fixpoint json_ind' (v : json) : P v :=
  match v with
  | JNull => Hnull
  | JBool b => Hbool b
  | JInt z => Hint z
  | JFloat f => Hfloat f
  | JStr s => Hstr s
  | JArr l => Harr l ((fix go l : Forall P l :=
      match l with [] => Forall_nil_2 _ | v :: l => Forall_cons_2 _ _ _ (json_ind' v) (go l) end) l)
  | JObj o => Hobj o ((fix go (o : dict) : Forall (λ kv, P kv.2) o :=
      match o with
      | [] => Forall_nil_2 _
      | kv :: o => Forall_cons_2 _ _ _ (json_ind' kv.2) (go o)
      end) o)
  end.
End json_ind.

Fixpoint json_eq_dec (v w : json) : {v = w} + {v ≠ w}.
Proof.
  refine (match v, w with
  | JNull, JNull => left eq_refl
  | JBool b, JBool b' => cast_if (decide (b = b'))
  | JInt z, JInt z' => cast_if (decide (z = z'))
  | JFloat f, JFloat f' => cast_if (decide (f = f'))
  | JStr s, JStr s' => cast_if (decide (s = s'))
  | JArr l, JArr l' => cast_if (@list_eq_dec _ json_eq_dec l l')
  | JObj o, JObj o' => cast_if (@list_eq_dec _ (@prod_eq_dec _ _ _ json_eq_dec) o o')
  | _, _ => right _
  end); congruence.
Defined.
#[export] Instance json_eq_decision : EqDecision json := json_eq_dec.

(** ** Dict operations *)

(** [o.get(k)] *)
Fixpoint jget (o : dict) (k : string) : option json :=
  match o with
  | [] => None
  | (k', v) :: o => if str_eqb k k' then Some v else jget o k
  end.

Definition keys (o : dict) : list string := o.*1.

(** [k in o] *)
Definition has_key (o : dict) (k : string) : bool := existsb (str_eqb k) (keys o).

(** [o.pop(k, None)] *)
Definition dict_pop (k : string) (o : dict) : dict := List.filter (λ kv, negb (str_eqb k kv.1)) o.

Fixpoint nodup_keys (o : dict) : bool :=
  match o with
  | [] => true
  | (k, _) :: o => negb (has_key o k) && nodup_keys o
  end.

(** Setting a key, as the reader does for repeated keys: the value is replaced in place. *)
Fixpoint dict_set (o : dict) (k : string) (v : json) : dict :=
  match o with
  | [] => [(k, v)]
  | (k', v') :: o => if str_eqb k k' then (k', v) :: o else (k', v') :: dict_set o k v
  end.

(** ** Well-formed values: unique keys and representable floats *)

Fixpoint json_wf (v : json) : bool :=
  match v with
  | JFloat f => float_valid f
  | JArr l => forallb json_wf l
  | JObj o => nodup_keys o && forallb (λ kv, json_wf kv.2) o
  | _ => true
  end.

(** ** Python equality

    [1 == 1.0 == True] holds in Python, lists compare item by item, and dicts compare as
    maps. *)
Definition number_eqb (v w : json) : option bool :=
  let int_of v := match v with
    | JBool b => Some (if b then 1 else 0)%Z | JInt z => Some z | _ => None end in
  match int_of v, int_of w, v, w with
  | Some a, Some b, _, _ => Some (a =? b)%Z
  | Some a, None, _, JFloat g => Some (int_float_eqb a g)
  | None, Some b, JFloat f, _ => Some (int_float_eqb b f)
  | None, None, JFloat f, JFloat g => Some (feqb f g)
  | _, _, _, _ => None
  end.

Fixpoint py_eqb (v w : json) {struct v} : bool :=
  match v, w with
  | JNull, JNull => true
  | JStr s, JStr t => str_eqb s t
  | JArr l, JArr l' =>
      (fix go l l' := match l, l' with
        | [], [] => true
        | v :: l, w :: l' => py_eqb v w && go l l'
        | _, _ => false
        end) l l'
  | JObj o, JObj o' =>
      Nat.eqb (length o) (length o') &&
      (fix go (o : dict) := match o with
        | [] => true
        | (k, v) :: o =>
            match jget o' k with Some w => py_eqb v w | None => false end && go o
        end) o
  | _, _ => default false (number_eqb v w)
  end.

(** ** The canonical text *)

(** [json_compatible]: what [_json_compatible] does to a value built from JSON types;
    the only failure left is a non-finite float. *)
Fixpoint finite_json (v : json) : bool :=
  match v with
  | JFloat f => is_finite f
  | JArr l => forallb finite_json l
  | JObj o => forallb (λ kv, finite_json kv.2) o
  | _ => true
  end.

Definition _json_compatible (v : json) : result json :=
  if finite_json v then Ok v
  else Err (ValueError "canonical JSON does not support non-finite floats").

(** [sort_keys=True]: dicts are written by ascending code points of their keys. *)
Definition key_le (p q : string * json) : Prop := String.le p.1 q.1.
#[export] Instance key_le_dec : RelDecision key_le := λ p q, decide (String.le p.1 q.1).

Fixpoint sort_json (v : json) : json :=
  match v with
  | JArr l => JArr (sort_json <$> l)
  | JObj o => JObj (merge_sort key_le ((λ kv, (kv.1, sort_json kv.2)) <$> o))
  | _ => v
  end.

Local Open Scope N_scope.

Definition hex_digit (n : N) : ascii := if n <? 10 then chr (48 + n) else chr (87 + n).

(** The escapes [json.dumps(ensure_ascii=False)] writes: quote, backslash and the control
    characters below U+0020. *)
Definition escape_char (c : ascii) : string :=
  let n := code c in
  if n =? 34 then String (chr 92) (String (chr 34) "")
  else if n =? 92 then String (chr 92) (String (chr 92) "")
  else if n =? 8 then String (chr 92) "b"
  else if n =? 12 then String (chr 92) "f"
  else if n =? 10 then String (chr 92) "n"
  else if n =? 13 then String (chr 92) "r"
  else if n =? 9 then String (chr 92) "t"
  else if n <? 32 then
    String (chr 92) ("u00" +:+ String (hex_digit (n / 16)) (String (hex_digit (n mod 16)) ""))
  else String c "".

Fixpoint escape (s : string) : string :=
  match s with
  | EmptyString => EmptyString
  | String c s => escape_char c +:+ escape s
  end.

Definition quote : string := String (chr 34) "".
Definition print_string (s : string) : string := quote +:+ escape s +:+ quote.

Fixpoint join (sep : string) (l : list string) : string :=
  match l with
  | [] => ""
  | [x] => x
  | x :: l => x +:+ sep +:+ join sep l
  end.

(** [json.dumps(value, separators=(",", ":"))] *)
Fixpoint dumps (v : json) : string :=
  match v with
  | JNull => "null"
  | JBool true => "true"
  | JBool false => "false"
  | JInt z => int_repr z
  | JFloat f => float_repr f
  | JStr s => print_string s
  | JArr l => "[" +:+ join "," (dumps <$> l) +:+ "]"
  | JObj o => "{" +:+ join "," ((λ kv, print_string kv.1 +:+ ":" +:+ dumps kv.2) <$> o) +:+ "}"
  end.

Definition canonical_json (v : json) : result string :=
  v' ← _json_compatible v; Ok (dumps (sort_json v')).

(** ** The reader

    [json.loads] as a recursive descent; [fuel] bounds the nesting and the number of
    items, and the length of the text is always enough for a canonical text
    ([loads_canonical]). *)
Definition is_json_ws (c : ascii) : bool :=
  let n := code c in (n =? 32) || (n =? 9) || (n =? 10) || (n =? 13).

Definition skip_ws : string → string := lstrip is_json_ws.

Definition hex_value (c : ascii) : option N :=
  let n := code c in
  if (48 <=? n) && (n <=? 57) then Some (n - 48)
  else if (97 <=? n) && (n <=? 102) then Some (n - 87)
  else if (65 <=? n) && (n <=? 70) then Some (n - 55)
  else None.

(** The character of an escape after the backslash, and the rest of the text.  A [\u]
    escape above U+00FF is outside the modelled code points. *)
Definition scan_escape (s : string) : option (ascii * string) :=
  match s with
  | EmptyString => None
  | String c s' =>
      let n := code c in
      if (n =? 34) || (n =? 92) || (n =? 47) then Some (c, s')
      else if n =? 98 then Some (chr 8, s')
      else if n =? 102 then Some (chr 12, s')
      else if n =? 110 then Some (chr 10, s')
      else if n =? 114 then Some (chr 13, s')
      else if n =? 116 then Some (chr 9, s')
      else if n =? 117 then
        match s' with
        | String a (String b (String c1 (String c2 s''))) =>
            match hex_value a, hex_value b, hex_value c1, hex_value c2 with
            | Some 0, Some 0, Some h, Some l => Some (chr (16 * h + l), s'')
            | _, _, _, _ => None
            end
        | _ => None
        end
      else None
  end.

(** The rest of a string literal after its opening quote. *)
Fixpoint scan_string (fuel : nat) (s : string) : option (string * string) :=
  match fuel, s with
  | S fuel, String c s' =>
      let n := code c in
      if n =? 34 then Some (EmptyString, s')
      else if n =? 92 then
        '(d, s'') ← scan_escape s'; '(t, r) ← scan_string fuel s''; Some (String d t, r)
      else if n <? 32 then None
      else '(t, r) ← scan_string fuel s'; Some (String c t, r)
  | _, _ => None
  end.

Definition eat (p s : string) : option string :=
  if String.prefix p s then Some (str_drop (String.length p) s) else None.

Definition number_json (n : number) : json :=
  match n with NInt z => JInt z | NFloat f => JFloat f end.

(** A non-finite constant, which a strict reader refuses. *)
Definition constant {A} (strict : bool) (o : option A) : option A := if strict then None else o.

Fixpoint scan_value (strict : bool) (fuel : nat) (s : string) {struct fuel} : option (json * string) :=
  match fuel with
  | O => None
  | S fuel =>
      match s with
      | EmptyString => None
      | String c s' =>
          let n := code c in
          if n =? 34 then '(t, r) ← scan_string (String.length s') s'; Some (JStr t, r)
          else if n =? 91 then
            match skip_ws s' with
            | String d r => if code d =? 93 then Some (JArr [], r)
                            else scan_items strict fuel [] (skip_ws s')
            | EmptyString => None
            end
          else if n =? 123 then
            match skip_ws s' with
            | String d r => if code d =? 125 then Some (JObj [], r)
                            else scan_members strict fuel [] (skip_ws s')
            | EmptyString => None
            end
          else if n =? 110 then r ← eat "null" s; Some (JNull, r)
          else if n =? 116 then r ← eat "true" s; Some (JBool true, r)
          else if n =? 102 then r ← eat "false" s; Some (JBool false, r)
          else if n =? 78 then r ← constant strict (eat "NaN" s); Some (JFloat NotANumber, r)
          else if n =? 73 then r ← constant strict (eat "Infinity" s); Some (JFloat (Infinite false), r)
          else match scan_number s with
               | Some (x, r) => Some (number_json x, r)
               | None => r ← constant strict (eat "-Infinity" s); Some (JFloat (Infinite true), r)
               end
      end
  end
(** The items of a list from the first one on, in front of the ones in [acc] reversed. *)
with scan_items (strict : bool) (fuel : nat) (acc : list json) (s : string) {struct fuel} : option (json * string) :=
  match fuel with
  | O => None
  | S fuel =>
      '(v, r) ← scan_value strict fuel s;
      match skip_ws r with
      | String d r => if code d =? 93 then Some (JArr (reverse (v :: acc)), r)
                      else if code d =? 44 then scan_items strict fuel (v :: acc) (skip_ws r) else None
      | EmptyString => None
      end
  end
with scan_members (strict : bool) (fuel : nat) (acc : dict) (s : string) {struct fuel} : option (json * string) :=
  match fuel with
  | O => None
  | S fuel =>
      r ← eat quote s;
      '(k, r) ← scan_string (String.length r) r;
      r ← eat ":" (skip_ws r);
      '(v, r) ← scan_value strict fuel (skip_ws r);
      if strict && has_key acc k then None
      else match skip_ws r with
      | String d r => if code d =? 125 then Some (JObj (dict_set acc k v), r)
                      else if code d =? 44 then scan_members strict fuel (dict_set acc k v) (skip_ws r)
                      else None
      | EmptyString => None
      end
  end.

Definition loads_with (strict : bool) (s : string) : result json :=
  match scan_value strict (2 * String.length s + 2) (skip_ws s) with
  | Some (v, r) => if String.eqb (skip_ws r) "" then Ok v else Err (JSONDecodeError "Extra data")
  | None => Err (JSONDecodeError "Expecting value")
  end.

(** [json.loads(text)] *)
Definition loads : string → result json := loads_with false.

(** [json.loads(text)] with an [object_pairs_hook] that raises at a repeated key and a
    [parse_constant] that raises at a non-finite constant. *)
Definition strict_loads : string → result json := loads_with true.

(** ** Reading a canonical text back *)

Lemma scan_string_char fuel c t :
  scan_string (S fuel) (escape_char c +:+ t)
  = ('(u, r) ← scan_string fuel t; Some (String c u, r)).
Proof. destruct c as [[] [] [] [] [] [] [] []]; reflexivity. Qed.

Lemma scan_escape_string s rest fuel :
  (String.length s < fuel)%nat → scan_string fuel (escape s +:+ quote +:+ rest) = Some (s, rest).
Proof.
  revert fuel. induction s as [|c s IH]; intros [|fuel] Hf; cbn [String.length] in Hf; try lia.
  { done. }
  cbn [escape]. rewrite str_app_assoc, scan_string_char, IH by lia. done.
Qed.

Lemma escape_length s : (String.length s ≤ String.length (escape s))%nat.
Proof.
  induction s as [|c s IH]; simpl; [lia|]. rewrite str_length_app.
  assert (1 ≤ String.length (escape_char c))%nat; [|lia].
  destruct c as [[] [] [] [] [] [] [] []]; vm_compute; lia.
Qed.

Lemma eat_app p r : eat p (p +:+ r) = Some r.
Proof.
  unfold eat. assert (String.prefix p (p +:+ r) = true) as ->.
  { induction p as [|c p IH]; simpl; [by destruct r|]. by destruct (Ascii.ascii_dec c c). }
  f_equal. induction p; simpl; auto.
Qed.

(** The recursion depth a value needs. *)
Fixpoint need (v : json) : nat :=
  match v with
  | JArr l => S ((fix go l := match l with [] => O | v :: l => S (Nat.max (need v) (go l)) end) l)
  | JObj o => S ((fix go (o : dict) := match o with
      | [] => O | kv :: o => S (Nat.max (need kv.2) (go o)) end) o)
  | _ => 1%nat
  end.
Fixpoint need_items (l : list json) : nat :=
  match l with [] => O | v :: l => S (Nat.max (need v) (need_items l)) end.
Fixpoint need_members (o : dict) : nat :=
  match o with [] => O | kv :: o => S (Nat.max (need kv.2) (need_members o)) end.

Lemma need_JArr l : need (JArr l) = S (need_items l).
Proof. simpl. f_equal. Qed.
Lemma need_JObj o : need (JObj o) = S (need_members o).
Proof. simpl. f_equal. Qed.

Definition print_member (kv : string * json) : string := print_string kv.1 +:+ ":" +:+ dumps kv.2.

Definition val_start (c : ascii) : bool := negb (is_json_ws c).

Lemma num_start_spec c : num_start c = true →
  (code c =? 34) = false ∧ (code c =? 91) = false ∧ (code c =? 123) = false ∧
  (code c =? 110) = false ∧ (code c =? 116) = false ∧ (code c =? 102) = false ∧
  (code c =? 78) = false ∧ (code c =? 73) = false ∧ val_start c = true.
Proof. destruct c as [[] [] [] [] [] [] [] []]; vm_compute; try done; intros; repeat split. Qed.

Lemma dumps_head v :
  json_wf v = true → finite_json v = true →
  ∃ c s, dumps v = String c s ∧ val_start c = true ∧ (code c =? 93) = false ∧ (code c =? 125) = false.
Proof.
  assert (∀ c, num_start c = true → (code c =? 93) = false ∧ (code c =? 125) = false) as Hn.
  { intros c. destruct c as [[] [] [] [] [] [] [] []]; vm_compute; try done; intros; repeat split. }
  destruct v; cbn [json_wf finite_json dumps]; intros Hw Hf.
  - by eexists _, _.
  - destruct b; by eexists _, _.
  - destruct (int_repr_head z) as (c & s & -> & Hc).
    exists c, s. split; [done|]. split; [by apply num_start_spec|by apply Hn].
  - destruct (float_repr_head f Hf Hw) as (c & s & -> & Hc).
    exists c, s. split; [done|]. split; [by apply num_start_spec|by apply Hn].
  - by eexists _, _.
  - by eexists _, _.
  - by eexists _, _.
Qed.

Lemma skip_ws_id s : match s with String c _ => val_start c = true | _ => True end → skip_ws s = s.
Proof.
  destruct s as [|c s]; [done|]. unfold skip_ws. simpl. unfold val_start.
  intros H%negb_true_iff. by rewrite H.
Qed.

Section reading.
Context (strict : bool).

Lemma scan_value_number fuel s r x :
  scan_number s = Some (x, r) → (0 < fuel)%nat → scan_value strict fuel s = Some (number_json x, r).
Proof.
  intros H Hf. destruct (scan_number_head _ _ H) as (c & s' & -> & Hc).
  destruct fuel as [|fuel]; [lia|]. cbn [scan_value].
  apply num_start_spec in Hc as (-> & -> & -> & -> & -> & -> & -> & -> & _). by rewrite H.
Qed.

Definition reads (v : json) : Prop :=
  ∀ fuel rest, (need v ≤ fuel)%nat → head_not num_end rest →
    scan_value strict fuel (dumps v +:+ rest) = Some (v, rest).

Lemma join_cons x y l : join "," (x :: y :: l) = x +:+ "," +:+ join "," (y :: l).
Proof. done. Qed.

Lemma dumps_skip v rest :
  json_wf v = true → finite_json v = true → skip_ws (dumps v +:+ rest) = dumps v +:+ rest.
Proof.
  intros Hw Hf. destruct (dumps_head v Hw Hf) as (c & s & -> & Hc & _). by apply skip_ws_id.
Qed.

Lemma scan_items_join l v acc fuel rest :
  Forall reads (v :: l) → forallb json_wf (v :: l) = true → forallb finite_json (v :: l) = true →
  (need_items (v :: l) ≤ fuel)%nat →
  scan_items strict fuel acc (join "," (dumps <$> v :: l) +:+ "]" +:+ rest)
  = Some (JArr (reverse acc ++ v :: l), rest).
Proof.
  revert v acc fuel. induction l as [|w l IH]; intros v acc fuel Hr Hw Hf Hfuel.
  - destruct fuel as [|fuel]; simpl in Hfuel; [lia|]. cbn [fmap list_fmap join scan_items].
    apply Forall_cons in Hr as [Hv _]. rewrite Hv by (try done; lia). cbn [mbind option_bind].
    rewrite skip_ws_id by done. cbn [String.append]. change (code "]" =? 93) with true. cbv iota.
    by rewrite reverse_cons.
  - destruct fuel as [|fuel]; [simpl in Hfuel; lia|].
    change (dumps <$> v :: w :: l) with (dumps v :: dumps w :: (dumps <$> l)).
    rewrite join_cons, !str_app_assoc. cbn [scan_items].
    apply Forall_cons in Hr as [Hv Hr]. cbn [forallb] in Hw, Hf.
    apply andb_true_iff in Hw as [Hw1 Hw], Hf as [Hf1 Hf].
    cbn [need_items] in Hfuel. rewrite Hv by (try done; lia). cbn [mbind option_bind].
    rewrite skip_ws_id by done. cbn [String.append]. change (code "," =? 93) with false.
    change (code "," =? 44) with true. cbv iota.
    assert (skip_ws (join "," (dumps w :: (dumps <$> l)) +:+ String "]" rest)
      = join "," (dumps w :: (dumps <$> l)) +:+ String "]" rest) as ->.
    { pose proof Hw as Hw'. pose proof Hf as Hf'. cbn [forallb] in Hw', Hf'. split_andb.
      destruct l; cbn [fmap list_fmap]; [by apply dumps_skip|].
      rewrite join_cons, !str_app_assoc. by apply dumps_skip. }
    change (String "]" rest) with ("]" +:+ rest).
    change (dumps w :: (dumps <$> l)) with (dumps <$> w :: l).
    rewrite IH; [|done..|cbn [need_items] in *; lia].
    by rewrite reverse_cons, <- app_assoc.
Qed.

Lemma dict_set_fresh o k v : has_key o k = false → dict_set o k v = o ++ [(k, v)].
Proof.
  induction o as [|[k' v'] o IH]; simpl; [done|]. unfold has_key. simpl. intros.
  apply orb_false_iff in H as [H1 H2]. rewrite H1. f_equal. by apply IH.
Qed.

Lemma has_key_app o1 o2 k : has_key (o1 ++ o2) k = has_key o1 k || has_key o2 k.
Proof. unfold has_key, keys. by rewrite fmap_app, existsb_app. Qed.

Lemma scan_members_join o kv acc fuel rest :
  Forall (λ kv, reads kv.2) (kv :: o) → forallb (λ kv, json_wf kv.2) (kv :: o) = true →
  forallb (λ kv, finite_json kv.2) (kv :: o) = true → nodup_keys (kv :: o) = true →
  (∀ k, has_key acc k = true → has_key (kv :: o) k = false) →
  (need_members (kv :: o) ≤ fuel)%nat →
  scan_members strict fuel acc (join "," (print_member <$> kv :: o) +:+ "}" +:+ rest)
  = Some (JObj (acc ++ kv :: o), rest).
Proof.
  revert kv acc fuel. induction o as [|kw o IH]; intros [k v] acc fuel Hr Hw Hf Hnd Hacc Hfuel;
    (destruct fuel as [|fuel]; [simpl in Hfuel; lia|]);
    apply Forall_cons in Hr as [Hv Hr]; cbn [forallb snd] in Hw, Hf, Hv;
    apply andb_true_iff in Hw as [Hw1 Hw], Hf as [Hf1 Hf];
    assert (Hk : has_key acc k = false) by
      (destruct (has_key acc k) eqn:E; [|done]; specialize (Hacc k E);
       unfold has_key in Hacc; simpl in Hacc; unfold str_eqb in Hacc; by rewrite String.eqb_refl in Hacc).
  - cbn [fmap list_fmap join print_member fst snd scan_members].
    unfold print_member, print_string. cbn [fst snd]. rewrite !str_app_assoc, eat_app.
    cbn [mbind option_bind]. rewrite scan_escape_string.
    2:{ rewrite str_length_app. pose proof (escape_length k). simpl. lia. }
    cbn [mbind option_bind]. rewrite skip_ws_id by done. rewrite eat_app. cbn [mbind option_bind].
    rewrite dumps_skip by done. rewrite Hv by (simpl in Hfuel; try done; lia). cbn [mbind option_bind].
    rewrite Hk, andb_false_r. rewrite skip_ws_id by done. cbn [String.append]. change (code "}" =? 125) with true. cbv iota.
    by rewrite dict_set_fresh.
  - change (print_member <$> (k, v) :: kw :: o)
      with (print_member (k, v) :: print_member kw :: (print_member <$> o)).
    rewrite join_cons. unfold print_member at 1, print_string at 1. cbn [fst snd].
    rewrite !str_app_assoc. cbn [scan_members]. rewrite eat_app.
    cbn [mbind option_bind]. rewrite scan_escape_string.
    2:{ rewrite str_length_app. pose proof (escape_length k). simpl. lia. }
    cbn [mbind option_bind]. rewrite skip_ws_id by done. rewrite eat_app. cbn [mbind option_bind].
    rewrite dumps_skip by done. rewrite Hv by (cbn [need_members] in Hfuel; simpl in Hfuel; try done; lia).
    cbn [mbind option_bind]. rewrite Hk, andb_false_r.
    rewrite skip_ws_id by done. cbn [String.append]. change (code "," =? 125) with false.
    change (code "," =? 44) with true. cbv iota.
    rewrite skip_ws_id.
    2:{ destruct o; [done|]. cbn [fmap list_fmap]. rewrite join_cons. done. }
    change (String "}" rest) with ("}" +:+ rest).
    change (print_member kw :: (print_member <$> o)) with (print_member <$> kw :: o).
    cbn [nodup_keys] in Hnd. apply andb_true_iff in Hnd as [Hnd1 Hnd]. apply negb_true_iff in Hnd1.
    rewrite IH; [| done.. | | cbn [need_members] in *; lia].
    + by rewrite dict_set_fresh, <- app_assoc.
    + intros k'. rewrite dict_set_fresh, has_key_app by done. intros [H|H]%orb_true_iff.
      * specialize (Hacc k' H). unfold has_key in Hacc |- *. simpl in Hacc |- *.
        by apply orb_false_iff in Hacc as [_ ?].
      * unfold has_key in H at 1. simpl in H. rewrite orb_false_r in H.
        unfold str_eqb in H. apply String.eqb_eq in H as ->. done.
Qed.

Lemma dumps_reads v : json_wf v = true → finite_json v = true → reads v.
Proof.
  induction v as [|b|z|f|s|l IH|o IH] using json_ind'; intros Hw Hf fuel rest Hfuel Hr.
  - destruct fuel; [simpl in Hfuel; lia|]. by destruct rest.
  - destruct fuel; [simpl in Hfuel; lia|]. destruct b; by destruct rest.
  - apply (scan_value_number fuel _ rest (NInt z)); [by apply scan_int_repr|simpl in Hfuel; lia].
  - apply (scan_value_number fuel _ rest (NFloat f)); [by apply scan_float_repr|simpl in Hfuel; lia].
  - destruct fuel; [simpl in Hfuel; lia|]. cbn [dumps]. unfold print_string. rewrite !str_app_assoc.
    unfold quote at 1. cbn [String.append scan_value]. change (code (chr 34) =? 34) with true.
    cbv iota. rewrite scan_escape_string; [done|].
    rewrite str_length_app. pose proof (escape_length s). simpl. lia.
  - destruct fuel as [|fuel]; [simpl in Hfuel; lia|]. cbn [dumps json_wf finite_json] in *.
    destruct l as [|v l]; [done|].
    rewrite !str_app_assoc. rewrite need_JArr in Hfuel.
    assert (Forall reads (v :: l)) as Hl.
    { rewrite Forall_forall in IH |- *. rewrite forallb_forall in Hw, Hf. intros x Hx.
      apply IH; [done|apply Hw, list_elem_of_In, Hx|apply Hf, list_elem_of_In, Hx]. }
    cbn [String.append scan_value]. change (code "[" =? 34) with false.
    change (code "[" =? 91) with true. cbv iota.
    pose proof (scan_items_join l v [] fuel rest Hl Hw Hf ltac:(lia)) as Hi.
    assert (∃ c s, join "," (dumps <$> v :: l) +:+ "]" +:+ rest = String c s
      ∧ val_start c = true ∧ (code c =? 93) = false) as (c & s & E & Hc & Hc').
    { cbn [forallb] in Hw, Hf. split_andb.
      destruct (dumps_head v) as (c & s & E & H3 & H4 & _); [done..|].
      destruct l; cbn [fmap list_fmap]; rewrite ?join_cons; cbn [join]; rewrite E;
        cbn [String.append]; by eexists _, _. }
    change ("]" +:+ rest) with (String "]" rest) in *.
    rewrite E in Hi |- *. rewrite skip_ws_id by done. by rewrite Hc'.
  - destruct fuel as [|fuel]; [simpl in Hfuel; lia|]. cbn [dumps json_wf finite_json] in *.
    apply andb_true_iff in Hw as [Hnd Hw].
    destruct o as [|kv o]; [done|].
    rewrite !str_app_assoc. rewrite need_JObj in Hfuel.
    assert (Forall (λ kv, reads kv.2) (kv :: o)) as Hl.
    { rewrite Forall_forall in IH |- *. rewrite forallb_forall in Hw, Hf. intros x Hx.
      apply IH; [done|apply (Hw x), list_elem_of_In, Hx|apply (Hf x), list_elem_of_In, Hx]. }
    change (λ kv0 : string * json, print_string kv0.1 +:+ ":" +:+ dumps kv0.2) with print_member.
    cbn [String.append scan_value]. change (code "{" =? 34) with false.
    change (code "{" =? 91) with false. change (code "{" =? 123) with true. cbv iota.
    pose proof (scan_members_join o kv [] fuel rest Hl Hw Hf Hnd) as Hi.
    specialize (Hi ltac:(done) ltac:(lia)).
    assert (∃ s, join "," (print_member <$> kv :: o) +:+ "}" +:+ rest = String (chr 34) s) as (s & E).
    { destruct o; cbn [fmap list_fmap]; rewrite ?join_cons; cbn [join];
        unfold print_member, print_string, quote; rewrite !str_app_assoc; cbn [String.append];
        by eexists. }
    change ("}" +:+ rest) with (String "}" rest) in *.
    rewrite E in Hi |- *. rewrite skip_ws_id by done. by rewrite Hi.
Qed.

Lemma join_length_cons x l : (String.length (join "," (x :: l)) =
  String.length x + match l with [] => 0 | _ => S (String.length (join "," l)) end)%nat.
Proof.
  destruct l as [|y l]; [simpl; lia|]. rewrite join_cons, !str_length_app. simpl. lia.
Qed.

(** The nesting of a value is bounded by the length of its text. *)
Lemma need_length v :
  json_wf v = true → finite_json v = true → (need v ≤ String.length (dumps v))%nat.
Proof.
  induction v as [|b|z|f|s|l IH|o IH] using json_ind'; intros Hw Hf.
  1-5: match goal with |- (_ ≤ String.length (dumps ?v))%nat =>
    destruct (dumps_head v Hw Hf) as (c & s' & -> & _) end; simpl; lia.
  - rewrite need_JArr. cbn [dumps]. rewrite !str_length_app. cbn [json_wf finite_json] in *.
    enough (need_items l ≤ S (String.length (join "," (dumps <$> l))))%nat by (simpl; lia).
    induction IH as [|v l Hv _ IHl]; [simpl; lia|]. cbn [forallb] in *. split_andb.
    cbn [need_items fmap list_fmap]. rewrite join_length_cons.
    specialize (Hv ltac:(done) ltac:(done)). specialize (IHl ltac:(done) ltac:(done)).
    destruct l; simpl in *; lia.
  - rewrite need_JObj. cbn [dumps]. rewrite !str_length_app. cbn [json_wf finite_json] in *.
    apply andb_true_iff in Hw as [_ Hw].
    change (λ kv0 : string * json, print_string kv0.1 +:+ ":" +:+ dumps kv0.2) with print_member.
    enough (need_members o ≤ S (String.length (join "," (print_member <$> o))))%nat by (simpl; lia).
    induction IH as [|v l Hv _ IHl]; [simpl; lia|]. cbn [forallb] in *. split_andb.
    cbn [need_members fmap list_fmap]. rewrite join_length_cons.
    specialize (Hv ltac:(done) ltac:(done)). specialize (IHl ltac:(done) ltac:(done)).
    unfold print_member at 1. rewrite !str_length_app. destruct l; simpl in *; lia.
Qed.

Lemma loads_dumps v : json_wf v = true → finite_json v = true → loads_with strict (dumps v) = Ok v.
Proof.
  intros Hw Hf. unfold loads_with.
  pose proof (dumps_skip v "" Hw Hf) as Hs. rewrite str_app_nil_r in Hs. rewrite Hs.
  pose proof (dumps_reads v Hw Hf (2 * String.length (dumps v) + 2)%nat "") as Hr.
  rewrite str_app_nil_r in Hr. rewrite Hr; [done| |done].
  pose proof (need_length v Hw Hf). lia.
Qed.
End reading.

(** ** Sorting keys *)

#[export] Instance key_le_trans : Transitive key_le.
Proof. intros p q r. unfold key_le. apply transitivity. Qed.
#[export] Instance key_le_total : Total key_le.
Proof. intros p q. unfold key_le. apply String.le_total. Qed.

Lemma has_key_In o k : has_key o k = true ↔ k ∈ keys o.
Proof.
  unfold has_key. rewrite existsb_exists. unfold str_eqb. setoid_rewrite String.eqb_eq.
  setoid_rewrite <- list_elem_of_In. naive_solver.
Qed.

Lemma nodup_keys_NoDup o : nodup_keys o = true ↔ NoDup (keys o).
Proof.
  induction o as [|[k v] o IH]; simpl; [split; [constructor|done]|].
  rewrite andb_true_iff, negb_true_iff, NoDup_cons, IH.
  rewrite <- has_key_In. by rewrite not_true_iff_false.
Qed.

Lemma keys_separate o : NoDup (keys o) → separates key_le o.
Proof.
  intros Hnd [k v] [k' v'] H1 H2. unfold key_le. simpl. intros Ha Hb.
  assert (k = k') as <- by (by apply (anti_symm String.le)). f_equal.
  apply list_elem_of_lookup in H1 as [i Hi], H2 as [j Hj].
  assert (i = j) as <-.
  { apply (NoDup_lookup (keys o) i j k Hnd); unfold keys; rewrite list_lookup_fmap.
    - by rewrite Hi. - by rewrite Hj. }
  rewrite Hi in Hj. by injection Hj.
Qed.

Lemma keys_perm o o' : o ≡ₚ o' → keys o ≡ₚ keys o'.
Proof. intros. by apply fmap_Permutation. Qed.

Lemma nodup_keys_perm o o' : o ≡ₚ o' → nodup_keys o = nodup_keys o'.
Proof.
  intros H. apply eq_true_iff_eq. rewrite !nodup_keys_NoDup. by rewrite (keys_perm o o' H).
Qed.

Lemma forallb_perm {A} (f : A → bool) l l' : l ≡ₚ l' → forallb f l = forallb f l'.
Proof.
  intros H. induction H as [|? ? ? _ IH|x y l|? ? ? _ IH1 _ IH2]; simpl; try congruence.
  by destruct (f x), (f y).
Qed.

Lemma keys_map o (f : json → json) : keys ((λ kv, (kv.1, f kv.2)) <$> o) = keys o.
Proof. unfold keys. rewrite <- list_fmap_compose. by apply list_fmap_ext. Qed.

Lemma nodup_keys_map o (f : json → json) :
  nodup_keys ((λ kv, (kv.1, f kv.2)) <$> o) = nodup_keys o.
Proof. apply eq_true_iff_eq. by rewrite !nodup_keys_NoDup, keys_map. Qed.

Lemma forallb_fmap {A B} (f : A → B) (p : B → bool) l :
  forallb p (f <$> l) = forallb (λ x, p (f x)) l.
Proof. induction l; csimpl; congruence. Qed.

Lemma forallb_ext_Forall {A} (p q : A → bool) l :
  Forall (λ x, p x = q x) l → forallb p l = forallb q l.
Proof. induction 1; simpl; congruence. Qed.

Lemma sort_json_wf v : json_wf (sort_json v) = json_wf v.
Proof.
  induction v as [|b|z|f|s|l IH|o IH] using json_ind'; try done; cbn [sort_json json_wf].
  - rewrite forallb_fmap. by apply forallb_ext_Forall.
  - rewrite (nodup_keys_perm _ _ (merge_sort_Permutation _ _)),
      (forallb_perm _ _ _ (merge_sort_Permutation _ _)), nodup_keys_map, forallb_fmap.
    f_equal. by apply forallb_ext_Forall.
Qed.

Lemma sort_json_finite v : finite_json (sort_json v) = finite_json v.
Proof.
  induction v as [|b|z|f|s|l IH|o IH] using json_ind'; try done; cbn [sort_json finite_json].
  - rewrite forallb_fmap. by apply forallb_ext_Forall.
  - rewrite (forallb_perm _ _ _ (merge_sort_Permutation _ _)), forallb_fmap.
    by apply forallb_ext_Forall.
Qed.

Lemma list_fmap_id_Forall {A} (f : A → A) l : Forall (λ x, f x = x) l → f <$> l = l.
Proof. induction 1; csimpl; congruence. Qed.

(** Sorting twice is sorting once. *)
Lemma sort_json_idemp v : json_wf v = true → sort_json (sort_json v) = sort_json v.
Proof.
  induction v as [|b|z|f|s|l IH|o IH] using json_ind'; try done; cbn [sort_json json_wf]; intros Hw.
  - f_equal. apply list_fmap_id_Forall. rewrite Forall_fmap. rewrite Forall_forall in IH |- *.
    rewrite forallb_forall in Hw. intros x Hx. apply IH; [done|]. by apply Hw, list_elem_of_In.
  - split_andb. f_equal.
    assert (Forall (λ kv, (kv.1, sort_json kv.2) = kv)
      (merge_sort key_le ((λ kv, (kv.1, sort_json kv.2)) <$> o))) as HF.
    { rewrite merge_sort_Permutation, Forall_fmap. rewrite Forall_forall in IH |- *.
      rewrite forallb_forall in H0. intros x Hx. simpl. f_equal. apply IH; [done|].
      by apply (H0 x), list_elem_of_In. }
    rewrite (list_fmap_id_Forall _ _ HF). apply merge_sort_idemp; [apply _..|].
    apply keys_separate. rewrite keys_map. by apply nodup_keys_NoDup.
Qed.

(** The order in which the items of a dict were inserted does not show in its text. *)
Lemma sort_json_perm o o' :
  nodup_keys o = true → o ≡ₚ o' → sort_json (JObj o) = sort_json (JObj o').
Proof.
  intros Hnd H. cbn [sort_json]. f_equal. apply merge_sort_perm; [apply _..| |].
  - apply keys_separate. rewrite keys_map. by apply nodup_keys_NoDup.
  - by rewrite H.
Qed.

(** ** Facts the domain layer uses *)

Lemma canonical_json_ok v :
  finite_json v = true → canonical_json v = Ok (dumps (sort_json v)).
Proof. intros H. unfold canonical_json, _json_compatible. by rewrite H. Qed.

Lemma canonical_json_inv v s :
  canonical_json v = Ok s → finite_json v = true ∧ s = dumps (sort_json v).
Proof.
  unfold canonical_json, _json_compatible. destruct (finite_json v); simpl; [|done].
  intros [= <-]. done.
Qed.

Lemma loads_with_canonical strict v s :
  json_wf v = true → canonical_json v = Ok s → loads_with strict s = Ok (sort_json v).
Proof.
  intros Hw [Hf ->]%canonical_json_inv.
  apply loads_dumps; [by rewrite sort_json_wf|by rewrite sort_json_finite].
Qed.

Lemma loads_canonical v s :
  json_wf v = true → canonical_json v = Ok s → loads s = Ok (sort_json v).
Proof. apply loads_with_canonical. Qed.

(** ** What is read is well-formed *)

Lemma scan_number_valid s x r : scan_number s = Some (x, r) → json_wf (number_json x) = true.
Proof.
  assert (∀ neg s x r, scan_unsigned neg s = Some (x, r) → json_wf (number_json x) = true) as Hu.
  { intros neg s' x' r'. unfold scan_unsigned. destruct (scan_int s') as [[ip s1]|]; [|done].
    destruct (scan_frac s1).1, (scan_exp _).1; intros [= <- _]; try done;
      cbn [number_json json_wf]; apply of_ratio_valid, pow10_pos. }
  destruct s as [|c s]; [done|]. cbn [scan_number]. destruct (_ =? _)%N; apply Hu.
Qed.

Lemma dict_set_keys o k v k' : has_key (dict_set o k v) k' = str_eqb k' k || has_key o k'.
Proof.
  unfold has_key. induction o as [|[k1 v1] o IH]; simpl; [done|].
  unfold str_eqb in *. destruct (String.eqb_spec k k1) as [->|Hne]; simpl.
  - by destruct (String.eqb k' k1).
  - rewrite IH. by destruct (String.eqb k' k1), (String.eqb k' k).
Qed.

Lemma dict_set_wf o k v : json_wf (JObj o) = true → json_wf v = true → json_wf (JObj (dict_set o k v)) = true.
Proof.
  cbn [json_wf]. intros [Hnd Hw]%andb_true_iff Hv. apply andb_true_iff.
  induction o as [|[k1 v1] o IH]; simpl in *; [by rewrite Hv|].
  apply andb_true_iff in Hnd as [H1 Hnd], Hw as [Hw1 Hw].
  destruct (str_eqb k k1) eqn:E; simpl; [by rewrite H1, Hnd, Hv, Hw|].
  destruct (IH Hnd Hw) as [IH1 IH2]. rewrite IH1, IH2, dict_set_keys, Hw1.
  unfold str_eqb in *. apply String.eqb_neq in E. destruct (String.eqb_spec k1 k); [congruence|].
  cbn [orb]. by rewrite H1.
Qed.

Lemma scans_wf strict fuel :
  (∀ s v r, scan_value strict fuel s = Some (v, r) → json_wf v = true) ∧
  (∀ acc s v r, forallb json_wf acc = true → scan_items strict fuel acc s = Some (v, r) → json_wf v = true) ∧
  (∀ acc s v r, json_wf (JObj acc) = true → scan_members strict fuel acc s = Some (v, r) → json_wf v = true).
Proof.
  induction fuel as [|fuel (IHv & IHi & IHm)]; [done|]. split; [|split].
  - intros s v r. cbn [scan_value]. destruct s as [|c s]; [done|].
    intros H.
    repeat match type of H with
    | match skip_ws ?s with _ => _ end = _ => destruct (skip_ws s)
    | (if ?b then _ else _) = _ => destruct b
    | match scan_number ?s with _ => _ end = _ => destruct (scan_number s) as [[x r']|] eqn:E
    | (?m ≫= _) = _ => apply bind_Some in H as (? & _ & H)
    | (let '(_, _) := ?x in _) = _ => destruct x
    | None = _ => discriminate H
    end; try (by injection H as <- _); try exact (IHi [] _ _ _ eq_refl H); try exact (IHm [] _ _ _ eq_refl H).
    injection H as <- _. by eapply scan_number_valid.
  - intros acc s v r Ha H. cbn [scan_items] in H. apply bind_Some in H as ([w r'] & Hv & H). apply IHv in Hv.
    destruct (skip_ws r') as [|d r'']; [done|]. destruct (_ =? _)%N; [|destruct (_ =? _)%N; [|done]].
    + injection H as <- _. cbn [json_wf]. rewrite forallb_forall in Ha |- *. intros x.
      rewrite <- list_elem_of_In, elem_of_reverse, list_elem_of_In. intros [<-|Hx]; [done|by apply Ha].
    + eapply IHi; [|exact H]. cbn [forallb]. by rewrite Hv.
  - intros acc s v r Ha H. cbn [scan_members] in H. apply bind_Some in H as (r1 & _ & H).
    apply bind_Some in H as ([k r2] & _ & H). apply bind_Some in H as (r3 & _ & H).
    apply bind_Some in H as ([w r4] & Hv & H). apply IHv in Hv. destruct (_ && _); [done|].
    destruct (skip_ws r4) as [|d r5]; [done|]. destruct (_ =? _)%N; [|destruct (_ =? _)%N; [|done]].
    + injection H as <- _. by apply dict_set_wf.
    + eapply IHm; [|exact H]. by apply dict_set_wf.
Qed.

Lemma loads_with_wf strict s v : loads_with strict s = Ok v → json_wf v = true.
Proof.
  unfold loads_with. destruct (scan_value _ _ _) as [[w r]|] eqn:E; [|done].
  destruct (String.eqb _ _); [|done]. intros [= <-]. by eapply (proj1 (scans_wf _ _)).
Qed.

Lemma canonical_json_inj v w s :
  json_wf v = true → json_wf w = true → canonical_json v = Ok s → canonical_json w = Ok s →
  sort_json v = sort_json w.
Proof.
  intros Hv Hw H1 H2. apply loads_canonical in H1, H2; try done. congruence.
Qed.
