(* ===== verification/Text.v ===== *)
(** * Reading text

    The string methods and the pieces of regular expressions that the patch reader, the
    fixtures and the campaigns use: [splitlines], [split], [endswith], [in], and greedy
    character classes. *)

From Stdlib Require Import Ascii.
From S2P Require Import Prelude PyStr Json.

Local Open Scope N_scope.

(** ** Characters *)

(** What [str.splitlines] takes for the end of a line. *)
Definition is_line_break (c : ascii) : bool :=
  let n := code c in
  (n =? 10) || (n =? 11) || (n =? 12) || (n =? 13) || (n =? 28) || (n =? 29) || (n =? 30) || (n =? 133).

Definition in_range (lo hi : N) (c : ascii) : bool := (lo <=? code c) && (code c <=? hi).
Definition is_lower (c : ascii) : bool := in_range 97 122 c.
Definition is_upper (c : ascii) : bool := in_range 65 90 c.
Definition is_hex (c : ascii) : bool := is_digit c || in_range 97 102 c || in_range 65 70 c.
Definition is_octal (c : ascii) : bool := in_range 48 55 c.
Definition is_word (c : ascii) : bool := is_lower c || is_upper c || is_digit c || (code c =? 95).
Definition is_space (c : ascii) : bool := code c =? 32.

(** ** String methods *)

(** [s.splitlines()] *)
Fixpoint splitlines (s : string) : list string :=
  match s with
  | EmptyString => []
  | String c s' =>
      if is_line_break c then
        match s' with
        | String d s'' => if (code c =? 13) && (code d =? 10) then "" :: splitlines s'' else "" :: splitlines s'
        | EmptyString => [""]
        end
      else match splitlines s' with [] => [String c ""] | l :: ls => String c l :: ls end
  end.

(** [s.split(sep)] for a separator of one character *)
Fixpoint split_char (sep : ascii) (s : string) : list string :=
  match s with
  | EmptyString => [""]
  | String c s' =>
      if Ascii.eqb c sep then "" :: split_char sep s'
      else match split_char sep s' with [] => [String c ""] | l :: ls => String c l :: ls end
  end.

(** [sub in s] *)
Fixpoint contains (sub s : string) : bool :=
  startswith sub s || match s with String _ s' => contains sub s' | EmptyString => false end.

(** [s.endswith(suffix)] *)
Fixpoint endswith (suffix s : string) : bool :=
  str_eqb suffix s || match s with String _ s' => endswith suffix s' | EmptyString => false end.

Definition has_char (f : ascii → bool) (s : string) : bool := negb (str_all (λ c, negb (f c)) s).

(** [s.lower()] on ASCII text *)
Fixpoint ascii_lower (s : string) : string :=
  match s with
  | EmptyString => ""
  | String c s => String (if is_upper c then chr (code c + 32) else c) (ascii_lower s)
  end.

(** ** Pieces of regular expressions *)

(** The longest prefix in a class of characters, and the rest. *)
Fixpoint span (f : ascii → bool) (s : string) : string * string :=
  match s with
  | EmptyString => ("", "")
  | String c s' => if f c then let '(a, b) := span f s' in (String c a, b) else ("", s)
  end.

(** A literal, and what follows it. *)
Fixpoint literal (p s : string) : option string :=
  match p, s with
  | EmptyString, _ => Some s
  | String c p, String d s => if Ascii.eqb c d then literal p s else None
  | String _ _, EmptyString => None
  end.

(** [class{lo,hi}], greedily *)
Definition class_between (f : ascii → bool) (lo hi : nat) (s : string) : option (string * string) :=
  let '(a, b) := span f s in
  if (Nat.leb lo (String.length a) && Nat.leb (String.length a) hi)%bool then Some (a, b) else None.

(** [class+], greedily *)
Definition class_plus (f : ascii → bool) (s : string) : option (string * string) :=
  let '(a, b) := span f s in if str_nonempty a then Some (a, b) else None.

(** ** Facts *)

Lemma literal_spec p s rest : literal p s = Some rest ↔ s = p +:+ rest.
Proof.
  revert s. induction p as [|c p IH]; intros s; simpl; [naive_solver|].
  destruct s as [|d s]; [split; [done|]; by intros [=]|].
  destruct (Ascii.eqb_spec c d) as [->|Hne].
  - rewrite IH. split; [by intros ->|]. by intros [= ->].
  - split; [done|]. intros [= E _]. congruence.
Qed.

Lemma startswith_literal p s : startswith p s = present (literal p s).
Proof.
  unfold startswith. revert s. induction p as [|c p IH]; intros s; [by destruct s|].
  destruct s as [|d s]; [done|]. simpl.
  destruct (ascii_dec c d), (Ascii.eqb_spec c d); congruence || done.
Qed.

Lemma startswith_spec p s : startswith p s = true ↔ ∃ rest, s = p +:+ rest.
Proof.
  rewrite startswith_literal. destruct (literal p s) as [r|] eqn:E; simpl.
  - apply literal_spec in E. split; [eauto|done].
  - split; [done|]. intros [r ->]. by rewrite (proj2 (literal_spec p _ r)) in E.
Qed.

Lemma span_spec f s a b : span f s = (a, b) → s = a +:+ b ∧ str_all f a = true ∧ head_not f b.
Proof.
  revert a b. induction s as [|c s IH]; intros a b; simpl; [by intros [= <- <-]|].
  destruct (f c) eqn:Hc.
  - destruct (span f s) as [a' b'] eqn:E. intros [= <- <-].
    destruct (IH _ _ eq_refl) as (-> & Ha & Hb). simpl. by rewrite Hc.
  - by intros [= <- <-].
Qed.

Lemma span_app f a b : str_all f a = true → head_not f b → span f (a +:+ b) = (a, b).
Proof.
  induction a as [|c a IH]; simpl.
  - intros _ Hb. destruct b as [|d b]; [done|]. simpl in *. by rewrite Hb.
  - intros H Hb. split_andb. rewrite H. by rewrite IH.
Qed.

Lemma class_plus_spec f s a b :
  class_plus f s = Some (a, b) ↔ s = a +:+ b ∧ a ≠ "" ∧ str_all f a = true ∧ head_not f b.
Proof.
  unfold class_plus. destruct (span f s) as [a' b'] eqn:E. split.
  - apply span_spec in E as (-> & Ha & Hb). unfold str_nonempty.
    destruct (String.eqb_spec a' ""); [done|]. by intros [= <- <-].
  - intros (-> & Hne & Ha & Hb). rewrite span_app in E by done. injection E as <- <-.
    unfold str_nonempty. by destruct (String.eqb_spec a "").
Qed.
