(* ===== verification/Patch.v ===== *)
(** * Patches (src/guildmind/sandbox/local.py)

    Reading a submitted patch: the narrow Git unified diff that is accepted, the policy it
    is held to, the bounded read of its file, and the checks of the workspace it is to be
    applied to.  Lines are consumed from the front of a list where the code advances an
    index into it.  [git], [shutil.copytree] and [os.walk] are outcomes of [Workspaces]. *)

From Stdlib Require Import Ascii.
From S2P Require Import Prelude Loop Effects PyStr Files Json Text.

Local Open Scope Z_scope.

Definition rejected {A} (msg : string) : result A := Err (PatchValidationError msg).
Definition accept (b : bool) (msg : string) : result unit := require b (PatchValidationError msg).

(** ** Paths and the policy *)

(** [_SAFE_PATH] *)
Definition is_safe_char (c : ascii) : bool :=
  is_lower c || is_upper c || is_digit c || existsb (Ascii.eqb c) ["."; "_"; "/"; "-"]%char.

(** [_validate_relative_path(path)]; [casefold] meets only ASCII here. *)
Definition _validate_relative_path (p : string) : result unit :=
  _ ← accept (str_nonempty p && str_all is_safe_char p) "unsupported patch path";
  _ ← accept (negb (startswith "/" p || endswith "/" p || contains "//" p || contains "\" p))
        "patch path is not a plain relative path";
  let parts := split_char "/" p in
  _ ← accept (negb (existsb (λ part, existsb (str_eqb part) [""; "."; ".."]) parts))
        "patch path contains traversal";
  accept (negb (existsb (λ part, str_eqb (ascii_lower part) ".git") parts)) "patches may not modify Git metadata".

Record PatchPolicy := { allowed_paths : list string; max_patch_bytes : Z; max_files : Z }.

(** [PatchPolicy.__post_init__] *)
Definition check_policy (p : PatchPolicy) : result PatchPolicy :=
  _ ← require (bool_decide (allowed_paths p ≠ [])) (ValueError "allowed_paths must not be empty");
  _ ← require (0 <? max_patch_bytes p) (ValueError "max_patch_bytes must be positive");
  _ ← require (0 <? max_files p) (ValueError "max_files must be positive");
  _ ← require (bool_decide (NoDup (allowed_paths p))) (ValueError "allowed_paths must not contain duplicates");
  _ ← mapR _validate_relative_path (allowed_paths p);
  Ok p.

Record ValidatedPatch := { vp_data : list Byte.byte; vp_paths : list string }.

(** ** The header lines *)

Definition end_of_line {A} (a : A) (rest : string) : option A := if str_eqb rest "" then Some a else None.

(** [_DIFF_HEADER]: the two paths *)
Definition diff_header (line : string) : option (string * string) :=
  rest ← literal "diff --git a/" line;
  old ← class_plus (λ c, negb (is_space c)) rest;
  rest ← literal " b/" old.2;
  new ← class_plus (λ c, negb (is_space c)) rest;
  end_of_line (old.1, new.1) new.2.

(** [_INDEX_HEADER]: the mode *)
Definition index_header (line : string) : option (option string) :=
  rest ← literal "index " line;
  old ← class_between is_hex 4 64 rest;
  rest ← literal ".." old.2;
  new ← class_between is_hex 4 64 rest;
  if str_eqb new.2 "" then Some None
  else
    rest ← literal " " new.2;
    mode ← class_between is_octal 6 6 rest;
    end_of_line (Some mode.1) mode.2.

(** [(?:,(\d+))?] *)
Definition hunk_count (s : string) : option (option string * string) :=
  match literal "," s with
  | Some rest => d ← class_plus is_digit rest; Some (Some d.1, d.2)
  | None => Some (None, s)
  end.

Definition is_newline (c : ascii) : bool := Ascii.eqb c (chr 10).

(** The optional section heading, up to the end of the line. *)
Definition hunk_tail (s : string) : bool :=
  str_eqb s "" || startswith " " s && str_all (λ c, negb (is_newline c)) s.

(** [_HUNK_HEADER]: old_start, old_count, new_start, new_count.  Python's [\d] matches the
    decimal digits of Unicode, category Nd; up to U+00FF these are the ten of ASCII. *)
Definition hunk_header (line : string) : option (string * option string * string * option string) :=
  rest ← literal "@@ -" line;
  old_start ← class_plus is_digit rest;
  old_count ← hunk_count old_start.2;
  rest ← literal " +" old_count.2;
  new_start ← class_plus is_digit rest;
  new_count ← hunk_count new_start.2;
  rest ← literal " @@" new_count.2;
  if hunk_tail rest then Some (old_start.1, old_count.1, new_start.1, new_count.1) else None.

(** ** Hunks *)

Definition _NO_NEWLINE_MARKER : string := "\ No newline at end of file".
Definition _MAX_HUNK_NUMBER_DIGITS : nat := 9.

(** [int(group or "1")] *)
Definition count_of (group : option string) : Z :=
  match group with Some d => Z.of_N (dval 0 d) | None => 1 end.

Definition short_number (group : option string) : bool :=
  match group with Some d => Nat.leb (String.length d) _MAX_HUNK_NUMBER_DIGITS | None => true end.

(** The counts after a line with this prefix. *)
Definition hunk_line (line : string) (old_seen new_seen changes : Z) : result (Z * Z * Z) :=
  if startswith " " line then Ok (old_seen + 1, new_seen + 1, changes)
  else if startswith "-" line then Ok (old_seen + 1, new_seen, changes + 1)
  else if startswith "+" line then Ok (old_seen, new_seen + 1, changes + 1)
  else rejected "malformed hunk line".

(** The loop over a hunk's lines: what is left of them, and the changes counted. *)
Fixpoint hunk_lines (old_count new_count : Z) (first : bool) (old_seen new_seen changes : Z)
    (lines : list string) : result (list string * Z) :=
  if negb ((old_seen <? old_count) || (new_seen <? new_count)) then Ok (lines, changes)
  else
    match lines with
    | [] => rejected "hunk ended before its declared line counts"
    | line :: lines =>
        if str_eqb line _NO_NEWLINE_MARKER then
          if first then rejected "misplaced no-newline marker"
          else hunk_lines old_count new_count false old_seen new_seen changes lines
        else
          seen ← hunk_line line old_seen new_seen changes;
          let '(old_seen, new_seen, changes) := seen in
          if (old_count <? old_seen) || (new_count <? new_seen)
          then rejected "hunk contains more lines than its header declares"
          else hunk_lines old_count new_count false old_seen new_seen changes lines
    end.

Fixpoint skip_markers (lines : list string) : list string :=
  match lines with
  | line :: rest => if str_eqb line _NO_NEWLINE_MARKER then skip_markers rest else lines
  | [] => []
  end.

(** [_parse_hunk(lines, header_index)] *)
Definition _parse_hunk (lines : list string) : result (list string * Z) :=
  match lines with
  | [] => Err (IndexError "list index out of range")
  | header :: lines =>
      h ← of_option (PatchValidationError "malformed hunk header") (hunk_header header);
      let '(old_start, old_count, new_start, new_count) := h in
      _ ← accept (short_number (Some old_start) && short_number old_count && short_number (Some new_start) &&
                  short_number new_count) "hunk number is too large";
      body ← hunk_lines (count_of old_count) (count_of new_count) true 0 0 0 lines;
      Ok (skip_markers body.1, body.2)
  end.

(** ** Sections *)

Definition starts_with (prefix : string) (lines : list string) : bool :=
  match lines with line :: _ => startswith prefix line | [] => false end.

(** The loop over a section's hunks: what is left, how many there were, their changes.
    Every hunk takes a line, so the number of lines bounds it. *)
Fixpoint section_hunks (bound : nat) (lines : list string) (hunks changes : Z) : result (list string * Z * Z) :=
  if starts_with "@@" lines then
    match bound with
    | O => Err (AssertionError "loop bound")
    | S bound =>
        h ← _parse_hunk lines;
        section_hunks bound h.1 (hunks + 1) (changes + h.2)
    end
  else Ok (lines, hunks, changes).

(** The optional index line. *)
Definition index_line (lines : list string) : result (list string) :=
  match lines with
  | line :: rest =>
      if startswith "index " line then
        mode ← of_option (PatchValidationError "malformed or unsupported Git index header") (index_header line);
        _ ← accept match mode with Some m => str_eqb m "100644" | None => true end
              "symlink and submodule modes are not supported";
        Ok rest
      else Ok lines
  | [] => Ok []
  end.

(** A line that must be exactly this one. *)
Definition exact_line (expected msg : string) (lines : list string) : result (list string) :=
  match lines with
  | line :: rest => _ ← accept (str_eqb line expected) msg; Ok rest
  | [] => rejected msg
  end.

(** One turn of the loop over the sections: the paths with this section's, its changes and
    what is left. *)
Definition parse_section (policy : PatchPolicy) (paths : list string) (header : string) (lines : list string)
    : result (list string * Z * list string) :=
  names ← of_option (PatchValidationError "expected a Git diff header") (diff_header header);
  let '(old_path, new_path) := names in
  _ ← accept (str_eqb old_path new_path) "renames and copies are not supported";
  _ ← _validate_relative_path old_path;
  _ ← accept (existsb (str_eqb old_path) (allowed_paths policy)) "patch modifies an unexpected path";
  _ ← accept (negb (existsb (str_eqb old_path) paths)) "patch contains duplicate sections";
  let paths := paths ++ [old_path] in
  _ ← accept (Z.of_nat (length paths) <=? max_files policy) "patch modifies more files than allowed";
  lines ← index_line lines;
  lines ← exact_line ("--- a/" +:+ old_path)
            "new/deleted files, binary patches, and extended Git headers are not supported" lines;
  lines ← exact_line ("+++ b/" +:+ new_path) "malformed new-file marker in patch" lines;
  section ← section_hunks (length lines) lines 0 0;
  let '(lines, hunks, changes) := section in
  _ ← accept (negb ((hunks =? 0) || (changes =? 0))) "each patched file must contain a non-empty hunk";
  _ ← accept (bool_decide (lines = []) || starts_with "diff --git " lines) "unsupported patch content";
  Ok (paths, changes, lines).

(** The loop over the sections; every section takes a line. *)
Fixpoint parse_sections (bound : nat) (policy : PatchPolicy) (paths : list string) (total_changes : Z)
    (lines : list string) : result (list string * Z) :=
  match lines with
  | [] => Ok (paths, total_changes)
  | header :: lines =>
      match bound with
      | O => Err (AssertionError "loop bound")
      | S bound =>
          section ← parse_section policy paths header lines;
          let '(paths, changes, lines) := section in
          parse_sections bound policy paths (total_changes + changes) lines
      end
  end.

(** [_parse_unified_diff(text, policy)] *)
Definition _parse_unified_diff (text : string) (policy : PatchPolicy) : result (list string) :=
  let lines := splitlines text in
  r ← parse_sections (length lines) policy [] 0 lines;
  _ ← accept (negb (bool_decide (r.1 = []) || (r.2 =? 0))) "patch must modify at least one allowed file";
  Ok r.1.

(** ** Reading the patch file *)

(** [stream.read(size)]: reads until that many bytes are there, or none come. *)
Definition read_stream_step (fd : descriptor) (size : Z) (s : nat * list Byte.byte)
    : step (nat * list Byte.byte) (result (list Byte.byte)) :=
  let missing := size - Z.of_nat (length s.2) in
  if missing <=? 0 then Leave (Ok s.2)
  else match fd_read fd s.1 missing with
       | OSError n => Leave (Err (OSException n))
       | Done [] => Leave (Ok s.2)
       | Done chunk => Continue (S s.1, s.2 ++ take (Z.to_nat missing) chunk)
       end.
Definition read_stream (fd : descriptor) (size : Z) : result (list Byte.byte) :=
  data ← bounded (run_loop (Z.to_pos (size + 1)) (read_stream_step fd size) (O, []));
  data.

Section filesystem.
Context {world : World}.

Definition raise_rejected {A} (msg : string) : Sys A := lift (rejected msg).

(** [os.fstat] and the reading, the body of the [try] that ends in [os.close]. *)
Definition read_open_patch (max_bytes : Z) (before : stat_result) (fd : descriptor)
    : result (list Byte.byte * stat_result * stat_result) :=
  let os {A} (o : os_result A) : result A :=
    match o with Done a => Ok a | OSError _ => rejected "cannot read patch" end in
  opened ← os (fd_stat fd);
  _ ← accept (is_kind Regular opened && (st_dev opened =? st_dev before) && (st_ino opened =? st_ino before))
        "patch changed while being opened";
  data ← except (λ e, match e with OSException _ => PatchValidationError "cannot read patch" | _ => e end)
           (read_stream fd (max_bytes + 1));
  after ← os (fd_final_stat fd);
  Ok (data, opened, after).

(** [_read_regular_patch(path, max_bytes=...)] *)
Definition _read_regular_patch (p : path) (max_bytes : Z) : Sys (list Byte.byte) :=
  o ← call (λ _, lstat p);
  match o with
  | OSError _ => raise_rejected "cannot inspect patch"
  | Done before =>
      _ ← lift (accept (negb (is_kind SymbolicLink before)) "patch may not be a symlink");
      _ ← lift (accept (is_kind Regular before) "patch must be a regular file");
      _ ← lift (accept (st_size before <=? max_bytes) "patch exceeds its byte limit");
      f ← call (λ _, open_file p);
      match f with
      | OSError _ => raise_rejected "cannot open patch without following links"
      | Done fd =>
          r ← finally (lift (read_open_patch max_bytes before fd)) (λ _, _ ← perform CloseFile; mret tt);
          let '(data, opened, after) := r in
          _ ← lift (accept (Z.of_nat (length data) <=? max_bytes)
                "patch grew beyond its size limit while being read");
          _ ← lift (accept ((st_dev after =? st_dev opened) && (st_ino after =? st_ino opened))
                "patch changed while being read");
          _ ← lift (accept ((st_size after =? st_size opened) && (st_mtime_ns after =? st_mtime_ns opened) &&
                            (st_ctime_ns after =? st_ctime_ns opened)) "patch changed while being read");
          mret data
      end
  end.
End filesystem.

(** ** The workspace *)

(** What a subprocess left: its exit status and its standard error; or it was not found, or
    outlived its time limit. *)
Inductive completed := Completed (returncode : Z) (stderr : list Byte.byte) | ProgramNotFound | TimeoutExpired.

(** [os.walk(workspace, followlinks=False)] as the triples it yields; [path.rglob(pattern)]
    for everything below a path, as the parts below it; [shutil.copytree]; [git apply] on a
    workspace, with [--check] or without; a temporary directory and its removal;
    [path.mkdir(parents=..., exist_ok=...)], [path.read_bytes] and [path.is_file], which follow links,
    [path.write_bytes], [path.chmod]. *)
Class Workspaces := {
  walk : nat → path → list (path * list string * list string);
  rglob : nat → path → os_result (list (list string));
  copytree : nat → path → path → os_result unit;
  git_apply : nat → bool → list Byte.byte → path → completed;
  temporary_directory : nat → string → os_result path;
  remove_tree : nat → path → os_result unit;
  make_directory : nat → bool → bool → path → os_result unit;
  read_bytes : nat → path → os_result (list Byte.byte);
  is_file : nat → path → os_result bool;
  write_bytes : nat → path → list Byte.byte → os_result unit;
  chmod : nat → path → Z → os_result unit;
}.

(** A call that is answered at its moment, and one that raises [OSError]. *)
Definition ask {A} (f : nat → A) : Sys A := λ s,
  (Ok (f (moment s)), {| moment := S (moment s); effects := effects s |}).

Definition raise_error {A} (o : os_result A) : Sys A :=
  match o with Done a => mret a | OSError n => lift (Err (OSException n)) end.

Definition ask_os {A} (f : nat → os_result A) : Sys A := o ← ask f; raise_error o.

Section workspace.
Context {world : World} {workspaces : Workspaces}.

(** [lstat], with [FileNotFoundError] rejected. *)
Definition lstat_or_reject (p : path) (msg : string) : Sys stat_result :=
  o ← call (λ _, lstat p);
  match o with
  | OSError n => if not_found n then raise_rejected msg else raise_error (OSError n)
  | Done m => mret m
  end.

Definition check_entry (root : path) (name : string) : Sys unit :=
  o ← call (λ _, lstat (root ++ [name]));
  m ← raise_error o;
  _ ← lift (accept (negb (is_kind SymbolicLink m)) "workspace contains a symlink");
  lift (accept (is_kind Directory m || is_kind Regular m) "workspace contains a special file").

(** [_ensure_workspace_is_plain_tree(workspace)] *)
Definition _ensure_workspace_is_plain_tree (workspace : path) : Sys unit :=
  root ← lstat_or_reject workspace "workspace does not exist";
  _ ← lift (accept (negb (is_kind SymbolicLink root) && is_kind Directory root)
        "workspace must be a real directory, not a symlink");
  walked ← ask (λ n, walk n workspace);
  forM (λ '(root, directories, files), forM (check_entry root) (directories ++ files)) walked.

Definition target_part (relative : string) (candidate : path) : Sys unit :=
  m ← lstat_or_reject candidate "patch target does not exist";
  lift (accept (negb (is_kind SymbolicLink m)) "patch target traverses a symlink").

(** The candidates of the loop: the workspace's path extended part by part. *)
Fixpoint extended (candidate : path) (parts : list string) : list path :=
  match parts with
  | [] => []
  | part :: parts => let candidate := candidate ++ [part] in candidate :: extended candidate parts
  end.

(** [_ensure_workspace_target_is_regular(workspace, relative_path)] *)
Definition _ensure_workspace_target_is_regular (workspace : path) (relative : string) : Sys unit :=
  let parts := split_char "/" relative in
  _ ← forM (target_part relative) (extended workspace parts);
  o ← call (λ _, lstat (workspace ++ parts));
  m ← raise_error o;
  lift (accept (is_kind Regular m) "patch target is not a regular file").

(** The text of a patch: UTF-8, whole lines, Unix newlines, no other control characters. *)
Definition is_control (c : ascii) : bool := N.ltb (code c) 32 && negb (existsb (N.eqb (code c)) [10; 9])%N.
Definition patch_text (data : list Byte.byte) : result string :=
  _ ← accept (negb (existsb (λ b, bool_decide (b = Byte.x00)) data)) "binary patches are not supported";
  text ← of_option (PatchValidationError "patch must be UTF-8 text") (utf8_decode data);
  _ ← accept (endswith (String (chr 10) "") text) "patch must end with a newline";
  _ ← accept (negb (has_char (Ascii.eqb (chr 13)) text)) "patch must use Unix newlines";
  _ ← accept (negb (has_char is_control text)) "patch contains unsupported control characters";
  Ok text.

(** [validate_patch(patch_path, workspace, policy)] *)
Definition validate_patch (patch_path workspace : path) (policy : PatchPolicy) : Sys ValidatedPatch :=
  data ← _read_regular_patch patch_path (max_patch_bytes policy);
  text ← lift (patch_text data);
  paths ← lift (_parse_unified_diff text policy);
  _ ← _ensure_workspace_is_plain_tree workspace;
  _ ← forM (_ensure_workspace_target_is_regular workspace) paths;
  mret {| vp_data := data; vp_paths := paths |}.

(** [_run_git_apply(command, patch, workspace)] *)
Definition _run_git_apply (check : bool) (data : list Byte.byte) (workspace : path) : Sys Z :=
  o ← ask (λ n, git_apply n check data workspace);
  match o with
  | Completed code _ => mret code
  | ProgramNotFound => lift (Err (PatchApplyError "git is required by the local patch adapter"))
  | TimeoutExpired => lift (Err (PatchApplyError "git apply exceeded its local timeout"))
  end.

(** [copy_and_apply_patch(source_workspace, patch_path, destination_workspace, policy)] *)
Definition copy_and_apply_patch (source patch_path destination : path) (policy : PatchPolicy) : Sys ValidatedPatch :=
  o ← call (λ _, lstat destination);
  _ ← lift (require (match o with OSError _ => true | Done _ => false end)
        (PatchApplyError "destination already exists"));
  validated ← validate_patch patch_path source policy;
  _ ← ask_os (λ n, make_directory n true true (path_parent destination));
  _ ← ask_os (λ n, copytree n source destination);
  _ ← _ensure_workspace_is_plain_tree destination;
  checked ← _run_git_apply true (vp_data validated) destination;
  _ ← lift (require (checked =? 0) (PatchApplyError "patch does not apply cleanly"));
  applied ← _run_git_apply false (vp_data validated) destination;
  _ ← lift (require (applied =? 0) (PatchApplyError "git failed while applying patch"));
  mret validated.
End workspace.
