(* ===== verification/PatchFacts.v ===== *)
(** * The patches that are accepted (src/guildmind/sandbox/local.py)

    The format as a grammar, stated without counters and without indices, and the theorem
    that the reader decides it. *)

From Stdlib Require Import Ascii.
From S2P Require Import Prelude Loop Effects PyStr Files Json Text Patch.

Local Open Scope Z_scope.

(** ** The grammar *)

(** The lines of a hunk: how many of the old file's lines and of the new file's lines they
    show, and how many of them are changes. *)
Inductive hunk_body : list string → Z → Z → Z → Prop :=
  | body_end : hunk_body [] 0 0 0
  | body_context text ls o n c : hunk_body ls o n c → hunk_body ((" " +:+ text) :: ls) (o + 1) (n + 1) c
  | body_removed text ls o n c : hunk_body ls o n c → hunk_body (("-" +:+ text) :: ls) (o + 1) n (c + 1)
  | body_added text ls o n c : hunk_body ls o n c → hunk_body (("+" +:+ text) :: ls) o (n + 1) (c + 1)
  | body_marker ls o n c : hunk_body ls o n c → hunk_body (_NO_NEWLINE_MARKER :: ls) o n c.

(** A count of a hunk header: absent, or a comma and at most nine digits. *)
Inductive count_text : string → Z → Prop :=
  | count_absent : count_text "" 1
  | count_digits d : d ≠ "" → str_all is_digit d = true → (String.length d ≤ 9)%nat →
      count_text ("," +:+ d) (Z.of_N (dval 0 d)).

(** A line number of a hunk header. *)
Definition number_text (d : string) : Prop := d ≠ "" ∧ str_all is_digit d = true ∧ (String.length d ≤ 9)%nat.

(** A hunk and its changes.  Its lines show what the header counts; a marker can come
    first only after a header that counts nothing. *)
Inductive hunk : list string → Z → Prop :=
  | hunk_intro old_start old_count new_start new_count tail ls o n c :
      number_text old_start → count_text old_count o → number_text new_start → count_text new_count n →
      hunk_tail tail = true → hunk_body ls o n c →
      (head ls = Some _NO_NEWLINE_MARKER → o = 0 ∧ n = 0) →
      hunk (("@@ -" +:+ old_start +:+ old_count +:+ " +" +:+ new_start +:+ new_count +:+ " @@" +:+ tail) :: ls) c.

(** Hunks one after another: how many, and their changes. *)
Inductive hunks : list string → Z → Z → Prop :=
  | hunks_none : hunks [] 0 0
  | hunks_more l ls n c c' : hunk l c → hunks ls n c' → hunks (l ++ ls) (n + 1) (c + c').

(** The optional index line: two abbreviated object names and no mode but a plain file's. *)
Inductive index_lines : list string → Prop :=
  | index_absent : index_lines []
  | index_names a b mode :
      str_all is_hex a = true → (4 ≤ String.length a ≤ 64)%nat →
      str_all is_hex b = true → (4 ≤ String.length b ≤ 64)%nat → mode = "" ∨ mode = " 100644" →
      index_lines ["index " +:+ a +:+ ".." +:+ b +:+ mode].

(** One file's section: its path, which the policy allows, and at least one change. *)
Inductive file_section (policy : PatchPolicy) : list string → string → Prop :=
  | section_intro p index ls n c :
      _validate_relative_path p = Ok tt → p ∈ allowed_paths policy → index_lines index → hunks ls n c → 0 < n → 0 < c →
      file_section policy
        (("diff --git a/" +:+ p +:+ " b/" +:+ p) :: index ++ ["--- a/" +:+ p; "+++ b/" +:+ p] ++ ls) p.

Inductive file_sections (policy : PatchPolicy) : list string → list string → Prop :=
  | sections_none : file_sections policy [] []
  | sections_more l ls p ps : file_section policy l p → file_sections policy ls ps →
      file_sections policy (l ++ ls) (p :: ps).

(** A patch: at least one section, one for each path, no more than the policy allows. *)
Definition unified_diff (policy : PatchPolicy) (lines paths : list string) : Prop :=
  file_sections policy lines paths ∧ paths ≠ [] ∧ NoDup paths ∧ Z.of_nat (length paths) <= max_files policy.

(** ** Header lines *)

Ltac inv_option := repeat match goal with
  | H : (_ ≫= _) = Some _ |- _ => apply bind_Some in H as (? & ? & H)
  | H : Some _ = Some _ |- _ => injection H as H; try subst
  | x : (_ * _)%type |- _ => destruct x; cbn [fst snd] in *
  end.

Lemma end_of_line_Some {A} (a b : A) rest : end_of_line a rest = Some b ↔ b = a ∧ rest = "".
Proof. unfold end_of_line, str_eqb. destruct (String.eqb_spec rest ""); naive_solver. Qed.

Lemma str_cons_app s t r : (s +:+ t) +:+ r = s +:+ t +:+ r.
Proof. apply str_app_assoc. Qed.

(** A path that is accepted has no spaces, so its header names it unambiguously. *)
Lemma safe_path_plain p : _validate_relative_path p = Ok tt →
  p ≠ "" ∧ str_all (λ c, negb (is_space c)) p = true.
Proof.
  unfold _validate_relative_path, accept. intros H. inv_ok. split_andb. split.
  - intros ->. done.
  - eapply str_all_impl; [|done]. intros c Hc. revert c Hc.
    assert (∀ c, implb (is_safe_char c) (negb (is_space c)) = true) as Hs by (apply forall_chars; by vm_compute).
    intros c Hc. specialize (Hs c). by rewrite Hc in Hs.
Qed.

Lemma diff_header_same p : _validate_relative_path p = Ok tt →
  diff_header ("diff --git a/" +:+ p +:+ " b/" +:+ p) = Some (p, p).
Proof.
  intros [Hne Hp]%safe_path_plain. unfold diff_header.
  rewrite (proj2 (literal_spec _ _ _) eq_refl). cbn [mbind option_bind].
  rewrite (proj2 (class_plus_spec _ (p +:+ " b/" +:+ p) p (" b/" +:+ p))) by done.
  cbn [mbind option_bind fst snd]. rewrite (proj2 (literal_spec _ _ _) eq_refl). cbn [mbind option_bind].
  rewrite (proj2 (class_plus_spec _ p p "")) by (by rewrite str_app_nil_r). done.
Qed.

Lemma diff_header_Some line a b : diff_header line = Some (a, b) → line = "diff --git a/" +:+ a +:+ " b/" +:+ b.
Proof.
  unfold diff_header. intros H. inv_option. apply end_of_line_Some in H as [[= -> ->] ->].
  repeat match goal with
  | H : literal _ _ = Some _ |- _ => apply literal_spec in H; subst
  | H : class_plus _ _ = Some _ |- _ => apply class_plus_spec in H as (-> & _)
  end. by rewrite str_app_nil_r.
Qed.

(** ** Hunk headers *)

Lemma number_short d : number_text d ↔ class_plus is_digit d = Some (d, "") ∧ short_number (Some d) = true.
Proof.
  unfold number_text, short_number, _MAX_HUNK_NUMBER_DIGITS. rewrite class_plus_spec, Nat.leb_le, str_app_nil_r. naive_solver.
Qed.

(** The texts of a count, and what is read of them. *)
Definition group_text (g : option string) : string := match g with Some d => "," +:+ d | None => "" end.

Lemma hunk_count_Some s g rest : hunk_count s = Some (g, rest) → s = group_text g +:+ rest ∧
  match g with Some d => d ≠ "" ∧ str_all is_digit d = true | None => True end.
Proof.
  unfold hunk_count. destruct (literal "," s) as [r|] eqn:E; [|by intros [= <- <-]].
  apply literal_spec in E as ->. intros H. inv_option. 
  match goal with H : class_plus _ _ = Some _ |- _ => apply class_plus_spec in H as (-> & ? & ? & _) end. done.
Qed.

Lemma hunk_count_text g rest : match g with Some d => d ≠ "" ∧ str_all is_digit d = true | None => True end →
  head_not (λ c, is_digit c || Ascii.eqb c ",") rest → hunk_count (group_text g +:+ rest) = Some (g, rest).
Proof.
  intros Hg Hr. unfold hunk_count. destruct g as [d|]; cbn [group_text].
  - destruct Hg as [Hd Ha]. rewrite str_app_assoc, (proj2 (literal_spec _ _ _) eq_refl).
    rewrite (proj2 (class_plus_spec _ (d +:+ rest) d rest)); [done|].
    split; [done|]. split; [done|]. split; [done|]. destruct rest; [done|]. simpl in *. split_andb. done.
  - change ("" +:+ rest) with rest. destruct rest as [|c rest]; [done|]. simpl in Hr. split_andb.
    cbn [literal]. destruct (Ascii.eqb_spec "," c) as [<-|]; [done|]. done.
Qed.

Definition digits (d : string) : Prop := d ≠ "" ∧ str_all is_digit d = true.
Definition group_digits (g : option string) : Prop := match g with Some d => digits d | None => True end.

Lemma head_not_group g rest : head_not is_digit rest → head_not is_digit (group_text g +:+ rest).
Proof. by destruct g. Qed.

Lemma hunk_header_Some line a g b h : hunk_header line = Some (a, g, b, h) →
  digits a ∧ group_digits g ∧ digits b ∧ group_digits h ∧ ∃ tail, hunk_tail tail = true ∧
    line = "@@ -" +:+ a +:+ group_text g +:+ " +" +:+ b +:+ group_text h +:+ " @@" +:+ tail.
Proof.
  unfold hunk_header. intros H. inv_option.
  destruct (hunk_tail _) eqn:Ht; [|done]. injection H as -> -> -> ->.
  repeat match goal with
  | H : literal _ _ = Some _ |- _ => apply literal_spec in H; subst
  | H : class_plus _ _ = Some _ |- _ => apply class_plus_spec in H as (-> & ? & ? & _)
  | H : hunk_count _ = Some _ |- _ => apply hunk_count_Some in H as [-> ?]
  end.
  repeat (split; [done|]). eauto.
Qed.

Lemma hunk_header_text a g b h tail : digits a → group_digits g → digits b → group_digits h → hunk_tail tail = true →
  hunk_header ("@@ -" +:+ a +:+ group_text g +:+ " +" +:+ b +:+ group_text h +:+ " @@" +:+ tail) = Some (a, g, b, h).
Proof.
  intros [Ha Ha'] Hg [Hb Hb'] Hh Ht. unfold hunk_header.
  assert (∀ p s, literal p (p +:+ s) = Some s) as Hl by (intros; by apply literal_spec).
  assert (∀ d s, d ≠ "" → str_all is_digit d = true → head_not is_digit s →
    class_plus is_digit (d +:+ s) = Some (d, s)) as Hd by (intros; by apply class_plus_spec).
  rewrite Hl. cbn [mbind option_bind]. rewrite Hd by (done || by apply head_not_group).
  cbn [mbind option_bind fst snd]. rewrite hunk_count_text by done. cbn [mbind option_bind fst snd].
  rewrite Hl. cbn [mbind option_bind]. rewrite Hd by (done || by apply head_not_group).
  cbn [mbind option_bind fst snd]. rewrite hunk_count_text by done. cbn [mbind option_bind fst snd].
  rewrite Hl. cbn [mbind option_bind]. by rewrite Ht.
Qed.

(** ** The lines of a hunk *)

Lemma body_nonneg ls o n c : hunk_body ls o n c → 0 <= o ∧ 0 <= n ∧ 0 <= c.
Proof. induction 1; lia. Qed.

Lemma body_skips ls o n c rest : hunk_body ls o n c → o = 0 → n = 0 → head rest ≠ Some _NO_NEWLINE_MARKER →
  skip_markers (ls ++ rest) = rest ∧ c = 0.
Proof.
  intros H. induction H as [|? ? ? ? ? H|? ? ? ? ? H|? ? ? ? ? H|? ? ? ? H IH]; intros Ho Hn Hr;
    try (apply body_nonneg in H; lia).
  - split; [|done]. destruct rest as [|line rest]; [done|]. cbn [app skip_markers]. unfold str_eqb.
    destruct (String.eqb_spec line _NO_NEWLINE_MARKER); [by subst|done].
  - cbn [app skip_markers]. unfold str_eqb. rewrite String.eqb_refl. auto.
Qed.

Lemma skip_markers_spec ls : ∃ ms, ls = ms ++ skip_markers ls ∧ hunk_body ms 0 0 0 ∧
  head (skip_markers ls) ≠ Some _NO_NEWLINE_MARKER.
Proof.
  induction ls as [|l ls IH]; [by exists []; repeat constructor|]. cbn [skip_markers]. unfold str_eqb.
  destruct (String.eqb_spec l _NO_NEWLINE_MARKER) as [->|Hne].
  - destruct IH as (ms & E & H & Hh). exists (_NO_NEWLINE_MARKER :: ms). cbn [app]. rewrite <- E.
    split; [done|]. split; [by constructor|done].
  - exists []. split; [done|]. split; [constructor|]. simpl. congruence.
Qed.

Lemma body_app ls ms o n c : hunk_body ls o n c → hunk_body ms 0 0 0 → hunk_body (ls ++ ms) o n c.
Proof. intros H Hm. induction H; [done|by constructor..]. Qed.

Lemma starts_not c p line : str_eqb line _NO_NEWLINE_MARKER = true → Ascii.eqb c "\" = false →
  startswith (String c p) line = false.
Proof.
  unfold str_eqb. intros ->%String.eqb_eq Hc. rewrite startswith_literal. unfold _NO_NEWLINE_MARKER. cbn [literal].
  by rewrite Hc.
Qed.

(** The loop accepts a body, and nothing else. *)
Lemma hunk_lines_sound oc nc first os ns ch lines rest ch' : os <= oc → ns <= nc →
  hunk_lines oc nc first os ns ch lines = Ok (rest, ch') →
  ∃ ls, lines = ls ++ rest ∧ hunk_body ls (oc - os) (nc - ns) (ch' - ch) ∧
        (ls = [] → os = oc ∧ ns = nc) ∧ (first = true → head ls ≠ Some _NO_NEWLINE_MARKER).
Proof.
  revert first os ns ch. induction lines as [|line lines IH]; intros first os ns ch Ho Hn H; cbn [hunk_lines] in H.
  all: destruct (Z.ltb_spec os oc), (Z.ltb_spec ns nc); cbn [orb negb] in H; try done.
  all: try (injection H as <- <-; exists []; rewrite !Z.sub_diag; replace (oc - os) with 0 by lia;
            replace (nc - ns) with 0 by lia; split; [done|]; split; [constructor|]; split; [lia|done]).
  all: destruct (str_eqb line _NO_NEWLINE_MARKER) eqn:Em.
  all: try (destruct first; [done|]; apply String.eqb_eq in Em as ->;
            destruct (IH _ _ _ _ Ho Hn H) as (ls & -> & Hb & _ & _); exists (_NO_NEWLINE_MARKER :: ls);
            split; [done|]; split; [by constructor|done]).
  all: assert (line ≠ _NO_NEWLINE_MARKER) as Hne by (intros ->; by rewrite String.eqb_refl in Em).
  all: apply bind_Ok in H as ([[os1 ns1] ch1] & Hs & H); unfold hunk_line in Hs.
  all: destruct (startswith " " line) eqn:E1; [apply startswith_spec in E1 as [text ->]; injection Hs as <- <- <-|
         destruct (startswith "-" line) eqn:E2; [apply startswith_spec in E2 as [text ->]; injection Hs as <- <- <-|
           destruct (startswith "+" line) eqn:E3; [apply startswith_spec in E3 as [text ->]; injection Hs as <- <- <-|done]]].
  all: destruct (_ || _) eqn:Eb; [done|]; apply orb_false_iff in Eb as [?%Z.ltb_ge ?%Z.ltb_ge].
  all: match type of H with hunk_lines _ _ _ ?a ?b ?c _ = _ =>
         destruct (IH false a b c ltac:(lia) ltac:(lia) H) as (ls & -> & Hb & _ & _) end.
  all: eexists (_ :: ls); split; [done|]; split; [|split; [done|intros _ [= E]; by apply Hne]].
  all: match goal with |- hunk_body _ ?o ?n ?c =>
         match type of Hb with hunk_body _ ?o1 ?n1 ?c1 =>
           (replace o with (o1 + 1) by lia; replace n with (n1 + 1) by lia; replace c with c1 by lia; by constructor) ||
           (replace o with (o1 + 1) by lia; replace n with n1 by lia; replace c with (c1 + 1) by lia; by constructor) ||
           (replace o with o1 by lia; replace n with (n1 + 1) by lia; replace c with (c1 + 1) by lia; by constructor)
         end end.
Qed.

(** Before the counts are reached, the loop takes the next line. *)
Lemma hunk_lines_step oc nc first os ns ch line lines os1 ns1 ch1 : os < oc ∨ ns < nc →
  line ≠ _NO_NEWLINE_MARKER → hunk_line line os ns ch = Ok (os1, ns1, ch1) → os1 <= oc → ns1 <= nc →
  hunk_lines oc nc first os ns ch (line :: lines) = hunk_lines oc nc false os1 ns1 ch1 lines.
Proof.
  intros Hlt Hne Hl Ho Hn. cbn [hunk_lines].
  destruct (Z.ltb_spec os oc), (Z.ltb_spec ns nc); try lia; cbn [orb negb]; unfold str_eqb;
    destruct (String.eqb_spec line _NO_NEWLINE_MARKER); try done; rewrite Hl; cbn [mbind result_bind];
    destruct (Z.ltb_spec oc os1), (Z.ltb_spec nc ns1); done || lia.
Qed.

Lemma hunk_line_prefix text os ns ch :
  hunk_line (" " +:+ text) os ns ch = Ok (os + 1, ns + 1, ch) ∧
  hunk_line ("-" +:+ text) os ns ch = Ok (os + 1, ns, ch + 1) ∧
  hunk_line ("+" +:+ text) os ns ch = Ok (os, ns + 1, ch + 1).
Proof. by destruct text. Qed.

Lemma hunk_lines_complete ls o n c : hunk_body ls o n c → ∀ oc nc first os ns ch rest,
  oc = os + o → nc = ns + n → head rest ≠ Some _NO_NEWLINE_MARKER →
  (first = true → head ls = Some _NO_NEWLINE_MARKER → o = 0 ∧ n = 0) →
  ∃ mid, hunk_lines oc nc first os ns ch (ls ++ rest) = Ok (mid, ch + c) ∧ skip_markers mid = rest.
Proof.
  intros H. induction H as [|text ls o n c H IH|text ls o n c H IH|text ls o n c H IH|ls o n c H IH];
    intros oc nc first os ns ch rest -> -> Hr Hf; [|pose proof (body_nonneg _ _ _ _ H) as Hp ..].
  - exists rest. rewrite !Z.add_0_r. split; [|by apply (body_skips [] 0 0 0 rest body_end)].
    destruct rest; cbn [hunk_lines app]; by rewrite !Z.ltb_irrefl.
  - destruct (hunk_line_prefix text os ns ch) as (E & _ & _). cbn [app].
    erewrite hunk_lines_step by (done || lia). eapply IH; done || lia.
  - destruct (hunk_line_prefix text os ns ch) as (_ & E & _). cbn [app].
    erewrite hunk_lines_step by (done || lia). replace (ch + (c + 1)) with (ch + 1 + c) by lia. eapply IH; done || lia.
  - destruct (hunk_line_prefix text os ns ch) as (_ & _ & E). cbn [app].
    erewrite hunk_lines_step by (done || lia). replace (ch + (c + 1)) with (ch + 1 + c) by lia. eapply IH; done || lia.
  - destruct (decide (o = 0 ∧ n = 0)) as [[-> ->]|Hne].
    + destruct (body_skips _ _ _ _ rest (body_marker _ _ _ _ H) eq_refl eq_refl Hr) as [Hs ->].
      eexists. rewrite !Z.add_0_r. split; [|exact Hs]. cbn [app hunk_lines]. by rewrite !Z.ltb_irrefl.
    + cbn [app hunk_lines]. unfold str_eqb. rewrite String.eqb_refl.
      destruct first; [destruct Hne; by apply Hf|].
      destruct (Z.ltb_spec os (os + o)), (Z.ltb_spec ns (ns + n)); try lia; cbn [orb negb]; by eapply IH.
Qed.

(** ** Hunks *)

Lemma count_text_group x o : count_text x o ↔
  ∃ g, x = group_text g ∧ group_digits g ∧ short_number g = true ∧ o = count_of g.
Proof.
  unfold short_number, _MAX_HUNK_NUMBER_DIGITS. split.
  - intros [|d Hd Ha Hl]; [by exists None|]. exists (Some d). rewrite Nat.leb_le. done.
  - intros ([d|] & -> & Hd & Hs & ->); [|constructor]. apply Nat.leb_le in Hs. by constructor; destruct Hd.
Qed.

Lemma number_group d : number_text d ↔ digits d ∧ short_number (Some d) = true.
Proof. unfold number_text, digits, short_number, _MAX_HUNK_NUMBER_DIGITS. rewrite Nat.leb_le. naive_solver. Qed.

Lemma parse_hunk_sound lines rest c : _parse_hunk lines = Ok (rest, c) →
  ∃ l, lines = l ++ rest ∧ hunk l c ∧ head rest ≠ Some _NO_NEWLINE_MARKER.
Proof.
  destruct lines as [|header lines]; [done|]. cbn [_parse_hunk]. intros H. unfold accept in H.
  apply bind_Ok in H as ([[[a g] b] h] & Hh & H). apply of_option_Ok in Hh.
  apply hunk_header_Some in Hh as (Ha & Hg & Hb & Hh & tail & Ht & ->). inv_ok.
  repeat match goal with H : (_, _) = (_, _) |- _ => injection H as H; subst end. split_andb.
  match goal with x : (list string * Z)%type |- _ => destruct x as [mid c'] end. cbn [fst snd] in *.
  assert (0 <= count_of g ∧ 0 <= count_of h) as [Hcg Hch]
    by (destruct g, h; cbn [count_of]; lia).
  match goal with H : hunk_lines _ _ _ _ _ _ _ = _ |- _ =>
    apply hunk_lines_sound in H as (ls & -> & Hbody & Hnil & Hfirst); [|done..] end.
  destruct (skip_markers_spec mid) as (ms & Emid & Hms & Hrest). rewrite !Z.sub_0_r in Hbody.
  eexists (_ :: (ls ++ ms)). cbn [app]. rewrite <- app_assoc, <- Emid. split; [done|]. split; [|done].
  econstructor; [by apply number_group|apply count_text_group; by exists g|by apply number_group|
    apply count_text_group; by exists h|done|by apply body_app|].
  destruct ls as [|x ls]; [intros _; destruct (Hnil eq_refl); lia|]. cbn [app head]. intros E. by destruct Hfirst.
Qed.

Lemma parse_hunk_complete l c rest : hunk l c → head rest ≠ Some _NO_NEWLINE_MARKER →
  _parse_hunk (l ++ rest) = Ok (rest, c).
Proof.
  intros [a x b y tail ls o n c' Ha Hx Hb Hy Ht Hbody Hfirst] Hr.
  apply number_group in Ha as [Ha Sa], Hb as [Hb Sb].
  apply count_text_group in Hx as (g & -> & Hg & Sg & ->), Hy as (h & -> & Hh & Sh & ->).
  cbn [app _parse_hunk]. rewrite hunk_header_text by done. cbn [of_option mbind result_bind].
  rewrite Sa, Sg, Sb, Sh. cbn [andb accept require mbind result_bind].
  destruct (hunk_lines_complete _ _ _ _ Hbody (count_of g) (count_of h) true 0 0 0 rest) as (mid & E & Hs);
    [lia|lia|done|by intros _|].
  rewrite E. cbn [mbind result_bind fst snd]. by rewrite Hs.
Qed.

Lemma hunk_head l c : hunk l c → ∃ line ls, l = line :: ls ∧ startswith "@@" line = true ∧ line ≠ _NO_NEWLINE_MARKER.
Proof. intros []. do 2 eexists. split; [done|]. split; [by apply startswith_spec; eauto|done]. Qed.

Lemma hunks_head ls n c rest : hunks ls n c → head rest ≠ Some _NO_NEWLINE_MARKER →
  head (ls ++ rest) ≠ Some _NO_NEWLINE_MARKER.
Proof.
  intros [|l ls' n' c1 c2 Hl _] Hr; [done|]. apply hunk_head in Hl as (line & ls1 & -> & _ & Hne).
  cbn [app head]. intros [= E]. done.
Qed.

Lemma section_hunks_sound bound lines n c rest n' c' : section_hunks bound lines n c = Ok (rest, n', c') →
  ∃ ls, lines = ls ++ rest ∧ hunks ls (n' - n) (c' - c).
Proof.
  revert lines n c. induction bound as [|bound IH]; intros lines n c H; cbn [section_hunks] in H;
    destruct (starts_with "@@" lines); try done;
    try (injection H as -> -> ->; exists []; rewrite !Z.sub_diag; split; [done|constructor]).
  apply bind_Ok in H as ([mid ch] & Hh & H). apply parse_hunk_sound in Hh as (l & -> & Hl & _).
  apply IH in H as (ls & E & Hls). cbn [fst snd] in *. subst mid. exists (l ++ ls). rewrite app_assoc. split; [done|].
  replace (n' - n) with (n' - (n + 1) + 1) by lia. replace (c' - c) with (ch + (c' - (c + ch))) by lia. by constructor.
Qed.

Lemma section_hunks_complete ls k d : hunks ls k d → ∀ bound n c rest, (length (ls ++ rest) ≤ bound)%nat →
  starts_with "@@" rest = false → head rest ≠ Some _NO_NEWLINE_MARKER →
  section_hunks bound (ls ++ rest) n c = Ok (rest, n + k, c + d).
Proof.
  induction 1 as [|l ls k d d' Hl Hls IH]; intros bound n c rest Hb Hr Hm.
  - cbn [app]. rewrite !Z.add_0_r. destruct bound; cbn [section_hunks]; by rewrite Hr.
  - pose proof (hunk_head _ _ Hl) as (line & l' & El & Hs & _). rewrite <- app_assoc in *.
    rewrite length_app in Hb. destruct bound as [|bound]; [rewrite El in Hb; simpl in Hb; lia|].
    cbn [section_hunks]. replace (starts_with "@@" (l ++ ls ++ rest)) with true by (by rewrite El).
    rewrite (parse_hunk_complete _ _ _ Hl) by (by eapply hunks_head). cbn [mbind result_bind fst snd].
    rewrite IH; [f_equal; f_equal; [f_equal|]; lia| |done|done]. rewrite El in Hb. cbn [length] in Hb. lia.
Qed.

(** ** Rejections

    Whatever is not accepted is rejected with [PatchValidationError]: in particular, no
    loop outruns its bound. *)

Definition rejects {A} (m : result A) : Prop := ∀ e, m = Err e → ∃ msg, e = PatchValidationError msg.

Lemma rejects_ok {A} (a : A) : rejects (Ok a).
Proof. by intros e [=]. Qed.

Lemma rejects_rejected {A} msg : rejects (rejected (A := A) msg).
Proof. intros e [= <-]. eauto. Qed.

Lemma rejects_accept b msg : rejects (accept b msg).
Proof. destruct b; [apply rejects_ok|apply rejects_rejected]. Qed.

Lemma rejects_option {A} msg (o : option A) : rejects (of_option (PatchValidationError msg) o).
Proof. destruct o; [apply rejects_ok|apply rejects_rejected]. Qed.

Lemma rejects_bind {A B} (m : result A) (f : A → result B) :
  rejects m → (∀ a, m = Ok a → rejects (f a)) → rejects (m ≫= f).
Proof. intros Hm Hf. destruct m as [a|e]; cbn [mbind result_bind]; [by apply Hf|intros e' [= <-]; by apply Hm]. Qed.

Create HintDb rejects.
#[local] Hint Resolve rejects_ok rejects_rejected rejects_accept rejects_option : rejects.
Ltac rejecting := repeat first
  [ apply rejects_bind; [by auto with rejects|intros]
  | progress auto with rejects
  | match goal with |- rejects (if ?b then _ else _) => destruct b
                  | |- rejects (match ?x with _ => _ end) => destruct x end ].

Lemma rejects_path p : rejects (_validate_relative_path p).
Proof. unfold _validate_relative_path. rejecting. Qed.

Lemma rejects_hunk_line line os ns ch : rejects (hunk_line line os ns ch).
Proof. unfold hunk_line. rejecting. Qed.
#[local] Hint Resolve rejects_path rejects_hunk_line : rejects.

Lemma rejects_hunk_lines oc nc first os ns ch lines : rejects (hunk_lines oc nc first os ns ch lines).
Proof. revert first os ns ch. induction lines as [|line lines IH]; intros; cbn [hunk_lines]; rejecting. Qed.
#[local] Hint Resolve rejects_hunk_lines : rejects.

Lemma rejects_hunk line lines : rejects (_parse_hunk (line :: lines)).
Proof. cbn [_parse_hunk]. rejecting. Qed.

Lemma parse_hunk_shorter lines rest c : _parse_hunk lines = Ok (rest, c) → (length rest < length lines)%nat.
Proof.
  intros (l & -> & (line & ls & -> & _)%hunk_head & _)%parse_hunk_sound. rewrite length_app. simpl. lia.
Qed.

Lemma rejects_section_hunks bound lines n c : (length lines ≤ bound)%nat → rejects (section_hunks bound lines n c).
Proof.
  revert lines n c. induction bound as [|bound IH]; intros lines n c Hb; cbn [section_hunks];
    (destruct lines as [|line lines]; [apply rejects_ok|]); [simpl in Hb; lia|].
  destruct (starts_with _ _); [|apply rejects_ok]. apply rejects_bind; [apply rejects_hunk|].
  intros [rest ch] H. apply parse_hunk_shorter in H. apply IH. cbn [fst length] in *. lia.
Qed.

Lemma rejects_index lines : rejects (index_line lines).
Proof. unfold index_line. rejecting. Qed.

Lemma rejects_exact expected msg lines : rejects (exact_line expected msg lines).
Proof. unfold exact_line. rejecting. Qed.
#[local] Hint Resolve rejects_section_hunks rejects_index rejects_exact : rejects.

Lemma rejects_section policy paths header lines : rejects (parse_section policy paths header lines).
Proof. unfold parse_section. rejecting. Qed.

(** ** Sections *)

Lemma class_between_spec f lo hi s a b : class_between f lo hi s = Some (a, b) ↔
  s = a +:+ b ∧ (lo ≤ String.length a ≤ hi)%nat ∧ str_all f a = true ∧ head_not f b.
Proof.
  unfold class_between. destruct (span f s) as [a' b'] eqn:E. split.
  - apply span_spec in E as (-> & Ha & Hb). destruct (_ && _)%bool eqn:El; [|done]. intros [= <- <-].
    split_andb. rewrite Nat.leb_le in *. done.
  - intros (-> & [H1 H2] & Ha & Hb). rewrite span_app in E by done. injection E as <- <-.
    apply Nat.leb_le in H1, H2. by rewrite H1, H2.
Qed.

Lemma exact_line_Ok expected msg lines rest : exact_line expected msg lines = Ok rest ↔ lines = expected :: rest.
Proof.
  destruct lines as [|line lines]; [done|]. cbn [exact_line]. unfold accept, str_eqb.
  destruct (String.eqb_spec line expected) as [->|Hne]; cbn [require mbind result_bind]; [naive_solver|].
  split; [done|]. by intros [= ? _].
Qed.

Lemma index_line_sound lines rest : index_line lines = Ok rest → ∃ ix, lines = ix ++ rest ∧ index_lines ix.
Proof.
  unfold index_line. destruct lines as [|line lines]; [intros [= <-]; exists []; by repeat constructor|].
  destruct (startswith _ _); [|intros [= <-]; exists []; by repeat constructor].
  unfold accept. intros H. apply bind_Ok in H as (mode & Hi%of_option_Ok & H). inv_ok. exists [line]. split; [done|].
  unfold index_header in Hi.
  apply bind_Some in Hi as (r1 & ->%literal_spec & Hi). apply bind_Some in Hi as ([a r2] & Ha & Hi).
  apply class_between_spec in Ha as (-> & La & Aa & _). cbn [fst snd] in Hi.
  apply bind_Some in Hi as (r3 & ->%literal_spec & Hi). apply bind_Some in Hi as ([b r4] & Hb & Hi).
  apply class_between_spec in Hb as (-> & Lb & Ab & _). cbn [fst snd] in Hi.
  constructor; [done..|]. unfold str_eqb in Hi. destruct (String.eqb_spec r4 ""); [by left|right].
  apply bind_Some in Hi as (r5 & ->%literal_spec & Hi). apply bind_Some in Hi as ([m r6] & Hm & Hi).
  apply class_between_spec in Hm as (-> & _). cbn [fst snd] in Hi. apply end_of_line_Some in Hi as [-> ->].
  match goal with H : str_eqb _ _ = true |- _ => apply String.eqb_eq in H as -> end. done.
Qed.

Lemma index_line_complete ix rest : index_lines ix → starts_with "index " rest = false →
  index_line (ix ++ rest) = Ok rest.
Proof.
  intros [|a b mode Ha La Hb Lb Hm] Hr; [destruct rest; [done|]; cbn in *; by rewrite Hr|].
  cbn [app index_line]. replace (startswith "index " _) with true by (symmetry; apply startswith_spec; eauto).
  enough (index_header ("index " +:+ a +:+ ".." +:+ b +:+ mode) = Some (if str_eqb mode "" then None else Some "100644"))
    as -> by (by destruct Hm as [-> | ->]).
  unfold index_header. rewrite (proj2 (literal_spec _ _ _) eq_refl). cbn [mbind option_bind].
  rewrite (proj2 (class_between_spec _ _ _ (a +:+ _) a (".." +:+ b +:+ mode))) by done. cbn [mbind option_bind fst snd].
  rewrite (proj2 (literal_spec _ _ _) eq_refl). cbn [mbind option_bind].
  rewrite (proj2 (class_between_spec _ _ _ (b +:+ mode) b mode)) by (by destruct Hm as [-> | ->]).
  by destruct Hm as [-> | ->].
Qed.

(** What may follow a section: nothing, or another one. *)
Definition section_ends (rest : list string) : Prop := rest = [] ∨ starts_with "diff --git " rest = true.

Lemma section_ends_not rest : section_ends rest →
  starts_with "@@" rest = false ∧ head rest ≠ Some _NO_NEWLINE_MARKER.
Proof.
  intros [->|H]; [done|]. destruct rest as [|line rest]; [done|]. cbn [starts_with head] in *.
  apply startswith_spec in H as [text ->]. done.
Qed.

Lemma hunks_nonneg ls n c : hunks ls n c → 0 <= n ∧ 0 <= c.
Proof. induction 1 as [|l ls n c c' [? ? ? ? ? ? ? ? ? ? ? ? ? ? Hb%body_nonneg] _ IH]; lia. Qed.

Lemma parse_section_sound policy paths header lines paths' ch rest :
  parse_section policy paths header lines = Ok (paths', ch, rest) → ∃ p l,
  header :: lines = l ++ rest ∧ file_section policy l p ∧ paths' = paths ++ [p] ∧ (p ∉ paths) ∧ 0 < ch ∧
  Z.of_nat (length paths') <= max_files policy ∧ section_ends rest.
Proof.
  unfold parse_section, accept. intros H. apply bind_Ok in H as ([p p'] & Hd & H).
  apply of_option_Ok, diff_header_Some in Hd as ->. inv_ok. split_andb.
  match goal with H : str_eqb p p' = true |- _ => apply String.eqb_eq in H as <- end.
  repeat match goal with H : exact_line _ _ _ = Ok _ |- _ => apply exact_line_Ok in H; subst end.
  match goal with H : index_line _ = Ok _ |- _ => apply index_line_sound in H as (ix & -> & Hix) end.
  match goal with x : (list string * Z * Z)%type |- _ => destruct x as [[mid n] c] end.
  inv_ok. repeat match goal with H : (_, _, _) = (_, _, _) |- _ => injection H as H; subst end. split_andb.
  match goal with H : section_hunks _ _ _ _ = _ |- _ => apply section_hunks_sound in H as (ls & -> & Hh) end.
  rewrite !Z.sub_0_r in Hh. pose proof (hunks_nonneg _ _ _ Hh).
  repeat match goal with H : (_ =? 0) = false |- _ => apply Z.eqb_neq in H end.
  match goal with H : existsb _ (allowed_paths _) = true |- _ => apply existsb_str in H end.
  match goal with H : existsb _ paths = false |- _ => rename H into Hnew end.
  eexists p, (_ :: ix ++ [_; _] ++ ls). split; [cbn [app]; by rewrite <- app_assoc|].
  split; [econstructor; try done; lia|]. split; [done|].
  split; [intros Hin%existsb_str; congruence|]. split; [lia|]. split; [by apply Z.leb_le|].
  match goal with H : _ || _ = true |- _ => apply orb_true_iff in H as [?%bool_decide_eq_true|?] end; [by left|by right].
Qed.

Lemma parse_section_complete policy paths l p rest : file_section policy l p → p ∉ paths →
  Z.of_nat (length (paths ++ [p])) <= max_files policy → section_ends rest → ∃ header lines ch,
  l ++ rest = header :: lines ∧ 0 < ch ∧ parse_section policy paths header lines = Ok (paths ++ [p], ch, rest).
Proof.
  intros [p' ix ls n c Hp Ha Hix Hls Hn Hc] Hnew Hmax Hend.
  eexists _, _, c. split; [cbn [app]; reflexivity|]. split; [done|].
  unfold parse_section. rewrite diff_header_same by done. cbn [of_option mbind result_bind].
  assert (str_eqb p' p' = true) as -> by apply String.eqb_refl. cbn [accept require mbind result_bind]. rewrite Hp. cbn [accept require mbind result_bind].
  rewrite (proj2 (existsb_str _ _) Ha). cbn [accept require mbind result_bind].
  replace (existsb (str_eqb p') paths) with false
    by (symmetry; apply not_true_iff_false; by rewrite existsb_str).
  cbn [accept require mbind result_bind negb].
  replace (Z.of_nat (length (paths ++ [p'])) <=? max_files policy) with true by (symmetry; by apply Z.leb_le).
  cbn [accept require mbind result_bind]. rewrite <- app_assoc.
  rewrite (index_line_complete ix) by done. cbn [mbind result_bind app].
  rewrite (proj2 (exact_line_Ok _ _ _ _) eq_refl). cbn [mbind result_bind].
  rewrite (proj2 (exact_line_Ok _ _ _ _) eq_refl). cbn [mbind result_bind].
  destruct (section_ends_not _ Hend) as [H1 H2].
  rewrite (section_hunks_complete _ _ _ Hls) by done. cbn [mbind result_bind].
  destruct (Z.eqb_spec (0 + n) 0), (Z.eqb_spec (0 + c) 0); try lia. cbn [accept require mbind result_bind orb negb].
  destruct Hend as [->|H]; [reflexivity|]. rewrite H, orb_true_r. reflexivity.
Qed.

(** ** The whole patch *)

Lemma sections_end policy ls ps : file_sections policy ls ps → section_ends ls.
Proof.
  intros [|l ls' p ps' [p' ix hs n c] _]; [by left|right]. cbn [app starts_with]. apply startswith_spec.
  exists ("a/" +:+ p' +:+ " b/" +:+ p'). done.
Qed.

Lemma parse_sections_sound bound policy paths total lines paths' total' :
  parse_sections bound policy paths total lines = Ok (paths', total') → NoDup paths → ∃ ps,
  file_sections policy lines ps ∧ paths' = paths ++ ps ∧ NoDup paths' ∧
  (ps ≠ [] → Z.of_nat (length paths') <= max_files policy).
Proof.
  revert paths total lines. induction bound as [|bound IH]; intros paths total [|header lines] H Hnd;
    cbn [parse_sections] in H; try done;
    try (injection H as <- <-; exists []; rewrite app_nil_r; by repeat constructor).
  apply bind_Ok in H as ([[paths1 ch] rest] & (p & l & E & Hl & -> & Hp & _ & Hmax & _)%parse_section_sound & H).
  destruct (IH _ _ _ H) as (ps & Hps & -> & Hnd' & Hmax').
  { apply NoDup_app. split; [done|]. split; [|apply NoDup_singleton].
    intros x Hx Hin. apply list_elem_of_singleton in Hin as ->. done. }
  exists (p :: ps). rewrite E, <- app_assoc in *. split; [by constructor|]. split; [done|]. split; [done|].
  intros _. destruct ps; [done|by apply Hmax'].
Qed.

Lemma parse_sections_complete policy ls ps : file_sections policy ls ps → ∀ bound paths total,
  (length ls ≤ bound)%nat → NoDup (paths ++ ps) → Z.of_nat (length (paths ++ ps)) <= max_files policy →
  ∃ total', parse_sections bound policy paths total ls = Ok (paths ++ ps, total') ∧
            total <= total' ∧ (ps ≠ [] → total < total').
Proof.
  induction 1 as [|l ls p ps Hl Hls IH]; intros bound paths total Hb Hnd Hmax.
  - exists total. rewrite app_nil_r. destruct bound; cbn [parse_sections]; (split; [done|]; split; [lia|done]).
  - change (p :: ps) with ([p] ++ ps) in *. rewrite app_assoc in *.
    assert (p ∉ paths) as Hp by (apply NoDup_app in Hnd as (Hnd & _ & _); apply NoDup_app in Hnd as (_ & H & _);
      intros Hin; by apply (H p Hin), list_elem_of_singleton).
    destruct (parse_section_complete policy paths l p ls Hl Hp) as (header & lines & ch & E & Hch & Hparse).
    { rewrite length_app in Hmax. lia. }
    { by eapply sections_end. }
    rewrite E in *. destruct bound as [|bound]; [simpl in Hb; lia|]. cbn [parse_sections].
    rewrite Hparse. cbn [mbind result_bind].
    destruct (IH bound (paths ++ [p]) (total + ch)) as (total' & Er & Ht & _); [|done|done|].
    + apply (f_equal length) in E. rewrite length_app in E. inversion Hl; subst. simpl in *. lia.
    + exists total'. split; [done|]. split; [lia|]. intros _. lia.
Qed.

Lemma rejects_sections bound policy paths total lines : (length lines ≤ bound)%nat →
  rejects (parse_sections bound policy paths total lines).
Proof.
  revert paths total lines. induction bound as [|bound IH]; intros paths total [|header lines] Hb; cbn [parse_sections];
    try apply rejects_ok; [simpl in Hb; lia|].
  apply rejects_bind; [apply rejects_section|].
  intros [[paths1 ch] rest] (p & l & E & Hl & _)%parse_section_sound. apply IH.
  apply (f_equal length) in E. rewrite length_app in E. inversion Hl; subst. simpl in *. lia.
Qed.

(** C37. The reader of patches decides its grammar: it accepts a text exactly when its lines
    are sections of one file each, every file a plain relative path that the policy allows
    and no file twice, each section with a hunk whose lines are the ones its header
    counts; it returns the files of the sections in their order; and whatever it does not
    accept it rejects with [PatchValidationError], never by running out of a loop. *)
Theorem patch_reader_decides text policy :
  match _parse_unified_diff text policy with
  | Ok paths => unified_diff policy (splitlines text) paths
  | Err e => (∃ msg, e = PatchValidationError msg) ∧ ∀ paths, ¬ unified_diff policy (splitlines text) paths
  end.
Proof.
  unfold _parse_unified_diff.
  destruct (parse_sections _ _ _ _ _) as [[paths total]|e] eqn:E; cbn [mbind result_bind fst snd].
  - pose proof (parse_sections_sound _ _ _ _ _ _ _ E) as (ps & Hps & -> & Hnd & Hlen); [constructor|]. 
    cbn [app] in *. destruct (bool_decide_reflect (ps = [])) as [->|Hne]; cbn [orb negb accept require mbind result_bind].
    { split; [eauto|]. intros ps' (Hs & Hne & _). inversion Hps as [E1|? ? ? ? [] _ E1]; subst.
      rewrite <- E1 in Hs. inversion Hs as [|? ? ? ? [] ?]; done. }
    destruct (parse_sections_complete _ _ _ Hps (length (splitlines text)) [] 0) as (total' & E' & _ & Hpos); [done|done|by apply Hlen|].
    rewrite E in E'. injection E' as <-. specialize (Hpos Hne). destruct (Z.eqb_spec total 0); [lia|].
    split; [done|]. by auto.
  - split; [by eapply rejects_sections|]. intros ps (Hs & _ & Hnd & Hlen).
    destruct (parse_sections_complete _ _ _ Hs (length (splitlines text)) [] 0) as (total' & E' & _); [done..|].
    by rewrite E in E'.
Qed.

(** A patch of one line that is accepted, and one that leaves its policy's paths. *)
Definition sample_policy : PatchPolicy := {| allowed_paths := ["src/a.py"]; max_patch_bytes := 1000; max_files := 1 |}.
Definition sample_patch (p : string) : string :=
  String.concat (String (chr 10) "")
    ["diff --git a/" +:+ p +:+ " b/" +:+ p; "index 0123..4567 100644"; "--- a/" +:+ p; "+++ b/" +:+ p;
     "@@ -1,2 +1,2 @@"; " x = 1"; "-y = 2"; "+y = 3"; _NO_NEWLINE_MARKER; ""].

Example accepted_patch : _parse_unified_diff (sample_patch "src/a.py") sample_policy = Ok ["src/a.py"].
Proof. by vm_compute. Qed.
Example unexpected_patch : is_ok (_parse_unified_diff (sample_patch "src/b.py") sample_policy) = false.
Proof. by vm_compute. Qed.
