(* ===== verification/Hash.v ===== *)
(** * SHA-256 (hashlib, as [sha256_bytes] of src/guildmind/domain/serialization.py uses it)

    [Hashing] is what the rest of the library relies on: some function from bytes to 64
    lowercase hexadecimal digits.  [sha256_hashing] is the real one, FIPS 180-4 over 32-bit words
    kept in [N]; [constant_hashing] is a degenerate instance, useful to evaluate the store
    cheaply, and to show that the integrity theorems do not smuggle in collision
    resistance. *)

From Stdlib Require Import Ascii.
From S2P Require Import Prelude PyStr Float64 Json.

Local Open Scope N_scope.

Class Hashing := {
  sha256_bytes : list Byte.byte → string;
  sha256_bytes_hex : ∀ bs, is_lower_sha256 (sha256_bytes bs) = true;
}.

Module Sha256.

Definition mask : N := 4294967295.
Definition add32 (a b : N) : N := N.land (a + b) mask.
Definition rotr (n x : N) : N := N.lor (N.shiftr x n) (N.land (N.shiftl x (32 - n)) mask).
Definition xor3 (a b c : N) : N := N.lxor a (N.lxor b c).
Definition not32 (x : N) : N := N.lxor x mask.

Definition big_sigma0 (x : N) : N := xor3 (rotr 2 x) (rotr 13 x) (rotr 22 x).
Definition big_sigma1 (x : N) : N := xor3 (rotr 6 x) (rotr 11 x) (rotr 25 x).
Definition small_sigma0 (x : N) : N := xor3 (rotr 7 x) (rotr 18 x) (N.shiftr x 3).
Definition small_sigma1 (x : N) : N := xor3 (rotr 17 x) (rotr 19 x) (N.shiftr x 10).
Definition ch (x y z : N) : N := N.lxor (N.land x y) (N.land (not32 x) z).
Definition maj (x y z : N) : N := xor3 (N.land x y) (N.land x z) (N.land y z).

(** The constants of the standard, from their definition: the first 32 bits of the
    fractional parts of the cube roots (rounds) and square roots (initial state) of the
    first primes. *)
Definition is_prime (n : nat) : bool :=
  forallb (λ d, negb (Nat.eqb (n mod d) 0)) (seq 2 (n - 2)).
Definition primes : list N :=
  Eval vm_compute in (N.of_nat <$> List.filter is_prime (seq 2 310)).

(** The largest [r] with [r ^ 3 <= n], bit by bit. *)
Fixpoint cube_root (bits : nat) (r n : N) : N :=
  match bits with
  | O => r
  | S b => let r' := r + 2 ^ N.of_nat b in cube_root b (if r' ^ 3 <=? n then r' else r) n
  end.

Definition round_constants : list N :=
  Eval vm_compute in ((λ p, N.land (cube_root 40 0 (p * 2 ^ 96)) mask) <$> take 64 primes).
Definition initial_words : list N :=
  Eval vm_compute in ((λ p, N.land (N.sqrt (p * 2 ^ 64)) mask) <$> take 8 primes).

(** The eight working variables. *)
Record state := State { a : N; b : N; c : N; d : N; e : N; f : N; g : N; h : N }.

Definition initial : state :=
  let w i := nth i initial_words 0 in
  State (w 0%nat) (w 1%nat) (w 2%nat) (w 3%nat) (w 4%nat) (w 5%nat) (w 6%nat) (w 7%nat).

Definition round (s : state) (kw : N * N) : state :=
  let t1 := add32 (add32 (add32 (h s) (big_sigma1 (e s))) (add32 (ch (e s) (f s) (g s)) kw.1)) kw.2 in
  let t2 := add32 (big_sigma0 (a s)) (maj (a s) (b s) (c s)) in
  State (add32 t1 t2) (a s) (b s) (c s) (add32 (d s) t1) (e s) (f s) (g s).

(** The message schedule, newest word first. *)
Fixpoint schedule (n : nat) (w : list N) : list N :=
  match n with
  | O => w
  | S n =>
      let at_ i := nth i w 0 in
      schedule n (add32 (add32 (small_sigma1 (at_ 1%nat)) (at_ 6%nat))
                        (add32 (small_sigma0 (at_ 14%nat)) (at_ 15%nat)) :: w)
  end.

Definition add_state (s t : state) : state :=
  State (add32 (a s) (a t)) (add32 (b s) (b t)) (add32 (c s) (c t)) (add32 (d s) (d t))
        (add32 (e s) (e t)) (add32 (f s) (f t)) (add32 (g s) (g t)) (add32 (h s) (h t)).

Definition compress (s : state) (block : list N) : state :=
  let w := reverse (schedule 48 (reverse block)) in
  add_state s (fold_left round (zip round_constants w) s).

Fixpoint words (bs : list N) : list N :=
  match bs with
  | b0 :: b1 :: b2 :: b3 :: bs =>
      (N.shiftl b0 24 + N.shiftl b1 16 + N.shiftl b2 8 + b3) :: words bs
  | _ => []
  end.

(** The padded message: a one bit, zeros up to 56 bytes modulo 64, the bit length. *)
Definition be64 (n : N) : list N :=
  (λ i, N.land (N.shiftr n (8 * (7 - N.of_nat i))) 255) <$> seq 0 8.

Definition pad (bs : list N) : list N :=
  let len := length bs in
  let k := ((119 - len mod 64) mod 64)%nat in
  bs ++ [128] ++ repeat 0 k ++ be64 (8 * N.of_nat len).

Fixpoint blocks (fuel : nat) (ws : list N) : list (list N) :=
  match fuel, ws with
  | S fuel, _ :: _ => take 16 ws :: blocks fuel (drop 16 ws)
  | _, _ => []
  end.

Definition digest (bs : list Byte.byte) : state :=
  let ws := words (pad (Byte.to_N <$> bs)) in
  fold_left compress (blocks (length ws) ws) initial.

Fixpoint hex_word (n : nat) (x : N) : string :=
  match n with
  | O => EmptyString
  | S n => String (hex_digit (N.shiftr x (4 * N.of_nat n) mod 16)) (hex_word n x)
  end.

(** [hashlib.sha256(value).hexdigest()] *)
Definition hexdigest (bs : list Byte.byte) : string :=
  let s := digest bs in
  hex_word 8 (a s) +:+ hex_word 8 (b s) +:+ hex_word 8 (c s) +:+ hex_word 8 (d s) +:+
  hex_word 8 (e s) +:+ hex_word 8 (f s) +:+ hex_word 8 (g s) +:+ hex_word 8 (h s).

Lemma hex_digit_lower n : n < 16 → is_lower_hex_char (hex_digit n) = true.
Proof.
  intros H.
  assert (n = 0 ∨ n = 1 ∨ n = 2 ∨ n = 3 ∨ n = 4 ∨ n = 5 ∨ n = 6 ∨ n = 7 ∨ n = 8 ∨ n = 9 ∨
    n = 10 ∨ n = 11 ∨ n = 12 ∨ n = 13 ∨ n = 14 ∨ n = 15) as Hn by lia.
  naive_solver.
Qed.

Lemma hex_word_lower n x : str_all is_lower_hex_char (hex_word n x) = true.
Proof.
  induction n; simpl; [done|]. rewrite IHn, andb_true_r. apply hex_digit_lower.
  by apply N.mod_lt.
Qed.

Lemma hex_word_length n x : String.length (hex_word n x) = n.
Proof. induction n; simpl; auto. Qed.

Lemma hexdigest_hex bs : is_lower_sha256 (hexdigest bs) = true.
Proof.
  unfold is_lower_sha256, is_lower_hex, hexdigest.
  by rewrite !str_length_app, !str_all_app, !hex_word_length, !hex_word_lower.
Qed.

End Sha256.

Definition sha256_hashing : Hashing :=
  {| sha256_bytes := Sha256.hexdigest; sha256_bytes_hex := Sha256.hexdigest_hex |}.

Definition constant_hashing : Hashing.
Proof. refine {| sha256_bytes := λ _, zeros 64 |}. intros. vm_compute. reflexivity. Defined.

(** The test vector of FIPS 180-4, one block. *)
Example sha256_abc :
  Sha256.hexdigest (utf8_encode "abc")
  = "ba7816bf8f01cfea414140de5dae2223b00361a396177a9cb410ff61f20015ad".
Proof. vm_compute. reflexivity. Qed.

Section canonical_hash.
Context {hashing : Hashing}.

(** [canonical_sha256(value)] *)
Definition canonical_sha256 (v : json) : result string :=
  text ← canonical_json v; Ok (sha256_bytes (utf8_encode text)).

Lemma canonical_sha256_ok v :
  finite_json v = true →
  canonical_sha256 v = Ok (sha256_bytes (utf8_encode (dumps (sort_json v)))).
Proof. intros H. unfold canonical_sha256. by rewrite canonical_json_ok. Qed.

Lemma canonical_sha256_hex v h : canonical_sha256 v = Ok h → is_lower_sha256 h = true.
Proof. unfold canonical_sha256. intros H. inv_ok. apply sha256_bytes_hex. Qed.

(** A collision of the hash function, exhibited. *)
Definition collision : Prop :=
  ∃ x y : list Byte.byte, x ≠ y ∧ sha256_bytes x = sha256_bytes y.

(** Values with the same canonical hash are the same value, or exhibit a collision. *)
Lemma canonical_sha256_inj v w h :
  json_wf v = true → json_wf w = true →
  canonical_sha256 v = Ok h → canonical_sha256 w = Ok h →
  sort_json v = sort_json w ∨ collision.
Proof.
  unfold canonical_sha256. intros Hv Hw H1 H2. inv_ok.
  destruct (decide (a = a0)) as [->|Hne].
  - left. eauto using canonical_json_inj.
  - right. exists (utf8_encode a), (utf8_encode a0). split; [|done].
    intros E%utf8_encode_inj. done.
Qed.
End canonical_hash.
