(* ===== verification/Datetime.v ===== *)
(** * UTC datetimes

    A Python [datetime] after [_normalize_utc] (src/guildmind/domain/models.py): the
    calendar fields CPython stores, in UTC.  Comparison is CPython's comparison of the
    packed fields; the text is [isoformat(timespec="microseconds")] with [Z] for the
    offset, as [_json_compatible] writes it. *)

From Stdlib Require Import Ascii.
From S2P Require Import Prelude PyStr Float64 Json.

Local Open Scope N_scope.

Record datetime := Datetime {
  year : N; month : N; day : N; hour : N; minute : N; second : N; microsecond : N
}.

#[export] Instance datetime_eq_dec : EqDecision datetime.
Proof. solve_decision. Defined.

Definition is_leap (y : N) : bool :=
  (y mod 4 =? 0) && (negb (y mod 100 =? 0) || (y mod 400 =? 0)).

Definition days_in_month (y m : N) : N :=
  if (m =? 4) || (m =? 6) || (m =? 9) || (m =? 11) then 30
  else if m =? 2 then (if is_leap y then 29 else 28) else 31.

Definition datetime_valid (d : datetime) : bool :=
  (1 <=? year d) && (year d <? 10 ^ N.of_nat 4) && (1 <=? month d) && (month d <=? 12) &&
  (1 <=? day d) && (day d <=? days_in_month (year d) (month d)) &&
  (hour d <? 24) && (minute d <? 60) && (second d <? 60) && (microsecond d <? 10 ^ N.of_nat 6).

(** The ten bytes CPython compares, read as one number. *)
Definition packed (d : datetime) : N :=
  (((((year d * 256 + month d) * 256 + day d) * 256 + hour d) * 256 + minute d) * 256 + second d)
    * 16777216 + microsecond d.

(** [d <= e], [d < e], [max(d, e)] *)
Definition dt_leb (d e : datetime) : bool := packed d <=? packed e.
Definition dt_ltb (d e : datetime) : bool := packed d <? packed e.
Definition dt_max (d e : datetime) : datetime := if dt_ltb d e then e else d.

Definition isoformat (d : datetime) : string :=
  zero_pad 4 (year d) +:+ "-" +:+ zero_pad 2 (month d) +:+ "-" +:+ zero_pad 2 (day d) +:+ "T" +:+
  zero_pad 2 (hour d) +:+ ":" +:+ zero_pad 2 (minute d) +:+ ":" +:+ zero_pad 2 (second d) +:+ "." +:+
  zero_pad 6 (microsecond d) +:+ "Z".

(** ** Reading

    pydantic parses a datetime out of a JSON value (a text, or a number read as a Unix
    timestamp).  [PydanticDatetime] states what the sources need of it: it reads back what
    [isoformat] writes, and gives valid datetimes. *)
Class PydanticDatetime := {
  parse_datetime : json → option datetime;
  parse_isoformat : ∀ d, datetime_valid d = true → parse_datetime (JStr (isoformat d)) = Some d;
  parse_datetime_valid : ∀ v d, parse_datetime v = Some d → datetime_valid d = true;
}.

(** An instance: the reader of exactly the texts [isoformat] writes. *)
Definition scan_field (w : nat) (sep : string) (s : string) : option (N * string) :=
  let ds := str_take w s in
  let r := str_drop w s in
  if Nat.eqb (String.length ds) w && str_all is_digit ds && String.prefix sep r
  then Some (dval 0 ds, str_drop (String.length sep) r) else None.

Definition scan_isoformat (s : string) : option datetime :=
  '(y, s) ← scan_field 4 "-" s; '(mo, s) ← scan_field 2 "-" s; '(d, s) ← scan_field 2 "T" s;
  '(h, s) ← scan_field 2 ":" s; '(mi, s) ← scan_field 2 ":" s; '(sec, s) ← scan_field 2 "." s;
  '(us, s) ← scan_field 6 "Z" s;
  let t := Datetime y mo d h mi sec us in
  if String.eqb s "" && datetime_valid t then Some t else None.

Lemma str_take_app s t : str_take (String.length s) (s +:+ t) = s.
Proof. induction s as [|c s IH]; simpl; [by destruct t|]. by rewrite IH. Qed.
Lemma str_drop_app s t : str_drop (String.length s) (s +:+ t) = t.
Proof. induction s as [|c s IH]; simpl; [by destruct t|done]. Qed.

Lemma prefix_app p r : String.prefix p (p +:+ r) = true.
Proof. induction p as [|c p IH]; simpl; [by destruct r|]. by destruct (Ascii.ascii_dec c c). Qed.

Lemma scan_field_pad w sep n r :
  (0 < w)%nat → n < 10 ^ N.of_nat w → scan_field w sep (zero_pad w n +:+ sep +:+ r) = Some (n, r).
Proof.
  intros Hw Hn. pose proof (zero_pad_length w n Hn Hw) as Hl. unfold scan_field.
  pose proof (str_take_app (zero_pad w n) (sep +:+ r)) as Ht.
  pose proof (str_drop_app (zero_pad w n) (sep +:+ r)) as Hd.
  rewrite Hl in Ht, Hd. rewrite Ht, Hd, Hl, Nat.eqb_refl, zero_pad_all_digits, prefix_app.
  cbn [andb]. by rewrite dval_zero_pad, str_drop_app.
Qed.

Lemma datetime_valid_bounds d : datetime_valid d = true →
  year d < 10 ^ N.of_nat 4 ∧ month d < 10 ^ N.of_nat 2 ∧ day d < 10 ^ N.of_nat 2 ∧
  hour d < 10 ^ N.of_nat 2 ∧ minute d < 10 ^ N.of_nat 2 ∧ second d < 10 ^ N.of_nat 2 ∧
  microsecond d < 10 ^ N.of_nat 6.
Proof.
  unfold datetime_valid. intros H. split_andb.
  repeat match goal with
  | H : (_ <=? _) = true |- _ => apply N.leb_le in H
  | H : (_ <? _) = true |- _ => apply N.ltb_lt in H
  end.
  assert (days_in_month (year d) (month d) ≤ 31).
  { unfold days_in_month. destruct (_ || _)%bool; [lia|].
    destruct (_ =? 2); [destruct (is_leap _)|]; lia. }
  change (10 ^ N.of_nat 2) with 100. repeat split; try done; lia.
Qed.

Lemma scan_isoformat_spec d : datetime_valid d = true → scan_isoformat (isoformat d) = Some d.
Proof.
  intros Hv. destruct (datetime_valid_bounds d Hv) as (H1 & H2 & H3 & H4 & H5 & H6 & H7).
  unfold scan_isoformat, isoformat.
  do 6 (rewrite scan_field_pad by (done || lia); cbn [mbind option_bind]).
  pose proof (scan_field_pad 6 "Z" (microsecond d) "" ltac:(lia) H7) as Hz.
  change ("Z" +:+ "") with "Z" in Hz. rewrite Hz. cbn [mbind option_bind].
  destruct d; cbn [year month day hour minute second microsecond] in *.
  rewrite Hv. done.
Qed.

Definition canonical_datetimes : PydanticDatetime.
Proof.
  refine {| parse_datetime := λ v, match v with JStr s => scan_isoformat s | _ => None end;
            parse_isoformat := scan_isoformat_spec |}.
  intros [] d; try done. unfold scan_isoformat. intros H.
  repeat match type of H with
  | context [scan_field ?w ?p ?s] => destruct (scan_field w p s) as [[? ?]|]; cbn [mbind option_bind] in H; [|done]
  end.
  destruct (_ && _) eqn:E in H; [|done]. injection H as <-. by split_andb.
Defined.

(** ** Order *)

Lemma dt_leb_refl d : dt_leb d d = true.
Proof. apply N.leb_refl. Qed.

Lemma dt_leb_trans d e f : dt_leb d e = true → dt_leb e f = true → dt_leb d f = true.
Proof. unfold dt_leb. rewrite !N.leb_le. lia. Qed.

Lemma dt_max_ge_r d e : dt_leb e (dt_max d e) = true.
Proof.
  unfold dt_max, dt_leb, dt_ltb. destruct (N.ltb_spec (packed d) (packed e)); apply N.leb_le; lia.
Qed.

Lemma dt_max_ge_l d e : dt_leb d (dt_max d e) = true.
Proof.
  unfold dt_max, dt_leb, dt_ltb. destruct (N.ltb_spec (packed d) (packed e)); apply N.leb_le; lia.
Qed.

Lemma dt_max_valid d e :
  datetime_valid d = true → datetime_valid e = true → datetime_valid (dt_max d e) = true.
Proof. unfold dt_max. by destruct (dt_ltb d e). Qed.

Lemma dt_leb_ltb d e : dt_leb d e = negb (dt_ltb e d).
Proof. unfold dt_leb, dt_ltb. apply N.leb_antisym. Qed.

Lemma isoformat_inj d e :
  datetime_valid d = true → datetime_valid e = true → isoformat d = isoformat e → d = e.
Proof.
  intros Hd He H. apply scan_isoformat_spec in Hd, He. rewrite H in Hd. congruence.
Qed.
