(* ===== verification/Fields.v ===== *)
(** * Field validation

    pydantic's part in the domain models, as far as the declarations of
    src/guildmind/domain/models.py use it: a model is validated from a dict by rejecting
    unknown keys, reading each declared field with its type ([v_int], [v_float], ... in
    strict mode) or its default, and then checking the declared constraints.  JSON objects
    held in a field are kept with their keys sorted: two dicts that differ only in
    insertion order are the same value. *)

From Stdlib Require Import Ascii.
From S2P Require Import Prelude PyStr Float64 Json Datetime.

Definition invalid {A} (msg : string) : result A := Err (ValidationError msg).

(** ** Reading a field *)

Definition v_str (v : json) : result string :=
  match v with JStr s => Ok s | _ => invalid "string_type" end.

(** [Field(strict=True)] on [int]: a bool is not an integer. *)
Definition v_int (v : json) : result Z :=
  match v with JInt z => Ok z | _ => invalid "int_type" end.

(** [Field(strict=True)] on [float]: an integer is accepted and converted. *)
Definition v_float (v : json) : result float64 :=
  match v with
  | JFloat f => Ok f
  | JInt z => Ok (float_of_Z z)
  | _ => invalid "float_type"
  end.

Definition v_opt {A} (f : json → result A) (v : json) : result (option A) :=
  match v with JNull => Ok None | _ => Some <$> f v end.

Definition v_list {A} (f : json → result A) (v : json) : result (list A) :=
  match v with JArr l => mapR f l | _ => invalid "tuple_type" end.

(** [dict[str, JsonValue]] *)
Definition sort_dict (o : dict) : dict :=
  match sort_json (JObj o) with JObj o' => o' | _ => [] end.
Definition v_dict (v : json) : result dict :=
  match v with
  | JObj o => if json_wf v then Ok (sort_dict o) else invalid "dict_type"
  | _ => invalid "dict_type"
  end.

(** [extra="forbid"] *)
Definition only_keys (names : list string) (o : dict) : bool :=
  forallb (λ k, existsb (str_eqb k) names) (keys o).

(** The items of a model's input; anything but a dict is rejected. *)
Definition v_model (names : list string) (v : json) : result dict :=
  match v with
  | JObj o => if only_keys names o then Ok o else invalid "extra_forbidden"
  | _ => invalid "model_type"
  end.

Definition field {A} (o : dict) (k : string) (f : json → result A) : result A :=
  match jget o k with Some v => f v | None => invalid "missing" end.

Definition field_default {A} (o : dict) (k : string) (d : A) (f : json → result A) : result A :=
  match jget o k with Some v => f v | None => Ok d end.

(** [SchemaVersion = Literal["0.1"]] with its default. *)
Definition v_literal (text : string) (v : json) : result unit :=
  match v with
  | JStr s => require (str_eqb s text) (ValidationError "literal_error")
  | _ => invalid "literal_error"
  end.
Definition schema_version (o : dict) : result unit :=
  field_default o "schema_version" tt (v_literal "0.1").

(** ** Constraints *)

(** [NonEmptyStr]: stripped, then required to be nonempty. *)
Definition c_nonempty (s : string) : result string :=
  let s := strip_whitespace s in
  if str_nonempty s then Ok s else invalid "string_too_short".

(** [Sha256] and [Sha256Digest] *)
Definition c_sha256 (s : string) : result string :=
  if is_lower_sha256 s then Ok s else invalid "string_pattern_mismatch".
Definition c_sha256_digest (s : string) : result string :=
  if startswith "sha256:" s && is_lower_sha256 (removeprefix "sha256:" s)
  then Ok s else invalid "string_pattern_mismatch".

Definition c_opt {A} (f : A → result A) (o : option A) : result (option A) :=
  match o with Some a => Some <$> f a | None => Ok None end.

(** ** Sorting a dict and reading its fields *)

Lemma jget_perm o o' k : NoDup (keys o) → o ≡ₚ o' → jget o k = jget o' k.
Proof.
  intros Hnd H. induction H as [|[k1 v1] o o' H IH|[k1 v1] [k2 v2] o|o1 o2 o3 H1 IH1 H2 IH2];
    simpl in *.
  - done.
  - apply NoDup_cons in Hnd as [_ Hnd]. by rewrite IH.
  - destruct (str_eqb k k2) eqn:E2, (str_eqb k k1) eqn:E1; try done.
    unfold str_eqb in *. apply String.eqb_eq in E1, E2. subst.
    apply NoDup_cons in Hnd as [Hni _]. exfalso. apply Hni. left.
  - rewrite IH1 by done. apply IH2. by rewrite <- (keys_perm _ _ H1).
Qed.

Lemma jget_map o k (f : json → json) :
  jget ((λ kv, (kv.1, f kv.2)) <$> o) k = f <$> jget o k.
Proof. induction o as [|[k' v] o IH]; simpl; [done|]. by destruct (str_eqb k k'). Qed.

Lemma jget_sort_dict o k : nodup_keys o = true → jget (sort_dict o) k = sort_json <$> jget o k.
Proof.
  intros Hnd. unfold sort_dict. cbn [sort_json]. rewrite <- jget_map.
  apply jget_perm; [|apply merge_sort_Permutation].
  rewrite (keys_perm _ _ (merge_sort_Permutation _ _)), keys_map. by apply nodup_keys_NoDup.
Qed.

Lemma only_keys_sort names o : only_keys names (sort_dict o) = only_keys names o.
Proof.
  unfold only_keys, sort_dict. cbn [sort_json]. rewrite <- (keys_map o sort_json).
  apply forallb_perm. apply keys_perm, merge_sort_Permutation.
Qed.

Lemma sort_json_JObj o : sort_json (JObj o) = JObj (sort_dict o).
Proof. done. Qed.

Lemma v_model_sort names o :
  v_model names (sort_json (JObj o)) = (if only_keys names o then Ok (sort_dict o) else invalid "extra_forbidden").
Proof. rewrite sort_json_JObj. simpl. by rewrite only_keys_sort. Qed.

Lemma field_sort {A} o k (f : json → result A) :
  nodup_keys o = true → field (sort_dict o) k f =
  match jget o k with Some v => f (sort_json v) | None => invalid "missing" end.
Proof. intros H. unfold field. rewrite jget_sort_dict by done. by destruct (jget o k). Qed.

Lemma field_default_sort {A} o k (d : A) (f : json → result A) :
  nodup_keys o = true → field_default (sort_dict o) k d f =
  match jget o k with Some v => f (sort_json v) | None => Ok d end.
Proof. intros H. unfold field_default. rewrite jget_sort_dict by done. by destruct (jget o k). Qed.

Lemma schema_version_sort o :
  nodup_keys o = true → jget o "schema_version" = Some (JStr "0.1") →
  schema_version (sort_dict o) = Ok tt.
Proof. intros H1 H2. unfold schema_version. rewrite field_default_sort by done. by rewrite H2. Qed.

Lemma sort_dict_idemp o : json_wf (JObj o) = true → sort_dict (sort_dict o) = sort_dict o.
Proof. intros H. apply (sort_json_idemp (JObj o)) in H. rewrite !sort_json_JObj in H. by injection H. Qed.

Lemma sort_dict_wf o : json_wf (JObj (sort_dict o)) = json_wf (JObj o).
Proof. by rewrite <- sort_json_JObj, sort_json_wf. Qed.

Lemma sort_dict_finite o : finite_json (JObj (sort_dict o)) = finite_json (JObj o).
Proof. by rewrite <- sort_json_JObj, sort_json_finite. Qed.

(** A dict held in a field: well-formed and sorted. *)
Definition dict_ok (o : dict) : bool := json_wf (JObj o) && bool_decide (sort_dict o = o).

Lemma v_dict_ok v o : v_dict v = Ok o → dict_ok o = true.
Proof.
  destruct v; simpl; try done. destruct (_ && _) eqn:E; [|done]. intros [= <-].
  unfold dict_ok. rewrite sort_dict_wf, sort_dict_idemp by done.
  simpl. rewrite E. by apply bool_decide_eq_true.
Qed.

Lemma v_dict_sort o : dict_ok o = true → v_dict (sort_json (JObj o)) = Ok o.
Proof.
  unfold dict_ok. intros H. split_andb. rewrite sort_json_JObj. rewrite H0. unfold v_dict.
  by rewrite H, H0.
Qed.

(** Reading the list printed from a list of valid items gives the list. *)
Lemma mapR_fmap {A B} (f : B → result A) (g : A → B) l :
  Forall (λ x, f (g x) = Ok x) l → mapR f (g <$> l) = Ok l.
Proof. induction 1 as [|x l Hx _ IH]; [done|]. csimpl. by rewrite Hx, IH. Qed.

Lemma c_nonempty_idemp s s' : c_nonempty s = Ok s' → c_nonempty s' = Ok s'.
Proof.
  unfold c_nonempty. destruct (str_nonempty _) eqn:E; [|done]. intros [= <-].
  by rewrite strip_whitespace_idemp, E.
Qed.

Lemma c_sha256_inv s s' : c_sha256 s = Ok s' → s' = s ∧ is_lower_sha256 s = true.
Proof. unfold c_sha256. destruct (is_lower_sha256 s); naive_solver. Qed.

Lemma c_sha256_ok s : is_lower_sha256 s = true → c_sha256 s = Ok s.
Proof. unfold c_sha256. by intros ->. Qed.

(** A hexadecimal digest is not changed by stripping and is not blank. *)
Lemma lower_hex_nonempty n s : (0 < n)%nat → is_lower_hex n s = true → c_nonempty s = Ok s.
Proof.
  unfold is_lower_hex, c_nonempty. intros Hn H. split_andb. apply Nat.eqb_eq in H.
  assert (strip_whitespace s = s) as -> by (by apply (strip_id _ is_lower_hex_char); [apply lower_hex_not_ws|]).
  destruct s; [simpl in H; lia|done].
Qed.

Lemma field_default_get {A} o k v (d : A) (f : json → result A) :
  nodup_keys o = true → jget o k = Some v → field_default (sort_dict o) k d f = f (sort_json v).
Proof. intros H1 H2. rewrite field_default_sort by done. by rewrite H2. Qed.

Lemma field_get {A} o k v (f : json → result A) :
  nodup_keys o = true → jget o k = Some v → field (sort_dict o) k f = f (sort_json v).
Proof. intros H1 H2. rewrite field_sort by done. by rewrite H2. Qed.

Lemma v_model_get names o :
  only_keys names o = true → v_model names (sort_json (JObj o)) = Ok (sort_dict o).
Proof. intros H. by rewrite v_model_sort, H. Qed.

(** [read_fields] steps a validator over the sorted items of a literal dict. *)
Ltac read_field :=
  first
  [ erewrite field_default_get by reflexivity
  | erewrite field_get by reflexivity
  | rewrite schema_version_sort by reflexivity
  | rewrite v_model_get by reflexivity ];
  cbn [sort_json mbind result_bind v_str v_int v_float v_opt].
Ltac read_fields := repeat read_field.
