(* ===== verification/Usage.v ===== *)
(** * Budget limits and usage (src/guildmind/domain/models.py)

    [BudgetUsage] and [BudgetLimits] with their validation, their JSON form, the caps
    check [exceeded_limits], and the field-wise arithmetic the budget authority, the
    replay and the event store share: [_add_usage], [_subtract_usage], [_usage_at_most]
    and [sum_usage].  The integer dimensions are exact; the four measured dimensions are
    binary64 and are added in the order the code adds them. *)

From S2P Require Import Prelude PyStr Float64 Json Datetime Fields.

Local Open Scope Z_scope.

Record BudgetUsage := {
  uncached_input_tokens : Z;
  cache_read_input_tokens : Z;
  cache_write_input_tokens : Z;
  output_tokens : Z;
  reasoning_tokens : Z;
  model_calls : Z;
  model_retries : Z;
  tool_calls : Z;
  tool_cpu_seconds : float64;
  container_wall_seconds : float64;
  elapsed_seconds : float64;
  estimated_cost_usd : float64;
}.

#[export] Instance BudgetUsage_eq_dec : EqDecision BudgetUsage.
Proof. solve_decision. Defined.

(** [_INT_FIELDS] and [_FLOAT_FIELDS], read off a record. *)
Definition int_fields (u : BudgetUsage) : list Z :=
  [uncached_input_tokens u; cache_read_input_tokens u; cache_write_input_tokens u;
   output_tokens u; reasoning_tokens u; model_calls u; model_retries u; tool_calls u].
Definition float_fields (u : BudgetUsage) : list float64 :=
  [tool_cpu_seconds u; container_wall_seconds u; elapsed_seconds u; estimated_cost_usd u].

(** [BudgetUsage()] *)
Definition empty_usage : BudgetUsage :=
  {| uncached_input_tokens := 0; cache_read_input_tokens := 0; cache_write_input_tokens := 0;
     output_tokens := 0; reasoning_tokens := 0; model_calls := 0; model_retries := 0;
     tool_calls := 0; tool_cpu_seconds := fzero; container_wall_seconds := fzero;
     elapsed_seconds := fzero; estimated_cost_usd := fzero |}.

Definition input_tokens (u : BudgetUsage) : Z :=
  uncached_input_tokens u + cache_read_input_tokens u + cache_write_input_tokens u.
Definition total_tokens (u : BudgetUsage) : Z := input_tokens u + output_tokens u.

(** The declared constraints and [_reasoning_is_output_subset].  ([nonneg_valid] adds
    representability, which every Python float has.) *)
Definition usage_valid (u : BudgetUsage) : bool :=
  forallb (Z.leb 0) (int_fields u) && forallb nonneg_valid (float_fields u) &&
  (reasoning_tokens u <=? output_tokens u).

Definition check_usage (u : BudgetUsage) : result BudgetUsage :=
  if usage_valid u then Ok u else invalid "BudgetUsage".

(** [==] on two usages: floats compare by value, so -0.0 equals 0.0. *)
Definition usage_eqb (u v : BudgetUsage) : bool :=
  bool_decide (int_fields u = int_fields v) &&
  forallb (λ p, feqb p.1 p.2) (zip (float_fields u) (float_fields v)).

Definition zip_usage (fi : Z → Z → Z) (ff : float64 → float64 → float64) (u v : BudgetUsage)
    : BudgetUsage :=
  {| uncached_input_tokens := fi (uncached_input_tokens u) (uncached_input_tokens v);
     cache_read_input_tokens := fi (cache_read_input_tokens u) (cache_read_input_tokens v);
     cache_write_input_tokens := fi (cache_write_input_tokens u) (cache_write_input_tokens v);
     output_tokens := fi (output_tokens u) (output_tokens v);
     reasoning_tokens := fi (reasoning_tokens u) (reasoning_tokens v);
     model_calls := fi (model_calls u) (model_calls v);
     model_retries := fi (model_retries u) (model_retries v);
     tool_calls := fi (tool_calls u) (tool_calls v);
     tool_cpu_seconds := ff (tool_cpu_seconds u) (tool_cpu_seconds v);
     container_wall_seconds := ff (container_wall_seconds u) (container_wall_seconds v);
     elapsed_seconds := ff (elapsed_seconds u) (elapsed_seconds v);
     estimated_cost_usd := ff (estimated_cost_usd u) (estimated_cost_usd v) |}.

Definition plus_usage : BudgetUsage → BudgetUsage → BudgetUsage := zip_usage Z.add fadd.
Definition minus_usage : BudgetUsage → BudgetUsage → BudgetUsage := zip_usage Z.sub fsub.

(** [_add_usage] *)
Definition _add_usage (left right : BudgetUsage) : result BudgetUsage :=
  check_usage (plus_usage left right).

(** [_subtract_usage]; the replay and the store raise their own exception. *)
Definition _subtract_usage (underflow : string → exn) (left right : BudgetUsage) : result BudgetUsage :=
  let values := minus_usage left right in
  _ ← require (negb (existsb (λ z, z <? 0) (int_fields values) ||
                     existsb (λ f, fltb f fzero) (float_fields values)))
        (underflow "budget reservation reconciliation underflowed");
  check_usage values.

(** [_usage_at_most], [_fits_within], [_usage_is_nondecreasing] *)
Definition _usage_at_most (actual ceiling : BudgetUsage) : bool :=
  forallb (λ p, p.1 <=? p.2) (zip (int_fields actual) (int_fields ceiling)) &&
  forallb (λ p, fleb p.1 p.2) (zip (float_fields actual) (float_fields ceiling)).

(** [sum_usage]: every total starts at the integer 0. *)
Definition sum_usage (values : list BudgetUsage) : result BudgetUsage :=
  check_usage (fold_left plus_usage values empty_usage).

(** ** Limits *)

Record BudgetLimits := {
  max_input_tokens : option Z;
  max_output_tokens : option Z;
  max_total_tokens : option Z;
  max_model_calls : option Z;
  max_model_retries : option Z;
  max_tool_calls : option Z;
  max_tool_cpu_seconds : option float64;
  max_container_wall_seconds : option float64;
  max_elapsed_seconds : option float64;
  max_estimated_cost_usd : option float64;
}.

#[export] Instance BudgetLimits_eq_dec : EqDecision BudgetLimits.
Proof. solve_decision. Defined.

Definition limits_int (l : BudgetLimits) : list (option Z) :=
  [max_input_tokens l; max_output_tokens l; max_total_tokens l; max_model_calls l;
   max_model_retries l; max_tool_calls l].
Definition limits_float (l : BudgetLimits) : list (option float64) :=
  [max_tool_cpu_seconds l; max_container_wall_seconds l; max_elapsed_seconds l;
   max_estimated_cost_usd l].

Definition option_all {A} (f : A → bool) (o : option A) : bool :=
  match o with Some a => f a | None => true end.

Definition limits_valid (l : BudgetLimits) : bool :=
  forallb (option_all (Z.leb 0)) (limits_int l) && forallb (option_all nonneg_valid) (limits_float l).

Definition check_limits (l : BudgetLimits) : result BudgetLimits :=
  if limits_valid l then Ok l else invalid "BudgetLimits".

Definition opt_feqb (a b : option float64) : bool :=
  match a, b with Some f, Some g => feqb f g | None, None => true | _, _ => false end.
Definition limits_eqb (l m : BudgetLimits) : bool :=
  bool_decide (limits_int l = limits_int m) &&
  forallb (λ p, opt_feqb p.1 p.2) (zip (limits_float l) (limits_float m)).

(** [limit is not None and actual > limit] *)
Definition over (actual : Z) (limit : option Z) : bool :=
  match limit with Some l => l <? actual | None => false end.
Definition over_float (actual : float64) (limit : option float64) : bool :=
  match limit with Some l => fltb l actual | None => false end.

(** [usage.exceeded_limits(limits)] *)
Definition exceeded_limits (u : BudgetUsage) (l : BudgetLimits) : list string :=
  let checks : list (string * bool) :=
    [("input_tokens", over (input_tokens u) (max_input_tokens l));
     ("output_tokens", over (output_tokens u) (max_output_tokens l));
     ("total_tokens", over (total_tokens u) (max_total_tokens l));
     ("model_calls", over (model_calls u) (max_model_calls l));
     ("model_retries", over (model_retries u) (max_model_retries l));
     ("tool_calls", over (tool_calls u) (max_tool_calls l));
     ("tool_cpu_seconds", over_float (tool_cpu_seconds u) (max_tool_cpu_seconds l));
     ("container_wall_seconds", over_float (container_wall_seconds u) (max_container_wall_seconds l));
     ("elapsed_seconds", over_float (elapsed_seconds u) (max_elapsed_seconds l));
     ("estimated_cost_usd", over_float (estimated_cost_usd u) (max_estimated_cost_usd l))] in
  (List.filter snd checks).*1.

(** ** JSON form *)

Definition dump_usage (u : BudgetUsage) : json :=
  JObj [("schema_version", JStr "0.1");
        ("uncached_input_tokens", JInt (uncached_input_tokens u));
        ("cache_read_input_tokens", JInt (cache_read_input_tokens u));
        ("cache_write_input_tokens", JInt (cache_write_input_tokens u));
        ("output_tokens", JInt (output_tokens u));
        ("reasoning_tokens", JInt (reasoning_tokens u));
        ("model_calls", JInt (model_calls u));
        ("model_retries", JInt (model_retries u));
        ("tool_calls", JInt (tool_calls u));
        ("tool_cpu_seconds", JFloat (tool_cpu_seconds u));
        ("container_wall_seconds", JFloat (container_wall_seconds u));
        ("elapsed_seconds", JFloat (elapsed_seconds u));
        ("estimated_cost_usd", JFloat (estimated_cost_usd u))].

Definition usage_keys : list string :=
  ["schema_version"; "uncached_input_tokens"; "cache_read_input_tokens"; "cache_write_input_tokens";
   "output_tokens"; "reasoning_tokens"; "model_calls"; "model_retries"; "tool_calls";
   "tool_cpu_seconds"; "container_wall_seconds"; "elapsed_seconds"; "estimated_cost_usd"].

(** [BudgetUsage.model_validate(value)] *)
Definition validate_usage (v : json) : result BudgetUsage :=
  o ← v_model usage_keys v;
  _ ← schema_version o;
  ui ← field_default o "uncached_input_tokens" 0 v_int;
  cr ← field_default o "cache_read_input_tokens" 0 v_int;
  cw ← field_default o "cache_write_input_tokens" 0 v_int;
  ot ← field_default o "output_tokens" 0 v_int;
  rt ← field_default o "reasoning_tokens" 0 v_int;
  mc ← field_default o "model_calls" 0 v_int;
  mr ← field_default o "model_retries" 0 v_int;
  tc ← field_default o "tool_calls" 0 v_int;
  tcpu ← field_default o "tool_cpu_seconds" fzero v_float;
  cws ← field_default o "container_wall_seconds" fzero v_float;
  es ← field_default o "elapsed_seconds" fzero v_float;
  cost ← field_default o "estimated_cost_usd" fzero v_float;
  check_usage {| uncached_input_tokens := ui; cache_read_input_tokens := cr;
    cache_write_input_tokens := cw; output_tokens := ot; reasoning_tokens := rt;
    model_calls := mc; model_retries := mr; tool_calls := tc; tool_cpu_seconds := tcpu;
    container_wall_seconds := cws; elapsed_seconds := es; estimated_cost_usd := cost |}.

Definition dump_opt {A} (f : A → json) (o : option A) : json :=
  match o with Some a => f a | None => JNull end.

Definition dump_limits (l : BudgetLimits) : json :=
  JObj [("schema_version", JStr "0.1");
        ("max_input_tokens", dump_opt JInt (max_input_tokens l));
        ("max_output_tokens", dump_opt JInt (max_output_tokens l));
        ("max_total_tokens", dump_opt JInt (max_total_tokens l));
        ("max_model_calls", dump_opt JInt (max_model_calls l));
        ("max_model_retries", dump_opt JInt (max_model_retries l));
        ("max_tool_calls", dump_opt JInt (max_tool_calls l));
        ("max_tool_cpu_seconds", dump_opt JFloat (max_tool_cpu_seconds l));
        ("max_container_wall_seconds", dump_opt JFloat (max_container_wall_seconds l));
        ("max_elapsed_seconds", dump_opt JFloat (max_elapsed_seconds l));
        ("max_estimated_cost_usd", dump_opt JFloat (max_estimated_cost_usd l))].

Definition limits_keys : list string :=
  ["schema_version"; "max_input_tokens"; "max_output_tokens"; "max_total_tokens";
   "max_model_calls"; "max_model_retries"; "max_tool_calls"; "max_tool_cpu_seconds";
   "max_container_wall_seconds"; "max_elapsed_seconds"; "max_estimated_cost_usd"].

(** [BudgetLimits.model_validate(value)] *)
Definition validate_limits (v : json) : result BudgetLimits :=
  o ← v_model limits_keys v;
  _ ← schema_version o;
  a ← field_default o "max_input_tokens" None (v_opt v_int);
  b ← field_default o "max_output_tokens" None (v_opt v_int);
  c ← field_default o "max_total_tokens" None (v_opt v_int);
  d ← field_default o "max_model_calls" None (v_opt v_int);
  e ← field_default o "max_model_retries" None (v_opt v_int);
  f ← field_default o "max_tool_calls" None (v_opt v_int);
  g ← field_default o "max_tool_cpu_seconds" None (v_opt v_float);
  h ← field_default o "max_container_wall_seconds" None (v_opt v_float);
  i ← field_default o "max_elapsed_seconds" None (v_opt v_float);
  j ← field_default o "max_estimated_cost_usd" None (v_opt v_float);
  check_limits {| max_input_tokens := a; max_output_tokens := b; max_total_tokens := c;
    max_model_calls := d; max_model_retries := e; max_tool_calls := f;
    max_tool_cpu_seconds := g; max_container_wall_seconds := h; max_elapsed_seconds := i;
    max_estimated_cost_usd := j |}.

(** ** Validation *)

Lemma usage_valid_spec u : usage_valid u = true ↔
  Forall (Z.le 0) (int_fields u) ∧ Forall (λ f, nonneg_valid f = true) (float_fields u) ∧
  reasoning_tokens u <= output_tokens u.
Proof.
  unfold usage_valid. rewrite !andb_true_iff, !forallb_forall, !Forall_forall, Z.leb_le.
  setoid_rewrite <- list_elem_of_In. setoid_rewrite Z.leb_le. tauto.
Qed.

Lemma check_usage_Ok u u' : check_usage u = Ok u' ↔ u' = u ∧ usage_valid u = true.
Proof. unfold check_usage. destruct (usage_valid u); naive_solver. Qed.

Lemma check_limits_Ok l l' : check_limits l = Ok l' ↔ l' = l ∧ limits_valid l = true.
Proof. unfold check_limits. destruct (limits_valid l); naive_solver. Qed.

Lemma validate_usage_valid v u : validate_usage v = Ok u → usage_valid u = true.
Proof. unfold validate_usage. intros H. inv_ok. by apply check_usage_Ok in H as [-> ?]. Qed.

Lemma validate_limits_valid v l : validate_limits v = Ok l → limits_valid l = true.
Proof. unfold validate_limits. intros H. inv_ok. by apply check_limits_Ok in H as [-> ?]. Qed.

Lemma validate_dump_usage u :
  usage_valid u = true → validate_usage (sort_json (dump_usage u)) = Ok u.
Proof.
  intros Hv. unfold validate_usage, dump_usage. read_fields.
  apply check_usage_Ok. by destruct u.
Qed.

Lemma sort_dump_opt {A} (f : A → json) o :
  (∀ a, sort_json (f a) = f a) → sort_json (dump_opt f o) = dump_opt f o.
Proof. destruct o; simpl; auto. Qed.

Lemma v_opt_int o : v_opt v_int (dump_opt JInt o) = Ok o.
Proof. by destruct o. Qed.
Lemma v_opt_float o : v_opt v_float (dump_opt JFloat o) = Ok o.
Proof. by destruct o. Qed.

Lemma validate_dump_limits l :
  limits_valid l = true → validate_limits (sort_json (dump_limits l)) = Ok l.
Proof.
  intros Hv. unfold validate_limits, dump_limits.
  repeat (read_field; rewrite ?sort_dump_opt by done; rewrite ?v_opt_int, ?v_opt_float;
    cbn [mbind result_bind]).
  apply check_limits_Ok. by destruct l.
Qed.

Lemma nonneg_valid_finite f : nonneg_valid f = true → is_finite f = true ∧ float_valid f = true.
Proof. unfold nonneg_valid. intros. split_andb. by destruct f. Qed.

Ltac float_facts :=
  repeat match goal with
  | H : Forall _ (_ :: _) |- _ => apply Forall_cons in H as [? ?]
  | H : Forall _ [] |- _ => clear H
  | H : nonneg_valid _ = true |- _ => apply nonneg_valid_finite in H as [? ?]
  end.

Lemma dump_usage_wf u :
  usage_valid u = true → json_wf (dump_usage u) = true ∧ finite_json (dump_usage u) = true.
Proof.
  rewrite usage_valid_spec. unfold int_fields, float_fields. intros (_ & Hf & _). float_facts.
  cbn [json_wf finite_json dump_usage forallb snd].
  repeat match goal with H : _ = true |- _ => rewrite H; clear H end. done.
Qed.

Lemma dump_limits_wf l :
  limits_valid l = true → json_wf (dump_limits l) = true ∧ finite_json (dump_limits l) = true.
Proof.
  unfold limits_valid. intros [_ Hf]%andb_true_iff. unfold limits_float in Hf.
  cbn [forallb] in Hf. split_andb.
  assert (∀ o, option_all nonneg_valid o = true →
    json_wf (dump_opt JFloat o) = true ∧ finite_json (dump_opt JFloat o) = true) as Hopt.
  { intros [f|]; simpl; [|done]. intros [? ?]%nonneg_valid_finite. done. }
  assert (∀ o, json_wf (dump_opt JInt o) = true ∧ finite_json (dump_opt JInt o) = true) as Hint.
  { by intros []. }
  cbn [json_wf finite_json dump_limits forallb snd].
  repeat match goal with
  | H : option_all nonneg_valid ?o = true |- _ => destruct (Hopt o H) as [? ?]; clear H
  end.
  split; rewrite !andb_true_iff; repeat split; try done; try apply Hint.
Qed.

(** ** Comparison *)

Lemma usage_eqb_refl u : usage_valid u = true → usage_eqb u u = true.
Proof.
  rewrite usage_valid_spec. unfold usage_eqb, float_fields. intros (_ & Hf & _). float_facts.
  rewrite bool_decide_true by done. cbn [zip_with forallb fst snd]. rewrite !feqb_refl by done. done.
Qed.

Lemma usage_eqb_sym u v : usage_eqb u v = usage_eqb v u.
Proof.
  unfold usage_eqb, float_fields. cbn [zip_with forallb fst snd].
  rewrite (feqb_sym (tool_cpu_seconds u)), (feqb_sym (container_wall_seconds u)),
    (feqb_sym (elapsed_seconds u)), (feqb_sym (estimated_cost_usd u)).
  f_equal. apply bool_decide_ext. split; congruence.
Qed.

Lemma usage_eqb_trans u v w : usage_eqb u v = true → usage_eqb v w = true → usage_eqb u w = true.
Proof.
  unfold usage_eqb, float_fields. cbn [zip_with forallb fst snd]. intros. split_andb.
  rewrite bool_decide_true by congruence.
  repeat (erewrite feqb_trans by eassumption). done.
Qed.

Lemma usage_at_most_refl u : usage_valid u = true → _usage_at_most u u = true.
Proof.
  rewrite usage_valid_spec. unfold _usage_at_most, float_fields. intros (_ & Hf & _). float_facts.
  cbn [int_fields zip_with forallb fst snd]. rewrite !Z.leb_refl, !fleb_refl by done. done.
Qed.

Lemma usage_at_most_trans u v w :
  _usage_at_most u v = true → _usage_at_most v w = true → _usage_at_most u w = true.
Proof.
  unfold _usage_at_most, int_fields, float_fields. cbn [zip_with forallb fst snd]. intros. split_andb.
  repeat (erewrite fleb_trans by eassumption).
  repeat match goal with H : (_ <=? _) = true |- _ => apply Z.leb_le in H end.
  rewrite !andb_true_r, !andb_true_iff, !Z.leb_le. lia.
Qed.

(** Usages equal for the code are interchangeable in the comparisons the code makes. *)
Lemma usage_eqb_at_most u v : usage_eqb u v = true → _usage_at_most u v = true.
Proof.
  unfold usage_eqb, _usage_at_most, float_fields, feqb. cbn [zip_with forallb fst snd].
  intros. split_andb. unfold int_fields in *. injection H as -> -> -> -> -> -> -> ->.
  cbn [zip_with forallb fst snd]. rewrite !Z.leb_refl. cbn [andb].
  by repeat match goal with H : fleb _ _ = true |- _ => rewrite H; clear H end.
Qed.

(** ** Arithmetic *)

(** The sum of two usages is exact on the integer dimensions. *)
Lemma add_usage_ints u v w :
  _add_usage u v = Ok w → int_fields w = zip_with Z.add (int_fields u) (int_fields v).
Proof. intros H. by apply check_usage_Ok in H as [-> _]. Qed.

Lemma add_usage_valid u v w : _add_usage u v = Ok w → usage_valid w = true.
Proof. intros H. by apply check_usage_Ok in H as [-> ?]. Qed.

(** Adding never decreases a dimension, rounding included. *)
Lemma add_usage_nondecreasing u v w :
  usage_valid u = true → usage_valid v = true → _add_usage u v = Ok w → _usage_at_most u w = true.
Proof.
  intros Hu Hv [-> _]%check_usage_Ok. rewrite usage_valid_spec in Hu, Hv.
  destruct Hu as (Hui & Huf & _), Hv as (Hvi & Hvf & _).
  unfold _usage_at_most, int_fields, float_fields in *.
  repeat match goal with H : Forall _ (_ :: _) |- _ => apply Forall_cons in H as [? ?] end.
  unfold plus_usage, zip_usage. cbn [uncached_input_tokens cache_read_input_tokens
    cache_write_input_tokens output_tokens reasoning_tokens model_calls model_retries tool_calls
    tool_cpu_seconds container_wall_seconds elapsed_seconds estimated_cost_usd zip_with forallb fst snd].
  rewrite !fadd_nondecreasing by done. rewrite !andb_true_r, !andb_true_iff, !Z.leb_le. lia.
Qed.

(** With integer dimensions only, a sum of valid usages is valid. *)
Lemma add_usage_total u v :
  usage_valid u = true → usage_valid v = true →
  forallb is_finite (float_fields (plus_usage u v)) = true →
  _add_usage u v = Ok (plus_usage u v).
Proof.
  intros Hu Hv Hf. apply check_usage_Ok. split; [done|].
  rewrite usage_valid_spec in Hu, Hv |- *.
  destruct Hu as (Hui & Huf & Hur), Hv as (Hvi & Hvf & Hvr).
  unfold int_fields, float_fields in *.
  repeat match goal with H : Forall _ (_ :: _) |- _ => apply Forall_cons in H as [? ?] end.
  cbn [forallb] in Hf. split_andb.
  unfold plus_usage, zip_usage in *. cbn [uncached_input_tokens cache_read_input_tokens
    cache_write_input_tokens output_tokens reasoning_tokens model_calls model_retries tool_calls
    tool_cpu_seconds container_wall_seconds elapsed_seconds estimated_cost_usd] in *.
  split_and!; [repeat (constructor; [lia|]); constructor| |lia].
  repeat (constructor; [by apply fadd_nonneg|]). constructor.
Qed.

(** [0 + u] is [u], up to the sign of a zero. *)
Lemma plus_empty_eqb u : usage_valid u = true → usage_eqb (plus_usage empty_usage u) u = true.
Proof.
  rewrite usage_valid_spec. unfold usage_eqb, float_fields. intros (_ & Hf & _).
  repeat match goal with H : Forall _ (_ :: _) |- _ => apply Forall_cons in H as [? ?] end.
  rewrite bool_decide_true by (by destruct u).
  assert (∀ f, nonneg_valid f = true → feqb (fadd fzero f) f = true) as Hz.
  { intros f Hf'. rewrite fadd_zero_l by done. unfold nonneg_valid in Hf'. split_andb.
    destruct f as [s m| |]; try done. unfold feqb, fleb. rewrite (nonneg_signed s m) by done.
    unfold signed. by rewrite Z.leb_refl. }
  unfold plus_usage, zip_usage, empty_usage. cbn [tool_cpu_seconds container_wall_seconds
    elapsed_seconds estimated_cost_usd zip_with forallb fst snd].
  by rewrite !Hz by done.
Qed.

Lemma plus_empty_valid u : usage_valid u = true → usage_valid (plus_usage empty_usage u) = true.
Proof.
  rewrite !usage_valid_spec. intros (Hi & Hf & Hr).
  assert (∀ f, nonneg_valid f = true → nonneg_valid (fadd fzero f) = true) as Hz.
  { intros f Hf'. rewrite fadd_zero_l by done. unfold nonneg_valid in *. split_andb.
    destruct f as [s m| |]; try done. }
  unfold int_fields, float_fields in *.
  repeat match goal with H : Forall _ (_ :: _) |- _ => apply Forall_cons in H as [? ?] end.
  unfold plus_usage, zip_usage, empty_usage. cbn [uncached_input_tokens cache_read_input_tokens
    cache_write_input_tokens output_tokens reasoning_tokens model_calls model_retries tool_calls
    tool_cpu_seconds container_wall_seconds elapsed_seconds estimated_cost_usd].
  split_and!; [by repeat constructor| |done].
  repeat (constructor; [by apply Hz|]). constructor.
Qed.

(** Up to [==], adding to nothing and taking everything back do what one expects. *)
Lemma feqb_zero_add f g :
  feqb f fzero = true → nonneg_valid f = true → nonneg_valid g = true → feqb (fadd f g) g = true.
Proof.
  intros Hz Hf Hg. assert (∃ s, f = Finite s 0) as [s ->].
  { unfold nonneg_valid in Hf. split_andb. destruct f as [s m| |]; try done. exists s. f_equal.
    unfold feqb, fleb, fzero in Hz. rewrite (nonneg_signed s m) in Hz by done. split_andb.
    unfold signed in *. apply Z.leb_le in H1. simpl in H1. lia. }
  unfold nonneg_valid in Hg. split_andb. destruct g as [s' m| |]; try done.
  pose proof (nonneg_signed s' m H) as E. unfold fadd. rewrite E.
  replace (signed s 0) with 0 by (by destruct s). rewrite Z.add_0_l.
  destruct (Z.eqb_spec (Z.of_N m) 0) as [Hm|Hm].
  { replace m with 0%N by lia. by destruct (s && s'), s'. }
  replace (Z.of_N m <? 0) with false by lia. rewrite Zabs2N.id, of_ratio_abs by done.
  unfold feqb, fleb. rewrite E. unfold signed. by rewrite Z.leb_refl.
Qed.

Lemma feqb_sub_zero f g :
  feqb f g = true → nonneg_valid f = true → nonneg_valid g = true → feqb (fsub f g) fzero = true.
Proof.
  unfold feqb, fleb. destruct f as [s m| |], g as [s' m'| |]; try done.
  intros H _ _. split_andb. unfold fsub, fneg, fadd.
  apply Z.leb_le in H, H0.
  replace (signed s m + signed (negb s') m') with 0.
  - by destruct (s && negb s').
  - unfold signed in *. destruct s, s'; simpl; lia.
Qed.

Lemma add_empty_eqb u v w :
  usage_valid u = true → usage_valid v = true → usage_eqb u empty_usage = true →
  _add_usage u v = Ok w → usage_eqb w v = true.
Proof.
  rewrite !usage_valid_spec. unfold float_fields. intros (_ & Hu & _) (_ & Hv & _) He [-> _]%check_usage_Ok.
  repeat match goal with H : Forall _ (_ :: _) |- _ => apply Forall_cons in H as [? ?] end.
  unfold usage_eqb, float_fields in *. cbn [zip_with forallb fst snd] in *. split_andb.
  match goal with H : int_fields _ = int_fields _ |- _ => unfold int_fields in H; injection H as ???????? end.
  unfold plus_usage, zip_usage. cbn [tool_cpu_seconds container_wall_seconds elapsed_seconds estimated_cost_usd].
  rewrite !feqb_zero_add by done. rewrite bool_decide_true; [done|]. unfold int_fields.
  cbn [uncached_input_tokens cache_read_input_tokens cache_write_input_tokens output_tokens
    reasoning_tokens model_calls model_retries tool_calls]. repeat f_equal; lia.
Qed.

Lemma subtract_eqb e u v w :
  usage_valid u = true → usage_valid v = true →
  usage_eqb u v = true → _subtract_usage e u v = Ok w → usage_eqb w empty_usage = true.
Proof.
  rewrite !usage_valid_spec. unfold float_fields. intros (_ & Hu & _) (_ & Hv & _) He H.
  repeat match goal with H : Forall _ (_ :: _) |- _ => apply Forall_cons in H as [? ?] end. unfold _subtract_usage in H. inv_ok. apply check_usage_Ok in H as [-> _].
  unfold usage_eqb, float_fields in *. cbn [zip_with forallb fst snd] in *. split_andb.
  match goal with H : int_fields _ = int_fields _ |- _ => unfold int_fields in H; injection H as ???????? end.
  unfold minus_usage, zip_usage. cbn [tool_cpu_seconds container_wall_seconds elapsed_seconds estimated_cost_usd].
  unfold empty_usage at 2 3 4 5. cbn [tool_cpu_seconds container_wall_seconds elapsed_seconds estimated_cost_usd].
  rewrite !feqb_sub_zero by done. rewrite bool_decide_true; [done|]. unfold int_fields, empty_usage.
  cbn [uncached_input_tokens cache_read_input_tokens cache_write_input_tokens output_tokens
    reasoning_tokens model_calls model_retries tool_calls]. repeat f_equal; lia.
Qed.

Lemma subtract_usage_valid e u v w : _subtract_usage e u v = Ok w → usage_valid w = true.
Proof. unfold _subtract_usage. intros H. inv_ok. by apply check_usage_Ok in H as [-> ?]. Qed.

(** Giving back exactly what was reserved leaves an empty reservation. *)
Lemma subtract_usage_self e u :
  usage_valid u = true →
  ∃ w, _subtract_usage e u u = Ok w ∧ usage_eqb w empty_usage = true.
Proof.
  rewrite usage_valid_spec. unfold float_fields. intros (_ & Hf & _).
  repeat match goal with H : Forall _ (_ :: _) |- _ => apply Forall_cons in H as [? ?] end.
  assert (∀ f, nonneg_valid f = true → ∃ s, fsub f f = Finite s 0) as Hz.
  { intros f Hf'. unfold nonneg_valid in Hf'. split_andb. destruct f as [s m| |]; try done.
    unfold fsub, fneg, fadd.
    replace (signed s m + signed (negb s) m)%Z with 0%Z by (unfold signed; destruct s; simpl; lia).
    eauto. }
  exists (minus_usage u u). unfold _subtract_usage, minus_usage, zip_usage.
  destruct (Hz (tool_cpu_seconds u)) as [s1 E1]; [done|].
  destruct (Hz (container_wall_seconds u)) as [s2 E2]; [done|].
  destruct (Hz (elapsed_seconds u)) as [s3 E3]; [done|].
  destruct (Hz (estimated_cost_usd u)) as [s4 E4]; [done|].
  rewrite !Z.sub_diag, E1, E2, E3, E4. destruct s1, s2, s3, s4; done.
Qed.

(** ** Caps *)

Lemma exceeded_limits_nil u l : exceeded_limits u l = [] →
  over (input_tokens u) (max_input_tokens l) = false ∧
  over (output_tokens u) (max_output_tokens l) = false ∧
  over (total_tokens u) (max_total_tokens l) = false ∧
  over (model_calls u) (max_model_calls l) = false ∧
  over (model_retries u) (max_model_retries l) = false ∧
  over (tool_calls u) (max_tool_calls l) = false ∧
  over_float (tool_cpu_seconds u) (max_tool_cpu_seconds l) = false ∧
  over_float (container_wall_seconds u) (max_container_wall_seconds l) = false ∧
  over_float (elapsed_seconds u) (max_elapsed_seconds l) = false ∧
  over_float (estimated_cost_usd u) (max_estimated_cost_usd l) = false.
Proof.
  unfold exceeded_limits. cbn [List.filter snd].
  repeat (match goal with |- context [if ?b then _ else _] => destruct b eqn:?; [done|] end).
  done.
Qed.

Lemma over_mono a b l : a <= b → over b l = false → over a l = false.
Proof. destruct l; simpl; [|done]. rewrite !Z.ltb_ge. lia. Qed.

(** The integer caps a usage stays within: what the limits mean for the token and call
    dimensions. *)
Definition within_int (u : BudgetUsage) (l : BudgetLimits) : bool :=
  negb (over (input_tokens u) (max_input_tokens l)) &&
  negb (over (output_tokens u) (max_output_tokens l)) &&
  negb (over (total_tokens u) (max_total_tokens l)) &&
  negb (over (model_calls u) (max_model_calls l)) &&
  negb (over (model_retries u) (max_model_retries l)) &&
  negb (over (tool_calls u) (max_tool_calls l)).

Lemma exceeded_within_int u l : exceeded_limits u l = [] → within_int u l = true.
Proof.
  intros H. apply exceeded_limits_nil in H as (H1 & H2 & H3 & H4 & H5 & H6 & _).
  unfold within_int. by rewrite H1, H2, H3, H4, H5, H6.
Qed.

(** Less usage on every integer dimension stays within. *)
Definition ints_le (u v : BudgetUsage) : Prop := Forall2 Z.le (int_fields u) (int_fields v).

Lemma within_int_mono u v l : ints_le u v → within_int v l = true → within_int u l = true.
Proof.
  unfold ints_le, int_fields, within_int. intros H Hw.
  repeat match goal with H : Forall2 _ (_ :: _) (_ :: _) |- _ => apply Forall2_cons in H as [? H] end.
  split_andb. unfold total_tokens, input_tokens in *.
  repeat match goal with H : over _ _ = false |- _ => eapply over_mono in H; [rewrite H|]; [|lia] end.
  done.
Qed.
