(* ===== verification/Budget.v ===== *)
(** * The budget authority (src/guildmind/runtime/budget.py)

    [BudgetAuthority] as a record, its three mutating methods as functions into the error
    monad (every check precedes the mutation, so a method that raises leaves the
    authority as it was), and the step relation of a sequence of calls.

    What is shown: on every integer dimension with a cap, usage plus open reservations
    never passes the cap in a reachable authority, however calls interleave and whatever
    the reservations are; reservation identifiers stay unique; used amounts never
    decrease; and each method does exactly what it says on each branch. *)

From S2P Require Import Prelude PyStr Float64 Json Datetime Fields Usage.

Local Open Scope Z_scope.

Record BudgetAuthority := {
  limits : BudgetLimits;
  _used : BudgetUsage;
  _reservations : list (string * BudgetUsage);  (* in insertion order *)
}.

(** [BudgetAuthority(limits)] *)
Definition new_authority (l : BudgetLimits) : BudgetAuthority :=
  {| limits := l; _used := empty_usage; _reservations := [] |}.

(** [authority.reserved] *)
Definition reserved (a : BudgetAuthority) : result BudgetUsage := sum_usage (_reservations a).*2.

Definition lookup_reservation (id : string) (rs : list (string * BudgetUsage)) : option BudgetUsage :=
  snd <$> List.find (λ p, str_eqb id p.1) rs.
Definition del_reservation (id : string) (rs : list (string * BudgetUsage)) :=
  List.filter (λ p, negb (str_eqb id p.1)) rs.

(** [authority.reservation_ids] *)
Definition reservation_ids (a : BudgetAuthority) : list string :=
  merge_sort String.le (_reservations a).*1.

(** [authority.reserve(reservation_id, maximum)] *)
Definition reserve (id : string) (maximum : BudgetUsage) (a : BudgetAuthority) : result BudgetAuthority :=
  _ ← require (str_nonempty id) (ValueError "reservation_id cannot be empty");
  _ ← require (negb (existsb (str_eqb id) (_reservations a).*1)) (ValueError "reservation already exists");
  r ← reserved a;
  projected ← sum_usage [_used a; r; maximum];
  match exceeded_limits projected (limits a) with
  | [] => Ok {| limits := limits a; _used := _used a;
                _reservations := _reservations a ++ [(id, maximum)] |}
  | exceeded => Err (BudgetExceededError exceeded)
  end.

(** [authority.reconcile(reservation_id, actual)] *)
Definition reconcile (id : string) (actual : BudgetUsage) (a : BudgetAuthority) : result BudgetAuthority :=
  maximum ← of_option (KeyError "unknown reservation") (lookup_reservation id (_reservations a));
  _ ← require (_usage_at_most actual maximum) (ReservationExceededError id);
  used ← sum_usage [_used a; actual];
  Ok {| limits := limits a; _used := used; _reservations := del_reservation id (_reservations a) |}.

(** [authority.release(reservation_id)] *)
Definition release (id : string) (a : BudgetAuthority) : result BudgetAuthority :=
  _ ← of_option (KeyError "unknown reservation") (lookup_reservation id (_reservations a));
  Ok {| limits := limits a; _used := _used a; _reservations := del_reservation id (_reservations a) |}.

(** A call that returns; a call that raises changes nothing. *)
Inductive budget_step : BudgetAuthority → BudgetAuthority → Prop :=
  | step_reserve id maximum a a' :
      usage_valid maximum = true → reserve id maximum a = Ok a' → budget_step a a'
  | step_reconcile id actual a a' :
      usage_valid actual = true → reconcile id actual a = Ok a' → budget_step a a'
  | step_release id a a' : release id a = Ok a' → budget_step a a'.

Definition budget_reachable (l : BudgetLimits) (a : BudgetAuthority) : Prop :=
  rtc budget_step (new_authority l) a.

(** ** The capped integer dimensions *)

Definition capped_dims : list ((BudgetUsage → Z) * (BudgetLimits → option Z)) :=
  [(input_tokens, max_input_tokens); (output_tokens, max_output_tokens);
   (total_tokens, max_total_tokens); (model_calls, max_model_calls);
   (model_retries, max_model_retries); (tool_calls, max_tool_calls)].

Definition sumZ (l : list Z) : Z := fold_right Z.add 0 l.

(** What the authority has committed on a dimension: used plus every open reservation. *)
Definition committed (dim : BudgetUsage → Z) (a : BudgetAuthority) : Z :=
  dim (_used a) + sumZ (dim <$> (_reservations a).*2).

Definition additive (dim : BudgetUsage → Z) : Prop :=
  dim empty_usage = 0 ∧ (∀ u v, dim (plus_usage u v) = dim u + dim v) ∧
  (∀ u, usage_valid u = true → 0 <= dim u) ∧
  (∀ u v, _usage_at_most u v = true → dim u <= dim v).

Lemma usage_at_most_ints u v : _usage_at_most u v = true → ints_le u v.
Proof.
  unfold _usage_at_most, ints_le, int_fields. cbn [zip_with forallb fst snd]. intros. split_andb.
  repeat match goal with H : (_ <=? _) = true |- _ => apply Z.leb_le in H end.
  repeat (constructor; [done|]). constructor.
Qed.

Lemma capped_dims_additive : Forall (λ p, additive p.1) capped_dims.
Proof.
  assert (∀ dim : BudgetUsage → Z, dim empty_usage = 0 →
    (∀ u v, dim (plus_usage u v) = dim u + dim v) →
    (∀ u, Forall (Z.le 0) (int_fields u) → 0 <= dim u) →
    (∀ u v, ints_le u v → dim u <= dim v) → additive dim) as Hadd.
  { intros dim H1 H2 H3 H4. split_and!; try done.
    - intros u (Hu & _)%usage_valid_spec. auto.
    - intros u v H%usage_at_most_ints. auto. }
  assert (∀ u, Forall (Z.le 0) (int_fields u) ↔
    (0 <= uncached_input_tokens u ∧ 0 <= cache_read_input_tokens u ∧ 0 <= cache_write_input_tokens u
     ∧ 0 <= output_tokens u ∧ 0 <= reasoning_tokens u ∧ 0 <= model_calls u ∧ 0 <= model_retries u
     ∧ 0 <= tool_calls u)) as HF.
  { intros u. unfold int_fields. rewrite !Forall_cons. naive_solver. }
  assert (∀ u v, ints_le u v →
    (uncached_input_tokens u <= uncached_input_tokens v ∧ cache_read_input_tokens u <= cache_read_input_tokens v
     ∧ cache_write_input_tokens u <= cache_write_input_tokens v ∧ output_tokens u <= output_tokens v
     ∧ model_calls u <= model_calls v ∧ model_retries u <= model_retries v ∧ tool_calls u <= tool_calls v)) as HL.
  { intros u v H. unfold ints_le, int_fields in H.
    repeat match goal with H : Forall2 _ (_ :: _) (_ :: _) |- _ => apply Forall2_cons in H as [? H] end.
    done. }
  unfold capped_dims. repeat apply Forall_cons_2; [..|constructor]; cbn [fst];
    (apply Hadd; unfold total_tokens, input_tokens;
    [ done
    | intros u v; unfold plus_usage, zip_usage; cbn [uncached_input_tokens cache_read_input_tokens
        cache_write_input_tokens output_tokens model_calls model_retries tool_calls]; lia
    | intros u H; apply HF in H; lia
    | intros u v H; apply HL in H; lia ]).
Qed.

Lemma fold_plus_additive dim l u :
  additive dim → dim (fold_left plus_usage l u) = dim u + sumZ (dim <$> l).
Proof.
  intros (_ & Hadd & _). revert u. induction l as [|v l IH]; intros u; csimpl; [lia|].
  rewrite IH, Hadd. lia.
Qed.

Lemma sum_usage_dim dim l u : additive dim → sum_usage l = Ok u → dim u = sumZ (dim <$> l).
Proof.
  intros Hd [-> _]%check_usage_Ok. rewrite fold_plus_additive by done.
  destruct Hd as (-> & _). lia.
Qed.

Lemma sumZ_app l1 l2 : sumZ (l1 ++ l2) = sumZ l1 + sumZ l2.
Proof. induction l1; simpl; lia. Qed.

(** Removing a reservation takes its amount out of the sum. *)
Lemma sum_del_reservation dim id m rs :
  NoDup rs.*1 → lookup_reservation id rs = Some m →
  sumZ (dim <$> rs.*2) = dim m + sumZ (dim <$> (del_reservation id rs).*2).
Proof.
  unfold lookup_reservation, del_reservation. intros Hnd Hl.
  induction rs as [|[k v] rs IH]; csimpl; [done|].
  simpl in Hl. csimpl in Hnd. apply NoDup_cons in Hnd as [Hni Hnd].
  destruct (str_eqb id k) eqn:E; cbn [negb].
  - simpl in Hl. injection Hl as <-. f_equal. unfold str_eqb in E. apply String.eqb_eq in E as ->.
    do 3 f_equal. clear IH Hnd. induction rs as [|[k' v'] rs IH]; simpl; [done|].
    csimpl in Hni. apply not_elem_of_cons in Hni as [Hne Hni].
    destruct (str_eqb k k') eqn:E; simpl; [by apply String.eqb_eq in E|]. f_equal. auto.
  - specialize (IH Hnd Hl).
    assert (∀ a b, a = dim m + b → dim v + a = dim m + (dim v + b)) as Hl3 by (intros; lia).
    exact (Hl3 _ _ IH).
Qed.

Lemma existsb_str_false id l : existsb (str_eqb id) l = false → id ∉ l.
Proof.
  intros H Hin. apply not_true_iff_false in H. apply H, existsb_exists. exists id.
  split; [by apply list_elem_of_In|]. apply String.eqb_refl.
Qed.

Lemma del_reservation_sub id rs : del_reservation id rs `sublist_of` rs.
Proof.
  unfold del_reservation. induction rs as [|p rs IH]; simpl; [done|].
  destruct (str_eqb id p.1); simpl; by constructor.
Qed.

Lemma lookup_reservation_In id rs m : lookup_reservation id rs = Some m → ∃ k, (k, m) ∈ rs ∧ k = id.
Proof.
  unfold lookup_reservation. destruct (List.find _ rs) as [[k v]|] eqn:E; simpl; [|done].
  intros [= ->]. apply List.find_some in E as [Hin E]. exists k.
  split; [by apply list_elem_of_In|]. unfold str_eqb in E. by apply String.eqb_eq in E.
Qed.

(** ** The invariant *)

Record budget_inv (l : BudgetLimits) (a : BudgetAuthority) : Prop := {
  inv_limits : limits a = l;
  inv_used : usage_valid (_used a) = true;
  inv_reservations : Forall (λ p, usage_valid p.2 = true) (_reservations a);
  inv_ids : NoDup (_reservations a).*1;
  inv_capped : Forall (λ p, over (p.1 (_used a) + sumZ (p.1 <$> (_reservations a).*2)) (p.2 l) = false)
                 capped_dims;
}.

Lemma limits_valid_zero l : limits_valid l = true → Forall (λ p, over 0 (p.2 l) = false) capped_dims.
Proof.
  unfold limits_valid, limits_int. intros [H _]%andb_true_iff. cbn [forallb] in H. split_andb.
  assert (∀ o, option_all (Z.leb 0) o = true → over 0 o = false) as Ho.
  { intros [z|]; simpl; [|done]. rewrite Z.leb_le, Z.ltb_ge. done. }
  unfold capped_dims. repeat (constructor; [by apply Ho|]). constructor.
Qed.

Lemma exceeded_capped u l : exceeded_limits u l = [] → Forall (λ p, over (p.1 u) (p.2 l) = false) capped_dims.
Proof.
  intros (H1 & H2 & H3 & H4 & H5 & H6 & _)%exceeded_limits_nil. unfold capped_dims.
  repeat (constructor; [done|]). constructor.
Qed.

Lemma new_authority_inv l : limits_valid l = true → budget_inv l (new_authority l).
Proof.
  intros Hl. split; cbn [limits _used _reservations new_authority]; [done|done|constructor|constructor|].
  pose proof (limits_valid_zero l Hl) as H0. pose proof capped_dims_additive as Ha.
  rewrite Forall_forall in *. intros p Hp. specialize (H0 p Hp). specialize (Ha p Hp).
  simpl. destruct Ha as (-> & _). done.
Qed.

Lemma reserve_inv l id m a a' :
  budget_inv l a → usage_valid m = true → reserve id m a = Ok a' → budget_inv l a'.
Proof.
  intros [Hl Hu Hr Hids Hc] Hm. unfold reserve. intros H. inv_ok.
  destruct (exceeded_limits _ _) eqn:Ex; [|done]. inv_ok.
  apply exceeded_capped in Ex. apply negb_true_iff, existsb_str_false in H1.
  split; cbn [limits _used _reservations]; try done.
  - apply Forall_app. split; [done|]. by repeat constructor.
  - rewrite fmap_app. apply NoDup_app. split_and!; [done| |apply NoDup_singleton].
    intros k Hk ->%list_elem_of_singleton. done.
  - rewrite Forall_forall in Ex |- *. intros p Hp. specialize (Ex p Hp).
    pose proof capped_dims_additive as Ha. rewrite Forall_forall in Ha. specialize (Ha p Hp).
    rewrite (sum_usage_dim p.1 _ _ Ha H3) in Ex. csimpl in Ex.
    unfold reserved in H2. rewrite (sum_usage_dim p.1 _ _ Ha H2) in Ex.
    rewrite !fmap_app, sumZ_app. csimpl.
    replace (_ + (_ + _)) with (p.1 (_used a) + (sumZ (p.1 <$> (_reservations a).*2) + (p.1 m + 0))) by lia.
    done.
Qed.

Lemma remove_inv l id m a used' :
  budget_inv l a → lookup_reservation id (_reservations a) = Some m → usage_valid used' = true →
  Forall (λ p, p.1 used' <= p.1 (_used a) + p.1 m) capped_dims →
  budget_inv l {| limits := limits a; _used := used';
                  _reservations := del_reservation id (_reservations a) |}.
Proof.
  intros [Hl Hu Hr Hids Hc] Hm Hv Hle. split; cbn [limits _used _reservations]; try done.
  - rewrite Forall_forall in Hr |- *. intros p Hp. apply Hr.
    eapply sublist_subseteq; [apply del_reservation_sub|done].
  - eapply sublist_NoDup; [done|]. apply fmap_sublist, del_reservation_sub.
  - rewrite Forall_forall in *. intros p Hp. specialize (Hc p Hp). specialize (Hle p Hp).
    rewrite (sum_del_reservation p.1 id m) in Hc by done.
    eapply over_mono; [|done]. lia.
Qed.

(** What a reconciliation adds to a dimension is at most what was reserved. *)
Lemma reconcile_inv l id u a a' :
  budget_inv l a → usage_valid u = true → reconcile id u a = Ok a' → budget_inv l a'.
Proof.
  intros Hinv Hu. unfold reconcile. intros H. inv_ok.
  destruct (lookup_reservation id _) as [m|] eqn:Hm; [|done]. simpl in *. inv_ok. simplify_eq.
  eapply remove_inv; [done|done|by apply check_usage_Ok in H2 as [-> ?]|].
  pose proof capped_dims_additive as Ha. rewrite Forall_forall in *. intros p Hp.
  specialize (Ha p Hp). rewrite (sum_usage_dim p.1 _ _ Ha H2). csimpl.
  destruct Ha as (_ & _ & _ & Hmono). specialize (Hmono _ _ H1). lia.
Qed.

Lemma release_inv l id a a' : budget_inv l a → release id a = Ok a' → budget_inv l a'.
Proof.
  intros Hinv. unfold release. intros H. inv_ok.
  destruct (lookup_reservation id _) as [m|] eqn:Hm; [|done]. simpl in *. inv_ok. simplify_eq.
  eapply remove_inv; [done|done|by destruct Hinv|].
  pose proof capped_dims_additive as Ha. rewrite Forall_forall in *. intros p Hp.
  destruct (Ha p Hp) as (_ & _ & Hpos & _).
  destruct Hinv as [_ _ Hr _ _]. apply lookup_reservation_In in Hm as (k & Hk & _).
  rewrite Forall_forall in Hr. specialize (Hr _ Hk). simpl in Hr. specialize (Hpos _ Hr). lia.
Qed.

Lemma budget_step_inv l a a' : budget_inv l a → budget_step a a' → budget_inv l a'.
Proof.
  intros Hi Hs. destruct Hs; [by eapply reserve_inv|by eapply reconcile_inv|by eapply release_inv].
Qed.

Lemma budget_reachable_inv l a : limits_valid l = true → budget_reachable l a → budget_inv l a.
Proof.
  intros Hl Hr. eapply (rtc_ind_r (λ b, budget_inv l b)); [by apply new_authority_inv| |exact Hr].
  intros b c _ Hs Hb. by eapply budget_step_inv.
Qed.

(** C5. However reservations, reconciliations and releases interleave, the used amount
    plus every open reservation never passes a cap on an integer dimension (input, output
    and total tokens, model calls and retries, tool calls), and reservation identifiers
    stay unique. *)
Theorem budget_caps_hold l a :
  limits_valid l = true → budget_reachable l a →
  Forall (λ p, over (committed p.1 a) (p.2 l) = false) capped_dims ∧ NoDup (reservation_ids a).
Proof.
  intros Hl Hr. destruct (budget_reachable_inv l a Hl Hr) as [_ _ _ Hn Hc]. split; [done|].
  unfold reservation_ids. by rewrite merge_sort_Permutation.
Qed.

Definition one_call_limits : BudgetLimits :=
  {| max_input_tokens := Some 100; max_output_tokens := None; max_total_tokens := None;
     max_model_calls := Some 1; max_model_retries := None; max_tool_calls := None;
     max_tool_cpu_seconds := None; max_container_wall_seconds := None;
     max_elapsed_seconds := None; max_estimated_cost_usd := None |}.

Definition one_call (tokens : Z) : BudgetUsage :=
  {| uncached_input_tokens := tokens; cache_read_input_tokens := 0; cache_write_input_tokens := 0;
     output_tokens := 0; reasoning_tokens := 0; model_calls := 1; model_retries := 0;
     tool_calls := 0; tool_cpu_seconds := fzero; container_wall_seconds := fzero;
     elapsed_seconds := fzero; estimated_cost_usd := fzero |}.

Lemma budget_caps_hold_witness :
  limits_valid one_call_limits = true ∧
  ∃ a, reserve "m1" (one_call 70) (new_authority one_call_limits) = Ok a ∧
    budget_reachable one_call_limits a ∧
    reserve "m2" (one_call 1) a = Err (BudgetExceededError ["model_calls"]) ∧
    Forall (λ p, over (committed p.1 a) (p.2 one_call_limits) = false) capped_dims.
Proof.
  split; [reflexivity|].
  destruct (reserve "m1" (one_call 70) (new_authority one_call_limits)) as [a|] eqn:E; [|by vm_compute in E].
  assert (budget_reachable one_call_limits a) as Hr.
  { apply rtc_once. apply (step_reserve "m1" (one_call 70)); [reflexivity|exact E]. }
  exists a. split; [reflexivity|]. split; [exact Hr|]. split.
  - vm_compute in E. injection E as <-. reflexivity.
  - exact (proj1 (budget_caps_hold one_call_limits a eq_refl Hr)).
Defined.

(** ** The life of one reservation *)

Lemma lookup_reservation_snoc id m rs :
  id ∉ rs.*1 → lookup_reservation id (rs ++ [(id, m)]) = Some m.
Proof.
  unfold lookup_reservation. induction rs as [|[k v] rs IH]; simpl; intros Hni.
  - unfold str_eqb. by rewrite String.eqb_refl.
  - csimpl in Hni. apply not_elem_of_cons in Hni as [Hne Hni].
    destruct (str_eqb id k) eqn:E; [by apply String.eqb_eq in E|]. auto.
Qed.

Lemma del_reservation_fresh id rs : id ∉ rs.*1 → del_reservation id rs = rs.
Proof.
  induction rs as [|[k v] rs IH]; simpl; intros Hni; [done|].
  csimpl in Hni. apply not_elem_of_cons in Hni as [Hne Hni].
  destruct (str_eqb id k) eqn:E; simpl; [by apply String.eqb_eq in E|]. f_equal. auto.
Qed.

Lemma del_reservation_snoc id m rs : id ∉ rs.*1 → del_reservation id (rs ++ [(id, m)]) = rs.
Proof.
  intros Hni. unfold del_reservation. rewrite List.filter_app. cbn [List.filter fst].
  unfold str_eqb at 2. rewrite String.eqb_refl. cbn [negb]. rewrite app_nil_r.
  by apply del_reservation_fresh.
Qed.

Lemma reserve_Ok id m a a' : reserve id m a = Ok a' →
  (id ∉ (_reservations a).*1) ∧
  a' = {| limits := limits a; _used := _used a; _reservations := _reservations a ++ [(id, m)] |}.
Proof.
  unfold reserve. intros H. inv_ok. apply negb_true_iff, existsb_str_false in H1.
  destruct (exceeded_limits _ _); [|done]. by inv_ok.
Qed.

(** A reservation is undone by its release; reconciled instead, it leaves the other
    reservations as they were and adds to the used amount exactly the actual usage on
    every integer dimension; and a reported usage above the reservation is refused. *)
Theorem reservation_life id m u a a1 :
  reserve id m a = Ok a1 →
  release id a1 = Ok a ∧
  (_usage_at_most u m = false → reconcile id u a1 = Err (ReservationExceededError id)) ∧
  (∀ a2, reconcile id u a1 = Ok a2 →
    _reservations a2 = _reservations a ∧ limits a2 = limits a ∧
    int_fields (_used a2) = zip_with Z.add (int_fields (_used a)) (int_fields u)).
Proof.
  intros [Hni ->]%reserve_Ok. unfold release, reconcile. cbn [limits _used _reservations].
  rewrite lookup_reservation_snoc, del_reservation_snoc by done. cbn [of_option mbind result_bind].
  split_and!; [by destruct a| |].
  - intros ->. done.
  - intros a2 H. inv_ok. cbn [limits _used _reservations].
    apply check_usage_Ok in H1 as [-> _]. cbn [fold_left]. done.
Qed.

Lemma reservation_life_witness :
  ∃ a1, reserve "m1" (one_call 70) (new_authority one_call_limits) = Ok a1 ∧
    release "m1" a1 = Ok (new_authority one_call_limits) ∧
    reconcile "m1" (one_call 71) a1 = Err (ReservationExceededError "m1") ∧
    ∃ a2, reconcile "m1" (one_call 20) a1 = Ok a2 ∧ input_tokens (_used a2) = 20.
Proof.
  destruct (reserve "m1" (one_call 70) (new_authority one_call_limits)) as [a1|] eqn:E; [|by vm_compute in E].
  exists a1. destruct (reservation_life "m1" (one_call 70) (one_call 71) _ _ E) as (H1 & H2 & _).
  split; [reflexivity|]. split; [exact H1|]. split; [exact (H2 eq_refl)|].
  vm_compute in E. injection E as <-. eexists. split; [reflexivity|reflexivity].
Defined.

(** Used amounts never decrease, on any dimension and with rounding. *)
Lemma sum_two_nondecreasing u v w :
  usage_valid u = true → usage_valid v = true → sum_usage [u; v] = Ok w → _usage_at_most u w = true.
Proof.
  intros Hu Hv [-> Hw]%check_usage_Ok. cbn [fold_left].
  pose proof (plus_empty_eqb u Hu) as E. rewrite usage_eqb_sym in E. apply usage_eqb_at_most in E.
  eapply usage_at_most_trans; [exact E|].
  apply (add_usage_nondecreasing _ v); [|done|apply check_usage_Ok; by split].
  by apply plus_empty_valid.
Qed.

Lemma budget_inv_used l a : budget_inv l a → usage_valid (_used a) = true.
Proof. by destruct 1. Qed.

(** Along any run of the authority the used amounts never decrease, on the measured
    (floating point) dimensions too. *)
Theorem budget_used_nondecreasing l a b :
  limits_valid l = true → budget_reachable l a → rtc budget_step a b →
  _usage_at_most (_used a) (_used b) = true.
Proof.
  intros Hl Ha Hab. apply (budget_reachable_inv l a Hl) in Ha.
  assert (budget_inv l b ∧ _usage_at_most (_used a) (_used b) = true) as [_ H]; [|done].
  refine (rtc_ind_r (λ b, budget_inv l b ∧ _usage_at_most (_used a) (_used b) = true) a _ _ b Hab).
  { split; [done|]. by eapply usage_at_most_refl, budget_inv_used. }
  intros c d _ Hs [Hc Hle]. split; [by eapply budget_step_inv|].
  eapply usage_at_most_trans; [exact Hle|]. apply budget_inv_used in Hc.
  destruct Hs as [id m c d Hm Hs|id u c d Hu Hs|id c d Hs].
  - apply reserve_Ok in Hs as [_ ->]. by apply usage_at_most_refl.
  - unfold reconcile in Hs. inv_ok. simpl. by apply (sum_two_nondecreasing _ u).
  - unfold release in Hs. inv_ok. by apply usage_at_most_refl.
Qed.

Lemma budget_used_nondecreasing_witness :
  ∃ a b, reserve "m1" (one_call 70) (new_authority one_call_limits) = Ok a ∧
    reconcile "m1" (one_call 20) a = Ok b ∧ _usage_at_most (_used a) (_used b) = true.
Proof.
  destruct (reserve "m1" (one_call 70) (new_authority one_call_limits)) as [a|] eqn:E; [|by vm_compute in E].
  destruct (reconcile "m1" (one_call 20) a) as [b|] eqn:F; [|vm_compute in E; injection E as <-; by vm_compute in F].
  exists a, b. split_and!; [done|done|].
  apply (budget_used_nondecreasing one_call_limits); [reflexivity| |].
  - apply rtc_once. apply (step_reserve "m1" (one_call 70)); [reflexivity|exact E].
  - apply rtc_once. apply (step_reconcile "m1" (one_call 20)); [reflexivity|exact F].
Defined.
