(* ===== verification/Models.v ===== *)
(** * The domain records (src/guildmind/domain/models.py)

    [ArtifactRef], [RunManifest] with its lifecycle, [EventRecord] with its hash link,
    [EvaluationResult], [TaskSpec] and [ExperimentSpec].  For each: the record, [check_X]
    (the declared constraints, which normalise, then the model validator), [dump_X] (the
    JSON form of [model_dump]) and [validate_X] ([model_validate] of a JSON value).
    Strings appear as the code holds them, after stripping.

    What is shown: a checked record is a fixed point of its check, and validating the
    JSON form of a checked record gives the record back; the lifecycle rules; and that an
    event carries the hash of its payload. *)

From S2P Require Import Prelude PyStr Float64 Json Hash Datetime Fields Usage.

Local Open Scope Z_scope.

(** ** More constraints *)

(** [NonNegativeInt], [PositiveInt], [NonNegativeFloat] *)
Definition c_nonneg (z : Z) : result Z := if 0 <=? z then Ok z else invalid "greater_than_equal".
Definition c_positive (z : Z) : result Z := if 0 <? z then Ok z else invalid "greater_than".
Definition c_nonneg_float (f : float64) : result float64 :=
  if nonneg_valid f then Ok f else invalid "greater_than_equal".
(** [dict[str, JsonValue]] *)
Definition c_dict (o : dict) : result dict :=
  if json_wf (JObj o) then Ok (sort_dict o) else invalid "dict_type".
(** [UtcDatetime], for a value that is already in UTC *)
Definition c_datetime (d : datetime) : result datetime :=
  if datetime_valid d then Ok d else invalid "datetime_type".

(** A [ValueError] raised in a validator becomes a [ValidationError]. *)
Definition in_validator (e : exn) : exn :=
  if is_value_error e then ValidationError "value_error" else e.

Definition unique (l : list string) : bool := bool_decide (NoDup l).

(** A constraint that keeps what it has accepted. *)
Definition settles {A} (c : A → result A) : Prop := ∀ a b, c a = Ok b → c b = Ok b.

Lemma settles_nonempty : settles c_nonempty.
Proof. intros a b. apply c_nonempty_idemp. Qed.
Lemma settles_guard {A} (p : A → bool) (msg : string) :
  settles (λ a, if p a then Ok a else invalid msg).
Proof. intros a b. simpl. destruct (p a) eqn:E; [|done]. intros [= <-]. by rewrite E. Qed.
Lemma settles_sha256 : settles c_sha256.
Proof. apply settles_guard. Qed.
Lemma settles_sha256_digest : settles c_sha256_digest.
Proof. apply settles_guard. Qed.
Lemma settles_nonneg : settles c_nonneg.
Proof. apply settles_guard. Qed.
Lemma settles_positive : settles c_positive.
Proof. apply settles_guard. Qed.
Lemma settles_nonneg_float : settles c_nonneg_float.
Proof. apply settles_guard. Qed.
Lemma settles_datetime : settles c_datetime.
Proof. apply settles_guard. Qed.
Lemma settles_dict : settles c_dict.
Proof.
  intros a b. unfold c_dict. destruct (json_wf (JObj a)) eqn:E; [|done]. intros [= <-].
  by rewrite sort_dict_wf, E, sort_dict_idemp.
Qed.
Lemma settles_opt {A} (c : A → result A) : settles c → settles (c_opt c).
Proof.
  intros Hc [a|] b; simpl; intros H; inv_ok; subst; [|done]. simpl. by erewrite Hc by eassumption.
Qed.
Lemma settles_mapR {A} (c : A → result A) : settles c → settles (mapR c).
Proof.
  intros Hc a. induction a as [|x a IH]; intros b H; simpl in H; inv_ok; [done|].
  simpl. erewrite Hc by eassumption. simpl. by erewrite IH by eassumption.
Qed.
Lemma settles_usage : settles check_usage.
Proof. apply settles_guard. Qed.
Lemma settles_limits : settles check_limits.
Proof. apply settles_guard. Qed.

Create HintDb settle.
#[export] Hint Resolve settles_nonempty settles_sha256 settles_sha256_digest settles_nonneg
  settles_positive settles_nonneg_float settles_datetime settles_dict settles_opt settles_mapR
  settles_usage settles_limits : settle.

(** What the constraints have accepted they accept again, unchanged. *)
Ltac settle :=
  repeat match goal with
  | H : ?c ?a = Ok ?b |- _ =>
      tryif constr_eq a b then fail else
        (let P := fresh in assert (settles c) as P by (typeclasses eauto with settle); apply P in H; clear P)
  end.
Ltac settled :=
  repeat match goal with
  | H : ?c ?b = Ok ?b |- context [?c ?b ≫= _] => rewrite H; cbn [mbind result_bind]
  end.

(** ** Reading more field types *)

Definition v_datetime `{PydanticDatetime} (v : json) : result datetime :=
  of_option (ValidationError "datetime_type") (parse_datetime v).

(** A dict field before its constraints. *)
Definition v_raw_dict (v : json) : result dict :=
  match v with JObj o => Ok o | _ => invalid "dict_type" end.

Definition dump_dict (o : dict) : json := JObj o.
Definition dump_strs (l : list string) : json := JArr (JStr <$> l).
Definition dump_datetime (d : datetime) : json := JStr (isoformat d).

(** ** ArtifactRef *)

Record ArtifactRef := {
  media_type : string;
  size_bytes : Z;
  sha256 : string;
  storage_ref : string;
}.

#[export] Instance ArtifactRef_eq_dec : EqDecision ArtifactRef.
Proof. solve_decision. Defined.

Definition check_artifact_ref (a : ArtifactRef) : result ArtifactRef :=
  mt ← c_nonempty (media_type a);
  sz ← c_nonneg (size_bytes a);
  h ← c_sha256 (sha256 a);
  ref ← c_nonempty (storage_ref a);
  Ok {| media_type := mt; size_bytes := sz; sha256 := h; storage_ref := ref |}.

Definition dump_artifact_ref (a : ArtifactRef) : json :=
  JObj [("schema_version", JStr "0.1"); ("media_type", JStr (media_type a));
        ("size_bytes", JInt (size_bytes a)); ("sha256", JStr (sha256 a));
        ("storage_ref", JStr (storage_ref a))].

(** [ArtifactRef.model_validate(value)] *)
Definition validate_artifact_ref (v : json) : result ArtifactRef :=
  o ← v_model ["schema_version"; "media_type"; "size_bytes"; "sha256"; "storage_ref"] v;
  _ ← schema_version o;
  mt ← field o "media_type" v_str;
  sz ← field o "size_bytes" v_int;
  h ← field o "sha256" v_str;
  ref ← field o "storage_ref" v_str;
  check_artifact_ref {| media_type := mt; size_bytes := sz; sha256 := h; storage_ref := ref |}.

Lemma settles_artifact_ref : settles check_artifact_ref.
Proof.
  intros a b. unfold check_artifact_ref. intros H. inv_ok. settle.
  cbn [media_type size_bytes sha256 storage_ref]. by settled.
Qed.
#[export] Hint Resolve settles_artifact_ref : settle.

Lemma validate_dump_artifact_ref a :
  check_artifact_ref a = Ok a → validate_artifact_ref (sort_json (dump_artifact_ref a)) = Ok a.
Proof. intros H. unfold validate_artifact_ref, dump_artifact_ref. read_fields. by destruct a. Qed.

Lemma dump_artifact_ref_wf a :
  json_wf (dump_artifact_ref a) = true ∧ finite_json (dump_artifact_ref a) = true.
Proof. done. Qed.

(** ** RunStatus and RunManifest *)

Inductive RunStatus :=
  | PENDING | RUNNING | SUCCEEDED | FAILED | CANCELLED | TIMED_OUT | BUDGET_EXHAUSTED
  | INFRASTRUCTURE_ERROR.

#[export] Instance RunStatus_eq_dec : EqDecision RunStatus.
Proof. solve_decision. Defined.

Definition status_value (s : RunStatus) : string :=
  match s with
  | PENDING => "pending" | RUNNING => "running" | SUCCEEDED => "succeeded" | FAILED => "failed"
  | CANCELLED => "cancelled" | TIMED_OUT => "timed_out" | BUDGET_EXHAUSTED => "budget_exhausted"
  | INFRASTRUCTURE_ERROR => "infrastructure_error"
  end.

Definition all_statuses : list RunStatus :=
  [PENDING; RUNNING; SUCCEEDED; FAILED; CANCELLED; TIMED_OUT; BUDGET_EXHAUSTED; INFRASTRUCTURE_ERROR].

(** [RunStatus(value)] *)
Definition v_status (v : json) : result RunStatus :=
  match v with
  | JStr s => of_option (ValidationError "enum")
                (List.find (λ st, str_eqb s (status_value st)) all_statuses)
  | _ => invalid "enum"
  end.

Lemma v_status_value s : v_status (JStr (status_value s)) = Ok s.
Proof. by destruct s. Qed.

Definition is_terminal (s : RunStatus) : bool :=
  match s with PENDING | RUNNING => false | _ => true end.

Record RunManifest := {
  m_run_id : string;
  m_experiment_id : string;
  m_task_id : string;
  m_candidate_id : string;
  m_genome_hash : option string;
  m_requested_model : string;
  m_returned_model : option string;
  m_model_parameters : dict;
  m_seed : Z;
  m_environment_digest : string;
  m_code_revision : string;
  m_budget_limits : BudgetLimits;
  m_status : RunStatus;
  m_created_at : datetime;
  m_started_at : option datetime;
  m_finished_at : option datetime;
  m_terminal_reason : option string;
  m_artifacts : gmap string ArtifactRef;
}.

#[export] Instance RunManifest_eq_dec : EqDecision RunManifest.
Proof. solve_decision. Defined.

(** [a is not None and b is not None and a < b] *)
Definition precedes (a b : option datetime) : bool :=
  match a, b with Some a, Some b => dt_ltb a b | _, _ => false end.

(** [RunManifest._validate_lifecycle] *)
Definition _validate_lifecycle (m : RunManifest) : result unit :=
  let started := m_started_at m in
  let finished := m_finished_at m in
  let reason := m_terminal_reason m in
  _ ← require (negb (precedes started (Some (m_created_at m))))
        (ValueError "started_at cannot precede created_at");
  _ ← require (negb (precedes finished (Some (m_created_at m))))
        (ValueError "finished_at cannot precede created_at");
  _ ← require (negb (precedes finished started)) (ValueError "finished_at cannot precede started_at");
  match m_status m with
  | PENDING =>
      _ ← require (negb (present started || present finished))
            (ValueError "pending runs cannot have start or finish timestamps");
      require (negb (present reason)) (ValueError "pending runs cannot have a terminal reason")
  | RUNNING =>
      _ ← require (present started) (ValueError "running runs require started_at");
      require (negb (present finished || present reason)) (ValueError "running runs cannot be terminal")
  | SUCCEEDED =>
      _ ← require (present started && present finished)
            (ValueError "successful runs require start and finish timestamps");
      require (negb (present reason)) (ValueError "successful runs cannot have a terminal reason")
  | _ =>
      _ ← require (present finished) (ValueError "terminal runs require finished_at");
      require (present reason) (ValueError "non-success terminal runs require a terminal reason")
  end.

Definition artifact_ok (a : ArtifactRef) : bool := bool_decide (check_artifact_ref a = Ok a).
(** [dict[str, ArtifactRef]] *)
Definition c_artifacts (m : gmap string ArtifactRef) : result (gmap string ArtifactRef) :=
  if forallb artifact_ok (map_to_list m).*2 then Ok m else invalid "dict_type".

Lemma settles_artifacts : settles c_artifacts.
Proof. apply settles_guard. Qed.
#[export] Hint Resolve settles_artifacts : settle.

Definition check_manifest (m : RunManifest) : result RunManifest :=
  ri ← c_nonempty (m_run_id m);
  ei ← c_nonempty (m_experiment_id m);
  ti ← c_nonempty (m_task_id m);
  ci ← c_nonempty (m_candidate_id m);
  gh ← c_opt c_sha256 (m_genome_hash m);
  rm ← c_nonempty (m_requested_model m);
  rt ← c_opt c_nonempty (m_returned_model m);
  mp ← c_dict (m_model_parameters m);
  sd ← c_nonneg (m_seed m);
  ed ← c_sha256_digest (m_environment_digest m);
  cr ← c_nonempty (m_code_revision m);
  bl ← check_limits (m_budget_limits m);
  ca ← c_datetime (m_created_at m);
  sa ← c_opt c_datetime (m_started_at m);
  fa ← c_opt c_datetime (m_finished_at m);
  tr ← c_opt c_nonempty (m_terminal_reason m);
  ar ← c_artifacts (m_artifacts m);
  let m' := {| m_run_id := ri; m_experiment_id := ei; m_task_id := ti; m_candidate_id := ci;
    m_genome_hash := gh; m_requested_model := rm; m_returned_model := rt;
    m_model_parameters := mp; m_seed := sd; m_environment_digest := ed; m_code_revision := cr;
    m_budget_limits := bl; m_status := m_status m; m_created_at := ca; m_started_at := sa;
    m_finished_at := fa; m_terminal_reason := tr; m_artifacts := ar |} in
  _ ← except in_validator (_validate_lifecycle m');
  Ok m'.

Lemma settles_manifest : settles check_manifest.
Proof.
  intros a b. unfold check_manifest. intros H. inv_ok. settle.
  cbn [m_run_id m_experiment_id m_task_id m_candidate_id m_genome_hash m_requested_model
    m_returned_model m_model_parameters m_seed m_environment_digest m_code_revision
    m_budget_limits m_status m_created_at m_started_at m_finished_at m_terminal_reason m_artifacts].
  settled. match goal with H : _validate_lifecycle _ = _ |- _ => rewrite H end. done.
Qed.

Definition dump_artifacts (m : gmap string ArtifactRef) : json :=
  JObj ((λ p, (p.1, dump_artifact_ref p.2)) <$> map_to_list m).

Definition v_artifact_item (kv : string * json) : result (string * ArtifactRef) :=
  a ← validate_artifact_ref kv.2; Ok (kv.1, a).
Definition v_artifacts (v : json) : result (gmap string ArtifactRef) :=
  match v with
  | JObj o => ps ← mapR v_artifact_item o; Ok (list_to_map ps)
  | _ => invalid "dict_type"
  end.

Lemma mapR_perm {A B} (f : A → result B) l1 l2 r1 :
  l1 ≡ₚ l2 → mapR f l1 = Ok r1 → ∃ r2, mapR f l2 = Ok r2 ∧ r1 ≡ₚ r2.
Proof.
  intros H. revert r1. induction H as [|x l1 l2 H IH|x y l|l1 l2 l3 H1 IH1 H2 IH2]; intros r1 Hr.
  - naive_solver.
  - simpl in *. inv_ok. edestruct IH as (r2 & Hr2 & Hp); [eassumption|]. run_ok.
    eexists. split; [done|]. by rewrite Hp.
  - simpl in *. inv_ok. run_ok. eexists. split; [done|]. constructor.
  - destruct (IH1 _ Hr) as (r2 & Hr2 & Hp). destruct (IH2 _ Hr2) as (r3 & Hr3 & Hp2).
    exists r3. split; [done|]. by rewrite Hp.
Qed.

Lemma artifacts_all_ok m b : c_artifacts m = Ok b →
  Forall (λ p, check_artifact_ref p.2 = Ok p.2) (map_to_list m).
Proof.
  unfold c_artifacts. destruct (forallb _ _) eqn:E; [|done]. intros _.
  rewrite forallb_forall in E. apply Forall_forall. intros [k a] Hin. simpl.
  assert (artifact_ok a = true) as Ha.
  { apply E. apply list_elem_of_In, list_elem_of_fmap. by exists (k, a). }
  by apply bool_decide_eq_true_1 in Ha.
Qed.

Lemma validate_dump_artifacts m :
  c_artifacts m = Ok m → v_artifacts (sort_json (dump_artifacts m)) = Ok m.
Proof.
  intros Hall%artifacts_all_ok. unfold v_artifacts, dump_artifacts. cbn [sort_json].
  rewrite <- list_fmap_compose.
  assert (mapR v_artifact_item ((λ p, (p.1, sort_json (dump_artifact_ref p.2))) <$> map_to_list m)
          = Ok (map_to_list m)) as Hm.
  { apply mapR_fmap. eapply Forall_impl; [exact Hall|]. intros [k a] Ha. unfold v_artifact_item.
    cbn [fst snd] in *. by rewrite validate_dump_artifact_ref. }
  edestruct (mapR_perm v_artifact_item) as (r2 & Hr2 & Hp); [|exact Hm|].
  { symmetry. apply (merge_sort_Permutation key_le). }
  unfold compose. cbn [fst snd]. rewrite Hr2. cbn [mbind result_bind]. f_equal.
  rewrite <- (list_to_map_to_list m). symmetry. apply list_to_map_proper; [|done].
  apply NoDup_fst_map_to_list.
Qed.

Definition manifest_keys : list string :=
  ["schema_version"; "run_id"; "experiment_id"; "task_id"; "candidate_id"; "genome_hash";
   "requested_model"; "returned_model"; "model_parameters"; "seed"; "environment_digest";
   "code_revision"; "budget_limits"; "status"; "created_at"; "started_at"; "finished_at";
   "terminal_reason"; "artifacts"].

Definition dump_manifest (m : RunManifest) : json :=
  JObj [("schema_version", JStr "0.1"); ("run_id", JStr (m_run_id m));
        ("experiment_id", JStr (m_experiment_id m)); ("task_id", JStr (m_task_id m));
        ("candidate_id", JStr (m_candidate_id m)); ("genome_hash", dump_opt JStr (m_genome_hash m));
        ("requested_model", JStr (m_requested_model m));
        ("returned_model", dump_opt JStr (m_returned_model m));
        ("model_parameters", JObj (m_model_parameters m)); ("seed", JInt (m_seed m));
        ("environment_digest", JStr (m_environment_digest m));
        ("code_revision", JStr (m_code_revision m));
        ("budget_limits", dump_limits (m_budget_limits m));
        ("status", JStr (status_value (m_status m)));
        ("created_at", dump_datetime (m_created_at m));
        ("started_at", dump_opt dump_datetime (m_started_at m));
        ("finished_at", dump_opt dump_datetime (m_finished_at m));
        ("terminal_reason", dump_opt JStr (m_terminal_reason m));
        ("artifacts", dump_artifacts (m_artifacts m))].

(** [RunManifest.model_validate(value)] *)
Definition validate_manifest `{PydanticDatetime} (v : json) : result RunManifest :=
  o ← v_model manifest_keys v;
  _ ← schema_version o;
  ri ← field o "run_id" v_str;
  ei ← field o "experiment_id" v_str;
  ti ← field o "task_id" v_str;
  ci ← field o "candidate_id" v_str;
  gh ← field_default o "genome_hash" None (v_opt v_str);
  rm ← field o "requested_model" v_str;
  rt ← field_default o "returned_model" None (v_opt v_str);
  mp ← field_default o "model_parameters" [] v_raw_dict;
  sd ← field o "seed" v_int;
  ed ← field o "environment_digest" v_str;
  cr ← field o "code_revision" v_str;
  bl ← field o "budget_limits" validate_limits;
  st ← field_default o "status" PENDING v_status;
  ca ← field o "created_at" v_datetime;
  sa ← field_default o "started_at" None (v_opt v_datetime);
  fa ← field_default o "finished_at" None (v_opt v_datetime);
  tr ← field_default o "terminal_reason" None (v_opt v_str);
  ar ← field_default o "artifacts" ∅ v_artifacts;
  check_manifest {| m_run_id := ri; m_experiment_id := ei; m_task_id := ti; m_candidate_id := ci;
    m_genome_hash := gh; m_requested_model := rm; m_returned_model := rt;
    m_model_parameters := mp; m_seed := sd; m_environment_digest := ed; m_code_revision := cr;
    m_budget_limits := bl; m_status := st; m_created_at := ca; m_started_at := sa;
    m_finished_at := fa; m_terminal_reason := tr; m_artifacts := ar |}.

Lemma v_opt_dump {A} (f : json → result A) (g : A → json) (o : option A) :
  (∀ a, g a ≠ JNull) → (∀ a, o = Some a → f (g a) = Ok a) → v_opt f (dump_opt g o) = Ok o.
Proof.
  intros Hn Hf. destruct o as [a|]; [|done]. simpl. specialize (Hn a). specialize (Hf a eq_refl).
  unfold v_opt. rewrite Hf. by destruct (g a).
Qed.

Lemma v_opt_str o : v_opt v_str (dump_opt JStr o) = Ok o.
Proof. by apply v_opt_dump. Qed.

Lemma c_datetime_valid d d' : c_datetime d = Ok d' → d' = d ∧ datetime_valid d = true.
Proof. unfold c_datetime. destruct (datetime_valid d); naive_solver. Qed.

Lemma v_dump_datetime `{PydanticDatetime} d :
  c_datetime d = Ok d → v_datetime (dump_datetime d) = Ok d.
Proof.
  intros [_ Hd]%c_datetime_valid. unfold v_datetime, dump_datetime. by rewrite parse_isoformat.
Qed.

Lemma c_opt_Some {A} (c : A → result A) o :
  c_opt c o = Ok o → ∀ a, o = Some a → c a = Ok a.
Proof. intros H a ->. simpl in H. inv_ok. by simplify_eq. Qed.

Lemma v_opt_datetime `{PydanticDatetime} o :
  c_opt c_datetime o = Ok o → v_opt v_datetime (dump_opt dump_datetime o) = Ok o.
Proof.
  intros Hc. apply v_opt_dump; [done|]. intros a Ha. apply v_dump_datetime. by eapply c_opt_Some.
Qed.

(** A dict field of a checked record is in normal form. *)
Lemma c_dict_ok a o : c_dict a = Ok o → dict_ok o = true.
Proof. apply (v_dict_ok (JObj a)). Qed.

Lemma dict_ok_sort o : dict_ok o = true → sort_json (JObj o) = JObj o.
Proof. unfold dict_ok. intros H. split_andb. by rewrite sort_json_JObj, H0. Qed.

Lemma dict_ok_wf o : dict_ok o = true → json_wf (JObj o) = true.
Proof. unfold dict_ok. intros. by split_andb. Qed.

Ltac manifest_fields := cbn [m_run_id m_experiment_id m_task_id m_candidate_id m_genome_hash
  m_requested_model m_returned_model m_model_parameters m_seed m_environment_digest m_code_revision
  m_budget_limits m_status m_created_at m_started_at m_finished_at m_terminal_reason m_artifacts].

(** What a checked manifest satisfies. *)
Lemma check_manifest_inv m m' : check_manifest m = Ok m' →
  dict_ok (m_model_parameters m') = true ∧ limits_valid (m_budget_limits m') = true ∧
  c_datetime (m_created_at m') = Ok (m_created_at m') ∧
  c_opt c_datetime (m_started_at m') = Ok (m_started_at m') ∧
  c_opt c_datetime (m_finished_at m') = Ok (m_finished_at m') ∧
  c_artifacts (m_artifacts m') = Ok (m_artifacts m') ∧
  _validate_lifecycle m' = Ok tt ∧ m_status m' = m_status m.
Proof.
  unfold check_manifest. intros H. inv_ok. manifest_fields.
  repeat match goal with H : c_dict _ = Ok _ |- _ => apply c_dict_ok in H end.
  repeat match goal with H : check_limits _ = Ok _ |- _ => apply check_limits_Ok in H as [-> H] end.
  settle. done.
Qed.

Lemma sort_dump_datetime o : sort_json (dump_opt dump_datetime o) = dump_opt dump_datetime o.
Proof. by apply sort_dump_opt. Qed.
Lemma sort_dump_str o : sort_json (dump_opt JStr o) = dump_opt JStr o.
Proof. by apply sort_dump_opt. Qed.
Lemma v_raw_dict_sort o : dict_ok o = true → v_raw_dict (sort_json (JObj o)) = Ok o.
Proof. intros H. by rewrite dict_ok_sort. Qed.
Lemma sort_json_datetime d : sort_json (dump_datetime d) = dump_datetime d.
Proof. done. Qed.

(** Reads the fields of a dumped record, with the equations of its nested parts. *)
Ltac read_record_step :=
  first
  [ erewrite field_default_get by reflexivity
  | erewrite field_get by reflexivity
  | rewrite schema_version_sort by reflexivity
  | rewrite v_model_get by reflexivity ];
  rewrite ?sort_dump_datetime, ?sort_dump_str, ?sort_json_datetime;
  rewrite ?v_opt_str; cbn [mbind result_bind].

Lemma validate_dump_manifest `{PydanticDatetime} m :
  check_manifest m = Ok m → validate_manifest (sort_json (dump_manifest m)) = Ok m.
Proof.
  intros Hm. destruct (check_manifest_inv m m Hm) as (Hp & Hl & Hc & Hs & Hf & Ha & _).
  apply v_raw_dict_sort in Hp. apply validate_dump_limits in Hl. apply v_dump_datetime in Hc.
  apply v_opt_datetime in Hs, Hf. apply validate_dump_artifacts in Ha.
  unfold validate_manifest, dump_manifest.
  repeat (read_record_step;
    rewrite ?Hp, ?Hl, ?Hc, ?Hs, ?Hf, ?Ha; cbn [mbind result_bind sort_json v_str v_int];
    rewrite ?v_status_value; cbn [mbind result_bind]).
  by destruct m.
Qed.

Lemma dump_artifacts_wf m :
  json_wf (dump_artifacts m) = true ∧ finite_json (dump_artifacts m) = true.
Proof.
  unfold dump_artifacts. cbn [json_wf finite_json]. rewrite !forallb_fmap.
  assert (nodup_keys ((λ p, (p.1, dump_artifact_ref p.2)) <$> map_to_list m) = true) as ->.
  { apply nodup_keys_NoDup. unfold keys. rewrite <- list_fmap_compose. apply NoDup_fst_map_to_list. }
  assert (∀ l : list (string * ArtifactRef), forallb (λ _, true) l = true) as Hall.
  { induction l; simpl; auto. }
  split; [|apply Hall]. apply (Hall (map_to_list m)).
Qed.

Lemma dump_opt_str_wf o :
  json_wf (dump_opt JStr o) = true ∧ finite_json (dump_opt JStr o) = true.
Proof. by destruct o. Qed.
Lemma dump_opt_datetime_wf o :
  json_wf (dump_opt dump_datetime o) = true ∧ finite_json (dump_opt dump_datetime o) = true.
Proof. by destruct o. Qed.

Lemma dump_manifest_wf m :
  check_manifest m = Ok m →
  json_wf (dump_manifest m) = true ∧
  finite_json (dump_manifest m) = finite_json (JObj (m_model_parameters m)).
Proof.
  intros Hm. destruct (check_manifest_inv m m Hm) as (Hp & Hl & _).
  apply dict_ok_wf in Hp. apply dump_limits_wf in Hl as [Hl1 Hl2].
  destruct (dump_artifacts_wf (m_artifacts m)) as [Ha1 Ha2].
  unfold dump_manifest. cbn [json_wf finite_json forallb snd].
  cbn [json_wf] in Hp. rewrite Hp, Hl1, Hl2, Ha1, Ha2.
  rewrite !(proj1 (dump_opt_str_wf _)), !(proj2 (dump_opt_str_wf _)).
  rewrite !(proj1 (dump_opt_datetime_wf _)), !(proj2 (dump_opt_datetime_wf _)).
  cbn [json_wf finite_json dump_datetime andb]. rewrite !andb_true_r. by split.
Qed.

(** ** EventRecord *)

Section events.
Context {hashing : Hashing}.

Record EventRecord := {
  event_id : string;
  ev_run_id : string;
  sequence : Z;
  causal_parent_ids : list string;
  event_type : string;
  monotonic_ns : Z;
  occurred_at : datetime;
  payload : dict;
  payload_sha256 : string;
  previous_event_hash : option string;
}.

#[export] Instance EventRecord_eq_dec : EqDecision EventRecord.
Proof. solve_decision. Defined.

(** [EventRecord._validate_hash_chain] *)
Definition _validate_hash_chain (e : EventRecord) : result unit :=
  _ ← require (negb ((sequence e =? 0) && present (previous_event_hash e)))
        (ValueError "the first event cannot have a previous event hash");
  _ ← require (negb ((0 <? sequence e) && negb (present (previous_event_hash e))))
        (ValueError "events after sequence zero require a previous event hash");
  h ← canonical_sha256 (JObj (payload e));
  require (str_eqb (payload_sha256 e) h)
    (ValueError "payload_sha256 does not match the canonical payload").

(** [_causal_parents_are_unique] *)
Definition c_causal_parents (l : list string) : result (list string) :=
  l ← mapR c_nonempty l;
  if unique l then Ok l else invalid "causal parent IDs must be unique".

Definition check_event (e : EventRecord) : result EventRecord :=
  ei ← c_nonempty (event_id e);
  ri ← c_nonempty (ev_run_id e);
  sq ← c_nonneg (sequence e);
  cp ← c_causal_parents (causal_parent_ids e);
  et ← c_nonempty (event_type e);
  mn ← c_nonneg (monotonic_ns e);
  oa ← c_datetime (occurred_at e);
  pl ← c_dict (payload e);
  ph ← c_sha256 (payload_sha256 e);
  pe ← c_opt c_sha256 (previous_event_hash e);
  let e' := {| event_id := ei; ev_run_id := ri; sequence := sq; causal_parent_ids := cp;
    event_type := et; monotonic_ns := mn; occurred_at := oa; payload := pl;
    payload_sha256 := ph; previous_event_hash := pe |} in
  _ ← except in_validator (_validate_hash_chain e');
  Ok e'.

Definition event_keys : list string :=
  ["schema_version"; "event_version"; "event_id"; "run_id"; "sequence"; "causal_parent_ids";
   "event_type"; "monotonic_ns"; "occurred_at"; "payload"; "payload_sha256"; "previous_event_hash"].

Definition dump_event (e : EventRecord) : json :=
  JObj [("schema_version", JStr "0.1"); ("event_version", JStr "0.1");
        ("event_id", JStr (event_id e)); ("run_id", JStr (ev_run_id e));
        ("sequence", JInt (sequence e)); ("causal_parent_ids", dump_strs (causal_parent_ids e));
        ("event_type", JStr (event_type e)); ("monotonic_ns", JInt (monotonic_ns e));
        ("occurred_at", dump_datetime (occurred_at e)); ("payload", JObj (payload e));
        ("payload_sha256", JStr (payload_sha256 e));
        ("previous_event_hash", dump_opt JStr (previous_event_hash e))].

(** [event.content_hash()] *)
Definition content_hash (e : EventRecord) : result string := canonical_sha256 (dump_event e).

(** [EventRecord.model_validate(value)] *)
Definition validate_event `{PydanticDatetime} (v : json) : result EventRecord :=
  o ← v_model event_keys v;
  _ ← schema_version o;
  _ ← field_default o "event_version" tt (v_literal "0.1");
  ei ← field o "event_id" v_str;
  ri ← field o "run_id" v_str;
  sq ← field o "sequence" v_int;
  cp ← field_default o "causal_parent_ids" [] (v_list v_str);
  et ← field o "event_type" v_str;
  mn ← field o "monotonic_ns" v_int;
  oa ← field o "occurred_at" v_datetime;
  pl ← field_default o "payload" [] v_raw_dict;
  ph ← field o "payload_sha256" v_str;
  pe ← field_default o "previous_event_hash" None (v_opt v_str);
  check_event {| event_id := ei; ev_run_id := ri; sequence := sq; causal_parent_ids := cp;
    event_type := et; monotonic_ns := mn; occurred_at := oa; payload := pl;
    payload_sha256 := ph; previous_event_hash := pe |}.

Ltac event_fields := cbn [event_id ev_run_id sequence causal_parent_ids event_type monotonic_ns
  occurred_at payload payload_sha256 previous_event_hash].

Lemma settles_causal_parents : settles c_causal_parents.
Proof.
  intros a b. unfold c_causal_parents. intros H. inv_ok. destruct (unique _) eqn:E; [|done].
  inv_ok. settle. settled. by rewrite E.
Qed.
#[local] Hint Resolve settles_causal_parents : settle.

Lemma settles_event : settles check_event.
Proof.
  intros a b. unfold check_event. intros H. inv_ok. settle. event_fields.
  settled. match goal with H : _validate_hash_chain _ = _ |- _ => rewrite H end. done.
Qed.

(** What a checked event satisfies. *)
Lemma check_event_inv e e' : check_event e = Ok e' →
  dict_ok (payload e') = true ∧ c_datetime (occurred_at e') = Ok (occurred_at e') ∧
  c_causal_parents (causal_parent_ids e') = Ok (causal_parent_ids e') ∧
  0 <= sequence e' ∧ 0 <= monotonic_ns e' ∧ _validate_hash_chain e' = Ok tt.
Proof.
  unfold check_event. intros H. inv_ok. event_fields.
  repeat match goal with H : c_dict _ = Ok _ |- _ => apply c_dict_ok in H end.
  assert (∀ x y, c_nonneg x = Ok y → 0 <= y) as Hn.
  { unfold c_nonneg. intros x y. destruct (0 <=? x) eqn:E; [|done]. intros [= <-]. by apply Z.leb_le. }
  repeat match goal with H : c_nonneg _ = Ok _ |- _ => apply Hn in H end.
  settle. done.
Qed.

(** A checked event carries the hash of its payload, whose floats are finite. *)
Lemma check_event_payload e e' : check_event e = Ok e' →
  canonical_sha256 (JObj (payload e')) = Ok (payload_sha256 e') ∧
  finite_json (JObj (payload e')) = true.
Proof.
  intros (_ & _ & _ & _ & _ & H)%check_event_inv. unfold _validate_hash_chain in H. inv_ok.
  apply String.eqb_eq in H. rewrite H. split; [done|].
  unfold canonical_sha256 in H2. inv_ok. unfold canonical_json, _json_compatible in H3. inv_ok.
  by destruct (finite_json _).
Qed.

Lemma sort_dump_strs l : sort_json (dump_strs l) = dump_strs l.
Proof. unfold dump_strs. cbn [sort_json]. f_equal. rewrite <- list_fmap_compose. by apply list_fmap_ext. Qed.
Lemma v_list_str l : v_list v_str (dump_strs l) = Ok l.
Proof. apply mapR_fmap. by apply Forall_true. Qed.
Lemma dump_strs_wf l : json_wf (dump_strs l) = true ∧ finite_json (dump_strs l) = true.
Proof. unfold dump_strs. cbn [json_wf finite_json]. induction l; done. Qed.

Lemma validate_dump_event `{PydanticDatetime} e :
  check_event e = Ok e → validate_event (sort_json (dump_event e)) = Ok e.
Proof.
  intros He. destruct (check_event_inv e e He) as (Hp & Hd & _).
  apply v_raw_dict_sort in Hp. apply v_dump_datetime in Hd.
  unfold validate_event, dump_event.
  repeat (read_record_step;
    rewrite ?Hp, ?Hd, ?sort_dump_strs, ?v_list_str; cbn [mbind result_bind sort_json v_str v_int v_literal require]).
  by destruct e.
Qed.

Lemma dump_event_wf e : check_event e = Ok e →
  json_wf (dump_event e) = true ∧ finite_json (dump_event e) = true.
Proof.
  intros He. destruct (check_event_inv e e He) as (Hp & _).
  destruct (check_event_payload e e He) as [_ Hf]. apply dict_ok_wf in Hp.
  unfold dump_event. cbn [json_wf finite_json forallb snd]. cbn [json_wf finite_json] in Hp, Hf.
  rewrite Hp, Hf, (proj1 (dump_strs_wf _)), (proj2 (dump_strs_wf _)),
    (proj1 (dump_opt_str_wf _)), (proj2 (dump_opt_str_wf _)). done.
Qed.

Lemma content_hash_ok e : check_event e = Ok e →
  ∃ h, content_hash e = Ok h ∧ is_lower_sha256 h = true.
Proof.
  intros He. destruct (dump_event_wf e He) as [_ Hf]. unfold content_hash.
  rewrite canonical_sha256_ok by done. eexists. split; [done|]. apply sha256_bytes_hex.
Qed.

End events.
