(* ===== verification/Specs.v ===== *)
(** * Evaluation results, tasks and experiments (src/guildmind/domain/models.py)

    [EvaluationResult], [TaskSpec] and [ExperimentSpec], in the manner of Models.v.  What
    is shown: round trips through the JSON form, and what an accepted evaluation says
    about the run it evaluates. *)

From S2P Require Import Prelude PyStr Float64 Json Hash Datetime Fields Usage Models.

Local Open Scope Z_scope.

(** ** EvaluationResult *)

Inductive EvaluationOutcome := Passed | Failed | Error | NotRun.

#[export] Instance EvaluationOutcome_eq_dec : EqDecision EvaluationOutcome.
Proof. solve_decision. Defined.

Definition outcome_value (o : EvaluationOutcome) : string :=
  match o with Passed => "passed" | Failed => "failed" | Error => "error" | NotRun => "not_run" end.

Definition v_outcome (v : json) : result EvaluationOutcome :=
  match v with
  | JStr s => of_option (ValidationError "literal_error")
                (List.find (λ o, str_eqb s (outcome_value o)) [Passed; Failed; Error; NotRun])
  | _ => invalid "literal_error"
  end.

Lemma v_outcome_value o : v_outcome (JStr (outcome_value o)) = Ok o.
Proof. by destruct o. Qed.

Record EvaluationResult := {
  evaluation_id : string;
  er_run_id : string;
  er_run_status : RunStatus;
  evaluator_version : string;
  task_hash : string;
  patch_hash : option string;
  outcome : EvaluationOutcome;
  score : option float64;
  er_result : dict;
  result_sha256 : string;
  evidence : list ArtifactRef;
  evaluated_at : datetime;
  signature : option string;
}.

#[export] Instance EvaluationResult_eq_dec : EqDecision EvaluationResult.
Proof. solve_decision. Defined.

(** [compatible_statuses] *)
Definition compatible_statuses (o : EvaluationOutcome) : list RunStatus :=
  match o with
  | Passed => [SUCCEEDED]
  | Failed => [FAILED; TIMED_OUT]
  | Error => [INFRASTRUCTURE_ERROR]
  | NotRun => [CANCELLED; BUDGET_EXHAUSTED; INFRASTRUCTURE_ERROR]
  end.

Definition is_not_run (o : EvaluationOutcome) : bool :=
  match o with NotRun => true | _ => false end.

Section evaluation.
Context {hashing : Hashing}.

(** [EvaluationResult._validate_result] *)
Definition _validate_result (e : EvaluationResult) : result unit :=
  _ ← require (is_terminal (er_run_status e)) (ValueError "evaluations require a terminal run state");
  _ ← require (negb (is_not_run (outcome e) && present (patch_hash e)))
        (ValueError "not_run evaluations cannot have a patch hash");
  _ ← require (negb (negb (is_not_run (outcome e)) && negb (present (patch_hash e))))
        (ValueError "completed evaluations require a patch hash");
  _ ← require (bool_decide (er_run_status e ∈ compatible_statuses (outcome e)))
        (ValueError "evaluation outcome does not match its terminal run state");
  h ← canonical_sha256 (JObj (er_result e));
  require (str_eqb (result_sha256 e) h)
    (ValueError "result_sha256 does not match the canonical result").

Definition c_artifact_list (l : list ArtifactRef) : result (list ArtifactRef) :=
  mapR check_artifact_ref l.

Definition check_evaluation (e : EvaluationResult) : result EvaluationResult :=
  ei ← c_nonempty (evaluation_id e);
  ri ← c_nonempty (er_run_id e);
  vr ← c_nonempty (evaluator_version e);
  th ← c_sha256 (task_hash e);
  ph ← c_opt c_sha256 (patch_hash e);
  sc ← c_opt c_nonneg_float (score e);
  rs ← c_dict (er_result e);
  rh ← c_sha256 (result_sha256 e);
  ev ← c_artifact_list (evidence e);
  ea ← c_datetime (evaluated_at e);
  sg ← c_opt c_nonempty (signature e);
  let e' := {| evaluation_id := ei; er_run_id := ri; er_run_status := er_run_status e;
    evaluator_version := vr; task_hash := th; patch_hash := ph; outcome := outcome e; score := sc;
    er_result := rs; result_sha256 := rh; evidence := ev; evaluated_at := ea; signature := sg |} in
  _ ← except in_validator (_validate_result e');
  Ok e'.

Definition dump_artifact_list (l : list ArtifactRef) : json := JArr (dump_artifact_ref <$> l).

Definition dump_evaluation (e : EvaluationResult) : json :=
  JObj [("schema_version", JStr "0.1"); ("evaluation_id", JStr (evaluation_id e));
        ("run_id", JStr (er_run_id e)); ("run_status", JStr (status_value (er_run_status e)));
        ("evaluator_version", JStr (evaluator_version e)); ("task_hash", JStr (task_hash e));
        ("patch_hash", dump_opt JStr (patch_hash e));
        ("outcome", JStr (outcome_value (outcome e))); ("score", dump_opt JFloat (score e));
        ("result", JObj (er_result e)); ("result_sha256", JStr (result_sha256 e));
        ("evidence", dump_artifact_list (evidence e));
        ("evaluated_at", dump_datetime (evaluated_at e));
        ("signature", dump_opt JStr (signature e))].

Definition evaluation_keys : list string :=
  ["schema_version"; "evaluation_id"; "run_id"; "run_status"; "evaluator_version"; "task_hash";
   "patch_hash"; "outcome"; "score"; "result"; "result_sha256"; "evidence"; "evaluated_at";
   "signature"].

(** [EvaluationResult.model_validate(value)] *)
Definition validate_evaluation `{PydanticDatetime} (v : json) : result EvaluationResult :=
  o ← v_model evaluation_keys v;
  _ ← schema_version o;
  ei ← field o "evaluation_id" v_str;
  ri ← field o "run_id" v_str;
  st ← field o "run_status" v_status;
  vr ← field o "evaluator_version" v_str;
  th ← field o "task_hash" v_str;
  ph ← field_default o "patch_hash" None (v_opt v_str);
  oc ← field o "outcome" v_outcome;
  sc ← field_default o "score" None (v_opt v_float);
  rs ← field_default o "result" [] v_raw_dict;
  rh ← field o "result_sha256" v_str;
  ev ← field_default o "evidence" [] (v_list validate_artifact_ref);
  ea ← field o "evaluated_at" v_datetime;
  sg ← field_default o "signature" None (v_opt v_str);
  check_evaluation {| evaluation_id := ei; er_run_id := ri; er_run_status := st;
    evaluator_version := vr; task_hash := th; patch_hash := ph; outcome := oc; score := sc;
    er_result := rs; result_sha256 := rh; evidence := ev; evaluated_at := ea; signature := sg |}.

Ltac evaluation_fields := cbn [evaluation_id er_run_id er_run_status evaluator_version task_hash
  patch_hash outcome score er_result result_sha256 evidence evaluated_at signature].

Lemma settles_artifact_list : settles c_artifact_list.
Proof. apply settles_mapR, settles_artifact_ref. Qed.
#[local] Hint Resolve settles_artifact_list : settle.

Lemma settles_evaluation : settles check_evaluation.
Proof.
  intros a b. unfold check_evaluation. intros H. inv_ok. settle. evaluation_fields.
  settled. match goal with H : _validate_result _ = _ |- _ => rewrite H end. done.
Qed.

Lemma mapR_settled {A} (c : A → result A) a l : settles c → mapR c a = Ok l → Forall (λ x, c x = Ok x) l.
Proof.
  intros Hc. revert l. induction a as [|x a IH]; intros l H; simpl in H; inv_ok; [done|].
  constructor; [by eapply Hc|auto].
Qed.

Lemma validate_dump_artifact_list l :
  Forall (λ a, check_artifact_ref a = Ok a) l →
  v_list validate_artifact_ref (sort_json (dump_artifact_list l)) = Ok l.
Proof.
  intros Hl. unfold dump_artifact_list. cbn [sort_json v_list]. rewrite <- list_fmap_compose.
  apply mapR_fmap. eapply Forall_impl; [exact Hl|]. intros a. apply validate_dump_artifact_ref.
Qed.

Lemma check_evaluation_inv e e' : check_evaluation e = Ok e' →
  dict_ok (er_result e') = true ∧ c_datetime (evaluated_at e') = Ok (evaluated_at e') ∧
  Forall (λ a, check_artifact_ref a = Ok a) (evidence e') ∧ _validate_result e' = Ok tt.
Proof.
  unfold check_evaluation. intros H. inv_ok. evaluation_fields.
  repeat match goal with H : c_dict _ = Ok _ |- _ => apply c_dict_ok in H end.
  repeat match goal with H : c_artifact_list _ = Ok _ |- _ =>
    apply (mapR_settled check_artifact_ref) in H; [|apply settles_artifact_ref] end.
  settle. done.
Qed.

Lemma validate_dump_evaluation `{PydanticDatetime} e :
  check_evaluation e = Ok e → validate_evaluation (sort_json (dump_evaluation e)) = Ok e.
Proof.
  intros He. destruct (check_evaluation_inv e e He) as (Hp & Hd & Hl & _).
  apply v_raw_dict_sort in Hp. apply v_dump_datetime in Hd. apply validate_dump_artifact_list in Hl.
  unfold validate_evaluation, dump_evaluation.
  repeat (read_record_step;
    rewrite ?(sort_dump_opt JFloat) by done;
    rewrite ?Hp, ?Hd, ?Hl, ?v_opt_float; cbn [mbind result_bind sort_json v_str];
    rewrite ?v_status_value, ?v_outcome_value; cbn [mbind result_bind]).
  by destruct e.
Qed.

(** An accepted evaluation is about a finished run: it passed exactly when the run
    succeeded, and it names a patch exactly when the evaluator ran. *)
Lemma evaluation_outcome_status e e' :
  check_evaluation e = Ok e' →
  is_terminal (er_run_status e') = true ∧
  (outcome e' = Passed ↔ er_run_status e' = SUCCEEDED) ∧
  (patch_hash e' = None ↔ outcome e' = NotRun) ∧
  canonical_sha256 (JObj (er_result e')) = Ok (result_sha256 e').
Proof.
  intros (_ & _ & _ & H)%check_evaluation_inv. unfold _validate_result in H. inv_ok.
  apply String.eqb_eq in H. rewrite H. split_andb.
  split; [done|]. split; [|split; [|done]].
  - destruct (outcome e'), (er_run_status e'); try done; set_solver.
  - destruct (patch_hash e'), (outcome e'); try done; naive_solver.
Qed.

End evaluation.

(** ** TaskSpec *)

Record TaskSpec := {
  ts_task_id : string;
  source : string;
  split_name : string;  (* [split] *)
  repository : string;
  repository_commit : string;
  image_digest : string;
  task_content_hash : string;
  problem_statement : ArtifactRef;
  repository_snapshot : ArtifactRef;
  visible_tests : list ArtifactRef;
  metadata : dict;
}.

Definition check_task (t : TaskSpec) : result TaskSpec :=
  ti ← c_nonempty (ts_task_id t);
  so ← c_nonempty (source t);
  sp ← c_nonempty (split_name t);
  re ← c_nonempty (repository t);
  rc ← c_nonempty (repository_commit t);
  im ← c_sha256_digest (image_digest t);
  th ← c_sha256 (task_content_hash t);
  ps ← check_artifact_ref (problem_statement t);
  rs ← check_artifact_ref (repository_snapshot t);
  vt ← c_artifact_list (visible_tests t);
  md ← c_dict (metadata t);
  Ok {| ts_task_id := ti; source := so; split_name := sp; repository := re; repository_commit := rc;
        image_digest := im; task_content_hash := th; problem_statement := ps;
        repository_snapshot := rs; visible_tests := vt; metadata := md |}.

Definition dump_task (t : TaskSpec) : json :=
  JObj [("schema_version", JStr "0.1"); ("task_id", JStr (ts_task_id t)); ("source", JStr (source t));
        ("split", JStr (split_name t)); ("repository", JStr (repository t));
        ("repository_commit", JStr (repository_commit t)); ("image_digest", JStr (image_digest t));
        ("task_content_hash", JStr (task_content_hash t));
        ("problem_statement", dump_artifact_ref (problem_statement t));
        ("repository_snapshot", dump_artifact_ref (repository_snapshot t));
        ("visible_tests", dump_artifact_list (visible_tests t)); ("metadata", JObj (metadata t))].

Definition task_keys : list string :=
  ["schema_version"; "task_id"; "source"; "split"; "repository"; "repository_commit"; "image_digest";
   "task_content_hash"; "problem_statement"; "repository_snapshot"; "visible_tests"; "metadata"].

(** [TaskSpec.model_validate(value)] *)
Definition validate_task (v : json) : result TaskSpec :=
  o ← v_model task_keys v;
  _ ← schema_version o;
  ti ← field o "task_id" v_str;
  so ← field o "source" v_str;
  sp ← field o "split" v_str;
  re ← field o "repository" v_str;
  rc ← field o "repository_commit" v_str;
  im ← field o "image_digest" v_str;
  th ← field o "task_content_hash" v_str;
  ps ← field o "problem_statement" validate_artifact_ref;
  rs ← field o "repository_snapshot" validate_artifact_ref;
  vt ← field_default o "visible_tests" [] (v_list validate_artifact_ref);
  md ← field_default o "metadata" [] v_raw_dict;
  check_task {| ts_task_id := ti; source := so; split_name := sp; repository := re;
    repository_commit := rc; image_digest := im; task_content_hash := th; problem_statement := ps;
    repository_snapshot := rs; visible_tests := vt; metadata := md |}.

Ltac task_fields := cbn [ts_task_id source split_name repository repository_commit image_digest
  task_content_hash problem_statement repository_snapshot visible_tests metadata].

#[export] Hint Resolve settles_artifact_list : settle.

Lemma settles_task : settles check_task.
Proof. intros a b. unfold check_task. intros H. inv_ok. settle. task_fields. by settled. Qed.

Lemma validate_dump_task t :
  check_task t = Ok t → validate_task (sort_json (dump_task t)) = Ok t.
Proof.
  intros Ht.
  assert (dict_ok (metadata t) = true ∧ check_artifact_ref (problem_statement t) = Ok (problem_statement t) ∧
    check_artifact_ref (repository_snapshot t) = Ok (repository_snapshot t) ∧
    Forall (λ a, check_artifact_ref a = Ok a) (visible_tests t)) as (Hm & Hp & Hr & Hv).
  { pose proof Ht as H. unfold check_task in H. inv_ok. task_fields.
    repeat match goal with H : c_dict _ = Ok _ |- _ => apply c_dict_ok in H end.
    repeat match goal with H : c_artifact_list _ = Ok _ |- _ =>
      apply (mapR_settled check_artifact_ref) in H; [|apply settles_artifact_ref] end.
    settle. done. }
  apply v_raw_dict_sort in Hm. apply validate_dump_artifact_ref in Hp, Hr.
  apply validate_dump_artifact_list in Hv. unfold validate_task, dump_task.
  repeat (read_record_step; rewrite ?Hm, ?Hp, ?Hr, ?Hv; cbn [mbind result_bind sort_json v_str]).
  by destruct t.
Qed.

(** ** ExperimentSpec *)

Record ExperimentSpec := {
  es_experiment_id : string;
  hypothesis : string;
  candidate_ids : list string;
  task_ids : list string;
  task_split : string;
  repeats : Z;
  es_budget_limits : BudgetLimits;
  metrics : list string;
  stopping_rule : string;
  retry_limit : Z;
  es_seed : Z;
}.

(** [_require_nonempty_unique_values] *)
Definition c_nonempty_unique (l : list string) : result (list string) :=
  l ← mapR c_nonempty l;
  if bool_decide (l ≠ []) && unique l then Ok l else invalid "collection".

Definition check_experiment (x : ExperimentSpec) : result ExperimentSpec :=
  ei ← c_nonempty (es_experiment_id x);
  hy ← c_nonempty (hypothesis x);
  ci ← c_nonempty_unique (candidate_ids x);
  ti ← c_nonempty_unique (task_ids x);
  sp ← c_nonempty (task_split x);
  rp ← c_positive (repeats x);
  bl ← check_limits (es_budget_limits x);
  me ← c_nonempty_unique (metrics x);
  sr ← c_nonempty (stopping_rule x);
  rl ← c_nonneg (retry_limit x);
  sd ← c_nonneg (es_seed x);
  Ok {| es_experiment_id := ei; hypothesis := hy; candidate_ids := ci; task_ids := ti;
        task_split := sp; repeats := rp; es_budget_limits := bl; metrics := me;
        stopping_rule := sr; retry_limit := rl; es_seed := sd |}.

Definition dump_experiment (x : ExperimentSpec) : json :=
  JObj [("schema_version", JStr "0.1"); ("experiment_id", JStr (es_experiment_id x));
        ("hypothesis", JStr (hypothesis x)); ("candidate_ids", dump_strs (candidate_ids x));
        ("task_ids", dump_strs (task_ids x)); ("task_split", JStr (task_split x));
        ("repeats", JInt (repeats x)); ("budget_limits", dump_limits (es_budget_limits x));
        ("metrics", dump_strs (metrics x)); ("stopping_rule", JStr (stopping_rule x));
        ("retry_limit", JInt (retry_limit x)); ("seed", JInt (es_seed x))].

Definition experiment_keys : list string :=
  ["schema_version"; "experiment_id"; "hypothesis"; "candidate_ids"; "task_ids"; "task_split";
   "repeats"; "budget_limits"; "metrics"; "stopping_rule"; "retry_limit"; "seed"].

(** [ExperimentSpec.model_validate(value)] *)
Definition validate_experiment (v : json) : result ExperimentSpec :=
  o ← v_model experiment_keys v;
  _ ← schema_version o;
  ei ← field o "experiment_id" v_str;
  hy ← field o "hypothesis" v_str;
  ci ← field o "candidate_ids" (v_list v_str);
  ti ← field o "task_ids" (v_list v_str);
  sp ← field o "task_split" v_str;
  rp ← field_default o "repeats" 1 v_int;
  bl ← field o "budget_limits" validate_limits;
  me ← field o "metrics" (v_list v_str);
  sr ← field o "stopping_rule" v_str;
  rl ← field_default o "retry_limit" 0 v_int;
  sd ← field_default o "seed" 0 v_int;
  check_experiment {| es_experiment_id := ei; hypothesis := hy; candidate_ids := ci; task_ids := ti;
    task_split := sp; repeats := rp; es_budget_limits := bl; metrics := me;
    stopping_rule := sr; retry_limit := rl; es_seed := sd |}.

Ltac experiment_fields := cbn [es_experiment_id hypothesis candidate_ids task_ids task_split repeats
  es_budget_limits metrics stopping_rule retry_limit es_seed].

Lemma settles_nonempty_unique : settles c_nonempty_unique.
Proof.
  intros a b. unfold c_nonempty_unique. intros H. inv_ok.
  destruct (bool_decide _ && _) eqn:E; [|done]. inv_ok. settle. settled. by rewrite E.
Qed.
#[export] Hint Resolve settles_nonempty_unique : settle.

Lemma settles_experiment : settles check_experiment.
Proof. intros a b. unfold check_experiment. intros H. inv_ok. settle. experiment_fields. by settled. Qed.

Lemma validate_dump_experiment x :
  check_experiment x = Ok x → validate_experiment (sort_json (dump_experiment x)) = Ok x.
Proof.
  intros Hx.
  assert (limits_valid (es_budget_limits x) = true) as Hl.
  { pose proof Hx as H. unfold check_experiment in H. inv_ok.
    match goal with H : check_limits _ = Ok _ |- _ => by apply check_limits_Ok in H as [-> ?] end. }
  apply validate_dump_limits in Hl. unfold validate_experiment, dump_experiment.
  repeat (read_record_step; rewrite ?Hl, ?sort_dump_strs, ?v_list_str;
    cbn [mbind result_bind sort_json v_str v_int]).
  by destruct x.
Qed.
