(* ===== verification/LocalEvaluation.v ===== *)
(** * Local evaluation (src/guildmind/evaluation/local.py)

    Fixture specifications and their checks, the evaluator's tests as they are retained,
    the evaluation result and its place in the domain, the bounded capture of output, and
    the evaluator around its subprocess.  Running the hidden tests is an outcome of
    [HiddenTests]; [Workspaces] (Patch.v) answers the calls that touch a workspace. *)

From Stdlib Require Import Ascii.
From S2P Require Import Prelude Order Loop Effects PyStr Files Float64 Json Text Patch Hash Datetime Fields.
From S2P Require Import Usage Models Specs.

Local Open Scope Z_scope.

Definition misconfigured {A} (msg : string) : result A := Err (FixtureConfigurationError msg).
Definition configured (b : bool) (msg : string) : result unit := require b (FixtureConfigurationError msg).

(** ** Statuses and protocols *)

Inductive EvaluationStatus :=
  | PASSED | TESTS_FAILED | INVALID_PATCH | PATCH_APPLY_FAILED | EVALUATION_TIMED_OUT | OUTPUT_EXHAUSTED | OOM_KILLED
  | EVALUATION_INFRASTRUCTURE_ERROR.
#[export] Instance evaluation_status_eq_dec : EqDecision EvaluationStatus.
Proof. solve_decision. Defined.

Definition evaluation_status_value (s : EvaluationStatus) : string :=
  match s with
  | PASSED => "passed" | TESTS_FAILED => "tests_failed" | INVALID_PATCH => "invalid_patch"
  | PATCH_APPLY_FAILED => "patch_apply_failed" | EVALUATION_TIMED_OUT => "timed_out"
  | OUTPUT_EXHAUSTED => "output_exhausted" | OOM_KILLED => "oom_killed"
  | EVALUATION_INFRASTRUCTURE_ERROR => "infrastructure_error"
  end.

(** [_PYTHON_CALLABLE] and [_PYTHON_MODULE] *)
Definition is_identifier (s : string) : bool :=
  match s with
  | String c rest => is_word c && negb (is_digit c) && str_all is_word rest
  | EmptyString => false
  end.
Definition is_dotted_name (s : string) : bool := forallb is_identifier (split_char "." s).

Record PythonCallProtocol := {
  pc_module : string;
  pc_callable_name : string;
  pc_cases_file : path;
  pc_sealed_cases_bytes : option (list Byte.byte);
}.

(** [PythonCallProtocol.__post_init__] *)
Definition check_protocol (p : PythonCallProtocol) : result PythonCallProtocol :=
  _ ← configured (is_dotted_name (pc_module p)) "evaluation module must be a dotted Python name";
  _ ← configured (is_identifier (pc_callable_name p)) "evaluation callable must be a Python identifier";
  Ok p.

(** ** Specifications *)

Record _FrozenWorkspaceEntry := { fe_relative_path : string; fe_mode : Z; fe_data : option (list Byte.byte) }.

Record _FrozenWorkspace := {
  fw_entries : list _FrozenWorkspaceEntry;
  fw_snapshot_bytes : list Byte.byte;
  fw_snapshot_sha256 : string;
  fw_root : path;
}.

Record _FrozenEvaluatorTest := { ft_path : path; ft_mode : Z; ft_data : list Byte.byte }.

Record LocalEvaluationSpec := {
  sp_task_id : string;
  pristine_workspace : path;
  hidden_test_files : list path;
  allowed_patch_paths : list string;
  visible_test_files : list path;
  timeout_seconds : float64;
  max_output_bytes : Z;
  sp_max_patch_bytes : Z;
  max_patch_files : Z;
  expected_test_count : Z;
  python_call_protocol : option PythonCallProtocol;
  pristine_workspace_sha256 : option string;
  sp_task_content_hash : option string;
  fixture_manifest_bytes : option (list Byte.byte);
  _frozen_workspace : option _FrozenWorkspace;
  _frozen_hidden_tests : list _FrozenEvaluatorTest;
}.

(** The policy a specification holds its patches to. *)
Definition patch_policy (s : LocalEvaluationSpec) : PatchPolicy :=
  {| allowed_paths := allowed_patch_paths s; max_patch_bytes := sp_max_patch_bytes s; max_files := max_patch_files s |}.

Definition sha256_or_none (o : option string) : bool := match o with Some d => is_lower_sha256 d | None => true end.

(** [LocalEvaluationSpec.__post_init__] *)
Definition check_spec (s : LocalEvaluationSpec) : result LocalEvaluationSpec :=
  _ ← configured (str_nonempty (sp_task_id s)) "task_id must not be empty";
  _ ← configured (bool_decide (hidden_test_files s ≠ [])) "at least one hidden test file is required";
  _ ← configured (bool_decide (NoDup (path_name <$> visible_test_files s ++ hidden_test_files s)))
        "evaluator test filenames must be unique";
  _ ← configured (is_finite (timeout_seconds s) && fltb fzero (timeout_seconds s)) "timeout_seconds must be positive";
  _ ← configured (0 <? max_output_bytes s) "max_output_bytes must be positive";
  _ ← configured (0 <? sp_max_patch_bytes s) "max_patch_bytes must be positive";
  _ ← configured (0 <? max_patch_files s) "max_patch_files must be positive";
  _ ← configured (0 <? expected_test_count s) "expected_test_count must be positive";
  _ ← configured (sha256_or_none (pristine_workspace_sha256 s)) "pristine_workspace_sha256 must be a SHA-256 digest";
  _ ← configured (sha256_or_none (sp_task_content_hash s)) "task_content_hash must be a SHA-256 digest";
  _ ← except (λ e, if is_value_error e then FixtureConfigurationError "invalid patch policy" else e)
        (check_policy (patch_policy s));
  Ok s.

(** [pristine_workspace_snapshot_bytes] *)
Definition pristine_workspace_snapshot_bytes (s : LocalEvaluationSpec) : option (list Byte.byte) :=
  fw_snapshot_bytes <$> _frozen_workspace s.

(** [replace(spec, pristine_workspace_sha256=..., task_content_hash=...)], which validates
    the new specification. *)
Definition bind_identity (s : LocalEvaluationSpec) (workspace_sha256 task_hash : string) : result LocalEvaluationSpec :=
  check_spec
    {| sp_task_id := sp_task_id s; pristine_workspace := pristine_workspace s;
       hidden_test_files := hidden_test_files s; allowed_patch_paths := allowed_patch_paths s;
       visible_test_files := visible_test_files s; timeout_seconds := timeout_seconds s;
       max_output_bytes := max_output_bytes s; sp_max_patch_bytes := sp_max_patch_bytes s;
       max_patch_files := max_patch_files s; expected_test_count := expected_test_count s;
       python_call_protocol := python_call_protocol s; pristine_workspace_sha256 := Some workspace_sha256;
       sp_task_content_hash := Some task_hash; fixture_manifest_bytes := fixture_manifest_bytes s;
       _frozen_workspace := _frozen_workspace s; _frozen_hidden_tests := _frozen_hidden_tests s |}.

(** ** Paths *)

(** [candidate.relative_to(directory)]; [_is_within] is whether it returns. *)
Fixpoint relative_to (candidate directory : path) : option path :=
  match directory, candidate with
  | [], _ => Some candidate
  | d :: directory, c :: candidate => if str_eqb d c then relative_to candidate directory else None
  | _ :: _, [] => None
  end.
Definition _is_within (candidate directory : path) : bool := present (relative_to candidate directory).

(** [_plain_relative_path(value)]: the parts of the path *)
Definition _plain_relative_path (value : string) : result path :=
  let parts := split_char "/" value in
  _ ← configured (negb (contains "\" value || existsb (λ part, existsb (str_eqb part) [""; "."; ".."]) parts))
        "fixture path must be plain and relative";
  Ok parts.

(** ** Reading a manifest's fields *)

Definition _required_string (raw : dict) (key : string) : result string :=
  match jget raw key with
  | Some (JStr s) => _ ← configured (str_nonempty s) "must be a non-empty string"; Ok s
  | _ => misconfigured "must be a non-empty string"
  end.

Definition _required_string_list (raw : dict) (key : string) : result (list string) :=
  match jget raw key with
  | Some (JArr l) =>
      _ ← configured (bool_decide (l ≠ [])) "must be a non-empty array";
      mapR (λ v, match v with
                 | JStr s => _ ← configured (str_nonempty s) "must contain only non-empty strings"; Ok s
                 | _ => misconfigured "must contain only non-empty strings"
                 end) l
  | _ => misconfigured "must be a non-empty array"
  end.

(** [math.isfinite] of an integer that no float holds raises [OverflowError]. *)
Definition _optional_positive_number (raw : dict) (key : string) (default : float64) : result float64 :=
  match jget raw key with
  | None => Ok default
  | Some (JInt z) =>
      _ ← require (is_finite (float_of_Z z)) (OverflowError "int too large to convert to float");
      _ ← configured (0 <? z) "must be a positive number";
      Ok (float_of_Z z)
  | Some (JFloat f) => _ ← configured (is_finite f && fltb fzero f) "must be a positive number"; Ok f
  | Some _ => misconfigured "must be a positive number"
  end.

Definition positive_integer (v : json) : result Z :=
  match v with
  | JInt z => _ ← configured (0 <? z) "must be a positive integer"; Ok z
  | _ => misconfigured "must be a positive integer"
  end.
Definition _optional_positive_integer (raw : dict) (key : string) (default : Z) : result Z :=
  match jget raw key with Some v => positive_integer v | None => Ok default end.
Definition _required_positive_integer (raw : dict) (key : string) : result Z :=
  match jget raw key with Some v => positive_integer v | None => misconfigured "must be a positive integer" end.

(** ** Reading files *)

Section files.
Context {world : World}.

(** [path.is_symlink()] of Python 3.12: some failures of [lstat] mean no, others are raised. *)
Definition is_symlink (p : path) : Sys bool :=
  o ← call (λ _, lstat p);
  match o with
  | Done m => mret (is_kind SymbolicLink m)
  | OSError n => if existsb (λ e, bool_decide (n = Some e)) [ENOENT; 20; 9; ELOOP] then mret false else raise_error (OSError n)
  end.

(** [path.lstat()] with its failure, then [path.is_symlink()]: a plain regular file. *)
Definition regular_file (p : path) : Sys stat_result :=
  o ← call (λ _, lstat p);
  match o with
  | OSError _ => lift (misconfigured "is unavailable")
  | Done m =>
      link ← is_symlink p;
      _ ← lift (configured (negb link && is_kind Regular m) "must be a regular non-symlink file");
      mret m
  end.

(** [_regular_file_mode(path, label=...)] *)
Definition _regular_file_mode (p : path) : Sys Z := m ← regular_file p; mret (Z.land (st_perm m) 511).

(** [stream.read()]: until nothing more comes.  No size bounds it; a file that never ends
    keeps the loop going, here to its bound. *)
Definition read_all_step (fd : descriptor) (s : nat * list Byte.byte) : step (nat * list Byte.byte) (result (list Byte.byte)) :=
  match fd_read fd s.1 65536 with
  | OSError n => Leave (Err (OSException n))
  | Done [] => Leave (Ok s.2)
  | Done chunk => Continue (S s.1, s.2 ++ chunk)
  end.
Definition read_all (patience : positive) (fd : descriptor) : result (list Byte.byte) :=
  data ← bounded (run_loop patience (read_all_step fd) (O, []));
  data.

Definition read_open_file (patience : positive) (before : stat_result) (fd : descriptor) : result (list Byte.byte) :=
  match fd_stat fd with
  | OSError _ => misconfigured "cannot read"
  | Done opened =>
      _ ← configured (is_kind Regular opened && (st_dev opened =? st_dev before) && (st_ino opened =? st_ino before))
            "changed while loading";
      except (λ e, match e with OSException _ => FixtureConfigurationError "cannot read" | _ => e end)
        (read_all patience fd)
  end.

(** [_read_regular_file(path, label=...)] *)
Definition _read_regular_file (patience : positive) (p : path) : Sys (list Byte.byte) :=
  before ← regular_file p;
  f ← call (λ _, open_file p);
  match f with
  | OSError _ => lift (misconfigured "cannot open")
  | Done fd => finally (lift (read_open_file patience before fd)) (λ _, _ ← perform CloseFile; mret tt)
  end.

(** ** The evaluator's tests *)

(** [_visible_test_payload(path)]: the captured file, or the file itself. *)
Definition _visible_test_payload (patience : positive) (s : LocalEvaluationSpec) (p : path)
    : Sys (list Byte.byte * Z * string) :=
  let from_disk :=
    resolved ← (if _is_within p (pristine_workspace s) then
                  a ← call (λ _, resolve false p); a ← raise_error a;
                  b ← call (λ _, resolve false (pristine_workspace s)); b ← raise_error b;
                  mret (_is_within a b)
                else mret false);
    _ ← lift (configured resolved "visible tests must be inside the submitted workspace");
    mode ← _regular_file_mode p;
    data ← _read_regular_file patience p;
    mret (data, mode, path_name p) in
  match _frozen_workspace s with
  | None => from_disk
  | Some w =>
      match relative_to p (fw_root w) with
      | None => from_disk
      | Some parts =>
          match List.find (λ e, str_eqb (fe_relative_path e) (join "/" parts) && present (fe_data e)) (fw_entries w) with
          | Some e => mret (default [] (fe_data e), fe_mode e, path_name p)
          | None => lift (misconfigured "visible evaluator test is not a captured regular file")
          end
      end
  end.

(** [_hidden_test_payload(path)] *)
Definition _hidden_test_payload (patience : positive) (s : LocalEvaluationSpec) (p : path)
    : Sys (list Byte.byte * Z * string) :=
  match List.find (λ t, bool_decide (p = ft_path t)) (_frozen_hidden_tests s) with
  | Some t => mret (ft_data t, ft_mode t, path_name p)
  | None =>
      mode ← _regular_file_mode p;
      data ← _read_regular_file patience p;
      mret (data, mode, path_name p)
  end.

(** [visible_test_bytes], [hidden_test_bytes] *)
Definition visible_test_bytes (patience : positive) (s : LocalEvaluationSpec) : Sys (list (list Byte.byte)) :=
  l ← mapM_eff (_visible_test_payload patience s) (visible_test_files s); mret ((λ r, r.1.1) <$> l).
Definition hidden_test_bytes (patience : positive) (s : LocalEvaluationSpec) : Sys (list (list Byte.byte)) :=
  l ← mapM_eff (_hidden_test_payload patience s) (hidden_test_files s); mret ((λ r, r.1.1) <$> l).
End files.

(** ** Results *)

Record LocalEvaluationResult := {
  lr_task_id : string;
  lr_status : EvaluationStatus;
  exit_code : option Z;
  stdout : string;
  lr_stderr : string;
  output_truncated : bool;
  execution : dict;
  raw_candidate_stdout : option (list Byte.byte);
  raw_scorer_stdout : option (list Byte.byte);
}.

(** [LocalEvaluationResult.__post_init__] *)
Definition check_result (r : LocalEvaluationResult) : result LocalEvaluationResult :=
  _ ← require (negb (present (raw_scorer_stdout r) && negb (present (raw_candidate_stdout r))))
        (ValueError "a scorer transcript requires a candidate transcript");
  Ok r.

(** [passed] *)
Definition passed (r : LocalEvaluationResult) : bool := bool_decide (lr_status r = PASSED).

(** A result with a status and a diagnostic, and nothing else. *)
Definition failed_result (task_id : string) (status : EvaluationStatus) (diagnostic : string) : LocalEvaluationResult :=
  {| lr_task_id := task_id; lr_status := status; exit_code := None; stdout := ""; lr_stderr := diagnostic;
     output_truncated := false; execution := []; raw_candidate_stdout := None; raw_scorer_stdout := None |}.

Definition fone : float64 := float_of_Z 1.

Definition result_payload (r : LocalEvaluationResult) : dict :=
  [("status", JStr (evaluation_status_value (lr_status r))); ("exit_code", dump_opt JInt (exit_code r));
   ("stdout", JStr (stdout r)); ("stderr", JStr (lr_stderr r)); ("output_truncated", JBool (output_truncated r));
   ("execution", JObj (execution r))].

(** The outcome and the score a status stands for. *)
Definition outcome_and_score (s : EvaluationStatus) : EvaluationOutcome * option float64 :=
  if bool_decide (s = PASSED) then (Passed, Some fone)
  else if negb (bool_decide (s = EVALUATION_INFRASTRUCTURE_ERROR)) then (Failed, Some fzero)
  else (Error, None).

Section domain.
Context {hashing : Hashing}.

(** [result.to_domain_result(task, ...)] *)
Definition to_domain_result (r : LocalEvaluationResult) (task : TaskSpec) (evaluation_id run_id : string)
    (run_status : RunStatus) (evaluator_version patch_hash : string) (evaluated_at : datetime) : result EvaluationResult :=
  _ ← require (str_eqb (ts_task_id task) (lr_task_id r)) (ValueError "local result and domain task IDs do not match");
  digest ← canonical_sha256 (JObj (result_payload r));
  check_evaluation
    {| Specs.evaluation_id := evaluation_id; er_run_id := run_id; er_run_status := run_status;
       Specs.evaluator_version := evaluator_version; task_hash := task_content_hash task;
       Specs.patch_hash := Some patch_hash; outcome := (outcome_and_score (lr_status r)).1;
       score := (outcome_and_score (lr_status r)).2; er_result := result_payload r; result_sha256 := digest;
       evidence := []; Specs.evaluated_at := evaluated_at; signature := None |}.

(** [_require_expected_patch_identity(patch_data, expected_patch_sha256=...)] *)
Definition _require_expected_patch_identity (data : list Byte.byte) (expected : option string) : result string :=
  let actual := sha256_bytes data in
  match expected with
  | None => Ok actual
  | Some e =>
      _ ← configured (is_lower_sha256 e) "expected patch identity must be a SHA-256 digest";
      _ ← configured (str_eqb actual e) "validated patch bytes do not match the committed artifact identity";
      Ok actual
  end.
End domain.

(** ** Bounded capture of output *)

Definition _OUTPUT_TRUNCATED_MARKER : list Byte.byte :=
  utf8_encode (String (chr 10) ("...[output truncated]" +:+ String (chr 10) "")).

Record _CappedCapture := { cc_limit : Z; cc_data : list Byte.byte; cc_truncated : bool }.

Definition capture_create (limit : Z) : _CappedCapture := {| cc_limit := limit; cc_data := []; cc_truncated := false |}.

(** [capture.feed(chunk)] *)
Definition feed (c : _CappedCapture) (chunk : list Byte.byte) : _CappedCapture :=
  let remaining := Z.max 0 (cc_limit c - Z.of_nat (length (cc_data c))) in
  {| cc_limit := cc_limit c; cc_data := cc_data c ++ take (Z.to_nat remaining) chunk;
     cc_truncated := cc_truncated c || (remaining <? Z.of_nat (length chunk)) |}.

(** The bytes that [capture.render()] decodes. *)
Definition render (c : _CappedCapture) : list Byte.byte :=
  if cc_truncated c then
    let marker := take (Z.to_nat (cc_limit c)) _OUTPUT_TRUNCATED_MARKER in
    take (Z.to_nat (Z.max 0 (cc_limit c - Z.of_nat (length marker)))) (cc_data c) ++ marker
  else cc_data c.

(** ** Frozen workspaces *)

(** [base64.b64encode(data).decode("ascii")] *)
Definition b64_char (n : N) : ascii :=
  (if n <? 26 then chr (65 + n) else if n <? 52 then chr (71 + n) else if n <? 62 then chr (n - 4)
   else if n =? 62 then "+"%char else "/"%char)%N.
Definition b64_digit (n k : N) : ascii := b64_char (N.land (N.shiftr n k) 63).
Fixpoint b64encode (data : list Byte.byte) : string :=
  (match data with
   | [] => ""
   | [a] =>
       let n := N.shiftl (Byte.to_N a) 16 in
       String (b64_digit n 18) (String (b64_digit n 12) "==")
   | [a; b] =>
       let n := N.shiftl (Byte.to_N a) 16 + N.shiftl (Byte.to_N b) 8 in
       String (b64_digit n 18) (String (b64_digit n 12) (String (b64_digit n 6) "="))
   | a :: b :: c :: data =>
       let n := N.shiftl (Byte.to_N a) 16 + N.shiftl (Byte.to_N b) 8 + Byte.to_N c in
       String (b64_digit n 18) (String (b64_digit n 12) (String (b64_digit n 6) (String (b64_digit n 0) (b64encode data))))
   end)%N.

Section workspaces.
Context {hashing : Hashing} {world : World} {workspaces : Workspaces}.

(** One entry of the tree, and what the snapshot says of it. *)
Definition freeze_entry (patience : positive) (source : path) (parts : list string) : Sys (_FrozenWorkspaceEntry * list json) :=
  let relative := join "/" parts in
  o ← call (λ _, lstat (source ++ parts));
  match o with
  | OSError _ => lift (misconfigured "cannot inspect fixture workspace entry")
  | Done m =>
      _ ← lift (configured (negb (existsb (λ part, str_eqb (ascii_lower part) ".git") parts))
            "fixture workspace contains forbidden Git metadata");
      _ ← lift (configured (negb (is_kind SymbolicLink m)) "fixture workspace contains a symlink");
      let permissions := Z.land (st_perm m) 511 in
      if is_kind Directory m
      then mret ({| fe_relative_path := relative; fe_mode := permissions; fe_data := None |}, [])
      else
        _ ← lift (configured (is_kind Regular m) "fixture workspace contains a special file");
        data ← _read_regular_file patience (source ++ parts);
        mret ({| fe_relative_path := relative; fe_mode := permissions; fe_data := Some data |},
              [JObj [("content_base64", JStr (b64encode data)); ("path", JStr relative);
                     ("sha256", JStr (sha256_bytes data)); ("size_bytes", JInt (Z.of_nat (length data)))]])
  end.

(** Writing one entry; a directory's mode is set at the end. *)
Definition materialize_entry (root : path) (e : _FrozenWorkspaceEntry) : Sys unit :=
  let destination := root ++ split_char "/" (fe_relative_path e) in
  match fe_data e with
  | None => ask_os (λ n, make_directory n true true destination)
  | Some data =>
      _ ← ask_os (λ n, make_directory n true true (path_parent destination));
      _ ← ask_os (λ n, write_bytes n destination data);
      ask_os (λ n, chmod n destination (fe_mode e))
  end.

Definition deeper (a b : path * Z) : Prop := (length b.1 ≤ length a.1)%nat.
#[global] Instance deeper_dec : RelDecision deeper := λ a b, decide (length b.1 ≤ length a.1)%nat.

(** [_materialize_workspace_entries(entries, root)] *)
Definition _materialize_workspace_entries (entries : list _FrozenWorkspaceEntry) (root : path) : Sys unit :=
  o ← call (λ _, lstat root);
  _ ← lift (configured match o with OSError _ => true | Done _ => false end
        "workspace materialization destination already exists");
  _ ← ask_os (λ n, make_directory n true false root);
  _ ← forM (materialize_entry root) entries;
  let directories := (λ e, (root ++ split_char "/" (fe_relative_path e), fe_mode e)) <$>
    List.filter (λ e, negb (present (fe_data e))) entries in
  forM (λ d, ask_os (λ n, chmod n d.1 d.2)) (merge_sort deeper directories).

(** [_freeze_workspace(source)] *)
Definition _freeze_workspace (patience : positive) (source : path) : Sys _FrozenWorkspace :=
  o ← call (λ _, lstat source);
  match o with
  | OSError _ => lift (misconfigured "fixture workspace is unavailable")
  | Done m =>
      link ← is_symlink source;
      _ ← lift (configured (negb link && is_kind Directory m) "fixture workspace must be a real directory");
      listed ← ask (λ n, rglob n source);
      paths ← lift match listed with Done l => Ok l | OSError _ => misconfigured "cannot enumerate fixture workspace" end;
      frozen ← mapM_eff (freeze_entry patience source) (sort_by (λ p, p) paths);
      text ← lift (canonical_json (JObj [("files", JArr (concat frozen.*2));
                                         ("schema_version", JStr "guildmind.tree/v1")]));
      let snapshot := utf8_encode text in
      temporary ← ask_os (λ n, temporary_directory n "guildmind-frozen-fixture-");
      resolved ← call (λ _, resolve false temporary);
      resolved ← raise_error resolved;
      let root := resolved ++ ["workspace"] in
      _ ← _materialize_workspace_entries frozen.*1 root;
      mret {| fw_entries := frozen.*1; fw_snapshot_bytes := snapshot; fw_snapshot_sha256 := sha256_bytes snapshot;
              fw_root := root |}
  end.

(** One evaluator-owned test: its name, its bytes and its mode. *)
Definition capture_test (patience : positive) (source : path) : Sys (string * list Byte.byte * Z) :=
  o ← call (λ _, lstat source);
  match o with
  | OSError _ => lift (misconfigured "evaluator test does not exist")
  | Done m =>
      link ← is_symlink source;
      _ ← lift (configured (negb link && is_kind Regular m) "evaluator test must be a regular file");
      data ← _read_regular_file patience source;
      mret (path_name source, data, Z.land (st_perm m) 511)
  end.

Definition write_test (destination : path) (t : string * list Byte.byte * Z) : Sys _FrozenEvaluatorTest :=
  let '(name, data, mode) := t in
  let frozen := destination ++ [name] in
  _ ← ask_os (λ n, write_bytes n frozen data);
  _ ← ask_os (λ n, chmod n frozen mode);
  mret {| ft_path := frozen; ft_mode := mode; ft_data := data |}.

(** [_freeze_evaluator_tests(sources, destination=...)] *)
Definition _freeze_evaluator_tests (patience : positive) (sources : list path) (destination : path)
    : Sys (list path * list _FrozenEvaluatorTest) :=
  _ ← lift (configured (bool_decide (NoDup (path_name <$> sources))) "evaluator test filenames must be unique");
  captured ← mapM_eff (capture_test patience) sources;
  _ ← ask_os (λ n, make_directory n false false destination);
  tests ← mapM_eff (write_test destination) captured;
  mret (ft_path <$> tests, tests).

(** [spec.materialize_pristine_workspace(destination)] *)
Definition materialize_pristine_workspace (s : LocalEvaluationSpec) (destination : path) : Sys unit :=
  match _frozen_workspace s with
  | Some w => _materialize_workspace_entries (fw_entries w) destination
  | None =>
      o ← call (λ _, lstat destination);
      _ ← lift (configured match o with OSError _ => true | Done _ => false end
            "workspace materialization destination already exists");
      ask_os (λ n, copytree n (pristine_workspace s) destination)
  end.

(** [spec.materialize_evaluator_tests(destination)] *)
Definition materialize_evaluator_tests (patience : positive) (s : LocalEvaluationSpec) (destination : path) : Sys unit :=
  _ ← ask_os (λ n, make_directory n true false destination);
  visible ← mapM_eff (_visible_test_payload patience s) (visible_test_files s);
  hidden ← mapM_eff (_hidden_test_payload patience s) (hidden_test_files s);
  forM (λ '(data, mode, name),
          _ ← ask_os (λ n, write_bytes n (destination ++ [name]) data);
          ask_os (λ n, chmod n (destination ++ [name]) mode)) (visible ++ hidden).
End workspaces.

(** ** The evaluator *)

(** [_run_hidden_tests(...)]: the subprocess and the result it leaves. *)
Class HiddenTests := {
  _run_hidden_tests : nat → string → path → path → float64 → Z → result LocalEvaluationResult;
}.

Section evaluator.
Context {hashing : Hashing} {world : World} {workspaces : Workspaces} {tests : HiddenTests}.

Definition local_evaluator_version : string := "guildmind/local-fixture-v1".
(** [LocalEvaluator.environment_digest] *)
Definition local_environment_digest : string :=
  "sha256:" +:+ sha256_bytes (utf8_encode "guildmind/local-fixture-evaluator-v1").

(** What becomes of an exception of the evaluation. *)
Definition evaluation_failure (task_id : string) (e : exn) : option (Sys LocalEvaluationResult) :=
  match e with
  | PatchValidationError msg => Some (mret (failed_result task_id INVALID_PATCH msg))
  | PatchApplyError msg => Some (mret (failed_result task_id PATCH_APPLY_FAILED msg))
  | FixtureConfigurationError msg => Some (mret (failed_result task_id EVALUATION_INFRASTRUCTURE_ERROR msg))
  | OSException _ => Some (mret (failed_result task_id EVALUATION_INFRASTRUCTURE_ERROR "local evaluation setup failed"))
  | _ => None
  end.

(** The body of [with tempfile.TemporaryDirectory(...)]. *)
Definition evaluate_below (patience : positive) (s : LocalEvaluationSpec) (policy : PatchPolicy) (patch_path : path)
    (expected : option string) (temporary : path) : Sys LocalEvaluationResult :=
  let pristine := temporary ++ ["pristine-workspace"] in
  let patched := temporary ++ ["patched-workspace"] in
  let workspace := temporary ++ ["evaluation"; "workspace"] in
  let grader := temporary ++ ["evaluation"; "grader"] in
  _ ← materialize_pristine_workspace s pristine;
  validated ← copy_and_apply_patch pristine patch_path patched policy;
  _ ← lift (_require_expected_patch_identity (vp_data validated) expected);
  _ ← ask_os (λ n, copytree n patched workspace);
  _ ← materialize_evaluator_tests patience s grader;
  r ← ask (λ n, _run_hidden_tests n (sp_task_id s) workspace grader (timeout_seconds s) (max_output_bytes s));
  lift r.

(** [LocalEvaluator.evaluate(spec, patch_path, expected_patch_sha256=...)] *)
Definition local_evaluate (patience : positive) (s : LocalEvaluationSpec) (patch_path : path) (expected : option string)
    : Sys LocalEvaluationResult :=
  policy ← lift (check_policy (patch_policy s));
  catch
    (temporary ← ask_os (λ n, temporary_directory n "guildmind-evaluation-");
     finally (evaluate_below patience s policy patch_path expected temporary)
       (λ _, ask_os (λ n, remove_tree n temporary)))
    (evaluation_failure (sp_task_id s)).
End evaluator.
