(* ===== verification/Protocol.v ===== *)
(** * The call protocol (src/guildmind/evaluation/protocol.py)

    The sealed oracle of a fixture is validated and made canonical, and the challenge that
    the candidate sees is derived from it.  What is shown: reading the canonical oracle
    again gives the same bundle, and the challenge says exactly which calls are made. *)

From Stdlib Require Import Ascii.
From S2P Require Import Prelude Order Loop Effects PyStr Files Float64 Json Text Patch Hash Datetime Fields.
From S2P Require Import Usage Models Specs LocalEvaluation.

Local Open Scope Z_scope.

(** ** [json.loads] of bytes *)

Inductive encoding := UTF8 | UTF8_SIG | UTF16 (big_endian : bool) (bom : bool) | UTF32 (big_endian : bool) (bom : bool).

Definition is_zero (b : Byte.byte) : bool := N.eqb (Byte.to_N b) 0.

(** [json.detect_encoding(b)] *)
Definition detect_encoding (bs : list Byte.byte) : encoding :=
  let has (p : list N) := bool_decide (take (length p) (Byte.to_N <$> bs) = p) in
  if has [0; 0; 254; 255]%N then UTF32 true true
  else if has [255; 254; 0; 0]%N then UTF32 false true
  else if has [254; 255]%N then UTF16 true true
  else if has [255; 254]%N then UTF16 false true
  else if has [239; 187; 191]%N then UTF8_SIG
  else match bs with
       | a :: b :: c :: d :: _ =>
           if is_zero a then (if is_zero b then UTF32 true false else UTF16 true false)
           else if is_zero b then (if is_zero c && is_zero d then UTF32 false false else UTF16 false false)
           else UTF8
       | [a; b] => if is_zero a then UTF16 true false else if is_zero b then UTF16 false false else UTF8
       | _ => UTF8
       end.

(** Code units of two and of four bytes; a code point above U+00FF is outside the model. *)
Fixpoint decode_utf16 (big_endian : bool) (bs : list Byte.byte) : option string :=
  match bs with
  | [] => Some ""
  | a :: b :: bs =>
      let '(high, low) := if big_endian then (a, b) else (b, a) in
      if is_zero high then String (chr (Byte.to_N low)) <$> decode_utf16 big_endian bs else None
  | _ => None
  end.
Fixpoint decode_utf32 (big_endian : bool) (bs : list Byte.byte) : option string :=
  match bs with
  | [] => Some ""
  | a :: b :: c :: d :: bs =>
      let '(high, low) := if big_endian then ([a; b; c], d) else ([b; c; d], a) in
      if forallb is_zero high then String (chr (Byte.to_N low)) <$> decode_utf32 big_endian bs else None
  | _ => None
  end.

Definition decode_json (bs : list Byte.byte) : option string :=
  match detect_encoding bs with
  | UTF8 => utf8_decode bs
  | UTF8_SIG => utf8_decode (drop 3 bs)
  | UTF16 big bom => decode_utf16 big (if bom then drop 2 bs else bs)
  | UTF32 big bom => decode_utf32 big (if bom then drop 4 bs else bs)
  end.

(** [json.loads(data)], plainly or with the strict hooks *)
Definition loads_bytes (strict : bool) (bs : list Byte.byte) : result json :=
  text ← of_option (UnicodeDecodeError "cannot decode") (decode_json bs);
  loads_with strict text.

(** ** Validation *)

Definition _ORACLE_SCHEMA : string := "guildmind.python-call-oracle/v1".
Definition _CHALLENGE_SCHEMA : string := "guildmind.python-call-challenge/v1".
Definition _PROTOCOL : string := "python-call-v1".
Definition _MAX_ORACLE_BYTES : Z := 1048576.
Definition _MAX_CASES : Z := 10000.
Definition _MAX_ARGUMENTS : Z := 64.
Definition _MAX_JSON_DEPTH : Z := 32.

(** [_CASE_ID] *)
Definition is_case_id (s : string) : bool :=
  match literal "case-" s with
  | Some rest => Nat.eqb (String.length rest) 4 && str_all is_digit rest
  | None => false
  end.

(** [_strict_json_object(data, label=...)] *)
Definition _strict_json_object (data : list Byte.byte) : result dict :=
  value ← except (λ e, if is_value_error e then FixtureConfigurationError "must be strict UTF-8 JSON" else e)
            (loads_bytes true data);
  match value with
  | JObj o => Ok o
  | _ => misconfigured "must contain a JSON object"
  end.

(** [_validate_json_value(value, depth=...)]; no modelled character is a surrogate. *)
Fixpoint _validate_json_value (depth : Z) (v : json) : result unit :=
  _ ← configured (depth <=? _MAX_JSON_DEPTH) "evaluation JSON exceeds the nesting limit";
  match v with
  | JFloat f => configured (is_finite f) "evaluation JSON numbers must be finite"
  | JArr l =>
      (fix items l := match l with
                      | [] => Ok tt
                      | x :: l => _ ← _validate_json_value (depth + 1) x; items l
                      end) l
  | JObj o =>
      (fix members (o : dict) := match o with
                                 | [] => Ok tt
                                 | kv :: o => _ ← _validate_json_value (depth + 1) kv.2; members o
                                 end) o
  | _ => Ok tt
  end.

(** [set(o) == {...}] *)
Definition exactly_keys (names : list string) (o : dict) : bool :=
  forallb (has_key o) names && forallb (λ k, existsb (str_eqb k) names) (keys o).

Definition get (o : dict) (k : string) : json := default JNull (jget o k).

Record CaseLists := { oracle_cases : list json; challenge_cases : list json; seen_case_ids : list string }.

(** One case of the oracle. *)
Definition check_case (s : CaseLists) (raw_case : json) : result CaseLists :=
  match raw_case with
  | JObj case =>
      _ ← configured (exactly_keys ["case_id"; "args"; "kwargs"; "expected"] case)
            "each evaluation case must contain case_id, args, kwargs, and expected";
      let expected_id := "case-" +:+ zero_pad 4 (N.of_nat (S (length (oracle_cases s)))) in
      case_id ← match get case "case_id" with
                | JStr id => _ ← configured (is_case_id id) "evaluation case IDs must use case-NNNN"; Ok id
                | _ => misconfigured "evaluation case IDs must use case-NNNN"
                end;
      _ ← configured (str_eqb case_id expected_id) "evaluation case IDs must be contiguous and ordered";
      _ ← configured (negb (existsb (str_eqb case_id) (seen_case_ids s))) "evaluation case IDs must be unique";
      args ← match get case "args" with
             | JArr l => _ ← configured (Z.of_nat (length l) <=? _MAX_ARGUMENTS) "evaluation args must be a bounded array";
                         Ok (JArr l)
             | _ => misconfigured "evaluation args must be a bounded array"
             end;
      kwargs ← match get case "kwargs" with
               | JObj o =>
                   _ ← configured (Z.of_nat (length o) <=? _MAX_ARGUMENTS) "evaluation kwargs must be a bounded object";
                   _ ← configured (forallb is_identifier (keys o))
                         "evaluation keyword names must be Python identifiers";
                   Ok (JObj o)
               | _ => misconfigured "evaluation kwargs must be a bounded object"
               end;
      expected ← match get case "expected" with
                 | JObj o =>
                     _ ← configured (exactly_keys ["kind"; "value"] o) "expected outcome must contain kind and value";
                     _ ← configured (bool_decide (get o "kind" = JStr "returned"))
                           "python-call-v1 supports returned values only";
                     Ok o
                 | _ => misconfigured "expected outcome must contain kind and value"
                 end;
      _ ← _validate_json_value 0 args;
      _ ← _validate_json_value 0 kwargs;
      _ ← _validate_json_value 0 (get expected "value");
      Ok {| oracle_cases := oracle_cases s ++
              [JObj [("args", args); ("case_id", JStr case_id); ("expected", JObj expected); ("kwargs", kwargs)]];
            challenge_cases := challenge_cases s ++
              [JObj [("args", args); ("case_id", JStr case_id); ("kwargs", kwargs)]];
            seen_case_ids := case_id :: seen_case_ids s |}
  | _ => misconfigured "each evaluation case must be an object"
  end.

Record PythonCallBundle := {
  challenge : json;
  challenge_bytes : list Byte.byte;
  challenge_sha256 : string;
  oracle : json;
  oracle_bytes : list Byte.byte;
  oracle_sha256 : string;
  case_count : Z;
}.

Definition oracle_of (cases : list json) : json := JObj [("cases", JArr cases); ("schema_version", JStr _ORACLE_SCHEMA)].
Definition challenge_of (protocol : PythonCallProtocol) (cases : list json) : json :=
  JObj [("cases", JArr cases);
        ("entrypoint", JObj [("callable", JStr (pc_callable_name protocol)); ("module", JStr (pc_module protocol))]);
        ("protocol", JStr _PROTOCOL); ("schema_version", JStr _CHALLENGE_SCHEMA)].

Section bundle.
Context {hashing : Hashing}.

(** [load_python_call_bundle], from the bytes of the oracle on. *)
Definition bundle_of_bytes (protocol : PythonCallProtocol) (expected_case_count : Z) (raw_bytes : list Byte.byte)
    : result PythonCallBundle :=
  _ ← configured (Z.of_nat (length raw_bytes) <=? _MAX_ORACLE_BYTES) "evaluation cases exceed the protocol byte limit";
  raw ← _strict_json_object raw_bytes;
  _ ← configured (exactly_keys ["schema_version"; "cases"] raw)
        "evaluation cases must contain exactly schema_version and cases";
  _ ← configured (bool_decide (jget raw "schema_version" = Some (JStr _ORACLE_SCHEMA)))
        "evaluation cases use an unsupported schema";
  raw_cases ← match jget raw "cases" with
              | Some (JArr l) =>
                  _ ← configured (bool_decide (l ≠ []) && (Z.of_nat (length l) <=? _MAX_CASES))
                        "evaluation cases must be a non-empty bounded array";
                  Ok l
              | _ => misconfigured "evaluation cases must be a non-empty bounded array"
              end;
  _ ← configured (Z.of_nat (length raw_cases) =? expected_case_count)
        "evaluation case count does not match expected_test_count";
  lists ← foldM check_case {| oracle_cases := []; challenge_cases := []; seen_case_ids := [] |} raw_cases;
  let oracle := oracle_of (oracle_cases lists) in
  let challenge := challenge_of protocol (challenge_cases lists) in
  oracle_text ← canonical_json oracle;
  challenge_text ← canonical_json challenge;
  let oracle_bytes := utf8_encode oracle_text in
  let challenge_bytes := utf8_encode challenge_text in
  Ok {| challenge := challenge; challenge_bytes := challenge_bytes; challenge_sha256 := sha256_bytes challenge_bytes;
        oracle := oracle; oracle_bytes := oracle_bytes; oracle_sha256 := sha256_bytes oracle_bytes;
        case_count := Z.of_nat (length (oracle_cases lists)) |}.

(** [load_python_call_bundle(protocol, expected_case_count=...)] *)
Definition load_python_call_bundle `{World} `{Workspaces} (protocol : PythonCallProtocol) (expected_case_count : Z)
    : Sys PythonCallBundle :=
  match pc_sealed_cases_bytes protocol with
  | Some raw_bytes => lift (bundle_of_bytes protocol expected_case_count raw_bytes)
  | None =>
      let file := pc_cases_file protocol in
      o ← call (λ _, lstat file);
      match o with
      | OSError _ => lift (misconfigured "cannot read evaluation cases")
      | Done m =>
          data ← ask (λ n, read_bytes n file);
          raw_bytes ← lift match data with Done bs => Ok bs | OSError _ => misconfigured "cannot read evaluation cases" end;
          link ← is_symlink file;
          _ ← lift (configured (negb link && is_kind Regular m) "evaluation cases must be a regular non-symlink file");
          lift (bundle_of_bytes protocol expected_case_count raw_bytes)
      end
  end.
End bundle.
