(* ===== verification/ProtocolFacts.v ===== *)
(** * What a sealed oracle is worth (src/guildmind/evaluation/protocol.py)

    Sealing is stable: the canonical oracle reads back to the same bundle.  The challenge
    says which calls are made, and nothing about what is expected of them. *)

From Stdlib Require Import Ascii.
From S2P Require Import Prelude Order Loop Effects PyStr Files Float64 Json Text Patch Hash Datetime Fields.
From S2P Require Import Usage Models Specs LocalEvaluation Protocol.

Local Open Scope Z_scope.

(** ** Values and their sorted forms *)

Definition valid_at (depth : Z) (v : json) : Prop := _validate_json_value depth v = Ok tt.

Lemma valid_items depth l : (fix items l := match l with
    | [] => Ok tt
    | x :: l => _ ← _validate_json_value depth x; items l
    end) l = Ok tt ↔ Forall (valid_at depth) l.
Proof.
  unfold valid_at. induction l as [|x l IH]; [by split; [constructor|]|]. rewrite Forall_cons, <- IH.
  destruct (_validate_json_value depth x) as [[]|]; cbn [mbind result_bind]; naive_solver.
Qed.

Lemma valid_members depth (o : dict) : (fix members (o : dict) := match o with
    | [] => Ok tt
    | kv :: o => _ ← _validate_json_value depth kv.2; members o
    end) o = Ok tt ↔ Forall (λ kv, valid_at depth kv.2) o.
Proof.
  unfold valid_at. induction o as [|kv o IH]; [by split; [constructor|]|]. rewrite Forall_cons, <- IH.
  destruct (_validate_json_value depth kv.2) as [[]|]; cbn [mbind result_bind]; naive_solver.
Qed.

Lemma valid_inv depth v : valid_at depth v ↔ (depth <= _MAX_JSON_DEPTH ∧
  match v with
  | JFloat f => is_finite f = true
  | JArr l => Forall (valid_at (depth + 1)) l
  | JObj o => Forall (λ kv, valid_at (depth + 1) kv.2) o
  | _ => True
  end).
Proof.
  unfold valid_at at 1, configured. rewrite <- Z.leb_le.
  destruct v; cbn [_validate_json_value]; unfold configured; destruct (depth <=? _MAX_JSON_DEPTH); cbn [require mbind result_bind];
    rewrite ?valid_items, ?valid_members, ?require_Ok; naive_solver.
Qed.

Lemma valid_sort depth v : valid_at depth v → valid_at depth (sort_json v).
Proof.
  revert depth. induction v as [|b|z|f|s|l IH|o IH] using json_ind'; intros depth; try done;
    rewrite !valid_inv; intros [Hd H]; (split; [done|]); cbn [sort_json].
  - apply Forall_fmap. rewrite Forall_forall in *. intros x Hx. by apply (IH x Hx), H.
  - rewrite merge_sort_Permutation. apply Forall_fmap. rewrite Forall_forall in *. intros x Hx. by apply (IH x Hx), H.
Qed.

Lemma canonical_json_sorted v : json_wf v = true → canonical_json (sort_json v) = canonical_json v.
Proof.
  intros Hw. unfold canonical_json, _json_compatible. rewrite sort_json_finite.
  destruct (finite_json v); [|done]. cbn [mbind result_bind]. by rewrite sort_json_idemp.
Qed.

Lemma sort_dict_length o : length (sort_dict o) = length o.
Proof. unfold sort_dict. cbn [sort_json]. by rewrite merge_sort_Permutation, length_fmap. Qed.

Lemma sort_dict_keys o : keys (sort_dict o) ≡ₚ keys o.
Proof. unfold sort_dict. cbn [sort_json]. rewrite (keys_perm _ _ (merge_sort_Permutation _ _)). by rewrite keys_map. Qed.

Lemma has_key_perm (o o' : dict) k : keys o ≡ₚ keys o' → has_key o k = has_key o' k.
Proof.
  intros H. apply eq_bool_prop_intro. rewrite !Is_true_true, !has_key_In. by rewrite H.
Qed.

Lemma exactly_keys_perm names o o' : keys o ≡ₚ keys o' → exactly_keys names o = exactly_keys names o'.
Proof.
  intros H. unfold exactly_keys. f_equal; [|by apply forallb_perm].
  induction names as [|k names IH]; [done|]. cbn [forallb]. by rewrite IH, (has_key_perm _ _ _ H).
Qed.

Lemma get_sort o k : nodup_keys o = true → get (sort_dict o) k = sort_json (get o k).
Proof. intros H. unfold get. rewrite jget_sort_dict by done. by destruct (jget o k). Qed.

Lemma get_wf o k : json_wf (JObj o) = true → json_wf (get o k) = true.
Proof.
  cbn [json_wf]. intros [_ Hw]%andb_true_iff. unfold get.
  induction o as [|[k' v] o IH]; [done|]. cbn [jget forallb snd] in *. apply andb_true_iff in Hw as [Hv Hw].
  destruct (str_eqb k k'); [done|by apply IH].
Qed.

(** ** Cases *)

(** A call, and what is expected of it. *)
Record case := { call_id : string; call_args : list json; call_kwargs : dict; call_expected : dict }.

Definition case_json (c : case) : json :=
  JObj [("args", JArr (call_args c)); ("case_id", JStr (call_id c)); ("expected", JObj (call_expected c));
        ("kwargs", JObj (call_kwargs c))].
Definition call_json (c : case) : json :=
  JObj [("args", JArr (call_args c)); ("case_id", JStr (call_id c)); ("kwargs", JObj (call_kwargs c))].

Definition case_name (i : nat) : string := "case-" +:+ zero_pad 4 (N.of_nat i).

(** What is checked of the case numbered [i]. *)
Record valid_case (i : nat) (c : case) : Prop := {
  vc_id : call_id c = case_name i;
  vc_pattern : is_case_id (call_id c) = true;
  vc_args : Z.of_nat (length (call_args c)) <= _MAX_ARGUMENTS;
  vc_kwargs : Z.of_nat (length (call_kwargs c)) <= _MAX_ARGUMENTS;
  vc_names : forallb is_identifier (keys (call_kwargs c)) = true;
  vc_expected : exactly_keys ["kind"; "value"] (call_expected c) = true;
  vc_kind : get (call_expected c) "kind" = JStr "returned";
  vc_args_valid : valid_at 0 (JArr (call_args c));
  vc_kwargs_valid : valid_at 0 (JObj (call_kwargs c));
  vc_value_valid : valid_at 0 (get (call_expected c) "value");
  vc_wf : json_wf (case_json c) = true;
}.

Definition numbered (cs : list case) : Prop := ∀ i c, cs !! i = Some c → valid_case (S i) c.

(** The lists that the loop has built. *)
Record holds (s : CaseLists) (cs : list case) : Prop := {
  hd_oracle : oracle_cases s = case_json <$> cs;
  hd_challenge : challenge_cases s = call_json <$> cs;
  hd_seen : seen_case_ids s = reverse (call_id <$> cs);
}.

Lemma case_name_inj i j : case_name i = case_name j → i = j.
Proof. unfold case_name. intros H. apply (inj (String.append "case-")) in H. apply zero_pad_inj in H. lia. Qed.

Lemma numbered_snoc cs c : numbered cs → valid_case (S (length cs)) c → numbered (cs ++ [c]).
Proof.
  intros Hn Hc i c' Hi. apply lookup_snoc_Some in Hi as [[_ Hi]|[-> ->]]; [by apply Hn|done].
Qed.

Lemma numbered_fresh cs i c : numbered cs → valid_case i c → (length cs < i)%nat →
  existsb (str_eqb (call_id c)) (reverse (call_id <$> cs)) = false.
Proof.
  intros Hn Hc Hi. apply not_true_iff_false. rewrite existsb_exists. intros (x & Hx & E).
  apply list_elem_of_In in Hx. rewrite elem_of_reverse, list_elem_of_fmap in Hx. destruct Hx as (c' & -> & Hc').
  apply list_elem_of_lookup in Hc' as [j Hj]. apply String.eqb_eq in E.
  rewrite (vc_id _ _ Hc), (vc_id _ _ (Hn _ _ Hj)) in E. apply case_name_inj in E.
  apply lookup_lt_Some in Hj. lia.
Qed.

Lemma check_case_sound s cs raw s' : holds s cs → json_wf raw = true → check_case s raw = Ok s' →
  ∃ c, valid_case (S (length cs)) c ∧ holds s' (cs ++ [c]).
Proof.
  intros [Ho Hc Hs] Hw H. destruct raw as [| | | | | |o]; try done. unfold check_case, configured in H.
  rewrite Ho, length_fmap in H. inv_ok.
  destruct (get o "case_id") as [| | | |id| |] eqn:Eid; try done.
  destruct (get o "args") as [| | | | |args|] eqn:Ea; try done.
  destruct (get o "kwargs") as [| | | | | |kw] eqn:Ek; try done.
  destruct (get o "expected") as [| | | | | |ex] eqn:Ee; try done. inv_ok. split_andb.
  repeat match goal with H : str_eqb _ _ = true |- _ => apply String.eqb_eq in H end.
  repeat match goal with H : (_ <=? _) = true |- _ => apply Z.leb_le in H end.
  match type of Ee with _ = JObj ?x => rename x into ex end.
  pose proof (get_wf o "args" Hw) as Wa. pose proof (get_wf o "kwargs" Hw) as Wk. pose proof (get_wf o "expected" Hw) as We.
  rewrite Ea in Wa. rewrite Ek in Wk. rewrite Ee in We.
  exists {| call_id := case_name (S (length cs)); call_args := args; call_kwargs := kw; call_expected := ex |}. split.
  - subst. constructor; cbn [call_id call_args call_kwargs call_expected]; try done.
    cbn [case_json json_wf nodup_keys forallb snd call_id call_args call_kwargs call_expected] in *.
    by rewrite Wa, Wk, We.
  - subst. constructor; cbn [oracle_cases challenge_cases seen_case_ids]; rewrite ?Ho, ?Hc, ?Hs, ?fmap_app, ?reverse_app; done.
Qed.

Lemma check_case_complete s cs c : holds s cs → numbered cs → valid_case (S (length cs)) c →
  ∃ s', check_case s (case_json c) = Ok s' ∧ holds s' (cs ++ [c]).
Proof.
  intros [Ho Hc Hs] Hn Hv. pose proof (numbered_fresh _ _ _ Hn Hv ltac:(lia)) as Hf. eexists. split.
  - unfold check_case, case_json, configured. rewrite Ho, Hs, length_fmap.
    change (exactly_keys _ [("args", _); _; _; _]) with true.
    change (get _ "case_id") with (JStr (call_id c)). change (get _ "args") with (JArr (call_args c)).
    change (get _ "kwargs") with (JObj (call_kwargs c)). change (get [("args", _); _; _; _] "expected") with (JObj (call_expected c)).
    destruct Hv. rewrite vc_pattern0. cbn [require mbind result_bind].
    replace (str_eqb _ _) with true by (symmetry; by apply String.eqb_eq). cbn [require mbind result_bind]. rewrite Hf. cbn [require mbind result_bind negb].
    apply Z.leb_le in vc_args0, vc_kwargs0. rewrite vc_args0, vc_kwargs0. cbn [require mbind result_bind].
    rewrite vc_names0, vc_expected0, vc_kind0. cbn [require mbind result_bind].
    rewrite (bool_decide_eq_true_2 (JStr "returned" = JStr "returned")) by done. cbn [require mbind result_bind].
    rewrite vc_args_valid0, vc_kwargs_valid0, vc_value_valid0. cbn [mbind result_bind]. reflexivity.
  - constructor; cbn [oracle_cases challenge_cases seen_case_ids]; rewrite ?Ho, ?Hc, ?Hs, ?fmap_app, ?reverse_app; done.
Qed.

Lemma cases_sound raws s cs s' : holds s cs → numbered cs → forallb json_wf raws = true →
  foldM check_case s raws = Ok s' →
  ∃ more, holds s' (cs ++ more) ∧ numbered (cs ++ more) ∧ length more = length raws.
Proof.
  revert s cs. induction raws as [|raw raws IH]; intros s cs Hs Hn Hw H; cbn [foldM forallb] in *.
  - injection H as <-. exists []. by rewrite app_nil_r.
  - apply andb_true_iff in Hw as [Hw1 Hw]. apply bind_Ok in H as (s1 & H1 & H).
    destruct (check_case_sound _ _ _ _ Hs Hw1 H1) as (c & Hc & Hs1).
    destruct (IH s1 (cs ++ [c]) Hs1 (numbered_snoc _ _ Hn Hc) Hw H) as (more & Hm & Hnm & Hl).
    exists (c :: more). rewrite <- app_assoc in *. simpl. auto.
Qed.

Lemma cases_complete more s cs : holds s cs → numbered (cs ++ more) →
  ∃ s', foldM check_case s (case_json <$> more) = Ok s' ∧ holds s' (cs ++ more).
Proof.
  revert s cs. induction more as [|c more IH]; intros s cs Hs Hn.
  - exists s. by rewrite app_nil_r.
  - assert (valid_case (S (length cs)) c) as Hc by (apply Hn; by rewrite lookup_app_r, Nat.sub_diag).
    assert (numbered cs) as Hn' by (intros i c' Hi; apply Hn; by apply lookup_app_l_Some).
    destruct (check_case_complete _ _ _ Hs Hn' Hc) as (s1 & E & Hs1).
    destruct (IH s1 (cs ++ [c]) Hs1) as (s' & E' & Hs'); [by rewrite <- app_assoc|].
    exists s'. rewrite <- app_assoc in Hs'. split; [|done]. cbn [fmap list_fmap map foldM]. by rewrite E.
Qed.

Definition no_cases : CaseLists := {| oracle_cases := []; challenge_cases := []; seen_case_ids := [] |}.

Lemma holds_none : holds no_cases [].
Proof. done. Qed.

(** ** Sealing a case *)

Definition seal_case (c : case) : case :=
  {| call_id := call_id c; call_args := sort_json <$> call_args c; call_kwargs := sort_dict (call_kwargs c);
     call_expected := sort_dict (call_expected c) |}.

Lemma sort_case_json c : sort_json (case_json c) = case_json (seal_case c).
Proof. reflexivity. Qed.

Lemma sort_call_json c : sort_json (call_json c) = call_json (seal_case c).
Proof. reflexivity. Qed.

Lemma case_wf c : json_wf (case_json c) = true → json_wf (call_json c) = true ∧
  json_wf (JObj (call_kwargs c)) = true ∧ nodup_keys (call_expected c) = true.
Proof.
  unfold case_json, call_json. cbn [json_wf nodup_keys forallb snd]. intros H. split_andb.
  repeat match goal with H : ?b = true |- context [?b] => rewrite H end. done.
Qed.

Lemma seal_valid i c : valid_case i c → valid_case i (seal_case c).
Proof.
  intros H. pose proof (case_wf _ (vc_wf _ _ H)) as (_ & Hk & Hnd). destruct H.
  constructor; cbn [seal_case call_id call_args call_kwargs call_expected]; try done.
  - by rewrite length_fmap.
  - by rewrite sort_dict_length.
  - by rewrite (forallb_perm _ _ _ (sort_dict_keys _)).
  - by rewrite (exactly_keys_perm _ _ _ (sort_dict_keys _)).
  - by rewrite get_sort, vc_kind0.
  - by apply (valid_sort 0 (JArr _)).
  - by apply (valid_sort 0 (JObj _)).
  - rewrite get_sort by done. by apply valid_sort.
  - change (json_wf (sort_json (case_json c)) = true). by rewrite sort_json_wf.
Qed.

Lemma seal_numbered cs : numbered cs → numbered (seal_case <$> cs).
Proof.
  intros H i c Hi. rewrite list_lookup_fmap in Hi. apply fmap_Some in Hi as (c' & Hi & ->). by apply seal_valid, H.
Qed.

Lemma numbered_wf cs : numbered cs →
  forallb json_wf (case_json <$> cs) = true ∧ forallb json_wf (call_json <$> cs) = true.
Proof.
  intros H. rewrite !forallb_forall. split; intros x Hx; apply list_elem_of_In, list_elem_of_fmap in Hx as (c & -> & Hc);
    apply list_elem_of_lookup in Hc as [i Hi]; pose proof (vc_wf _ _ (H _ _ Hi)); [done|by apply case_wf].
Qed.

Section bundle.
Context {hashing : Hashing}.

(** What an accepted oracle is: numbered cases, and both texts derived from them. *)
Record bundle_from (protocol : PythonCallProtocol) (n : Z) (cs : list case) (b : PythonCallBundle) : Prop := {
  bf_numbered : numbered cs;
  bf_count : cs ≠ [] ∧ Z.of_nat (length cs) = n ∧ n <= _MAX_CASES;
  bf_oracle : oracle b = oracle_of (case_json <$> cs);
  bf_challenge : challenge b = challenge_of protocol (call_json <$> cs);
  bf_oracle_text : ∃ text, canonical_json (oracle b) = Ok text ∧ oracle_bytes b = utf8_encode text;
  bf_challenge_text : ∃ text, canonical_json (challenge b) = Ok text ∧ challenge_bytes b = utf8_encode text;
  bf_hashes : oracle_sha256 b = sha256_bytes (oracle_bytes b) ∧ challenge_sha256 b = sha256_bytes (challenge_bytes b);
  bf_cases : case_count b = Z.of_nat (length cs);
}.

Lemma strict_object_wf data o : _strict_json_object data = Ok o → json_wf (JObj o) = true.
Proof.
  unfold _strict_json_object, loads_bytes. intros H. apply bind_Ok in H as (v & H & Hv).
  apply except_Ok, bind_Ok in H as (text & _ & H). apply loads_with_wf in H. by destruct v; try done; injection Hv as <-.
Qed.

Lemma bundle_sound protocol n raw b : bundle_of_bytes protocol n raw = Ok b → ∃ cs, bundle_from protocol n cs b.
Proof.
  unfold bundle_of_bytes, configured. intros H.
  apply bind_Ok in H as (? & _ & H). apply bind_Ok in H as (o & Hw%strict_object_wf & H).
  apply bind_Ok in H as (? & _ & H). apply bind_Ok in H as (? & _ & H).
  apply bind_Ok in H as (raws & Hr & H). apply bind_Ok in H as (? & Hn%require_Ok%Z.eqb_eq & H).
  apply bind_Ok in H as (s & Hs & H). apply bind_Ok in H as (ot & Hot & H). apply bind_Ok in H as (ct & Hct & H).
  injection H as <-. pose proof (get_wf o "cases" Hw) as Hl. unfold get in Hl.
  destruct (jget o "cases") as [[| | | | |l|]|]; try done. apply bind_Ok in Hr as (? & Hr%require_Ok & [= ->]).
  split_andb. apply Z.leb_le in H0.
  destruct (cases_sound raws _ [] s holds_none) as (cs & [Ho Hc _] & Hnum & Hlen); [done|exact Hl|exact Hs|].
  cbn [app] in *. exists cs.
  constructor; cbn [oracle challenge oracle_bytes challenge_bytes oracle_sha256 challenge_sha256 case_count];
    rewrite <- ?Ho, <- ?Hc; try done.
  - split; [intros ->; by destruct raws|lia].
  - eauto.
  - eauto.
  - by rewrite Ho, length_fmap.
Qed.

(** A text that starts as an object with members does is taken for UTF-8. *)
Lemma decode_object rest : decode_json (utf8_encode (String "{" (String (chr 34) rest))) =
  Some (String "{" (String (chr 34) rest)).
Proof.
  unfold decode_json. replace (detect_encoding _) with UTF8; [apply utf8_decode_encode|].
  cbn [utf8_encode]. change (utf8_char "{") with [Byte.x7b]. change (utf8_char (chr 34)) with [Byte.x22].
  cbn [app]. generalize (utf8_encode rest). intros [|c [|d l]]; reflexivity.
Qed.

Lemma sort_oracle cs : sort_json (oracle_of (case_json <$> cs)) = oracle_of (case_json <$> (seal_case <$> cs)).
Proof.
  assert (sort_json <$> (case_json <$> cs) = case_json <$> (seal_case <$> cs)) as <- by (by rewrite <- !list_fmap_compose).
  reflexivity.
Qed.

Lemma sort_challenge protocol cs :
  sort_json (challenge_of protocol (call_json <$> cs)) = challenge_of protocol (call_json <$> (seal_case <$> cs)).
Proof.
  assert (sort_json <$> (call_json <$> cs) = call_json <$> (seal_case <$> cs)) as <- by (by rewrite <- !list_fmap_compose).
  reflexivity.
Qed.

Lemma bundle_complete protocol cs text ctext : numbered cs → cs ≠ [] → Z.of_nat (length cs) <= _MAX_CASES →
  canonical_json (oracle_of (case_json <$> cs)) = Ok text → canonical_json (challenge_of protocol (call_json <$> cs)) = Ok ctext →
  Z.of_nat (length (utf8_encode text)) <= _MAX_ORACLE_BYTES →
  ∃ b, bundle_of_bytes protocol (Z.of_nat (length cs)) (utf8_encode text) = Ok b ∧
       bundle_from protocol (Z.of_nat (length cs)) (seal_case <$> cs) b ∧
       oracle_bytes b = utf8_encode text ∧ challenge_bytes b = utf8_encode ctext.
Proof.
  intros Hn Hne Hmax Ht Hc Hlen. pose proof (numbered_wf _ Hn) as [Wo Wc].
  assert (json_wf (oracle_of (case_json <$> cs)) = true) as Wor by (cbn; by rewrite Wo).
  assert (json_wf (challenge_of protocol (call_json <$> cs)) = true) as Wch by (cbn; by rewrite Wc).
  pose proof (sort_oracle cs) as Eo. pose proof (sort_challenge protocol cs) as Ec.
  pose proof (loads_with_canonical true _ _ Wor Ht) as Hl. rewrite Eo in Hl.
  assert (_strict_json_object (utf8_encode text) =
    Ok [("cases", JArr (case_json <$> (seal_case <$> cs))); ("schema_version", JStr _ORACLE_SCHEMA)]) as Hs.
  { unfold _strict_json_object, loads_bytes. apply canonical_json_inv in Ht as [_ ->].
    assert (∃ rest, dumps (sort_json (oracle_of (case_json <$> cs))) = String "{" (String (chr 34) rest)) as [rest E]
      by (rewrite Eo; by eexists).
    rewrite E in *. rewrite decode_object. cbn [of_option mbind result_bind]. by rewrite Hl. }
  destruct (cases_complete (seal_case <$> cs) no_cases [] holds_none) as (s & Hf & [Ho Hch _]); [by apply seal_numbered|].
  cbn [app] in *. pose proof (canonical_json_sorted _ Wor) as Co. pose proof (canonical_json_sorted _ Wch) as Cc.
  rewrite Eo, Ht in Co. rewrite Ec, Hc in Cc.
  eexists. unfold bundle_of_bytes, configured. apply Z.leb_le in Hlen. rewrite Hlen. cbn [require mbind result_bind].
  rewrite Hs. cbn [mbind result_bind]. change (exactly_keys _ [("cases", _); _]) with true.
  rewrite (bool_decide_eq_true_2 (jget _ "schema_version" = _)) by reflexivity.
  change (jget [("cases", ?l); _] "cases") with (Some l). cbn [require mbind result_bind].
  rewrite !length_fmap. rewrite bool_decide_eq_true_2 by (by destruct cs). apply Z.leb_le in Hmax. rewrite Hmax.
  cbn [require mbind result_bind andb]. rewrite !length_fmap, Z.eqb_refl. cbn [require mbind result_bind].
  fold no_cases. rewrite Hf. cbn [mbind result_bind]. rewrite Ho, Hch, Co, Cc. cbn [mbind result_bind].
  split; [reflexivity|]. apply Z.leb_le in Hmax.
  split; [|done]. constructor; cbn [oracle challenge oracle_bytes challenge_bytes oracle_sha256 challenge_sha256 case_count];
    rewrite ?length_fmap; eauto using seal_numbered.
  split; [by destruct cs|done].
Qed.

(** C38. Sealing an oracle is stable: when a fixture's cases were accepted and their
    canonical text keeps the byte limit, reading that text again accepts it and gives the
    same bundle, up to the order of keys in the values it holds: the same bytes, the same
    hashes and the same number of cases. *)
Theorem sealed_oracle_reads_back protocol n raw b : bundle_of_bytes protocol n raw = Ok b →
  Z.of_nat (length (oracle_bytes b)) <= _MAX_ORACLE_BYTES →
  ∃ b', bundle_of_bytes protocol n (oracle_bytes b) = Ok b' ∧
    oracle_bytes b' = oracle_bytes b ∧ oracle_sha256 b' = oracle_sha256 b ∧
    challenge_bytes b' = challenge_bytes b ∧ challenge_sha256 b' = challenge_sha256 b ∧
    case_count b' = case_count b ∧ oracle b' = sort_json (oracle b) ∧ challenge b' = sort_json (challenge b).
Proof.
  intros (cs & [Hn (Hne & <- & Hmax) Ho Hc (text & Ht & Eo) (ctext & Hct & Ec) (Ho2 & Hc2) Hcount])%bundle_sound Hlen.
  rewrite Ho in Ht. rewrite Hc in Hct. rewrite Eo in *.
  destruct (bundle_complete _ _ _ _ Hn Hne Hmax Ht Hct Hlen) as (b' & Hb & [_ _ Ho' Hc' _ _ (Ho2' & Hc2') Hcount'] & Eo' & Ec').
  exists b'. split; [done|]. rewrite Eo', Ec', Ho2', Hc2', Eo', Ec', Ec, Ho2, Hc2, Ec, Hcount, Hcount', length_fmap.
  do 5 (split; [done|]). by rewrite Ho, Hc, Ho', Hc', sort_oracle, sort_challenge.
Qed.

(** The calls that an oracle makes: its cases without what is expected of them. *)
Definition calls (oracle : json) : list json :=
  match oracle with
  | JObj o =>
      match get o "cases" with
      | JArr l => (λ c, match c with JObj case => JObj (dict_pop "expected" case) | _ => c end) <$> l
      | _ => []
      end
  | _ => []
  end.

(** C39. The challenge says which calls are made and nothing else: of two oracles accepted
    for the same entry point, the challenges have the same bytes exactly when the calls are
    the same, up to the order of keys, whatever is expected of them. *)
Theorem challenge_says_only_the_calls protocol n1 n2 raw1 raw2 b1 b2 :
  bundle_of_bytes protocol n1 raw1 = Ok b1 → bundle_of_bytes protocol n2 raw2 = Ok b2 →
  challenge_bytes b1 = challenge_bytes b2 ↔ sort_json <$> calls (oracle b1) = sort_json <$> calls (oracle b2).
Proof.
  intros (cs1 & B1)%bundle_sound (cs2 & B2)%bundle_sound.
  assert (∀ n cs b, bundle_from protocol n cs b → calls (oracle b) = call_json <$> cs ∧
    json_wf (challenge b) = true ∧ ∃ text, canonical_json (challenge b) = Ok text ∧ challenge_bytes b = utf8_encode text ∧
    text = dumps (JObj (("cases", JArr (sort_json <$> (call_json <$> cs))) :: drop 1 (match challenge_of protocol [] with JObj o => o | _ => [] end))))
    as Hb.
  { intros n cs b [Hn _ Ho Hc _ (text & Ht & Et) _ _]. split; [rewrite Ho; cbn; by rewrite <- list_fmap_compose|].
    rewrite Hc in *. split; [cbn; by rewrite (proj2 (numbered_wf _ Hn))|]. exists text. split; [done|]. split; [done|].
    apply canonical_json_inv in Ht as [_ ->]. reflexivity. }
  destruct (Hb _ _ _ B1) as (-> & W1 & t1 & C1 & -> & E1), (Hb _ _ _ B2) as (-> & W2 & t2 & C2 & -> & E2). split.
  - intros E%utf8_encode_inj. rewrite <- E in C2. pose proof (canonical_json_inj _ _ _ W1 W2 C1 C2) as Hs.
    rewrite (bf_challenge _ _ _ _ B1), (bf_challenge _ _ _ _ B2) in Hs. by injection Hs.
  - intros E. by rewrite E1, E2, E.
Qed.

(** No accepted oracle has ten thousand cases, although [_MAX_CASES] would allow them: the
    name of the last one does not have the pattern of a case. *)
Lemma cases_bounded protocol n raw b : bundle_of_bytes protocol n raw = Ok b → case_count b <= 9999.
Proof.
  intros (cs & [Hn (Hne & _) _ _ _ _ _ ->])%bundle_sound.
  destruct (exists_last Hne) as (cs' & c & ->). rewrite length_app. simpl.
  assert (valid_case (S (length cs')) c) as Hv by (apply Hn; by rewrite lookup_app_r, Nat.sub_diag).
  pose proof (vc_pattern _ _ Hv) as Hp. rewrite (vc_id _ _ Hv) in Hp. unfold is_case_id, case_name in Hp.
  rewrite (proj2 (literal_spec _ _ _) eq_refl) in Hp. split_andb. apply Nat.eqb_eq in H.
  pose proof (dval_bound (zero_pad 4 (N.of_nat (S (length cs')))) 0 H0) as Hb. rewrite dval_zero_pad, H in Hb. lia.
Qed.
End bundle.

(** ** A sample oracle *)

Definition sample_call (expected : Z) : json :=
  JObj [("kwargs", JObj [("b", JInt 2); ("a", JInt 1)]); ("case_id", JStr "case-0001"); ("args", JArr [JStr "x"]);
        ("expected", JObj [("value", JInt expected); ("kind", JStr "returned")])].
Definition sample_cases (expected : Z) : list Byte.byte :=
  utf8_encode (dumps (JObj [("schema_version", JStr _ORACLE_SCHEMA); ("cases", JArr [sample_call expected])])).
Definition sample_protocol : PythonCallProtocol :=
  {| pc_module := "pkg.mod"; pc_callable_name := "run"; pc_cases_file := ["cases.json"]; pc_sealed_cases_bytes := None |}.


Definition sample_bundle (expected : Z) : result PythonCallBundle :=
  bundle_of_bytes (hashing := constant_hashing) sample_protocol 1 (sample_cases expected).
(** The bundle, for a result that is one. *)
Definition bundle_or (d : PythonCallBundle) (r : result PythonCallBundle) : PythonCallBundle :=
  match r with Ok b => b | Err _ => d end.
Definition no_bundle : PythonCallBundle :=
  {| challenge := JNull; challenge_bytes := []; challenge_sha256 := ""; oracle := JNull; oracle_bytes := [];
     oracle_sha256 := ""; case_count := 0 |}.
Definition bundle_4 : PythonCallBundle := Eval vm_compute in bundle_or no_bundle (sample_bundle 4).
Definition bundle_5 : PythonCallBundle := Eval vm_compute in bundle_or no_bundle (sample_bundle 5).

Lemma sealed_oracle_reads_back_witness : ∃ b', bundle_of_bytes (hashing := constant_hashing) sample_protocol 1
  (oracle_bytes bundle_4) = Ok b' ∧ challenge_bytes b' = challenge_bytes bundle_4.
Proof.
  destruct (sealed_oracle_reads_back (hashing := constant_hashing) sample_protocol 1 (sample_cases 4) bundle_4)
    as (b' & H & _ & _ & Hc & _); [by vm_compute|by vm_compute|]. eauto.
Defined.

(** Two oracles that expect different values of the same call. *)
Lemma challenge_says_only_the_calls_witness :
  oracle_bytes bundle_4 ≠ oracle_bytes bundle_5 ∧ challenge_bytes bundle_4 = challenge_bytes bundle_5.
Proof.
  split; [by vm_compute|].
  apply (challenge_says_only_the_calls (hashing := constant_hashing) sample_protocol 1 1 (sample_cases 4) (sample_cases 5)
           bundle_4 bundle_5); by vm_compute.
Defined.

(** The message of a rejection speaks of UTF-8, but an oracle in UTF-16 is accepted. *)
Example utf16_is_accepted : is_ok (bundle_of_bytes (hashing := constant_hashing) sample_protocol 1
  (concat ((λ b, [b; Byte.x00]) <$> sample_cases 4))) = true.
Proof. by vm_compute. Qed.
