(* ===== verification/Wire.v ===== *)
(** * Records on the wire (src/guildmind/domain/)

    A [Stored] record has a constructor that settles, a dump that is well formed, and a
    validator that reads the sorted dump back.  Its canonical text then reads back as the
    record, and determines it.  [native] is what Python's types already guarantee of the
    fields: that a float is a binary64 value. *)

From S2P Require Import Prelude PyStr Float64 Json Hash Datetime Fields Usage Models Specs.

Class Stored {A : Type} (native : A → Prop) (check : A → result A) (dump : A → json)
    (validate : json → result A) := {
  stored_settles : settles check;
  stored_wf : ∀ a, native a → check a = Ok a → json_wf (dump a) = true;
  stored_round : ∀ a, check a = Ok a → validate (sort_json (dump a)) = Ok a;
}.

(** What every use of a stored record relies on: the constructor accepts what it returned;
    the canonical text of a record reads back as the record; no other record has it. *)
Definition reads_back {A} (native : A → Prop) (check : A → result A) (dump : A → json)
    (validate : json → result A) : Prop :=
  ∀ a b, check a = Ok b → native b →
    check b = Ok b ∧
    ∀ text, canonical_json (dump b) = Ok text →
      (v ← loads text; validate v) = Ok b ∧
      ∀ c, native c → check c = Ok c → canonical_json (dump c) = Ok text → c = b.

Lemma stored_reads_back {A} native check dump validate `{!@Stored A native check dump validate} :
  reads_back native check dump validate.
Proof.
  intros a b Hab Hn. assert (check b = Ok b) as Hb by (by eapply stored_settles).
  assert (∀ c text, native c → check c = Ok c → canonical_json (dump c) = Ok text →
    (v ← loads text; validate v) = Ok c) as Hr.
  { intros c text Hc Hcc Ht. rewrite (loads_canonical _ _ (stored_wf _ Hc Hcc) Ht). simpl. by apply stored_round. }
  split; [done|]. intros text Ht. split; [by apply Hr|]. intros c Hc Hcc Ht'.
  pose proof (Hr _ _ Hn Hb Ht) as E1. rewrite (Hr _ _ Hc Hcc Ht') in E1. by injection E1.
Qed.

Definition any {A} (a : A) : Prop := True.

Section records.
Context {hashing : Hashing} {datetimes : PydanticDatetime}.

Lemma dump_artifact_list_wf l : json_wf (dump_artifact_list l) = true.
Proof. unfold dump_artifact_list. cbn [json_wf]. induction l; done. Qed.

#[export] Instance manifest_stored : Stored any check_manifest dump_manifest validate_manifest.
Proof.
  split; [apply settles_manifest| |apply validate_dump_manifest]. intros m _ Hm. by destruct (dump_manifest_wf m Hm).
Qed.

#[export] Instance event_stored : Stored any check_event dump_event validate_event.
Proof.
  split; [apply settles_event| |apply validate_dump_event]. intros e _ He. by destruct (dump_event_wf e He).
Qed.

Definition native_evaluation (e : EvaluationResult) : Prop := ∀ f, score e = Some f → float_valid f = true.

#[export] Instance evaluation_stored : Stored native_evaluation check_evaluation dump_evaluation validate_evaluation.
Proof.
  split; [apply settles_evaluation| |apply validate_dump_evaluation]. intros e Hn He.
  destruct (check_evaluation_inv e e He) as (Hp & _). apply dict_ok_wf in Hp.
  unfold dump_evaluation. cbn [json_wf forallb snd]. cbn [json_wf] in Hp.
  rewrite Hp, dump_artifact_list_wf, !(proj1 (dump_opt_str_wf _)).
  destruct (score e) as [f|] eqn:E; [|reflexivity]. cbn [dump_opt json_wf]. by rewrite (Hn f E).
Qed.

#[export] Instance task_stored : Stored any check_task dump_task validate_task.
Proof.
  split; [apply settles_task| |apply validate_dump_task]. intros t _ Ht.
  assert (dict_ok (metadata t) = true) as Hp.
  { unfold check_task in Ht. inv_ok.
    match goal with H : c_dict _ = Ok _ |- _ => apply c_dict_ok in H; exact H end. }
  apply dict_ok_wf in Hp. unfold dump_task. cbn [json_wf forallb snd]. cbn [json_wf] in Hp.
  rewrite Hp, dump_artifact_list_wf. done.
Qed.

#[export] Instance experiment_stored : Stored any check_experiment dump_experiment validate_experiment.
Proof.
  split; [apply settles_experiment| |apply validate_dump_experiment]. intros x _ Hx.
  assert (limits_valid (es_budget_limits x) = true) as Hl.
  { unfold check_experiment in Hx. inv_ok.
    match goal with H : check_limits _ = Ok _ |- _ => by apply check_limits_Ok in H as [-> ?] end. }
  apply dump_limits_wf in Hl as [Hl _]. unfold dump_experiment. cbn [json_wf forallb snd].
  by rewrite Hl, !(proj1 (dump_strs_wf _)).
Qed.

#[export] Instance artifact_ref_stored : Stored any check_artifact_ref dump_artifact_ref validate_artifact_ref.
Proof. split; [apply settles_artifact_ref|done|apply validate_dump_artifact_ref]. Qed.

(** C31. Every record that is stored or hashed survives the wire: what its constructor
    returned it accepts unchanged, its canonical text reads back as the same record, and
    no other accepted record has that text. *)
Theorem records_read_back :
  reads_back any check_manifest dump_manifest validate_manifest ∧
  reads_back any check_event dump_event validate_event ∧
  reads_back native_evaluation check_evaluation dump_evaluation validate_evaluation ∧
  reads_back any check_task dump_task validate_task ∧
  reads_back any check_experiment dump_experiment validate_experiment ∧
  reads_back any check_artifact_ref dump_artifact_ref validate_artifact_ref.
Proof. split_and!; apply stored_reads_back; apply _. Qed.

(** Canonical text is a faithful name for a JSON value: reading it gives the value back
    with its keys sorted, writing that again gives the same text, and two values have the
    same text exactly when they differ in the order of keys only. *)
Theorem canonical_text_names_value v w text : json_wf v = true → json_wf w = true →
  canonical_json v = Ok text →
  loads text = Ok (sort_json v) ∧ canonical_json (sort_json v) = Ok text ∧
  (canonical_json w = Ok text ↔ sort_json w = sort_json v).
Proof.
  intros Hv Hw Ht. split; [by apply loads_canonical|].
  destruct (canonical_json_inv _ _ Ht) as [Hf ->].
  assert (finite_json (sort_json v) = true) as Hfs by (by rewrite sort_json_finite).
  split; [by rewrite canonical_json_ok, sort_json_idemp|]. split.
  - intros Hw'. eapply canonical_json_inj; [exact Hw|exact Hv|exact Hw'|exact Ht].
  - intros E. rewrite <- E. apply canonical_json_ok. rewrite <- E, sort_json_finite in Hfs; done.
Qed.

(** The outcome of an accepted evaluation and the status of its run determine each
    other as far as the protocol fixes them: the run is over, it succeeded exactly when
    the evaluation passed, a patch is named exactly when the evaluator ran, and the stated
    digest is the digest of the stated result. *)
Theorem accepted_evaluation_is_consistent e e' : check_evaluation e = Ok e' →
  is_terminal (er_run_status e') = true ∧ (outcome e' = Passed ↔ er_run_status e' = SUCCEEDED) ∧
  (patch_hash e' = None ↔ outcome e' = NotRun) ∧
  canonical_sha256 (JObj (er_result e')) = Ok (result_sha256 e').
Proof. apply evaluation_outcome_status. Qed.
End records.

Lemma canonical_text_names_value_witness : ∃ text,
  canonical_json (JObj [("b", JInt 1); ("a", JNull)]) = Ok text ∧
  loads text = Ok (JObj [("a", JNull); ("b", JInt 1)]).
Proof.
  destruct (canonical_json (JObj [("b", JInt 1); ("a", JNull)])) as [text|e] eqn:E;
    [|vm_compute in E; discriminate E].
  exists text. split; [reflexivity|].
  destruct (canonical_text_names_value (JObj [("b", JInt 1); ("a", JNull)]) JNull text eq_refl eq_refl E) as [H _].
  rewrite H. vm_compute. reflexivity.
Defined.

(** An evaluation that passed, under the constant hash. *)
Definition passed_evaluation : EvaluationResult :=
  {| evaluation_id := "evaluation"; er_run_id := "run-1"; er_run_status := SUCCEEDED;
     evaluator_version := "v1"; task_hash := zeros 64; patch_hash := Some (zeros 64); outcome := Passed;
     score := None; er_result := []; result_sha256 := zeros 64; evidence := [];
     evaluated_at := Datetime 2026 1 2 3 4 5 0; signature := None |}.

Lemma accepted_evaluation_is_consistent_witness : ∃ e,
  check_evaluation (hashing := constant_hashing) passed_evaluation = Ok e ∧ is_terminal (er_run_status e) = true.
Proof.
  destruct (check_evaluation (hashing := constant_hashing) passed_evaluation) as [e|x] eqn:E.
  - exists e. split; [reflexivity|].
    exact (proj1 (accepted_evaluation_is_consistent (hashing := constant_hashing) _ _ E)).
  - exfalso. apply (f_equal is_ok) in E. vm_compute in E. discriminate E.
Defined.
