(* ===== verification/Replay.v ===== *)
(** * Event-chain verification and replay (src/guildmind/runtime/replay.py)

    [verify_event_chain], the payload validators, [_apply_budget_snapshot], the dispatch
    of [replay_events] with one definition per event type, and [semantic_digest].  The
    loop of [replay_events] is a fold of [replay_step] over the events in the error monad;
    its local variables are the record [Replaying]. *)

From coqutil Require Import Datatypes.RecordSettersUsingExistingGetters.
From S2P Require Import Prelude PyStr Float64 Json Hash Datetime Fields Usage Models.

Local Open Scope Z_scope.

Definition integrity {A} (msg : string) : result A := Err (ReplayIntegrityError msg).
Definition demand (b : bool) (msg : string) : result unit := require b (ReplayIntegrityError msg).

(** [except ValidationError as error: raise ReplayIntegrityError(...)] *)
Definition as_integrity (msg : string) (e : exn) : exn :=
  match e with ValidationError _ => ReplayIntegrityError msg | _ => e end.

Definition EXPECTED_ARTIFACT_NAMES : gset string :=
  list_to_set ["evaluation"; "evaluation_stderr"; "evaluation_stdout"; "patch"; "task_spec"].
Definition OPTIONAL_EVALUATION_ARTIFACT_NAMES : gset string :=
  list_to_set ["evaluation_candidate_stdout"; "evaluation_scorer_stdout"].

Inductive ModelRequestState := not_started | started | completed | ambiguous.

#[export] Instance ModelRequestState_eq_dec : EqDecision ModelRequestState.
Proof. solve_decision. Defined.

Record ReplayState := {
  run_id : string;
  status : RunStatus;
  budget_used : BudgetUsage;
  budget_reserved : BudgetUsage;
  artifacts : gmap string string;
  absent_artifacts : gmap string string;
  evaluation_outcome : option string;
  requested_model : option string;
  model_request_id : option string;
  model_request_state : ModelRequestState;
  model_request_maximum : option BudgetUsage;
  returned_model : option string;
  terminal_reason : option string;
  event_count : Z;
}.

(** [ReplayState(run_id=run_id)] *)
Definition initial_state (id : string) : ReplayState :=
  {| run_id := id; status := PENDING; budget_used := empty_usage; budget_reserved := empty_usage;
     artifacts := ∅; absent_artifacts := ∅; evaluation_outcome := None; requested_model := None;
     model_request_id := None; model_request_state := not_started; model_request_maximum := None;
     returned_model := None; terminal_reason := None; event_count := 0 |}.

Inductive transition_kind := reserve | reconcile | ambiguous_charge.

Record _BudgetTransition := {
  bt_kind : transition_kind;
  used_before : BudgetUsage;
  reserved_before : BudgetUsage;
  amount : BudgetUsage;
}.

(** The local variables of the loop of [replay_events]. *)
Record Replaying := {
  state : ReplayState;
  created : bool;
  pending_budget : option _BudgetTransition;
}.

(** ** The event vocabulary *)

Inductive event_kind :=
  | run_created | run_started | model_request_started | model_response_completed
  | model_request_ambiguous | budget_snapshot | artifact_recorded | artifact_not_produced
  | evaluation_completed | run_terminal.

#[export] Instance event_kind_eq_dec : EqDecision event_kind.
Proof. solve_decision. Defined.

Definition event_names : list (string * event_kind) :=
  [("run.created", run_created); ("run.started", run_started);
   ("model.request_started", model_request_started);
   ("model.response_completed", model_response_completed);
   ("model.request_ambiguous", model_request_ambiguous); ("budget.snapshot", budget_snapshot);
   ("artifact.recorded", artifact_recorded); ("artifact.not_produced", artifact_not_produced);
   ("evaluation.completed", evaluation_completed); ("run.terminal", run_terminal)].

Definition kind_of (name : string) : option event_kind :=
  snd <$> List.find (λ p, str_eqb name p.1) event_names.

Section replay.
Context {hashing : Hashing}.

(** ** The hash chain *)

Record chain_state := {
  expected_sequence : Z;
  previous : option EventRecord;
  seen_event_ids : gset string;
}.

Definition chain_step (c : chain_state) (event : EventRecord) : result chain_state :=
  _ ← demand (sequence event =? expected_sequence c) "expected event sequence";
  _ ← demand (bool_decide (event_id event ∉ seen_event_ids c)) "duplicate event ID";
  _ ← match previous c with
      | None =>
          _ ← demand (negb (present (previous_event_hash event))) "first event has a predecessor";
          demand (bool_decide (causal_parent_ids event = [])) "first event has a causal parent"
      | Some prev =>
          h ← content_hash prev;
          _ ← demand (bool_decide (previous_event_hash event = Some h)) "broken hash chain";
          demand (bool_decide (causal_parent_ids event = [event_id prev])) "unexpected causal parents"
      end;
  Ok {| expected_sequence := expected_sequence c + 1; previous := Some event;
        seen_event_ids := {[ event_id event ]} ∪ seen_event_ids c |}.

Definition empty_chain : chain_state :=
  {| expected_sequence := 0; previous := None; seen_event_ids := ∅ |}.

Definition verify_event_chain (events : list EventRecord) : result unit :=
  _ ← foldM chain_step empty_chain events; Ok tt.

(** ** Payload readers *)

(** [payload.get(key)] *)
Definition pget (p : dict) (key : string) : json := default JNull (jget p key).

Definition _usage_from_payload (p : dict) (key : string) : result BudgetUsage :=
  match pget p key with
  | JObj o => except (as_integrity "event payload contains invalid usage") (validate_usage (JObj o))
  | _ => integrity "event payload is missing usage"
  end.

Definition _require_nonempty_string (p : dict) (key : string) : result string :=
  match pget p key with
  | JStr s => if py_strip_nonempty s then Ok s else integrity "event payload is missing a string"
  | _ => integrity "event payload is missing a string"
  end.

Definition _require_sha256 (p : dict) (key : string) : result string :=
  digest ← _require_nonempty_string p key;
  _ ← demand (is_lower_sha256 digest) "event payload has an invalid digest";
  Ok digest.

Definition _require_artifact_digest (p : dict) : result string := _require_sha256 p "sha256".

(** [f"sha256/{digest[:2]}/{digest}"] *)
Definition storage_ref_of (digest : string) : string :=
  "sha256/" +:+ str_take 2 digest +:+ "/" +:+ digest.

Definition _validate_artifact_payload (p : dict) : result unit :=
  reference ← except (as_integrity "artifact event has invalid reference metadata")
    (validate_artifact_ref
      (JObj [("media_type", pget p "media_type"); ("sha256", pget p "sha256");
             ("size_bytes", pget p "size_bytes"); ("storage_ref", pget p "storage_ref")]));
  demand (str_eqb (storage_ref reference) (storage_ref_of (sha256 reference)))
    "artifact event storage reference disagrees with its digest".

Definition _validate_creation_payload (p : dict) : result unit :=
  _ ← _require_nonempty_string p "candidate_id";
  _ ← _require_nonempty_string p "code_revision";
  _ ← _require_nonempty_string p "experiment_id";
  _ ← _require_nonempty_string p "requested_model";
  _ ← _require_nonempty_string p "task_id";
  environment_digest ← _require_nonempty_string p "environment_digest";
  _ ← demand (startswith "sha256:" environment_digest) "run.created has an invalid environment digest";
  _ ← demand (is_lower_sha256 (removeprefix "sha256:" environment_digest))
        "run.created has an invalid environment digest";
  _ ← demand match pget p "genome_hash" with
             | JNull => true | JStr g => is_lower_sha256 g | _ => false end
        "run.created has an invalid genome hash";
  _ ← demand match pget p "seed" with JInt seed => 0 <=? seed | _ => false end
        "run.created has an invalid seed";
  _ ← demand match pget p "model_parameters" with JObj _ => true | _ => false end
        "run.created has invalid model parameters";
  match pget p "budget_limits" with
  | JObj o =>
      _ ← except (as_integrity "run.created has invalid budget limits") (validate_limits (JObj o));
      Ok tt
  | _ => integrity "run.created has invalid budget limits"
  end.

(** ** Budget snapshots *)

Definition underflow (msg : string) : exn := ReplayIntegrityError msg.

Definition _apply_budget_snapshot (s : ReplayState) (p : dict) (transition : option _BudgetTransition)
    : result ReplayState :=
  used ← _usage_from_payload p "used";
  reserved ← _usage_from_payload p "reserved";
  _ ← demand (_usage_at_most (budget_used s) used) "budget usage decreased";
  _ ← match transition with
      | None =>
          demand (usage_eqb used (budget_used s) && usage_eqb reserved (budget_reserved s))
            "budget changed without a lifecycle event"
      | Some t =>
          match bt_kind t with
          | reserve =>
              expected_reserved ← _add_usage (reserved_before t) (amount t);
              demand (usage_eqb used (used_before t) && usage_eqb reserved expected_reserved)
                "model reservation snapshot does not match its maximum"
          | reconcile =>
              expected_used ← _add_usage (used_before t) (amount t);
              maximum ← of_option (ReplayIntegrityError "model response has no recorded maximum")
                          (model_request_maximum s);
              expected_reserved ← _subtract_usage underflow (reserved_before t) maximum;
              demand (usage_eqb used expected_used && usage_eqb reserved expected_reserved)
                "model reconciliation snapshot is inconsistent"
          | ambiguous_charge =>
              expected_used ← _add_usage (used_before t) (reserved_before t);
              demand (usage_eqb used expected_used && usage_eqb reserved empty_usage)
                "ambiguous request was not conservatively charged"
          end
      end;
  Ok (s <| budget_used := used |> <| budget_reserved := reserved |>).

(** ** Roles and outcomes *)

Definition evaluation_evidence_predecessors : gset string :=
  list_to_set ["evaluation_stderr"; "evaluation_stdout"; "patch"; "task_spec"].

Definition _validate_artifact_position (s : ReplayState) (name : string) : result unit :=
  let recorded : gset string := dom (artifacts s) in
  let is_ := str_eqb name in
  let exactly (l : list string) := Ok (bool_decide (recorded = list_to_set l)) in
  correctly_positioned ←
    (if is_ "task_spec" then exactly []
     else if is_ "patch" then exactly ["task_spec"]
     else if is_ "evaluation_stdout" then exactly ["patch"; "task_spec"]
     else if is_ "evaluation_stderr" then exactly ["evaluation_stdout"; "patch"; "task_spec"]
     else if is_ "evaluation_candidate_stdout" then
       Ok (bool_decide (recorded = evaluation_evidence_predecessors))
     else if is_ "evaluation_scorer_stdout" then
       Ok (bool_decide (recorded = evaluation_evidence_predecessors ∪ {[ "evaluation_candidate_stdout" ]}))
     else if is_ "evaluation" then
       Ok (bool_decide (evaluation_evidence_predecessors ⊆ recorded) &&
           bool_decide (recorded ∖ evaluation_evidence_predecessors ⊆ OPTIONAL_EVALUATION_ARTIFACT_NAMES))
     else integrity "unknown artifact role");
  _ ← demand correctly_positioned "artifact role is out of phase";
  _ ← demand (negb (is_ "task_spec" && negb (bool_decide (model_request_state s = not_started))))
        "task_spec must precede model work";
  demand (negb (negb (is_ "task_spec") && negb (bool_decide (model_request_state s = completed))))
    "artifact requires a completed model response".

Definition _terminal_status_matches_outcome (st : RunStatus) (outcome : option string) : bool :=
  match outcome with
  | None => bool_decide (st ∈ [CANCELLED; BUDGET_EXHAUSTED; INFRASTRUCTURE_ERROR])
  | Some o =>
      if str_eqb o "passed" then bool_decide (st = SUCCEEDED)
      else if str_eqb o "failed" then bool_decide (st ∈ [FAILED; TIMED_OUT])
      else if str_eqb o "error" then bool_decide (st = INFRASTRUCTURE_ERROR)
      else false
  end.

(** ** One event *)

Definition has_status (s : ReplayState) (st : RunStatus) : bool := bool_decide (status s = st).
Definition has_request (s : ReplayState) (m : ModelRequestState) : bool :=
  bool_decide (model_request_state s = m).
Definition in_artifacts (s : ReplayState) (name : string) : bool :=
  present (artifacts s !! name) || present (absent_artifacts s !! name).

Definition on_run_created (r : Replaying) (e : EventRecord) : result Replaying :=
  let s := state r in
  _ ← demand (negb (created r || negb (sequence e =? 0)))
        "run.created must be the first and only creation event";
  _ ← demand (py_eqb (pget (payload e) "status") (JStr "pending")) "run.created must declare pending status";
  _ ← _validate_creation_payload (payload e);
  rm ← _require_nonempty_string (payload e) "requested_model";
  Ok {| state := s <| requested_model := Some rm |>; created := true; pending_budget := pending_budget r |}.

Definition on_run_started (s : ReplayState) (e : EventRecord) : result ReplayState :=
  _ ← demand (has_status s PENDING) "run.started is only legal from pending";
  rm ← _require_nonempty_string (payload e) "requested_model";
  _ ← demand (bool_decide (Some rm = requested_model s)) "run.started model disagrees with run.created";
  Ok (s <| status := RUNNING |>).

Definition on_model_request_started (s : ReplayState) (e : EventRecord)
    : result (ReplayState * _BudgetTransition) :=
  _ ← demand (has_status s RUNNING) "model requests require a running run";
  _ ← demand (has_request s not_started) "a model request has already been recorded";
  _ ← demand (bool_decide (dom (artifacts s) =@{gset string} {[ "task_spec" ]}))
        "model request requires exactly one task_spec artifact";
  request_id ← _require_nonempty_string (payload e) "request_id";
  maximum ← _usage_from_payload (payload e) "maximum";
  _ ← demand (model_calls maximum =? 1) "one model request must reserve exactly one call";
  Ok (s <| model_request_id := Some request_id |> <| model_request_maximum := Some maximum |>
        <| model_request_state := started |>,
      {| bt_kind := reserve; used_before := budget_used s; reserved_before := budget_reserved s;
         amount := maximum |}).

Definition on_model_response_completed (s : ReplayState) (e : EventRecord)
    : result (ReplayState * _BudgetTransition) :=
  _ ← demand (has_status s RUNNING) "model responses require a running run";
  _ ← demand (has_request s started) "model response has no outstanding request";
  request_id ← _require_nonempty_string (payload e) "request_id";
  _ ← demand (bool_decide (Some request_id = model_request_id s)) "model response request ID does not match";
  actual ← _usage_from_payload (payload e) "actual";
  _ ← demand (model_calls actual =? 1) "one model response must report exactly one call";
  _ ← demand match model_request_maximum s with
             | Some maximum => _usage_at_most actual maximum | None => false end
        "model response exceeds its reservation";
  rm ← _require_nonempty_string (payload e) "returned_model";
  Ok (s <| returned_model := Some rm |> <| model_request_state := completed |>,
      {| bt_kind := reconcile; used_before := budget_used s; reserved_before := budget_reserved s;
         amount := actual |}).

Definition on_model_request_ambiguous (s : ReplayState) (e : EventRecord)
    : result (ReplayState * _BudgetTransition) :=
  _ ← demand (has_status s RUNNING) "ambiguous model work requires a running run";
  _ ← demand (has_request s started) "no outstanding model request can be ambiguous";
  request_id ← _require_nonempty_string (payload e) "request_id";
  _ ← demand (bool_decide (Some request_id = model_request_id s)) "ambiguous model request ID does not match";
  Ok (s <| model_request_state := ambiguous |>,
      {| bt_kind := ambiguous_charge; used_before := budget_used s;
         reserved_before := budget_reserved s; amount := budget_reserved s |}).

Definition on_artifact_recorded (s : ReplayState) (e : EventRecord) : result ReplayState :=
  _ ← demand (has_status s RUNNING) "artifacts can only be bound to a running run";
  name ← _require_nonempty_string (payload e) "name";
  digest ← _require_artifact_digest (payload e);
  _ ← demand (negb (in_artifacts s name)) "artifact name is already bound";
  _ ← _validate_artifact_payload (payload e);
  _ ← _validate_artifact_position s name;
  Ok (s <| artifacts ::= <[ name := digest ]> |>).

Definition on_artifact_not_produced (s : ReplayState) (e : EventRecord) : result ReplayState :=
  name ← _require_nonempty_string (payload e) "name";
  reason ← _require_nonempty_string (payload e) "reason";
  _ ← demand (bool_decide (name ∈ EXPECTED_ARTIFACT_NAMES)) "unknown absent artifact role";
  _ ← demand (negb (in_artifacts s name)) "artifact name is already accounted for";
  Ok (s <| absent_artifacts ::= <[ name := reason ]> |>).

Definition evaluation_required : gset string :=
  list_to_set ["evaluation"; "evaluation_stderr"; "evaluation_stdout"; "patch"].

Definition on_evaluation_completed (s : ReplayState) (e : EventRecord) : result ReplayState :=
  _ ← demand (has_status s RUNNING) "evaluations require a running run";
  _ ← demand (has_request s completed) "evaluation requires a completed model response";
  _ ← demand (negb (present (evaluation_outcome s))) "an evaluation has already been recorded";
  _ ← demand (bool_decide (evaluation_required ⊆ dom (artifacts s))) "evaluation evidence is not fully bound";
  outcome ← _require_nonempty_string (payload e) "outcome";
  _ ← demand (existsb (str_eqb outcome) ["passed"; "failed"; "error"]) "evaluation has an unknown outcome";
  _ ← _require_sha256 (payload e) "result_sha256";
  Ok (s <| evaluation_outcome := Some outcome |>).

Definition on_run_terminal (s : ReplayState) (e : EventRecord) : result ReplayState :=
  raw_status ← _require_nonempty_string (payload e) "status";
  terminal_status ← except (as_integrity "unknown terminal run status") (v_status (JStr raw_status));
  _ ← demand (is_terminal terminal_status) "run.terminal cannot contain a nonterminal status";
  _ ← demand (negb (has_request s started)) "outstanding model work must be classified before terminal";
  _ ← demand (negb (bool_decide (terminal_status ∈ [SUCCEEDED; FAILED; TIMED_OUT]) &&
                    negb (present (evaluation_outcome s))))
        "evaluation-derived terminal status lacks an evaluation";
  let declared_outcome := pget (payload e) "evaluation_outcome" in
  _ ← match evaluation_outcome s with
      | None => demand (bool_decide (declared_outcome = JNull)) "terminal event invents an evaluation outcome"
      | Some o => demand (py_eqb declared_outcome (JStr o)) "terminal outcome disagrees with the evaluation"
      end;
  _ ← demand (_terminal_status_matches_outcome terminal_status (evaluation_outcome s))
        "terminal status disagrees with the evaluation outcome";
  reason ← match pget (payload e) "terminal_reason" with
           | JNull => Ok None
           | JStr r => if py_strip_nonempty r then Ok (Some r)
                       else integrity "terminal_reason must be a nonempty string or null"
           | _ => integrity "terminal_reason must be a nonempty string or null"
           end;
  _ ← match terminal_status, reason with
      | SUCCEEDED, Some _ => integrity "successful runs cannot have a terminal reason"
      | SUCCEEDED, None => Ok tt
      | _, None => integrity "non-success terminal runs require a terminal reason"
      | _, Some _ => Ok tt
      end;
  _ ← (if has_request s ambiguous then
         _ ← demand (bool_decide (terminal_status = INFRASTRUCTURE_ERROR))
               "ambiguous model work is an infrastructure error";
         demand (bool_decide (reason = Some "ambiguous_model_request"))
           "ambiguous model work has the wrong terminal reason"
       else Ok tt);
  Ok (s <| status := terminal_status |> <| terminal_reason := reason |>).

(** ** The loop *)

Definition with_state (r : Replaying) (m : result ReplayState) : result Replaying :=
  s ← m; Ok (r <| state := s |>).
Definition with_transition (r : Replaying) (m : result (ReplayState * _BudgetTransition))
    : result Replaying :=
  st ← m; Ok (r <| state := st.1 |> <| pending_budget := Some st.2 |>).

Definition dispatch (r : Replaying) (e : EventRecord) : result Replaying :=
  match kind_of (event_type e) with
  | Some run_created => on_run_created r e
  | k =>
      _ ← demand (created r) "event stream does not begin with run.created";
      match k with
      | Some run_created | None => integrity "unknown event type"
      | Some run_started => with_state r (on_run_started (state r) e)
      | Some model_request_started => with_transition r (on_model_request_started (state r) e)
      | Some model_response_completed => with_transition r (on_model_response_completed (state r) e)
      | Some model_request_ambiguous => with_transition r (on_model_request_ambiguous (state r) e)
      | Some budget_snapshot =>
          s ← _apply_budget_snapshot (state r) (payload e) (pending_budget r);
          Ok (r <| state := s |> <| pending_budget := None |>)
      | Some artifact_recorded => with_state r (on_artifact_recorded (state r) e)
      | Some artifact_not_produced => with_state r (on_artifact_not_produced (state r) e)
      | Some evaluation_completed => with_state r (on_evaluation_completed (state r) e)
      | Some run_terminal => with_state r (on_run_terminal (state r) e)
      end
  end.

Definition replay_step (r : Replaying) (e : EventRecord) : result Replaying :=
  _ ← demand (str_eqb (ev_run_id e) (run_id (state r))) "event stream contains multiple run IDs";
  _ ← demand (negb (is_terminal (status (state r)))) "event appears after the terminal transition";
  _ ← demand (negb (present (pending_budget r) &&
                    negb (bool_decide (kind_of (event_type e) = Some budget_snapshot))))
        "a budget event must be followed by a budget snapshot";
  r' ← dispatch r e;
  Ok (r' <| state ::= λ s, s <| event_count := event_count s + 1 |> |>).

Definition replay_start (id : string) : Replaying :=
  {| state := initial_state id; created := false; pending_budget := None |}.

Definition require_terminal_stream (r : Replaying) : result unit :=
  let s := state r in
  _ ← demand (negb (present (pending_budget r))) "terminal stream has an unapplied budget transition";
  _ ← demand (is_terminal (status s)) "event stream is not terminal";
  _ ← demand (usage_eqb (budget_reserved s) empty_usage) "terminal stream retains a budget reservation";
  _ ← demand (negb (has_request s started)) "terminal stream has ambiguous unclassified model work";
  let accounted : gset string := dom (artifacts s) ∪ dom (absent_artifacts s) in
  demand (bool_decide (EXPECTED_ARTIFACT_NAMES ⊆ accounted)) "terminal stream does not account for artifacts".

Definition replay_loop (events : list EventRecord) : result Replaying :=
  match events with
  | [] => integrity "cannot replay an empty event stream"
  | first :: _ =>
      _ ← verify_event_chain events;
      foldM replay_step (replay_start (ev_run_id first)) events
  end.

(** [replay_events(events, require_terminal=...)] *)
Definition replay_events (events : list EventRecord) (require_terminal : bool) : result ReplayState :=
  r ← replay_loop events;
  _ ← demand (created r) "event stream does not contain run.created";
  _ ← (if require_terminal then require_terminal_stream r else Ok tt);
  Ok (state r).

(** ** The semantic digest *)

(** The payload without the digest of the evaluation envelope. *)
Definition semantic_payload (e : EventRecord) : dict :=
  let p := payload e in
  if str_eqb (event_type e) "artifact.recorded" && py_eqb (pget p "name") (JStr "evaluation")
  then dict_pop "storage_ref" (dict_pop "size_bytes" (dict_pop "sha256" p)) else p.

Definition semantic_event (e : EventRecord) : json :=
  JObj [("event_type", JStr (event_type e)); ("event_version", JStr "0.1");
        ("payload", JObj (semantic_payload e))].

Definition semantic_digest (events : list EventRecord) : result string :=
  _ ← replay_events events false;
  canonical_sha256 (JArr (semantic_event <$> events)).

End replay.
