(* ===== verification/SampleRun.v ===== *)
(** * A concrete run

    A small event stream evaluated by the examples of the development: a run that is
    created and started, reserves one model call, is interrupted and recovered.  It uses
    the cheap [constant_hashing], so that the chain can be evaluated inside Rocq. *)

From S2P Require Import Prelude PyStr Float64 Json Hash Datetime Fields Usage Models Replay.

Local Open Scope Z_scope.

#[export] Existing Instance constant_hashing.

Definition digest0 : string := zeros 64.

Definition sample_time (n : N) : datetime := Datetime 2026 1 2 3 4 n 0.

(** The event a writer makes, after the events it already wrote. *)
Definition sample_event (before : list EventRecord) (name : string) (p : dict) : EventRecord :=
  {| event_id := "run-1:event:" +:+ zero_pad 8 (N.of_nat (length before)); ev_run_id := "run-1";
     sequence := Z.of_nat (length before);
     causal_parent_ids := match last before with Some e => [event_id e] | None => [] end;
     event_type := name; monotonic_ns := Z.of_nat (length before);
     occurred_at := sample_time (N.of_nat (length before)); payload := sort_dict p;
     payload_sha256 := digest0;
     previous_event_hash := match last before with Some _ => Some digest0 | None => None end |}.

Definition sample_append (before : list EventRecord) (np : string * dict) : list EventRecord :=
  before ++ [sample_event before np.1 np.2].

Definition sample_limits : BudgetLimits :=
  {| max_input_tokens := Some 100; max_output_tokens := None; max_total_tokens := None;
     max_model_calls := Some 1; max_model_retries := None; max_tool_calls := None;
     max_tool_cpu_seconds := None; max_container_wall_seconds := None;
     max_elapsed_seconds := None; max_estimated_cost_usd := None |}.

Definition sample_usage : BudgetUsage :=
  {| uncached_input_tokens := 40; cache_read_input_tokens := 0; cache_write_input_tokens := 0;
     output_tokens := 0; reasoning_tokens := 0; model_calls := 1; model_retries := 0;
     tool_calls := 0; tool_cpu_seconds := fzero; container_wall_seconds := fzero;
     elapsed_seconds := fzero; estimated_cost_usd := fzero |}.

Definition sample_creation : dict :=
  [("budget_limits", dump_limits sample_limits); ("candidate_id", JStr "candidate");
   ("code_revision", JStr "abc"); ("environment_digest", JStr ("sha256:" +:+ digest0));
   ("experiment_id", JStr "experiment"); ("genome_hash", JNull); ("model_parameters", JObj []);
   ("requested_model", JStr "model"); ("seed", JInt 7); ("status", JStr "pending");
   ("task_id", JStr "task")].

Definition sample_artifact (name : string) : dict :=
  [("media_type", JStr "application/json"); ("name", JStr name); ("sha256", JStr digest0);
   ("size_bytes", JInt 2); ("storage_ref", JStr (storage_ref_of digest0))].

Definition sample_snapshot (used reserved : BudgetUsage) : dict :=
  [("used", dump_usage used); ("reserved", dump_usage reserved)].

Definition sample_absent (name : string) : string * dict :=
  ("artifact.not_produced", [("name", JStr name); ("reason", JStr "interrupted")]).

(** Up to the reserved model call; then the recovery. *)
Definition interrupted_script : list (string * dict) :=
  [("run.created", sample_creation); ("run.started", [("requested_model", JStr "model")]);
   ("artifact.recorded", sample_artifact "task_spec");
   ("model.request_started", [("maximum", dump_usage sample_usage); ("request_id", JStr "request-1")]);
   ("budget.snapshot", sample_snapshot empty_usage sample_usage)].
Definition recovery_script : list (string * dict) :=
  [sample_absent "evaluation"; sample_absent "evaluation_stderr"; sample_absent "evaluation_stdout";
   sample_absent "patch"; ("model.request_ambiguous", [("request_id", JStr "request-1")]);
   ("budget.snapshot", sample_snapshot sample_usage empty_usage);
   ("run.terminal", [("recovered", JBool true); ("status", JStr "infrastructure_error");
                     ("terminal_reason", JStr "ambiguous_model_request")])].

(** Instead, the model answers with less than the reservation, and the run is cancelled. *)
Definition answered_usage : BudgetUsage :=
  {| uncached_input_tokens := 30; cache_read_input_tokens := 0; cache_write_input_tokens := 0;
     output_tokens := 0; reasoning_tokens := 0; model_calls := 1; model_retries := 0;
     tool_calls := 0; tool_cpu_seconds := fzero; container_wall_seconds := fzero;
     elapsed_seconds := fzero; estimated_cost_usd := fzero |}.
Definition answer_script : list (string * dict) :=
  [("model.response_completed", [("actual", dump_usage answered_usage); ("request_id", JStr "request-1");
                                 ("returned_model", JStr "model")]);
   ("budget.snapshot", sample_snapshot answered_usage empty_usage);
   sample_absent "evaluation"; sample_absent "evaluation_stderr"; sample_absent "evaluation_stdout";
   sample_absent "patch";
   ("run.terminal", [("status", JStr "cancelled"); ("terminal_reason", JStr "cancelled")])].

Definition interrupted_stream : list EventRecord := foldl sample_append [] interrupted_script.
Definition sample_stream : list EventRecord := foldl sample_append interrupted_stream recovery_script.

Definition answered_stream : list EventRecord := foldl sample_append interrupted_stream answer_script.

Example sample_stream_checked : forallb (λ e, bool_decide (check_event e = Ok e)) sample_stream = true.
Proof. vm_compute. reflexivity. Qed.
Example interrupted_stream_replays :
  (s ← replay_events interrupted_stream false; Ok (status s, model_request_state s)) = Ok (RUNNING, started).
Proof. vm_compute. reflexivity. Qed.
Example sample_stream_replays :
  (s ← replay_events sample_stream true; Ok (status s, model_request_state s))
  = Ok (INFRASTRUCTURE_ERROR, ambiguous).
Proof. vm_compute. reflexivity. Qed.
Example answered_stream_replays :
  (s ← replay_events answered_stream true; Ok (status s, model_request_state s))
  = Ok (CANCELLED, completed).
Proof. vm_compute. reflexivity. Qed.
