(* ===== verification/ReplayFacts.v ===== *)
(** * Properties of replay (src/guildmind/runtime/replay.py)

    An abstract lifecycle automaton, [lifecycle], and the simulation of [replay_step] by
    it; from it, what an accepted stream looks like.  The budget accounting of a
    replayed stream, the meaning of a terminal stream, and what the hash chain buys. *)

From coqutil Require Import Datatypes.RecordSettersUsingExistingGetters.
From S2P Require Import Prelude PyStr Float64 Json Hash Datetime Fields Usage Models Replay.
From S2P Require Import SampleRun.

Local Open Scope Z_scope.

Lemma exists_last_or_nil {A} (l : list A) : l = [] ∨ ∃ l' x, l = l' ++ [x].
Proof. induction l as [|x l _] using rev_ind; eauto. Qed.

(** ** The lifecycle automaton *)

Record phase := Phase {
  ph_created : bool;
  ph_status : RunStatus;
  ph_request : ModelRequestState;
  ph_owed : bool;               (* a budget snapshot must come next *)
  ph_evaluated : option string;
}.

Definition phase_of (r : Replaying) : phase :=
  Phase (created r) (status (state r)) (model_request_state (state r)) (present (pending_budget r))
    (evaluation_outcome (state r)).

Inductive lifecycle : phase → event_kind → phase → Prop :=
  | l_created st q ev :
      is_terminal st = false →
      lifecycle (Phase false st q false ev) run_created (Phase true st q false ev)
  | l_started q ev :
      lifecycle (Phase true PENDING q false ev) run_started (Phase true RUNNING q false ev)
  | l_request ev :
      lifecycle (Phase true RUNNING not_started false ev) model_request_started
                (Phase true RUNNING started true ev)
  | l_response ev :
      lifecycle (Phase true RUNNING started false ev) model_response_completed
                (Phase true RUNNING completed true ev)
  | l_ambiguous ev :
      lifecycle (Phase true RUNNING started false ev) model_request_ambiguous
                (Phase true RUNNING ambiguous true ev)
  | l_snapshot st q o ev :
      is_terminal st = false →
      lifecycle (Phase true st q o ev) budget_snapshot (Phase true st q false ev)
  | l_artifact q ev :
      lifecycle (Phase true RUNNING q false ev) artifact_recorded (Phase true RUNNING q false ev)
  | l_not_produced st q ev :
      is_terminal st = false →
      lifecycle (Phase true st q false ev) artifact_not_produced (Phase true st q false ev)
  | l_evaluation o :
      o ∈ ["passed"; "failed"; "error"] →
      lifecycle (Phase true RUNNING completed false None) evaluation_completed
                (Phase true RUNNING completed false (Some o))
  | l_terminal st st' q ev :
      is_terminal st = false → is_terminal st' = true → q ≠ started →
      _terminal_status_matches_outcome st' ev = true →
      (q = ambiguous → st' = INFRASTRUCTURE_ERROR) →
      lifecycle (Phase true st q false ev) run_terminal (Phase true st' q false ev).

Inductive lifecycle_run (p : phase) : list event_kind → phase → Prop :=
  | run_nil : lifecycle_run p [] p
  | run_snoc ks q k r :
      lifecycle_run p ks q → lifecycle q k r → lifecycle_run p (ks ++ [k]) r.

Definition fresh : phase := Phase false PENDING not_started false None.

Definition count (k : event_kind) (ks : list event_kind) : nat :=
  length (List.filter (λ k', bool_decide (k' = k)) ks).

Lemma count_app k ks1 ks2 : count k (ks1 ++ ks2) = (count k ks1 + count k ks2)%nat.
Proof. unfold count. by rewrite List.filter_app, length_app. Qed.

Lemma lifecycle_open p k q : lifecycle p k q → is_terminal (ph_status p) = false.
Proof. by destruct 1. Qed.

Definition flag (b : bool) : nat := if b then 1%nat else 0%nat.

(** Each phase determines how many events of each kind led to it. *)
Lemma lifecycle_counts ks p : lifecycle_run fresh ks p →
  count run_created ks = flag (ph_created p) ∧
  count model_request_started ks = flag (negb (bool_decide (ph_request p = not_started))) ∧
  count model_response_completed ks = flag (bool_decide (ph_request p = completed)) ∧
  count model_request_ambiguous ks = flag (bool_decide (ph_request p = ambiguous)) ∧
  count evaluation_completed ks = flag (present (ph_evaluated p)) ∧
  count run_terminal ks = flag (is_terminal (ph_status p)) ∧
  (count run_started ks <= 1)%nat ∧ (ph_status p = PENDING → count run_started ks = 0%nat).
Proof.
  induction 1 as [|ks q k r _ IH Hs]; [by repeat split; cbn; lia|]. rewrite !count_app.
  destruct IH as (H1 & H2 & H3 & H4 & H5 & H6 & H7 & H8). rewrite H1, H2, H3, H4, H5, H6.
  destruct Hs; cbn [ph_created ph_request ph_evaluated ph_status] in *;
    repeat match goal with
    | H : is_terminal _ = false |- _ => rewrite H; clear H
    | H : is_terminal _ = true |- _ => rewrite H
    end;
    repeat split; try done; cbn;
    repeat first [rewrite bool_decide_false by done | rewrite bool_decide_true by done];
    cbn; try lia; try (specialize (H8 eq_refl); lia);
    try (intros ->; try done; specialize (H8 eq_refl); lia).
Qed.

(** Nothing follows a terminal event. *)
Lemma lifecycle_terminal_last ks1 ks2 p q :
  lifecycle_run p (ks1 ++ run_terminal :: ks2) q → ks2 = [].
Proof.
  intros H. remember (ks1 ++ run_terminal :: ks2) as ks eqn:E.
  revert ks1 ks2 E. induction H as [|ks q k r Hr IH Hs]; intros ks1 ks2 E; [by destruct ks1|].
  destruct (exists_last_or_nil ks2) as [->|(ks2' & k' & ->)]; [done|].
  change (run_terminal :: ks2' ++ [k']) with ((run_terminal :: ks2') ++ [k']) in E.
  rewrite app_assoc in E. apply app_inj_tail in E as [E ->].
  rewrite (IH _ _ E) in E. subst ks. exfalso.
  inversion Hr as [|ks' q0 k0 r0 Hr' Hs' E1 E2]; [by destruct ks1|].
  apply app_inj_tail in E1 as [_ ->]. inversion Hs'; subst.
  apply lifecycle_open in Hs. simpl in Hs. congruence.
Qed.

(** Opens every [demand] and bind of a handler that returned. *)
Ltac open_step := unfold demand, integrity, has_status, has_request, with_state, with_transition in *;
  inv_ok; split_andb.

(** Evaluates projections of updated records. *)
Ltac simpl_fields :=
  unfold RecordSettersUsingExistingGetters.const;
  cbn [set fst snd created state pending_budget run_id status budget_used budget_reserved artifacts
    absent_artifacts evaluation_outcome requested_model model_request_id model_request_state
    model_request_maximum returned_model terminal_reason event_count
    bt_kind used_before reserved_before amount].

(** Rewrites the status, the request state and the flags of a phase with what is known. *)
Ltac phase_facts :=
  subst; cbn [created state pending_budget status model_request_state evaluation_outcome present
              set RecordSettersUsingExistingGetters.const fst snd] in *; subst;
  repeat match goal with
  | H : status _ = _ |- _ => rewrite H
  | H : model_request_state _ = _ |- _ => rewrite H
  end.

Section facts.
Context {hashing : Hashing}.

Lemma replay_step_inv r e r' : replay_step r e = Ok r' →
  ev_run_id e = run_id (state r) ∧ is_terminal (status (state r)) = false ∧
  (pending_budget r = None ∨ kind_of (event_type e) = Some budget_snapshot) ∧
  ∃ r1, dispatch r e = Ok r1 ∧
    r' = r1 <| state ::= λ s, s <| event_count := event_count s + 1 |> |>.
Proof.
  unfold replay_step. intros H. open_step. split; [by apply String.eqb_eq|]. split; [done|].
  split; [|eauto]. destruct (pending_budget r); [|auto]. right. simpl in *. split_andb. done.
Qed.

Lemma dispatch_kind r e r1 : dispatch r e = Ok r1 →
  ∃ k, kind_of (event_type e) = Some k ∧ (k = run_created ∨ created r = true).
Proof.
  unfold dispatch. destruct (kind_of (event_type e)) as [k|]; [|intros; open_step].
  intros H. exists k. split; [done|]. destruct k; auto; open_step; auto.
Qed.

(** ** Simulation *)

Lemma bump_phase r : phase_of (r <| state ::= λ s, s <| event_count := event_count s + 1 |> |>) = phase_of r.
Proof. done. Qed.

Lemma snapshot_state s p t s' : _apply_budget_snapshot s p t = Ok s' →
  ∃ used reserved, s' = s <| budget_used := used |> <| budget_reserved := reserved |>.
Proof. unfold _apply_budget_snapshot. intros H. inv_ok. eauto. Qed.

Theorem replay_refines_lifecycle r e r' :
  replay_step r e = Ok r' →
  ∃ k, kind_of (event_type e) = Some k ∧ lifecycle (phase_of r) k (phase_of r').
Proof.
  intros (_ & Hterm & Howed & r1 & Hd & ->)%replay_step_inv. rewrite bump_phase.
  destruct (dispatch_kind _ _ _ Hd) as (k & Hk & Hc). exists k. split; [done|].
  unfold dispatch in Hd. rewrite Hk in Hd. destruct r as [s cr pb]. cbn [state created pending_budget] in *.
  assert (k ≠ budget_snapshot → pb = None) as Hpb by naive_solver.
  unfold phase_of. destruct k; open_step; try (specialize (Hpb ltac:(done)); subst pb);
    try (destruct Hc as [|Hc]; [done|subst cr]).
  - unfold on_run_created in Hd. open_step. phase_facts. by apply l_created.
  - unfold on_run_started in H0. open_step. phase_facts. apply l_started.
  - unfold on_model_request_started in H0. open_step. phase_facts. apply l_request.
  - unfold on_model_response_completed in H0. open_step. phase_facts. apply l_response.
  - unfold on_model_request_ambiguous in H0. open_step. phase_facts. apply l_ambiguous.
  - apply snapshot_state in H0 as (u & v & ->). phase_facts. by apply l_snapshot.
  - unfold on_artifact_recorded in H0. open_step. phase_facts. apply l_artifact.
  - unfold on_artifact_not_produced in H0. open_step. phase_facts. by apply l_not_produced.
  - unfold on_evaluation_completed in H0. open_step. phase_facts.
    destruct (evaluation_outcome s); [done|]. apply l_evaluation. by apply existsb_str.
  - unfold on_run_terminal in H0. open_step. phase_facts. apply l_terminal; try done.
    intros Hq. rewrite bool_decide_true in * by done. open_step. done.
Qed.

(** ** Whole streams *)

Definition kinds (es : list EventRecord) (ks : list event_kind) : Prop :=
  Forall2 (λ e k, kind_of (event_type e) = Some k) es ks.

Lemma replay_fold_lifecycle id es r :
  foldM replay_step (replay_start id) es = Ok r →
  ∃ ks, kinds es ks ∧ lifecycle_run fresh ks (phase_of r).
Proof.
  revert r. induction es as [|e es IH] using rev_ind; intros r H.
  - simpl in H. inv_ok. exists []. split; [constructor|]. apply run_nil.
  - rewrite foldM_snoc in H. inv_ok. destruct (IH _ H0) as (ks & Hks & Hrun).
    destruct (replay_refines_lifecycle _ _ _ H) as (k & Hk & Hl).
    exists (ks ++ [k]). split; [|by eapply run_snoc].
    apply Forall2_app; [done|]. by constructor.
Qed.

Lemma replay_events_fold es rt s : replay_events es rt = Ok s →
  ∃ r first, head es = Some first ∧ verify_event_chain es = Ok tt ∧
    foldM replay_step (replay_start (ev_run_id first)) es = Ok r ∧ s = state r ∧ created r = true ∧
    (rt = true → require_terminal_stream r = Ok tt).
Proof.
  unfold replay_events, replay_loop. destruct es as [|first es]; [done|]. intros H. open_step.
  eexists _, first. split_and!; try done. by intros ->.
Qed.

Lemma lifecycle_first ks p : lifecycle_run fresh ks p → ks = [] ∨ ∃ ks', ks = run_created :: ks'.
Proof.
  induction 1 as [|ks q k r Hr [->|[ks' ->]] Hs]; [by left| |].
  - right. exists []. inversion Hr as [E|ks' q0 k0 r0 ? ? E]; [subst|by destruct ks'].
    inversion Hs; subst; done.
  - right. by exists (ks' ++ [k]).
Qed.

(** Every accepted stream has the shape of one run: it opens with its only
    [run.created]; [run.started], a model request, its response or its classification as
    ambiguous, and an evaluation each occur at most once, and exactly when the replayed
    state says so; a terminal event occurs only last, and exactly when the replayed
    status is terminal. *)
Theorem replayed_stream_shape es rt s :
  replay_events es rt = Ok s →
  ∃ ks, kinds es ks ∧
    (∃ ks', ks = run_created :: ks' ∧ count run_created ks' = 0%nat) ∧
    (count run_started ks <= 1)%nat ∧
    count model_request_started ks = flag (negb (has_request s not_started)) ∧
    count model_response_completed ks = flag (has_request s completed) ∧
    count model_request_ambiguous ks = flag (has_request s ambiguous) ∧
    count evaluation_completed ks = flag (present (evaluation_outcome s)) ∧
    count run_terminal ks = flag (is_terminal (status s)) ∧
    (∀ ks1 ks2, ks = ks1 ++ run_terminal :: ks2 → ks2 = []).
Proof.
  intros (r & first & Hne & _ & Hf & -> & Hc & _)%replay_events_fold.
  destruct (replay_fold_lifecycle _ _ _ Hf) as (ks & Hks & Hr). exists ks.
  destruct (lifecycle_counts _ _ Hr) as (H1 & H2 & H3 & H4 & H5 & H6 & H7 & _).
  split; [done|]. split.
  { destruct (lifecycle_first _ _ Hr) as [->|[ks' ->]]; [by rewrite (Forall2_nil_inv_r _ _ Hks) in Hne|].
    exists ks'. split; [done|]. cbn [ph_created phase_of] in H1. rewrite Hc in H1.
    unfold count in *. cbn [List.filter] in H1. rewrite bool_decide_true in H1 by done.
    cbn in H1. lia. }
  split_and!; try done. intros ks1 ks2 ->. by eapply lifecycle_terminal_last.
Qed.

Lemma replay_prefix es1 es2 rt s :
  replay_events (es1 ++ es2) rt = Ok s → es1 ≠ [] →
  ∃ s1, replay_events es1 false = Ok s1 ∧ (es2 ≠ [] → is_terminal (status s1) = false).
Proof.
  intros (r & first & Hh & Hv & Hf & -> & Hc & _)%replay_events_fold Hne.
  destruct es1 as [|e1 es1]; [done|]. injection Hh as <-.
  unfold verify_event_chain in Hv. inv_ok.
  apply foldM_prefix in H as (c1 & Hc1 & _). apply foldM_prefix in Hf as (r1 & Hr1 & Hr2).
  assert (created r1 = true) as Hcr.
  { destruct (replay_fold_lifecycle _ _ _ Hr1) as (ks & Hks & Hl).
    destruct (lifecycle_first _ _ Hl) as [->|[ks' ->]]; [by apply Forall2_nil_inv_r in Hks|].
    apply lifecycle_counts in Hl as [Hl _]. destruct (created r1) eqn:E; [done|].
    unfold phase_of in Hl. rewrite E in Hl. done. }
  exists (state r1). split.
  - unfold replay_events, replay_loop, verify_event_chain. rewrite Hc1. cbn [mbind result_bind].
    rewrite Hr1. cbn [mbind result_bind]. by rewrite Hcr.
  - destruct es2 as [|e2 es2]; [done|]. intros _. simpl in Hr2. inv_ok.
    by apply replay_step_inv in H as (_ & ? & _).
Qed.

(** Replay is prefix-closed, which is what crash recovery needs: every nonempty
    prefix of an accepted stream is accepted, and no proper prefix is terminal. *)
Theorem replay_prefix_closed es1 es2 rt s :
  replay_events (es1 ++ es2) rt = Ok s → es1 ≠ [] →
  ∃ s1, replay_events es1 false = Ok s1 ∧ (es2 ≠ [] → is_terminal (status s1) = false).
Proof. apply replay_prefix. Qed.

(** ** Budget accounting *)

Definition nothing (u : BudgetUsage) : Prop := usage_eqb u empty_usage = true.

(** What the used and reserved amounts mean in each phase of the model request. *)
Definition accounted (s : ReplayState) (pb : option _BudgetTransition) : Prop :=
  match model_request_state s with
  | not_started => pb = None ∧ nothing (budget_used s) ∧ nothing (budget_reserved s)
  | q =>
      ∃ m, model_request_maximum s = Some m ∧ usage_valid m = true ∧ model_calls m = 1 ∧
      match pb with
      | Some t =>
          used_before t = budget_used s ∧ reserved_before t = budget_reserved s ∧
          nothing (budget_used s) ∧
          match bt_kind t with
          | reserve => q = started ∧ nothing (budget_reserved s) ∧ amount t = m
          | reconcile => q = completed ∧ usage_eqb (budget_reserved s) m = true ∧
              usage_valid (amount t) = true ∧ _usage_at_most (amount t) m = true ∧
              model_calls (amount t) = 1
          | ambiguous_charge => q = ambiguous ∧ usage_eqb (budget_reserved s) m = true
          end
      | None =>
          match q with
          | started => nothing (budget_used s) ∧ usage_eqb (budget_reserved s) m = true
          | completed => _usage_at_most (budget_used s) m = true ∧ model_calls (budget_used s) = 1 ∧
              nothing (budget_reserved s)
          | _ => usage_eqb (budget_used s) m = true ∧ nothing (budget_reserved s)
          end
      end
  end.

Definition budget_ok (r : Replaying) : Prop :=
  usage_valid (budget_used (state r)) = true ∧ usage_valid (budget_reserved (state r)) = true ∧
  accounted (state r) (pending_budget r).

Lemma usage_from_payload_valid p k u : _usage_from_payload p k = Ok u → usage_valid u = true.
Proof.
  unfold _usage_from_payload, integrity. destruct (pget p k); try done. intros H. inv_ok.
  by eapply validate_usage_valid.
Qed.

Lemma usage_eqb_calls u v : usage_eqb u v = true → model_calls u = model_calls v.
Proof. unfold usage_eqb, int_fields. intros. split_andb. congruence. Qed.

(** Applying the snapshot that is due settles the request's account. *)
Lemma snapshot_accounted s p t s' :
  usage_valid (budget_used s) = true → usage_valid (budget_reserved s) = true →
  accounted s t → _apply_budget_snapshot s p t = Ok s' →
  usage_valid (budget_used s') = true ∧ usage_valid (budget_reserved s') = true ∧ accounted s' None.
Proof.
  intros Hu Hr Ha H. unfold _apply_budget_snapshot in H. inv_ok.
  apply usage_from_payload_valid in H0, H1. cbn [budget_used budget_reserved set RecordSettersUsingExistingGetters.const].
  split; [done|]. split; [done|].
  unfold accounted, nothing in *. cbn [model_request_state model_request_maximum budget_used budget_reserved set
    RecordSettersUsingExistingGetters.const].
  unfold RecordSettersUsingExistingGetters.const. destruct t as [[k ub rb am]|].
  - cbn [bt_kind used_before reserved_before amount] in *.
    destruct (model_request_state s); [by destruct Ha as [? _]|..];
      (destruct Ha as (m & Hm & Hmv & Hc & -> & -> & Hn & Hk); exists m; split; [done|]; split; [done|];
       split; [done|]; destruct k; destruct Hk as (Hq & Hk); try discriminate Hq; clear Hq; open_step).
    + destruct Hk as [Hr0 ->]. split; [by eapply usage_eqb_trans|].
      eapply usage_eqb_trans; [eassumption|]. by eapply (add_empty_eqb (budget_reserved s)).
    + destruct Hk as (Hr0 & Hav & Hal & Hac). rewrite Hm in *. simplify_eq.
      assert (usage_eqb a am = true) as Ea.
      { eapply usage_eqb_trans; [eassumption|]. by eapply (add_empty_eqb (budget_used s)). }
      split; [|split].
      * eapply usage_at_most_trans; [by apply usage_eqb_at_most|done].
      * by rewrite (usage_eqb_calls _ _ Ea).
      * eapply usage_eqb_trans; [eassumption|]. 
        match goal with H : _subtract_usage _ _ _ = Ok _ |- _ => by eapply subtract_eqb in H end.
    + split; [|done]. eapply usage_eqb_trans; [eassumption|].
      eapply usage_eqb_trans; [|exact Hk]. by eapply (add_empty_eqb (budget_used s)).
  - open_step. destruct (model_request_state s).
    + destruct Ha as (_ & ? & ?). split; [done|]. split; by eapply usage_eqb_trans.
    + destruct Ha as (m & ? & ? & ? & ? & ?). exists m. split_and!; try done; by eapply usage_eqb_trans.
    + destruct Ha as (m & ? & ? & ? & ? & ? & ?). exists m. split_and!; try done.
      * eapply usage_at_most_trans; [by apply usage_eqb_at_most|done].
      * by erewrite usage_eqb_calls.
      * by eapply usage_eqb_trans.
    + destruct Ha as (m & ? & ? & ? & ? & ?). exists m. split_and!; try done; by eapply usage_eqb_trans.
Qed.

Lemma budget_ok_same s s' cr cr' :
  budget_ok {| state := s; created := cr; pending_budget := None |} →
  budget_used s' = budget_used s → budget_reserved s' = budget_reserved s →
  model_request_state s' = model_request_state s → model_request_maximum s' = model_request_maximum s →
  budget_ok {| state := s'; created := cr'; pending_budget := None |}.
Proof.
  unfold budget_ok, accounted. cbn [state created pending_budget].
  intros H -> -> -> ->. exact H.
Qed.

Lemma budget_ok_step r e r' : replay_step r e = Ok r' → budget_ok r → budget_ok r'.
Proof.
  intros (_ & Hterm & Howed & r1 & Hd & ->)%replay_step_inv Hok.
  assert (budget_ok r1) as [? ?]; [|done].
  destruct (dispatch_kind _ _ _ Hd) as (k & Hk & _).
  unfold dispatch in Hd. rewrite Hk in Hd. destruct r as [s cr pb]. cbn [state created pending_budget] in *.
  assert (k ≠ budget_snapshot → pb = None) as Hpb by naive_solver.
  destruct k; open_step; try (specialize (Hpb ltac:(done)); subst pb).
  - unfold on_run_created in Hd. open_step. by eapply budget_ok_same.
  - unfold on_run_started in H0. open_step. by eapply budget_ok_same.
  - unfold on_model_request_started in H0. open_step. destruct Hok as (Hu & Hr & Ha).
    cbn [state pending_budget] in *. split; [done|]. split; [done|].
    unfold accounted in *. simpl_fields.
    rewrite H1 in Ha. destruct Ha as (_ & ? & ?). eexists. split; [done|].
    split; [by eapply usage_from_payload_valid|]. split; [by apply Z.eqb_eq|]. done.
  - unfold on_model_response_completed in H0. open_step. destruct Hok as (Hu & Hr & Ha).
    cbn [state pending_budget] in *. split; [done|]. split; [done|].
    unfold accounted in *. simpl_fields.
    rewrite H1 in Ha. destruct Ha as (m & Hm & Hmv & Hmc & Hn & Hr0). exists m.
    rewrite Hm in *.
    split_and!; try done; first [by eapply usage_from_payload_valid|by apply Z.eqb_eq].
  - unfold on_model_request_ambiguous in H0. open_step. destruct Hok as (Hu & Hr & Ha).
    cbn [state pending_budget] in *. split; [done|]. split; [done|].
    unfold accounted in *. simpl_fields.
    rewrite H1 in Ha. destruct Ha as (m & Hm & Hmv & Hmc & Hn & Hr0). exists m. done.
  - destruct Hok as (Hu & Hr & Ha). by eapply snapshot_accounted in H0.
  - unfold on_artifact_recorded in H0. open_step. by eapply budget_ok_same.
  - unfold on_artifact_not_produced in H0. open_step. by eapply budget_ok_same.
  - unfold on_evaluation_completed in H0. open_step. by eapply budget_ok_same.
  - unfold on_run_terminal in H0. open_step. by eapply budget_ok_same.
Qed.

Lemma replay_budget_ok id es r : foldM replay_step (replay_start id) es = Ok r → budget_ok r.
Proof.
  intros H. eapply (foldM_ind budget_ok); [exact H| |].
  - split; [done|]. split; [done|]. by split.
  - intros r1 e r2 _ Hr1 Hs. by eapply budget_ok_step.
Qed.

(** ** Artifacts, evaluation and outcome *)

Record run_ok (s : ReplayState) : Prop := {
  ok_disjoint : ∀ name, artifacts s !! name = None ∨ absent_artifacts s !! name = None;
  ok_absent : ∀ name, present (absent_artifacts s !! name) = true → name ∈ EXPECTED_ARTIFACT_NAMES;
  ok_digests : ∀ name digest, artifacts s !! name = Some digest → is_lower_sha256 digest = true;
  ok_evaluated : ∀ o, evaluation_outcome s = Some o →
    o ∈ ["passed"; "failed"; "error"] ∧
    evaluation_required ⊆ dom (artifacts s) ∧ model_request_state s = completed;
  ok_ended : is_terminal (status s) = true →
    _terminal_status_matches_outcome (status s) (evaluation_outcome s) = true ∧
    (status s = SUCCEEDED ↔ terminal_reason s = None) ∧
    model_request_state s ≠ started ∧
    (model_request_state s = ambiguous → status s = INFRASTRUCTURE_ERROR ∧
       terminal_reason s = Some "ambiguous_model_request");
}.

Lemma run_ok_same s s' :
  run_ok s → artifacts s' = artifacts s → absent_artifacts s' = absent_artifacts s →
  evaluation_outcome s' = evaluation_outcome s → terminal_reason s' = terminal_reason s →
  (evaluation_outcome s ≠ None → model_request_state s' = model_request_state s) →
  (is_terminal (status s') = false ∨ status s' = status s ∧ model_request_state s' = model_request_state s) →
  run_ok s'.
Proof.
  intros [H1 H2 H3 H4 H5] Ea Eb Eo Er Eq Et. split; rewrite ?Ea, ?Eb, ?Eo, ?Er; try done.
  - intros o Ho. rewrite Eq by congruence. auto.
  - destruct Et as [->|[-> ->]]; [done|auto].
Qed.

Lemma absent_present {A} (o : option A) : present o = false ↔ o = None.
Proof. by destruct o. Qed.

Lemma require_sha256_hex p k d : _require_sha256 p k = Ok d → is_lower_sha256 d = true.
Proof. unfold _require_sha256, demand. intros H. by inv_ok. Qed.

Lemma run_ok_step r e r' : replay_step r e = Ok r' → run_ok (state r) → run_ok (state r').
Proof.
  intros (_ & Hterm & _ & r1 & Hd & ->)%replay_step_inv Hok.
  assert (run_ok (state r1)) as Hr1; [|by eapply run_ok_same; [exact Hr1|..]; auto].
  destruct (dispatch_kind _ _ _ Hd) as (k & Hk & _).
  unfold dispatch in Hd. rewrite Hk in Hd. destruct r as [s cr pb]. cbn [state created pending_budget] in *.
  destruct k; open_step.
  - unfold on_run_created in Hd. open_step. eapply run_ok_same; [exact Hok|..]; auto.
  - unfold on_run_started in H0. open_step. eapply run_ok_same; [exact Hok|..]; auto.
  - unfold on_model_request_started in H0. open_step. eapply run_ok_same; [exact Hok|..]; auto.
    simpl_fields. intros Ho. destruct (evaluation_outcome s) as [o|] eqn:E; [|done].
    destruct (ok_evaluated _ Hok _ E) as (_ & _ & ?). congruence.
  - unfold on_model_response_completed in H0. open_step. eapply run_ok_same; [exact Hok|..]; auto.
    simpl_fields. intros Ho. destruct (evaluation_outcome s) as [o|] eqn:E; [|done].
    destruct (ok_evaluated _ Hok _ E) as (_ & _ & ?). congruence.
  - unfold on_model_request_ambiguous in H0. open_step. eapply run_ok_same; [exact Hok|..]; auto.
    simpl_fields. intros Ho. destruct (evaluation_outcome s) as [o|] eqn:E; [|done].
    destruct (ok_evaluated _ Hok _ E) as (_ & _ & ?). congruence.
  - apply snapshot_state in H0 as (u & v & ->). eapply run_ok_same; [exact Hok|..]; auto.
  - unfold on_artifact_recorded in H0. open_step. destruct Hok as [H1' H2' H3' H4' H5'].
    unfold in_artifacts in *. split_andb. rewrite !absent_present in *.
    match goal with H : _require_nonempty_string _ "name" = Ok ?n |- _ => rename n into name end.
    split; simpl_fields; try done.
    + intros n. destruct (decide (n = name)) as [->|]; [by right|]. rewrite lookup_insert_ne by done. apply H1'.
    + intros n d. destruct (decide (n = name)) as [->|].
      * rewrite lookup_insert_eq. intros [= <-]. by eapply require_sha256_hex.
      * rewrite lookup_insert_ne by done. apply H3'.
    + intros o Ho. destruct (H4' o Ho) as (? & ? & ?). split_and!; try done.
      etransitivity; [eassumption|]. rewrite dom_insert. apply union_subseteq_r.
  - unfold on_artifact_not_produced in H0. open_step. destruct Hok as [H1' H2' H3' H4' H5'].
    unfold in_artifacts in *. split_andb. rewrite !absent_present in *.
    match goal with H : _require_nonempty_string _ "name" = Ok ?n |- _ => rename n into name end.
    split; simpl_fields; try done.
    + intros n. destruct (decide (n = name)) as [->|]; [by left|]. rewrite lookup_insert_ne by done. apply H1'.
    + intros n. destruct (decide (n = name)) as [->|]; [done|]. rewrite lookup_insert_ne by done. apply H2'.
  - unfold on_evaluation_completed in H0. open_step. destruct Hok as [H1' H2' H3' H4' H5'].
    split; simpl_fields; try done.
    + intros o [= <-]. split_and!; try done. by apply existsb_str.
    + intros Ht. congruence.
  - unfold on_run_terminal in H0. open_step. destruct Hok as [H1' H2' H3' H4' H5'].
    split; simpl_fields; try done.
    match goal with
    | H : match ?st with PENDING => _ | _ => _ end = Ok _, Hreason : _ = Ok ?reason |- _ =>
        intros _; split_and!; [done| |done|]
    end.
    + destruct a1, a7; naive_solver.
    + intros Hq. rewrite bool_decide_true in * by done. by open_step.
Qed.

Lemma replay_run_ok id es r : foldM replay_step (replay_start id) es = Ok r → run_ok (state r).
Proof.
  intros H. eapply (foldM_ind (λ r, run_ok (state r))); [exact H| |].
  - split; try done. intros name. left. apply lookup_empty.
  - intros r1 e r2 _ Hr1 Hs. by eapply run_ok_step.
Qed.

(** What [_terminal_status_matches_outcome] says of the known outcomes. *)
Lemma status_agrees st outcome :
  _terminal_status_matches_outcome st outcome = true →
  (∀ o, outcome = Some o → o ∈ ["passed"; "failed"; "error"]) →
  (st = SUCCEEDED ↔ outcome = Some "passed") ∧
  (st ∈ [FAILED; TIMED_OUT] ↔ outcome = Some "failed") ∧
  (outcome = Some "error" → st = INFRASTRUCTURE_ERROR) ∧
  (outcome = None → st ∈ [CANCELLED; BUDGET_EXHAUSTED; INFRASTRUCTURE_ERROR]) ∧
  outcome ∈ [None; Some "passed"; Some "failed"; Some "error"].
Proof.
  intros Hm Ho. destruct outcome as [o|]; [|destruct st; vm_compute in Hm; set_solver].
  specialize (Ho o eq_refl). rewrite !elem_of_cons in Ho.
  destruct Ho as [->|[->|[->|Ho]]]; [..|by apply not_elem_of_nil in Ho];
    destruct st; try (vm_compute in Hm; discriminate Hm); set_solver.
Qed.

(** The exposure of a run: what it has used and still holds reserved. *)
Definition exposure (s : ReplayState) : BudgetUsage := plus_usage (budget_used s) (budget_reserved s).

Lemma usage_eqb_ints u v : usage_eqb u v = true → int_fields u = int_fields v.
Proof. unfold usage_eqb. intros. by split_andb. Qed.

Lemma plus_ints u v : int_fields (plus_usage u v) = zip_with Z.add (int_fields u) (int_fields v).
Proof. done. Qed.

Lemma ints_le_nothing_l u r m : nothing u → ints_le r m → ints_le (plus_usage u r) m.
Proof.
  unfold nothing, ints_le. intros Hu%usage_eqb_ints Hr. rewrite plus_ints, Hu. by destruct r.
Qed.
Lemma ints_le_nothing_r u r m : nothing r → ints_le u m → ints_le (plus_usage u r) m.
Proof.
  unfold nothing, ints_le. intros Hr%usage_eqb_ints Hu. rewrite plus_ints, Hr.
  unfold int_fields in *. simpl in *. rewrite !Z.add_0_r. done.
Qed.
Lemma ints_le_eqb u m : usage_eqb u m = true → ints_le u m.
Proof. unfold ints_le. intros ->%usage_eqb_ints. by apply Forall_Forall2_diag, Forall_true. Qed.
Lemma ints_le_valid u v : nothing u → usage_valid v = true → ints_le u v.
Proof.
  unfold nothing, ints_le. intros ->%usage_eqb_ints (Hv & _)%usage_valid_spec.
  unfold int_fields in *. simpl.
  repeat match goal with H : Forall _ (_ :: _) |- _ => apply Forall_cons in H as [? H] end.
  repeat (constructor; [done|]). constructor.
Qed.
Lemma ints_le_at_most u v : _usage_at_most u v = true → ints_le u v.
Proof.
  unfold _usage_at_most, ints_le, int_fields. cbn [zip_with forallb fst snd]. intros. split_andb.
  repeat match goal with H : (_ <=? _) = true |- _ => apply Z.leb_le in H end.
  repeat (constructor; [done|]). constructor.
Qed.

(** C1. A replayed run never exceeds the one reservation it made: at every point of an
    accepted stream, used plus reserved is at most the maximum of the model request on
    every integer dimension, and is nothing while no request was made. *)
Theorem replay_never_exceeds_reservation es s :
  replay_events es false = Ok s →
  match model_request_state s with
  | not_started => ints_le (exposure s) empty_usage
  | _ => ∃ m, model_request_maximum s = Some m ∧ model_calls m = 1 ∧ ints_le (exposure s) m
  end.
Proof.
  intros (r & first & _ & _ & Hf & -> & _ & _)%replay_events_fold.
  destruct (replay_budget_ok _ _ _ Hf) as (_ & _ & Ha). unfold accounted, exposure in *.
  assert (∀ u, nothing u → ints_le u empty_usage) as Hnn by (intros; by apply ints_le_eqb).
  destruct (model_request_state (state r)).
  - destruct Ha as (_ & ? & ?). apply ints_le_nothing_l; auto.
  - destruct Ha as (m & Hm & Hv & Hc & Ha). exists m. split_and!; try done.
    destruct (pending_budget r) as [t|].
    + destruct Ha as (_ & _ & ? & Ha). apply ints_le_nothing_l; [done|].
      destruct (bt_kind t); destruct Ha as [? Ha]; try discriminate.
      destruct Ha. by apply ints_le_valid.
    + destruct Ha. apply ints_le_nothing_l; [done|]. by apply ints_le_eqb.
  - destruct Ha as (m & Hm & Hv & Hc & Ha). exists m. split_and!; try done.
    destruct (pending_budget r) as [t|].
    + destruct Ha as (_ & _ & ? & Ha). apply ints_le_nothing_l; [done|].
      destruct (bt_kind t); destruct Ha as [? Ha]; try discriminate.
      destruct Ha. by apply ints_le_eqb.
    + destruct Ha as (? & ? & ?). apply ints_le_nothing_r; [done|]. by apply ints_le_at_most.
  - destruct Ha as (m & Hm & Hv & Hc & Ha). exists m. split_and!; try done.
    destruct (pending_budget r) as [t|].
    + destruct Ha as (_ & _ & ? & Ha). apply ints_le_nothing_l; [done|].
      destruct (bt_kind t); destruct Ha as [? Ha]; try discriminate. by apply ints_le_eqb.
    + destruct Ha as (? & ?). apply ints_le_nothing_r; [done|]. by apply ints_le_eqb.
Qed.

(** ** The charge of the model request *)

Definition of_kind (k : event_kind) (es : list EventRecord) : list EventRecord :=
  List.filter (λ e, bool_decide (kind_of (event_type e) = Some k)) es.

Lemma of_kind_snoc k es e :
  of_kind k (es ++ [e]) =
  of_kind k es ++ (if bool_decide (kind_of (event_type e) = Some k) then [e] else []).
Proof. unfold of_kind. rewrite List.filter_app. simpl. by destruct (bool_decide _). Qed.

Lemma of_kind_other k k' es e : kind_of (event_type e) = Some k' → k' ≠ k →
  of_kind k (es ++ [e]) = of_kind k es.
Proof.
  intros H Hk. rewrite of_kind_snoc, bool_decide_false by congruence. apply app_nil_r.
Qed.

Lemma of_kind_same k es e : kind_of (event_type e) = Some k →
  of_kind k (es ++ [e]) = of_kind k es ++ [e].
Proof. intros H. by rewrite of_kind_snoc, bool_decide_true by done. Qed.

(** The events that made and answered the one model request: the maximum is the one the
    request names, and the charge, due in the pending transition or already made, is the
    usage the response reports. *)
Definition answered (es : list EventRecord) (s : ReplayState) (pb : option _BudgetTransition) : Prop :=
  match model_request_state s with
  | not_started => of_kind model_request_started es = [] ∧ of_kind model_response_completed es = []
  | q =>
      ∃ e m, of_kind model_request_started es = [e] ∧
      _usage_from_payload (payload e) "maximum" = Ok m ∧ model_request_maximum s = Some m ∧
      match q with
      | completed => ∃ e' u, of_kind model_response_completed es = [e'] ∧
          _usage_from_payload (payload e') "actual" = Ok u ∧ _usage_at_most u m = true ∧
          model_calls u = 1 ∧
          match pb with
          | Some t => bt_kind t = reconcile ∧ amount t = u
          | None => usage_eqb (budget_used s) u = true
          end
      | _ => of_kind model_response_completed es = []
      end
  end.

Lemma answered_other es e k s s' pb :
  kind_of (event_type e) = Some k → k ≠ model_request_started → k ≠ model_response_completed →
  answered es s pb → budget_used s' = budget_used s →
  model_request_state s' = model_request_state s → model_request_maximum s' = model_request_maximum s →
  answered (es ++ [e]) s' pb.
Proof.
  intros Hk H1 H2 H. unfold answered.
  intros -> -> ->. by rewrite !(of_kind_other _ k) by done.
Qed.

(** The snapshot that is due charges the reported usage. *)
Lemma snapshot_charges s p t s' :
  usage_valid (budget_used s) = true → usage_valid (budget_reserved s) = true →
  accounted s (Some t) → bt_kind t = reconcile → _apply_budget_snapshot s p (Some t) = Ok s' →
  usage_eqb (budget_used s') (amount t) = true.
Proof.
  intros Hu Hr Ha Hk H. unfold _apply_budget_snapshot in H. inv_ok.
  apply usage_from_payload_valid in H0, H1. unfold accounted in Ha.
  destruct t as [k ub rb am]. cbn [bt_kind used_before reserved_before amount] in *. subst k.
  destruct (model_request_state s); [by destruct Ha as [? _]|..];
    destruct Ha as (m & Hm & _ & _ & -> & -> & Hn & Hq & _ & Hav & _ & _); try discriminate Hq.
  open_step. eapply usage_eqb_trans; [eassumption|]. by eapply (add_empty_eqb (budget_used s)).
Qed.

Lemma snapshot_request s p t s' : _apply_budget_snapshot s p t = Ok s' →
  model_request_state s' = model_request_state s ∧ model_request_maximum s' = model_request_maximum s ∧
  (t = None → usage_eqb (budget_used s') (budget_used s) = true).
Proof.
  unfold _apply_budget_snapshot. intros H. inv_ok. split; [done|]. split; [done|].
  intros ->. by open_step.
Qed.

Lemma answered_snapshot es e s p t s' :
  kind_of (event_type e) = Some budget_snapshot →
  usage_valid (budget_used s) = true → usage_valid (budget_reserved s) = true →
  accounted s t → answered es s t → _apply_budget_snapshot s p t = Ok s' →
  answered (es ++ [e]) s' None.
Proof.
  intros Hk Hu Hr Ha H Hs. destruct (snapshot_request _ _ _ _ Hs) as (Eq & Em & En).
  unfold answered in *. rewrite Eq, Em, !(of_kind_other _ budget_snapshot) by done.
  destruct (model_request_state s) eqn:E; try done.
  destruct H as (e1 & m & H1 & H2 & H3 & e2 & u & H4 & H5 & H6 & H7 & H8).
  exists e1, m. split_and!; try done. exists e2, u. split_and!; try done.
  destruct t as [t|].
  - destruct H8 as [Ht <-]. by eapply snapshot_charges.
  - by eapply usage_eqb_trans; [apply En|].
Qed.

Lemma answered_step es r e r' : replay_step r e = Ok r' → budget_ok r →
  answered es (state r) (pending_budget r) → answered (es ++ [e]) (state r') (pending_budget r').
Proof.
  intros (_ & Hterm & Howed & r1 & Hd & ->)%replay_step_inv (Hu & Hr & Hacc) Ha.
  assert (answered (es ++ [e]) (state r1) (pending_budget r1)) as ?; [|done].
  destruct (dispatch_kind _ _ _ Hd) as (k & Hk & _).
  unfold dispatch in Hd. rewrite Hk in Hd. destruct r as [s cr pb]. cbn [state created pending_budget] in *.
  assert (k ≠ budget_snapshot → pb = None) as Hpb by naive_solver.
  destruct k; open_step; try (specialize (Hpb ltac:(done)); subst pb).
  - unfold on_run_created in Hd. open_step. by eapply answered_other.
  - unfold on_run_started in H0. open_step. by eapply answered_other.
  - unfold on_model_request_started in H0. open_step. unfold answered in *. simpl_fields.
    rewrite H1 in Ha. destruct Ha as [Hq Hp]. eexists e, _.
    rewrite (of_kind_same _ _ _ Hk), (of_kind_other _ _ _ _ Hk), Hq, Hp by done. done.
  - unfold on_model_response_completed in H0. open_step. unfold answered in *. simpl_fields.
    rewrite H1 in Ha. destruct Ha as (e1 & m & Hq & Hm & Hs & Hp). rewrite Hs in *.
    exists e1, m. rewrite (of_kind_same _ _ _ Hk), (of_kind_other _ _ _ _ Hk), Hq, Hp by done.
    split_and!; try done. eexists e, _. split_and!; try done. by apply Z.eqb_eq.
  - unfold on_model_request_ambiguous in H0. open_step. unfold answered in *. simpl_fields.
    rewrite H1 in Ha. destruct Ha as (e1 & m & Hq & Hm & Hs & Hp).
    exists e1, m. rewrite !(of_kind_other _ _ _ _ Hk) by done. done.
  - by eapply answered_snapshot.
  - unfold on_artifact_recorded in H0. open_step. by eapply answered_other.
  - unfold on_artifact_not_produced in H0. open_step. by eapply answered_other.
  - unfold on_evaluation_completed in H0. open_step. by eapply answered_other.
  - unfold on_run_terminal in H0. open_step. by eapply answered_other.
Qed.

Lemma replay_answered id es r : foldM replay_step (replay_start id) es = Ok r →
  answered es (state r) (pending_budget r).
Proof.
  revert r. induction es as [|e es IH] using rev_ind; intros r H.
  - simpl in H. inv_ok. done.
  - rewrite foldM_snoc in H. inv_ok. eapply answered_step; [eassumption| |by apply IH].
    by eapply replay_budget_ok.
Qed.

(** C2. In a terminal stream nothing stays reserved, and the charge is exactly what became
    of the model request.  Nothing is charged if there was none.  Otherwise the stream
    holds exactly one request event, and its maximum is the reservation.  If the request
    was answered, the stream holds exactly one response event, and the charge is the usage
    this event reports, which is one call and within the reservation.  If it is ambiguous,
    no response is in the stream, the charge is the whole reservation, and the run is an
    infrastructure error with the reason [ambiguous_model_request]. *)
Theorem terminal_stream_settled es s :
  replay_events es true = Ok s →
  is_terminal (status s) = true ∧ usage_eqb (budget_reserved s) empty_usage = true ∧
  match model_request_state s with
  | not_started =>
      of_kind model_request_started es = [] ∧ usage_eqb (budget_used s) empty_usage = true
  | started => False
  | completed => ∃ e e' m u,
      of_kind model_request_started es = [e] ∧ _usage_from_payload (payload e) "maximum" = Ok m ∧
      of_kind model_response_completed es = [e'] ∧
      _usage_from_payload (payload e') "actual" = Ok u ∧
      usage_eqb (budget_used s) u = true ∧ _usage_at_most u m = true ∧ model_calls u = 1
  | ambiguous => ∃ e m,
      of_kind model_request_started es = [e] ∧ _usage_from_payload (payload e) "maximum" = Ok m ∧
      of_kind model_response_completed es = [] ∧ usage_eqb (budget_used s) m = true ∧
      status s = INFRASTRUCTURE_ERROR ∧ terminal_reason s = Some "ambiguous_model_request"
  end.
Proof.
  intros (r & first & _ & _ & Hf & -> & _ & Ht)%replay_events_fold. specialize (Ht eq_refl).
  unfold require_terminal_stream in Ht. open_step.
  destruct (replay_budget_ok _ _ _ Hf) as (_ & _ & Ha). unfold accounted in Ha.
  pose proof (replay_answered _ _ _ Hf) as Hans. unfold answered in Hans.
  destruct (ok_ended _ (replay_run_ok _ _ _ Hf)) as (_ & _ & Hs & Hamb); [done|].
  destruct (pending_budget r); [done|]. split; [done|]. split; [done|].
  destruct (model_request_state (state r)); [naive_solver|done|naive_solver|].
  destruct Ha as (m & Hm & _ & _ & Hused & _), Hans as (e & m' & He & Hu & Hm' & Hn).
  rewrite Hm in Hm'. injection Hm' as <-. destruct Hamb; [done|]. by exists e, m.
Qed.

(** C3. A terminal stream accounts for every expected artifact, either recorded with a
    SHA-256 digest or declared absent and never both.  Its status agrees with its
    evaluation: it passed exactly when the run succeeded, it failed exactly when the run
    failed or timed out, an evaluation error makes an infrastructure error, and a run
    without evaluation was cancelled, exhausted its budget or is an infrastructure error;
    there are no other outcomes.  A run has a terminal reason exactly when it did not
    succeed; and an evaluation implies that its evidence is bound. *)
Theorem terminal_stream_accounts es s :
  replay_events es true = Ok s →
  (∀ name, name ∈ EXPECTED_ARTIFACT_NAMES →
    (∃ digest, artifacts s !! name = Some digest ∧ is_lower_sha256 digest = true ∧
       absent_artifacts s !! name = None) ∨
    (artifacts s !! name = None ∧ present (absent_artifacts s !! name) = true)) ∧
  (status s = SUCCEEDED ↔ evaluation_outcome s = Some "passed") ∧
  (status s ∈ [FAILED; TIMED_OUT] ↔ evaluation_outcome s = Some "failed") ∧
  (evaluation_outcome s = Some "error" → status s = INFRASTRUCTURE_ERROR) ∧
  (evaluation_outcome s = None → status s ∈ [CANCELLED; BUDGET_EXHAUSTED; INFRASTRUCTURE_ERROR]) ∧
  evaluation_outcome s ∈ [None; Some "passed"; Some "failed"; Some "error"] ∧
  (status s = SUCCEEDED ↔ terminal_reason s = None) ∧
  (∀ o, evaluation_outcome s = Some o →
    evaluation_required ⊆ dom (artifacts s) ∧ model_request_state s = completed).
Proof.
  intros (r & first & _ & _ & Hf & -> & _ & Ht)%replay_events_fold. specialize (Ht eq_refl).
  unfold require_terminal_stream in Ht. open_step.
  pose proof (replay_run_ok _ _ _ Hf) as Hok.
  destruct (ok_ended _ Hok) as (Hm & Hr & _ & _); [done|].
  assert (∀ o, evaluation_outcome (state r) = Some o → o ∈ ["passed"; "failed"; "error"]) as Ho.
  { intros o Eo. by destruct (ok_evaluated _ Hok o Eo). }
  destruct (status_agrees _ _ Hm Ho) as (Hs1 & Hs2 & Hs3 & Hs4 & Hs5).
  split_and!; try done.
  - intros name Hname. assert (name ∈ dom (artifacts (state r)) ∪ dom (absent_artifacts (state r))) as Hin
      by auto. apply elem_of_union in Hin as [Hin|Hin]; apply elem_of_dom in Hin as [x Hx].
    + left. exists x. split; [done|]. split; [by eapply ok_digests|].
      destruct (ok_disjoint _ Hok name); congruence.
    + right. rewrite Hx. split; [|done]. destruct (ok_disjoint _ Hok name); congruence.
  - intros o Eo. by destruct (ok_evaluated _ Hok o Eo) as (_ & ? & ?).
Qed.

(** ** The hash chain *)

Lemma chain_fold es c : foldM chain_step empty_chain es = Ok c →
  previous c = last es ∧ expected_sequence c = Z.of_nat (length es) ∧
  seen_event_ids c = list_to_set (event_id <$> es) ∧ NoDup (event_id <$> es).
Proof.
  revert c. induction es as [|e es IH] using rev_ind; intros c H.
  - simpl in H. inv_ok. split_and!; [done|done|done|constructor].
  - rewrite foldM_snoc in H. inv_ok. destruct (IH _ H0) as (Hp & Hs & Hi & Hn).
    unfold chain_step in H. open_step. cbn [previous expected_sequence seen_event_ids].
    rewrite last_snoc, length_app, fmap_app, list_to_set_app_L. csimpl. split_and!; [done|lia| |].
    + rewrite Hi. set_solver.
    + apply NoDup_app. split_and!; [done| |apply NoDup_singleton].
      intros x Hx ->%list_elem_of_singleton. rewrite Hi in *. set_solver.
Qed.

Lemma verify_snoc es e : verify_event_chain (es ++ [e]) = Ok tt →
  verify_event_chain es = Ok tt ∧ sequence e = Z.of_nat (length es) ∧
  match last es with
  | None => previous_event_hash e = None ∧ causal_parent_ids e = []
  | Some p => ∃ h, content_hash p = Ok h ∧ previous_event_hash e = Some h ∧
                causal_parent_ids e = [event_id p]
  end.
Proof.
  unfold verify_event_chain. rewrite foldM_snoc. intros H. inv_ok.
  match goal with F : foldM _ _ _ = Ok ?c, S : chain_step ?c _ = _ |- _ =>
    destruct (chain_fold _ _ F) as (Hp & Hs & _ & _); rewrite F; unfold chain_step in S end.
  split; [done|]. open_step. rewrite Hp in *.
  split; [by rewrite <- Hs; apply Z.eqb_eq|].
  destruct (last es); open_step; [eauto|].
  by match goal with H : present _ = false |- _ => apply absent_present in H end.
Qed.

Lemma content_hash_inj e1 e2 h :
  check_event e1 = Ok e1 → check_event e2 = Ok e2 →
  content_hash e1 = Ok h → content_hash e2 = Ok h → e1 = e2 ∨ collision.
Proof.
  intros H1 H2 Hh1 Hh2.
  destruct (dump_event_wf _ H1) as [Hw1 _], (dump_event_wf _ H2) as [Hw2 _].
  destruct (canonical_sha256_inj _ _ _ Hw1 Hw2 Hh1 Hh2) as [E|]; [left|by right].
  apply (validate_dump_event (H := canonical_datetimes)) in H1, H2. rewrite E in H1. congruence.
Qed.

Lemma head_hash_streams es1 es2 l1 l2 h :
  verify_event_chain es1 = Ok tt → verify_event_chain es2 = Ok tt →
  Forall (λ e, check_event e = Ok e) es1 → Forall (λ e, check_event e = Ok e) es2 →
  last es1 = Some l1 → last es2 = Some l2 → content_hash l1 = Ok h → content_hash l2 = Ok h →
  es1 = es2 ∨ collision.
Proof.
  revert es2 l1 l2 h. induction es1 as [|e1 es1 IH] using rev_ind; intros es2 l1 l2 h Hv1 Hv2 Hc1 Hc2 Hl1 Hl2 Hh1 Hh2.
  { done. }
  destruct (exists_last_or_nil es2) as [->|(es2' & e2 & ->)]; [done|].
  rewrite last_snoc in Hl1, Hl2. simplify_eq.
  apply Forall_app in Hc1 as [Hc1 Hc1'], Hc2 as [Hc2 Hc2'].
  apply Forall_cons in Hc1' as [Hc1' _], Hc2' as [Hc2' _].
  destruct (content_hash_inj _ _ _ Hc1' Hc2' Hh1 Hh2) as [->|]; [|by right].
  apply verify_snoc in Hv1 as (Hv1 & Hs1 & Hp1), Hv2 as (Hv2 & Hs2 & Hp2).
  destruct (last es1) as [p1|] eqn:E1, (last es2') as [p2|] eqn:E2.
  - destruct Hp1 as (h1 & Hh1' & Hp1 & _), Hp2 as (h2 & Hh2' & Hp2 & _).
    rewrite Hp1 in Hp2. injection Hp2 as <-.
    destruct (IH es2' p1 p2 h1) as [->|]; auto.
  - destruct Hp1 as (? & _ & ? & _), Hp2 as (? & _). congruence.
  - destruct Hp2 as (? & _ & ? & _), Hp1 as (? & _). congruence.
  - apply last_None in E1 as ->, E2 as ->. by left.
Qed.

(** C4. Tamper evidence: the hash of the last event commits to the whole stream.  Two
    verified streams of checked events whose heads have the same content hash are equal,
    unless they exhibit a collision of SHA-256. *)
Theorem head_hash_commits es1 es2 l1 l2 h :
  verify_event_chain es1 = Ok tt → verify_event_chain es2 = Ok tt →
  Forall (λ e, check_event e = Ok e) es1 → Forall (λ e, check_event e = Ok e) es2 →
  last es1 = Some l1 → last es2 = Some l2 → content_hash l1 = Ok h → content_hash l2 = Ok h →
  es1 = es2 ∨ collision.
Proof. apply head_hash_streams. Qed.

(** ** The semantic digest *)

Lemma dict_pop_sub k o : dict_pop k o `sublist_of` o.
Proof.
  unfold dict_pop. induction o as [|[k' v] o IH]; simpl; [done|].
  destruct (str_eqb k k'); simpl; by constructor.
Qed.

Lemma json_wf_sub o o' : o' `sublist_of` o → json_wf (JObj o) = true → json_wf (JObj o') = true.
Proof.
  intros Hs. cbn [json_wf]. rewrite !andb_true_iff, !nodup_keys_NoDup, !forallb_forall.
  intros [Hn Hf]. split; [eapply sublist_NoDup; [exact Hn|]; by apply fmap_sublist|].
  intros x Hx. apply Hf. apply list_elem_of_In in Hx. apply list_elem_of_In.
  by eapply sublist_subseteq.
Qed.

Lemma finite_sub o o' : o' `sublist_of` o → finite_json (JObj o) = true → finite_json (JObj o') = true.
Proof.
  intros Hs. cbn [finite_json]. rewrite !forallb_forall. intros Hf x Hx. apply Hf.
  apply list_elem_of_In in Hx. apply list_elem_of_In. by eapply sublist_subseteq.
Qed.

Lemma semantic_event_ok e : check_event e = Ok e →
  json_wf (semantic_event e) = true ∧ finite_json (semantic_event e) = true.
Proof.
  intros He. destruct (check_event_inv e e He) as (Hp%dict_ok_wf & _).
  destruct (check_event_payload e e He) as [_ Hf]. unfold semantic_event.
  assert (semantic_payload e `sublist_of` payload e) as Hs.
  { unfold semantic_payload. destruct (_ && _); [|done]. by rewrite !dict_pop_sub. }
  pose proof (json_wf_sub _ _ Hs Hp) as Hw. pose proof (finite_sub _ _ Hs Hf) as Hf'.
  cbn [json_wf finite_json forallb snd] in *. by rewrite Hw, Hf'.
Qed.

Lemma semantic_list_ok es : Forall (λ e, check_event e = Ok e) es →
  json_wf (JArr (semantic_event <$> es)) = true ∧ finite_json (JArr (semantic_event <$> es)) = true.
Proof.
  intros H. cbn [json_wf finite_json]. rewrite !forallb_fmap.
  induction H as [|e es He _ [IH1 IH2]]; [done|]. cbn [forallb].
  destruct (semantic_event_ok e He) as [-> ->]. by rewrite IH1, IH2.
Qed.

(** The semantic digest depends on exactly the treatment-relevant content: accepted
    streams with the same event types and payloads (evaluation envelopes without their
    digest) have the same digest, whatever their run identifiers, event identifiers,
    clocks and hashes; and equal digests mean equal content, up to key order, or exhibit
    a collision. *)
Theorem semantic_digest_spec es1 es2 s1 s2 :
  replay_events es1 false = Ok s1 → replay_events es2 false = Ok s2 →
  Forall (λ e, check_event e = Ok e) es1 → Forall (λ e, check_event e = Ok e) es2 →
  (semantic_event <$> es1 = semantic_event <$> es2 → semantic_digest es1 = semantic_digest es2) ∧
  (∀ d, semantic_digest es1 = Ok d → semantic_digest es2 = Ok d →
     sort_json (JArr (semantic_event <$> es1)) = sort_json (JArr (semantic_event <$> es2)) ∨ collision).
Proof.
  intros H1 H2 Hc1 Hc2. unfold semantic_digest. rewrite H1, H2. cbn [mbind result_bind].
  split; [by intros ->|]. intros d Hd1 Hd2.
  destruct (semantic_list_ok _ Hc1) as [Hw1 _], (semantic_list_ok _ Hc2) as [Hw2 _].
  by eapply canonical_sha256_inj.
Qed.

End facts.

(** ** The theorems on the sample run *)

Lemma project_Ok {A B} (m : result A) (f : A → B) x :
  (s ← m; Ok (f s)) = Ok x → ∃ s, m = Ok s ∧ f s = x.
Proof. destruct m as [s|]; simpl; [|done]. intros [= <-]. eauto. Qed.

Lemma sample_replayed : ∃ s, replay_events sample_stream true = Ok s ∧
  status s = INFRASTRUCTURE_ERROR ∧ model_request_state s = ambiguous.
Proof.
  destruct (project_Ok _ _ _ sample_stream_replays) as (s & Hs & E). exists s.
  split; [exact Hs|]. split; congruence.
Qed.

Lemma answered_replayed : ∃ s, replay_events answered_stream true = Ok s ∧
  status s = CANCELLED ∧ model_request_state s = completed.
Proof.
  destruct (project_Ok _ _ _ answered_stream_replays) as (s & Hs & E). exists s.
  split; [exact Hs|]. split; congruence.
Qed.

Lemma interrupted_replayed : ∃ s, replay_events interrupted_stream false = Ok s ∧
  status s = RUNNING ∧ model_request_state s = started.
Proof.
  destruct (project_Ok _ _ _ interrupted_stream_replays) as (s & Hs & E). exists s.
  split; [exact Hs|]. split; congruence.
Qed.

Lemma sample_checked : Forall (λ e, check_event e = Ok e) sample_stream.
Proof.
  pose proof sample_stream_checked as H. rewrite forallb_forall in H. apply Forall_forall.
  intros e He. apply list_elem_of_In in He. by apply H, bool_decide_eq_true_1 in He.
Qed.

Lemma replayed_stream_shape_witness :
  ∃ ks, kinds sample_stream ks ∧ count model_request_started ks = 1%nat ∧ count run_terminal ks = 1%nat.
Proof.
  destruct sample_replayed as (s & Hs & Hst & Hq).
  destruct (replayed_stream_shape _ _ _ Hs) as (ks & Hks & _ & _ & Hreq & _ & _ & _ & Hterm & _).
  exists ks. rewrite Hreq, Hterm. unfold has_request. rewrite Hst, Hq.
  split; [exact Hks|]. split; reflexivity.
Defined.

Lemma replay_prefix_closed_witness :
  ∃ s1, replay_events interrupted_stream false = Ok s1 ∧ is_terminal (status s1) = false.
Proof.
  destruct sample_replayed as (s & Hs & _).
  assert (sample_stream = interrupted_stream ++ drop 5 sample_stream) as E by (vm_compute; reflexivity).
  rewrite E in Hs. destruct (replay_prefix_closed _ _ _ _ Hs) as (s1 & H1 & Ht); [discriminate|].
  exists s1. split; [exact H1|]. apply Ht. discriminate.
Defined.

Lemma replay_never_exceeds_reservation_witness :
  ∃ s m, replay_events interrupted_stream false = Ok s ∧ model_request_maximum s = Some m ∧
    ints_le (exposure s) m.
Proof.
  destruct interrupted_replayed as (s & Hs & _ & Hq).
  pose proof (replay_never_exceeds_reservation _ _ Hs) as H. rewrite Hq in H.
  destruct H as (m & Hm & _ & Hle). exists s, m. split; [exact Hs|]. split; assumption.
Defined.

Lemma terminal_stream_settled_witness :
  ∃ s, replay_events answered_stream true = Ok s ∧ model_request_state s = completed ∧
    usage_eqb (budget_used s) answered_usage = true ∧ usage_eqb answered_usage sample_usage = false.
Proof.
  destruct answered_replayed as (s & Hs & _ & Hq). exists s. split; [exact Hs|]. split; [exact Hq|].
  destruct (terminal_stream_settled _ _ Hs) as (_ & _ & H). rewrite Hq in H.
  destruct H as (e & e' & m & u & _ & _ & He & Hu & Hused & _).
  vm_compute in He. injection He as <-. vm_compute in Hu. injection Hu as <-.
  split; [exact Hused|vm_compute; reflexivity].
Defined.

Lemma terminal_stream_accounts_witness :
  ∃ s, replay_events sample_stream true = Ok s ∧
    (status s = SUCCEEDED ↔ evaluation_outcome s = Some "passed").
Proof.
  destruct sample_replayed as (s & Hs & _). exists s. split; [exact Hs|].
  exact (proj1 (proj2 (terminal_stream_accounts _ _ Hs))).
Defined.

Lemma head_hash_commits_witness :
  ∃ l h, last sample_stream = Some l ∧ content_hash l = Ok h ∧ (sample_stream = sample_stream ∨ collision).
Proof.
  assert (verify_event_chain sample_stream = Ok tt) as Hv by (vm_compute; reflexivity).
  destruct (last sample_stream) as [l|] eqn:El; [|vm_compute in El; discriminate].
  assert (check_event l = Ok l) as Hl.
  { pose proof sample_checked as Hc. rewrite Forall_forall in Hc. apply Hc.
    apply last_Some_elem_of in El. exact El. }
  destruct (content_hash_ok l Hl) as (h & Hh & _). exists l, h. split; [reflexivity|]. split; [exact Hh|].
  exact (head_hash_commits _ _ l l h Hv Hv sample_checked sample_checked El El Hh Hh).
Defined.

(** The same run under another identity. *)
Definition renamed_event (e : EventRecord) : EventRecord :=
  {| event_id := "copy:" +:+ event_id e; ev_run_id := "run-2"; sequence := sequence e;
     causal_parent_ids := (λ i, "copy:" +:+ i) <$> causal_parent_ids e; event_type := event_type e;
     monotonic_ns := monotonic_ns e + 1; occurred_at := sample_time 59; payload := payload e;
     payload_sha256 := payload_sha256 e; previous_event_hash := previous_event_hash e |}.

Lemma semantic_digest_spec_witness :
  ev_run_id <$> head (renamed_event <$> sample_stream) = Some "run-2" ∧
  semantic_digest sample_stream = semantic_digest (renamed_event <$> sample_stream).
Proof.
  split; [reflexivity|]. destruct sample_replayed as (s & Hs & _).
  destruct (replay_prefix sample_stream [] true s) as (s1 & Hs1 & _);
    [rewrite app_nil_r; exact Hs|discriminate|].
  destruct (replay_events (renamed_event <$> sample_stream) false) as [s2|] eqn:Hs2;
    [|vm_compute in Hs2; discriminate].
  apply (semantic_digest_spec sample_stream (renamed_event <$> sample_stream) s1 s2 Hs1 Hs2 sample_checked).
  - apply Forall_fmap, Forall_forall. intros e He. vm_compute in He.
    repeat (apply elem_of_cons in He as [->|He]; [vm_compute; reflexivity|]). inversion He.
  - rewrite <- list_fmap_compose. apply list_fmap_ext. reflexivity.
Defined.
