(* ===== verification/Sqlite.v ===== *)
(** * The ledger's database

    The four tables of src/guildmind/storage/events.py as lists of rows, with the
    constraints their CREATE TABLE statements declare; the statements the event store
    executes on them; and the monad in which the store runs: the connection's state, the
    clock, the machine that a caller's integrity guard looks at, and the checks that look outside the database (paths, sidecar files, the
    schema, [PRAGMA quick_check]), whose outcomes an [Environment] supplies.

    A Python exception leaves the state as it is; only [transaction], in EventStore.v,
    restores the tables. *)

From S2P Require Import Prelude Effects PyStr Files Datetime.

Local Open Scope Z_scope.

(** ** Rows and tables *)

Record run_row := {
  rr_run_id : string;
  rr_status : string;
  rr_manifest_revision : Z;
  rr_manifest_json : string;
  rr_manifest_sha256 : string;
}.

Record manifest_row := {
  mr_run_id : string;
  mr_revision : Z;
  mr_manifest_json : string;
  mr_manifest_sha256 : string;
}.

Record event_row := {
  evr_run_id : string;
  evr_sequence : Z;
  evr_event_id : string;
  evr_event_type : string;
  evr_record_json : string;
  evr_event_hash : string;
}.

Record budget_row := {
  br_run_id : string;
  br_limits_json : string;
  br_used_json : string;
  br_reserved_json : string;
}.

Record database := {
  runs : list run_row;
  run_manifests : list manifest_row;
  events : list event_row;
  budget_state : list budget_row;
}.

Definition empty_database : database :=
  {| runs := []; run_manifests := []; events := []; budget_state := [] |}.

(** ** Selections *)

(** [SELECT ... FROM runs WHERE run_id = ?], [.fetchone()] *)
Definition find_run (d : database) (id : string) : option run_row :=
  List.find (λ r, str_eqb (rr_run_id r) id) (runs d).
Definition find_manifest (d : database) (id : string) (rev : Z) : option manifest_row :=
  List.find (λ r, str_eqb (mr_run_id r) id && (mr_revision r =? rev)) (run_manifests d).
Definition find_budget (d : database) (id : string) : option budget_row :=
  List.find (λ r, str_eqb (br_run_id r) id) (budget_state d).

Definition seq_le (r1 r2 : event_row) : Prop := evr_sequence r1 <= evr_sequence r2.
#[export] Instance seq_le_dec : RelDecision seq_le := λ r1 r2, decide (evr_sequence r1 <= evr_sequence r2).
Definition rev_le (r1 r2 : manifest_row) : Prop := mr_revision r1 <= mr_revision r2.
#[export] Instance rev_le_dec : RelDecision rev_le := λ r1 r2, decide (mr_revision r1 <= mr_revision r2).
Definition id_le (r1 r2 : run_row) : Prop := String.le (rr_run_id r1) (rr_run_id r2).
#[export] Instance id_le_dec : RelDecision id_le := λ r1 r2, decide (String.le (rr_run_id r1) (rr_run_id r2)).

(** [SELECT ... WHERE run_id = ? ORDER BY sequence ASC] *)
Definition rows_of (d : database) (id : string) : list event_row :=
  List.filter (λ r, str_eqb (evr_run_id r) id) (events d).
Definition select_events (d : database) (id : string) : list event_row := merge_sort seq_le (rows_of d id).
(** [SELECT ... WHERE run_id = ? ORDER BY revision ASC] *)
Definition select_manifests (d : database) (id : string) : list manifest_row :=
  merge_sort rev_le (List.filter (λ r, str_eqb (mr_run_id r) id) (run_manifests d)).
(** [SELECT ... FROM runs ORDER BY run_id ASC] *)
Definition select_runs (d : database) : list run_row := merge_sort id_le (runs d).

(** ** Statements

    A statement that would break a key, a uniqueness or a foreign key constraint raises
    [sqlite3.IntegrityError]. *)

Definition constraint_failed {A} (msg : string) : result A := Err (SqliteIntegrityError msg).

Definition has_run (d : database) (id : string) : bool := existsb (λ r, str_eqb (rr_run_id r) id) (runs d).

Definition insert_run (r : run_row) (d : database) : result database :=
  if has_run d (rr_run_id r) then constraint_failed "UNIQUE constraint failed: runs.run_id"
  else Ok {| runs := runs d ++ [r]; run_manifests := run_manifests d; events := events d;
             budget_state := budget_state d |}.

Definition insert_manifest (r : manifest_row) (d : database) : result database :=
  if existsb (λ r', str_eqb (mr_run_id r') (mr_run_id r) && (mr_revision r' =? mr_revision r)) (run_manifests d)
  then constraint_failed "UNIQUE constraint failed: run_manifests"
  else if negb (has_run d (mr_run_id r)) then constraint_failed "FOREIGN KEY constraint failed"
  else Ok {| runs := runs d; run_manifests := run_manifests d ++ [r]; events := events d;
             budget_state := budget_state d |}.

Definition insert_event (r : event_row) (d : database) : result database :=
  if existsb (λ r', str_eqb (evr_run_id r') (evr_run_id r) && (evr_sequence r' =? evr_sequence r)) (events d)
  then constraint_failed "UNIQUE constraint failed: events"
  else if existsb (λ r', str_eqb (evr_event_id r') (evr_event_id r)) (events d)
  then constraint_failed "UNIQUE constraint failed: events.event_id"
  else if negb (has_run d (evr_run_id r)) then constraint_failed "FOREIGN KEY constraint failed"
  else Ok {| runs := runs d; run_manifests := run_manifests d; events := events d ++ [r];
             budget_state := budget_state d |}.

Definition insert_budget (r : budget_row) (d : database) : result database :=
  if existsb (λ r', str_eqb (br_run_id r') (br_run_id r)) (budget_state d)
  then constraint_failed "UNIQUE constraint failed: budget_state.run_id"
  else if negb (has_run d (br_run_id r)) then constraint_failed "FOREIGN KEY constraint failed"
  else Ok {| runs := runs d; run_manifests := run_manifests d; events := events d;
             budget_state := budget_state d ++ [r] |}.

(** [UPDATE runs SET ... WHERE run_id = ?] *)
Definition update_run (r : run_row) (d : database) : database :=
  {| runs := (λ r', if str_eqb (rr_run_id r') (rr_run_id r) then r else r') <$> runs d;
     run_manifests := run_manifests d; events := events d; budget_state := budget_state d |}.

(** [UPDATE budget_state SET used_json = ?, reserved_json = ? WHERE run_id = ?] *)
Definition update_budget (id used reserved : string) (d : database) : database :=
  {| runs := runs d; run_manifests := run_manifests d; events := events d;
     budget_state := (λ r, if str_eqb (br_run_id r) id
       then {| br_run_id := br_run_id r; br_limits_json := br_limits_json r; br_used_json := used;
               br_reserved_json := reserved |} else r) <$> budget_state d |}.

(** [PRAGMA foreign_key_check] *)
Definition foreign_keys_hold (d : database) : bool :=
  forallb (λ r, has_run d (mr_run_id r)) (run_manifests d) &&
  forallb (λ r, has_run d (evr_run_id r)) (events d) &&
  forallb (λ r, has_run d (br_run_id r)) (budget_state d).

(** ** The environment and the monad *)

Record ClockStamp := { cs_occurred_at : datetime; cs_monotonic_ns : Z }.

(** What comes of a [COMMIT] or a [ROLLBACK]: it ends the transaction, or it raises; then
    SQLite has rolled the transaction back itself, or has left it open. *)
Inductive ending := Ended | EndingFailed (e : exn) (left_open : bool).

(** The clock's successive stamps, the outcomes of the successive checks that look outside
    the tables, and those of the commits and rollbacks. *)
Class Environment := {
  clock_stamp : nat → ClockStamp;
  outside_check : nat → result unit;
  commit_ending : nat → ending;
  rollback_ending : nat → ending;
  read_only : bool;
}.

(** [db] is what the connection sees.  [left_open] is set when a transaction could not be
    ended: it holds the tables on disk, which are then not what the connection sees. *)
Record store := { db : database; left_open : option database; ticks : nat; checks : nat; machine : sys }.

(** What every other connection sees, and what is left once this one is closed: closing a
    connection rolls an open transaction back. *)
Definition on_disk (s : store) : database := default (db s) (left_open s).

Abbreviation M := (eff store).

Definition database_now : M database := λ s, (Ok (db s), s).
(** A read that decodes and validates rows. *)
Definition reads {A} (f : database → result A) : M A := λ s, (f (db s), s).
Definition execute (f : database → result database) : M unit := λ s,
  match f (db s) with
  | Ok d => (Ok tt, {| db := d; left_open := left_open s; ticks := ticks s; checks := checks s; machine := machine s |})
  | Err e => (Err e, s)
  end.
(** A program over the machine, run while the connection is open. *)
Definition on_machine {A} (m : Sys A) : M A := λ s,
  let '(r, w) := m (machine s) in
  (r, {| db := db s; left_open := left_open s; ticks := ticks s; checks := checks s; machine := w |}).
Section environment.
Context {env : Environment}.

(** [self._clock.stamp()] *)
Definition stamp : M ClockStamp := λ s,
  (Ok (clock_stamp (ticks s)), {| db := db s; left_open := left_open s; ticks := S (ticks s); checks := checks s; machine := machine s |}).
(** A check of something outside the tables. *)
Definition outside : M unit := λ s,
  (outside_check (checks s), {| db := db s; left_open := left_open s; ticks := ticks s; checks := S (checks s); machine := machine s |}).
End environment.
