(* ===== verification/EventStore.v ===== *)
(** * The event store (src/guildmind/storage/events.py)

    The reading side (decoding and cross-checking of manifests, their history, budgets
    and event streams, and the verified roots of the whole ledger), the writing primitives,
    the transaction, and every lifecycle operation of [EventStore].  Reading is a function
    of the tables; writing runs in the monad of Sqlite.v. *)

From S2P Require Import Prelude Effects PyStr Files Float64 Json Hash Datetime Fields Usage Models Replay Sqlite.

Local Open Scope Z_scope.

Definition store_error {A} (msg : string) : result A := Err (StoreIntegrityError msg).
Definition insist (b : bool) (msg : string) : result unit := require b (StoreIntegrityError msg).

(** [except ReplayIntegrityError as error: raise StoreIntegrityError(...)] *)
Definition replay_as_store (msg : string) (e : exn) : exn :=
  match e with ReplayIntegrityError _ => StoreIntegrityError msg | _ => e end.

(** [except (IndexError, KeyError, ValueError, sqlite3.DatabaseError): raise
    StoreIntegrityError(...)], with [TypeError] where the clause lists it. *)
Definition database_as_store (msg : string) (catches_type_error : bool) (e : exn) : exn :=
  match e with
  | IndexError _ | KeyError _ | SqliteIntegrityError _ | SqliteOperationalError _ => StoreIntegrityError msg
  | TypeError _ => if catches_type_error then StoreIntegrityError msg else e
  | _ => if is_value_error e then StoreIntegrityError msg else e
  end.

(** Python [==] on manifests *)
Definition manifest_fixed_eqb (a b : RunManifest) : bool :=
  str_eqb (m_run_id a) (m_run_id b) && str_eqb (m_experiment_id a) (m_experiment_id b) &&
  str_eqb (m_task_id a) (m_task_id b) && str_eqb (m_candidate_id a) (m_candidate_id b) &&
  bool_decide (m_genome_hash a = m_genome_hash b) &&
  str_eqb (m_requested_model a) (m_requested_model b) &&
  py_eqb (JObj (m_model_parameters a)) (JObj (m_model_parameters b)) &&
  (m_seed a =? m_seed b) && str_eqb (m_environment_digest a) (m_environment_digest b) &&
  str_eqb (m_code_revision a) (m_code_revision b) &&
  limits_eqb (m_budget_limits a) (m_budget_limits b) &&
  bool_decide (m_created_at a = m_created_at b).

Definition manifest_eqb (a b : RunManifest) : bool :=
  manifest_fixed_eqb a b && bool_decide (m_status a = m_status b) &&
  bool_decide (m_returned_model a = m_returned_model b) &&
  bool_decide (m_started_at a = m_started_at b) && bool_decide (m_finished_at a = m_finished_at b) &&
  bool_decide (m_terminal_reason a = m_terminal_reason b) && bool_decide (m_artifacts a = m_artifacts b).

(** [_validate_manifest_transition(current, proposed)] *)
Definition _validate_manifest_transition (current proposed : RunManifest) : result unit :=
  _ ← require (str_eqb (m_run_id current) (m_run_id proposed)) (ValueError "manifest run ID cannot change");
  _ ← insist (manifest_fixed_eqb current proposed) "immutable manifest identity changed";
  _ ← insist (negb (is_terminal (m_status current))) "terminal manifests cannot transition";
  _ ← match m_status current with
      | PENDING =>
          insist (negb (bool_decide (m_status proposed = SUCCEEDED)))
            "pending manifests cannot succeed without running"
      | RUNNING =>
          insist (negb (bool_decide (m_status proposed = PENDING)))
            "running manifests cannot return to pending"
      | _ => store_error "unsupported manifest state"
      end;
  _ ← insist (negb (present (m_started_at current)) ||
              bool_decide (m_started_at proposed = m_started_at current))
        "manifest start timestamp cannot change";
  _ ← insist (negb (present (m_returned_model current)) ||
              bool_decide (m_returned_model proposed = m_returned_model current))
        "returned model cannot be rebound";
  insist (forallb (λ p, bool_decide (m_artifacts proposed !! p.1 = Some p.2)) (map_to_list (m_artifacts current)))
    "manifest artifact cannot be removed or rebound".

Definition _artifact_payload (name : string) (a : ArtifactRef) : dict :=
  [("media_type", JStr (media_type a)); ("name", JStr name); ("sha256", JStr (sha256 a));
   ("size_bytes", JInt (size_bytes a)); ("storage_ref", JStr (storage_ref a))].

Definition _manifest_creation_payload (m : RunManifest) : dict :=
  [("budget_limits", dump_limits (m_budget_limits m)); ("candidate_id", JStr (m_candidate_id m));
   ("code_revision", JStr (m_code_revision m)); ("environment_digest", JStr (m_environment_digest m));
   ("experiment_id", JStr (m_experiment_id m)); ("genome_hash", dump_opt JStr (m_genome_hash m));
   ("model_parameters", JObj (m_model_parameters m)); ("requested_model", JStr (m_requested_model m));
   ("seed", JInt (m_seed m)); ("status", JStr "pending"); ("task_id", JStr (m_task_id m))].

(** [f"{run_id}:event:{sequence:08d}"] *)
Definition event_id_of (run_id : string) (seq : Z) : string :=
  run_id +:+ ":event:" +:+ zero_pad 8 (Z.to_N seq).

Section store.
Context {hashing : Hashing} {datetimes : PydanticDatetime}.

(** ** Reading *)

Definition _require_run (d : database) (run_id : string) : result unit :=
  require (present (find_run d run_id)) (KeyError "unknown run").

Definition _load_manifest_locked (d : database) (run_id : string) : result RunManifest :=
  row ← of_option (KeyError "unknown run") (find_run d run_id);
  v ← loads (rr_manifest_json row);
  manifest ← validate_manifest v;
  h ← canonical_sha256 (dump_manifest manifest);
  _ ← insist (str_eqb h (rr_manifest_sha256 row)) "manifest hash mismatch";
  _ ← insist (str_eqb (rr_status row) (status_value (m_status manifest))) "run status index mismatch";
  history ← of_option (StoreIntegrityError "manifest revision is missing")
              (find_manifest d run_id (rr_manifest_revision row));
  _ ← insist (str_eqb (mr_manifest_json history) (rr_manifest_json row) &&
              str_eqb (mr_manifest_sha256 history) (rr_manifest_sha256 row)) "manifest revision mismatch";
  Ok manifest.

(** One row of the manifest history, after [previous]. *)
Definition check_history_row (run_id : string) (previous : option RunManifest) (row : manifest_row)
    : result (option RunManifest) :=
  v ← loads (mr_manifest_json row);
  manifest ← validate_manifest v;
  _ ← insist (str_eqb (m_run_id manifest) run_id) "manifest history run ID mismatch";
  text ← canonical_json (dump_manifest manifest);
  _ ← insist (str_eqb (mr_manifest_json row) text) "non-canonical manifest history";
  h ← canonical_sha256 (dump_manifest manifest);
  _ ← insist (str_eqb (mr_manifest_sha256 row) h) "manifest history hash mismatch";
  _ ← match previous with
      | Some p =>
          except (λ e, match e with
                       | StoreIntegrityError _ => StoreIntegrityError "invalid manifest history transition"
                       | _ => if is_value_error e
                              then StoreIntegrityError "invalid manifest history transition" else e
                       end)
            (_validate_manifest_transition p manifest)
      | None => Ok tt
      end;
  Ok (Some manifest).

Definition _validate_manifest_history_locked (d : database) (run_id : string) (current : RunManifest)
    (current_revision : Z) : result unit :=
  let rows := select_manifests d run_id in
  let revisions := mr_revision <$> rows in
  _ ← insist ((0 <=? current_revision) && (Z.of_nat (length revisions) =? current_revision + 1) &&
              bool_decide (revisions = Z.of_nat <$> seq 0 (length revisions)))
        "non-contiguous manifest history";
  last ← foldM (check_history_row run_id) None rows;
  insist match last with Some m => manifest_eqb m current | None => false end
    "manifest history head mismatch".

Definition _load_budget_locked (d : database) (run_id : string) : result (BudgetUsage * BudgetUsage) :=
  row ← of_option (KeyError "unknown run") (find_budget d run_id);
  vl ← loads (br_limits_json row);
  limits ← validate_limits vl;
  vu ← loads (br_used_json row);
  used ← validate_usage vu;
  vr ← loads (br_reserved_json row);
  reserved ← validate_usage vr;
  manifest ← _load_manifest_locked d run_id;
  _ ← insist (limits_eqb limits (m_budget_limits manifest)) "budget limits index mismatch";
  tl ← canonical_json (dump_limits limits);
  _ ← insist (str_eqb (br_limits_json row) tl) "budget limits index mismatch: non-canonical encoding";
  tu ← canonical_json (dump_usage used);
  _ ← insist (str_eqb (br_used_json row) tu) "budget index disagrees: non-canonical usage";
  tr ← canonical_json (dump_usage reserved);
  _ ← insist (str_eqb (br_reserved_json row) tr) "budget index disagrees: non-canonical reservation";
  Ok (used, reserved).

(** One row of the event table, after the events and the hash accumulated so far. *)
Definition check_event_row (run_id : string) (acc : list EventRecord * option string) (row : event_row)
    : result (list EventRecord * option string) :=
  let expected_sequence := Z.of_nat (length acc.1) in
  v ← loads (evr_record_json row);
  event ← validate_event v;
  event_hash ← content_hash event;
  _ ← insist (str_eqb (evr_run_id row) run_id && str_eqb (ev_run_id event) run_id) "event run ownership mismatch";
  _ ← insist ((evr_sequence row =? expected_sequence) && (sequence event =? expected_sequence))
        "non-contiguous event sequence";
  _ ← insist (str_eqb (evr_event_id row) (event_id event)) "event ID index mismatch";
  _ ← insist (str_eqb (evr_event_type row) (event_type event)) "event type index mismatch";
  text ← canonical_json (dump_event event);
  _ ← insist (str_eqb (evr_record_json row) text) "non-canonical event record";
  _ ← insist (bool_decide (previous_event_hash event = acc.2)) "broken event predecessor";
  _ ← insist (str_eqb event_hash (evr_event_hash row)) "event hash mismatch";
  Ok (acc.1 ++ [event], Some event_hash).

Definition _list_events_locked (d : database) (run_id : string) : result (list EventRecord) :=
  match select_events d run_id with
  | [] => _ ← _require_run d run_id; Ok []
  | rows => acc ← foldM (check_event_row run_id) ([], None) rows; Ok acc.1
  end.

Definition manifest_digests (m : RunManifest) : gmap string string := sha256 <$> m_artifacts m.

Definition _validated_state_locked (d : database) (run_id : string) (manifest : RunManifest)
    : result ReplayState :=
  evs ← _list_events_locked d run_id;
  state ← except (replay_as_store "invalid event stream") (replay_events evs false);
  first ← of_option (IndexError "list index out of range") (head evs);
  _ ← insist (py_eqb (JObj (payload first)) (JObj (_manifest_creation_payload manifest)))
        "manifest identity disagrees with run.created";
  '(used, reserved) ← _load_budget_locked d run_id;
  _ ← insist (bool_decide (status state = m_status manifest)) "manifest status disagrees with replayed status";
  _ ← insist (usage_eqb (budget_used state) used && usage_eqb (budget_reserved state) reserved)
        "budget index disagrees with replayed budget";
  _ ← insist (bool_decide (artifacts state = manifest_digests manifest))
        "manifest artifacts disagree with replayed bindings";
  _ ← insist (bool_decide (returned_model state = m_returned_model manifest))
        "manifest returned model disagrees with replay";
  Ok state.

Definition _validate_terminal_state_locked (d : database) (run_id : string) (manifest : RunManifest)
    : result unit :=
  state ← _validated_state_locked d run_id manifest;
  evs ← _list_events_locked d run_id;
  _ ← except (replay_as_store "incomplete terminal run") (replay_events evs true);
  insist (bool_decide (terminal_reason state = m_terminal_reason manifest))
    "manifest terminal reason disagrees with replay".

Definition _validate_budget_update_locked (d : database) (run_id : string) (used reserved : BudgetUsage)
    : result unit :=
  '(current_used, current_reserved) ← _load_budget_locked d run_id;
  _ ← insist (usage_eqb used current_used) "budget usage changes require a lifecycle operation";
  insist (usage_eqb reserved current_reserved) "reservation changes require a lifecycle operation".

(** ** Verified roots *)

Record VerifiedRunRoot := {
  vr_manifest : RunManifest;
  manifest_revision : Z;
  manifest_sha256 : string;
  vr_event_count : Z;
  head_event_sha256 : string;
}.

Definition verify_run (d : database) (row : run_row) : result VerifiedRunRoot :=
  let run_id := rr_run_id row in
  manifest ← _load_manifest_locked d run_id;
  _ ← _validate_manifest_history_locked d run_id manifest (rr_manifest_revision row);
  state ← _validated_state_locked d run_id manifest;
  evs ← _list_events_locked d run_id;
  _ ← (if is_terminal (m_status manifest) then
         _ ← except (replay_as_store "incomplete terminal run") (replay_events evs true);
         insist (bool_decide (terminal_reason state = m_terminal_reason manifest))
           "manifest terminal reason disagrees with replay"
       else Ok tt);
  h ← canonical_sha256 (dump_manifest manifest);
  head ← of_option (IndexError "list index out of range") (last evs);
  head_hash ← content_hash head;
  Ok {| vr_manifest := manifest; manifest_revision := rr_manifest_revision row; manifest_sha256 := h;
        vr_event_count := Z.of_nat (length evs); head_event_sha256 := head_hash |}.

(** The part of [_verified_roots_locked] that reads the tables. *)
Definition verify_ledger (d : database) : result (list VerifiedRunRoot) :=
  _ ← insist (foreign_keys_hold d) "SQLite foreign_key_check failed";
  mapR (verify_run d) (select_runs d).

Definition root_le (a b : VerifiedRunRoot) : Prop :=
  String.le (m_run_id (vr_manifest a)) (m_run_id (vr_manifest b)).
#[export] Instance root_le_dec : RelDecision root_le :=
  λ a b, decide (String.le (m_run_id (vr_manifest a)) (m_run_id (vr_manifest b))).

Definition root_identity (r : VerifiedRunRoot) : json :=
  JObj [("event_count", JInt (vr_event_count r)); ("head_event_sha256", JStr (head_event_sha256 r));
        ("manifest_revision", JInt (manifest_revision r)); ("manifest_sha256", JStr (manifest_sha256 r));
        ("run_id", JStr (m_run_id (vr_manifest r)))].

Fixpoint adjacent_duplicate (l : list string) : bool :=
  match l with
  | a :: ((b :: _) as l') => str_eqb a b || adjacent_duplicate l'
  | _ => false
  end.

(** [verified_run_roots_sha256(roots)] *)
Definition verified_run_roots_sha256 (roots : list VerifiedRunRoot) : result string :=
  let ordered := merge_sort root_le roots in
  _ ← require (negb (adjacent_duplicate ((λ r, m_run_id (vr_manifest r)) <$> ordered)))
        (ValueError "duplicate verified run root");
  canonical_sha256
    (JObj [("roots", JArr (root_identity <$> ordered));
           ("schema_version", JStr "guildmind.verified-run-root-snapshot/v1")]).

(** ** Writing *)

Section writing.
Context {env : Environment}.

(** The sequence number, predecessor hash and causal parents after the last row. *)
Definition next_position (last_row : option event_row) : Z * option string * list string :=
  match last_row with
  | None => (0, None, [])
  | Some row => (evr_sequence row + 1, Some (evr_event_hash row), [evr_event_id row])
  end.

(** [_append_locked(run_id=..., event_type=..., payload=..., causal_parent_ids=None)] *)
Definition _append_locked (run_id name : string) (p : dict) : M EventRecord :=
  d ← database_now;
  let '(seq, previous_hash, parents) := next_position (last (select_events d run_id)) in
  now ← stamp;
  ph ← lift (canonical_sha256 (JObj p));
  event ← lift (check_event
    {| event_id := event_id_of run_id seq; ev_run_id := run_id; sequence := seq;
       causal_parent_ids := parents; event_type := name; monotonic_ns := cs_monotonic_ns now;
       occurred_at := cs_occurred_at now; payload := p; payload_sha256 := ph;
       previous_event_hash := previous_hash |});
  _ ← lift (evs ← _list_events_locked d run_id;
            except (replay_as_store "illegal event") (replay_events (evs ++ [event]) false));
  event_hash ← lift (content_hash event);
  text ← lift (canonical_json (dump_event event));
  _ ← execute (insert_event
    {| evr_run_id := run_id; evr_sequence := sequence event; evr_event_id := event_id event;
       evr_event_type := event_type event; evr_record_json := text; evr_event_hash := event_hash |});
  mret event.

Definition _append_budget_snapshot_locked (run_id : string) (used reserved : BudgetUsage) : M EventRecord :=
  _append_locked run_id "budget.snapshot" [("used", dump_usage used); ("reserved", dump_usage reserved)].

Definition _save_manifest_locked (run_id : string) (manifest : RunManifest) : M unit :=
  _ ← lift (require (str_eqb (m_run_id manifest) run_id)
              (ValueError "manifest run ID does not match event run ID"));
  current ← reads (λ d, _load_manifest_locked d run_id);
  _ ← lift (_validate_manifest_transition current manifest);
  d ← database_now;
  row ← lift (of_option (KeyError "unknown run") (find_run d run_id));
  let revision := rr_manifest_revision row + 1 in
  text ← lift (canonical_json (dump_manifest manifest));
  h ← lift (canonical_sha256 (dump_manifest manifest));
  _ ← execute (insert_manifest
    {| mr_run_id := run_id; mr_revision := revision; mr_manifest_json := text; mr_manifest_sha256 := h |});
  execute (λ d, Ok (update_run
    {| rr_run_id := run_id; rr_status := status_value (m_status manifest);
       rr_manifest_revision := revision; rr_manifest_json := text; rr_manifest_sha256 := h |} d)).

Definition _update_budget_locked (run_id : string) (used reserved : BudgetUsage) : M unit :=
  tu ← lift (canonical_json (dump_usage used));
  tr ← lift (canonical_json (dump_usage reserved));
  execute (λ d, Ok (update_budget run_id tu tr d)).

(** [_transition_manifest(manifest, **changes)]: the changed record is validated again. *)
Definition _transition_manifest (m : RunManifest) : result RunManifest := check_manifest m.

(** [_validate_tracked_path], [_validate_schema_locked] and [PRAGMA quick_check] look
    outside the tables. *)
Definition _validate_tracked_path : M unit := outside.
Definition _validate_schema_locked : M unit := outside.

Definition _verified_roots_locked : M (list VerifiedRunRoot) :=
  _ ← outside;
  reads verify_ledger.

Definition _validate_full_ledger_locked : M (list VerifiedRunRoot) :=
  exceptM (database_as_store "database integrity validation failed" true) _verified_roots_locked.

(** The caller's guard is a program over the machine. *)
Definition integrity_guard := option (list VerifiedRunRoot → Sys unit).
Definition call_guard (guard : integrity_guard) (roots : list VerifiedRunRoot) : M unit :=
  match guard with Some f => on_machine (f roots) | None => mret tt end.

(** [with self._transaction(precommit_integrity_guard=guard): body].  Every constructor
    of the store sets [_existing_path_identity]. *)
Definition transaction_body {A} (guard : integrity_guard) (body : M A) : M A :=
  _ ← _validate_tracked_path;
  _ ← _validate_schema_locked;
  _ ← _validate_full_ledger_locked;
  _ ← _validate_tracked_path;
  a ← body;
  _ ← _validate_tracked_path;
  _ ← _validate_schema_locked;
  final_roots ← _validate_full_ledger_locked;
  _ ← call_guard guard final_roots;
  _ ← _validate_tracked_path;
  mret a.

(** [self._connection.execute("BEGIN IMMEDIATE")], which may fail for the lock, and does
    when the last transaction was left open. *)
Definition begin_immediate : M unit := λ s,
  match left_open s with
  | Some _ => (Err (SqliteOperationalError "cannot start a transaction within a transaction"), s)
  | None => outside s
  end.

(** The end of a transaction that began with the tables [before] and is to leave [after]. *)
Definition end_transaction {A} (e : ending) (before after : database) (r : result A) : M A := λ s,
  let ended d o := {| db := d; left_open := o; ticks := ticks s; checks := S (checks s); machine := machine s |} in
  match e with
  | Ended => (r, ended after None)
  | EndingFailed e true => (Err e, ended (db s) (Some before))
  | EndingFailed e false => (Err e, ended before None)
  end.

(** [try] ... [except BaseException: rollback; raise] ... [else: commit]; an exception of
    the rollback or of the commit is the one that is raised, and no rollback follows a
    commit that failed. *)
Definition commit_or_rollback {A} (m : M A) : M A := λ s,
  match m s with
  | (Ok a, s') => end_transaction (commit_ending (checks s')) (db s) (db s') (Ok a) s'
  | (Err e, s') => end_transaction (rollback_ending (checks s')) (db s) (db s) (Err e) s'
  end.

Definition _transaction {A} (guard : integrity_guard) (body : M A) : M A :=
  _ ← lift (insist (negb read_only) "event store is read-only");
  _ ← _validate_tracked_path;
  _ ← begin_immediate;
  commit_or_rollback (transaction_body guard body).

(** ** Lifecycle operations *)

(** [store.create_run(manifest)] *)
Definition create_run (manifest : RunManifest) : M EventRecord :=
  _ ← lift (require (bool_decide (m_status manifest = PENDING)) (ValueError "new run manifests must be pending"));
  text ← lift (canonical_json (dump_manifest manifest));
  h ← lift (canonical_sha256 (dump_manifest manifest));
  let id := m_run_id manifest in
  _transaction None (
    _ ← execute (insert_run {| rr_run_id := id; rr_status := status_value (m_status manifest);
          rr_manifest_revision := 0; rr_manifest_json := text; rr_manifest_sha256 := h |});
    _ ← execute (insert_manifest {| mr_run_id := id; mr_revision := 0; mr_manifest_json := text;
          mr_manifest_sha256 := h |});
    tl ← lift (canonical_json (dump_limits (m_budget_limits manifest)));
    te ← lift (canonical_json (dump_usage empty_usage));
    _ ← execute (insert_budget {| br_run_id := id; br_limits_json := tl; br_used_json := te;
          br_reserved_json := te |});
    _append_locked id "run.created" (_manifest_creation_payload manifest)).

(** [store.append_event(...)] is disabled. *)
Definition append_event (run_id name : string) (p : option dict) : M unit :=
  lift (Err (ValueError "direct append is disabled; use a lifecycle method")).

(** The fields [_transition_manifest] may be asked to change. *)
Definition with_changes (m : RunManifest) (st : RunStatus) (started finished : option datetime)
    (returned reason : option string) (arts : gmap string ArtifactRef) : RunManifest :=
  {| m_run_id := m_run_id m; m_experiment_id := m_experiment_id m; m_task_id := m_task_id m;
     m_candidate_id := m_candidate_id m; m_genome_hash := m_genome_hash m;
     m_requested_model := m_requested_model m; m_returned_model := returned;
     m_model_parameters := m_model_parameters m; m_seed := m_seed m;
     m_environment_digest := m_environment_digest m; m_code_revision := m_code_revision m;
     m_budget_limits := m_budget_limits m; m_status := st; m_created_at := m_created_at m;
     m_started_at := started; m_finished_at := finished; m_terminal_reason := reason;
     m_artifacts := arts |}.

(** [store.start_run(run_id, started_at=..., requested_model=...)] *)
Definition start_run (run_id : string) (started_at : datetime) (requested : string) : M RunManifest :=
  _transaction None (
    current ← reads (λ d, _load_manifest_locked d run_id);
    _ ← lift (insist (bool_decide (m_status current = PENDING)) "run start requires a pending manifest");
    _ ← lift (insist (str_eqb requested (m_requested_model current))
                "run start model disagrees with the manifest");
    running ← lift (_transition_manifest
      (with_changes current RUNNING (Some started_at) (m_finished_at current) (m_returned_model current)
         (m_terminal_reason current) (m_artifacts current)));
    _ ← _append_locked run_id "run.started" [("requested_model", JStr requested)];
    _ ← _save_manifest_locked run_id running;
    mret running).

(** The manifest with other artifacts and, possibly, a returned model. *)
Definition with_artifacts (m : RunManifest) (returned : option string) (arts : gmap string ArtifactRef)
    : RunManifest :=
  with_changes m (m_status m) (m_started_at m) (m_finished_at m) returned (m_terminal_reason m) arts.

(** [store.record_artifact(run_id, name, artifact)] *)
Definition record_artifact (run_id name : string) (artifact : ArtifactRef) : M EventRecord :=
  _ ← lift (require (str_eqb name "task_spec")
              (ValueError "record_artifact may only bind the initial task_spec"));
  _transaction None (
    current ← reads (λ d, _load_manifest_locked d run_id);
    state ← reads (λ d, _validated_state_locked d run_id current);
    _ ← lift (insist (bool_decide (m_status current = RUNNING) && has_request state not_started)
                "task_spec must be bound before model work starts");
    _ ← lift (insist (negb (present (m_artifacts current !! name))) "artifact name is already bound");
    updated ← lift (_transition_manifest
      (with_artifacts current (m_returned_model current) (<[name := artifact]> (m_artifacts current))));
    event ← _append_locked run_id "artifact.recorded" (_artifact_payload name artifact);
    _ ← _save_manifest_locked run_id updated;
    mret event).

(** [store.start_model_request(...)] *)
Definition start_model_request (run_id request_id : string)
    (maximum budget_used budget_reserved : BudgetUsage) : M (EventRecord * EventRecord) :=
  _ ← lift (require (str_nonempty request_id) (ValueError "request_id cannot be empty"));
  _ ← lift (insist (model_calls maximum =? 1) "one model request must reserve exactly one model call");
  _transaction None (
    manifest ← reads (λ d, _load_manifest_locked d run_id);
    _ ← lift (insist (bool_decide (m_status manifest = RUNNING)) "model requests require a running manifest");
    before ← reads (λ d, _load_budget_locked d run_id);
    _ ← lift (insist (usage_eqb budget_used before.1) "request reservation changed used budget");
    expected ← lift (_add_usage before.2 maximum);
    _ ← lift (insist (usage_eqb budget_reserved expected) "request reservation does not match its maximum");
    projected ← lift (_add_usage budget_used budget_reserved);
    _ ← lift (insist (bool_decide (exceeded_limits projected (m_budget_limits manifest) = []))
                "request reservation exceeds budget");
    request_event ← _append_locked run_id "model.request_started"
      [("maximum", dump_usage maximum); ("request_id", JStr request_id)];
    budget_event ← _append_budget_snapshot_locked run_id budget_used budget_reserved;
    _ ← _update_budget_locked run_id budget_used budget_reserved;
    mret (request_event, budget_event)).

Definition store_underflow (msg : string) : exn := StoreIntegrityError msg.

(** [store.complete_model_response(...)] *)
Definition complete_model_response (run_id request_id returned : string) (actual : BudgetUsage)
    (patch : ArtifactRef) (budget_used budget_reserved : BudgetUsage) : M RunManifest :=
  _transaction None (
    current ← reads (λ d, _load_manifest_locked d run_id);
    state ← reads (λ d, _validated_state_locked d run_id current);
    _ ← lift (insist (has_request state started && bool_decide (model_request_id state = Some request_id))
                "model response has no matching outstanding request");
    maximum ← lift (of_option (StoreIntegrityError "actual model usage exceeds its reservation")
                      (model_request_maximum state));
    _ ← lift (insist (_usage_at_most actual maximum) "actual model usage exceeds its reservation");
    _ ← lift (insist (model_calls actual =? 1) "one model response must report exactly one model call");
    before ← reads (λ d, _load_budget_locked d run_id);
    expected_used ← lift (_add_usage before.1 actual);
    expected_reserved ← lift (_subtract_usage store_underflow before.2 maximum);
    _ ← lift (insist (usage_eqb budget_used expected_used && usage_eqb budget_reserved expected_reserved)
                "model response budget reconciliation is inconsistent");
    _ ← lift (insist (negb (present (m_artifacts current !! "patch"))) "artifact name is already bound: patch");
    updated ← lift (_transition_manifest
      (with_artifacts current (Some returned) (<["patch" := patch]> (m_artifacts current))));
    _ ← _append_locked run_id "model.response_completed"
      [("actual", dump_usage actual); ("request_id", JStr request_id); ("returned_model", JStr returned)];
    _ ← _append_budget_snapshot_locked run_id budget_used budget_reserved;
    _ ← _append_locked run_id "artifact.recorded" (_artifact_payload "patch" patch);
    _ ← _save_manifest_locked run_id updated;
    _ ← _update_budget_locked run_id budget_used budget_reserved;
    mret updated).

Record EventStoreTerminalResult := { tr_manifest : RunManifest; tr_events : list EventRecord }.

(** [_terminal_status_matches_outcome(status, outcome)] of the store *)
Definition status_matches_outcome (st : RunStatus) (o : string) : bool :=
  if str_eqb o "passed" then bool_decide (st = SUCCEEDED)
  else if str_eqb o "failed" then bool_decide (st ∈ [FAILED; TIMED_OUT])
  else if str_eqb o "error" then bool_decide (st = INFRASTRUCTURE_ERROR)
  else false.

Definition evaluation_roles : gset string :=
  list_to_set ["evaluation"; "evaluation_stderr"; "evaluation_stdout"].
Definition preferred_order : list string :=
  ["evaluation_stdout"; "evaluation_stderr"; "evaluation_candidate_stdout"; "evaluation_scorer_stdout";
   "evaluation"].

(** The names in the order their artifacts are recorded. *)
Definition ordered_names (arts : gmap string ArtifactRef) : list string :=
  let first := List.filter (λ n, present (arts !! n)) preferred_order in
  first ++ merge_sort String.le (elements (dom arts ∖ list_to_set first : gset string)).

Definition append_artifact (run_id : string) (arts : gmap string ArtifactRef) (name : string) : M unit :=
  a ← lift (of_option (KeyError "artifact") (arts !! name));
  _ ← _append_locked run_id "artifact.recorded" (_artifact_payload name a);
  mret tt.

Definition dump_reason (r : option string) : json := dump_opt JStr r.

(** [store.complete_evaluation_with_events(...)] *)
Definition complete_evaluation_with_events (run_id : string) (arts : gmap string ArtifactRef)
    (evaluation_payload : dict) (st : RunStatus) (finished_at : datetime) (reason : option string)
    (budget_used budget_reserved : BudgetUsage) : M EventStoreTerminalResult :=
  _ ← lift (require (is_terminal st) (ValueError "evaluation completion requires a terminal status"));
  _ ← lift (require (bool_decide (evaluation_roles ⊆ dom arts)) (ValueError "evaluation artifacts are missing"));
  _ ← lift (require (bool_decide (dom arts ⊆ evaluation_roles ∪ OPTIONAL_EVALUATION_ARTIFACT_NAMES))
              (ValueError "evaluation artifacts have unknown roles"));
  _ ← lift (require (negb (present (arts !! "evaluation_scorer_stdout") &&
                           negb (present (arts !! "evaluation_candidate_stdout"))))
              (ValueError "a scorer transcript requires a candidate transcript"));
  _transaction None (
    current ← reads (λ d, _load_manifest_locked d run_id);
    state ← reads (λ d, _validated_state_locked d run_id current);
    _ ← lift (insist (bool_decide (m_status current = RUNNING))
                "evaluation completion requires a running manifest");
    _ ← lift (insist (has_request state completed) "evaluation completion requires a model response");
    _ ← lift (insist match pget evaluation_payload "outcome" with
                     | JStr o => status_matches_outcome st o | _ => false end
                "evaluation outcome disagrees with terminal status");
    _ ← reads (λ d, _validate_budget_update_locked d run_id budget_used budget_reserved);
    _ ← lift (insist (usage_eqb budget_reserved empty_usage) "terminal runs cannot retain reservations");
    _ ← lift (insist (bool_decide (dom arts ## (dom (m_artifacts current) : gset string))) "artifact name is already bound");
    final_manifest ← lift (_transition_manifest
      (with_changes current st (m_started_at current) (Some finished_at) (m_returned_model current) reason
         (arts ∪ m_artifacts current)));
    _ ← forM (append_artifact run_id arts) (ordered_names arts);
    _ ← _append_locked run_id "evaluation.completed" evaluation_payload;
    _ ← _append_budget_snapshot_locked run_id budget_used budget_reserved;
    _ ← _append_locked run_id "run.terminal"
      [("evaluation_outcome", pget evaluation_payload "outcome"); ("status", JStr (status_value st));
       ("terminal_reason", dump_reason reason)];
    _ ← _save_manifest_locked run_id final_manifest;
    _ ← _update_budget_locked run_id budget_used budget_reserved;
    _ ← reads (λ d, _validate_terminal_state_locked d run_id final_manifest);
    evs ← reads (λ d, _list_events_locked d run_id);
    mret {| tr_manifest := final_manifest; tr_events := evs |}).

Definition complete_evaluation (run_id : string) (arts : gmap string ArtifactRef) (evaluation_payload : dict)
    (st : RunStatus) (finished_at : datetime) (reason : option string)
    (budget_used budget_reserved : BudgetUsage) : M RunManifest :=
  r ← complete_evaluation_with_events run_id arts evaluation_payload st finished_at reason budget_used
        budget_reserved;
  mret (tr_manifest r).

(** The preamble of the two terminalizations that may be pinned to a ledger snapshot. *)
Definition snapshot_arguments (reason : string) (expected : option string) (guard : integrity_guard)
    : result unit :=
  _ ← require (py_strip_nonempty reason) (ValueError "terminal_reason cannot be empty");
  _ ← require match expected with Some x => is_lower_sha256 x | None => true end
        (ValueError "expected_snapshot_sha256 must be a lowercase SHA-256");
  require (negb (present guard && negb (present expected)))
    (ValueError "integrity_guard requires expected_snapshot_sha256").

Definition check_snapshot (expected : option string) (guard : integrity_guard) : M unit :=
  if present expected || present guard then
    locked_roots ← _verified_roots_locked;
    observed ← lift (verified_run_roots_sha256 locked_roots);
    _ ← lift (insist (bool_decide (Some observed = expected)) "verified run root snapshot changed");
    call_guard guard locked_roots
  else mret tt.

(** The expected artifacts a run has neither recorded nor declared absent, in order. *)
Definition missing_artifacts (s : ReplayState) : list string :=
  List.filter (λ n, negb (present (absent_artifacts s !! n)))
    (merge_sort String.le (elements (EXPECTED_ARTIFACT_NAMES ∖ dom (artifacts s)))).

Definition append_absence (run_id reason name : string) : M unit :=
  _ ← _append_locked run_id "artifact.not_produced" [("name", JStr name); ("reason", JStr reason)];
  mret tt.

(** [max(finished_at, current.started_at or current.created_at)] *)
Definition safe_finished_at (finished_at : datetime) (m : RunManifest) : datetime :=
  dt_max finished_at (default (m_created_at m) (m_started_at m)).

(** What an already terminal run returns. *)
Definition already_terminal (run_id : string) (current : RunManifest) : M EventStoreTerminalResult :=
  _ ← reads (λ d, _validate_terminal_state_locked d run_id current);
  evs ← reads (λ d, _list_events_locked d run_id);
  mret {| tr_manifest := current; tr_events := evs |}.

(** The common end of a terminalization that no evaluation decides: the snapshot, the
    terminal event, the manifest and the budget index. *)
Definition terminalize (run_id : string) (current : RunManifest) (st : RunStatus) (finished_at : datetime)
    (reason : string) (terminal_payload : dict) (used reserved : BudgetUsage) : M RunManifest :=
  _ ← _append_budget_snapshot_locked run_id used reserved;
  final_manifest ← lift (_transition_manifest
    (with_changes current st (m_started_at current) (Some (safe_finished_at finished_at current))
       (m_returned_model current) (Some reason) (m_artifacts current)));
  _ ← _append_locked run_id "run.terminal" terminal_payload;
  _ ← _save_manifest_locked run_id final_manifest;
  _ ← _update_budget_locked run_id used reserved;
  _ ← reads (λ d, _validate_terminal_state_locked d run_id final_manifest);
  mret final_manifest.

(** [store.recover_run_with_events(...)] *)
Definition recover_run_with_events (run_id : string) (finished_at : datetime) (reason : string)
    (expected : option string) (guard : integrity_guard) : M EventStoreTerminalResult :=
  _ ← lift (snapshot_arguments reason expected guard);
  _transaction guard (
    _ ← _validate_schema_locked;
    _ ← check_snapshot expected guard;
    current ← reads (λ d, _load_manifest_locked d run_id);
    state ← reads (λ d, _validated_state_locked d run_id current);
    if is_terminal (m_status current) then already_terminal run_id current
    else
      _ ← forM (append_absence run_id "interrupted") (missing_artifacts state);
      budget ← reads (λ d, _load_budget_locked d run_id);
      charge ←
        (if has_request state started then
           request_id ← lift (of_option (StoreIntegrityError "outstanding model request has no ID")
                                (model_request_id state));
           _ ← _append_locked run_id "model.request_ambiguous" [("request_id", JStr request_id)];
           used ← lift (_add_usage budget.1 budget.2);
           mret (used, empty_usage, "ambiguous_model_request")
         else
           _ ← lift (insist (usage_eqb budget.2 empty_usage) "run has a reservation without outstanding work");
           mret (budget.1, budget.2, reason));
      let '(used, reserved, reason) := charge in
      final_manifest ← terminalize run_id current INFRASTRUCTURE_ERROR finished_at reason
        [("recovered", JBool true); ("status", JStr "infrastructure_error");
         ("terminal_reason", JStr reason)] used reserved;
      _ ← exceptM (database_as_store "database integrity validation failed after recovery" false)
             _verified_roots_locked;
      evs ← reads (λ d, _list_events_locked d run_id);
      mret {| tr_manifest := final_manifest; tr_events := evs |}).

Definition recover_run (run_id : string) (finished_at : datetime) (reason : string)
    (expected : option string) (guard : integrity_guard) : M RunManifest :=
  r ← recover_run_with_events run_id finished_at reason expected guard; mret (tr_manifest r).

(** [store.complete_budget_exhaustion_with_events(...)] *)
Definition complete_budget_exhaustion_with_events (run_id : string) (finished_at : datetime)
    (reason : string) (expected : option string) (guard : integrity_guard) : M EventStoreTerminalResult :=
  _ ← lift (snapshot_arguments reason expected guard);
  _transaction guard (
    _ ← _validate_schema_locked;
    _ ← check_snapshot expected guard;
    current ← reads (λ d, _load_manifest_locked d run_id);
    state ← reads (λ d, _validated_state_locked d run_id current);
    if is_terminal (m_status current) then already_terminal run_id current
    else
      _ ← lift (insist (has_request state not_started) "budget refusal terminalization must precede dispatch");
      budget ← reads (λ d, _load_budget_locked d run_id);
      _ ← lift (insist (usage_eqb budget.2 empty_usage) "budget refusal cannot retain a reservation");
      _ ← forM (append_absence run_id "budget_exhausted") (missing_artifacts state);
      final_manifest ← terminalize run_id current BUDGET_EXHAUSTED finished_at reason
        [("status", JStr "budget_exhausted"); ("terminal_reason", JStr reason)] budget.1 budget.2;
      evs ← reads (λ d, _list_events_locked d run_id);
      mret {| tr_manifest := final_manifest; tr_events := evs |}).

Definition complete_budget_exhaustion (run_id : string) (finished_at : datetime) (reason : string)
    : M RunManifest :=
  r ← complete_budget_exhaustion_with_events run_id finished_at reason None None; mret (tr_manifest r).

(** ** Reading operations *)

(** [store.load_manifest(run_id)] *)
Definition load_manifest (run_id : string) (d : database) : result RunManifest :=
  manifest ← _load_manifest_locked d run_id;
  _ ← _validated_state_locked d run_id manifest;
  _ ← (if is_terminal (m_status manifest) then _validate_terminal_state_locked d run_id manifest else Ok tt);
  Ok manifest.

(** [store.load_budget_state(run_id)] *)
Definition load_budget_state (run_id : string) (d : database) : result (BudgetUsage * BudgetUsage) :=
  manifest ← _load_manifest_locked d run_id;
  state ← _validated_state_locked d run_id manifest;
  Ok (budget_used state, budget_reserved state).

(** [store.list_events(run_id)] *)
Definition list_events (run_id : string) (d : database) : result (list EventRecord) :=
  evs ← _list_events_locked d run_id;
  manifest ← _load_manifest_locked d run_id;
  _ ← except (replay_as_store "invalid event stream")
        (replay_events evs (is_terminal (m_status manifest)));
  _ ← _validated_state_locked d run_id manifest;
  Ok evs.

(** [store.list_run_ids()] *)
Definition list_run_ids (d : database) : list string := rr_run_id <$> select_runs d.

(** [store.events_jsonl(run_id)] *)
Definition events_jsonl (run_id : string) (d : database) : result string :=
  evs ← list_events run_id d;
  lines ← mapR (λ e, text ← canonical_json (dump_event e); Ok (text +:+ String (chr 10) "")) evs;
  Ok (join "" lines).

(** [if self._connection.in_transaction: raise ...] *)
Definition idle : M unit := λ s,
  (insist (negb (present (left_open s))) "integrity verification requires an idle connection", s).

(** [with store.verified_snapshot() as roots]: what precedes the body.  After the body
    the tracked path is validated once more. *)
Definition enter_snapshot : M (list VerifiedRunRoot) :=
  _ ← outside;  (* connection settings *)
  _ ← idle;
  _ ← _validate_tracked_path;
  _ ← outside;  (* [BEGIN] *)
  _ ← _validate_tracked_path;
  _ ← _validate_schema_locked;
  exceptM (database_as_store "database integrity validation failed" false) _verified_roots_locked.

Definition verified_snapshot {A} (body : list VerifiedRunRoot → M A) : M A :=
  roots ← enter_snapshot;
  a ← body roots;
  _ ← _validate_tracked_path;
  mret a.

(** [store.verify_integrity()] *)
Definition verify_integrity : M (list VerifiedRunRoot) := verified_snapshot mret.

(** ** Running an operation, its result dropped *)

(** The writing operations and their arguments. *)
Inductive store_op :=
  | CreateRun (manifest : RunManifest)
  | StartRun (run_id : string) (started_at : datetime) (requested : string)
  | RecordArtifact (run_id name : string) (artifact : ArtifactRef)
  | StartModelRequest (run_id request_id : string) (maximum used reserved : BudgetUsage)
  | CompleteModelResponse (run_id request_id returned : string) (actual : BudgetUsage)
      (patch : ArtifactRef) (used reserved : BudgetUsage)
  | CompleteEvaluation (run_id : string) (arts : gmap string ArtifactRef) (evaluation_payload : dict)
      (st : RunStatus) (finished_at : datetime) (reason : option string) (used reserved : BudgetUsage)
  | RecoverRun (run_id : string) (finished_at : datetime) (reason : string) (expected : option string)
      (guard : integrity_guard)
  | CompleteBudgetExhaustion (run_id : string) (finished_at : datetime) (reason : string)
      (expected : option string) (guard : integrity_guard).

Definition exec (op : store_op) : M unit :=
  match op with
  | CreateRun m => _ ← create_run m; mret tt
  | StartRun id at_ model => _ ← start_run id at_ model; mret tt
  | RecordArtifact id name a => _ ← record_artifact id name a; mret tt
  | StartModelRequest id rid mx u r => _ ← start_model_request id rid mx u r; mret tt
  | CompleteModelResponse id rid rm act p u r =>
      _ ← complete_model_response id rid rm act p u r; mret tt
  | CompleteEvaluation id arts ep st at_ reason u r =>
      _ ← complete_evaluation_with_events id arts ep st at_ reason u r; mret tt
  | RecoverRun id at_ reason ex g => _ ← recover_run_with_events id at_ reason ex g; mret tt
  | CompleteBudgetExhaustion id at_ reason ex g =>
      _ ← complete_budget_exhaustion_with_events id at_ reason ex g; mret tt
  end.

End writing.
End store.
