(* ===== verification/SampleLedger.v ===== *)
(** * A concrete ledger

    An empty store, an environment in which every outside check passes, and the stores
    reached by creating, starting and interrupting one run.  The witnesses of the store's
    theorems evaluate on these. *)

From S2P Require Import Prelude Effects PyStr Files Float64 Json Hash Datetime Fields Usage Models Replay.
From S2P Require Import SampleRun Sqlite EventStore.

Local Open Scope Z_scope.

#[export] Existing Instance canonical_datetimes.

Definition steady : Environment :=
  {| clock_stamp := λ n, {| cs_occurred_at := sample_time 1; cs_monotonic_ns := Z.of_nat n |};
     outside_check := λ _, Ok tt; commit_ending := λ _, Ended; rollback_ending := λ _, Ended;
     read_only := false |}.
#[export] Existing Instance steady.

(** As [steady], but the [n]-th outside check fails. *)
Definition failing_at (n : nat) : Environment :=
  {| clock_stamp := @clock_stamp steady;
     outside_check := λ k, if Nat.eqb k n then Err (StoreIntegrityError "database path changed") else Ok tt;
     commit_ending := λ _, Ended; rollback_ending := λ _, Ended; read_only := false |}.

(** As [steady], but every commit fails and leaves its transaction open. *)
Definition uncommitted : Environment :=
  {| clock_stamp := @clock_stamp steady; outside_check := λ _, Ok tt;
     commit_ending := λ _, EndingFailed (SqliteOperationalError "disk I/O error") true;
     rollback_ending := λ _, Ended; read_only := false |}.

Definition empty_store : store := {| db := empty_database; left_open := None; ticks := 0; checks := 0; machine := start |}.

Definition sample_manifest : RunManifest :=
  {| m_run_id := "run-1"; m_experiment_id := "experiment"; m_task_id := "task";
     m_candidate_id := "candidate"; m_genome_hash := None; m_requested_model := "model";
     m_returned_model := None; m_model_parameters := []; m_seed := 7;
     m_environment_digest := "sha256:" +:+ digest0; m_code_revision := "abc";
     m_budget_limits := sample_limits; m_status := PENDING; m_created_at := sample_time 0;
     m_started_at := None; m_finished_at := None; m_terminal_reason := None; m_artifacts := ∅ |}.

Definition sample_reference : ArtifactRef :=
  {| media_type := "application/json"; size_bytes := 2; sha256 := digest0;
     storage_ref := storage_ref_of digest0 |}.

Definition sample_start : store_op := StartRun "run-1" (sample_time 1) "model".
Definition sample_binding : store_op := RecordArtifact "run-1" "task_spec" sample_reference.
Definition sample_request : store_op :=
  StartModelRequest "run-1" "req" sample_usage empty_usage sample_usage.
Definition sample_recovery : store_op :=
  RecoverRun "run-1" (sample_time 5) "interrupted_run_recovered" None None.

Definition created : store := Eval vm_compute in (exec (CreateRun sample_manifest) empty_store).2.
Definition started_store : store := Eval vm_compute in (exec sample_start created).2.
Definition bound_store : store := Eval vm_compute in (exec sample_binding started_store).2.
Definition requested_store : store := Eval vm_compute in (exec sample_request bound_store).2.
Definition recovered_store : store := Eval vm_compute in (exec sample_recovery requested_store).2.

Definition is_err (r : result unit) : bool := match r with Ok _ => false | Err _ => true end.
Definition succeeded (r : result unit) : bool := negb (is_err r).

(** The operations return. *)
Example script_returns :
  succeeded (exec (CreateRun sample_manifest) empty_store).1 &&
  succeeded (exec sample_start created).1 && succeeded (exec sample_binding started_store).1 &&
  succeeded (exec sample_request bound_store).1 &&
  succeeded (exec sample_recovery requested_store).1 = true.
Proof. vm_compute. reflexivity. Qed.

(** The recovered run is closed as an infrastructure error with the call charged. *)
Example recovered_run :
  (m ← _load_manifest_locked (db recovered_store) "run-1";
   b ← _load_budget_locked (db recovered_store) "run-1";
   Ok (m_status m, m_terminal_reason m, usage_eqb b.1 sample_usage, usage_eqb b.2 empty_usage))
  = Ok (INFRASTRUCTURE_ERROR, Some "ambiguous_model_request", true, true).
Proof. vm_compute. reflexivity. Qed.
