(* ===== verification/StoreReads.v ===== *)
(** * Reading the ledger back (src/guildmind/storage/events.py)

    Inversion of the store's monad; what a successful read of an event stream says about
    the rows; and that a row written by [_append_locked] is read back as the event it was
    written for, after the events already there, while every other run and table stays as
    it was. *)

From S2P Require Import Prelude Effects PyStr Files Float64 Json Hash Datetime Fields Usage Models Replay.
From S2P Require Import ReplayFacts Sqlite EventStore.

Local Open Scope Z_scope.

(** ** Inversion of the monad *)

Lemma reads_Ok {A} (f : database → result A) s a s' :
  reads f s = (Ok a, s') ↔ f (db s) = Ok a ∧ s' = s.
Proof. unfold reads. split; [by intros [= -> ->]|by intros [-> ->]]. Qed.

Lemma now_Ok s d s' : database_now s = (Ok d, s') ↔ d = db s ∧ s' = s.
Proof. unfold database_now. split; [by intros [= -> ->]|by intros [-> ->]]. Qed.

Lemma execute_Ok f s u s' : execute f s = (Ok u, s') ↔
  f (db s) = Ok (db s') ∧ ticks s' = ticks s ∧ checks s' = checks s ∧ machine s' = machine s ∧
  left_open s' = left_open s.
Proof.
  unfold execute. destruct u, (f (db s)) as [d|].
  - destruct s' as [d' o t c w]. cbn [db left_open ticks checks machine]. split.
    + by intros [= -> -> -> -> ->].
    + by intros ([= ->] & -> & -> & -> & ->).
  - split; [done|]. by intros [? _].
Qed.

(** Opens the run of a monadic program that returned. *)
Ltac inv_M_step :=
  first [ inv_eff_step
        | match goal with
          | H : reads _ _ = (Ok _, _) |- _ => apply reads_Ok in H; destruct H as [H ?]; try subst
          | H : database_now _ = (Ok _, _) |- _ => apply now_Ok in H; destruct H as [? ?]; try subst
          end ].
Ltac inv_M := repeat (inv_M_step; cbv beta in * ).

(** Opens [insist] and [demand] in the result monad. *)
Ltac open_result := unfold insist, store_error, demand, integrity in *; inv_ok; split_andb.

Section store.
Context {hashing : Hashing} {datetimes : PydanticDatetime}.

(** ** The rows of a stream *)

(** The row [_append_locked] writes for an event. *)
Record row_for (e : EventRecord) (row : event_row) : Prop := {
  rf_run_id : evr_run_id row = ev_run_id e;
  rf_sequence : evr_sequence row = sequence e;
  rf_event_id : evr_event_id row = event_id e;
  rf_event_type : evr_event_type row = event_type e;
  rf_record : canonical_json (dump_event e) = Ok (evr_record_json row);
  rf_hash : content_hash e = Ok (evr_event_hash row);
  rf_checked : check_event e = Ok e;
}.

(** Decoding the row gives the event back. *)
Lemma row_for_reads e row : row_for e row →
  (v ← loads (evr_record_json row); validate_event v) = Ok e.
Proof.
  intros [_ _ _ _ Hr _ Hc]. destruct (dump_event_wf e Hc) as [Hw _].
  rewrite (loads_canonical _ _ Hw Hr). by apply validate_dump_event.
Qed.

Definition last_hash (rows : list event_row) : option string := evr_event_hash <$> last rows.

(** The rows of one run, in order, and the events they hold. *)
Record stream (id : string) (rows : list event_row) (evs : list EventRecord) : Prop := {
  st_rows : Forall2 row_for evs rows;
  st_owner : Forall (λ e, ev_run_id e = id) evs;
  st_sequence : ∀ i e, evs !! i = Some e → sequence e = Z.of_nat i;
  st_previous : ∀ i e, evs !! i = Some e → previous_event_hash e = last_hash (take i rows);
}.

Lemma validate_event_checked v e : validate_event v = Ok e → check_event e = Ok e.
Proof. unfold validate_event. intros H. inv_ok. by apply settles_event in H. Qed.

Lemma stream_length id rows evs : stream id rows evs → length evs = length rows.
Proof. intros [H _ _ _]. by eapply Forall2_length. Qed.

Lemma stream_snoc id rows evs row e :
  stream id rows evs → row_for e row → ev_run_id e = id → sequence e = Z.of_nat (length evs) →
  previous_event_hash e = last_hash rows →
  stream id (rows ++ [row]) (evs ++ [e]).
Proof.
  intros Hst Hr Ho Hs Hp. pose proof (stream_length _ _ _ Hst) as Hl. destruct Hst as [H1 H2 H3 H4]. split.
  - apply Forall2_app; [done|]. by constructor.
  - apply Forall_app. split; [done|]. by constructor.
  - intros i e' Hi. apply lookup_app_Some in Hi as [Hi|[Hle Hi]]; [auto|].
    apply list_lookup_singleton_Some in Hi as [Hi <-]. rewrite Hs. f_equal. lia.
  - intros i e' Hi. apply lookup_app_Some in Hi as [Hi|[Hle Hi]].
    + rewrite take_app_le; [auto|]. apply lookup_lt_Some in Hi. lia.
    + apply list_lookup_singleton_Some in Hi as [Hi <-]. rewrite Hp.
      replace i with (length rows) by lia. by rewrite take_app_length.
Qed.

Lemma check_rows_stream id rows acc :
  foldM (check_event_row id) ([], None) rows = Ok acc →
  stream id rows acc.1 ∧ acc.2 = last_hash rows.
Proof.
  revert acc. induction rows as [|row rows IH] using rev_ind; intros acc H.
  - simpl in H. inv_ok. by repeat split.
  - rewrite foldM_snoc in H. inv_ok. destruct (IH _ H0) as [Hst Hh].
    unfold check_event_row in H. open_result.
    repeat match goal with H : str_eqb _ _ = true |- _ => apply String.eqb_eq in H end.
    repeat match goal with H : (_ =? _) = true |- _ => apply Z.eqb_eq in H end.
    unfold last_hash. rewrite last_snoc. cbn [fst snd fmap option_fmap option_map]. split; [|congruence].
    apply stream_snoc; [done| |congruence|congruence|congruence]. split; try congruence.
    by eapply validate_event_checked.
Qed.

(** Reading one more row. *)
Lemma check_event_row_reads id acc row e :
  row_for e row → ev_run_id e = id → sequence e = Z.of_nat (length acc.1) →
  previous_event_hash e = acc.2 →
  check_event_row id acc row = Ok (acc.1 ++ [e], Some (evr_event_hash row)).
Proof.
  intros Hr Ho Hs Hp. unfold check_event_row. pose proof (row_for_reads e row Hr) as Hv.
  destruct Hr as [E1 E2 E3 E4 E5 E6 _]. destruct (loads _) as [v|]; [|done]. simpl in Hv.
  cbn [mbind result_bind]. rewrite Hv. cbn [mbind result_bind]. rewrite E6. cbn [mbind result_bind].
  rewrite E1, Ho, E2, Hs, E3, E4, E5. unfold str_eqb. rewrite !String.eqb_refl, !Z.eqb_refl.
  cbn [insist require andb mbind result_bind]. rewrite String.eqb_refl, bool_decide_true by done.
  done.
Qed.

Lemma stream_reads id rows evs :
  stream id rows evs → foldM (check_event_row id) ([], None) rows = Ok (evs, last_hash rows).
Proof.
  revert evs. induction rows as [|row rows IH] using rev_ind; intros evs Hst.
  - destruct Hst as [H _ _ _]. apply Forall2_nil_inv_r in H as ->. done.
  - destruct Hst as [H1 H2 H3 Hp]. apply Forall2_app_inv_r in H1 as (evs' & es & H1 & H1' & ->).
    apply Forall2_cons_inv_r in H1' as (e & es' & Hr & Hnil & ->). apply Forall2_nil_inv_r in Hnil as ->.
    apply Forall_app in H2 as [H2 H2']. apply Forall_cons in H2' as [Ho _].
    pose proof (Forall2_length _ _ _ H1) as Hl.
    rewrite foldM_snoc, (IH evs').
    + cbn [mbind result_bind]. rewrite (check_event_row_reads id _ row e); try done.
      * unfold last_hash. by rewrite last_snoc.
      * cbn [fst]. apply H3. by apply list_lookup_middle.
      * cbn [snd]. rewrite (Hp (length evs') e) by (by apply list_lookup_middle).
        by rewrite Hl, take_app_length.
    + split; try done.
      * intros i e' Hi. apply H3. by apply lookup_app_l_Some.
      * intros i e' Hi. rewrite (Hp i e') by (by apply lookup_app_l_Some).
        rewrite take_app_le; [done|]. apply lookup_lt_Some in Hi. lia.
Qed.

(** Reading the stream of a run succeeds exactly when its rows form a stream. *)
Lemma list_events_stream d id evs :
  _list_events_locked d id = Ok evs ↔
  stream id (select_events d id) evs ∧ (evs = [] → present (find_run d id) = true).
Proof.
  unfold _list_events_locked. destruct (select_events d id) as [|row rows] eqn:E.
  - unfold _require_run. split.
    + intros H. inv_ok. split; [by repeat split; try constructor|done].
    + intros [[H _ _ _] Hr]. apply Forall2_nil_inv_r in H as ->. by rewrite Hr.
  - split.
    + intros H. inv_ok. destruct (check_rows_stream _ _ _ H0) as [Hst _]. split; [done|].
      intros Hn. rewrite Hn in Hst. by apply stream_length in Hst.
    + intros [Hst _]. by rewrite (stream_reads _ _ _ Hst).
Qed.

(** ** Inserting a row *)

Lemma StronglySorted_snoc {A} (R : relation A) l x :
  StronglySorted R l → Forall (λ y, R y x) l → StronglySorted R (l ++ [x]).
Proof.
  induction 1 as [|y l Hs IH Hy]; intros Hx; simpl; [by repeat constructor|].
  apply Forall_cons in Hx as [Hyx Hx]. constructor; [auto|].
  apply Forall_app. split; [done|]. by repeat constructor.
Qed.

#[local] Instance seq_le_trans : Transitive seq_le.
Proof. intros x y z. unfold seq_le. lia. Qed.
#[local] Instance seq_le_total : Total seq_le.
Proof. intros x y. unfold seq_le. lia. Qed.

(** A row that comes after all others of its run is selected last. *)
Lemma merge_sort_snoc (rows : list event_row) row :
  NoDup (evr_sequence <$> rows) → Forall (λ r, evr_sequence r < evr_sequence row) rows →
  merge_sort seq_le (rows ++ [row]) = merge_sort seq_le rows ++ [row].
Proof.
  intros Hnd Hlt.
  assert (separates seq_le (merge_sort seq_le rows ++ [row])) as Hsep.
  { intros x y Hx Hy Hxy Hyx. rewrite merge_sort_Permutation in Hx, Hy.
    assert (evr_sequence x = evr_sequence y) as E by (unfold seq_le in *; lia).
    rewrite Forall_forall in Hlt.
    apply elem_of_app in Hx as [Hx|Hx%list_elem_of_singleton], Hy as [Hy|Hy%list_elem_of_singleton]; subst.
    - apply list_elem_of_lookup in Hx as [i Hi], Hy as [j Hj].
      assert (i = j) as ->; [|congruence].
      eapply (NoDup_lookup _ i j (evr_sequence x)); [exact Hnd|..]; rewrite list_lookup_fmap.
      + by rewrite Hi.
      + by rewrite Hj, E.
    - specialize (Hlt _ Hx). lia.
    - specialize (Hlt _ Hy). lia.
    - done. }
  rewrite <- (merge_sort_id seq_le (merge_sort seq_le rows ++ [row])).
  - apply merge_sort_perm; [apply _|apply _| |by rewrite merge_sort_Permutation].
    intros x y Hx Hy. apply Hsep; by rewrite merge_sort_Permutation.
  - done.
  - apply StronglySorted_snoc; [apply StronglySorted_merge_sort; apply _|].
    apply Forall_forall. intros r Hr. rewrite merge_sort_Permutation in Hr.
    rewrite Forall_forall in Hlt. specialize (Hlt r Hr). unfold seq_le. lia.
Qed.
Lemma stream_sequences id rows evs :
  stream id rows evs → evr_sequence <$> rows = Z.of_nat <$> seq 0 (length rows).
Proof.
  intros [H1 _ H3 _]. apply list_eq. intros i. rewrite !list_lookup_fmap.
  destruct (rows !! i) as [row|] eqn:Hi; simpl.
  - destruct (Forall2_lookup_r _ _ _ _ _ H1 Hi) as (e & He & Hr).
    rewrite lookup_seq_lt by (by eapply lookup_lt_Some). simpl.
    by rewrite (rf_sequence _ _ Hr), (H3 _ _ He).
  - rewrite lookup_seq_ge by (by apply lookup_ge_None). done.
Qed.

Lemma stream_sequences_bound id rows evs :
  stream id rows evs →
  NoDup (evr_sequence <$> rows) ∧ Forall (λ r, evr_sequence r < Z.of_nat (length evs)) rows.
Proof.
  intros Hst. rewrite (stream_length _ _ _ Hst). pose proof (stream_sequences _ _ _ Hst) as Hs. split.
  - rewrite Hs. apply NoDup_fmap_2; [apply _|apply NoDup_seq].
  - apply Forall_forall. intros r Hr. apply list_elem_of_lookup in Hr as [i Hi].
    assert ((evr_sequence <$> rows) !! i = Some (evr_sequence r)) as E by (by rewrite list_lookup_fmap, Hi).
    rewrite Hs, list_lookup_fmap in E. apply lookup_lt_Some in Hi.
    rewrite lookup_seq_lt in E by done. simpl in E. injection E as <-. lia.
Qed.

(** Two databases that agree except on the events. *)
Definition same_but_events (d d' : database) : Prop :=
  runs d' = runs d ∧ run_manifests d' = run_manifests d ∧ budget_state d' = budget_state d.

Lemma insert_event_inv row d d' : insert_event row d = Ok d' →
  same_but_events d d' ∧ events d' = events d ++ [row] ∧ has_run d (evr_run_id row) = true.
Proof.
  unfold insert_event, constraint_failed. destruct (existsb _ _); [done|]. destruct (existsb _ _); [done|].
  destruct (has_run d (evr_run_id row)) eqn:E; [|done]. simpl. intros [= <-]. done.
Qed.

Lemma select_events_other d d' row id :
  events d' = events d ++ [row] → evr_run_id row ≠ id → select_events d' id = select_events d id.
Proof.
  intros He Hne. unfold select_events, rows_of. rewrite He, List.filter_app. simpl.
  destruct (str_eqb (evr_run_id row) id) eqn:E; [by apply String.eqb_eq in E|]. by rewrite app_nil_r.
Qed.

(** The row written for the next event is read back as that event. *)
Lemma insert_event_lists d d' id evs e row :
  _list_events_locked d id = Ok evs → row_for e row → ev_run_id e = id →
  sequence e = Z.of_nat (length evs) → previous_event_hash e = last_hash (select_events d id) →
  insert_event row d = Ok d' →
  _list_events_locked d' id = Ok (evs ++ [e]) ∧ select_events d' id = select_events d id ++ [row].
Proof.
  intros [Hst _]%list_events_stream Hr Ho Hs Hp (_ & He & _)%insert_event_inv.
  destruct (stream_sequences_bound _ _ _ Hst) as [Hnd Hlt].
  assert (rows_of d id ≡ₚ select_events d id) as Hperm by (symmetry; apply merge_sort_Permutation).
  assert (select_events d' id = select_events d id ++ [row]) as Hsel.
  { unfold select_events at 1, rows_of. rewrite He, List.filter_app. simpl.
    rewrite (rf_run_id _ _ Hr), Ho. unfold str_eqb at 2. rewrite String.eqb_refl.
    apply merge_sort_snoc.
    - change (NoDup (evr_sequence <$> rows_of d id)). by rewrite Hperm.
    - change (Forall (λ r, evr_sequence r < evr_sequence row) (rows_of d id)). rewrite Hperm.
      by rewrite (rf_sequence _ _ Hr), Hs. }
  split; [|done]. apply list_events_stream. rewrite Hsel. split; [by apply stream_snoc|].
  intros H. by apply app_nil in H as [_ ?].
Qed.

(** ** Manifests and budgets *)

Lemma find_run_update r d id :
  find_run (update_run r d) id =
  if str_eqb (rr_run_id r) id then (if present (find_run d id) then Some r else None) else find_run d id.
Proof.
  unfold find_run, update_run. cbn [runs]. induction (runs d) as [|r' rs IH]; simpl.
  - by destruct (str_eqb _ _).
  - destruct (str_eqb (rr_run_id r') (rr_run_id r)) eqn:E.
    + apply String.eqb_eq in E. rewrite E. destruct (str_eqb (rr_run_id r) id) eqn:E2; [done|].
      exact IH.
    + destruct (str_eqb (rr_run_id r') id) eqn:E3.
      * destruct (str_eqb (rr_run_id r) id) eqn:E2; [|done].
        apply String.eqb_eq in E2, E3. unfold str_eqb in E. by rewrite E2, E3, String.eqb_refl in E.
      * exact IH.
Qed.

Lemma has_run_find d id : has_run d id = present (find_run d id).
Proof. unfold has_run, find_run. induction (runs d) as [|r rs IH]; simpl; [done|]. by destruct (str_eqb _ _). Qed.

Lemma has_run_update r d id : has_run (update_run r d) id = has_run d id.
Proof.
  rewrite !has_run_find, find_run_update. destruct (str_eqb (rr_run_id r) id); [|done].
  by destruct (find_run d id).
Qed.

Lemma find_app {A} (f : A → bool) l1 l2 :
  List.find f (l1 ++ l2) = match List.find f l1 with Some x => Some x | None => List.find f l2 end.
Proof. induction l1 as [|x l1 IH]; simpl; [done|]. by destruct (f x). Qed.

Lemma find_existsb {A} (f : A → bool) l : existsb f l = present (List.find f l).
Proof. induction l as [|x l IH]; simpl; [done|]. by destruct (f x). Qed.

Lemma insert_manifest_inv row d d' : insert_manifest row d = Ok d' →
  runs d' = runs d ∧ events d' = events d ∧ budget_state d' = budget_state d ∧
  run_manifests d' = run_manifests d ++ [row] ∧
  (∀ id rev, find_manifest d' id rev =
     if str_eqb (mr_run_id row) id && (mr_revision row =? rev) then Some row else find_manifest d id rev).
Proof.
  unfold insert_manifest, constraint_failed. destruct (existsb _ _) eqn:E; [done|].
  destruct (has_run d _); [|done]. simpl. intros [= <-]. split_and!; try done.
  intros id rev. unfold find_manifest. cbn [run_manifests]. rewrite find_app. simpl.
  destruct (_ && _) eqn:E2.
  - apply andb_true_iff in E2 as [E3%String.eqb_eq E4%Z.eqb_eq]. subst. rewrite find_existsb in E.
    by destruct (List.find _ (run_manifests d)).
  - by destruct (List.find _ (run_manifests d)).
Qed.

(** Saving a manifest: the transition was legal, a revision was added and the index row
    replaced; nothing else changes. *)
Lemma save_Ok id m s u s' :
  _save_manifest_locked id m s = (Ok u, s') →
  ∃ current row text h, m_run_id m = id ∧ _load_manifest_locked (db s) id = Ok current ∧
    _validate_manifest_transition current m = Ok tt ∧ find_run (db s) id = Some row ∧
    canonical_json (dump_manifest m) = Ok text ∧ canonical_sha256 (dump_manifest m) = Ok h ∧
    let hrow := {| mr_run_id := id; mr_revision := rr_manifest_revision row + 1;
                   mr_manifest_json := text; mr_manifest_sha256 := h |} in
    let rrow := {| rr_run_id := id; rr_status := status_value (m_status m);
                   rr_manifest_revision := rr_manifest_revision row + 1; rr_manifest_json := text;
                   rr_manifest_sha256 := h |} in
    ∃ d1, insert_manifest hrow (db s) = Ok d1 ∧ db s' = update_run rrow d1.
Proof.
  unfold _save_manifest_locked. intros H. inv_M. inv_ok.
  match goal with H : str_eqb _ _ = true |- _ => apply String.eqb_eq in H end.
  match goal with X : execute (insert_manifest _) _ = _ |- _ => apply execute_Ok in X as (X & _) end.
  match goal with X : execute _ _ = _ |- _ => apply execute_Ok in X as (X & _) end.
  do 4 eexists. split_and!; try eassumption.
  eexists. split; [eassumption|]. congruence.
Qed.

(** A manifest that was saved is loaded back. *)
Lemma save_load id m s u s' :
  check_manifest m = Ok m → _save_manifest_locked id m s = (Ok u, s') →
  _load_manifest_locked (db s') id = Ok m.
Proof.
  intros Hc (current & row & text & h & _ & _ & _ & Hrow & Ht & Hh & d1 & Hi & ->)%save_Ok.
  destruct (insert_manifest_inv _ _ _ Hi) as (Hr & _ & _ & _ & Hf).
  unfold _load_manifest_locked. rewrite find_run_update. cbn [rr_run_id].
  unfold str_eqb at 1. rewrite String.eqb_refl. unfold find_run at 1. rewrite Hr.
  change (List.find _ (runs (db s))) with (find_run (db s) id). rewrite Hrow. cbn [present of_option mbind result_bind
    rr_manifest_json rr_manifest_sha256 rr_status rr_manifest_revision].
  destruct (dump_manifest_wf m Hc) as [Hw _].
  rewrite (loads_canonical _ _ Hw Ht). cbn [mbind result_bind]. rewrite validate_dump_manifest by done.
  cbn [mbind result_bind]. rewrite Hh. cbn [mbind result_bind]. unfold str_eqb. rewrite !String.eqb_refl.
  cbn [insist require mbind result_bind].
  unfold find_manifest, update_run. cbn [run_manifests]. change (List.find _ (run_manifests d1)) with
    (find_manifest d1 id (rr_manifest_revision row + 1)). rewrite Hf. cbn [mr_run_id mr_revision].
  unfold str_eqb. rewrite String.eqb_refl, Z.eqb_refl. cbn [andb of_option mbind result_bind mr_manifest_json mr_manifest_sha256].
  by rewrite !String.eqb_refl.
Qed.

(** ... and every other run's manifest is as it was. *)
Lemma save_load_other id m s u s' id' :
  id' ≠ id → _save_manifest_locked id m s = (Ok u, s') →
  _load_manifest_locked (db s') id' = _load_manifest_locked (db s) id'.
Proof.
  intros Hne (current & row & text & h & _ & _ & _ & Hrow & Ht & Hh & d1 & Hi & ->)%save_Ok.
  destruct (insert_manifest_inv _ _ _ Hi) as (Hr & _ & _ & _ & Hf).
  unfold _load_manifest_locked. rewrite find_run_update. cbn [rr_run_id].
  assert (str_eqb id id' = false) as E.
  { destruct (str_eqb id id') eqn:E; [|done]. by apply String.eqb_eq in E. }
  rewrite E. unfold find_run. rewrite Hr.
  destruct (List.find _ (runs (db s))) as [r|]; [|done]. cbn [of_option mbind result_bind].
  assert (∀ rev, find_manifest (update_run {| rr_run_id := id; rr_status := status_value (m_status m);
    rr_manifest_revision := rr_manifest_revision row + 1; rr_manifest_json := text; rr_manifest_sha256 := h |} d1)
    id' rev = find_manifest (db s) id' rev) as ->; [|done].
  intros rev. unfold find_manifest at 1, update_run. cbn [run_manifests].
  change (List.find _ (run_manifests d1)) with (find_manifest d1 id' rev). rewrite Hf. cbn [mr_run_id].
  by rewrite E.
Qed.

(** ** Appending an event *)

Section writing.
Context {env : Environment}.

Lemma stamp_Ok s a s' : stamp s = (Ok a, s') ↔ a = clock_stamp (ticks s) ∧
  s' = {| db := db s; left_open := left_open s; ticks := S (ticks s); checks := checks s; machine := machine s |}.
Proof. unfold stamp. split; [by intros [= -> ->]|by intros [-> ->]]. Qed.

(** The position after the last row is the position after the last event. *)
Lemma next_position_stream id rows evs : stream id rows evs →
  ∃ parents, next_position (last rows) = (Z.of_nat (length evs), last_hash rows, parents).
Proof.
  intros Hst. destruct (exists_last_or_nil rows) as [->|(rows' & row & ->)].
  - destruct Hst as [->%Forall2_nil_inv_r _ _ _]. by exists [].
  - unfold last_hash. rewrite last_snoc. pose proof (stream_length _ _ _ Hst) as Hl.
    destruct Hst as [H1 _ H3 _].
    apply Forall2_app_inv_r in H1 as (evs' & es & H1 & H1' & ->).
    apply Forall2_cons_inv_r in H1' as (e & es' & Hr & Hnil & ->). apply Forall2_nil_inv_r in Hnil as ->.
    exists [evr_event_id row]. simpl. rewrite (rf_sequence _ _ Hr).
    rewrite (H3 (length evs') e) by (by apply list_lookup_middle). rewrite length_app. simpl.
    do 2 f_equal. lia.
Qed.

Lemma check_event_fields e e' : check_event e = Ok e' →
  c_nonempty (ev_run_id e) = Ok (ev_run_id e') ∧ c_nonempty (event_type e) = Ok (event_type e') ∧
  sequence e' = sequence e ∧ previous_event_hash e' = previous_event_hash e ∧
  payload e' = sort_dict (payload e).
Proof.
  unfold check_event. intros H. inv_ok. cbn [ev_run_id event_type sequence previous_event_hash payload].
  assert (∀ z w, c_nonneg z = Ok w → w = z) as Hn.
  { intros z w. unfold c_nonneg. by destruct (0 <=? z); [intros [= <-]|]. }
  repeat match goal with
  | H : c_nonneg _ = Ok _ |- _ => apply Hn in H; subst
  | H : c_dict _ = Ok _ |- _ => unfold c_dict in H; destruct (json_wf _) eqn:?; [injection H as <-|done]
  end.
  match goal with H : c_opt c_sha256 ?o = Ok _ |- _ =>
    destruct o as [h|]; simpl in H; inv_ok; [|done] end.
  match goal with H : c_sha256 _ = Ok _ |- _ => by apply c_sha256_inv in H as [-> _] end.
Qed.

(** A successful append: the stream grows by the event, which the replay of the new
    stream accepts, and nothing else changes. *)
Lemma append_Ok id name p s e s' :
  c_nonempty id = Ok id → c_nonempty name = Ok name →
  _append_locked id name p s = (Ok e, s') →
  ∃ evs st, _list_events_locked (db s) id = Ok evs ∧ replay_events (evs ++ [e]) false = Ok st ∧
    _list_events_locked (db s') id = Ok (evs ++ [e]) ∧
    event_type e = name ∧ payload e = sort_dict p ∧ check_event e = Ok e ∧ ev_run_id e = id ∧
    same_but_events (db s) (db s') ∧
    (∀ id', id' ≠ id → select_events (db s') id' = select_events (db s) id') ∧
    (∃ row, events (db s') = events (db s) ++ [row]).
Proof.
  intros Hid Hname H. unfold _append_locked in H.
  apply bindM_Ok in H as (d & s1 & [-> ->]%now_Ok & H).
  destruct (next_position _) as [[sq ph] parents] eqn:Epos.
  apply bindM_Ok in H as (now & s2 & [-> ->]%stamp_Ok & H). inv_M. inv_ok.
  match goal with
  | L : _list_events_locked _ _ = Ok ?evs, C : check_event _ = Ok ?e, X : execute _ _ = _ |- _ =>
      exists evs; rename L into Hlist; rename C into Hce; rename X into Hx
  end.
  destruct (check_event_fields _ _ Hce) as (Ho & Ht & Hs & Hp & Hpl).
  cbn [ev_run_id event_type sequence previous_event_hash payload] in *.
  apply settles_event in Hce. apply execute_Ok in Hx as (Hx & _). cbn [db] in Hx.
  pose proof Hlist as [Hst _]%list_events_stream.
  destruct (next_position_stream _ _ _ Hst) as (parents' & E). rewrite Epos in E. simplify_eq.
  rewrite Hid in Ho. rewrite Hname in Ht. injection Ho as Ho. injection Ht as Ht.
  destruct (insert_event_inv _ _ _ Hx) as (Hsame & Hev & _).
  pose proof (λ Hr Ho Hs Hp, insert_event_lists _ _ _ _ a0 _ Hlist Hr Ho Hs Hp Hx) as Hins.
  destruct Hins as [Hl _]; try done.
  eexists. split_and!; try done; [|by eexists].
  intros id' Hne. eapply select_events_other; [exact Hev|]. simpl. congruence.
Qed.
(** Whatever the name, an append that returns adds one row of its run to the events. *)
Lemma append_tables id name p s e s' :
  _append_locked id name p s = (Ok e, s') →
  same_but_events (db s) (db s') ∧ has_run (db s) id = true ∧
  ∃ row, events (db s') = events (db s) ++ [row] ∧ evr_run_id row = id.
Proof.
  unfold _append_locked. intros H. apply bindM_Ok in H as (d & s1 & [-> ->]%now_Ok & H).
  destruct (next_position _) as [[sq ph] parents].
  apply bindM_Ok in H as (now & s2 & [-> ->]%stamp_Ok & H). inv_M.
  match goal with X : execute _ _ = _ |- _ => apply execute_Ok in X as (X & _); cbn [db] in X;
    apply insert_event_inv in X as (Hs & He & Hr) end.
  split; [done|]. split; [done|]. by eexists.
Qed.

End writing.

(** A run with events has an identifier that needs no stripping. *)
Lemma stream_id_settled id rows evs : stream id rows evs → evs ≠ [] → c_nonempty id = Ok id.
Proof.
  intros [H1 H2 _ _] Hne. destruct evs as [|e evs]; [done|].
  apply Forall_cons in H2 as [<- _]. apply Forall2_cons_inv_l in H1 as (row & rows' & Hr & _).
  pose proof (rf_checked _ _ Hr) as Hc. by apply check_event_fields in Hc as (Hc & _).
Qed.
End store.
