(* ===== verification/StoreGrowth.v ===== *)
(** * The ledger only grows (src/guildmind/storage/events.py)

    [store_op] lists the writing operations of the event store and [exec] runs one.  For
    every operation, whatever its arguments and whatever the outside checks answer: if it
    raises, the tables are as they were; if it returns, the ledger verified before and
    verifies after, event streams and manifest histories were only extended, and terminal
    runs were left alone. *)

From S2P Require Import Prelude Effects PyStr Files Float64 Json Hash Datetime Fields Usage Models Replay.
From S2P Require Import ReplayFacts SampleRun Sqlite EventStore SampleLedger StoreReads.

Local Open Scope Z_scope.

Section store.
Context {hashing : Hashing} {datetimes : PydanticDatetime} {env : Environment}.

(** ** Atomicity *)

(** What an exception leaves: the tables on disk are as they were, and so are the tables
    that the connection sees, unless a transaction was left open. *)
Definition untouched (s s' : store) : Prop :=
  on_disk s' = on_disk s ∧ (left_open s' = left_open s → db s' = db s).
Definition atomic {A} (m : M A) : Prop := ∀ s e s', m s = (Err e, s') → untouched s s'.
(** A program that never writes. *)
Definition pure {A} (m : M A) : Prop := ∀ s r s', m s = (r, s') → db s' = db s ∧ left_open s' = left_open s.

Lemma pure_lift {A} (r : result A) : pure (lift r).
Proof. intros s r' s' [= <- <-]. done. Qed.
Lemma pure_outside : pure outside.
Proof. intros s r' s' [= <- <-]. done. Qed.
Lemma pure_ret {A} (a : A) : pure (mret a : M A).
Proof. intros s r' s' [= <- <-]. done. Qed.

Lemma pure_begin : pure begin_immediate.
Proof.
  intros s r s'. unfold begin_immediate. destruct (left_open s) as [d|] eqn:E; [by intros [= _ <-]|].
  intros H%pure_outside. by rewrite E in H.
Qed.

Lemma atomic_bind_pure {A B} (m : M A) (f : A → M B) : pure m → (∀ a, atomic (f a)) → atomic (m ≫= f).
Proof.
  intros Hm Hf s e s' [H|(a & s1 & H1 & H2)]%bindM_Err.
  - destruct (Hm _ _ _ H) as [E1 E2]. split; [unfold on_disk; congruence|done].
  - destruct (Hm _ _ _ H1) as [E1 E2], (Hf _ _ _ _ H2) as [E3 E4]. split.
    + rewrite E3. unfold on_disk. congruence.
    + intros E. rewrite E4; congruence.
Qed.

(** However a transaction ends that began with these tables: when it raises, they are on disk. *)
Lemma end_transaction_Err {A} x before after (r : result A) s e s' :
  end_transaction x before after r s = (Err e, s') → (∀ e, r = Err e → after = before) →
  on_disk s' = before ∧ (left_open s' = None → db s' = before).
Proof.
  unfold end_transaction. destruct x as [|e' []]; intros [= -> <-] Hx; cbn [on_disk default db left_open]; [|done..].
  by rewrite (Hx e).
Qed.

Lemma begin_Ok s s' : begin_immediate s = (Ok tt, s') → left_open s = None ∧ left_open s' = None ∧ db s' = db s.
Proof.
  unfold begin_immediate. destruct (left_open s) as [d|] eqn:E; [done|]. intros [H1 H2]%pure_outside.
  split_and!; congruence.
Qed.

Lemma atomic_transaction {A} guard (body : M A) : atomic (_transaction guard body).
Proof.
  apply atomic_bind_pure; [apply pure_lift|]. intros _.
  apply atomic_bind_pure; [apply pure_outside|]. intros _.
  intros s e s' [H|([] & s1 & H1 & H)]%bindM_Err.
  { destruct (pure_begin _ _ _ H) as [E1 E2]. split; [unfold on_disk; congruence|done]. }
  apply begin_Ok in H1 as (E1 & E2 & E3).
  assert (on_disk s' = db s1 ∧ (left_open s' = None → db s' = db s1)) as [D1 D2].
  { unfold commit_or_rollback in H. destruct (transaction_body guard body s1) as [[a|e1] s2];
      by apply end_transaction_Err in H. }
  unfold untouched. rewrite E1, <- E3. split; [|exact D2]. rewrite D1. unfold on_disk. by rewrite E1.
Qed.

(** A program that only returns when no transaction was left open, and leaves none. *)
Definition closed {A} (m : M A) : Prop := ∀ s a s', m s = (Ok a, s') → left_open s = None ∧ left_open s' = None.
(** A program that is refused while a transaction is open. *)
Definition refused {A} (m : M A) : Prop := ∀ s r s', left_open s ≠ None → m s = (r, s') →
  (∃ e, r = Err e) ∧ left_open s' = left_open s ∧ db s' = db s.

Lemma end_transaction_Ok {A} x before after (r : result A) s a s' :
  end_transaction x before after r s = (Ok a, s') →
  r = Ok a ∧ db s' = after ∧ left_open s' = None ∧ machine s' = machine s.
Proof. unfold end_transaction. by destruct x as [|e' []]; intros [= -> <-]. Qed.

Lemma closed_bind_pure {A B} (m : M A) (f : A → M B) : pure m → (∀ a, closed (f a)) → closed (m ≫= f).
Proof.
  intros Hm Hf s b s' (a & s1 & H1 & H2)%bindM_Ok. destruct (Hm _ _ _ H1) as [_ E].
  destruct (Hf _ _ _ _ H2) as [E1 E2]. split; congruence.
Qed.
Lemma closed_then_ret {A B} (m : M A) (b : B) : closed m → closed (_ ← m; mret b).
Proof. intros Hm s b' s' (a & s1 & H1 & [_ ->]%retM_Ok)%bindM_Ok. by eapply Hm. Qed.
Lemma closed_transaction {A} guard (body : M A) : closed (_transaction guard body).
Proof.
  apply closed_bind_pure; [apply pure_lift|]. intros _. apply closed_bind_pure; [apply pure_outside|]. intros _.
  intros s a s' ([] & s1 & (E & _ & _)%begin_Ok & H)%bindM_Ok. split; [done|]. unfold commit_or_rollback in H.
  destruct (transaction_body guard body s1) as [[b|e] s2]; by apply end_transaction_Ok in H as (_ & _ & ? & _).
Qed.

Lemma refused_bind_pure {A B} (m : M A) (f : A → M B) : pure m → (∀ a, refused (f a)) → refused (m ≫= f).
Proof.
  intros Hm Hf s r s' Ho [(a & s1 & H1 & H2)|(e & H1 & ->)]%bindM_inv; destruct (Hm _ _ _ H1) as [E1 E2].
  - destruct (Hf _ _ _ _ (ltac:(by rewrite E2)) H2) as (Hr & E3 & E4). split_and!; [done|congruence..].
  - split; [eauto|done].
Qed.
Lemma refused_then_ret {A B} (m : M A) (b : B) : refused m → refused (_ ← m; mret b).
Proof.
  intros Hm s r s' Ho [(a & s1 & H1 & _)|(e & H1 & ->)]%bindM_inv; destruct (Hm _ _ _ Ho H1) as (Hr & ? & ?).
  - by destruct Hr.
  - split; [eauto|done].
Qed.
Lemma refused_transaction {A} guard (body : M A) : refused (_transaction guard body).
Proof.
  apply refused_bind_pure; [apply pure_lift|]. intros _. apply refused_bind_pure; [apply pure_outside|]. intros _.
  intros s r s' Ho. unfold mbind, eff_bind, begin_immediate. destruct (left_open s) as [d|] eqn:E; [|done].
  intros [= <- <-]. split; [eauto|done].
Qed.

Lemma atomic_then_ret {A B} (m : M A) (b : B) : atomic m → atomic (_ ← m; mret b).
Proof. intros Hm s e s' [H|(a & s1 & _ & [=])]%bindM_Err. by eapply Hm. Qed.

Create HintDb atomic.
#[local] Hint Resolve pure_lift pure_outside pure_ret atomic_transaction atomic_then_ret : atomic.

(** The shape of every operation: what it computes and checks before its transaction. *)
Ltac solve_atomic := repeat first
  [ apply atomic_transaction | apply closed_transaction | apply refused_transaction
  | apply atomic_then_ret | apply closed_then_ret | apply refused_then_ret
  | apply atomic_bind_pure; [by eauto with atomic|intros ?]
  | apply closed_bind_pure; [by eauto with atomic|intros ?]
  | apply refused_bind_pure; [by eauto with atomic|intros ?] ].
Ltac open_operation :=
  match goal with op : store_op |- _ => destruct op end; cbn [exec];
    [unfold create_run|unfold start_run|unfold record_artifact|unfold start_model_request
    |unfold complete_model_response|unfold complete_evaluation_with_events
    |unfold recover_run_with_events|unfold complete_budget_exhaustion_with_events].

Lemma atomic_exec op : atomic (exec op).
Proof. open_operation; solve_atomic. Qed.
Lemma closed_exec op : closed (exec op).
Proof. open_operation; solve_atomic. Qed.
Lemma left_open_refused op : refused (exec op).
Proof. open_operation; solve_atomic. Qed.

(** C20. Every operation is atomic: if it raises, at whatever point and for whatever
    reason, a failing COMMIT or ROLLBACK included, the four tables on disk, which is what
    every other connection sees and what closing this one leaves, are exactly as they were.
    The connection itself sees them so too, unless the operation is one whose COMMIT or
    ROLLBACK failed and left the transaction open; and then every later operation on this
    connection is refused, without touching anything, until it is closed. *)
Theorem operations_are_atomic op s e s' : exec op s = (Err e, s') →
  on_disk s' = on_disk s ∧ (left_open s' = left_open s → db s' = db s) ∧
  (left_open s' ≠ None → ∀ op' r s2, exec op' s' = (r, s2) →
     (∃ e', r = Err e') ∧ on_disk s2 = on_disk s' ∧ db s2 = db s').
Proof.
  intros H. destruct (atomic_exec _ _ _ _ H) as [H1 H2]. split_and!; [done|done|]. intros Ho op' r s2 H'.
  destruct (left_open_refused op' s' r s2 Ho H') as (Hr & E1 & E2). split_and!; [done| |done].
  unfold on_disk. by rewrite E1, E2.
Qed.

(** An operation that returns found no open transaction and left none. *)
Lemma exec_closed op s s' : exec op s = (Ok tt, s') → left_open s = None ∧ left_open s' = None.
Proof. intros H. by eapply closed_exec. Qed.

(** ** Verification before and after *)

Lemma outside_Ok s u s' : outside s = (Ok u, s') → db s' = db s.
Proof. by intros [? _]%pure_outside. Qed.

Lemma ledger_Ok s roots s' : _validate_full_ledger_locked s = (Ok roots, s') →
  verify_ledger (db s) = Ok roots ∧ db s' = db s.
Proof.
  unfold _validate_full_ledger_locked, _verified_roots_locked. intros H. inv_M.
  match goal with O : outside _ = _ |- _ => apply outside_Ok in O; rewrite <- O end. done.
Qed.

(** A guard does not touch the tables. *)
Lemma guard_Ok guard roots s u s' : call_guard guard roots s = (Ok u, s') → db s' = db s.
Proof.
  unfold call_guard, on_machine. destruct guard as [f|]; [|by intros [_ ->]%retM_Ok].
  destruct (f roots (machine s)). by intros [= _ <-].
Qed.

(** A transaction that returns ran its body on a ledger that verifies, and left one. *)
Lemma transaction_Ok {A} guard (body : M A) s a s' :
  _transaction guard body s = (Ok a, s') →
  read_only = false ∧ ∃ s1 s2 roots roots', db s1 = db s ∧ db s' = db s2 ∧
    verify_ledger (db s1) = Ok roots ∧ body s1 = (Ok a, s2) ∧ verify_ledger (db s2) = Ok roots' ∧
    ∃ s3 s4, db s3 = db s2 ∧ call_guard guard roots' s3 = (Ok tt, s4).
Proof.
  unfold _transaction. intros H. inv_M. open_result.
  match goal with O : _validate_tracked_path _ = _ |- _ => apply outside_Ok in O; rename O into Eo end.
  match goal with O : begin_immediate _ = (Ok ?u, _) |- _ => destruct u; apply begin_Ok in O as (_ & _ & Eb) end.
  unfold commit_or_rollback in H. match goal with H : context [transaction_body guard body ?st] |- _ =>
    destruct (transaction_body guard body st) as [[a'|] s9] eqn:Hb end;
    apply end_transaction_Ok in H as ([= ->] & Ed & _); unfold transaction_body in Hb. inv_M.
  repeat match goal with
  | O : _validate_tracked_path _ = _ |- _ => apply outside_Ok in O
  | O : _validate_schema_locked _ = _ |- _ => apply outside_Ok in O
  | O : _validate_full_ledger_locked _ = _ |- _ => apply ledger_Ok in O as [? ?]
  end.
  split; [done|]. exists s5, s6, a2, a7.
  match goal with H : call_guard _ _ ?sa = (Ok ?u, ?sb) |- _ =>
    destruct u; pose proof (guard_Ok _ _ _ _ _ H); split_and!; try congruence; exists sa, sb; split; congruence end.
Qed.

(** ** Growth *)

(** What an operation may do to the tables. *)
Record grows (d d' : database) : Prop := {
  gr_events : ∃ rows, events d' = events d ++ rows;
  gr_history : ∃ rows, run_manifests d' = run_manifests d ++ rows;
  gr_runs : ∀ id, has_run d id = true → has_run d' id = true;
  gr_streams : ∀ id evs, _list_events_locked d id = Ok evs → evs ≠ [] →
    ∃ new, _list_events_locked d' id = Ok (evs ++ new);
  gr_terminal : ∀ id m, _load_manifest_locked d id = Ok m → is_terminal (m_status m) = true →
    _load_manifest_locked d' id = Ok m;
}.

Lemma grows_refl d : grows d d.
Proof.
  split.
  - exists []. by rewrite app_nil_r.
  - exists []. by rewrite app_nil_r.
  - done.
  - intros id evs H _. exists []. by rewrite app_nil_r.
  - done.
Qed.

Lemma grows_trans d1 d2 d3 : grows d1 d2 → grows d2 d3 → grows d1 d3.
Proof.
  intros [[r1 E1] [h1 F1] R1 S1 T1] [[r2 E2] [h2 F2] R2 S2 T2]. split.
  - exists (r1 ++ r2). by rewrite E2, E1, app_assoc.
  - exists (h1 ++ h2). by rewrite F2, F1, app_assoc.
  - auto.
  - intros id evs H Hne. destruct (S1 id evs H Hne) as [n1 H1].
    destruct (S2 id (evs ++ n1) H1) as [n2 H2]; [by destruct evs|].
    exists (n1 ++ n2). by rewrite H2, app_assoc.
  - auto.
Qed.

Definition growing {A} (m : M A) : Prop := ∀ s a s', m s = (Ok a, s') → grows (db s) (db s').

Lemma growing_same {A} (m : M A) : (∀ s a s', m s = (Ok a, s') → db s' = db s) → growing m.
Proof. intros Hm s a s' H. rewrite (Hm _ _ _ H). apply grows_refl. Qed.

Lemma growing_ret {A} (a : A) : growing (mret a : M A).
Proof. apply growing_same. intros s b s' [_ ->]%retM_Ok. done. Qed.
Lemma growing_lift {A} (r : result A) : growing (lift r).
Proof. apply growing_same. intros s b s' [_ ->]%lift_Ok. done. Qed.
Lemma growing_reads {A} (f : database → result A) : growing (reads f).
Proof. apply growing_same. intros s b s' [_ ->]%reads_Ok. done. Qed.
Lemma growing_outside : growing outside.
Proof. apply growing_same. intros s b s'. apply outside_Ok. Qed.
Lemma growing_guard g roots : growing (call_guard g roots).
Proof. apply growing_same. intros s b s'. apply guard_Ok. Qed.

Lemma growing_bind {A B} (m : M A) (f : A → M B) : growing m → (∀ a, growing (f a)) → growing (m ≫= f).
Proof.
  intros Hm Hf s b s' (a & s1 & H1 & H2)%bindM_Ok.
  eapply grows_trans; [by eapply Hm|by eapply Hf].
Qed.

Lemma growing_exceptM {A} f (m : M A) : growing m → growing (exceptM f m).
Proof. intros Hm s a s' H%exceptM_Ok. by eapply Hm. Qed.

Lemma growing_forM {A} (f : A → M unit) l : (∀ x, growing (f x)) → growing (forM f l).
Proof.
  intros Hf. induction l as [|x l IH]; simpl; [apply growing_ret|].
  apply growing_bind; [apply Hf|]. by intros _.
Qed.

Lemma growing_transaction {A} guard (body : M A) : growing body → growing (_transaction guard body).
Proof.
  intros Hb s a s' (_ & s1 & s2 & _ & _ & E1 & E2 & _ & H & _)%transaction_Ok.
  rewrite <- E1, E2. by eapply Hb.
Qed.

Lemma same_runs_load d d' id :
  runs d' = runs d → run_manifests d' = run_manifests d →
  _load_manifest_locked d' id = _load_manifest_locked d id.
Proof. intros H1 H2. unfold _load_manifest_locked, find_run, find_manifest. by rewrite H1, H2. Qed.

Lemma same_events_list d d' id :
  events d' = events d → (present (find_run d id) = true → present (find_run d' id) = true) →
  ∀ evs, _list_events_locked d id = Ok evs → _list_events_locked d' id = Ok evs.
Proof.
  intros He Hr evs. rewrite !list_events_stream. unfold select_events, rows_of. rewrite He.
  intros [Hst Hn]. auto.
Qed.

Lemma growing_append id name p : c_nonempty name = Ok name → growing (_append_locked id name p).
Proof.
  intros Hname s e s' H. pose proof (append_tables _ _ _ _ _ _ H) as ((Hr & Hm & Hb) & _ & row & He & Ho).
  split.
  - eauto.
  - exists []. by rewrite app_nil_r.
  - intros id'. unfold has_run. by rewrite Hr.
  - intros id' evs Hl Hne. destruct (decide (id' = id)) as [->|Hid].
    + pose proof Hl as [Hst _]%list_events_stream.
      destruct (append_Ok id name p s e s') as (evs' & st & Hl' & _ & Hn & _); [|done|done|].
      { by eapply stream_id_settled. }
      exists [e]. rewrite Hl in Hl'. by injection Hl' as <-.
    + exists []. rewrite app_nil_r. apply list_events_stream. apply list_events_stream in Hl as [Hst _].
      rewrite (select_events_other (db s) (db s') row) by congruence. split; [done|]. done.
  - intros id' m Hl _. by rewrite (same_runs_load (db s)).
Qed.
Lemma find_run_update_present r d id : present (find_run (update_run r d) id) = present (find_run d id).
Proof. by rewrite <- !has_run_find, has_run_update. Qed.

Lemma transition_open current m : _validate_manifest_transition current m = Ok tt →
  is_terminal (m_status current) = false.
Proof. unfold _validate_manifest_transition. intros H. open_result. done. Qed.

Lemma growing_save id m : growing (_save_manifest_locked id m).
Proof.
  intros s u s' H. pose proof H as (current & row & text & h & _ & Hload & Htr & _ & _ & _ & d1 & Hi & Hdb)%save_Ok.
  destruct (insert_manifest_inv _ _ _ Hi) as (Hr & He & Hb & Hm & _).
  assert (events (db s') = events (db s)) as Hev by (by rewrite Hdb).
  assert (∀ id', present (find_run (db s') id') = present (find_run (db s) id')) as Hpres.
  { intros id'. rewrite Hdb, find_run_update_present. unfold find_run. by rewrite Hr. }
  split.
  - exists []. by rewrite app_nil_r.
  - rewrite Hdb. eexists. exact Hm.
  - intros id'. by rewrite !has_run_find, Hpres.
  - intros id' evs Hl _. exists []. rewrite app_nil_r. eapply same_events_list; [exact Hev| |exact Hl].
    by rewrite Hpres.
  - intros id' m' Hl Ht. destruct (decide (id' = id)) as [->|Hne].
    + rewrite Hl in Hload. injection Hload as <-. apply transition_open in Htr. congruence.
    + by rewrite (save_load_other id m s u s').
Qed.

Lemma growing_execute f :
  (∀ d d', f d = Ok d' → grows d d') → growing (execute f).
Proof. intros Hf s u s' (H & _)%execute_Ok. by apply Hf. Qed.

(** Changes outside runs, histories and events. *)
Lemma grows_same_tables d d' :
  runs d' = runs d → run_manifests d' = run_manifests d → events d' = events d → grows d d'.
Proof.
  intros Hr Hm He. split.
  - exists []. by rewrite app_nil_r.
  - exists []. by rewrite app_nil_r.
  - intros id. unfold has_run. by rewrite Hr.
  - intros id evs Hl _. exists []. rewrite app_nil_r. eapply same_events_list; [done| |done].
    unfold find_run. by rewrite Hr.
  - intros id m Hl _. by rewrite (same_runs_load d).
Qed.

Lemma growing_update_budget id u r : growing (_update_budget_locked id u r).
Proof.
  unfold _update_budget_locked. apply growing_bind; [apply growing_lift|]. intros tu.
  apply growing_bind; [apply growing_lift|]. intros tr. apply growing_execute.
  intros d d' [= <-]. by apply grows_same_tables.
Qed.

Lemma insert_run_inv r d d' : insert_run r d = Ok d' →
  run_manifests d' = run_manifests d ∧ events d' = events d ∧ budget_state d' = budget_state d ∧
  runs d' = runs d ++ [r] ∧ has_run d (rr_run_id r) = false.
Proof. unfold insert_run, constraint_failed. destruct (has_run d _); [done|]. by intros [= <-]. Qed.

Lemma growing_insert_run r : growing (execute (insert_run r)).
Proof.
  apply growing_execute. intros d d' (Hm & He & _ & Hr & _)%insert_run_inv.
  assert (∀ id, present (find_run d id) = true → find_run d' id = find_run d id) as Hf.
  { intros id. unfold find_run. rewrite Hr, find_app. by destruct (List.find _ (runs d)). }
  split.
  - exists []. by rewrite app_nil_r.
  - exists []. by rewrite app_nil_r.
  - intros id. rewrite !has_run_find. intros H. by rewrite Hf.
  - intros id evs Hl _. exists []. rewrite app_nil_r. eapply same_events_list; [done| |done].
    intros H. by rewrite Hf.
  - intros id m Hl _. unfold _load_manifest_locked in *. rewrite Hf.
    + unfold find_manifest in *. by rewrite Hm.
    + destruct (find_run d id); [done|]. simpl in Hl. discriminate.
Qed.

Lemma growing_insert_manifest r : growing (execute (insert_manifest r)).
Proof.
  apply growing_execute. intros d d' Hi. pose proof Hi as (Hr & He & _ & Hm & Hf)%insert_manifest_inv.
  split.
  - exists []. by rewrite app_nil_r.
  - eauto.
  - intros id. unfold has_run. by rewrite Hr.
  - intros id evs Hl _. exists []. rewrite app_nil_r. eapply same_events_list; [done| |done].
    unfold find_run. by rewrite Hr.
  - intros id m Hl _. unfold _load_manifest_locked in *. unfold find_run in *. rewrite Hr.
    destruct (List.find _ (runs d)) as [row|]; [|done]. cbn [of_option mbind result_bind] in *.
    inv_ok. match goal with F : find_manifest d id _ = Some ?h |- _ => rename F into Hfm end.
    repeat match goal with
    | E : ?m = Ok _ |- context [?m ≫= _] => rewrite E; cbn [mbind result_bind]
    end.
    rewrite Hf. destruct (str_eqb (mr_run_id r) id && (mr_revision r =? rr_manifest_revision row)) eqn:E.
    + exfalso. apply andb_true_iff in E as [E1%String.eqb_eq E2%Z.eqb_eq].
      unfold insert_manifest, constraint_failed in Hi.
      destruct (existsb _ (run_manifests d)) eqn:Ex; [done|].
      rewrite find_existsb, E1, E2 in Ex. unfold find_manifest in Hfm. by rewrite Hfm in Ex.
    + rewrite Hfm. cbn [of_option mbind result_bind].
      repeat match goal with
      | E : ?m = Ok _ |- context [?m ≫= _] => rewrite E; cbn [mbind result_bind]
      end. done.
Qed.

Lemma growing_insert_budget r : growing (execute (insert_budget r)).
Proof.
  apply growing_execute. intros d d'. unfold insert_budget, constraint_failed.
  destruct (existsb _ _); [done|]. destruct (has_run d _); [|done]. simpl. intros [= <-].
  by apply grows_same_tables.
Qed.

Lemma growing_if {A} (b : bool) (m1 m2 : M A) : growing m1 → growing m2 → growing (if b then m1 else m2).
Proof. by destruct b. Qed.

Create HintDb growing.
#[local] Hint Resolve growing_ret growing_lift growing_reads growing_outside growing_save
  growing_update_budget growing_insert_run growing_insert_manifest growing_insert_budget : growing.

Ltac growing_step :=
  lazymatch goal with
  | |- growing (mbind _ _) => apply growing_bind; [|intros ?]
  | |- growing (mret _) => apply growing_ret
  | |- growing (lift _) => apply growing_lift
  | |- growing (reads _) => apply growing_reads
  | |- growing (call_guard _ _) => apply growing_guard
  | |- growing (_append_locked _ _ _) => apply growing_append; reflexivity
  | |- growing (_transaction _ _) => apply growing_transaction
  | |- growing (exceptM _ _) => apply growing_exceptM
  | |- growing (forM _ _) => apply growing_forM; intros ?
  | |- growing (if _ then _ else _) => apply growing_if
  | |- growing (match ?x with _ => _ end) => destruct x
  | |- growing _ => solve [auto with growing nocore]
  end.
Ltac solve_growing := repeat growing_step.

Lemma growing_snapshot id u r : growing (_append_budget_snapshot_locked id u r).
Proof. by apply growing_append. Qed.
Lemma growing_roots : growing _verified_roots_locked.
Proof. unfold _verified_roots_locked. solve_growing. Qed.
#[local] Hint Resolve growing_snapshot growing_roots : growing.

Lemma growing_check_snapshot ex g : growing (check_snapshot ex g).
Proof. unfold check_snapshot. solve_growing. Qed.
Lemma growing_absence id reason name : growing (append_absence id reason name).
Proof. unfold append_absence. solve_growing. Qed.
Lemma growing_append_artifact id arts name : growing (append_artifact id arts name).
Proof. unfold append_artifact. solve_growing. Qed.
Lemma growing_already_terminal id m : growing (already_terminal id m).
Proof. unfold already_terminal. solve_growing. Qed.
Lemma growing_terminalize id m st at_ reason p u r : growing (terminalize id m st at_ reason p u r).
Proof. unfold terminalize. solve_growing. Qed.
#[local] Hint Resolve growing_check_snapshot growing_absence growing_append_artifact
  growing_already_terminal growing_terminalize : growing.

Lemma growing_exec op : growing (exec op).
Proof.
  destruct op; cbn [exec];
    [unfold create_run|unfold start_run|unfold record_artifact|unfold start_model_request
    |unfold complete_model_response|unfold complete_evaluation_with_events
    |unfold recover_run_with_events|unfold complete_budget_exhaustion_with_events];
    unfold _validate_schema_locked; solve_growing.
Qed.

(** A verified run agrees with its stream, which replays. *)
Lemma validated_state_inv d id m st : _validated_state_locked d id m = Ok st →
  ∃ evs used reserved, _list_events_locked d id = Ok evs ∧ evs ≠ [] ∧ replay_events evs false = Ok st ∧
    _load_budget_locked d id = Ok (used, reserved) ∧ status st = m_status m ∧
    usage_eqb (budget_used st) used = true ∧ usage_eqb (budget_reserved st) reserved = true ∧
    artifacts st = manifest_digests m ∧ returned_model st = m_returned_model m.
Proof.
  unfold _validated_state_locked. intros H. open_result.
  match goal with B : _load_budget_locked _ _ = Ok ?p |- _ => destruct p as [used reserved] end.
  open_result. do 3 eexists. split_and!; try eassumption. by intros ->.
Qed.

Lemma replay_any evs rt st : replay_events evs rt = Ok st → replay_events evs false = Ok st.
Proof. unfold replay_events. intros H. inv_ok. rewrite H0. cbn [mbind result_bind]. by rewrite H1. Qed.

Lemma verify_run_inv d row root : verify_run d row = Ok root →
  ∃ st evs, _load_manifest_locked d (rr_run_id row) = Ok (vr_manifest root) ∧
    _validated_state_locked d (rr_run_id row) (vr_manifest root) = Ok st ∧
    _list_events_locked d (rr_run_id row) = Ok evs ∧
    replay_events evs (is_terminal (m_status (vr_manifest root))) = Ok st ∧
    (is_terminal (m_status (vr_manifest root)) = true → terminal_reason st = m_terminal_reason (vr_manifest root)).
Proof.
  unfold verify_run. intros H. inv_ok. cbn [vr_manifest].
  match goal with V : _validated_state_locked _ _ _ = Ok ?st |- _ =>
    exists st; pose proof V as (evs & used & reserved & Hl & _ & Hr & _)%validated_state_inv end.
  exists evs. split_and!; try done.
  - destruct (is_terminal _); [|done]. open_result. rewrite Hl in *. simplify_eq.
    match goal with R : replay_events _ true = Ok _ |- _ => pose proof (replay_any _ _ _ R); congruence end.
  - intros Ht. rewrite Ht in *. by open_result.
Qed.

Lemma verified_has_run d roots id : verify_ledger d = Ok roots → has_run d id = true →
  ∃ row root, rr_run_id row = id ∧ verify_run d row = Ok root ∧ root ∈ roots.
Proof.
  unfold verify_ledger. intros H Hr. open_result.
  unfold has_run in Hr. apply existsb_exists in Hr as (row & Hin & E%String.eqb_eq).
  destruct (mapR_elem _ _ _ row H) as (root & Hv & Hroot).
  { unfold select_runs. rewrite merge_sort_Permutation. by apply list_elem_of_In. }
  by exists row, root.
Qed.

(** A program that runs on a ledger that verifies and leaves one that does. *)
Definition verifying {A} (m : M A) : Prop := ∀ s a s', m s = (Ok a, s') →
  ∃ roots roots', verify_ledger (db s) = Ok roots ∧ verify_ledger (db s') = Ok roots'.

Lemma verifying_transaction {A} guard (body : M A) : verifying (_transaction guard body).
Proof.
  intros s a s' (_ & s1 & s2 & roots & roots' & E1 & E2 & H1 & _ & H2 & _)%transaction_Ok.
  exists roots, roots'. by rewrite <- E1, E2.
Qed.

Lemma verifying_bind_lift {A B} (r : result A) (f : A → M B) :
  (∀ a, verifying (f a)) → verifying (lift r ≫= f).
Proof. intros Hf s b s' (a & s1 & [_ ->]%lift_Ok & H)%bindM_Ok. by eapply Hf. Qed.

Lemma verifying_then_ret {A B} (m : M A) (b : B) : verifying m → verifying (_ ← m; mret b).
Proof. intros Hm s a s' (x & s1 & H & [_ ->]%retM_Ok)%bindM_Ok. by eapply Hm. Qed.

Lemma verified_exec op : verifying (exec op).
Proof.
  destruct op; cbn [exec]; apply verifying_then_ret;
    [unfold create_run|unfold start_run|unfold record_artifact|unfold start_model_request
    |unfold complete_model_response|unfold complete_evaluation_with_events
    |unfold recover_run_with_events|unfold complete_budget_exhaustion_with_events];
    repeat first [apply verifying_transaction|apply verifying_bind_lift; intros ?].
Qed.

(** C21. An operation that returns ran on a ledger that verified and leaves one that
    verifies; the event table and the manifest histories were only extended; every run
    that existed keeps its stream as a prefix; and a run that was terminal keeps its
    stream and its manifest unchanged. *)
Theorem ledger_only_grows op s s' :
  exec op s = (Ok tt, s') →
  (∃ roots, verify_ledger (db s) = Ok roots) ∧ (∃ roots', verify_ledger (db s') = Ok roots') ∧
  (∃ rows, events (db s') = events (db s) ++ rows) ∧
  (∃ rows, run_manifests (db s') = run_manifests (db s) ++ rows) ∧
  ∀ id, has_run (db s) id = true →
    ∃ m evs new, _load_manifest_locked (db s) id = Ok m ∧ _list_events_locked (db s) id = Ok evs ∧
      _list_events_locked (db s') id = Ok (evs ++ new) ∧
      (is_terminal (m_status m) = true → new = [] ∧ _load_manifest_locked (db s') id = Ok m).
Proof.
  intros H. pose proof (growing_exec op _ _ _ H) as [He Hh Hr Hs Ht].
  assert (∃ roots roots', verify_ledger (db s) = Ok roots ∧ verify_ledger (db s') = Ok roots')
    as (roots & roots' & Hv & Hv').
  { by eapply verified_exec. }
  split; [eauto|]. split; [eauto|]. split; [done|]. split; [done|]. intros id Hid.
  destruct (verified_has_run _ _ _ Hv Hid) as (row & root & <- & Hrun & _).
  destruct (verify_run_inv _ _ _ Hrun) as (st & evs & Hload & Hst & Hl & Hrep & _).
  pose proof (validated_state_inv _ _ _ _ Hst) as (evs1 & _ & _ & Hl1 & Hne & Hrep1 & _ & Hstat & _).
  rewrite Hl in Hl1. injection Hl1 as <-.
  destruct (Hs _ _ Hl Hne) as [new Hnew]. exists (vr_manifest root), evs, new.
  split_and!; try done. intros Hterm. split; [|by apply Ht].
  destruct (verified_has_run _ _ _ Hv' (Hr _ Hid)) as (row' & root' & Eid & Hrun' & _).
  destruct (verify_run_inv _ _ _ Hrun') as (st' & evs' & _ & _ & Hl' & Hrep' & _).
  rewrite Eid, Hnew in Hl'. injection Hl' as <-.
  destruct (replay_prefix _ _ _ _ Hrep' Hne) as (s1 & Hs1 & Hopen).
  rewrite Hrep1 in Hs1. injection Hs1 as <-. destruct new; [done|].
  rewrite Hstat in Hopen. rewrite Hopen in Hterm by done. done.
Qed.
End store.

(** A creation whose rows are written and whose path check then fails. *)
Lemma operations_are_atomic_witness :
  (let '(r, s') := @exec _ _ (failing_at 6) (CreateRun sample_manifest) empty_store in
   is_err r = true ∧ on_disk s' = empty_database ∧ db s' = empty_database) ∧
  (let '(r, s') := @exec _ _ uncommitted (CreateRun sample_manifest) empty_store in
   is_err r = true ∧ on_disk s' = empty_database ∧ db s' = db created ∧
   is_err (@exec _ _ uncommitted sample_start s').1 = true).
Proof.
  split.
  - destruct (@exec _ _ (failing_at 6) (CreateRun sample_manifest) empty_store) as [[|e] s'] eqn:E.
    { exfalso. apply (f_equal (λ p, is_err p.1)) in E. vm_compute in E. discriminate E. }
    assert (left_open s' = None) as Ho.
    { apply (f_equal (λ p, left_open p.2)) in E. vm_compute in E. symmetry. exact E. }
    destruct (operations_are_atomic _ _ e s' E) as (H1 & H2 & _).
    split; [reflexivity|]. split; [exact H1|]. apply H2. rewrite Ho. reflexivity.
  - destruct (@exec _ _ uncommitted (CreateRun sample_manifest) empty_store) as [[|e] s'] eqn:E.
    { exfalso. apply (f_equal (λ p, is_err p.1)) in E. vm_compute in E. discriminate E. }
    destruct (operations_are_atomic _ _ e s' E) as (H1 & _ & H3).
    split; [reflexivity|]. split; [exact H1|].
    assert (db s' = db created ∧ left_open s' = Some empty_database) as [Ed Ho].
    { split; [apply (f_equal (λ p, db p.2)) in E|apply (f_equal (λ p, left_open p.2)) in E];
        vm_compute in E; symmetry; exact E. }
    split; [exact Ed|].
    destruct (@exec _ _ uncommitted sample_start s') as [r s2] eqn:E2.
    destruct (H3 ltac:(rewrite Ho; discriminate) sample_start r s2 E2) as ([e' ->] & _). reflexivity.
Defined.

(** The recovery of the sample run. *)
Lemma ledger_only_grows_witness :
  exec sample_recovery requested_store = (Ok tt, recovered_store) ∧
  ∃ rows, events (db recovered_store) = events (db requested_store) ++ rows.
Proof.
  assert (exec sample_recovery requested_store = (Ok tt, recovered_store)) as E by (vm_compute; reflexivity).
  split; [exact E|]. exact (proj1 (proj2 (proj2 (ledger_only_grows _ _ _ E)))).
Defined.
