(* ===== verification/Snapshots.v ===== *)
(** * Ledger snapshots (src/guildmind/storage/events.py)

    [verified_run_roots_sha256] is the pin that recovery and terminalization check under
    the write lock.  What is shown: the pin commits to the whole ledger - which runs
    exist, their current manifests and their complete event streams - up to an exhibited
    collision of the hash. *)

From S2P Require Import Prelude Effects PyStr Files Float64 Json Hash Datetime Fields Usage Models Replay.
From S2P Require Import ReplayFacts SampleRun Sqlite EventStore SampleLedger StoreReads.
From S2P Require Import StoreGrowth.

Local Open Scope Z_scope.

Section snapshots.
Context {hashing : Hashing} {datetimes : PydanticDatetime}.

Lemma validate_manifest_checked v m : validate_manifest v = Ok m → check_manifest m = Ok m.
Proof. unfold validate_manifest. intros H. inv_ok. by apply settles_manifest in H. Qed.

Lemma load_checked d id m : _load_manifest_locked d id = Ok m → check_manifest m = Ok m.
Proof. unfold _load_manifest_locked. intros H. open_result. by eapply validate_manifest_checked. Qed.

Lemma history_owner id rows acc m :
  foldM (check_history_row id) acc rows = Ok (Some m) → rows ≠ [] → m_run_id m = id.
Proof.
  destruct (exists_last_or_nil rows) as [->|(rows' & row & ->)]; [done|]. intros H _.
  rewrite foldM_snoc in H. inv_ok. unfold check_history_row in H. open_result.
  match goal with E : str_eqb (m_run_id _) _ = true |- _ => by apply String.eqb_eq in E end.
Qed.

(** What the root of a run says. *)
Lemma verify_run_root d row root : verify_run d row = Ok root →
  m_run_id (vr_manifest root) = rr_run_id row ∧
  canonical_sha256 (dump_manifest (vr_manifest root)) = Ok (manifest_sha256 root) ∧
  ∃ evs l, _list_events_locked d (rr_run_id row) = Ok evs ∧ last evs = Some l ∧
    content_hash l = Ok (head_event_sha256 root) ∧ vr_event_count root = Z.of_nat (length evs).
Proof.
  unfold verify_run. intros H. inv_ok.
  cbn [vr_manifest manifest_sha256 head_event_sha256 vr_event_count]. split; [|split; [done|]].
  - match goal with V : _validate_manifest_history_locked _ _ _ _ = _ |- _ =>
      unfold _validate_manifest_history_locked in V; open_result end.
    match goal with
    | F : foldM _ None ?rows = Ok ?o, E : match ?o with Some _ => _ | None => _ end = true |- _ =>
        destruct o as [m'|]; [|done]; rename F into Hf; rename E into Heq
    end.
    unfold manifest_eqb, manifest_fixed_eqb in Heq. split_andb.
    match goal with E : str_eqb (m_run_id m') _ = true |- _ => apply String.eqb_eq in E as <- end.
    eapply history_owner; [exact Hf|]. intros Hn. by rewrite Hn in Hf.
  - do 2 eexists. split_and!; eauto.
Qed.

Lemma list_events_checked d id evs : _list_events_locked d id = Ok evs →
  Forall (λ e, check_event e = Ok e) evs.
Proof.
  intros [[H _ _ _] _]%list_events_stream.
  induction H as [|e row evs rows Hr _ IH]; constructor; [by destruct Hr|done].
Qed.

Lemma manifest_hash_inj m1 m2 h :
  check_manifest m1 = Ok m1 → check_manifest m2 = Ok m2 →
  canonical_sha256 (dump_manifest m1) = Ok h → canonical_sha256 (dump_manifest m2) = Ok h →
  m1 = m2 ∨ collision.
Proof.
  intros H1 H2 Hh1 Hh2.
  destruct (dump_manifest_wf _ H1) as [Hw1 _], (dump_manifest_wf _ H2) as [Hw2 _].
  destruct (canonical_sha256_inj _ _ _ Hw1 Hw2 Hh1 Hh2) as [E|]; [left|by right].
  apply validate_dump_manifest in H1, H2. rewrite E in H1. congruence.
Qed.

(** Two roots with the same identity stand for the same manifest and the same stream. *)
Lemma roots_agree d1 d2 row1 row2 root1 root2 :
  verify_run d1 row1 = Ok root1 → verify_run d2 row2 = Ok root2 →
  root_identity root1 = root_identity root2 →
  collision ∨
  rr_run_id row1 = rr_run_id row2 ∧
  _load_manifest_locked d1 (rr_run_id row1) = _load_manifest_locked d2 (rr_run_id row1) ∧
  _list_events_locked d1 (rr_run_id row1) = _list_events_locked d2 (rr_run_id row1).
Proof.
  intros H1 H2 [= _ Ehead _ Eman Eid].
  destruct (verify_run_root _ _ _ H1) as (O1 & M1 & evs1 & l1 & L1 & N1 & C1 & _).
  destruct (verify_run_root _ _ _ H2) as (O2 & M2 & evs2 & l2 & L2 & N2 & C2 & _).
  destruct (verify_run_inv _ _ _ H1) as (st1 & evs1' & Ld1 & _ & L1' & R1 & _).
  destruct (verify_run_inv _ _ _ H2) as (st2 & evs2' & Ld2 & _ & L2' & R2 & _).
  assert (rr_run_id row1 = rr_run_id row2) as E by congruence. rewrite E in *.
  rewrite L1 in L1'. injection L1' as <-. rewrite L2 in L2'. injection L2' as <-.
  apply replay_events_fold in R1 as (_ & _ & _ & V1 & _), R2 as (_ & _ & _ & V2 & _).
  rewrite Eman in M1. rewrite Ehead in C1.
  destruct (manifest_hash_inj _ _ _ (load_checked _ _ _ Ld1) (load_checked _ _ _ Ld2) M1 M2) as [Em|];
    [|by left].
  destruct (head_hash_streams evs1 evs2 l1 l2 (head_event_sha256 root2) V1 V2) as [Ee|];
    try done; [by eapply list_events_checked|by eapply list_events_checked| |by left].
  right. rewrite Ld1, Ld2, L1, L2. by rewrite Em, Ee.
Qed.
Lemma root_identity_flat r : json_wf (root_identity r) = true ∧ sort_json (root_identity r) = root_identity r.
Proof. split; [done|]. unfold root_identity. by vm_compute. Qed.

Lemma roots_flat l : json_wf (JArr (root_identity <$> l)) = true ∧
  sort_json (JArr (root_identity <$> l)) = JArr (root_identity <$> l).
Proof.
  cbn [json_wf sort_json]. rewrite forallb_fmap. split.
  - induction l; [done|]. simpl. exact IHl.
  - f_equal. rewrite <- list_fmap_compose. apply list_fmap_ext. intros i r _. apply root_identity_flat.
Qed.

(** Equal pins mean equal lists of root identities. *)
Lemma pin_identities roots1 roots2 h :
  verified_run_roots_sha256 roots1 = Ok h → verified_run_roots_sha256 roots2 = Ok h →
  root_identity <$> merge_sort root_le roots1 = root_identity <$> merge_sort root_le roots2 ∨ collision.
Proof.
  unfold verified_run_roots_sha256. intros H1 H2. inv_ok.
  set (l1 := merge_sort root_le roots1) in *. set (l2 := merge_sort root_le roots2) in *.
  destruct (roots_flat l1) as [W1 S1], (roots_flat l2) as [W2 S2].
  assert (∀ v t, json_wf v = true → json_wf (JObj [("roots", v); ("schema_version", JStr t)]) = true) as Hw.
  { intros v t Hv. cbn [json_wf forallb snd]. by rewrite Hv. }
  destruct (canonical_sha256_inj _ _ _ (Hw _ _ W1) (Hw _ _ W2) H1 H2) as [E|]; [left|by right].
  rewrite !sort_json_JObj in E. injection E as E.
  cbn [sort_json] in S1, S2. injection S1 as S1. injection S2 as S2.
  by rewrite S1, S2 in E.
Qed.

Lemma verified_root_run d roots root : verify_ledger d = Ok roots → root ∈ roots →
  ∃ row, verify_run d row = Ok root ∧ has_run d (rr_run_id row) = true.
Proof.
  unfold verify_ledger. intros H Hr. open_result.
  destruct (mapR_elem_inv _ _ _ _ H Hr) as (row & Hv & Hin). exists row. split; [done|].
  unfold select_runs in Hin. rewrite merge_sort_Permutation in Hin.
  apply existsb_exists. exists row. split; [by apply list_elem_of_In|apply String.eqb_refl].
Qed.

(** A run of one ledger is the same run of any verified ledger with the same pin. *)
Lemma pin_run d1 d2 roots1 roots2 h id :
  verify_ledger d1 = Ok roots1 → verify_ledger d2 = Ok roots2 →
  verified_run_roots_sha256 roots1 = Ok h → verified_run_roots_sha256 roots2 = Ok h →
  has_run d1 id = true →
  collision ∨ has_run d2 id = true ∧ _load_manifest_locked d1 id = _load_manifest_locked d2 id ∧
    _list_events_locked d1 id = _list_events_locked d2 id.
Proof.
  intros V1 V2 P1 P2 Hid. destruct (pin_identities _ _ _ P1 P2) as [E|]; [|by left].
  destruct (verified_has_run _ _ _ V1 Hid) as (row1 & root1 & <- & R1 & Hin1).
  assert (root_identity root1 ∈ root_identity <$> merge_sort root_le roots2) as Hin.
  { rewrite <- E. apply list_elem_of_fmap_2. by rewrite merge_sort_Permutation. }
  apply list_elem_of_fmap in Hin as (root2 & Ei & Hin2). rewrite merge_sort_Permutation in Hin2.
  destruct (verified_root_run _ _ _ V2 Hin2) as (row2 & R2 & Hid2).
  destruct (roots_agree _ _ _ _ _ _ R1 R2 Ei) as [|(Eid & Hl & He)]; [by left|right].
  by rewrite Eid in *.
Qed.

(** The snapshot pin commits to the ledger: two verified ledgers with the same
    [verified_run_roots_sha256] hold the same runs, and every run has the same current
    manifest and the same event stream in both - or they exhibit a hash collision. *)
Theorem snapshot_pins_ledger d1 d2 roots1 roots2 h :
  verify_ledger d1 = Ok roots1 → verify_ledger d2 = Ok roots2 →
  verified_run_roots_sha256 roots1 = Ok h → verified_run_roots_sha256 roots2 = Ok h →
  ∀ id, collision ∨
    has_run d1 id = has_run d2 id ∧
    (has_run d1 id = true → _load_manifest_locked d1 id = _load_manifest_locked d2 id ∧
                            _list_events_locked d1 id = _list_events_locked d2 id).
Proof.
  intros V1 V2 P1 P2 id. destruct (has_run d1 id) eqn:E1.
  - destruct (pin_run d1 d2 _ _ _ id V1 V2 P1 P2 E1) as [|(-> & ? & ?)]; [by left|by right].
  - destruct (has_run d2 id) eqn:E2; [|by right].
    destruct (pin_run d2 d1 _ _ _ id V2 V1 P2 P1 E2) as [|(E & _)]; [by left|congruence].
Qed.
End snapshots.

(** Both ledgers verify, with the same pin. *)
Definition same_pin (d1 d2 : database) : bool :=
  match verify_ledger d1, verify_ledger d2 with
  | Ok roots1, Ok roots2 =>
      match verified_run_roots_sha256 roots1, verified_run_roots_sha256 roots2 with
      | Ok h1, Ok h2 => str_eqb h1 h2
      | _, _ => false
      end
  | _, _ => false
  end.

Definition same_run (id : string) (d1 d2 : database) : Prop :=
  has_run d1 id = has_run d2 id ∧
  (has_run d1 id = true → _load_manifest_locked d1 id = _load_manifest_locked d2 id ∧
                          _list_events_locked d1 id = _list_events_locked d2 id).

(** The sample run before and after its recovery: under the constant hash the pins agree,
    so there is a collision; and a ledger has the pin of itself. *)
Lemma snapshot_pins_ledger_witness :
  same_pin (db requested_store) (db recovered_store) = true ∧
  (collision ∨ same_run "run-1" (db requested_store) (db recovered_store)).
Proof.
  assert (∀ d1 d2, same_pin d1 d2 = true → collision ∨ same_run "run-1" d1 d2) as Hpin.
  { intros d1 d2. unfold same_pin.
    destruct (verify_ledger d1) as [roots1|] eqn:V1; [|done].
    destruct (verify_ledger d2) as [roots2|] eqn:V2; [|done].
    destruct (verified_run_roots_sha256 roots1) as [h1|] eqn:P1; [|done].
    destruct (verified_run_roots_sha256 roots2) as [h2|] eqn:P2; [|done].
    intros <-%String.eqb_eq. exact (snapshot_pins_ledger _ _ _ _ h1 V1 V2 P1 P2 "run-1"). }
  assert (same_pin (db requested_store) (db recovered_store) = true) as E by (vm_compute; reflexivity).
  split; [exact E|exact (Hpin _ _ E)].
Defined.
