(* ===== verification/StoreOps.v ===== *)
(** * Single operations of the event store (src/guildmind/storage/events.py)

    What a successful model reservation did: it fitted the run's caps, two events were
    appended, and the budget index holds the new amounts. *)

From S2P Require Import Prelude Effects PyStr Files Float64 Json Hash Datetime Fields Usage Models Replay.
From S2P Require Import ReplayFacts SampleRun Sqlite EventStore SampleLedger StoreReads.
From S2P Require Import StoreGrowth.

Local Open Scope Z_scope.

(** Runs a computation through the steps whose outcome is known. *)
Ltac run_oks := repeat (cbn [mbind result_bind]; match goal with
  | E : ?m = Ok _ |- context [?m ≫= _] => rewrite E
  | E : ?m = Ok _ |- context [mbind _ ?m] => rewrite E
  end); cbn [mbind result_bind].

Section ops.
Context {hashing : Hashing} {datetimes : PydanticDatetime} {env : Environment}.

Lemma find_budget_update d id u r : find_budget (update_budget id u r d) id =
  (λ row, {| br_run_id := br_run_id row; br_limits_json := br_limits_json row; br_used_json := u;
             br_reserved_json := r |}) <$> find_budget d id.
Proof.
  unfold find_budget, update_budget. cbn [budget_state]. induction (budget_state d) as [|row rows IH]; [done|].
  cbn [fmap list_fmap map List.find]. destruct (str_eqb (br_run_id row) id) eqn:E; cbn [br_run_id]; rewrite E; [done|].
  exact IH.
Qed.

Lemma find_budget_update_other d id u r id' : id' ≠ id →
  find_budget (update_budget id u r d) id' = find_budget d id'.
Proof.
  intros Hne. unfold find_budget, update_budget. cbn [budget_state].
  induction (budget_state d) as [|row rows IH]; [done|].
  cbn [fmap list_fmap map List.find]. destruct (str_eqb (br_run_id row) id) eqn:E; cbn [br_run_id].
  - apply String.eqb_eq in E. destruct (str_eqb (br_run_id row) id') eqn:E'; [|exact IH].
    apply String.eqb_eq in E'. congruence.
  - destruct (str_eqb (br_run_id row) id'); [done|exact IH].
Qed.

(** Writing the budget index and reading it back. *)
Lemma update_budget_load id u r s x s' used reserved :
  usage_valid u = true → usage_valid r = true →
  _load_budget_locked (db s) id = Ok (used, reserved) →
  _update_budget_locked id u r s = (Ok x, s') →
  _load_budget_locked (db s') id = Ok (u, r) ∧ events (db s') = events (db s) ∧
  runs (db s') = runs (db s) ∧ run_manifests (db s') = run_manifests (db s).
Proof.
  intros Hu Hr Hl H. unfold _update_budget_locked in H. inv_M.
  apply execute_Ok in H as (H & _). injection H as H. rewrite <- H.
  split; [|done]. unfold _load_budget_locked in *. rewrite find_budget_update.
  destruct (find_budget (db s) id) as [row|]; [|done].
  cbn [fmap option_fmap option_map of_option mbind result_bind br_limits_json br_used_json br_reserved_json] in *.
  inv_ok. destruct (dump_usage_wf u Hu) as [Wu _], (dump_usage_wf r Hr) as [Wr _].
  match goal with H : canonical_json (dump_usage u) = Ok ?t |- _ =>
    pose proof (loads_canonical _ _ Wu H) as Lu; rename H into Tu end.
  match goal with H : canonical_json (dump_usage r) = Ok ?t |- _ =>
    pose proof (loads_canonical _ _ Wr H) as Lr; rename H into Tr end.
  rewrite (same_runs_load (db s)) by done.
  run_oks. rewrite validate_dump_usage by done. run_oks. rewrite validate_dump_usage by done. run_oks.
  unfold str_eqb, insist. rewrite !String.eqb_refl. done.
Qed.

Lemma same_budget_load d d' id : same_but_events d d' →
  _load_manifest_locked d' id = _load_manifest_locked d id ∧
  _load_budget_locked d' id = _load_budget_locked d id.
Proof.
  intros (Hr & Hm & Hb). split; [by apply same_runs_load|].
  unfold _load_budget_locked. rewrite (same_runs_load d) by done. unfold find_budget. by rewrite Hb.
Qed.

(** What a successful reservation leaves in the ledger. *)
Record reserved_request (id rid : string) (maximum used reserved : BudgetUsage) (d d' : database)
    (e1 e2 : EventRecord) : Prop := {
  rq_manifest : ∃ m, _load_manifest_locked d id = Ok m ∧ m_status m = RUNNING ∧
    _load_manifest_locked d' id = Ok m ∧
    ∃ total, _add_usage used reserved = Ok total ∧ exceeded_limits total (m_budget_limits m) = [];
  rq_budget : ∃ used0 reserved0 expected, _load_budget_locked d id = Ok (used0, reserved0) ∧
    usage_eqb used used0 = true ∧ _add_usage reserved0 maximum = Ok expected ∧
    usage_eqb reserved expected = true;
  rq_one_call : model_calls maximum = 1;
  rq_stream : ∃ evs, _list_events_locked d id = Ok evs ∧
    _list_events_locked d' id = Ok (evs ++ [e1; e2]);
  rq_request : event_type e1 = "model.request_started" ∧
    payload e1 = sort_dict [("maximum", dump_usage maximum); ("request_id", JStr rid)];
  rq_snapshot : event_type e2 = "budget.snapshot" ∧
    payload e2 = sort_dict [("used", dump_usage used); ("reserved", dump_usage reserved)];
  rq_index : _load_budget_locked d' id = Ok (used, reserved);
  rq_others : ∀ id', id' ≠ id → select_events d' id' = select_events d id';
}.

(** The theorem's content, for the operations that call it. *)
Lemma request_reserved id rid maximum used reserved s e1 e2 s' :
  usage_valid used = true → usage_valid reserved = true → c_nonempty id = Ok id →
  start_model_request id rid maximum used reserved s = (Ok (e1, e2), s') →
  reserved_request id rid maximum used reserved (db s) (db s') e1 e2.
Proof.
  intros Hu Hr Hid H. unfold start_model_request in H. inv_M.
  apply transaction_Ok in H as (_ & s2 & s3 & roots & roots' & E1 & E2 & _ & H & _).
  inv_M. simplify_eq. open_result. rewrite <- E1, E2. clear E1 E2.
  match goal with A : _append_locked _ _ _ _ = _, B : _append_budget_snapshot_locked _ _ _ _ = _,
                  C : _update_budget_locked _ _ _ _ = _, L : _load_budget_locked _ _ = Ok _ |- _ =>
    rename A into Ha; rename B into Hb; rename C into Hc; rename L into Hl end.
  destruct (append_Ok id "model.request_started" _ _ _ _ Hid eq_refl Ha) as (evs & st & L1 & _ & L2 & T1 & P1 & _ & _ & S1 & O1 & _).
  destruct (append_Ok id "budget.snapshot" _ _ _ _ Hid eq_refl Hb) as (evs' & st' & L1' & _ & L2' & T2 & P2 & _ & _ & S2 & O2 & _).
  rewrite L2 in L1'. injection L1' as <-. rewrite <- app_assoc in L2'.
  destruct (same_budget_load _ _ id S1) as [M1 B1], (same_budget_load _ _ id S2) as [M2 B2].
  destruct a3 as [used0 reserved0].
  destruct (update_budget_load id used reserved s11 tt s12 used0 reserved0) as (D & E & R & M); try done.
  { congruence. }
  assert (_load_manifest_locked (db s12) id = Ok a1) as Hm.
  { rewrite (same_runs_load (db s11)) by done. congruence. }
  split; try done.
  - exists a1. split_and!; try done. eauto.
  - exists used0, reserved0. eauto.
  - by apply Z.eqb_eq.
  - exists evs. split; [done|]. eapply same_events_list; [exact E| |exact L2'].
    unfold find_run. by rewrite R.
  - intros id' Hne. transitivity (select_events (db s11) id'); [|rewrite O2, O1; done].
    unfold select_events, rows_of. by rewrite E.
Qed.

(** A model request is only started when it fits: the run is RUNNING, exactly one
    call is reserved, the stated used amount is the ledger's and the stated reservation
    the ledger's plus the request's maximum, and used plus reserved is within every cap.
    Then exactly two events are appended - the request and a snapshot of the amounts -
    the budget index holds the amounts, and the manifest and every other run's rows are
    as they were. *)
Theorem model_request_fits id rid maximum used reserved s e1 e2 s' :
  usage_valid used = true → usage_valid reserved = true → c_nonempty id = Ok id →
  start_model_request id rid maximum used reserved s = (Ok (e1, e2), s') →
  reserved_request id rid maximum used reserved (db s) (db s') e1 e2.
Proof. apply request_reserved. Qed.
End ops.

(** The request of the sample run. *)
Lemma model_request_fits_witness :
  ∃ e1 e2 s', start_model_request "run-1" "req" sample_usage empty_usage sample_usage bound_store
    = (Ok (e1, e2), s') ∧
  reserved_request "run-1" "req" sample_usage empty_usage sample_usage (db bound_store) (db s') e1 e2.
Proof.
  destruct (start_model_request "run-1" "req" sample_usage empty_usage sample_usage bound_store)
    as [[[e1 e2]|e] s'] eqn:E.
  - exists e1, e2, s'. split; [reflexivity|].
    exact (model_request_fits "run-1" "req" sample_usage empty_usage sample_usage bound_store e1 e2 s'
             eq_refl eq_refl eq_refl E).
  - exfalso. apply (f_equal (λ p, match p.1 with Ok _ => true | Err _ => false end)) in E.
    vm_compute in E. discriminate.
Defined.
