(* ===== verification/Artifacts.v ===== *)
(** * The artifact store (src/guildmind/storage/artifacts.py)

    A [FileArtifactStore] remembers the directories from the trusted base to its root and
    the device and inode of every directory on the way; every public operation compares
    them with what the file system answers now, exact entry names included.  Each system
    call is a step of the [World], so that the checks are not about one instant. *)

From Stdlib Require Import Strings.Byte.
From S2P Require Import Prelude Loop Effects PyStr Float64 Json Hash Datetime Fields Models Files.

Local Open Scope Z_scope.

Record FileArtifactStore := {
  root : path;
  root_is_absolute : bool;
  _read_only : bool;
  _controlled_directories : list path;
  _directory_identities : list (path * Z * Z);
}.

Definition corruption {A} (msg : string) : Sys A := lift (Err (ArtifactCorruptionError msg)).
Definition ensure (b : bool) (msg : string) : Sys unit := lift (require b (ArtifactCorruptionError msg)).

(** [relative.parts] below [base]: the paths from the first component to the last. *)
Definition _paths_below (base relative : path) : list path :=
  (λ n, base ++ take (S n) relative) <$> seq 0 (length relative).

(** [configured_root.relative_to(configured_base)] *)
Fixpoint relative_to (base p : path) : option path :=
  match base, p with
  | [], _ => Some p
  | b :: base, a :: p => if str_eqb a b then relative_to base p else None
  | _ :: _, [] => None
  end.

Section store.
Context {world : World}.

(** [_entry_name_exists_exact(directory, name)]: the search stops at the first match, so
    an error after it is not seen. *)
Definition _entry_name_exists_exact (directory : path) (name : string) (fs : FileSystem) : os_result bool :=
  let l := scandir directory in
  if existsb (λ e, match de_name e with Name s => str_eqb s name | RawName _ => false end) (entries l)
  then Done true
  else match scan_error l with Some e => OSError e | None => Done false end.

(** [_require_exact_entry_name(path, missing_ok=...)] *)
Definition _require_exact_entry_name (p : path) (missing_ok : bool) : Sys bool :=
  exact ← call (_entry_name_exists_exact (path_parent p) (path_name p));
  match exact with
  | OSError e =>
      if not_found e then (if missing_ok then mret false else corruption "missing artifact path")
      else corruption "artifact path could not be inspected for its exact name"
  | Done true => mret true
  | Done false =>
      metadata ← call (λ _, lstat p);
      match metadata with
      | OSError e =>
          if not_found e then (if missing_ok then mret false else corruption "missing artifact path")
          else corruption "artifact path could not be inspected for its exact name"
      | Done _ => corruption "artifact path does not have its exact on-disk name"
      end
  end.

Definition check_identity (identity : path * Z * Z) : Sys unit :=
  let '(p, expected_device, expected_inode) := identity in
  metadata ← call (λ _, lstat p);
  match metadata with
  | OSError _ => corruption "artifact directory could not be inspected"
  | Done m =>
      ensure (is_kind Directory m && (st_dev m =? expected_device) && (st_ino m =? expected_inode))
        "artifact directory changed after store initialization"
  end.

(** [_validate_directory_chain()] *)
Definition _validate_directory_chain (store : FileArtifactStore) : Sys unit :=
  _ ← forM check_identity (_directory_identities store);
  forM (λ p, _ ← _require_exact_entry_name p false; mret tt) (_controlled_directories store).

Definition verify_root_identity (store : FileArtifactStore) : Sys unit := _validate_directory_chain store.

(** [_require_real_directory(path, missing_ok=...)] *)
Definition _require_real_directory (p : path) (missing_ok : bool) : Sys bool :=
  metadata ← call (λ _, lstat p);
  match metadata with
  | OSError e =>
      if not_found e then (if missing_ok then mret false else corruption "missing artifact directory")
      else corruption "artifact directory could not be inspected"
  | Done m =>
      _ ← ensure (is_kind Directory m) "artifact directory is not a real directory";
      _ ← _require_exact_entry_name p false;
      mret true
  end.

(** [_fsync_directory(directory)] *)
Definition _fsync_directory (directory : path) : Sys unit := _ ← perform (FsyncDirectory directory); mret tt.

(** ** Opening a store *)

(** [_snapshot_directory_chain(path)] *)
Definition _snapshot_directory_chain (p : path) : Sys (list (path * Z * Z)) :=
  mapM_eff (λ current,
    metadata ← call (λ _, lstat current);
    match metadata with
    | OSError _ => corruption "artifact directory could not be inspected"
    | Done m =>
        _ ← ensure (is_kind Directory m) "artifact directory is not a real directory";
        mret (current, st_dev m, st_ino m)
    end) (_paths_below [] p).

(** One component of [_create_directory_chain]: its metadata, and whether it was missing
    and has been created. *)
Definition inspect_or_create (candidate : path) : Sys (bool * stat_result) :=
  let unsafe := corruption "artifact directory could not be created safely" in
  metadata ← call (λ _, lstat candidate);
  match metadata with
  | Done m => mret (false, m)
  | OSError e =>
      if not_found e then
        made ← attempt (Mkdir candidate);
        match made with
        | OSError _ => unsafe
        | Done _ =>
            again ← call (λ _, lstat candidate);
            match again with OSError _ => unsafe | Done m => mret (true, m) end
        end
      else corruption "artifact directory could not be inspected"
  end.

Definition create_directory (controlled : list path) (candidate : path) : Sys unit :=
  '((created, m) : bool * stat_result) ← inspect_or_create candidate;
  _ ← ensure (is_kind Directory m) "artifact directory is not a real directory";
  if bool_decide (candidate ∈ controlled) then
    _ ← _require_exact_entry_name candidate false;
    _fsync_directory (path_parent candidate)
  else if created then _fsync_directory (path_parent candidate)
  else mret tt.

(** [_create_directory_chain(path, controlled_directories=...)] *)
Definition _create_directory_chain (p : path) (controlled : list path) : Sys unit :=
  forM (create_directory controlled) (_paths_below [] p).

(** The root below its trusted base, both absolute; the base is the root's parent when
    none is given. *)
Definition configured_paths (configured_root : path) (trusted_base : option path) : result (path * path) :=
  _ ← require (bool_decide (configured_root ≠ []))
        (ValueError "artifact store root cannot be a filesystem root");
  let base := default (path_parent configured_root) trusted_base in
  relative ← of_option (ValueError "artifact store root must be below its trusted base")
               (relative_to base configured_root);
  _ ← require (bool_decide (relative ≠ []))
        (ValueError "artifact store root must be below its trusted base");
  Ok (base, relative).

(** [FileArtifactStore(root, trusted_base=...)] *)
Definition new_store (configured_root : path) (trusted_base : option path) : Sys FileArtifactStore :=
  '((base, relative) : path * path) ← lift (configured_paths configured_root trusted_base);
  resolved ← call (λ _, resolve false base);
  match resolved with
  | OSError e => lift (Err (OSException e))
  | Done resolved_base =>
      let store_root := resolved_base ++ relative in
      let controlled := _paths_below resolved_base relative in
      _ ← _create_directory_chain store_root controlled;
      identities ← _snapshot_directory_chain store_root;
      mret {| root := store_root; root_is_absolute := true; _read_only := false;
              _controlled_directories := controlled; _directory_identities := identities |}
  end.

(** [FileArtifactStore.open_existing_read_only(root, trusted_base=...)] *)
Definition open_existing_read_only (configured_root : path) (trusted_base : option path)
    : Sys FileArtifactStore :=
  '((base, relative) : path * path) ← lift (configured_paths configured_root trusted_base);
  resolved ← call (λ _, resolve true base);
  match resolved with
  | OSError _ => corruption "existing artifact store trusted base is unavailable"
  | Done resolved_base =>
      let store_root := resolved_base ++ relative in
      identities ← _snapshot_directory_chain store_root;
      let store := {| root := store_root; root_is_absolute := true; _read_only := true;
                      _controlled_directories := _paths_below resolved_base relative;
                      _directory_identities := identities |} in
      _ ← _validate_directory_chain store;
      mret store
  end.

(** ** Where an artifact lives *)

(** [Path("sha256") / digest[:2] / digest] *)
Definition relative_artifact_path (digest : string) : path := ["sha256"; take_prefix 2 digest; digest].
Definition as_posix (p : path) : string := join "/" p.

(** The components below the store's root, each made when [create] is set. *)
Fixpoint descend (create : bool) (current : path) (components : list string) : Sys unit :=
  match components with
  | [] => mret tt
  | component :: rest =>
      let candidate := current ++ [component] in
      if create then
        made ← attempt (Mkdir candidate);
        _ ← match made with
            | Done _ => mret tt
            | OSError e =>
                ensure (bool_decide (e = Some EEXIST)) "artifact directory could not be created safely"
            end;
        _ ← _require_real_directory candidate false;
        _ ← _fsync_directory current;
        descend create candidate rest
      else
        real ← _require_real_directory candidate true;
        if (real : bool) then descend create candidate rest else mret tt
  end.

(** [_artifact_parent(digest, create=...)] *)
Definition _artifact_parent (store : FileArtifactStore) (digest : string) (create : bool) : Sys path :=
  _ ← ensure (negb (create && _read_only store)) "read-only artifact store cannot create directories";
  _ ← _validate_directory_chain store;
  let components := ["sha256"; take_prefix 2 digest] in
  _ ← descend create (root store) components;
  mret (root store ++ components).

(** [path_for(reference)] *)
Definition path_for (store : FileArtifactStore) (r : ArtifactRef) : Sys path :=
  _ ← ensure (str_eqb (storage_ref r) (as_posix (relative_artifact_path (sha256 r))))
        "artifact storage reference does not match its digest";
  parent ← _artifact_parent store (sha256 r) false;
  mret (parent ++ [sha256 r]).

(** ** Reading an artifact *)

Section hashing.
Context {hashing : Hashing}.

(** The chunks read so far: how many, and their bytes. *)
Record Chunks := { ch_count : nat; ch_data : list Byte.byte }.

(** The body of [while chunk := os.read(descriptor, 1024 * 1024)]. *)
Definition read_chunk (fd : descriptor) (size : Z) (s : Chunks) : step Chunks (result (list Byte.byte)) :=
  match fd_read fd (ch_count s) 1048576 with
  | OSError _ => Leave (Err (ArtifactCorruptionError "artifact failed verification"))
  | Done [] => Leave (Ok (ch_data s))
  | Done chunk =>
      let data := ch_data s ++ chunk in
      if size <? Z.of_nat (length data)
      then Leave (Err (ArtifactCorruptionError "artifact failed verification"))
      else Continue {| ch_count := S (ch_count s); ch_data := data |}
  end.

Definition read_chunks (fd : descriptor) (size : Z) : result (list Byte.byte) :=
  data ← bounded (run_loop (Z.to_pos (size + 1)) (read_chunk fd size) {| ch_count := 0; ch_data := [] |});
  data.

(** The six fields that are compared. *)
Definition file_snapshot (m : stat_result) : Z * Z * Z * Z * Z * Z :=
  (st_dev m, st_ino m, st_size m, st_mtime_ns m, st_ctime_ns m, st_nlink m).

(** From the open descriptor to its bytes, the body of the [try] that ends in [os.close]. *)
Definition read_opened (p : path) (size : Z) (path_metadata : stat_result) (fd : descriptor)
    : Sys (list Byte.byte) :=
  match fd_stat fd with
  | OSError _ => corruption "artifact failed verification"
  | Done opened =>
      _ ← ensure (is_kind Regular opened && (st_dev opened =? st_dev path_metadata) &&
                  (st_ino opened =? st_ino path_metadata) && (st_size opened =? size) &&
                  (st_nlink opened =? 1)) "artifact failed verification";
      data ← lift (read_chunks fd size);
      match fd_final_stat fd with
      | OSError _ => corruption "artifact failed verification"
      | Done final_opened =>
          final ← call (λ _, lstat p);
          match final with
          | OSError e => corruption (if not_found e then "missing artifact" else "artifact failed verification")
          | Done final_path =>
              _ ← _require_exact_entry_name p false;
              _ ← ensure (is_kind Regular final_path && (st_nlink final_path =? 1) &&
                          bool_decide (file_snapshot opened = file_snapshot final_opened) &&
                          bool_decide (file_snapshot opened = file_snapshot final_path))
                    "artifact changed during verification";
              mret data
          end
      end
  end.

Definition close_file : Sys unit := _ ← perform CloseFile; mret tt.

(** [_read_verified_path(path, digest=..., size_bytes=...)] *)
Definition _read_verified_path (store : FileArtifactStore) (p : path) (digest : string) (size : Z)
    : Sys (list Byte.byte) :=
  expected_parent ← _artifact_parent store digest false;
  _ ← ensure (bool_decide (path_parent p = expected_parent)) "artifact is outside its canonical directory";
  metadata ← call (λ _, lstat p);
  match metadata with
  | OSError e => corruption (if not_found e then "missing artifact" else "artifact could not be inspected")
  | Done path_metadata =>
      _ ← _require_exact_entry_name p false;
      _ ← ensure (is_kind Regular path_metadata) "artifact is not a regular file";
      _ ← ensure (st_nlink path_metadata =? 1) "artifact has multiple hard links";
      opened ← call (λ _, open_file p);
      match opened with
      | OSError e => corruption (if not_found e then "missing artifact" else "artifact could not be opened safely")
      | Done fd =>
          data ← finally (read_opened p size path_metadata fd) (λ _, close_file);
          _ ← ensure ((Z.of_nat (length data) =? size) && str_eqb (sha256_bytes data) digest)
                "artifact failed verification";
          mret data
      end
  end.

(** [_verify_path(path, digest=..., size_bytes=...)] *)
Definition _verify_path (store : FileArtifactStore) (p : path) (digest : string) (size : Z) : Sys unit :=
  _ ← _read_verified_path store p digest size; mret tt.

(** [get_bytes(reference)] and [verify(reference)] *)
Definition get_bytes (store : FileArtifactStore) (r : ArtifactRef) : Sys (list Byte.byte) :=
  p ← path_for store r; _read_verified_path store p (sha256 r) (size_bytes r).
Definition verify (store : FileArtifactStore) (r : ArtifactRef) : Sys unit :=
  p ← path_for store r; _verify_path store p (sha256 r) (size_bytes r).

(** ** Publishing an artifact *)

(** [_rename_noreplace(source, target)]: whether this publisher won. *)
Definition _rename_noreplace (source target : path) : Sys bool :=
  renamed ← attempt (RenameNoreplace source target);
  match renamed with
  | Done _ => mret true
  | OSError e =>
      if bool_decide (e = Some EEXIST) then mret false
      else corruption "artifact could not be published with atomic no-replace rename"
  end.

(** [temporary.unlink(missing_ok=True)] *)
Definition unlink_missing_ok (p : path) : Sys unit :=
  gone ← attempt (Unlink p);
  match gone with
  | Done _ => mret tt
  | OSError e => if not_found e then mret tt else lift (Err (OSException e))
  end.

(** The body of the [try] of [_write_atomic]; the stream of [os.fdopen] is closed however
    writing it ended.  It returns the exception that preserves the
    temporary, when the target was there already and is not valid. *)
Definition publish (store : FileArtifactStore) (temporary target : path) (data : list Byte.byte)
    : Sys (option exn) :=
  let digest := sha256_bytes data in
  let size := Z.of_nat (length data) in
  _ ← finally (_ ← perform (WriteFile temporary data); _ ← perform (FsyncFile temporary); mret tt)
        (λ _, close_file);
  _ ← _verify_path store temporary digest size;
  published ← _rename_noreplace temporary target;
  if (published : bool) then mret None
  else catch (_ ← _verify_path store target digest size; mret None)
         (λ e, match e with ArtifactCorruptionError _ => Some (mret (Some e)) | _ => None end).

(** The [finally] of [_write_atomic]. *)
Definition retire (temporary target : path) (ended : result (option exn)) : Sys unit :=
  let preserve_temporary := match ended with Ok (Some _) => true | _ => false end in
  _ ← (if preserve_temporary then mret tt else unlink_missing_ok temporary);
  _fsync_directory (path_parent target).

(** [_write_atomic(target, data)] *)
Definition _write_atomic (store : FileArtifactStore) (target : path) (data : list Byte.byte) : Sys unit :=
  temporary ← perform (Mkstemp (path_parent target) ".artifact-");
  denied ← finally (publish store temporary target data) (retire temporary target);
  _ ← lift (match (denied : option exn) with Some e => Err e | None => Ok tt end);
  _verify_path store target (sha256_bytes data) (Z.of_nat (length data)).

(** [put_bytes(data, media_type=...)] *)
Definition put_bytes (store : FileArtifactStore) (data : list Byte.byte) (media : string) : Sys ArtifactRef :=
  _ ← ensure (negb (_read_only store)) "read-only artifact store cannot publish artifacts";
  let digest := sha256_bytes data in
  r ← lift (check_artifact_ref
        {| media_type := media; size_bytes := Z.of_nat (length data); sha256 := digest;
           storage_ref := as_posix (relative_artifact_path digest) |});
  parent ← _artifact_parent store digest true;
  _ ← _write_atomic store (parent ++ [digest]) data;
  mret r.

(** [put_text(text, media_type=...)] *)
Definition put_text (store : FileArtifactStore) (text media : string) : Sys ArtifactRef :=
  put_bytes store (utf8_encode text) media.
End hashing.
End store.
