(* ===== verification/ArtifactFacts.v ===== *)
(** * What the artifact store guarantees (src/guildmind/storage/artifacts.py)

    The world is arbitrary: any call may be answered in any way, whoever else is at work
    on the directories.  What a read returns was authentic while it was read; what a
    publication does to the store is confined and ordered. *)

From S2P Require Import Prelude Loop Effects PyStr Float64 Json Hash Datetime Fields Models Files Artifacts.

Local Open Scope Z_scope.

(** ** What a program does to the world *)

Section within.
Context {world : World}.

(** However [m] ends, time has not run back and its effects satisfy [P]. *)
Definition within (P : effect → Prop) {A} (m : Sys A) : Prop := ∀ s r s', m s = (r, s') →
  (moment s ≤ moment s')%nat ∧ ∃ new, effects s' = effects s ++ new ∧ Forall P new.

Lemma within_none {A} (m : Sys A) P :
  (∀ s r s', m s = (r, s') → (moment s ≤ moment s')%nat ∧ effects s' = effects s) → within P m.
Proof.
  intros H s r s' E. destruct (H _ _ _ E) as [? ->]. split; [done|]. exists []. by rewrite app_nil_r.
Qed.

Lemma within_mono {A} (m : Sys A) (P Q : effect → Prop) : (∀ e, P e → Q e) → within P m → within Q m.
Proof.
  intros HPQ H s r s' E. destruct (H _ _ _ E) as (? & new & ? & ?). split; [done|]. exists new. split; [done|].
  by eapply Forall_impl.
Qed.

Lemma within_ret {A} P (a : A) : within P (mret a).
Proof. apply within_none. by intros s r s' [= <- <-]. Qed.
Lemma within_lift {A} P (r : result A) : within P (lift r).
Proof. apply within_none. by intros s r' s' [= <- <-]. Qed.
Lemma within_call {A} P (f : FileSystem → A) : within P (call f).
Proof. apply within_none. intros s r s' [= <- <-]. split; [simpl; lia|done]. Qed.
Lemma within_attempt (P : effect → Prop) e : P e → within P (attempt e).
Proof.
  intros He s r s'. unfold attempt. destruct (effect_at _ _); intros [= <- <-]; (split; [simpl; lia|]).
  - exists [e]. split; [done|]. by repeat constructor.
  - exists []. by rewrite app_nil_r.
Qed.

Lemma within_trans P s1 s2 s3 :
  (moment s1 ≤ moment s2)%nat ∧ (∃ new, effects s2 = effects s1 ++ new ∧ Forall P new) →
  (moment s2 ≤ moment s3)%nat ∧ (∃ new, effects s3 = effects s2 ++ new ∧ Forall P new) →
  (moment s1 ≤ moment s3)%nat ∧ (∃ new, effects s3 = effects s1 ++ new ∧ Forall P new).
Proof.
  intros (? & n1 & E1 & ?) (? & n2 & E2 & ?). split; [lia|]. exists (n1 ++ n2).
  rewrite E2, E1, app_assoc. split; [done|]. by apply Forall_app.
Qed.

Lemma within_bind {A B} P (m : Sys A) (f : A → Sys B) : within P m → (∀ a, within P (f a)) → within P (m ≫= f).
Proof.
  intros Hm Hf s r s'. unfold mbind, eff_bind. destruct (m s) as [[a|e] s1] eqn:E.
  - intros E'. eapply within_trans; [by apply (Hm _ _ _ E)|by apply (Hf _ _ _ _ E')].
  - intros [= <- <-]. by apply (Hm _ _ _ E).
Qed.

Lemma within_catch {A} P (m : Sys A) h : within P m → (∀ e k, h e = Some k → within P k) → within P (catch m h).
Proof.
  intros Hm Hh s r s'. unfold catch. destruct (m s) as [[a|e] s1] eqn:E.
  - intros [= <- <-]. by apply (Hm _ _ _ E).
  - destruct (h e) as [k|] eqn:Ek.
    + intros E'. eapply within_trans; [by apply (Hm _ _ _ E)|by apply (Hh _ _ Ek _ _ _ E')].
    + intros [= <- <-]. by apply (Hm _ _ _ E).
Qed.

Lemma within_finally {A} P (m : Sys A) c : within P m → (∀ r, within P (c r)) → within P (finally m c).
Proof.
  intros Hm Hc s r s'. unfold finally. destruct (m s) as [r1 s1] eqn:E, (c r1 s1) as [r2 s2] eqn:E2.
  intros E'. assert (s' = s2) as -> by (destruct r2; by injection E' as _ <-).
  eapply within_trans; [by apply (Hm _ _ _ E)|by apply (Hc _ _ _ _ E2)].
Qed.

Lemma within_forM {A} P (f : A → Sys unit) l : (∀ a, within P (f a)) → within P (forM f l).
Proof.
  intros Hf. induction l as [|a l IH]; simpl; [apply within_ret|]. by apply within_bind.
Qed.

Lemma within_perform (P : effect → Prop) e : P e → within P (perform e).
Proof.
  intros He. apply within_bind; [by apply within_attempt|]. intros [p|n]; [apply within_ret|apply within_lift].
Qed.
End within.

Create HintDb within.
#[export] Hint Resolve within_ret within_lift within_call : within.

(** Walks through a program, leaving the effects it makes. *)
Ltac solve_within :=
  repeat match goal with
  | |- within _ (mbind _ _) => apply within_bind; [|intros ?]
  | |- within _ (finally _ _) => apply within_finally; [|intros ?]
  | |- within _ (forM _ _) => apply within_forM; intros ?
  | |- within _ (corruption _) => apply within_lift
  | |- within _ (ensure _ _) => apply within_lift
  | |- within _ (match ?x with _ => _ end) => destruct x
  | |- within _ (attempt _) => apply within_attempt
  | |- within _ (perform _) => apply within_perform
  | |- within _ _ => solve [eauto with within]
  end.

(** ** Reading *)

Section reading.
Context {world : World} {hashing : Hashing}.

Definition quiet {A} (m : Sys A) : Prop := within (λ _, False) m.

Lemma quiet_within {A} (m : Sys A) P : quiet m → within P m.
Proof. by apply within_mono. Qed.

Lemma quiet_Ok {A} (m : Sys A) s r s' : quiet m → m s = (r, s') →
  (moment s ≤ moment s')%nat ∧ effects s' = effects s.
Proof.
  intros Hq E. destruct (Hq _ _ _ E) as (? & new & -> & Hn). split; [done|].
  destruct new; [by rewrite app_nil_r|]. by apply Forall_cons in Hn as [[] _].
Qed.

Lemma quiet_exact_name p b : quiet (_require_exact_entry_name p b).
Proof. unfold quiet, _require_exact_entry_name. solve_within. Qed.
#[local] Hint Resolve quiet_exact_name : within.

Lemma quiet_chain store : quiet (_validate_directory_chain store).
Proof.
  unfold quiet, _validate_directory_chain. solve_within; try apply quiet_exact_name.
  unfold check_identity. solve_within.
Qed.

Lemma quiet_real_directory p b : quiet (_require_real_directory p b).
Proof. unfold quiet, _require_real_directory. solve_within; apply quiet_exact_name. Qed.

Lemma quiet_descend current components : quiet (descend false current components).
Proof.
  revert current. induction components as [|c l IH]; intros current; simpl; [apply within_ret|].
  apply within_bind; [apply quiet_real_directory|]. intros []; [apply IH|apply within_ret].
Qed.

Lemma quiet_parent store d : quiet (_artifact_parent store d false).
Proof.
  unfold quiet, _artifact_parent.
  solve_within; first [apply quiet_chain|apply quiet_descend].
Qed.

(** ** The reading loop *)

Lemma read_chunks_ends fd size : ∃ r, run_loop (Z.to_pos (size + 1)) (read_chunk fd size)
  {| ch_count := 0; ch_data := [] |} = Leave r.
Proof.
  destruct (decide (0 <= size)) as [Hs|Hs].
  - eapply (run_loop_terminates _ (λ c, Z.of_nat (length (ch_data c)) <= size)
              (λ c, size - Z.of_nat (length (ch_data c)))); cbn [ch_data]; simpl; [lia| |lia].
    intros c c' Hc. unfold read_chunk. destruct (fd_read fd _ _) as [[|b bs]|]; [done| |done].
    destruct (Z.ltb_spec size (Z.of_nat (length (ch_data c ++ b :: bs)))); [done|].
    intros [= <-]. cbn [ch_data]. rewrite length_app in *. simpl in *. lia.
  - assert (Z.to_pos (size + 1) = 1%positive) as -> by (destruct (size + 1) eqn:E; [done|lia|done]).
    cbn [run_loop]. unfold read_chunk. cbn [ch_count ch_data].
    destruct (fd_read fd 0 _) as [[|b bs]|]; [eauto| |eauto].
    destruct (Z.ltb_spec size (Z.of_nat (length ([] ++ b :: bs)))); [eauto|]. simpl in *. lia.
Qed.

Lemma read_chunks_delivers fd size bs : read_chunks fd size = Ok bs → delivers fd 0 bs.
Proof.
  unfold read_chunks, bounded. intros H. inv_ok. subst a.
  match goal with H : leave ?o = Some _ |- _ => destruct o as [|o'] eqn:E; [done|]; injection H as -> end.
  refine (run_loop_ind _ (λ c, ∀ rest, delivers fd (ch_count c) rest → delivers fd 0 (ch_data c ++ rest))
            (λ o, ∀ bs, o = Ok bs → delivers fd 0 bs) _ _ _ E _ _ _ bs eq_refl).
  - done.
  - intros c c' Hc. unfold read_chunk. destruct (fd_read fd _ _) as [[|b chunk]|] eqn:Er; [done| |done].
    case_match; [done|]. intros [= <-] rest Hr. cbn [ch_count ch_data] in *. rewrite <- app_assoc. apply Hc.
    by eapply delivers_more.
  - intros c r Hc. unfold read_chunk. destruct (fd_read fd _ _) as [[|b chunk]|] eqn:Er.
    + intros [= <-] bs' [= <-]. rewrite <- (app_nil_r (ch_data c)). apply Hc. by eapply delivers_end.
    + case_match; [|done]. by intros [= <-].
    + by intros [= <-].
Qed.

(** ** What a verified read saw *)

(** At three moments, in order: the path named a plain single-link file; the same file was
    opened there; and after its bytes had been read, the path still named that file, with
    nothing about it changed. *)
Definition authentic (p : path) (digest : string) (bs : list Byte.byte) (from to : nat) : Prop :=
  ∃ (t0 t1 t2 : nat) (fd : descriptor) (before opened after : stat_result),
    (from <= t0 < t1)%nat ∧ (t1 < t2 < to)%nat ∧
    lstat (FileSystem := fs_at t0) p = Done before ∧ st_kind before = Regular ∧ st_nlink before = 1 ∧
    open_file (FileSystem := fs_at t1) p = Done fd ∧ fd_stat fd = Done opened ∧
    (∃ final, fd_final_stat fd = Done final ∧ file_snapshot final = file_snapshot opened) ∧
    (st_dev opened, st_ino opened) = (st_dev before, st_ino before) ∧
    lstat (FileSystem := fs_at t2) p = Done after ∧ st_kind after = Regular ∧
    file_snapshot after = file_snapshot opened ∧ st_nlink opened = 1 ∧
    st_size opened = Z.of_nat (length bs) ∧ delivers fd 0 bs ∧ sha256_bytes bs = digest.

Lemma call_Ok {A} (f : FileSystem → A) s a s' : call f s = (Ok a, s') ↔
  a = f (fs_at (moment s)) ∧ s' = {| moment := S (moment s); effects := effects s |}.
Proof. unfold call. split; [by intros [= <- <-]|by intros [-> ->]]. Qed.

Lemma perform_Ok e s p s' : perform e s = (Ok p, s') ↔ effect_at (moment s) e = Done p ∧
  s' = {| moment := S (moment s); effects := effects s ++ [e] |}.
Proof.
  unfold perform, attempt. unfold mbind, eff_bind. destruct (effect_at (moment s) e) as [q|n].
  - unfold mret, eff_ret. split; [by intros [= <- <-]|by intros [[= ->] ->]].
  - unfold lift. split; [done|by intros [? _]].
Qed.

Lemma ensure_Ok b msg s u s' : ensure b msg s = (Ok u, s') ↔ b = true ∧ s' = s.
Proof. unfold ensure. rewrite lift_Ok, require_Ok. done. Qed.

Lemma corruption_Ok {A} msg s (a : A) s' : corruption msg s = (Ok a, s') ↔ False.
Proof. unfold corruption. rewrite lift_Ok. naive_solver. Qed.

End reading.

(** Opens a run that returned, calls and failures included. *)
Ltac inv_sys := repeat (first
  [ inv_eff_step
  | match goal with
    | H : call _ _ = (Ok _, _) |- _ => apply call_Ok in H; destruct H as [? ?]; subst
    | H : perform _ _ = (Ok _, _) |- _ => apply perform_Ok in H; destruct H as [H ?]; subst
    | H : ensure _ _ _ = (Ok _, _) |- _ => apply ensure_Ok in H; destruct H as [H ?]; subst
    | H : corruption _ _ = (Ok _, _) |- _ => apply corruption_Ok in H; destruct H
    | H : require _ _ = Ok _ |- _ => apply require_Ok in H
    end ]; cbv beta in * ).

#[export] Hint Resolve quiet_exact_name quiet_chain quiet_real_directory quiet_descend quiet_parent : within.

Section verified.
Context {world : World} {hashing : Hashing}.

Lemma read_opened_spec p size before fd s bs s' : read_opened p size before fd s = (Ok bs, s') →
  ∃ opened after t2, (moment s <= t2 < moment s')%nat ∧ effects s' = effects s ∧ fd_stat fd = Done opened ∧
    st_size opened = size ∧ st_nlink opened = 1 ∧
    (st_dev opened, st_ino opened) = (st_dev before, st_ino before) ∧
    (∃ final, fd_final_stat fd = Done final ∧ file_snapshot final = file_snapshot opened) ∧
    lstat (FileSystem := fs_at t2) p = Done after ∧ st_kind after = Regular ∧
    file_snapshot after = file_snapshot opened ∧ delivers fd 0 bs.
Proof.
  unfold read_opened. intros H. destruct (fd_stat fd) as [opened|]; [|by inv_sys]. inv_sys.
  match goal with H : read_chunks _ _ = _ |- _ => apply read_chunks_delivers in H; rename H into Hd end.
  destruct (fd_final_stat fd) as [final|] eqn:Ef; [|by inv_sys]. inv_sys.
  destruct (lstat p) as [after|] eqn:Ea; [|by inv_sys]. inv_sys.
  match goal with H : _require_exact_entry_name _ _ _ = _ |- _ =>
    apply (quiet_Ok _ _ _ _ (quiet_exact_name _ _)) in H as [Ht He] end.
  cbn [moment effects] in *. unfold is_kind in *. split_andb.
  exists opened, after. eexists. split; [|split_and!; try done; try lia]; [split; [|exact Ht]; lia|..].
  - f_equal; lia.
  - eexists. split; [done|]. congruence.
Qed.

(** The store saw each of its directories, with the identity it remembers. *)
Definition identities_seen (store : FileArtifactStore) (from to : nat) : Prop :=
  ∀ q device inode, (q, device, inode) ∈ _directory_identities store → ∃ t m,
    (from <= t < to)%nat ∧ lstat (FileSystem := fs_at t) q = Done m ∧ st_kind m = Directory ∧
    st_dev m = device ∧ st_ino m = inode.

Lemma identities_seen_mono store a b a' b' : identities_seen store a b → (a' <= a)%nat → (b <= b')%nat →
  identities_seen store a' b'.
Proof. intros H ? ? q d i Hq. destruct (H q d i Hq) as (t & m & ? & ?). exists t, m. split; [lia|done]. Qed.

Lemma check_identity_spec q d i s s' : check_identity (q, d, i) s = (Ok tt, s') → ∃ m,
  lstat (FileSystem := fs_at (moment s)) q = Done m ∧ st_kind m = Directory ∧ st_dev m = d ∧ st_ino m = i ∧
  moment s' = S (moment s).
Proof.
  unfold check_identity. intros H. inv_sys. destruct (lstat q) as [m|]; [|by inv_sys]. inv_sys.
  unfold is_kind in *. split_andb. exists m. split_and!; try done; lia.
Qed.

Lemma quiet_identities l : quiet (forM check_identity l).
Proof. unfold quiet, check_identity. solve_within. Qed.

Lemma check_identities_seen l s s' : forM check_identity l s = (Ok tt, s') →
  ∀ q device inode, (q, device, inode) ∈ l → ∃ t m, (moment s <= t < moment s')%nat ∧
    lstat (FileSystem := fs_at t) q = Done m ∧ st_kind m = Directory ∧ st_dev m = device ∧ st_ino m = inode.
Proof.
  revert s. induction l as [|[[q0 d0] i0] l IH]; intros s H q d i Hin; [by apply not_elem_of_nil in Hin|].
  cbn [forM] in H. apply bindM_Ok in H as ([] & s1 & H1 & H2).
  destruct (check_identity_spec _ _ _ _ _ H1) as (m & Hm & ? & ? & ? & Ht).
  destruct (quiet_Ok _ _ _ _ (quiet_identities _) H2) as [? _].
  apply elem_of_cons in Hin as [[= -> -> ->]|Hin].
  - exists (moment s), m. split_and!; try done; lia.
  - destruct (IH _ H2 q d i Hin) as (t & m' & ? & ?). exists t, m'. split; [lia|done].
Qed.

Lemma parent_spec store d create s p s' : _artifact_parent store d create s = (Ok p, s') →
  p = root store ++ ["sha256"; take_prefix 2 d] ∧ identities_seen store (moment s) (moment s').
Proof.
  unfold _artifact_parent, _validate_directory_chain. intros H. inv_sys. split; [done|].
  match goal with H : forM check_identity _ _ = (Ok ?u, ?s1) |- _ =>
    destruct u; pose proof (check_identities_seen _ _ _ H) as Hseen; rename s1 into s1' end.
  assert (within (λ _, True) (forM (λ p0, _ ← _require_exact_entry_name p0 false; mret tt)
            (_controlled_directories store))) as W1.
  { solve_within. eapply quiet_within, quiet_exact_name. }
  assert (∀ l current, within (λ _, True) (descend create current l)) as W2.
  { induction l as [|c l IH]; intros current; simpl; [apply within_ret|]. unfold _fsync_directory.
    destruct create; solve_within; try done; try apply IH; apply quiet_within, quiet_real_directory. }
  match goal with H1 : forM (λ p0, _) _ _ = (_, _), H2 : descend _ _ _ _ = (_, _) |- _ =>
    apply W1 in H1 as [? _]; apply W2 in H2 as [? _] end.
  intros q dv i Hq. destruct (Hseen q dv i Hq) as (t & m & ? & ?). exists t, m. split; [lia|done].
Qed.

(** Everything a verified read establishes. *)
Lemma read_verified_spec store p digest size s bs s' :
  _read_verified_path store p digest size s = (Ok bs, s') →
  path_parent p = root store ++ ["sha256"; take_prefix 2 digest] ∧ Z.of_nat (length bs) = size ∧
  authentic p digest bs (moment s) (moment s') ∧ identities_seen store (moment s) (moment s') ∧
  effects s' = effects s ++ [CloseFile].
Proof.
  unfold _read_verified_path, close_file. intros H. inv_sys.
  match goal with H : _artifact_parent _ _ _ _ = _ |- _ =>
    pose proof (quiet_Ok _ _ _ _ (quiet_parent _ _) H) as [T1 E1]; apply parent_spec in H as [-> Hseen] end.
  destruct (lstat p) as [before|] eqn:Eb; [|by inv_sys]. inv_sys.
  match goal with H : _require_exact_entry_name _ _ _ = _ |- _ =>
    apply (quiet_Ok _ _ _ _ (quiet_exact_name _ _)) in H as [T2 E2] end.
  destruct (open_file p) as [fd|] eqn:Eo; [|by inv_sys]. inv_sys.
  match goal with H : finally _ _ _ = _ |- _ => apply finally_Ok in H as (s5 & Hr & Hc) end. inv_sys.
  destruct (read_opened_spec _ _ _ _ _ _ _ Hr) as (opened & after & t2 & Ht2 & E3 & ? & ? & ? & ? & ? & ? & ? & ? & ?).
  cbn [moment effects] in *. unfold is_kind in *. split_andb. split_and!; try done.
  - lia.
  - eexists _, _, t2, fd, before, opened, after. split_and!;
      lazymatch goal with
      | |- _ = Done before => exact Eb
      | |- _ = Done fd => exact Eo
      | |- sha256_bytes _ = _ => by apply String.eqb_eq
      | _ => try done; try lia
      end.
  - eapply identities_seen_mono; [exact Hseen|lia|lia].
  - congruence.
Qed.

(** The canonical file of a digest in a store. *)
Definition artifact_path (store : FileArtifactStore) (digest : string) : path :=
  root store ++ relative_artifact_path digest.

(** C25. Whatever else happens to the directories, bytes that [get_bytes] returns are the
    referenced artifact: they have its size and hash to its digest; the reference's
    location is the digest's canonical one; and while they were read that path named one
    plain single-link file that did not change, below the very directories the store was
    opened with.  Reading changes nothing. *)
Theorem get_bytes_authentic store r s bs s' : get_bytes store r s = (Ok bs, s') →
  Z.of_nat (length bs) = size_bytes r ∧ sha256_bytes bs = sha256 r ∧
  storage_ref r = as_posix (relative_artifact_path (sha256 r)) ∧
  authentic (artifact_path store (sha256 r)) (sha256 r) bs (moment s) (moment s') ∧
  identities_seen store (moment s) (moment s') ∧ effects s' = effects s ++ [CloseFile].
Proof.
  unfold get_bytes, path_for. intros H. inv_sys.
  match goal with H : _artifact_parent _ _ _ _ = _ |- _ =>
    pose proof (quiet_Ok _ _ _ _ (quiet_parent _ _) H) as [T1 E1]; apply parent_spec in H as [-> _] end.
  match goal with H : _read_verified_path _ _ _ _ _ = _ |- _ =>
    apply read_verified_spec in H as (_ & Hz & Ha & Hi & He) end.
  rewrite <- app_assoc in Ha.
  assert (authentic (artifact_path store (sha256 r)) (sha256 r) bs (moment s) (moment s')) as Ha'.
  { destruct Ha as (t0 & t1 & t2 & Ha). exists t0, t1, t2.
    destruct Ha as (fd & b & o & f & ? & ? & Ha). exists fd, b, o, f. split; [lia|]. split; [lia|]. exact Ha. }
  split_and!; try done.
  - destruct Ha as (? & ? & ? & ? & ? & ? & ? & ? & ? & ? & ? & ? & ? & ? & ? & ? & ? & ? & ? & ? & ? & ? & ?). done.
  - by apply String.eqb_eq.
  - eapply identities_seen_mono; [exact Hi|lia|lia].
  - congruence.
Qed.

(** ** How reading fails *)

(** The artifact is corrupt; or, between two moments, closing the file raised [OSError]. *)
Definition read_failure (from to : nat) (e : exn) : Prop :=
  (∃ msg, e = ArtifactCorruptionError msg) ∨
  ∃ number t, e = OSException number ∧ (from ≤ t < to)%nat ∧ effect_at t CloseFile = OSError number.

Lemma read_failure_mono a b a' b' e : read_failure a b e → (a' ≤ a)%nat → (b ≤ b')%nat → read_failure a' b' e.
Proof.
  intros [H|(n & t & ? & ? & ?)] ? ?; [by left|]. right. exists n, t. split_and!; (done || lia).
Qed.

(** However [m] ends, time has not run back; when it raises, it is such a failure. *)
Definition fails_closing {A} (m : Sys A) : Prop := ∀ s r s', m s = (r, s') →
  (moment s ≤ moment s')%nat ∧ ∀ e, r = Err e → read_failure (moment s) (moment s') e.

Lemma closing_ret {A} (a : A) : fails_closing (mret a).
Proof. by intros s r s' [= <- <-]. Qed.
Lemma closing_call {A} (f : FileSystem → A) : fails_closing (call f).
Proof. intros s r s' [= <- <-]. split; [simpl; lia|done]. Qed.
Lemma closing_lift {A} (r : result A) : (∀ e, r = Err e → ∃ msg, e = ArtifactCorruptionError msg) → fails_closing (lift r).
Proof. intros H s r' s' [= <- <-]. split; [done|]. intros e He. left. by apply H. Qed.
Lemma closing_bind {A B} (m : Sys A) (f : A → Sys B) :
  fails_closing m → (∀ a, fails_closing (f a)) → fails_closing (m ≫= f).
Proof.
  intros Hm Hf s r s' [(a & s1 & H1 & H2)|(e & H & ->)]%bindM_inv.
  - destruct (Hm _ _ _ H1) as [? _], (Hf _ _ _ _ H2) as [? He]. split; [lia|]. intros e E.
    eapply read_failure_mono; [by apply He|lia|lia].
  - destruct (Hm _ _ _ H) as [? He]. split; [done|]. intros e' [= <-]. by apply He.
Qed.
Lemma closing_forM {A} (f : A → Sys unit) l : (∀ a, fails_closing (f a)) → fails_closing (forM f l).
Proof. intros Hf. induction l as [|a l IH]; simpl; [apply closing_ret|by apply closing_bind]. Qed.
Lemma closing_finally {A} (m : Sys A) c : fails_closing m → (∀ r, fails_closing (c r)) → fails_closing (finally m c).
Proof.
  intros Hm Hc s r s'. unfold finally. destruct (m s) as [r0 s1] eqn:E1, (c r0 s1) as [r2 s2] eqn:E2.
  destruct (Hm _ _ _ E1) as [? He1], (Hc _ _ _ _ E2) as [? He2].
  destruct r2 as [u|e2]; intros [= <- <-]; (split; [lia|]).
  - intros e E. eapply read_failure_mono; [by apply He1|lia|lia].
  - intros e [= <-]. eapply read_failure_mono; [by apply He2|lia|lia].
Qed.

Lemma closing_corruption {A} msg : fails_closing (corruption (A := A) msg).
Proof. apply closing_lift. intros e [= <-]. eauto. Qed.
Lemma closing_ensure b msg : fails_closing (ensure b msg).
Proof. apply closing_lift. intros e. destruct b; [done|]. intros [= <-]. eauto. Qed.
(** The one system call that reading may fail by is the closing of the file. *)
Lemma closing_close : fails_closing (perform CloseFile).
Proof.
  intros s r s'. unfold perform, mbind, eff_bind, attempt. destruct (effect_at (moment s) CloseFile) as [p|n] eqn:E;
    intros [= <- <-]; (split; [simpl; lia|]); [done|]. intros e [= <-]. right. exists n, (moment s).
  split_and!; [done|simpl; lia..|done].
Qed.

Lemma closing_read_chunks fd size : fails_closing (lift (read_chunks fd size)).
Proof.
  apply closing_lift. intros e. unfold read_chunks. destruct (read_chunks_ends fd size) as [r E]. rewrite E.
  cbn [bounded leave of_option mbind result_bind]. intros ->.
  refine (run_loop_ind _ (λ _, True) (λ o, ∀ e, o = Err e → ∃ msg, e = ArtifactCorruptionError msg) _ _ _ E
    Logic.I _ _ e eq_refl); [done|]. intros c o _. unfold read_chunk. destruct (fd_read fd _ _) as [[|b bs]|].
  - by intros [= <-].
  - case_match; [|done]. intros [= <-] e' [= <-]. eauto.
  - intros [= <-] e' [= <-]. eauto.
Qed.

Ltac solve_closing :=
  repeat match goal with
  | |- fails_closing (mbind _ _) => apply closing_bind; [|intros ?]
  | |- fails_closing (finally _ _) => apply closing_finally; [|intros ?]
  | |- fails_closing (forM _ _) => apply closing_forM; intros ?
  | |- fails_closing (mret _) => apply closing_ret
  | |- fails_closing (call _) => apply closing_call
  | |- fails_closing (corruption _) => apply closing_corruption
  | |- fails_closing (ensure _ _) => apply closing_ensure
  | |- fails_closing (perform CloseFile) => apply closing_close
  | |- fails_closing (lift (read_chunks _ _)) => apply closing_read_chunks
  | |- fails_closing (match ?x with _ => _ end) => destruct x
  end.

Lemma closing_exact_name p b : fails_closing (_require_exact_entry_name p b).
Proof. unfold _require_exact_entry_name. solve_closing. Qed.
Lemma closing_identity store : fails_closing (verify_root_identity store).
Proof.
  unfold verify_root_identity, _validate_directory_chain, check_identity. solve_closing; apply closing_exact_name.
Qed.
Lemma closing_parent store d : fails_closing (_artifact_parent store d false).
Proof.
  unfold _artifact_parent, _validate_directory_chain, check_identity. solve_closing; [apply closing_exact_name|].
  generalize ["sha256"; take_prefix 2 d]. intros l. generalize (root store).
  induction l as [|c l IH]; intros current; cbn [descend]; [apply closing_ret|].
  apply closing_bind; [|intros []; [apply IH|apply closing_ret]].
  unfold _require_real_directory. solve_closing; apply closing_exact_name.
Qed.

(** C28. Reading always comes to an end, and it fails in only two ways: the artifact is
    reported corrupt, or closing the file, while it was being read, raised the very
    [OSError] that is seen.  No failure to inspect, open or read it gets out as such. *)
Theorem get_bytes_fails_as_corruption store r s e s' : get_bytes store r s = (Err e, s') →
  (∃ msg, e = ArtifactCorruptionError msg) ∨
  ∃ number t, e = OSException number ∧ (moment s ≤ t < moment s')%nat ∧ effect_at t CloseFile = OSError number.
Proof.
  assert (fails_closing (get_bytes store r)) as H; [|intros E; by apply (H _ _ _ E)].
  unfold get_bytes, path_for, _read_verified_path, read_opened, close_file.
  solve_closing; first [apply closing_parent|apply closing_exact_name].
Qed.

(** ** Publishing *)

Lemma str_all_take f n t : str_all f t = true → str_all f (take_prefix n t) = true.
Proof.
  unfold take_prefix. revert n. induction t as [|c t IH]; intros [|n] H; simpl in *; try done.
  split_andb. rewrite H. by apply IH.
Qed.

(** The location of a digest is not changed by stripping. *)
Lemma canonical_ref_nonempty d : is_lower_sha256 d = true →
  c_nonempty (as_posix (relative_artifact_path d)) = Ok (as_posix (relative_artifact_path d)).
Proof.
  unfold is_lower_sha256, is_lower_hex. intros [_ Hd]%andb_true_iff. unfold c_nonempty.
  assert (strip_whitespace (as_posix (relative_artifact_path d)) = as_posix (relative_artifact_path d)) as ->.
  2:{ unfold as_posix, relative_artifact_path. cbn [join]. done. }
  apply (strip_id _ (λ c, negb (unicode_ws c))); [intros c; by rewrite negb_true_iff|].
  assert (∀ t, str_all is_lower_hex_char t = true → str_all (λ c, negb (unicode_ws c)) t = true) as Himp.
  { intros t. apply str_all_impl. intros c Hc. by rewrite (lower_hex_not_ws c Hc). }
  unfold as_posix, relative_artifact_path. cbn [join]. rewrite !str_all_app.
  rewrite (Himp _ (str_all_take _ 2 _ Hd)), (Himp _ Hd). vm_compute. reflexivity.
Qed.

(** What [put_bytes] may do once it has made the digest's two directories: write, sync and
    close the one temporary file, rename it onto the digest's own path without replacing,
    remove it, and sync their directory. *)
Inductive publishing (store : FileArtifactStore) (data : list Byte.byte) (temporary : path) : effect → Prop :=
  | publishing_sync : publishing store data temporary
      (FsyncDirectory (path_parent (artifact_path store (sha256_bytes data))))
  | publishing_temporary : publishing store data temporary
      (Mkstemp (path_parent (artifact_path store (sha256_bytes data))) ".artifact-")
  | publishing_write : publishing store data temporary (WriteFile temporary data)
  | publishing_fsync : publishing store data temporary (FsyncFile temporary)
  | publishing_close : publishing store data temporary CloseFile
  | publishing_rename : publishing store data temporary
      (RenameNoreplace temporary (artifact_path store (sha256_bytes data)))
  | publishing_unlink : publishing store data temporary (Unlink temporary).

(** The part that makes directories and syncs their parents. *)
Definition directory_effect (e : effect) : bool :=
  match e with Mkdir _ | FsyncDirectory _ => true | _ => false end.

Definition making (store : FileArtifactStore) (d : string) (e : effect) : Prop :=
  ∃ n, e = Mkdir (root store ++ take n ["sha256"; take_prefix 2 d]) ∨
       e = FsyncDirectory (root store ++ take n ["sha256"; take_prefix 2 d]).

Lemma within_parent store d create : within (making store d) (_artifact_parent store d create).
Proof.
  unfold _artifact_parent. apply within_bind; [apply within_lift|]. intros _.
  apply within_bind; [apply quiet_within, quiet_chain|]. intros _. apply within_bind; [|intros; apply within_ret].
  set (l := ["sha256"; take_prefix 2 d]).
  assert (∀ done rest, l = done ++ rest → within (making store d) (descend create (root store ++ done) rest)) as H.
  2:{ rewrite <- (app_nil_r (root store)). by apply (H []). }
  intros done rest. revert done. induction rest as [|c rest IH]; intros done El; cbn [descend]; [apply within_ret|].
  assert (l = (done ++ [c]) ++ rest) as El' by (by rewrite <- app_assoc).
  assert ((root store ++ done) ++ [c] = root store ++ take (length (done ++ [c])) l) as Ec.
  { rewrite El', take_app_length. by rewrite app_assoc. }
  assert (root store ++ done = root store ++ take (length done) l) as Ed by (by rewrite El, take_app_length).
  specialize (IH _ El'). rewrite app_assoc in IH. unfold _fsync_directory.
  destruct create; solve_within;
    first [ exact IH
          | apply quiet_within, quiet_real_directory
          | exists (length (done ++ [c])); left; by rewrite Ec
          | exists (length done); right; by rewrite Ed ].
Qed.

Lemma within_read store p d n (P : effect → Prop) : P CloseFile → within P (_read_verified_path store p d n).
Proof.
  intros HP. unfold _read_verified_path, read_opened, close_file. solve_within; try done;
    first [apply (quiet_within _ _ (quiet_parent _ _))|apply (quiet_within _ _ (quiet_exact_name _ _))].
Qed.

Lemma artifact_parent_path store d : root store ++ ["sha256"; take_prefix 2 d] = path_parent (artifact_path store d).
Proof.
  unfold path_parent, artifact_path, relative_artifact_path.
  assert (root store ++ ["sha256"; take_prefix 2 d; d] = (root store ++ ["sha256"; take_prefix 2 d]) ++ [d]) as ->
    by (by rewrite <- app_assoc).
  by rewrite removelast_last.
Qed.

(** The effects of what follows the creation of the temporary. *)
Lemma within_publish store data temporary :
  let target := artifact_path store (sha256_bytes data) in
  let parent := path_parent target in
  within (publishing store data temporary)
    (denied ← finally (publish store temporary target data) (retire temporary target);
     _ ← lift (match (denied : option exn) with Some e => Err e | None => Ok tt end);
     _verify_path store target (sha256_bytes data) (Z.of_nat (length data))).
Proof.
  intros target parent. unfold _verify_path, publish, retire, unlink_missing_ok, _fsync_directory, _rename_noreplace, close_file.
  assert (publishing store data temporary (FsyncDirectory (path_parent target))) as Hsync.
  { constructor. }
  assert (∀ p d n, within (publishing store data temporary) (_read_verified_path store p d n)) as Hread.
  { intros p d n. apply within_read. constructor. }
  solve_within; try solve [constructor|exact Hsync|apply Hread].
  - by apply within_bind; [|intros; apply within_ret].
  - apply within_catch; [by do 2 (apply within_bind; [|intros; apply within_ret])|].
    intros e k Hk. destruct e; try done. injection Hk as <-. apply within_ret.
Qed.

Lemma perform_Err e s x s' : perform e s = (Err x, s') → effects s' = effects s.
Proof.
  intros [H|(p & s1 & H & H2)]%bindM_Err; unfold attempt in *.
  - by destruct (effect_at _ _).
  - destruct (effect_at _ _); injection H as <- <-; [done|]. by injection H2 as _ <-.
Qed.

Lemma write_confined store data r s s' :
  let target := artifact_path store (sha256_bytes data) in
  _write_atomic store target data s = (r, s') →
  effects s' = effects s ∨
  ∃ temporary t new, effect_at t (Mkstemp (path_parent target) ".artifact-") = Done temporary ∧
    (moment s ≤ t < moment s')%nat ∧ effects s' = effects s ++ new ∧ Forall (publishing store data temporary) new.
Proof.
  intros target H. unfold _write_atomic in H.
  apply bindM_inv in H as [(temporary & s1 & H0 & H)|(e & H & _)]; [right|left; by eapply perform_Err].
  apply perform_Ok in H0 as [Hm ->].
  destruct (within_publish store data temporary _ _ _ H) as (T & new & E & Hn). cbn [effects moment] in E, T.
  eexists temporary, _, (_ :: new). split; [exact Hm|]. split; [lia|]. rewrite E, <- app_assoc. split; [done|].
  constructor; [constructor|done].
Qed.

(** C27. However [put_bytes] ends, it has only ever made, and synced the parents of, the
    digest's own two directories, and then handled one temporary file, which the world
    named for it in the course of this run: the only rename is of that file onto the
    digest's canonical path, and never replaces what is there; the only removal is of that
    file.  No published artifact is written, replaced or removed. *)
Theorem put_bytes_confined store data media s r s' : put_bytes store data media s = (r, s') →
  ∃ made new, effects s' = effects s ++ made ++ new ∧ Forall (making store (sha256_bytes data)) made ∧
    (new = [] ∨
     ∃ temporary t, (moment s ≤ t < moment s')%nat ∧
       effect_at t (Mkstemp (path_parent (artifact_path store (sha256_bytes data))) ".artifact-") = Done temporary ∧
       Forall (publishing store data temporary) new).
Proof.
  set (d := sha256_bytes data). unfold put_bytes. intros H.
  assert (effects s' = effects s → ∃ made new, effects s' = effects s ++ made ++ new ∧
    Forall (making store d) made ∧ (new = [] ∨ ∃ temporary t, (moment s ≤ t < moment s')%nat ∧
      effect_at t (Mkstemp (path_parent (artifact_path store d)) ".artifact-") = Done temporary ∧
      Forall (publishing store data temporary) new)) as Hnone.
  { intros ->. exists [], []. split_and!; [by rewrite app_nil_r|done|by left]. }
  apply bindM_inv in H as [([] & s0 & H0 & H)|(e & [= _ <-] & _)]; [|by apply Hnone].
  apply ensure_Ok in H0 as [_ ->].
  apply bindM_inv in H as [(ref & s0 & H0 & H)|(e & [= _ <-] & _)]; [|by apply Hnone].
  apply lift_Ok in H0 as [_ ->].
  apply bindM_inv in H as [(p & s0 & H0 & H)|(e & H0 & _)];
    destruct (within_parent store d true _ _ _ H0) as (T0 & made & E1 & Hn); cycle 1.
  { exists made, []. rewrite app_nil_r. split_and!; [done|done|by left]. }
  apply parent_spec in H0 as [-> _]. unfold _write_atomic in H.
  rewrite <- app_assoc in H. change (["sha256"; take_prefix 2 (sha256_bytes data)] ++ [sha256_bytes data])
    with (relative_artifact_path d) in H. fold d in H. fold (artifact_path store d) in H.
  set (target := artifact_path store d) in *.
  assert (∃ r1, _write_atomic store target data s0 = (r1, s')) as [r1 Hw].
  { apply bindM_inv in H as [([] & s1 & H & [= _ <-])|(e & H & _)]; eauto. }
  apply write_confined in Hw as [E2|(temporary & t & new & Hm & Ht & E2 & Hp)].
  - exists made, []. rewrite E2, E1, app_nil_r. split_and!; [done|done|by left].
  - exists made, new. rewrite E2, E1, app_assoc. split_and!; [done|done|]. right. exists temporary, t.
    split_and!; [lia|lia|done|done].
Qed.

(** The reference of published bytes. *)
Definition reference_of (data : list Byte.byte) (media : string) : ArtifactRef :=
  {| media_type := strip_whitespace media; size_bytes := Z.of_nat (length data); sha256 := sha256_bytes data;
     storage_ref := as_posix (relative_artifact_path (sha256_bytes data)) |}.

Lemma check_reference_of data media r : check_artifact_ref
    {| media_type := media; size_bytes := Z.of_nat (length data); sha256 := sha256_bytes data;
       storage_ref := as_posix (relative_artifact_path (sha256_bytes data)) |} = Ok r →
  r = reference_of data media.
Proof.
  unfold check_artifact_ref. cbn [media_type size_bytes sha256 storage_ref]. intros H. inv_ok.
  match goal with H : c_sha256 _ = _ |- _ => apply c_sha256_inv in H as [-> Hd] end.
  rewrite (canonical_ref_nonempty _ Hd) in *. inv_ok. unfold reference_of. f_equal.
  - unfold c_nonempty in *. by repeat case_match; simplify_eq.
  - unfold c_nonneg in *. by repeat case_match; simplify_eq.
Qed.

(** What happens between the synced temporary and the synced directory. *)
Inductive publication (temporary target : path) : list effect → Prop :=
  | won : publication temporary target [RenameNoreplace temporary target]
  | won_and_removed : publication temporary target [RenameNoreplace temporary target; Unlink temporary]
  | deduplicated : publication temporary target [CloseFile]
  | deduplicated_and_removed : publication temporary target [CloseFile; Unlink temporary].

Lemma unlink_effects p s u s' : unlink_missing_ok p s = (Ok u, s') →
  effects s' = effects s ∨ effects s' = effects s ++ [Unlink p].
Proof.
  unfold unlink_missing_ok. intros H. apply bindM_Ok in H as (o & s1 & H & H2). unfold attempt in H.
  destruct (effect_at _ _) as [q|n]; injection H as <- <-.
  - apply retM_Ok in H2 as [_ ->]. by right.
  - left. destruct (not_found n); [by apply retM_Ok in H2 as [_ ->]|]. by apply lift_Ok in H2 as [[=] _].
Qed.

Lemma verify_effects store p d n s u s' : _verify_path store p d n s = (Ok u, s') →
  effects s' = effects s ++ [CloseFile].
Proof. unfold _verify_path. intros H. inv_sys. by apply read_verified_spec in H0 as (_ & _ & _ & _ & ?). Qed.

(** The stream was written, synced and closed. *)
Lemma written_effects p data s u s' :
  finally (_ ← perform (WriteFile p data); _ ← perform (FsyncFile p); mret tt) (λ _, close_file) s = (Ok u, s') →
  effects s' = effects s ++ [WriteFile p data; FsyncFile p; CloseFile].
Proof. intros (s1 & H & Hc)%finally_Ok. unfold close_file in Hc. inv_sys. cbn [effects]. by rewrite <- !app_assoc. Qed.

(** A publication that does not end with a denial, up to the synced directory. *)
Lemma publish_effects store temporary target data s s' :
  finally (publish store temporary target data) (retire temporary target) s = (Ok None, s') →
  ∃ mid, publication temporary target mid ∧ effects s' =
    effects s ++ [WriteFile temporary data; FsyncFile temporary; CloseFile; CloseFile] ++ mid ++
    [FsyncDirectory (path_parent target)].
Proof.
  intros (s1 & Hp & Hr)%finally_Ok. unfold publish in Hp. inv_sys.
  match goal with H : finally _ _ _ = _ |- _ => apply written_effects in H; rename H into E0 end.
  match goal with H : _verify_path _ _ _ _ _ = _ |- _ => apply verify_effects in H; rename H into E1 end.
  rewrite E0 in E1. clear E0. unfold retire, _fsync_directory in Hr. inv_sys.
  match goal with H : unlink_missing_ok _ _ = _ |- _ => apply unlink_effects in H; rename H into E3 end.
  assert (∃ e, (e = RenameNoreplace temporary target ∨ e = CloseFile) ∧ effects s1 = effects s ++
    [WriteFile temporary data; FsyncFile temporary; CloseFile; CloseFile; e]) as (e & He & E2).
  { match goal with H : _rename_noreplace _ _ ?s0 = _ |- _ => rename H into Hn; rename s0 into s2 end.
    assert (effects s2 = effects s ++ [WriteFile temporary data; FsyncFile temporary; CloseFile; CloseFile]) as E0
      by (rewrite E1, <- !app_assoc; done).
    unfold _rename_noreplace, attempt in Hn. apply bindM_Ok in Hn as (o & s9 & Ho & Hn).
    destruct (effect_at (moment s2) _) as [q|n]; injection Ho as <- <-.
    - exists (RenameNoreplace temporary target). inv_sys. split; [auto|]. cbn [effects].
      by rewrite E0, <- app_assoc.
    - destruct (bool_decide _); [|by inv_sys]. apply retM_Ok in Hn as [-> ->].
      apply catch_Ok in Hp as [Hp|(e & s8 & k & _ & Hk & Hk')].
      + exists CloseFile. inv_sys.
        match goal with H : _verify_path _ _ _ _ _ = _ |- _ => apply verify_effects in H; rename H into E4 end.
        split; [auto|]. cbn [effects] in E4. by rewrite E4, E0, <- app_assoc.
      + destruct e; try done. injection Hk as <-. by apply retM_Ok in Hk' as [[=] _]. }
  rewrite E2 in E3. cbn [effects] in *.
  destruct E3 as [-> | ->].
  - exists [e]. rewrite <- !app_assoc. split; [destruct He as [-> | ->]; constructor|done].
  - exists [e; Unlink temporary]. rewrite <- !app_assoc. split; [destruct He as [-> | ->]; constructor|done].
Qed.

(** C26. When [put_bytes] returns, the artifact is published and durable: the temporary was
    written, synced and closed before it was renamed (or an existing artifact was verified in its
    place), the parent directory was synced after that, and only then was the canonical
    path read back and found to hold bytes of the same size and digest. *)
Theorem put_bytes_durable store data media s r s' : put_bytes store data media s = (Ok r, s') →
  let target := artifact_path store (sha256_bytes data) in
  r = reference_of data media ∧ _read_only store = false ∧
  ∃ temporary made mid s1, Forall (λ e, directory_effect e = true) made ∧ publication temporary target mid ∧
    effects s1 = effects s ++ made ++ [Mkstemp (path_parent target) ".artifact-"; WriteFile temporary data;
      FsyncFile temporary; CloseFile; CloseFile] ++ mid ++ [FsyncDirectory (path_parent target)] ∧
    effects s' = effects s1 ++ [CloseFile] ∧
    ∃ bs, length bs = length data ∧ sha256_bytes bs = sha256_bytes data ∧
      authentic target (sha256_bytes data) bs (moment s1) (moment s') ∧
      identities_seen store (moment s1) (moment s').
Proof.
  intros H. cbv zeta. unfold put_bytes in H. inv_sys.
  match goal with H : negb _ = true |- _ => apply negb_true_iff in H; rename H into Hro end.
  match goal with H : check_artifact_ref _ = _ |- _ => apply check_reference_of in H; rename H into Hr end.
  match goal with H : _artifact_parent _ _ _ _ = _ |- _ =>
    destruct (within_parent _ _ _ _ _ _ H) as (_ & made & E1 & Hmade); apply parent_spec in H as [-> _] end.
  unfold _write_atomic in *. rewrite <- app_assoc in *.
  change (["sha256"; take_prefix 2 (sha256_bytes data)] ++ [sha256_bytes data])
    with (relative_artifact_path (sha256_bytes data)) in *.
  fold (artifact_path store (sha256_bytes data)) in *. inv_sys.
  match goal with H : match ?o with Some _ => _ | None => _ end = Ok _ |- _ => destruct o; [done|] end.
  match goal with H : finally _ _ _ = (_, ?s0) |- _ =>
    apply publish_effects in H as (mid & Hmid & E2); rename s0 into s1 end.
  unfold _verify_path in *. inv_sys.
  match goal with H : _read_verified_path _ _ _ _ _ = _ |- _ =>
    apply read_verified_spec in H as (_ & Hz & Ha & Hi & He) end.
  split; [done|]. split; [done|]. eexists _, made, mid, s1. split.
  { eapply Forall_impl; [exact Hmade|]. by intros e (n & [-> | ->]). }
  split; [exact Hmid|]. split; [|split; [done|]].
  { rewrite E2. cbn [effects]. rewrite E1, <- !app_assoc. done. }
  eexists. split; [|split; [|split; [exact Ha|exact Hi]]]; [lia|].
  by destruct Ha as (? & ? & ? & ? & ? & ? & ? & ? & ? & ? & ? & ? & ? & ? & ? & ? & ? & ? & ? & ? & ? & ? & ?).
Qed.

(** What was put is what is got: in whatever worlds the two operations run, bytes that
    [get_bytes] returns for a reference that [put_bytes] returned are the bytes that were
    put, or else they are an exhibited SHA-256 collision of the same length. *)
Theorem put_then_get store data media s r s' s1 bs s2 : put_bytes store data media s = (Ok r, s') →
  get_bytes store r s1 = (Ok bs, s2) →
  bs = data ∨ bs ≠ data ∧ length bs = length data ∧ sha256_bytes bs = sha256_bytes data.
Proof.
  intros Hp Hg. assert (r = reference_of data media) as ->.
  { unfold put_bytes in Hp. inv_sys. by eapply check_reference_of. }
  unfold get_bytes in Hg. inv_sys.
  match goal with H : _read_verified_path _ _ _ _ _ = _ |- _ =>
    apply read_verified_spec in H as (_ & Hz & Ha & _ & _) end.
  destruct Ha as (? & ? & ? & ? & ? & ? & ? & ? & ? & ? & ? & ? & ? & ? & ? & ? & ? & ? & ? & ? & ? & ? & Hh).
  cbn [sha256 size_bytes reference_of] in *.
  destruct (decide (bs = data)); [by left|]. right. split_and!; [done|lia|done].
Qed.

Lemma quiet_snapshot p : quiet (_snapshot_directory_chain p).
Proof.
  unfold quiet, _snapshot_directory_chain. generalize (_paths_below [] p). intros l.
  induction l as [|q l IH]; cbn [mapM_eff]; [apply within_ret|]. solve_within; exact IH.
Qed.

(** Opening an existing store changes nothing, even when it fails; what it returns lies
    below the resolved trusted base, saw each of its directories with the identity it
    remembers, and refuses every publication without touching the file system. *)
Theorem read_only_store_never_writes configured trusted_base s r s' :
  open_existing_read_only configured trusted_base s = (r, s') →
  effects s' = effects s ∧
  ∀ store, r = Ok store →
    (∃ base relative resolved, configured_paths configured trusted_base = Ok (base, relative) ∧
       resolve (FileSystem := fs_at (moment s)) true base = Done resolved ∧ relative ≠ [] ∧
       root store = resolved ++ relative) ∧
    identities_seen store (moment s) (moment s') ∧
    ∀ data media s1, put_bytes store data media s1 =
      (Err (ArtifactCorruptionError "read-only artifact store cannot publish artifacts"), s1).
Proof.
  intros H. assert (quiet (open_existing_read_only configured trusted_base)) as Hq.
  { unfold quiet, open_existing_read_only. solve_within; first [apply quiet_snapshot|apply quiet_chain]. }
  split; [by destruct (quiet_Ok _ _ _ _ Hq H)|]. intros store ->. unfold open_existing_read_only in H. inv_sys.
  destruct a as [base relative]. inv_sys.
  destruct (resolve true base) as [resolved|] eqn:Er; inv_sys.
  match goal with H : _snapshot_directory_chain _ _ = _ |- _ => apply (quiet_Ok _ _ _ _ (quiet_snapshot _)) in H as [T1 _] end.
  split; [|split; [|done]].
  - exists base, relative, resolved. split_and!; try done.
    match goal with H : configured_paths _ _ = _ |- _ => unfold configured_paths in H end. inv_ok. by split_andb.
  - unfold _validate_directory_chain in *. inv_sys.
    match goal with H : forM check_identity _ _ = (Ok ?u, ?s1) |- _ =>
      destruct u; pose proof (check_identities_seen _ _ _ H) as Hseen end.
    match goal with H : forM (λ p, _) _ _ = _ |- _ =>
      assert (quiet (forM (λ p, _ ← _require_exact_entry_name p false; mret tt)
         (_paths_below resolved relative))) as Hn by (unfold quiet; solve_within; apply quiet_exact_name);
      apply (quiet_Ok _ _ _ _ Hn) in H as [T2 _] end.
    cbn [moment] in *. intros q d i Hin. destruct (Hseen q d i Hin) as (t & m & Ht & Hm).
    exists t, m. split; [lia|done].
Qed.
End verified.

(** ** A sample world

    One directory tree with the digest's directories, one file and one temporary, both
    holding the byte [a]; the rename reports that the target exists.  The constant hash
    makes [digest0] the digest of everything. *)

Definition sample_byte : list Byte.byte := [Byte.x61].

Definition sample_metadata (kind : file_kind) (size : Z) : stat_result :=
  {| st_kind := kind; st_perm := 420; st_dev := 1; st_ino := 1; st_nlink := 1; st_size := size; st_mtime_ns := 0;
     st_ctime_ns := 0 |}.

Definition sample_entry (name : string) : DirEntry :=
  {| de_name := Name name; de_stat := Done (sample_metadata Regular 1) |}.

Definition sample_tree (present : bool) : FileSystem :=
  {| lstat := λ p, if Nat.leb (length p) 3 then Done (sample_metadata Directory 0)
                   else if present then Done (sample_metadata Regular 1) else OSError (Some ENOENT);
     scandir := λ _, {| entries := sample_entry <$> ["state"; "sha256"; "00"; zeros 64; ".artifact-x"; "artifacts"];
                        scan_error := None |};
     open_file := λ _, Done {| fd_stat := Done (sample_metadata Regular 1);
                               fd_final_stat := Done (sample_metadata Regular 1);
                               fd_read := λ k _, Done (match k with O => sample_byte | _ => [] end);
                               fd_close := Done tt |};
     resolve := λ _ p, Done p |}.

Definition sample_world (present : bool) : World :=
  {| fs_at := λ _, sample_tree present;
     effect_at := λ _ e, match e with
                         | Mkdir _ | RenameNoreplace _ _ => OSError (Some EEXIST)
                         | Mkstemp directory _ => Done (directory ++ [".artifact-x"])
                         | _ => Done []
                         end |}.

Definition sample_artifacts : FileArtifactStore :=
  {| root := ["state"]; root_is_absolute := true; _read_only := false; _controlled_directories := [["state"]];
     _directory_identities := [(["state"], 1, 1)] |}.

#[local] Existing Instance constant_hashing.

Definition returned {A} (o : result A * sys) : option A := match o.1 with Ok a => Some a | Err _ => None end.

Lemma get_bytes_authentic_witness : ∃ bs s',
  get_bytes (world := sample_world true) sample_artifacts (reference_of sample_byte "text/plain") start = (Ok bs, s') ∧
  authentic (world := sample_world true) (artifact_path sample_artifacts (zeros 64)) (zeros 64) bs 0 (moment s').
Proof.
  destruct (get_bytes (world := sample_world true) sample_artifacts (reference_of sample_byte "text/plain") start)
    as [[bs|e] s'] eqn:E.
  - exists bs, s'. split; [reflexivity|].
    exact (proj1 (proj2 (proj2 (proj2 (get_bytes_authentic (world := sample_world true) _ _ _ _ _ E))))).
  - exfalso. apply (f_equal returned) in E. vm_compute in E. discriminate E.
Defined.

Lemma get_bytes_fails_as_corruption_witness : ∃ e s',
  get_bytes (world := sample_world false) sample_artifacts (reference_of sample_byte "text/plain") start = (Err e, s') ∧
  ∃ msg, e = ArtifactCorruptionError msg.
Proof.
  destruct (get_bytes (world := sample_world false) sample_artifacts (reference_of sample_byte "text/plain") start)
    as [[bs|e] s'] eqn:E.
  - exfalso. apply (f_equal returned) in E. vm_compute in E. discriminate E.
  - exists e, s'. split; [reflexivity|].
    destruct (get_bytes_fails_as_corruption (world := sample_world false) _ _ _ _ _ E)
      as [H|(n & t & _ & _ & H)]; [exact H|discriminate H].
Defined.

Lemma put_bytes_confined_witness : ∃ r s',
  put_bytes (world := sample_world true) sample_artifacts sample_byte "text/plain" start = (Ok r, s') ∧
  ∃ made new, effects s' = made ++ new ∧ Forall (making sample_artifacts (zeros 64)) made ∧
    Forall (publishing sample_artifacts sample_byte ["state"; "sha256"; "00"; ".artifact-x"]) new ∧
    RenameNoreplace ["state"; "sha256"; "00"; ".artifact-x"] (artifact_path sample_artifacts (zeros 64)) ∉ new.
Proof.
  destruct (put_bytes (world := sample_world true) sample_artifacts sample_byte "text/plain" start)
    as [[r|e] s'] eqn:E.
  - exists r, s'. split; [reflexivity|].
    destruct (put_bytes_confined (world := sample_world true) _ _ _ _ _ _ E) as (made & new & En & Hm & Hp).
    exists made, new. split; [exact En|]. split; [exact Hm|]. cbn [effects start app] in En.
    assert (∀ e, e ∈ new → e ∈ effects
      (put_bytes (world := sample_world true) sample_artifacts sample_byte "text/plain" start).2) as Hin
      by (intros e He; rewrite E; cbn [snd]; rewrite En; apply elem_of_app; by right).
    split.
    + destruct Hp as [->|(temporary & t & _ & Ht & Hp)]; [constructor|]. vm_compute in Ht. injection Ht as <-. exact Hp.
    + intros He%Hin. vm_compute in He. repeat (apply elem_of_cons in He as [He|He]; [discriminate He|]).
      by apply not_elem_of_nil in He.
  - exfalso. apply (f_equal returned) in E. vm_compute in E. discriminate E.
Defined.

Lemma put_bytes_durable_witness : ∃ r s',
  put_bytes (world := sample_world true) sample_artifacts sample_byte "text/plain" start = (Ok r, s') ∧
  r = reference_of sample_byte "text/plain".
Proof.
  destruct (put_bytes (world := sample_world true) sample_artifacts sample_byte "text/plain" start)
    as [[r|e] s'] eqn:E.
  - exists r, s'. split; [reflexivity|].
    exact (proj1 (put_bytes_durable (world := sample_world true) _ _ _ _ _ _ E)).
  - exfalso. apply (f_equal returned) in E. vm_compute in E. discriminate E.
Defined.

Lemma put_then_get_witness : ∃ r s' bs s2,
  put_bytes (world := sample_world true) sample_artifacts sample_byte "text/plain" start = (Ok r, s') ∧
  get_bytes (world := sample_world true) sample_artifacts r start = (Ok bs, s2) ∧
  (bs = sample_byte ∨ bs ≠ sample_byte ∧ length bs = length sample_byte ∧
     sha256_bytes bs = sha256_bytes sample_byte).
Proof.
  destruct (put_bytes (world := sample_world true) sample_artifacts sample_byte "text/plain" start)
    as [[r|e] s'] eqn:E.
  2:{ exfalso. apply (f_equal returned) in E. vm_compute in E. discriminate E. }
  assert (r = reference_of sample_byte "text/plain") as Hr.
  { apply (f_equal returned) in E. vm_compute in E. injection E as <-. vm_compute. reflexivity. }
  destruct (get_bytes (world := sample_world true) sample_artifacts r start) as [[bs|e] s2] eqn:G.
  - exists r, s', bs, s2. split; [reflexivity|]. split; [exact G|].
    exact (put_then_get (world := sample_world true) _ _ _ _ _ _ _ _ _ E G).
  - exfalso. rewrite Hr in G. apply (f_equal returned) in G. vm_compute in G. discriminate G.
Defined.

Lemma read_only_store_never_writes_witness : ∃ store s',
  open_existing_read_only (world := sample_world true) ["state"; "artifacts"] None start = (Ok store, s') ∧
  effects s' = [] ∧ root store = ["state"; "artifacts"].
Proof.
  destruct (open_existing_read_only (world := sample_world true) ["state"; "artifacts"] None start)
    as [[store|e] s'] eqn:E.
  - exists store, s'. split; [reflexivity|].
    split; [exact (proj1 (read_only_store_never_writes (world := sample_world true) _ _ _ _ _ E))|].
    apply (f_equal returned) in E. vm_compute in E. injection E as <-. reflexivity.
  - exfalso. apply (f_equal returned) in E. vm_compute in E. discriminate E.
Defined.
