(* ===== verification/Fixture.v ===== *)
(** * Fixtures (src/guildmind/evaluation/local.py and runtime/fixture.py)

    A fixture's manifest is loaded into a specification whose workspace and tests are
    captured, and materialized as artifacts and a task.  The task's content hash is taken
    over everything an evaluation depends on. *)

From coqutil Require Import Datatypes.RecordSettersUsingExistingGetters.
From S2P Require Import Prelude Order Loop Effects PyStr Files Float64 Json Text Patch Hash Datetime Fields.
From S2P Require Import Usage Models Specs LocalEvaluation Protocol Artifacts.

Local Open Scope Z_scope.

Section fixture.
Context {hashing : Hashing} {world : World} {workspaces : Workspaces}.
Variable patience : positive.

(** ** Loading a manifest *)

(** [a.resolve()] *)
Definition resolve_path (p : path) : Sys path := o ← call (λ _, resolve false p); raise_error o.

(** Whether a path is below a directory, as both are resolved. *)
Definition resolves_within (p directory : path) : Sys bool :=
  a ← resolve_path p; b ← resolve_path directory; mret (_is_within a b).

Definition cases_outside : string := "evaluation cases must be outside the submitted workspace".

(** [_optional_python_call_protocol(raw, fixture_root=..., workspace=...)] *)
Definition _optional_python_call_protocol (raw : dict) (fixture_root workspace : path) : Sys (option PythonCallProtocol) :=
  match jget raw "evaluation_protocol" with
  | None | Some JNull => mret None
  | Some (JObj value) =>
      _ ← lift (configured (exactly_keys ["kind"; "module"; "callable"; "cases_file"] value)
            "evaluation_protocol must contain exactly kind, module, callable, and cases_file");
      kind ← lift (_required_string value "kind");
      _ ← lift (configured (str_eqb kind "python-call-v1") "unsupported evaluation protocol");
      cases ← lift (_required_string value "cases_file" ≫= _plain_relative_path);
      let cases_file := fixture_root ++ cases in
      inside ← (if _is_within cases_file workspace then mret true else resolves_within cases_file workspace);
      _ ← lift (configured (negb inside) cases_outside);
      module_name ← lift (_required_string value "module");
      callable ← lift (_required_string value "callable");
      sealed ← _read_regular_file patience cases_file;
      protocol ← lift (check_protocol
        {| pc_module := module_name; pc_callable_name := callable; pc_cases_file := cases_file;
           pc_sealed_cases_bytes := Some sealed |});
      mret (Some protocol)
  | Some _ => lift (misconfigured "evaluation_protocol must be an object")
  end.

(** One visible test, found again in the frozen workspace. *)
Definition frozen_visible (workspace_source workspace visible_test : path) : Sys path :=
  resolved ← (if _is_within visible_test workspace_source then resolves_within visible_test workspace_source
              else mret false);
  _ ← lift (configured resolved "visible tests must be inside the submitted workspace");
  let frozen := workspace ++ default [] (LocalEvaluation.relative_to visible_test workspace_source) in
  link ← is_symlink frozen;
  file ← (if (link : bool) then mret false else ask_os (λ n, is_file n frozen));
  _ ← lift (configured file "visible evaluator test must be a regular file");
  mret frozen.

(** A hidden test may not be in the workspace. *)
Definition hidden_outside (workspace_source hidden_test : path) : Sys unit :=
  inside ← (if _is_within hidden_test workspace_source then mret true
            else resolves_within hidden_test workspace_source);
  lift (configured (negb inside) "hidden tests must be outside the submitted workspace").

(** The manifest's bytes as a JSON object. *)
Definition manifest_object (data : list Byte.byte) : result dict :=
  raw ← except (λ e, match e with
                     | UnicodeDecodeError _ | JSONDecodeError _ => FixtureConfigurationError "cannot read fixture manifest"
                     | _ => e
                     end) (loads_bytes false data);
  match raw with JObj o => Ok o | _ => misconfigured "fixture manifest must contain a JSON object" end.

(** [tuple(fixture_root / _plain_relative_path(value) for value in values)] *)
Definition fixture_paths (fixture_root : path) (values : list string) : result (list path) :=
  mapR (λ value, p ← _plain_relative_path value; Ok (fixture_root ++ p)) values.

(** The construction of the specification from the manifest's fields. *)
Definition spec_of_manifest (raw : dict) (frozen : _FrozenWorkspace) (visible hidden : list path)
    (tests : list _FrozenEvaluatorTest) (protocol : option PythonCallProtocol) (expected : Z)
    : result LocalEvaluationSpec :=
  task_id ← _required_string raw "task_id";
  allowed ← _required_string_list raw "allowed_patch_paths";
  timeout ← _optional_positive_number raw "timeout_seconds" (float_of_Z 5);
  output ← _optional_positive_integer raw "max_output_bytes" 8192;
  patch_bytes ← _optional_positive_integer raw "max_patch_bytes" 65536;
  patch_files ← _optional_positive_integer raw "max_patch_files" 8;
  text ← canonical_json (JObj raw);
  check_spec
    {| sp_task_id := task_id; pristine_workspace := fw_root frozen; hidden_test_files := hidden;
       allowed_patch_paths := allowed; visible_test_files := visible; timeout_seconds := timeout;
       max_output_bytes := output; sp_max_patch_bytes := patch_bytes; max_patch_files := patch_files;
       expected_test_count := expected; python_call_protocol := protocol;
       pristine_workspace_sha256 := Some (fw_snapshot_sha256 frozen); sp_task_content_hash := None;
       fixture_manifest_bytes := Some (utf8_encode text); _frozen_workspace := Some frozen;
       _frozen_hidden_tests := tests |}.

(** [replace(spec, python_call_protocol=replace(protocol, sealed_cases_bytes=...))] *)
Definition seal_cases (s : LocalEvaluationSpec) (protocol : PythonCallProtocol) : Sys LocalEvaluationSpec :=
  bundle ← load_python_call_bundle protocol (expected_test_count s);
  sealed ← lift (check_protocol
    {| pc_module := pc_module protocol; pc_callable_name := pc_callable_name protocol;
       pc_cases_file := pc_cases_file protocol; pc_sealed_cases_bytes := Some (oracle_bytes bundle) |});
  lift (check_spec (s <| python_call_protocol := Some sealed |>)).

(** [LocalEvaluationSpec.from_fixture(fixture_root)], which [load_fixture] calls *)
Definition from_fixture (fixture_root : path) : Sys LocalEvaluationSpec :=
  source ← _read_regular_file patience (fixture_root ++ ["task.json"]);
  raw ← lift (manifest_object source);
  schema_version ← lift (_required_string raw "schema_version");
  _ ← lift (configured (str_eqb schema_version "guildmind.fixture/v1") "unsupported fixture schema");
  workspace_relative ← lift (_required_string raw "workspace_dir" ≫= _plain_relative_path);
  let workspace_source := fixture_root ++ workspace_relative in
  frozen ← _freeze_workspace patience workspace_source;
  visible_sources ← lift (_required_string_list raw "visible_test_files" ≫= fixture_paths fixture_root);
  visible ← mapM_eff (frozen_visible workspace_source (fw_root frozen)) visible_sources;
  hidden_sources ← lift (_required_string_list raw "hidden_test_files" ≫= fixture_paths fixture_root);
  _ ← forM (hidden_outside workspace_source) hidden_sources;
  tests ← _freeze_evaluator_tests patience hidden_sources (path_parent (fw_root frozen) ++ ["grader"]);
  protocol ← _optional_python_call_protocol raw fixture_root workspace_source;
  expected ← lift (_required_positive_integer raw "expected_test_count");
  spec ← lift (spec_of_manifest raw frozen visible tests.1 tests.2 protocol expected);
  match protocol with None => mret spec | Some p => seal_cases spec p end.

(** ** Materializing a task (runtime/fixture.py) *)

(** One file of the workspace, in the snapshot's form. *)
Definition snapshot_file (base : path) (parts : list string) : Sys (list json) :=
  link ← is_symlink (base ++ parts);
  _ ← lift (require (negb link) (ValueError "fixture workspace contains a symlink"));
  file ← ask_os (λ n, is_file n (base ++ parts));
  if (file : bool) then
    data ← ask_os (λ n, read_bytes n (base ++ parts));
    mret [JObj [("content_base64", JStr (b64encode data)); ("path", JStr (join "/" parts));
                ("sha256", JStr (sha256_bytes data)); ("size_bytes", JInt (Z.of_nat (length data)))]]
  else mret [].

(** [_canonical_tree_snapshot(root)] *)
Definition _canonical_tree_snapshot (base : path) : Sys json :=
  paths ← ask_os (λ n, rglob n base);
  files ← mapM_eff (snapshot_file base) (sort_by (λ p, p) paths);
  mret (JObj [("schema_version", JStr "guildmind.tree/v1"); ("files", JArr (concat files))]).

(** The manifest as a JSON object, and its problem statement. *)
Definition read_manifest (manifest_bytes : list Byte.byte) : result (dict * string) :=
  raw ← loads_bytes false manifest_bytes;
  o ← match raw with JObj o => Ok o | _ => Err (ValidationError "dict_type") end;
  match jget o "problem_statement" with
  | Some (JStr s) =>
      _ ← require (py_strip_nonempty s) (ValueError "fixture problem_statement must be a non-empty string");
      Ok (o, s)
  | _ => Err (ValueError "fixture problem_statement must be a non-empty string")
  end.

(** How many visible tests the manifest names. *)
Definition visible_paths (raw : dict) : result (list string) :=
  match jget raw "visible_test_files" with
  | None => Ok []
  | Some (JArr l) =>
      mapR (λ v, match v with JStr s => Ok s | _ => Err (ValueError "visible_test_files must be a string list") end) l
  | Some _ => Err (ValueError "visible_test_files must be a string list")
  end.

(** What the call protocol contributes to a task's identity. *)
Definition protocol_identity (s : LocalEvaluationSpec) : Sys json :=
  match python_call_protocol s with
  | None => mret JNull
  | Some p =>
      bundle ← load_python_call_bundle p (expected_test_count s);
      mret (JObj [("challenge_sha256", JStr (challenge_sha256 bundle)); ("oracle_sha256", JStr (oracle_sha256 bundle));
                  ("protocol", JStr "python-call-v1")])
  end.

(** The value a task's content hash is taken over. *)
Definition task_identity (protocol : json) (raw : dict) (hidden_hashes : list string) (snapshot : string) : json :=
  JObj [("evaluation_protocol", protocol); ("fixture_manifest", JObj raw);
        ("hidden_test_hashes", JArr (JStr <$> hidden_hashes)); ("repository_snapshot_sha256", JStr snapshot)].

(** The snapshot's bytes: captured with the fixture, or taken now. *)
Definition snapshot_bytes (s : LocalEvaluationSpec) : Sys (list Byte.byte) :=
  match pristine_workspace_snapshot_bytes s with
  | Some bs => mret bs
  | None =>
      tree ← _canonical_tree_snapshot (pristine_workspace s);
      text ← lift (canonical_json tree);
      mret (utf8_encode text)
  end.

(** The manifest's bytes: captured with the fixture, or read now. *)
Definition manifest_bytes_of (fixture_root : path) (s : LocalEvaluationSpec) : Sys (list Byte.byte) :=
  match fixture_manifest_bytes s with
  | Some bs => mret bs
  | None => ask_os (λ n, read_bytes n (fixture_root ++ ["task.json"]))
  end.

(** [materialize_fixture_task] after [load_fixture], on the specification it returned *)
Definition materialize_spec (fixture_root : path) (store : FileArtifactStore) (evaluator_version environment_digest : string)
    (spec : LocalEvaluationSpec) : Sys (TaskSpec * LocalEvaluationSpec * string) :=
  manifest_bytes ← manifest_bytes_of fixture_root spec;
  manifest ← lift (read_manifest manifest_bytes);
  let '(raw, statement) := (manifest : dict * string) in
  snapshot ← snapshot_bytes spec;
  repository_ref ← put_bytes store snapshot "application/vnd.guildmind.tree+json";
  _ ← lift (require match pristine_workspace_sha256 spec with Some d => str_eqb d (sha256 repository_ref) | None => true end
        (ValueError "frozen workspace identity does not match its snapshot bytes"));
  problem ← put_text store statement "text/plain; charset=utf-8";
  visible_names ← lift (visible_paths raw);
  _ ← lift (require (Nat.eqb (length visible_names) (length (visible_test_files spec)))
        (ValueError "visible tests do not match the frozen fixture specification"));
  visible ← visible_test_bytes patience spec;
  visible_refs ← mapM_eff (λ bs, put_bytes store bs "text/x-python") visible;
  hidden ← hidden_test_bytes patience spec;
  protocol ← protocol_identity spec;
  task_hash ← lift (canonical_sha256 (task_identity protocol raw (sha256_bytes <$> hidden) (sha256 repository_ref)));
  task ← lift (check_task
    {| ts_task_id := sp_task_id spec; source := "guildmind-fixture-v1"; split_name := "fixture";
       repository := "guildmind/fixtures/" +:+ path_name fixture_root; repository_commit := "fixture-v1";
       image_digest := environment_digest; task_content_hash := task_hash; problem_statement := problem;
       repository_snapshot := repository_ref; visible_tests := visible_refs;
       metadata := [("evaluator_version", JStr evaluator_version); ("network_required", JBool false)] |});
  bound ← lift (bind_identity spec (sha256 repository_ref) task_hash);
  mret (task, bound, statement).

(** [materialize_fixture_task(fixture_root, artifact_store, ...)] *)
Definition materialize_fixture_task (fixture_root : path) (store : FileArtifactStore)
    (evaluator_version environment_digest : string) : Sys (TaskSpec * LocalEvaluationSpec * string) :=
  spec ← from_fixture fixture_root;
  materialize_spec fixture_root store evaluator_version environment_digest spec.
End fixture.
