(* ===== verification/SampleFixture.v ===== *)
(** * A concrete fixture

    A fixture directory with one module, one visible test, one hidden test and one call
    case, an artifact store, and the machine that serves both.  The hash is a
    checksum, cheap enough to evaluate and different on the few texts that occur. *)

From S2P Require Import Prelude Order Loop Effects PyStr Files Float64 Json Text Patch Hash Datetime Fields.
From S2P Require Import Usage Models Specs LocalEvaluation Protocol ProtocolFacts Artifacts ArtifactFacts Fixture.

Local Open Scope Z_scope.

(** ** A checksum *)

Definition checksum (bs : list Byte.byte) : N :=
  N.land (fold_left (λ acc b, acc + Byte.to_N b) bs 5381 * 11400714819323198485)%N (N.ones 64).
Definition sample_digest (bs : list Byte.byte) : string :=
  let word := Sha256.hex_word 16 (checksum bs) in word +:+ word +:+ word +:+ word.
Definition sample_hashing : Hashing.
Proof.
  refine {| sha256_bytes := sample_digest |}.
  intros bs. unfold is_lower_sha256, is_lower_hex, sample_digest.
  by rewrite !str_length_app, !str_all_app, !Sha256.hex_word_length, !Sha256.hex_word_lower.
Defined.

(** ** The machine *)

Definition fixture_manifest : string :=
  dumps (JObj [("schema_version", JStr "guildmind.fixture/v1"); ("task_id", JStr "task-1");
    ("problem_statement", JStr "Make the test pass."); ("workspace_dir", JStr "ws");
    ("visible_test_files", JArr [JStr "ws/test_app.py"]); ("hidden_test_files", JArr [JStr "hidden/test_hidden.py"]);
    ("allowed_patch_paths", JArr [JStr "app.py"]); ("expected_test_count", JInt 1);
    ("evaluation_protocol", JObj [("kind", JStr "python-call-v1"); ("module", JStr "app"); ("callable", JStr "run");
                                  ("cases_file", JStr "hidden/cases.json")])]).
Definition fixture_cases : string :=
  dumps (JObj [("schema_version", JStr _ORACLE_SCHEMA);
    ("cases", JArr [JObj [("case_id", JStr "case-0001"); ("args", JArr [JInt 1]); ("kwargs", JObj []);
                          ("expected", JObj [("kind", JStr "returned"); ("value", JInt 2)])]])]).

Definition fixture_files : list (path * list Byte.byte) :=
  [(["fix"; "task.json"], utf8_encode fixture_manifest);
   (["fix"; "ws"; "app.py"], utf8_encode "def run(n): return n");
   (["fix"; "ws"; "test_app.py"], utf8_encode "import app");
   (["fix"; "hidden"; "test_hidden.py"], utf8_encode "import app, sys");
   (["fix"; "hidden"; "cases.json"], utf8_encode fixture_cases)].

Definition fixture_directories : list path :=
  [["fix"]; ["fix"; "ws"]; ["state"]; ["state"; "artifacts"]; ["state"; "artifacts"; "sha256"]].

(** The directories below [sha256]. *)
Definition hex_pairs : list string :=
  Eval vm_compute in (λ n, Sha256.hex_word 2 (N.of_nat n)) <$> seq 0 256.

Section machine.
(** The digests of what was put, and the bytes. *)
Context (known : list (string * list Byte.byte)).

(** An artifact that was put, or the temporary next to it. *)
Definition stored_bytes (p : path) : option (list Byte.byte) :=
  snd <$> (if str_eqb (path_name p) ".artifact-x"
           then List.find (λ d, str_eqb (take_prefix 2 d.1) (path_name (path_parent p))) known
           else List.find (λ d, str_eqb d.1 (path_name p)) known).

Definition file_bytes (p : path) : option (list Byte.byte) :=
  match List.find (λ f, bool_decide (f.1 = p)) fixture_files with
  | Some f => Some f.2
  | None => if bool_decide (take 3 p = ["state"; "artifacts"; "sha256"]) && Nat.eqb (length p) 5 then stored_bytes p else None
  end.

Definition is_directory (p : path) : bool :=
  bool_decide (p ∈ fixture_directories) || bool_decide (take 3 p = ["state"; "artifacts"; "sha256"]) && Nat.eqb (length p) 4.

Definition regular (d : list Byte.byte) : stat_result := sample_metadata Regular (Z.of_nat (length d)).

Definition fixture_tree : FileSystem :=
  {| lstat := λ p, match file_bytes p with
                   | Some d => Done (regular d)
                   | None => if is_directory p then Done (sample_metadata Directory 0) else OSError (Some ENOENT)
                   end;
     scandir := λ p,
       {| entries := (λ n, sample_entry n) <$> (["state"; "artifacts"; "sha256"; ".artifact-x"] ++
            (if bool_decide (p = ["state"; "artifacts"; "sha256"]) then hex_pairs else []) ++
            known.*1);
          scan_error := None |};
     open_file := λ p, match file_bytes p with
                       | Some d => Done {| fd_stat := Done (regular d); fd_final_stat := Done (regular d);
                                           fd_read := λ k _, Done (match k with O => d | _ => [] end);
                                           fd_close := Done tt |}
                       | None => OSError (Some ENOENT)
                       end;
     resolve := λ _ p, Done p |}.

Definition fixture_world : World :=
  {| fs_at := λ _, fixture_tree;
     effect_at := λ _ e, match e with
                         | Mkdir _ | RenameNoreplace _ _ => OSError (Some EEXIST)
                         | Mkstemp directory _ => Done (directory ++ [".artifact-x"])
                         | _ => Done []
                         end |}.
End machine.

Definition fixture_workspaces : Workspaces :=
  {| walk := λ _ _, []; rglob := λ _ _, Done [["app.py"]; ["test_app.py"]]; copytree := λ _ _ _, Done tt;
     git_apply := λ _ _ _ _, Completed 0 []; temporary_directory := λ _ _, Done ["tmp"]; remove_tree := λ _ _, Done tt;
     make_directory := λ _ _ _ _, Done tt; read_bytes := λ _ p, OSError (Some ENOENT); is_file := λ _ _, Done true;
     write_bytes := λ _ _ _, Done tt; chmod := λ _ _ _, Done tt |}.

Definition fixture_store : FileArtifactStore :=
  {| root := ["state"; "artifacts"]; root_is_absolute := true; _read_only := false;
     _controlled_directories := [["state"; "artifacts"]];
     _directory_identities := [(["state"; "artifacts"], 1, 1)] |}.

(** ** What is put *)

(** The texts a program writes; a machine that does not know them yet stops it at the first. *)
Definition written (s : sys) : list (string * list Byte.byte) :=
  flat_map (λ e, match e with WriteFile _ d => [(sample_digest d, d)] | _ => [] end) (effects s).
Fixpoint learn (rounds : nat) (run : list (string * list Byte.byte) → sys) (known : list (string * list Byte.byte))
    : list (string * list Byte.byte) :=
  match rounds with
  | O => known
  | S rounds =>
      let fresh := List.filter (λ d, negb (existsb (λ k, str_eqb k.1 d.1) known)) (written (run known)) in
      learn rounds run (known ++ fresh)
  end.

Abbreviation sample_task evaluator known :=
  (materialize_fixture_task (hashing := sample_hashing) (world := fixture_world known) (workspaces := fixture_workspaces)
    10 ["fix"] fixture_store evaluator ("sha256:" +:+ zeros 64) start).
Definition task_texts : list (string * list Byte.byte) := Eval vm_compute in learn 3 (λ known, (sample_task "evaluator-1" known).2) [].

Example task_materializes : is_ok (sample_task "evaluator-1" task_texts).1 = true.
Proof. vm_compute. reflexivity. Qed.
