(* ===== verification/FixtureFacts.v ===== *)
(** * What a loaded fixture is worth

    A specification that [from_fixture] returns is closed: its tests, its workspace, its
    manifest and its cases are the bytes that were captured, whatever becomes of the
    fixture's directory.  The content hash of a task commits to all of them. *)

From Stdlib Require Import Ascii.
From S2P Require Import Prelude Order Loop Effects PyStr Files Float64 Json Text Patch Hash Datetime Fields.
From S2P Require Import Usage Models Specs LocalEvaluation Protocol ProtocolFacts Artifacts ArtifactFacts Fixture SampleFixture.

Local Open Scope Z_scope.

(** A program that only answers: it never touches the machine. *)
Lemma mapM_eff_answers {S A B} (f : A → eff S B) (g : A → result B) l s :
  (∀ x, x ∈ l → f x s = (g x, s)) → mapM_eff f l s = (mapR g l, s).
Proof.
  induction l as [|x l IH]; intros Hf; [done|]. cbn [mapM_eff mapR].
  unfold mbind, eff_bind. rewrite Hf by apply list_elem_of_here.
  destruct (g x) as [y|e]; [|done]. cbn [mbind result_bind].
  rewrite IH by (intros; apply Hf; by apply list_elem_of_further). by destruct (mapR g l).
Qed.

Section closed.
Context {hashing : Hashing}.

(** The bytes of a visible test in the captured workspace. *)
Definition captured_visible (w : _FrozenWorkspace) (p : path) : result (list Byte.byte) :=
  match LocalEvaluation.relative_to p (fw_root w) with
  | Some parts =>
      match List.find (λ e, str_eqb (fe_relative_path e) (join "/" parts) && present (fe_data e)) (fw_entries w) with
      | Some e => Ok (default [] (fe_data e))
      | None => misconfigured "visible evaluator test is not a captured regular file"
      end
  | None => misconfigured "visible tests must be inside the submitted workspace"
  end.

(** A specification with everything captured. *)
Record closed (s : LocalEvaluationSpec) (raw : dict) (w : _FrozenWorkspace) : Prop := {
  cl_wf : json_wf (JObj raw) = true;
  cl_manifest : ∃ text, canonical_json (JObj raw) = Ok text ∧ fixture_manifest_bytes s = Some (utf8_encode text);
  cl_workspace : _frozen_workspace s = Some w;
  cl_snapshot : pristine_workspace_sha256 s = Some (sha256_bytes (fw_snapshot_bytes w));
  cl_visible : Forall (λ p, _is_within p (fw_root w) = true) (visible_test_files s);
  cl_hidden : hidden_test_files s = ft_path <$> _frozen_hidden_tests s;
  cl_distinct : NoDup (hidden_test_files s);
  cl_sealed : ∀ p, python_call_protocol s = Some p → ∃ p0 raw_cases bundle, pc_sealed_cases_bytes p = Some (oracle_bytes bundle) ∧
    bundle_of_bytes p0 (expected_test_count s) raw_cases = Ok bundle;
}.

(** Every hidden test is found among the captured ones. *)
Lemma find_frozen (tests : list _FrozenEvaluatorTest) t : NoDup (ft_path <$> tests) → t ∈ tests →
  List.find (λ t', bool_decide (ft_path t = ft_path t')) tests = Some t.
Proof.
  induction tests as [|t0 tests IH]; [by intros _ ?%not_elem_of_nil|].
  rewrite fmap_cons, NoDup_cons, elem_of_cons. intros [Hn Hd] Hin. cbn [List.find]. case_bool_decide as E.
  - destruct Hin as [->|Hin]; [done|]. destruct Hn. rewrite <- E. by apply list_elem_of_fmap_2.
  - destruct Hin as [->|Hin]; [done|]. by apply IH.
Qed.

Lemma relative_to_below d parts : LocalEvaluation.relative_to (d ++ parts) d = Some parts.
Proof. induction d as [|c d IH]; [by destruct parts|]. cbn. unfold str_eqb. by rewrite String.eqb_refl. Qed.

Lemma manifest_object_wf data o : manifest_object data = Ok o → json_wf (JObj o) = true.
Proof.
  unfold manifest_object, loads_bytes. intros H. apply bind_Ok in H as (v & Hv%except_Ok & H).
  apply bind_Ok in Hv as (text & _ & Hv%loads_with_wf). destruct v; try done. by injection H as ->.
Qed.

Lemma check_spec_same s s' : check_spec s = Ok s' → s' = s ∧ NoDup (path_name <$> visible_test_files s ++ hidden_test_files s).
Proof. unfold check_spec, configured. intros H. inv_ok. split; [done|]. by split_andb. Qed.

Section world.
Context {world : World} {workspaces : Workspaces} (patience : positive).

Lemma freeze_snapshot source s w s' : _freeze_workspace patience source s = (Ok w, s') →
  fw_snapshot_sha256 w = sha256_bytes (fw_snapshot_bytes w).
Proof.
  unfold _freeze_workspace. intros (o & s1 & _ & H)%bindM_Ok. destruct o as [m|n]; [|by apply lift_Ok in H as [[=] _]].
  do 10 (apply bindM_Ok in H as (? & ? & _ & H)). by apply retM_Ok in H as [-> _].
Qed.

Lemma freeze_tests sources destination s r s' : _freeze_evaluator_tests patience sources destination s = (Ok r, s') →
  r.1 = ft_path <$> r.2.
Proof.
  unfold _freeze_evaluator_tests. intros H. do 4 (apply bindM_Ok in H as (? & ? & _ & H)).
  by apply retM_Ok in H as [-> _].
Qed.

Lemma frozen_visible_within source workspace p s q s' : frozen_visible source workspace p s = (Ok q, s') →
  _is_within q workspace = true.
Proof.
  unfold frozen_visible. intros H. do 5 (apply bindM_Ok in H as (? & ? & _ & H)).
  apply retM_Ok in H as [-> _]. unfold _is_within. by rewrite relative_to_below.
Qed.

Lemma mapM_eff_Ok {S A B} (P : B → Prop) (f : A → eff S B) l s r s' :
  (∀ x s b s', f x s = (Ok b, s') → P b) → mapM_eff f l s = (Ok r, s') → Forall P r.
Proof.
  intros Hf. revert s r s'. induction l as [|x l IH]; intros s r s'; cbn [mapM_eff].
  - intros [-> _]%retM_Ok. constructor.
  - intros (y & s1 & Hy & (ys & s2 & Hys & [-> _]%retM_Ok)%bindM_Ok)%bindM_Ok. eauto.
Qed.

(** A loaded specification before its cases are sealed. *)
Lemma spec_of_manifest_fields raw w visible hidden tests protocol n s :
  spec_of_manifest raw w visible hidden tests protocol n = Ok s →
  (∃ text, canonical_json (JObj raw) = Ok text ∧ fixture_manifest_bytes s = Some (utf8_encode text)) ∧
  _frozen_workspace s = Some w ∧ pristine_workspace_sha256 s = Some (fw_snapshot_sha256 w) ∧
  visible_test_files s = visible ∧ hidden_test_files s = hidden ∧ _frozen_hidden_tests s = tests ∧
  python_call_protocol s = protocol ∧ NoDup (hidden_test_files s).
Proof.
  unfold spec_of_manifest. intros H. do 6 (apply bind_Ok in H as (? & _ & H)).
  apply bind_Ok in H as (text & Ht & [-> Hd]%check_spec_same). cbn in Hd |- *. split_and!; eauto.
  rewrite fmap_app in Hd. apply NoDup_app in Hd as (_ & _ & Hd). by apply NoDup_fmap_1 in Hd.
Qed.

Lemma load_bundle_sealed p n raw s b s' : pc_sealed_cases_bytes p = Some raw →
  load_python_call_bundle p n s = (Ok b, s') → bundle_of_bytes p n raw = Ok b.
Proof. unfold load_python_call_bundle. intros ->. by intros [H _]%lift_Ok. Qed.

Lemma protocol_sealed raw base workspace s p s' :
  _optional_python_call_protocol patience raw base workspace s = (Ok (Some p), s') → present (pc_sealed_cases_bytes p) = true.
Proof.
  unfold _optional_python_call_protocol. destruct (jget raw "evaluation_protocol") as [[| | | | | |v]|]; intros H;
    try (by apply retM_Ok in H as [[=] _]); try (by apply lift_Ok in H as [[=] _]).
  do 9 (apply bindM_Ok in H as (? & ? & _ & H)). apply bindM_Ok in H as (q & ? & Hq & H).
  apply retM_Ok in H as [[= <-] _]. apply lift_Ok in Hq as [Hq _].
  unfold check_protocol in Hq. by inv_ok.
Qed.

(** What [from_fixture] returns is closed. *)
Lemma from_fixture_closed base s spec s' : from_fixture patience base s = (Ok spec, s') → ∃ raw w, closed spec raw w.
Proof.
  unfold from_fixture. intros H. apply bindM_Ok in H as (? & ? & _ & H).
  apply bindM_Ok in H as (raw & ? & [Hraw%manifest_object_wf _]%lift_Ok & H).
  do 3 (apply bindM_Ok in H as (? & ? & _ & H)).
  apply bindM_Ok in H as (w & ? & Hw%freeze_snapshot & H). apply bindM_Ok in H as (? & ? & _ & H).
  apply bindM_Ok in H as (visible & ? & Hv & H).
  apply mapM_eff_Ok with (P := λ p, _is_within p (fw_root w) = true) in Hv; [|intros; by eapply frozen_visible_within].
  do 2 (apply bindM_Ok in H as (? & ? & _ & H)). apply bindM_Ok in H as (tests & ? & Ht%freeze_tests & H).
  apply bindM_Ok in H as (protocol & ? & Hp & H). apply bindM_Ok in H as (n & ? & _ & H).
  apply bindM_Ok in H as (spec0 & ? & [Hs%spec_of_manifest_fields _]%lift_Ok & H).
  destruct Hs as (Hm & Ew & Es & Ev & Eh & Et & Ep & Hd). exists raw, w. rewrite Hw in Es.
  destruct protocol as [p|].
  - unfold seal_cases in H. apply bindM_Ok in H as (b & ? & Hb & H). apply bindM_Ok in H as (q & ? & [Hq _]%lift_Ok & H).
    apply lift_Ok in H as [[-> _]%check_spec_same _]. apply protocol_sealed in Hp.
    destruct (pc_sealed_cases_bytes p) as [cs|] eqn:Hc; [|done]. eapply load_bundle_sealed in Hb; [|exact Hc].
    constructor; cbn; try done; [by rewrite Ev|by rewrite Eh, Et, Ht|].
    intros p' [= <-]. unfold check_protocol in Hq. inv_ok. cbn. eauto 6.
  - apply retM_Ok in H as [-> _]. constructor; try done; [by rewrite Ev|by rewrite Eh, Et, Ht|].
    intros p' Hp'. congruence.
Qed.

(** The calls of cases that can be written can be written. *)
Lemma calls_finite p cs : finite_json (oracle_of (case_json <$> cs)) = true →
  finite_json (challenge_of p (call_json <$> cs)) = true.
Proof.
  cbn. rewrite !andb_true_r. induction cs as [|c cs IH]; [done|]. cbn. rewrite !andb_true_r. intros H. split_andb.
  rewrite IH by done. by repeat (apply andb_true_iff; split).
Qed.

(** ** Closed specifications answer without the machine *)

Section answers.
Context (s : LocalEvaluationSpec) (raw : dict) (w : _FrozenWorkspace) (C : closed s raw w).

Lemma hidden_answers st : hidden_test_bytes patience s st = (Ok (ft_data <$> _frozen_hidden_tests s), st).
Proof.
  pose proof (cl_distinct _ _ _ C) as Hd. rewrite (cl_hidden _ _ _ C) in Hd.
  unfold hidden_test_bytes. rewrite (cl_hidden _ _ _ C).
  assert (mapM_eff (_hidden_test_payload patience s) (ft_path <$> _frozen_hidden_tests s) st =
    (Ok ((λ t, (ft_data t, ft_mode t, path_name (ft_path t))) <$> _frozen_hidden_tests s), st)) as E.
  { assert (∀ l, l ⊆ _frozen_hidden_tests s → mapM_eff (_hidden_test_payload patience s) (ft_path <$> l) st =
      (Ok ((λ t, (ft_data t, ft_mode t, path_name (ft_path t))) <$> l), st)) as Hl; [|apply Hl; done].
    induction l as [|t l IH]; intros Hsub; [done|]. cbn [fmap list_fmap mapM_eff].
    unfold mbind, eff_bind. unfold _hidden_test_payload at 1.
    rewrite (find_frozen _ _ Hd) by (apply Hsub; left). cbn [mret eff_ret].
    rewrite IH by (intros x Hx; apply Hsub; by right). done. }
  unfold mbind, eff_bind. rewrite E. unfold mret, eff_ret. by rewrite <- list_fmap_compose.
Qed.

Lemma visible_answer p st : _is_within p (fw_root w) = true →
  ∃ r, _visible_test_payload patience s p st = (r, st) ∧ (λ x, x.1.1) <$> r = captured_visible w p.
Proof.
  unfold _visible_test_payload, captured_visible, _is_within. rewrite (cl_workspace _ _ _ C).
  destruct (LocalEvaluation.relative_to p (fw_root w)) as [parts|]; [intros _|done].
  destruct (List.find _ (fw_entries w)) as [e|]; eexists; (split; [reflexivity|reflexivity]).
Qed.

Lemma visible_answers st : visible_test_bytes patience s st = (mapR (captured_visible w) (visible_test_files s), st).
Proof.
  pose proof (cl_visible _ _ _ C) as Hv. unfold visible_test_bytes. unfold mbind, eff_bind.
  induction Hv as [|p l Hp _ IH]; [done|]. cbn [mapM_eff mapR]. unfold mbind, eff_bind.
  destruct (visible_answer p st Hp) as (r & -> & <-). destruct r as [x|e]; [|done].
  destruct (mapM_eff _ l st) as [[r|e'] st2]; cbn [fmap list_fmap result_fmap mret eff_ret mbind result_bind] in IH |- *;
    injection IH as IH <-; by destruct (mapR (captured_visible w) l); simplify_eq.
Qed.

Lemma snapshot_answers st : snapshot_bytes s st = (Ok (fw_snapshot_bytes w), st).
Proof. unfold snapshot_bytes, pristine_workspace_snapshot_bytes. by rewrite (cl_workspace _ _ _ C). Qed.

Lemma manifest_answers base text st : canonical_json (JObj raw) = Ok text →
  manifest_bytes_of base s st = (Ok (utf8_encode text), st).
Proof.
  intros Ht. destruct (cl_manifest _ _ _ C) as (text' & Ht' & E). unfold manifest_bytes_of. rewrite E.
  by rewrite Ht in Ht'; injection Ht' as ->.
Qed.

(** The cases of a closed specification are sealed: reading them again either refuses them,
    by their size, or gives the same oracle. *)
Lemma cases_answer p : python_call_protocol s = Some p → ∃ bs r, pc_sealed_cases_bytes p = Some bs ∧
  (∀ st, load_python_call_bundle p (expected_test_count s) st = (r, st)) ∧ ∀ b, r = Ok b → oracle_bytes b = bs.
Proof.
  intros Hp. destruct (cl_sealed _ _ _ C p Hp) as (p0 & cases & b0 & Hs & Hb0).
  exists (oracle_bytes b0), (bundle_of_bytes p (expected_test_count s) (oracle_bytes b0)). split; [done|]. split.
  - intros st. unfold load_python_call_bundle. by rewrite Hs.
  - intros b Hb. apply bundle_sound in Hb0 as (cs & [Hn (Hne & Hlen & Hmax) Eo _ (text & Ht & Et) _ _ _]).
    rewrite Eo in Ht. rewrite Et in *. rewrite <- Hlen in Hb.
    assert (Z.of_nat (length (utf8_encode text)) <= _MAX_ORACLE_BYTES) as Hsize.
    { unfold bundle_of_bytes, configured in Hb. apply bind_Ok in Hb as (? & Hb%require_Ok & _). by apply Z.leb_le in Hb. }
    assert (∃ ctext, canonical_json (challenge_of p (call_json <$> cs)) = Ok ctext) as [ctext Hc].
    { eexists. apply canonical_json_ok. apply canonical_json_inv in Ht as [Hf _]. by apply calls_finite. }
    destruct (bundle_complete p cs text ctext) as (b' & Hb' & _ & Ho & _); [done|done|lia|done|done|done|].
    rewrite Hb' in Hb. by injection Hb as <-.
Qed.
End answers.

(** ** Materialized tasks *)

(** The part of a task's identity that its call protocol contributes. *)
Definition protocol_says (s : LocalEvaluationSpec) (v : json) : Prop :=
  match python_call_protocol s with
  | None => v = JNull
  | Some p => ∃ challenge_hash bs, pc_sealed_cases_bytes p = Some bs ∧
      v = JObj [("challenge_sha256", JStr challenge_hash); ("oracle_sha256", JStr (sha256_bytes bs));
                ("protocol", JStr "python-call-v1")]
  end.

Lemma protocol_identity_says s raw w st v st' : closed s raw w → protocol_identity s st = (Ok v, st') → protocol_says s v.
Proof.
  intros C. unfold protocol_identity, protocol_says. destruct (python_call_protocol s) as [p|] eqn:Hp.
  - intros (b & s1 & Hb & [-> _]%retM_Ok)%bindM_Ok. destruct (cases_answer _ _ _ C p Hp) as (bs & r & Hs & Hl & Ho).
    rewrite Hl in Hb. injection Hb as Hr _. pose proof (Ho b Hr) as <-. exists (challenge_sha256 b), (oracle_bytes b).
    split; [done|]. subst r. unfold load_python_call_bundle in Hl. rewrite Hs in Hl.
    specialize (Hl st). injection Hl as (cs & [_ _ _ _ _ _ [-> _] _])%bundle_sound. done.
  - by intros [-> _]%retM_Ok.
Qed.

Lemma decode_manifest raw text : raw ≠ [] → canonical_json (JObj raw) = Ok text → decode_json (utf8_encode text) = Some text.
Proof.
  intros Hne [_ ->]%canonical_json_inv. fold (sort_dict raw).
  assert (∃ kv o, sort_json (JObj raw) = JObj (kv :: o)) as (kv & o & ->).
  { rewrite sort_json_JObj. destruct (sort_dict raw) as [|kv o] eqn:E; [|eauto].
    assert (length (sort_dict raw) = length raw) as Hl by apply sort_dict_length.
    rewrite E in Hl. by destruct raw. }
  assert (∃ rest, dumps (JObj (kv :: o)) = String "{"%char (String (chr 34) rest)) as [rest ->]; [|apply decode_object].
  by destruct o; eexists.
Qed.

(** What a materialization returned. *)
Record materialized (task : TaskSpec) (bound : LocalEvaluationSpec) (statement : string) (raw : dict)
    (w : _FrozenWorkspace) : Prop := {
  mt_closed : closed bound raw w;
  mt_statement : jget (sort_dict raw) "problem_statement" = Some (JStr statement);
  mt_hash : ∃ v, protocol_says bound v ∧
    canonical_sha256 (task_identity v (sort_dict raw) (sha256_bytes <$> (ft_data <$> _frozen_hidden_tests bound))
      (sha256_bytes (fw_snapshot_bytes w))) = Ok (task_content_hash task);
}.

Lemma read_manifest_closed raw text o statement : json_wf (JObj raw) = true → canonical_json (JObj raw) = Ok text →
  read_manifest (utf8_encode text) = Ok (o, statement) →
  o = sort_dict raw ∧ jget o "problem_statement" = Some (JStr statement).
Proof.
  intros Hw Ht H. assert (raw ≠ []) as Hne.
  { intros ->. injection Ht as <-. vm_compute in H. done. }
  unfold read_manifest, loads_bytes in H. rewrite (decode_manifest _ _ Hne Ht) in H. cbn [of_option mbind result_bind] in H.
  rewrite (loads_with_canonical _ _ _ Hw Ht), sort_json_JObj in H. cbn [mbind result_bind] in H.
  destruct (jget (sort_dict raw) "problem_statement") as [[| | | |p| |]|] eqn:E; try done.
  inv_ok. done.
Qed.

Lemma put_bytes_digest store data media s r s' : put_bytes store data media s = (Ok r, s') → sha256 r = sha256_bytes data.
Proof.
  unfold put_bytes. intros H. apply bindM_Ok in H as (? & ? & _ & H). apply bindM_Ok in H as (a & ? & [Ha _]%lift_Ok & H).
  do 2 (apply bindM_Ok in H as (? & ? & _ & H)). apply retM_Ok in H as [-> _]. by apply check_reference_of in Ha as ->.
Qed.

Lemma bind_identity_closed s raw w h s' : closed s raw w → bind_identity s (sha256_bytes (fw_snapshot_bytes w)) h = Ok s' →
  closed s' raw w ∧ python_call_protocol s' = python_call_protocol s ∧ _frozen_hidden_tests s' = _frozen_hidden_tests s.
Proof. unfold bind_identity. intros [] [-> _]%check_spec_same. split; [|done]. by constructor. Qed.

Lemma check_task_hash t t' : check_task t = Ok t' → task_content_hash t' = task_content_hash t.
Proof.
  unfold check_task. intros H. inv_ok. cbn.
  match goal with H : c_sha256 _ = Ok _ |- _ => by apply c_sha256_inv in H as [-> _] end.
Qed.

Lemma materialize_inv base store v e s task bound statement s' :
  materialize_fixture_task patience base store v e s = (Ok (task, bound, statement), s') →
  ∃ raw w, materialized task bound statement raw w.
Proof.
  unfold materialize_fixture_task. intros (spec & s1 & (raw & w & C)%from_fixture_closed & H)%bindM_Ok.
  exists raw, w. unfold materialize_spec in H. destruct (cl_manifest _ _ _ C) as (text & Ht & _).
  apply bindM_Ok in H as (bs & ? & Hbs & H). rewrite (manifest_answers _ _ _ C _ text _ Ht) in Hbs. injection Hbs as <- <-.
  apply bindM_Ok in H as ([o st] & ? & [Hm _]%lift_Ok & H).
  destruct (read_manifest_closed _ _ _ _ (cl_wf _ _ _ C) Ht Hm) as [-> Hst].
  apply bindM_Ok in H as (snap & ? & Hs & H). rewrite (snapshot_answers _ _ _ C) in Hs. injection Hs as <- <-.
  apply bindM_Ok in H as (r & ? & Hr%put_bytes_digest & H). do 6 (apply bindM_Ok in H as (? & ? & _ & H)).
  apply bindM_Ok in H as (hidden & ? & Hh & H). rewrite (hidden_answers _ _ _ C) in Hh. injection Hh as <- _.
  apply bindM_Ok in H as (pj & ? & Hp%(protocol_identity_says _ raw w) & H); [|done].
  apply bindM_Ok in H as (h & ? & [Hhash _]%lift_Ok & H). apply bindM_Ok in H as (t & ? & [Ht'%check_task_hash _]%lift_Ok & H).
  apply bindM_Ok in H as (b & ? & [Hb _]%lift_Ok & H). apply retM_Ok in H as [[= -> -> ->] _]. rewrite Hr in *.
  destruct (bind_identity_closed _ _ _ _ _ C Hb) as (Cb & Ep & Ef).
  constructor; [done|done|]. exists pj. unfold protocol_says in *. rewrite Ep, Ef, Ht'. done.
Qed.
End world.

(** ** What a content hash commits to *)

(** Lists with the same digests are the same, or exhibit a collision. *)
Lemma digests_inj (l1 l2 : list (list Byte.byte)) : sha256_bytes <$> l1 = sha256_bytes <$> l2 → l1 = l2 ∨ collision.
Proof.
  revert l2. induction l1 as [|x l1 IH]; intros [|y l2]; try done; [by left|]. cbn. intros [= E El].
  destruct (IH _ El) as [->|]; [|by right]. destruct (decide (x = y)) as [->|Hne]; [by left|]. right. by exists x, y.
Qed.

Lemma digest_inj (x y : list Byte.byte) : sha256_bytes x = sha256_bytes y → x = y ∨ collision.
Proof. intros E. destruct (decide (x = y)); [by left|]. right. by exists x, y. Qed.

Lemma identity_wf s v raw hashes snapshot : protocol_says s v → json_wf (JObj raw) = true →
  json_wf (task_identity v (sort_dict raw) hashes snapshot) = true.
Proof.
  intros Hv Hw. rewrite <- sort_dict_wf in Hw. unfold task_identity.
  change (json_wf v && (json_wf (JObj (sort_dict raw)) && (forallb json_wf (JStr <$> hashes) && true)) = true).
  rewrite Hw. assert (json_wf v = true) as ->.
  { unfold protocol_says in Hv. destruct (python_call_protocol s); [destruct Hv as (? & ? & _ & ->)|subst v]; done. }
  cbn. rewrite andb_true_r. by induction hashes.
Qed.

Lemma identity_inj v1 v2 o1 o2 h1 h2 s1 s2 : sort_json (task_identity v1 o1 h1 s1) = sort_json (task_identity v2 o2 h2 s2) →
  sort_json v1 = sort_json v2 ∧ sort_dict o1 = sort_dict o2 ∧ h1 = h2 ∧ s1 = s2.
Proof.
  unfold task_identity. rewrite !sort_json_JObj. intros E. apply (f_equal (λ v, match v with JObj o => o | _ => [] end)) in E.
  assert (∀ k, jget (sort_dict [("evaluation_protocol", v1); ("fixture_manifest", JObj o1);
      ("hidden_test_hashes", JArr (JStr <$> h1)); ("repository_snapshot_sha256", JStr s1)]) k =
    jget (sort_dict [("evaluation_protocol", v2); ("fixture_manifest", JObj o2);
      ("hidden_test_hashes", JArr (JStr <$> h2)); ("repository_snapshot_sha256", JStr s2)]) k) as G by (intros k; by rewrite E).
  pose proof (G "evaluation_protocol") as G1. pose proof (G "fixture_manifest") as G2.
  pose proof (G "hidden_test_hashes") as G3. pose proof (G "repository_snapshot_sha256") as G4.
  rewrite !jget_sort_dict in G1, G2, G3, G4 by reflexivity. injection G1 as G1. cbn [jget str_eqb fmap option_fmap option_map] in G2.
  injection G3 as G3. injection G4 as G4. split_and!; [done|by injection G2| |done].
  assert (∀ h : list string, sort_json <$> (JStr <$> h) = JStr <$> h) as Hid by (intros h; by rewrite <- list_fmap_compose).
  change (sort_json <$> (JStr <$> h1) = sort_json <$> (JStr <$> h2)) in G3. rewrite !Hid in G3.
  apply list_fmap_eq_inj in G3; [done|]. by intros ?? [=].
Qed.

Lemma protocol_inj s1 s2 v1 v2 : protocol_says s1 v1 → protocol_says s2 v2 → sort_json v1 = sort_json v2 →
  (python_call_protocol s1 ≫= pc_sealed_cases_bytes = python_call_protocol s2 ≫= pc_sealed_cases_bytes) ∨ collision.
Proof.
  unfold protocol_says. destruct (python_call_protocol s1) as [p1|], (python_call_protocol s2) as [p2|]; cbn;
    [intros (c1 & b1 & -> & ->) (c2 & b2 & -> & ->)|intros (c1 & b1 & -> & ->) ->|intros -> (c2 & b2 & -> & ->)|by left]; cbn.
  - intros [= _ [->|]%digest_inj]; [by left|by right].
  - done.
  - done.
Qed.

(** The specification that an evaluation runs with says the same. *)
Definition same_evaluation (s1 s2 : LocalEvaluationSpec) : Prop :=
  fixture_manifest_bytes s1 = fixture_manifest_bytes s2 ∧
  fw_snapshot_bytes <$> _frozen_workspace s1 = fw_snapshot_bytes <$> _frozen_workspace s2 ∧
  ft_data <$> _frozen_hidden_tests s1 = ft_data <$> _frozen_hidden_tests s2 ∧
  python_call_protocol s1 ≫= pc_sealed_cases_bytes = python_call_protocol s2 ≫= pc_sealed_cases_bytes.

Lemma same_materialized t1 b1 p1 raw1 w1 t2 b2 p2 raw2 w2 : materialized t1 b1 p1 raw1 w1 → materialized t2 b2 p2 raw2 w2 →
  task_content_hash t1 = task_content_hash t2 → (p1 = p2 ∧ same_evaluation b1 b2) ∨ collision.
Proof.
  intros [C1 S1 (v1 & V1 & H1)] [C2 S2 (v2 & V2 & H2)] E. rewrite E in H1.
  pose proof (identity_wf _ _ _ (sha256_bytes <$> (ft_data <$> _frozen_hidden_tests b1)) (sha256_bytes (fw_snapshot_bytes w1)) V1 (cl_wf _ _ _ C1)) as W1.
  pose proof (identity_wf _ _ _ (sha256_bytes <$> (ft_data <$> _frozen_hidden_tests b2)) (sha256_bytes (fw_snapshot_bytes w2)) V2 (cl_wf _ _ _ C2)) as W2.
  destruct (canonical_sha256_inj _ _ _ W1 W2 H1 H2) as [(Ev & Eo & Eh & Ew)%identity_inj|]; [|by right].
  rewrite !sort_dict_idemp in Eo by apply cl_wf with (1 := C1) || apply cl_wf with (1 := C2).
  destruct (protocol_inj _ _ _ _ V1 V2 Ev) as [Ep|]; [|by right]. destruct (digests_inj _ _ Eh) as [Et|]; [|by right].
  destruct (digest_inj _ _ Ew) as [Es|]; [|by right]. left. rewrite Eo in S1. split; [congruence|].
  destruct (cl_manifest _ _ _ C1) as (x1 & [_ X1]%canonical_json_inv & M1), (cl_manifest _ _ _ C2) as (x2 & [_ X2]%canonical_json_inv & M2).
  rewrite !sort_json_JObj in X1, X2. split_and!; [|by rewrite (cl_workspace _ _ _ C1), (cl_workspace _ _ _ C2); cbn; rewrite Es|done|done].
  rewrite M1, M2, X1, X2. by rewrite Eo.
Qed.
End closed.

(** A loaded fixture is closed: on any machine and at any later moment its hidden
    tests, its visible tests, its workspace, its manifest and its cases are the bytes that
    were captured, and giving them touches nothing. *)
Theorem loaded_fixture_is_closed `{hashing : Hashing} (w1 : World) (ws1 : Workspaces) k base s spec s' :
  from_fixture k base s = (Ok spec, s') →
  ∃ raw w, closed spec raw w ∧ ∀ (w2 : World) (ws2 : Workspaces) k2 base2 st,
    hidden_test_bytes k2 spec st = (Ok (ft_data <$> _frozen_hidden_tests spec), st) ∧
    visible_test_bytes k2 spec st = (mapR (captured_visible w) (visible_test_files spec), st) ∧
    snapshot_bytes spec st = (Ok (fw_snapshot_bytes w), st) ∧
    manifest_bytes_of base2 spec st = (Ok (default [] (fixture_manifest_bytes spec)), st) ∧
    ∀ p, python_call_protocol spec = Some p → ∃ bs r, pc_sealed_cases_bytes p = Some bs ∧
      load_python_call_bundle p (expected_test_count spec) st = (r, st) ∧ ∀ b, r = Ok b → oracle_bytes b = bs.
Proof.
  intros (raw & w & C)%from_fixture_closed. exists raw, w. split; [done|]. intros w2 ws2 k2 base2 st. split_and!.
  - by apply (hidden_answers _ _ raw w).
  - by apply (visible_answers _ _ raw).
  - by apply (snapshot_answers _ raw).
  - destruct (cl_manifest _ _ _ C) as (text & Ht & ->). by apply (manifest_answers _ raw w).
  - intros p Hp. destruct (cases_answer _ _ _ C p Hp) as (bs & r & Hs & Hl & Ho). eauto.
Qed.

(** C40. The content hash of a task commits to its evaluation: tasks with the same hash,
    materialized anywhere, have the same problem statement, manifest, workspace, hidden
    tests and sealed cases, or exhibit a collision of SHA-256. *)
Theorem task_hash_commits `{hashing : Hashing} (w1 w2 : World) (ws1 ws2 : Workspaces) k1 k2 base1 base2 st1 st2 v1 v2 e1 e2
    s1 s2 t1 t2 b1 b2 p1 p2 s1' s2' :
  materialize_fixture_task (world := w1) (workspaces := ws1) k1 base1 st1 v1 e1 s1 = (Ok (t1, b1, p1), s1') →
  materialize_fixture_task (world := w2) (workspaces := ws2) k2 base2 st2 v2 e2 s2 = (Ok (t2, b2, p2), s2') →
  task_content_hash t1 = task_content_hash t2 → (p1 = p2 ∧ same_evaluation b1 b2) ∨ collision.
Proof.
  intros (raw1 & f1 & M1)%materialize_inv (raw2 & f2 & M2)%materialize_inv. by eapply same_materialized.
Qed.

(** ** Samples *)

#[local] Existing Instance sample_hashing.
#[local] Existing Instance fixture_workspaces.

(** A machine on which every file is gone. *)
Definition empty_machine : World :=
  frozen {| lstat := λ _, OSError (Some ENOENT); scandir := λ _, {| entries := []; scan_error := Some (Some ENOENT) |};
            open_file := λ _, OSError (Some ENOENT); resolve := λ _ _, OSError (Some ENOENT) |}.

Lemma loaded_fixture_is_closed_witness : ∃ spec s',
  from_fixture (world := fixture_world []) 10 ["fix"] start = (Ok spec, s') ∧
  ∃ bs, hidden_test_bytes (world := empty_machine) 1 spec start = (Ok bs, start) ∧ length bs = 1%nat.
Proof.
  destruct (from_fixture (world := fixture_world []) 10 ["fix"] start) as [[spec|e] s'] eqn:E.
  2:{ exfalso. apply (f_equal (λ p, is_ok p.1)) in E. vm_compute in E. discriminate E. }
  exists spec, s'. split; [reflexivity|]. destruct (loaded_fixture_is_closed _ _ _ _ _ _ _ E) as (raw & w & _ & H).
  exists (ft_data <$> _frozen_hidden_tests spec). split; [exact (proj1 (H empty_machine _ 1%positive ["fix"] start))|].
  apply (f_equal (λ p, match p.1 with Ok s => length (ft_data <$> _frozen_hidden_tests s) | _ => 0%nat end)) in E.
  cbn [fst] in E. rewrite <- E. vm_compute. reflexivity.
Defined.

Definition content_hash_of (o : result (TaskSpec * LocalEvaluationSpec * string) * sys) : option string :=
  match o.1 with Ok (task, _, _) => Some (task_content_hash task) | Err _ => None end.

(** The same fixture, materialized for two evaluators. *)
Lemma task_hash_commits_witness : ∃ t1 b1 p1 s1 t2 b2 p2 s2,
  sample_task "evaluator-1" task_texts = (Ok (t1, b1, p1), s1) ∧ sample_task "evaluator-2" task_texts = (Ok (t2, b2, p2), s2) ∧
  ((p1 = p2 ∧ same_evaluation b1 b2) ∨ collision).
Proof.
  destruct (sample_task "evaluator-1" task_texts) as [[[[t1 b1] p1]|e] s1] eqn:E1.
  2:{ exfalso. apply (f_equal (λ p, is_ok p.1)) in E1. vm_compute in E1. discriminate E1. }
  destruct (sample_task "evaluator-2" task_texts) as [[[[t2 b2] p2]|e] s2] eqn:E2.
  2:{ exfalso. apply (f_equal (λ p, is_ok p.1)) in E2. vm_compute in E2. discriminate E2. }
  exists t1, b1, p1, s1, t2, b2, p2, s2. split; [reflexivity|]. split; [reflexivity|].
  apply (task_hash_commits _ _ _ _ _ _ _ _ _ _ _ _ _ _ _ _ _ _ _ _ _ _ _ _ E1 E2).
  assert (content_hash_of (sample_task "evaluator-1" task_texts) = content_hash_of (sample_task "evaluator-2" task_texts)) as H
    by (vm_compute; reflexivity).
  rewrite E1, E2 in H. injection H as H. exact H.
Defined.
