(* ===== verification/Integrity.v ===== *)
(** * The artifact audit (src/guildmind/storage/integrity.py)

    [audit_artifact_store]: the roots are validated again, the references reachable from
    the manifests are read and hashed, the two structured roles are parsed and followed,
    and the store is inventoried.  The local variables of the audit are the record
    [Auditing]; its queue is processed one node at a time.  Every system call is a call
    of the [FileSystem] class. *)

From coqutil Require Import Datatypes.RecordSettersUsingExistingGetters.
From S2P Require Import Prelude Order Loop Effects PyStr Files Float64 Json Hash Datetime Fields Usage.
From S2P Require Import Models Specs Sqlite EventStore Artifacts.

Local Open Scope Z_scope.

Definition _TASK_MEDIA_TYPE : string := "application/vnd.guildmind.task+json".
Definition _EVALUATION_MEDIA_TYPE : string := "application/vnd.guildmind.evaluation+json".
Definition _TEMP_PREFIX : string := ".artifact-".
Definition _MAX_ROOTS : Z := 4096.
Definition _MAX_REACHABLE_REFERENCES : Z := 16384.
Definition _MAX_INVENTORY_ENTRIES : Z := 65536.
Definition _MAX_ARTIFACT_BYTES : Z := 268435456.
Definition _MAX_STRUCTURED_BYTES : Z := 8388608.
Definition _MAX_TOTAL_HASHED_BYTES : Z := 1073741824.
Definition _READ_CHUNK_BYTES : Z := 65536.

(** pydantic's reader of JSON bytes, behind [model_validate_json]. *)
Class PydanticJson := { from_json : list Byte.byte → option json }.

(** ** Findings, owners and the report *)

Inductive ArtifactFindingKind :=
  | MISSING_REFERENCED | CORRUPT_REFERENCED | VALID_FINALIZED_ORPHAN | CORRUPT_FINALIZED_ORPHAN
  | TEMP_ORPHAN | NONCANONICAL_ENTRY | HARDLINK | SYMLINK | SPECIAL_FILE | SCAN_ERROR | LIMIT_EXCEEDED.

#[export] Instance kind_eq_dec : EqDecision ArtifactFindingKind.
Proof. solve_decision. Defined.

Definition kind_value (k : ArtifactFindingKind) : string :=
  match k with
  | MISSING_REFERENCED => "missing_referenced"
  | CORRUPT_REFERENCED => "corrupt_referenced"
  | VALID_FINALIZED_ORPHAN => "valid_finalized_orphan"
  | CORRUPT_FINALIZED_ORPHAN => "corrupt_finalized_orphan"
  | TEMP_ORPHAN => "temp_orphan"
  | NONCANONICAL_ENTRY => "noncanonical_entry"
  | HARDLINK => "hardlink"
  | SYMLINK => "symlink"
  | SPECIAL_FILE => "special_file"
  | SCAN_ERROR => "scan_error"
  | LIMIT_EXCEEDED => "limit_exceeded"
  end.

Definition all_kinds : list ArtifactFindingKind :=
  [MISSING_REFERENCED; CORRUPT_REFERENCED; VALID_FINALIZED_ORPHAN; CORRUPT_FINALIZED_ORPHAN;
   TEMP_ORPHAN; NONCANONICAL_ENTRY; HARDLINK; SYMLINK; SPECIAL_FILE; SCAN_ERROR; LIMIT_EXCEEDED].

#[export] Instance kind_countable : Countable ArtifactFindingKind.
Proof.
  refine (inj_countable kind_value (λ s, List.find (λ k, str_eqb (kind_value k) s) all_kinds) _).
  by intros [].
Defined.

Record ArtifactOwner := { ow_run_id : string; ow_path : list string }.

#[export] Instance owner_eq_dec : EqDecision ArtifactOwner.
Proof. solve_decision. Defined.
#[export] Instance owner_countable : Countable ArtifactOwner.
Proof.
  refine (inj_countable' (λ o, (ow_run_id o, ow_path o)) (λ p, {| ow_run_id := p.1; ow_path := p.2 |}) _).
  by intros [].
Defined.

(** [_owner_key(owner)] *)
Definition _owner_key (o : ArtifactOwner) : string * list string := (ow_run_id o, ow_path o).

#[export] Instance owner_key_inj : Inj (=) (=) _owner_key.
Proof. by intros [] [] [= -> ->]. Qed.

(** [ArtifactOwner(run_id=..., path=...)] *)
Definition make_owner (run_id : string) (path : list string) : result ArtifactOwner :=
  _ ← require (str_nonempty run_id) (ValidationError "string_too_short");
  _ ← require (py_strip_nonempty run_id) (ValidationError "artifact owner run_id cannot be blank");
  _ ← require (bool_decide (path ≠ []) && forallb py_strip_nonempty path)
        (ValidationError "artifact owner path must contain nonblank components");
  Ok {| ow_run_id := run_id; ow_path := path |}.

Definition _canonical_relative_path (digest : string) : string :=
  "sha256/" +:+ take_prefix 2 digest +:+ "/" +:+ digest.

Record ReachableArtifact := {
  ra_sha256 : string;
  ra_size_bytes : Z;
  ra_storage_ref : string;
  ra_media_types : list string;
  ra_owners : list ArtifactOwner;
  bytes_verified : bool;
}.

Definition check_reachable (r : ReachableArtifact) : result ReachableArtifact :=
  _ ← require (is_lower_sha256 (ra_sha256 r)) (ValidationError "string_pattern_mismatch");
  _ ← require (0 <=? ra_size_bytes r) (ValidationError "greater_than_equal");
  _ ← require (str_nonempty (ra_storage_ref r)) (ValidationError "string_too_short");
  _ ← require (str_eqb (ra_storage_ref r) (_canonical_relative_path (ra_sha256 r)))
        (ValidationError "reachable storage_ref must be the canonical digest path");
  _ ← require (bool_decide (ra_media_types r = sorted_set id (ra_media_types r)))
        (ValidationError "reachable media types must be sorted and unique");
  _ ← require (bool_decide (ra_media_types r ≠ []) && forallb py_strip_nonempty (ra_media_types r))
        (ValidationError "reachable artifact requires nonblank media types");
  _ ← require (bool_decide (ra_owners r = sorted_set _owner_key (ra_owners r)))
        (ValidationError "reachable owners must be sorted and unique");
  _ ← require (bool_decide (ra_owners r ≠ []))
        (ValidationError "reachable artifact requires at least one owner");
  Ok r.

(** The part of a finding that identifies it, and the finding. *)
Record finding_key := {
  fk_kind : ArtifactFindingKind;
  fk_relative_path : string;
  fk_expected_sha256 : option string;
  fk_observed_sha256 : option string;
  fk_size_bytes : option Z;
  fk_detail : option string;
  fk_errno : option Z;
}.

#[export] Instance finding_key_eq_dec : EqDecision finding_key.
Proof. solve_decision. Defined.
#[export] Instance finding_key_countable : Countable finding_key.
Proof.
  refine (inj_countable'
    (λ k, (fk_kind k, fk_relative_path k, fk_expected_sha256 k, fk_observed_sha256 k, fk_size_bytes k,
           fk_detail k, fk_errno k))
    (λ p, let '(a, b, c, d, e, f, g) := p in
          {| fk_kind := a; fk_relative_path := b; fk_expected_sha256 := c; fk_observed_sha256 := d;
             fk_size_bytes := e; fk_detail := f; fk_errno := g |}) _).
  by intros [].
Defined.

Record ArtifactFinding := { finding : finding_key; owners : list ArtifactOwner }.

#[export] Instance artifact_finding_eq_dec : EqDecision ArtifactFinding.
Proof. solve_decision. Defined.
(** [_finding_key(finding)] *)
Definition _finding_key (f : ArtifactFinding) :=
  let k := finding f in
  (kind_value (fk_kind k),
   (fk_relative_path k,
    (default "" (fk_expected_sha256 k),
     (default "" (fk_observed_sha256 k),
      (default (-1) (fk_size_bytes k),
       (default "" (fk_detail k),
        (default (-1) (fk_errno k), _owner_key <$> owners f))))))).

Definition opt_all {A} (p : A → bool) (o : option A) : bool :=
  match o with Some a => p a | None => true end.

Definition is_referenced_kind (k : ArtifactFindingKind) : bool :=
  match k with MISSING_REFERENCED | CORRUPT_REFERENCED => true | _ => false end.

Definition check_finding (f : ArtifactFinding) : result ArtifactFinding :=
  let k := finding f in
  _ ← require (str_nonempty (fk_relative_path k)) (ValidationError "string_too_short");
  _ ← require (opt_all is_lower_sha256 (fk_expected_sha256 k)) (ValidationError "string_pattern_mismatch");
  _ ← require (opt_all is_lower_sha256 (fk_observed_sha256 k)) (ValidationError "string_pattern_mismatch");
  _ ← require (opt_all (λ n, 0 <=? n) (fk_size_bytes k)) (ValidationError "greater_than_equal");
  _ ← require (opt_all (λ n, 0 <=? n) (fk_errno k)) (ValidationError "greater_than_equal");
  _ ← require (bool_decide (owners f = sorted_set _owner_key (owners f)))
        (ValidationError "finding owners must be sorted and unique");
  _ ← require (negb (is_referenced_kind (fk_kind k) && bool_decide (owners f = [])))
        (ValidationError "referenced findings require an owner");
  Ok f.

Record ArtifactAudit := {
  snapshot_sha256 : string;
  reachable : list ReachableArtifact;
  findings : list ArtifactFinding;
  complete : bool;
  quarantine_allowed : bool;
}.

Definition is_scan_failure (f : ArtifactFinding) : bool :=
  match fk_kind (finding f) with SCAN_ERROR | LIMIT_EXCEEDED => true | _ => false end.
Definition has_owners (f : ArtifactFinding) : bool := bool_decide (owners f ≠ []).

(** What [complete] and [quarantine_allowed] are derived from. *)
Definition is_complete (l : list ArtifactFinding) : bool := negb (existsb is_scan_failure l).
Definition is_quarantine_allowed (complete : bool) (reach : list ReachableArtifact)
    (l : list ArtifactFinding) : bool :=
  complete && negb (existsb has_owners l) && forallb bytes_verified reach.

Definition check_audit (a : ArtifactAudit) : result ArtifactAudit :=
  _ ← require (is_lower_sha256 (snapshot_sha256 a)) (ValidationError "string_pattern_mismatch");
  _ ← require (bool_decide ((ra_sha256 <$> reachable a) = sorted_set id (ra_sha256 <$> reachable a)))
        (ValidationError "reachable artifacts must be unique and sorted by digest");
  _ ← require (bool_decide (findings a = sorted_set _finding_key (findings a)))
        (ValidationError "artifact findings must be sorted and unique");
  _ ← require (bool_decide (complete a = is_complete (findings a)))
        (ValidationError "audit completeness must be derived from scan findings");
  _ ← require (bool_decide (quarantine_allowed a =
                 is_quarantine_allowed (is_complete (findings a)) (reachable a) (findings a)))
        (ValidationError "quarantine_allowed must require a complete, byte-verified trusted graph");
  Ok a.

(** ** Collecting findings *)

Abbreviation _FindingBuilders := (gmap finding_key (gset ArtifactOwner)).

(** [findings.add(kind, relative_path, ..., owners=...)] *)
Definition add_finding (k : finding_key) (os : gset ArtifactOwner) (F : _FindingBuilders) : _FindingBuilders :=
  <[k := default ∅ (F !! k) ∪ os]> F.

(** A key from its kind and path, with the keyword arguments that are given. *)
Definition fkey (kind : ArtifactFindingKind) (relative_path : string) (expected observed : option string)
    (size : option Z) (detail : option string) (errno : option Z) : finding_key :=
  {| fk_kind := kind; fk_relative_path := relative_path; fk_expected_sha256 := expected;
     fk_observed_sha256 := observed; fk_size_bytes := size; fk_detail := detail; fk_errno := errno |}.

Definition sorted_owners (X : gset ArtifactOwner) : list ArtifactOwner := sort_by _owner_key (elements X).

Definition freeze (F : _FindingBuilders) : result (list ArtifactFinding) :=
  result ← mapR (λ p, check_finding {| finding := p.1; owners := sorted_owners p.2 |}) (map_to_list F);
  Ok (sort_by _finding_key result).

(** ** Reading a referenced artifact *)

Record _HashBudget := { maximum : Z; hb_used : Z }.
Definition remaining (b : _HashBudget) : Z := maximum b - hb_used b.
(** [budget.consume(size)]; [None] is [False]. *)
Definition consume (size : Z) (b : _HashBudget) : option _HashBudget :=
  if remaining b <? size then None else Some {| maximum := maximum b; hb_used := hb_used b + size |}.

Record _BlobRead := {
  ok : bool;
  observed_sha256 : option string;
  bl_size_bytes : option Z;
  data : option (list Byte.byte);
  bl_kind : option ArtifactFindingKind;
  bl_detail : option string;
  bl_errno : option Z;
}.

Definition failed_read (kind : ArtifactFindingKind) (observed : option string) (size : option Z)
    (detail : string) (errno : option Z) : _BlobRead :=
  {| ok := false; observed_sha256 := observed; bl_size_bytes := size; data := None;
     bl_kind := Some kind; bl_detail := Some detail; bl_errno := errno |}.

(** The checks that precede the opening of the file. *)
Definition check_limits_of (r : ArtifactRef) (capture : bool) : option _BlobRead :=
  if negb (str_eqb (storage_ref r) (_canonical_relative_path (sha256 r))) then
    Some (failed_read CORRUPT_REFERENCED None None "noncanonical_storage_ref" None)
  else if _MAX_ARTIFACT_BYTES <? size_bytes r then
    Some (failed_read LIMIT_EXCEEDED None (Some (size_bytes r)) "referenced_artifact_bytes" None)
  else if capture && (_MAX_STRUCTURED_BYTES <? size_bytes r) then
    Some (failed_read LIMIT_EXCEEDED None (Some (size_bytes r)) "structured_artifact_bytes" None)
  else None.

(** The state of the reading loop: how many reads, the bytes so far and the budget. *)
Record Reading := { rd_count : nat; rd_content : list Byte.byte; rd_budget : _HashBudget }.
Definition rd_total (s : Reading) : Z := Z.of_nat (length (rd_content s)).

Section audit.
Context {hashing : Hashing} {fs : FileSystem}.

(** One of the path's components must be a directory, the last one a plain file. *)
Definition check_component (component : path) (requires_directory : bool) : option _BlobRead :=
  match lstat component with
  | OSError e =>
      if not_found e then Some (failed_read MISSING_REFERENCED None None "missing_path" (Some ENOENT))
      else Some (failed_read CORRUPT_REFERENCED None None "path_lstat" (Some (_errno e)))
  | Done m =>
      if is_kind SymbolicLink m then
        Some (failed_read SYMLINK None (Some (st_size m)) "referenced_path_symlink" None)
      else if requires_directory && negb (is_kind Directory m) then
        Some (failed_read SPECIAL_FILE None (Some (st_size m)) "referenced_parent_not_directory" None)
      else if negb requires_directory && negb (is_kind Regular m) then
        Some (failed_read SPECIAL_FILE None (Some (st_size m)) "referenced_path_not_regular" None)
      else if negb requires_directory && negb (st_nlink m =? 1) then
        Some (failed_read HARDLINK None (Some (st_size m)) "referenced_path_hardlink" None)
      else None
  end.

Fixpoint check_components (l : list (path * bool)) : option _BlobRead :=
  match l with
  | [] => None
  | (p, d) :: l => match check_component p d with Some r => Some r | None => check_components l end
  end.

Definition os_error_read (e : option Z) : _BlobRead :=
  failed_read CORRUPT_REFERENCED None None "referenced_read" (Some (_errno e)).

(** The body of the loop of [_read_reference]. *)
Definition read_reference_step (fd : descriptor) (r : ArtifactRef) (capture : bool) (s : Reading)
    : step Reading (_BlobRead * _HashBudget) :=
  let total := rd_total s in
  let read_size := Z.min (Z.min _READ_CHUNK_BYTES (size_bytes r - total + 1)) (remaining (rd_budget s) + 1) in
  match fd_read fd (rd_count s) read_size with
  | OSError e => Leave (os_error_read e, rd_budget s)
  | Done [] =>
      let observed := sha256_bytes (rd_content s) in
      if negb (total =? size_bytes r) || negb (str_eqb observed (sha256 r)) then
        Leave (failed_read CORRUPT_REFERENCED (Some observed) (Some total) "byte_identity" None, rd_budget s)
      else
        Leave ({| ok := true; observed_sha256 := Some observed; bl_size_bytes := Some total;
                  data := if capture then Some (rd_content s) else None; bl_kind := None;
                  bl_detail := None; bl_errno := None |}, rd_budget s)
  | Done chunk =>
      let len := Z.of_nat (length chunk) in
      if size_bytes r <? total + len then
        Leave (failed_read CORRUPT_REFERENCED None (Some (total + len)) "referenced_grew_beyond_claimed_size"
                 None, rd_budget s)
      else match consume len (rd_budget s) with
           | None => Leave (failed_read LIMIT_EXCEEDED None (Some (total + len)) "total_hashed_bytes" None,
                            rd_budget s)
           | Some budget => Continue {| rd_count := S (rd_count s); rd_content := rd_content s ++ chunk;
                                        rd_budget := budget |}
           end
  end.

(** From the open descriptor to the result. *)
Definition read_descriptor (fd : descriptor) (r : ArtifactRef) (capture : bool) (b : _HashBudget)
    : result (_BlobRead * _HashBudget) :=
  match fd_stat fd with
  | OSError e => Ok (os_error_read e, b)
  | Done m =>
      if negb (is_kind Regular m) then
        Ok (failed_read SPECIAL_FILE None (Some (st_size m)) "referenced_descriptor_not_regular" None, b)
      else if negb (st_nlink m =? 1) then
        Ok (failed_read HARDLINK None (Some (st_size m)) "referenced_path_hardlink" None, b)
      else if negb (st_size m =? size_bytes r) then
        Ok (failed_read CORRUPT_REFERENCED None (Some (st_size m)) "referenced_descriptor_size" None, b)
      else if remaining b <? st_size m then
        Ok (failed_read LIMIT_EXCEEDED None (Some (st_size m)) "total_hashed_bytes" None, b)
      else
        bounded (run_loop (Z.to_pos (size_bytes r + 1)) (read_reference_step fd r capture)
                   {| rd_count := 0; rd_content := []; rd_budget := b |})
  end.

Definition open_failure (e : option Z) : _BlobRead :=
  let kind := if bool_decide (e = Some ELOOP) then SYMLINK
              else if bool_decide (e = Some ENOENT) then MISSING_REFERENCED else CORRUPT_REFERENCED in
  failed_read kind None None "referenced_open" (Some (_errno e)).

(** [_read_reference(root, reference, capture=..., hash_budget=...)] *)
Definition _read_reference (store_root : path) (r : ArtifactRef) (capture : bool) (b : _HashBudget)
    : result (_BlobRead * _HashBudget) :=
  match check_limits_of r capture with
  | Some failure => Ok (failure, b)
  | None =>
      let shard := store_root ++ ["sha256"; take_prefix 2 (sha256 r)] in
      let p := shard ++ [sha256 r] in
      match check_components [(store_root ++ ["sha256"], true); (shard, true); (p, false)] with
      | Some failure => Ok (failure, b)
      | None =>
          match open_file p with
          | OSError e => Ok (open_failure e, b)
          | Done fd => closing fd (read_descriptor fd r capture b)
          end
      end
  end.

(** ** Following the references *)

Inductive structured_role := TaskRole | EvaluationRole.

Record _ReferenceNode := {
  reference : ArtifactRef;
  rn_owner : ArtifactOwner;
  rn_role : option structured_role;
}.

Record _ReachableBuilder := {
  rb_size_bytes : Z;
  rb_storage_ref : string;
  rb_media_types : gset string;
  rb_owners : gset ArtifactOwner;
  rb_verified : bool;
}.

(** The local variables of [audit_artifact_store]. *)
Record Auditing := {
  au_findings : _FindingBuilders;
  au_builders : gmap string _ReachableBuilder;
  au_reads : gmap (string * Z * string) _BlobRead;
  au_budget : _HashBudget;
  au_tasks : gmap string TaskSpec;
  au_evaluations : gmap string (EvaluationResult * ArtifactRef * ArtifactOwner);
  au_pending : list _ReferenceNode;
  au_processed : Z;
}.

Definition plain_node (run_id : string) (owner_path : list string) (r : ArtifactRef) : result _ReferenceNode :=
  o ← make_owner run_id owner_path;
  Ok {| reference := r; rn_owner := o; rn_role := None |}.

(** [enumerate(references)] below [prefix], each with an eight-digit index. *)
Definition indexed_nodes (run_id : string) (prefix : list string) (l : list ArtifactRef)
    : result (list _ReferenceNode) :=
  mapR (λ p, plain_node run_id (prefix ++ [zero_pad 8 (N.of_nat p.1)]) p.2) (zip (seq 0 (length l)) l).

Definition _task_references (run_id : string) (task : TaskSpec) : result (list _ReferenceNode) :=
  n1 ← plain_node run_id ["task_spec"; "problem_statement"] (problem_statement task);
  n2 ← plain_node run_id ["task_spec"; "repository_snapshot"] (repository_snapshot task);
  ns ← indexed_nodes run_id ["task_spec"; "visible_tests"] (visible_tests task);
  Ok (n1 :: n2 :: ns).

Definition _evaluation_references (run_id : string) (e : EvaluationResult) : result (list _ReferenceNode) :=
  indexed_nodes run_id ["evaluation"; "evidence"] (evidence e).

(** [CORRUPT_REFERENCED] at the reference's path, with its claimed digest and size. *)
Definition corrupt_key (r : ArtifactRef) (detail : string) : finding_key :=
  fkey CORRUPT_REFERENCED (_canonical_relative_path (sha256 r)) (Some (sha256 r)) None (Some (size_bytes r))
    (Some detail) None.
Definition corrupt (r : ArtifactRef) (detail : string) (o : ArtifactOwner) (A : Auditing) : Auditing :=
  A <| au_findings ::= add_finding (corrupt_key r detail) {[ o ]} |>.
Definition corrupt_unless (b : bool) (r : ArtifactRef) (detail : string) (o : ArtifactOwner) (A : Auditing)
    : Auditing := if b then A else corrupt r detail o A.

(** The builder of the node's digest, with its media type and owner added. *)
Definition bind_reference (n : _ReferenceNode) (A : Auditing) : Auditing :=
  let r := reference n in
  let b := default {| rb_size_bytes := size_bytes r; rb_storage_ref := storage_ref r; rb_media_types := ∅;
                      rb_owners := ∅; rb_verified := false |} (au_builders A !! sha256 r) in
  let A := if (rb_size_bytes b =? size_bytes r) && str_eqb (rb_storage_ref b) (storage_ref r) then A
           else A <| au_findings ::= add_finding (corrupt_key r "conflicting_reference_metadata")
                                       (rb_owners b ∪ {[ rn_owner n ]}) |> in
  A <| au_builders ::= <[ sha256 r := b <| rb_media_types ::= union {[ media_type r ]} |>
                                        <| rb_owners ::= union {[ rn_owner n ]} |> ]> |>.

(** The bytes of the reference, read once per digest, claimed size and location unless a
    structured role needs them captured. *)
Definition cached_read (store_root : path) (n : _ReferenceNode) (A : Auditing)
    : result (_BlobRead * Auditing) :=
  let r := reference n in
  let capture := match rn_role n with Some _ => true | None => false end in
  let cache_key := (sha256 r, size_bytes r, storage_ref r) in
  match au_reads A !! cache_key with
  | Some read =>
      if capture && ok read && negb (present (data read)) then
        '(read, b) ← _read_reference store_root r capture (au_budget A);
        Ok (read, A <| au_reads ::= <[ cache_key := read ]> |> <| au_budget := b |>)
      else Ok (read, A)
  | None =>
      '(read, b) ← _read_reference store_root r capture (au_budget A);
      Ok (read, A <| au_reads ::= <[ cache_key := read ]> |> <| au_budget := b |>)
  end.

(** [builder.size_bytes = size; builder.bytes_verified = True] *)
Definition mark_verified (digest : string) (size : Z) (A : Auditing) : Auditing :=
  A <| au_builders ::= alter (λ b, b <| rb_size_bytes := size |> <| rb_verified := true |>) digest |>.

Section structured.
Context {datetimes : PydanticDatetime} {parser : PydanticJson}.

(** [Model.model_validate_json(data)] with [validate] the model's validation. *)
Definition model_validate_json {T} (validate : json → result T) (bs : list Byte.byte) : result T :=
  v ← of_option (ValidationError "json_invalid") (from_json bs); validate v.

(** [canonical_json(value).encode("utf-8")], [None] when it raises. *)
Definition canonical_bytes (v : json) : option (list Byte.byte) :=
  match canonical_json v with Ok text => Some (utf8_encode text) | Err _ => None end.

(** [isinstance(value, str) and value.strip()] *)
Definition valid_version (v : json) : bool :=
  match v with JStr s => py_strip_nonempty s | _ => false end.

(** A structured artifact in the role of the task specification. *)
Definition process_task (manifests : gmap string RunManifest) (n : _ReferenceNode) (bs : list Byte.byte)
    (A : Auditing) : result Auditing :=
  let r := reference n in let o := rn_owner n in
  if negb (str_eqb (media_type r) _TASK_MEDIA_TYPE) then Ok (corrupt r "task_spec_media_type" o A)
  else match model_validate_json validate_task bs with
  | Err _ => Ok (corrupt r "task_spec_parse" o A)
  | Ok task =>
      if negb (bool_decide (canonical_bytes (dump_task task) = Some bs)) then
        Ok (corrupt r "task_spec_noncanonical_json" o A)
      else
        let A := corrupt_unless (opt_all valid_version (jget (metadata task) "evaluator_version"))
                   r "task_spec_evaluator_version_invalid" o A in
        manifest ← of_option (KeyError "manifest") (manifests !! ow_run_id o);
        let A := corrupt_unless (str_eqb (ts_task_id task) (m_task_id manifest) &&
                                 str_eqb (image_digest task) (m_environment_digest manifest))
                   r "task_spec_manifest_mismatch" o A in
        nodes ← _task_references (ow_run_id o) task;
        Ok (A <| au_tasks ::= <[ ow_run_id o := task ]> |> <| au_pending ::= (λ l, l ++ nodes) |>)
  end.

Definition evaluation_evidence_roles : list string :=
  ["evaluation_stdout"; "evaluation_stderr"; "evaluation_candidate_stdout"; "evaluation_scorer_stdout"].

(** [_crosscheck_evaluation(manifest, evaluation, reference, owner, findings)] *)
Definition _crosscheck_evaluation (m : RunManifest) (e : EvaluationResult) (r : ArtifactRef) (o : ArtifactOwner)
    (A : Auditing) : Auditing :=
  let expected := omap (λ role, m_artifacts m !! role) evaluation_evidence_roles in
  let A := corrupt_unless (str_eqb (er_run_id e) (m_run_id m)) r "evaluation_run_id" o A in
  let A := corrupt_unless (bool_decide (er_run_status e = m_status m) &&
                           opt_all (λ p, bool_decide (patch_hash e = Some (sha256 p))) (m_artifacts m !! "patch"))
             r "evaluation_manifest_mismatch" o A in
  corrupt_unless (bool_decide (evidence e = expected)) r "evaluation_evidence_mismatch" o A.

(** A structured artifact in the role of the evaluation. *)
Definition process_evaluation (manifests : gmap string RunManifest) (n : _ReferenceNode)
    (bs : list Byte.byte) (A : Auditing) : result Auditing :=
  let r := reference n in let o := rn_owner n in
  if negb (str_eqb (media_type r) _EVALUATION_MEDIA_TYPE) then Ok (corrupt r "evaluation_media_type" o A)
  else match model_validate_json validate_evaluation bs with
  | Err _ => Ok (corrupt r "evaluation_parse" o A)
  | Ok e =>
      if negb (bool_decide (canonical_bytes (dump_evaluation e) = Some bs)) then
        Ok (corrupt r "evaluation_noncanonical_json" o A)
      else
        manifest ← of_option (KeyError "manifest") (manifests !! ow_run_id o);
        let A := _crosscheck_evaluation manifest e r o A in
        nodes ← _evaluation_references (ow_run_id o) e;
        Ok (A <| au_evaluations ::= <[ ow_run_id o := (e, r, o) ]> |>
              <| au_pending ::= (λ l, l ++ nodes) |>)
  end.

(** One node of the queue. *)
Definition process_node (store_root : path) (manifests : gmap string RunManifest) (n : _ReferenceNode)
    (A : Auditing) : result Auditing :=
  let r := reference n in
  '(read, A) ← cached_read store_root n (bind_reference n A);
  if negb (ok read) then
    kind ← of_option (AssertionError "failed artifact read lacks a finding kind") (bl_kind read);
    Ok (A <| au_findings ::= add_finding
           (fkey kind (_canonical_relative_path (sha256 r)) (Some (sha256 r)) (observed_sha256 read)
              (bl_size_bytes read) (bl_detail read) (bl_errno read)) {[ rn_owner n ]} |>)
  else
    size ← of_option (AssertionError "successful artifact read lacks an observed size") (bl_size_bytes read);
    let A := mark_verified (sha256 r) size A in
    match rn_role n, data read with
    | None, _ => Ok A
    | Some _, None => Ok (corrupt r "structured_artifact_not_captured" (rn_owner n) A)
    | Some TaskRole, Some bs => process_task manifests n bs A
    | Some EvaluationRole, Some bs => process_evaluation manifests n bs A
    end.

(** The body of [while pending]. *)
Definition audit_step (store_root : path) (manifests : gmap string RunManifest) (A : Auditing)
    : step Auditing (result Auditing) :=
  match au_pending A with
  | [] => Leave (Ok A)
  | n :: rest =>
      let A := A <| au_pending := rest |> <| au_processed ::= Z.succ |> in
      if _MAX_REACHABLE_REFERENCES <? au_processed A then
        Leave (Ok (A <| au_findings ::= add_finding
          (fkey LIMIT_EXCEEDED "." None None None (Some "reachable_reference_limit") None) ∅ |>))
      else match process_node store_root manifests n A with
           | Ok A => Continue A
           | Err e => Leave (Err e)
           end
  end.

Definition process_pending (store_root : path) (manifests : gmap string RunManifest) (A : Auditing)
    : result Auditing :=
  r ← bounded (run_loop (Z.to_pos (_MAX_REACHABLE_REFERENCES + 1)) (audit_step store_root manifests) A);
  r.
End structured.

(** One run for which both a task and an evaluation were read. *)
Definition crosscheck_run (A : Auditing) (run_id : string) : Auditing :=
  match au_tasks A !! run_id, au_evaluations A !! run_id with
  | Some task, Some (e, r, o) =>
      let A := corrupt_unless (str_eqb (task_hash e) (task_content_hash task)) r
                 "evaluation_task_hash_mismatch" o A in
      match jget (metadata task) "evaluator_version" with
      | Some (JStr version) =>
          if py_strip_nonempty version then
            corrupt_unless (str_eqb version (evaluator_version e)) r
              "evaluation_evaluator_version_mismatch" o A
          else A
      | _ => A
      end
  | _, _ => A
  end.

(** [_crosscheck_task_evaluations(...)] *)
Definition _crosscheck_task_evaluations (A : Auditing) : Auditing :=
  fold_left crosscheck_run
    (sort_by id (elements (dom (au_tasks A) ∩ dom (au_evaluations A) : gset string))) A.

(** ** Inventory *)

Record Inventory := {
  in_findings : _FindingBuilders;
  in_counter : Z;
  in_observed : gset string;
  in_budget : _HashBudget;
}.

Definition note (k : finding_key) (os : gset ArtifactOwner) (V : Inventory) : Inventory :=
  V <| in_findings ::= add_finding k os |>.

Fixpoint raw_hex (bs : list Byte.byte) : string :=
  match bs with [] => "" | b :: bs => Sha256.hex_word 2 (Byte.to_N b) +:+ raw_hex bs end.

(** One entry of [_scan_directory]: [None] when the entry limit is passed, else the
    decodable entries so far. *)
Definition scan_entry (relative : string) (acc : option (list (string * os_result stat_result)) * Inventory)
    (e : DirEntry) : option (list (string * os_result stat_result)) * Inventory :=
  match acc with
  | (None, V) => (None, V)
  | (Some l, V) =>
      let V := V <| in_counter ::= Z.succ |> in
      if _MAX_INVENTORY_ENTRIES <? in_counter V then
        (None, note (fkey LIMIT_EXCEEDED relative None None None (Some "inventory_entry_limit") None) ∅ V)
      else match de_name e with
           | RawName raw =>
               let display := (if str_eqb relative "." then "" else relative +:+ "/") +:+
                              "<raw-name-" +:+ raw_hex raw +:+ ">" in
               (Some l, note (fkey SCAN_ERROR display None None None
                                (Some ("undecodable_entry_name_raw_hex:" +:+ raw_hex raw)) None) ∅ V)
           | Name s => (Some (l ++ [(s, de_stat e)]), V)
           end
  end.

(** [_scan_directory(path, relative, findings, counter)] *)
Definition _scan_directory (p : path) (relative : string) (V : Inventory)
    : option (list (string * os_result stat_result)) * Inventory :=
  let l := scandir p in
  match fold_left (scan_entry relative) (entries l) (Some [], V) with
  | (None, V) => (None, V)
  | (Some es, V) =>
      match scan_error l with
      | Some e => (None, note (fkey SCAN_ERROR relative None None None (Some "scandir") (Some (_errno e))) ∅ V)
      | None => (Some (sort_by fst es), V)
      end
  end.

(** [_entry_stat(entry, relative, findings)] *)
Definition _entry_stat (st : os_result stat_result) (relative : string) (V : Inventory)
    : option stat_result * Inventory :=
  match st with
  | Done m => (Some m, V)
  | OSError e => (None, note (fkey SCAN_ERROR relative None None None (Some "lstat") (Some (_errno e))) ∅ V)
  end.

(** [_classify_mode_noncanonical(mode, relative, size, findings)] *)
Definition _classify_mode_noncanonical (m : stat_result) (relative : string) (V : Inventory) : Inventory :=
  let kind := if is_kind Regular m || is_kind Directory m then NONCANONICAL_ENTRY else SPECIAL_FILE in
  note (fkey kind relative None None (Some (st_size m)) None None) ∅ V.

(** [_classify_noncanonical(entry, relative, findings)] *)
Definition _classify_noncanonical (st : os_result stat_result) (relative : string) (V : Inventory) : Inventory :=
  match _entry_stat st relative V with
  | (None, V) => V
  | (Some m, V) =>
      if is_kind SymbolicLink m then note (fkey SYMLINK relative None None (Some (st_size m)) None None) ∅ V
      else _classify_mode_noncanonical m relative V
  end.

(** [_PathHash] *)
Inductive path_hash := Hashed (digest : string) | HashFailed (errno : Z) | HashLimit.

Definition hash_step (fd : descriptor) (s : Reading) : step Reading (path_hash * _HashBudget) :=
  let total := rd_total s in
  let read_size := Z.min (Z.min _READ_CHUNK_BYTES (_MAX_ARTIFACT_BYTES - total + 1)) (remaining (rd_budget s) + 1) in
  match fd_read fd (rd_count s) read_size with
  | OSError e => Leave (HashFailed (_errno e), rd_budget s)
  | Done [] => Leave (Hashed (sha256_bytes (rd_content s)), rd_budget s)
  | Done chunk =>
      let len := Z.of_nat (length chunk) in
      if _MAX_ARTIFACT_BYTES <? total + len then Leave (HashLimit, rd_budget s)
      else match consume len (rd_budget s) with
           | None => Leave (HashLimit, rd_budget s)
           | Some b => Continue {| rd_count := S (rd_count s); rd_content := rd_content s ++ chunk; rd_budget := b |}
           end
  end.

(** [_hash_path_no_follow(path, hash_budget)] *)
Definition _hash_path_no_follow (p : path) (b : _HashBudget) : result (path_hash * _HashBudget) :=
  match open_file p with
  | OSError e => Ok (HashFailed (_errno e), b)
  | Done fd =>
      closing fd
        match fd_stat fd with
        | OSError e => Ok (HashFailed (_errno e), b)
        | Done m =>
            if negb (is_kind Regular m) || negb (st_nlink m =? 1) then Ok (HashFailed EINVAL, b)
            else if (_MAX_ARTIFACT_BYTES <? st_size m) || (remaining b <? st_size m) then Ok (HashLimit, b)
            else bounded (run_loop (Z.to_pos (_MAX_ARTIFACT_BYTES + 1)) (hash_step fd)
                            {| rd_count := 0; rd_content := []; rd_budget := b |})
        end
  end.

(** A file with a canonical name that nothing references. *)
Definition inventory_orphan (p : path) (relative name : string) (m : stat_result) (V : Inventory)
    : result Inventory :=
  if _MAX_ARTIFACT_BYTES <? st_size m then
    Ok (note (fkey LIMIT_EXCEEDED relative (Some name) None (Some (st_size m)) (Some "orphan_artifact_bytes") None) ∅ V)
  else
    '(h, b) ← _hash_path_no_follow p (in_budget V);
    let V := V <| in_budget := b |> in
    match h with
    | HashLimit =>
        Ok (note (fkey LIMIT_EXCEEDED relative (Some name) None (Some (st_size m)) (Some "total_hashed_bytes")
                    None) ∅ V)
    | HashFailed e =>
        Ok (note (fkey SCAN_ERROR relative (Some name) None (Some (st_size m)) (Some "orphan_read") (Some e)) ∅ V)
    | Hashed d =>
        let kind := if str_eqb d name then VALID_FINALIZED_ORPHAN else CORRUPT_FINALIZED_ORPHAN in
        Ok (note (fkey kind relative (Some name) (Some d) (Some (st_size m)) None None) ∅ V)
    end.

Definition when {A} (b : bool) (a : A) : option A := if b then Some a else None.

(** One entry of a shard. *)
Definition shard_entry (shard : path) (prefix : string) (reach : gmap string (gset ArtifactOwner))
    (V : Inventory) (entry : string * os_result stat_result) : result Inventory :=
  let '(name, st) := entry in
  let relative := "sha256/" +:+ prefix +:+ "/" +:+ name in
  match _entry_stat st relative V with
  | (None, V) => Ok V
  | (Some m, V) =>
      let canonical := is_lower_sha256 name && startswith prefix name in
      let os := default ∅ (reach !! name) in
      let owned := bool_decide (os ≠ ∅) in
      if is_kind SymbolicLink m then
        Ok (note (fkey SYMLINK relative (when (canonical && owned) name) None (Some (st_size m))
                    (when owned "referenced_path_symlink") None) os V)
      else if is_kind Regular m && negb (st_nlink m =? 1) then
        Ok (note (fkey HARDLINK relative (when canonical name) None (Some (st_size m))
                    (when owned "referenced_path_hardlink") None) os V)
      else if startswith _TEMP_PREFIX name then
        Ok (if is_kind Regular m
            then note (fkey TEMP_ORPHAN relative None None (Some (st_size m)) None None) ∅ V
            else note (fkey SPECIAL_FILE relative None None (Some (st_size m)) (Some "temporary_not_regular") None)
                   ∅ V)
      else if negb canonical || negb (is_kind Regular m) then Ok (_classify_mode_noncanonical m relative V)
      else if present (reach !! name) then Ok (V <| in_observed ::= union {[ name ]} |>)
      else inventory_orphan (shard ++ [name]) relative name m V
  end.

(** [_inventory_shard(...)] *)
Definition _inventory_shard (shard : path) (prefix : string) (reach : gmap string (gset ArtifactOwner))
    (V : Inventory) : result Inventory :=
  match _scan_directory shard ("sha256/" +:+ prefix) V with
  | (None, V) => Ok V
  | (Some es, V) => foldM (shard_entry shard prefix reach) V es
  end.

Definition union_owners (l : list (gset ArtifactOwner)) : gset ArtifactOwner := ⋃ l.

(** One entry of [root/sha256]. *)
Definition prefix_entry (store_root : path) (reach : gmap string (gset ArtifactOwner)) (V : Inventory)
    (entry : string * os_result stat_result) : result Inventory :=
  let '(name, st) := entry in
  let relative := "sha256/" +:+ name in
  match _entry_stat st relative V with
  | (None, V) => Ok V
  | (Some m, V) =>
      if is_kind SymbolicLink m then
        let os := union_owners (snd <$> List.filter (λ p, startswith name p.1) (map_to_list reach)) in
        Ok (note (fkey SYMLINK relative None None (Some (st_size m))
                    (when (bool_decide (os ≠ ∅)) "referenced_parent_symlink") None) os V)
      else if negb (is_lower_hex 2 name) || negb (is_kind Directory m) then
        let kind := if negb (is_kind Regular m) && negb (is_kind Directory m)
                    then SPECIAL_FILE else NONCANONICAL_ENTRY in
        Ok (note (fkey kind relative None None (Some (st_size m)) (Some "invalid_shard") None) ∅ V)
      else _inventory_shard (store_root ++ ["sha256"; name]) name reach V
  end.

(** One entry of the store's root. *)
Definition root_entry (store_root : path) (reach : gmap string (gset ArtifactOwner)) (V : Inventory)
    (entry : string * os_result stat_result) : result Inventory :=
  let '(name, st) := entry in
  if negb (str_eqb name "sha256") then Ok (_classify_noncanonical st name V)
  else match _entry_stat st "sha256" V with
  | (None, V) => Ok V
  | (Some m, V) =>
      if is_kind SymbolicLink m then
        let os := union_owners (snd <$> map_to_list reach) in
        Ok (note (fkey SYMLINK "sha256" None None (Some (st_size m))
                    (when (bool_decide (os ≠ ∅)) "referenced_parent_symlink") None) os V)
      else if negb (is_kind Directory m) then
        Ok (note (fkey NONCANONICAL_ENTRY "sha256" None None (Some (st_size m)) (Some "expected_directory") None)
              ∅ V)
      else match _scan_directory (store_root ++ ["sha256"]) "sha256" V with
           | (None, V) => Ok V
           | (Some es, V) => foldM (prefix_entry store_root reach) V es
           end
  end.

(** [_inventory_store(root, reachable_owners, findings, hash_budget)] *)
Definition _inventory_store (store_root : path) (reach : gmap string (gset ArtifactOwner)) (V : Inventory)
    : result Inventory :=
  match _scan_directory store_root "." V with
  | (None, V) => Ok V
  | (Some es, V) => foldM (root_entry store_root reach) V es
  end.

(** ** The audit *)

(** One root, after the run of the previous one. *)
Definition validate_root (previous : option string) (root : VerifiedRunRoot) : result (option string) :=
  let run_id := m_run_id (vr_manifest root) in
  let refuse b msg := require b (ValueError msg) in
  _ ← refuse (negb (bool_decide (previous = Some run_id))) "duplicate verified run root";
  _ ← refuse (0 <=? manifest_revision root) "verified run root manifest_revision must be an integer >= 0";
  _ ← refuse (1 <=? vr_event_count root) "verified run root event_count must be an integer >= 1";
  _ ← refuse (manifest_revision root <? vr_event_count root)
        "verified run root manifest_revision must be less than event_count";
  _ ← refuse (is_lower_sha256 (manifest_sha256 root))
        "verified run root manifest_sha256 must be a lowercase SHA-256";
  expected ← canonical_sha256 (dump_manifest (vr_manifest root));
  _ ← refuse (str_eqb (manifest_sha256 root) expected) "verified run root manifest hash mismatch";
  _ ← refuse (is_lower_sha256 (head_event_sha256 root))
        "verified run root head_event_sha256 must be a lowercase SHA-256";
  Ok (Some run_id).

(** [_validate_roots(roots)] *)
Definition _validate_roots (roots : list VerifiedRunRoot) : result (list VerifiedRunRoot * string) :=
  let ordered := merge_sort root_le roots in
  _ ← foldM validate_root None ordered;
  snapshot ← verified_run_roots_sha256 ordered;
  Ok (ordered, snapshot).

Definition scan_error_at_root (size : option Z) (detail : string) (errno : option Z) : finding_key :=
  fkey SCAN_ERROR "." None None size (Some detail) errno.

(** The store's root and its ancestors, outermost first, each with whether it is the root. *)
Definition root_candidates (root : path) : list (path * bool) :=
  (λ n, (take n root, Nat.eqb n (length root))) <$> seq 0 (S (length root)).

Fixpoint check_candidates (l : list (path * bool)) : option finding_key :=
  match l with
  | [] => None
  | (p, is_root) :: l =>
      let name (a b : string) := if is_root then a else b in
      match lstat p with
      | OSError e =>
          Some (scan_error_at_root None (name "artifact_store_root_lstat" "artifact_store_ancestor_lstat")
                  (Some (_errno e)))
      | Done m =>
          if is_kind Directory m then check_candidates l
          else if is_kind SymbolicLink m then
            Some (scan_error_at_root (Some (st_size m))
                    (name "artifact_store_root_symlink" "artifact_store_ancestor_symlink") None)
          else
            Some (scan_error_at_root (Some (st_size m))
                    (name "artifact_store_root_not_directory" "artifact_store_ancestor_not_directory") None)
      end
  end.

(** [_validate_store_root(root, findings)]; [None] is [True]. *)
Definition _validate_store_root (store : FileArtifactStore) : option finding_key :=
  if negb (root_is_absolute store) then Some (scan_error_at_root None "artifact_store_root_not_absolute" None)
  else check_candidates (root_candidates (root store)).

(** The report when the store's root cannot be trusted. *)
Definition untrusted_root (snapshot : string) (k : finding_key) : result ArtifactAudit :=
  frozen ← freeze (add_finding k ∅ ∅);
  check_audit {| snapshot_sha256 := snapshot; reachable := []; findings := frozen; complete := false;
                 quarantine_allowed := false |}.

(** The references of a manifest, by role. *)
Definition manifest_nodes (root : VerifiedRunRoot) : result (list _ReferenceNode) :=
  let m := vr_manifest root in
  mapR (λ p, o ← make_owner (m_run_id m) [p.1];
             Ok {| reference := p.2; rn_owner := o;
                   rn_role := if str_eqb p.1 "task_spec" then Some TaskRole
                              else if str_eqb p.1 "evaluation" then Some EvaluationRole else None |})
       (sort_by fst (map_to_list (m_artifacts m))).

(** [sorted(builders.items())] *)
Definition sorted_builders (A : Auditing) : list (string * _ReachableBuilder) :=
  sort_by fst (map_to_list (au_builders A)).

(** A digest whose canonical path the inventory did not see. *)
Definition note_unobserved (observed : gset string) (F : _FindingBuilders) (p : string * _ReachableBuilder)
    : _FindingBuilders :=
  if bool_decide (p.1 ∈ observed) then F
  else add_finding (fkey CORRUPT_REFERENCED (_canonical_relative_path p.1) (Some p.1) None
                      (Some (rb_size_bytes p.2)) (Some "canonical_path_not_observed") None) (rb_owners p.2) F.

Definition freeze_reachable (p : string * _ReachableBuilder) : result ReachableArtifact :=
  check_reachable {| ra_sha256 := p.1; ra_size_bytes := rb_size_bytes p.2;
    ra_storage_ref := _canonical_relative_path p.1;
    ra_media_types := sort_by id (elements (rb_media_types p.2));
    ra_owners := sorted_owners (rb_owners p.2); bytes_verified := rb_verified p.2 |}.

(** From the processed references to the report. *)
Definition finish_audit (store_root : path) (snapshot : string) (A : Auditing) : result ArtifactAudit :=
  let A := _crosscheck_task_evaluations A in
  inv ← _inventory_store store_root (rb_owners <$> au_builders A)
          {| in_findings := au_findings A; in_counter := 0; in_observed := ∅; in_budget := au_budget A |};
  let F := fold_left (note_unobserved (in_observed inv)) (sorted_builders A) (in_findings inv) in
  reach ← mapR freeze_reachable (sorted_builders A);
  frozen ← freeze F;
  let complete := is_complete frozen in
  check_audit {| snapshot_sha256 := snapshot; reachable := reach; findings := frozen; complete := complete;
                 quarantine_allowed := is_quarantine_allowed complete reach frozen |}.

Context {datetimes : PydanticDatetime} {parser : PydanticJson}.

(** The references of the manifests, and what they lead to. *)
Definition trace_references (store_root : path) (ordered : list VerifiedRunRoot) : result Auditing :=
  let over := _MAX_ROOTS <? Z.of_nat (length ordered) in
  let kept := if over then take (Z.to_nat _MAX_ROOTS) ordered else ordered in
  let F := if over then add_finding (fkey LIMIT_EXCEEDED "." None None None (Some "root_limit") None) ∅ ∅ else ∅ in
  let manifests := fold_left (λ g root, <[ m_run_id (vr_manifest root) := vr_manifest root ]> g) kept ∅ in
  nodes ← mapR manifest_nodes kept;
  process_pending store_root manifests
    {| au_findings := F; au_builders := ∅; au_reads := ∅;
       au_budget := {| maximum := _MAX_TOTAL_HASHED_BYTES; hb_used := 0 |};
       au_tasks := ∅; au_evaluations := ∅; au_pending := concat nodes; au_processed := 0 |}.

(** [audit_artifact_store(roots, artifact_store)] *)
Definition audit_artifact_store (roots : list VerifiedRunRoot) (store : FileArtifactStore) : result ArtifactAudit :=
  '(ordered, snapshot) ← _validate_roots roots;
  match (verify_root_identity (world := frozen fs) store start).1 with
  | Err (ArtifactCorruptionError _) =>
      untrusted_root snapshot (scan_error_at_root None "artifact_store_root_identity" None)
  | Err e => Err e
  | Ok _ =>
      match _validate_store_root store with
      | Some k => untrusted_root snapshot k
      | None => A ← trace_references (root store) ordered; finish_audit (root store) snapshot A
      end
  end.
End audit.
