(* ===== verification/SampleStore.v ===== *)
(** * A concrete artifact store

    A store at /state/artifacts with two files: the task specification of one run and a
    file that nothing references.  Under the constant hash every blob has the same
    digest, so the specification may refer to itself: its references are its own digest
    and size. *)

From S2P Require Import Prelude Order Loop Effects PyStr Files Float64 Json Hash Datetime Fields Usage.
From S2P Require Import Models Specs Replay SampleRun Sqlite EventStore SampleLedger Artifacts.
From S2P Require Import Integrity.

Local Open Scope Z_scope.

(** Python's own JSON reader in the place of pydantic's. *)
Definition sample_parser : PydanticJson :=
  {| from_json := λ bs, match utf8_decode bs with
                        | Some text => match loads text with Ok v => Some v | Err _ => None end
                        | None => None
                        end |}.
#[export] Existing Instance sample_parser.

Definition self_reference (media : string) (size : Z) : ArtifactRef :=
  {| media_type := media; size_bytes := size; sha256 := digest0;
     storage_ref := _canonical_relative_path digest0 |}.

Definition sample_task (size : Z) : TaskSpec :=
  {| ts_task_id := "task"; source := "fixture"; split_name := "dev"; repository := "repo";
     repository_commit := "abc"; image_digest := "sha256:" +:+ digest0; task_content_hash := digest0;
     problem_statement := self_reference "text/plain" size;
     repository_snapshot := self_reference "text/plain" size; visible_tests := []; metadata := [] |}.

Definition task_bytes (size : Z) : list Byte.byte :=
  match canonical_bytes (dump_task (sample_task size)) with Some bs => bs | None => [] end.

(** The size that the specification has when it states it. *)
Definition task_size : Z := Eval vm_compute in Z.of_nat (length (task_bytes 100)).
Definition sample_blob : list Byte.byte := Eval vm_compute in task_bytes task_size.

Definition orphan_name : string := String.substring 0 63 digest0 +:+ "1".

Definition plain_stat (kind : file_kind) (size : Z) : stat_result :=
  {| st_kind := kind; st_perm := 420; st_dev := 1; st_ino := 1; st_nlink := 1; st_size := size;
     st_mtime_ns := 0; st_ctime_ns := 0 |}.

(** A file read in one piece. *)
Definition sample_descriptor : descriptor :=
  {| fd_stat := Done (plain_stat Regular task_size); fd_final_stat := Done (plain_stat Regular task_size);
     fd_read := λ k n, Done (match k with O => sample_blob | _ => [] end); fd_close := Done tt |}.

Definition sample_root : path := ["state"; "artifacts"].
Definition sample_directories : list path :=
  [[]; ["state"]; sample_root; sample_root ++ ["sha256"]; sample_root ++ ["sha256"; "00"]].
Definition sample_files : list path :=
  (λ name, sample_root ++ ["sha256"; "00"; name]) <$> [digest0; orphan_name].

Definition sample_kind (p : path) : option stat_result :=
  if bool_decide (p ∈ sample_directories) then Some (plain_stat Directory 4096)
  else if bool_decide (p ∈ sample_files) then Some (plain_stat Regular task_size) else None.

(** The entries of a directory are the known paths just below it. *)
Definition sample_entries (p : path) : list DirEntry :=
  omap (λ q, match q with
             | [] => None
             | _ => if bool_decide (removelast q = p) then
                      m ← sample_kind q;
                      Some {| de_name := Name (List.last q ""); de_stat := Done m |}
                    else None
             end) (sample_directories ++ sample_files).

Definition sample_files_system : FileSystem :=
  {| lstat := λ p, match sample_kind p with Some m => Done m | None => OSError (Some ENOENT) end;
     scandir := λ p, {| entries := sample_entries p; scan_error := None |};
     open_file := λ p, if bool_decide (p ∈ sample_files) then Done sample_descriptor
                       else OSError (Some ENOENT);
     resolve := λ _ p, Done p |}.
#[export] Existing Instance sample_files_system.

Definition sample_store : FileArtifactStore :=
  {| root := sample_root; root_is_absolute := true; _read_only := true; _controlled_directories := [sample_root];
     _directory_identities := [(["state"], 1, 1); (sample_root, 1, 1)] |}.

Definition sample_root_of_run : VerifiedRunRoot :=
  {| vr_manifest := with_artifacts sample_manifest None
       {[ "task_spec" := self_reference _TASK_MEDIA_TYPE task_size ]};
     manifest_revision := 0; manifest_sha256 := digest0; vr_event_count := 1; head_event_sha256 := digest0 |}.

(** The audit finds the orphan, and everything that is referenced. *)
Example sample_audit :
  match audit_artifact_store [sample_root_of_run] sample_store with
  | Ok a => quarantine_allowed a && complete a && Nat.eqb (length (reachable a)) 1 &&
            bool_decide ((λ f, fk_kind (finding f)) <$> findings a = [CORRUPT_FINALIZED_ORPHAN])
  | Err _ => false
  end = true.
Proof. vm_compute. reflexivity. Qed.
