(* ===== verification/IntegrityFacts.v ===== *)
(** * What an artifact audit shows (src/guildmind/storage/integrity.py)

    The audit always ends, whatever the file system answers; a file that the inventory
    calls an orphan is never one that a reference reaches; and a report that allows
    quarantine stands for a closed graph: every reference of every run, and of every task
    and evaluation they lead to, was read from its canonical path and hashes to its
    digest. *)

From coqutil Require Import Datatypes.RecordSettersUsingExistingGetters.
From S2P Require Import Prelude Order Loop Effects PyStr Files Float64 Json Hash Datetime Fields Usage.
From S2P Require Import Models Specs Sqlite EventStore Artifacts Integrity.

Local Open Scope Z_scope.

Section audit.
Context {hashing : Hashing} {fs : FileSystem}.

(** ** Reading *)

(** The canonical file of a digest. *)
Definition canonical_path (store_root : path) (digest : string) : path :=
  (store_root ++ ["sha256"; take_prefix 2 digest]) ++ [digest].

(** A plain file with one link at the digest's canonical path, whose bytes hash to it. *)
Definition holds_blob (store_root : path) (digest : string) (bs : list Byte.byte) : Prop :=
  ∃ fd m, open_file (canonical_path store_root digest) = Done fd ∧ fd_stat fd = Done m ∧
    st_kind m = Regular ∧ st_nlink m = 1 ∧ st_size m = Z.of_nat (length bs) ∧
    delivers fd 0 bs ∧ sha256_bytes bs = digest.

(** A read is a success with a size, or a failure with a kind that is not an orphan's. *)
Definition is_orphan (k : ArtifactFindingKind) : bool :=
  match k with VALID_FINALIZED_ORPHAN | CORRUPT_FINALIZED_ORPHAN => true | _ => false end.
Definition failure_kind (k : option ArtifactFindingKind) : bool :=
  match k with Some k => negb (is_orphan k) | None => false end.
Definition blob_wf (b : _BlobRead) : Prop :=
  if ok b then bl_size_bytes b ≠ None else failure_kind (bl_kind b) = true.

(** What a successful read of a reference says. *)
Definition read_ok (store_root : path) (r : ArtifactRef) (capture : bool) (b : _BlobRead) : Prop :=
  ok b = true → storage_ref r = _canonical_relative_path (sha256 r) ∧
    ∃ bs, holds_blob store_root (sha256 r) bs ∧ size_bytes r = Z.of_nat (length bs) ∧
      bl_size_bytes b = Some (size_bytes r) ∧ data b = if capture then Some bs else None.

Lemma check_component_failed p d b : check_component p d = Some b → ok b = false ∧ failure_kind (bl_kind b) = true.
Proof.
  unfold check_component. destruct (lstat p); [|by destruct (not_found _); intros [= <-]].
  repeat case_match; try done; by intros [= <-].
Qed.

Lemma check_components_failed l b : check_components l = Some b → ok b = false ∧ failure_kind (bl_kind b) = true.
Proof.
  induction l as [|[p d] l IH]; simpl; [done|].
  destruct (check_component p d) eqn:E; [|done]. intros [= <-]. by eapply check_component_failed.
Qed.

Lemma check_limits_of_failed r c b : check_limits_of r c = Some b → ok b = false ∧ failure_kind (bl_kind b) = true.
Proof. unfold check_limits_of. repeat case_match; try done; by intros [= <-]. Qed.

Lemma check_limits_of_ref r c : check_limits_of r c = None →
  storage_ref r = _canonical_relative_path (sha256 r).
Proof.
  unfold check_limits_of. destruct (str_eqb _ _) eqn:E; [|done]. intros _. by apply String.eqb_eq in E.
Qed.

Section read.
Variables (fd : descriptor) (r : ArtifactRef) (capture : bool).

(** The bytes read so far, followed by what the descriptor still delivers. *)
Definition reading_inv (s : Reading) : Prop :=
  ∀ rest, delivers fd (rd_count s) rest → delivers fd 0 (rd_content s ++ rest).

Lemma reading_step s s' : reading_inv s → read_reference_step fd r capture s = Continue s' → reading_inv s'.
Proof.
  unfold read_reference_step. intros Hs. destruct (fd_read _ _ _) as [[|b chunk]|] eqn:E; [by case_match| |done].
  destruct (_ <? _); [done|]. destruct (consume _ _) as [bud|]; [|done]. intros [= <-] rest Hd.
  cbn [rd_count rd_content] in *. rewrite <- app_assoc. apply Hs. by eapply delivers_more.
Qed.

Lemma reading_leave s b bud : reading_inv s → read_reference_step fd r capture s = Leave (b, bud) →
  blob_wf b ∧ (ok b = true → ∃ bs, delivers fd 0 bs ∧ sha256_bytes bs = sha256 r ∧
     size_bytes r = Z.of_nat (length bs) ∧ bl_size_bytes b = Some (size_bytes r) ∧
     data b = if capture then Some bs else None).
Proof.
  unfold read_reference_step. intros Hs. destruct (fd_read _ _ _) as [[|c chunk]|] eqn:E.
  - destruct (negb _ || negb _) eqn:Eb; intros [= <- <-]; [done|]. split; [done|]. intros _.
    apply orb_false_iff in Eb as [E1 E2]. split_andb. apply Z.eqb_eq in E1. apply String.eqb_eq in E2.
    exists (rd_content s). split_and!; try done.
    + rewrite <- (app_nil_r (rd_content s)). apply Hs. by eapply delivers_end.
    + simpl. by rewrite E1.
  - destruct (_ <? _); [by intros [= <- <-]|]. destruct (consume _ _); [done|]. by intros [= <- <-].
  - by intros [= <- <-].
Qed.

(** The loop ends within its bound: each iteration adds bytes, and never more than claimed. *)
Lemma reading_terminates s : rd_content s = [] →
  ∃ o, run_loop (Z.to_pos (size_bytes r + 1)) (read_reference_step fd r capture) s = Leave o.
Proof.
  intros Hs.
  apply (run_loop_terminates _ (λ _, True) (λ s, Z.max 0 (size_bytes r - rd_total s))); [done| |].
  - intros s1 s2 _. unfold read_reference_step.
    destruct (fd_read _ _ _) as [[|c chunk]|]; [by case_match| |done].
    destruct (_ <? _) eqn:E; [done|]. destruct (consume _ _); [|done]. intros [= <-]. split; [done|].
    apply Z.ltb_ge in E. unfold rd_total in *. cbn [rd_content length] in *. rewrite length_app.
    cbn [length]. lia.
  - unfold rd_total. rewrite Hs. simpl. lia.
Qed.
End read.

(** What the audit raises when it could not close a file that it had opened. *)
Definition close_failure (e : exn) : Prop := ∃ p fd n, open_file p = Done fd ∧ fd_close fd = OSError n ∧ e = OSException n.

Lemma closing_cases {A} p fd (r : result A) : open_file p = Done fd →
  closing fd r = r ∨ ∃ e, closing fd r = Err e ∧ close_failure e.
Proof.
  intros Ho. unfold closing. destruct (fd_close fd) as [[]|n] eqn:E; [by left|]. right. eexists. split; [done|].
  by exists p, fd, n.
Qed.

Lemma read_reference_spec root r capture b :
  (∃ read b', _read_reference root r capture b = Ok (read, b') ∧ blob_wf read ∧ read_ok root r capture read) ∨
  ∃ e, _read_reference root r capture b = Err e ∧ close_failure e.
Proof.
  assert (∀ x, (ok x = false ∧ failure_kind (bl_kind x) = true) → blob_wf x ∧ read_ok root r capture x) as Hfail.
  { intros x [H1 H2]. unfold blob_wf, read_ok. by rewrite H1. }
  unfold _read_reference. destruct (check_limits_of r capture) as [x|] eqn:E1.
  { left. do 2 eexists. split; [done|]. by eapply Hfail, check_limits_of_failed. }
  destruct (check_components _) as [x|] eqn:E2.
  { left. do 2 eexists. split; [done|]. by eapply Hfail, check_components_failed. }
  destruct (open_file _) as [fd|e] eqn:Eo.
  2:{ left. do 2 eexists. split; [done|]. apply Hfail. unfold open_failure. by repeat case_match. }
  destruct (closing_cases _ fd (read_descriptor fd r capture b) Eo) as [->|Hc]; [left|by right].
  unfold read_descriptor. destruct (fd_stat fd) as [m|] eqn:Em; [|do 2 eexists; split; [done|]; by apply Hfail].
  destruct (is_kind Regular m) eqn:Ek; [|do 2 eexists; split; [done|]; by apply Hfail]. cbn [negb].
  destruct (st_nlink m =? 1) eqn:En; [|do 2 eexists; split; [done|]; by apply Hfail]. cbn [negb].
  destruct (st_size m =? size_bytes r) eqn:Es; [|do 2 eexists; split; [done|]; by apply Hfail]. cbn [negb].
  destruct (_ <? _) eqn:El; [do 2 eexists; split; [done|]; by apply Hfail|].
  destruct (reading_terminates fd r capture {| rd_count := 0; rd_content := []; rd_budget := b |})
    as [[read b'] Hl]; [done|].
  rewrite Hl. exists read, b'. split; [done|].
  eapply (run_loop_ind _ (reading_inv fd) (λ o, blob_wf o.1 ∧ read_ok root r capture o.1)) in Hl; [done| | |].
  - by intros rest Hd.
  - intros s s'. apply reading_step.
  - intros s [read1 b1] Hs Hlv. destruct (reading_leave _ _ _ _ _ _ Hs Hlv) as [Hw Hok].
    split; [done|]. intros Ho. destruct (Hok Ho) as (bs & Hd & Hh & Hz & Hsz & Hdata).
    split; [by eapply check_limits_of_ref|]. exists bs. split_and!; try done.
    unfold is_kind in Ek. split_andb. exists fd, m. split_and!; try done; lia.
Qed.

(** ** Findings only accumulate *)

(** No finding has an owner, and none says that the scan failed. *)
Definition scan_failure (k : finding_key) : bool :=
  match fk_kind k with SCAN_ERROR | LIMIT_EXCEEDED => true | _ => false end.
Definition clean (F : _FindingBuilders) : Prop :=
  ∀ k os, F !! k = Some os → os = ∅ ∧ scan_failure k = false.

Lemma clean_add k os F : clean (add_finding k os F) → clean F ∧ os = ∅ ∧ scan_failure k = false.
Proof.
  intros H. unfold add_finding in H. destruct (H k (default ∅ (F !! k) ∪ os)) as [He Hk].
  { by rewrite lookup_insert_eq. }
  apply empty_union_L in He as [He ->]. split; [|done]. intros k' os' Hk'.
  destruct (decide (k' = k)) as [->|Hne].
  - rewrite Hk' in He. simpl in He. done.
  - apply (H k' os'). by rewrite lookup_insert_ne.
Qed.

(** What holds of every finding's key. *)
Definition all_keys (P : finding_key → Prop) (F : _FindingBuilders) : Prop := map_Forall (λ k _, P k) F.

Lemma all_keys_add P k os F : P k → all_keys P F → all_keys P (add_finding k os F).
Proof. intros Hk HF. by apply map_Forall_insert_2. Qed.
Lemma all_keys_empty P : all_keys P ∅.
Proof. apply map_Forall_empty. Qed.

Create HintDb audit.
#[local] Hint Resolve all_keys_add all_keys_empty : audit.

Definition not_orphan (k : finding_key) : Prop := is_orphan (fk_kind k) = false.

(** Steps of the audit on its local variables: unclean findings stay unclean, and the
    findings are not about orphans. *)
Record tracks (A A' : Auditing) : Prop := {
  tr_clean : clean (au_findings A') → clean (au_findings A);
  tr_keys : all_keys not_orphan (au_findings A) → all_keys not_orphan (au_findings A');
}.

Lemma tracks_refl A : tracks A A.
Proof. by split. Qed.
Lemma tracks_trans A1 A2 A3 : tracks A1 A2 → tracks A2 A3 → tracks A1 A3.
Proof. intros [C1 K1] [C2 K2]. split; auto. Qed.
Lemma tracks_add A k os : not_orphan k → tracks A (A <| au_findings ::= add_finding k os |>).
Proof. intros Hk. split; simpl; [by intros [? _]%clean_add|by apply all_keys_add]. Qed.

Lemma tracks_corrupt r d o A : tracks A (corrupt r d o A).
Proof. by apply tracks_add. Qed.

(** A corrupt reference is never clean. *)
Lemma corrupt_unclean r d o A : ¬ clean (au_findings (corrupt r d o A)).
Proof.
  intros (_ & He & _)%clean_add. assert (o ∈ ({[ o ]} : gset ArtifactOwner)) as Ho by set_solver.
  rewrite He in Ho. by apply elem_of_empty in Ho.
Qed.

Lemma tracks_unless b r d o A : tracks A (corrupt_unless b r d o A).
Proof. unfold corrupt_unless. destruct b; [apply tracks_refl|apply tracks_corrupt]. Qed.

Lemma unless_clean b r d o A : clean (au_findings (corrupt_unless b r d o A)) → b = true.
Proof. unfold corrupt_unless. destruct b; [done|]. by intros ?%corrupt_unclean. Qed.

(** A step that only adds findings leaves the rest alone. *)
Definition same_but_findings (A A' : Auditing) : Prop := A' = A <| au_findings := au_findings A' |>.

Lemma unless_same b r d o A : same_but_findings A (corrupt_unless b r d o A).
Proof. unfold same_but_findings, corrupt_unless, corrupt. by destruct b, A. Qed.

(** ** One node *)

Section node.
Variable store_root : path.

(** The reference is canonical and its file holds these bytes. *)
Definition blob_of (r : ArtifactRef) (bs : list Byte.byte) : Prop :=
  storage_ref r = _canonical_relative_path (sha256 r) ∧ holds_blob store_root (sha256 r) bs ∧
  size_bytes r = Z.of_nat (length bs).

(** The cached reads are about the files they name. *)
Definition reads_inv (A : Auditing) : Prop := ∀ r b,
  au_reads A !! (sha256 r, size_bytes r, storage_ref r) = Some b →
  blob_wf b ∧ (ok b = true → ∃ bs, blob_of r bs ∧ bl_size_bytes b = Some (size_bytes r) ∧
                                   (data b = None ∨ data b = Some bs)).

(** A digest marked verified has a file that hashes to it. *)
Definition verified_inv (A : Auditing) : Prop := ∀ d b, au_builders A !! d = Some b →
  rb_verified b = true → ∃ bs, holds_blob store_root d bs ∧ rb_size_bytes b = Z.of_nat (length bs).

(** Digests and their owners are never forgotten. *)
Definition builders_grow (A A' : Auditing) : Prop := ∀ d b, au_builders A !! d = Some b →
  ∃ b', au_builders A' !! d = Some b' ∧ rb_owners b ⊆ rb_owners b'.

Definition bound (A : Auditing) (n : _ReferenceNode) : Prop :=
  ∃ b, au_builders A !! sha256 (reference n) = Some b ∧ rn_owner n ∈ rb_owners b.

Lemma builders_grow_refl A : builders_grow A A.
Proof. intros d b H. eauto. Qed.
Lemma builders_grow_trans A1 A2 A3 : builders_grow A1 A2 → builders_grow A2 A3 → builders_grow A1 A3.
Proof.
  intros H1 H2 d b Hd. destruct (H1 d b Hd) as (b' & Hb' & Hs). destruct (H2 d b' Hb') as (b2 & Hb2 & Hs2).
  exists b2. split; [done|]. by etrans.
Qed.
Lemma bound_grow A A' n : builders_grow A A' → bound A n → bound A' n.
Proof. intros Hg (b & Hb & Ho). destruct (Hg _ _ Hb) as (b' & Hb' & Hs). exists b'. split; [done|]. by apply Hs. Qed.

Lemma bind_reference_spec n A :
  let A' := bind_reference n A in
  tracks A A' ∧ builders_grow A A' ∧ bound A' n ∧ (verified_inv A → verified_inv A') ∧
  au_reads A' = au_reads A ∧ au_pending A' = au_pending A.
Proof.
  unfold bind_reference. set (b := default _ _).
  match goal with |- context [if ?c then A else ?x] => set (A1 := if c then A else x) end.
  assert (tracks A A1 ∧ au_builders A1 = au_builders A ∧ au_reads A1 = au_reads A ∧
          au_pending A1 = au_pending A) as (Ht & Hb & Hr & Hp).
  { unfold A1. destruct (_ && _); [split; [apply tracks_refl|done]|]. split; [by apply tracks_add|done]. }
  cbn. split_and!; try done.
  - destruct Ht as [C K]. by split.
  - intros d b' Hd. cbn. rewrite Hb. destruct (decide (d = sha256 (reference n))) as [->|Hne].
    + rewrite lookup_insert_eq. eexists. split; [done|]. cbn. unfold b. rewrite Hd. cbn. set_solver.
    + rewrite lookup_insert_ne by done. eauto.
  - unfold bound. cbn. rewrite lookup_insert_eq. eexists. split; [done|]. cbn. set_solver.
  - intros Hv d b' Hd. cbn in Hd. rewrite Hb in Hd.
    destruct (decide (d = sha256 (reference n))) as [->|Hne].
    + rewrite lookup_insert_eq in Hd. injection Hd as <-. cbn. unfold b.
      destruct (au_builders A !! sha256 (reference n)) as [b0|] eqn:E0; cbn; [|done]. by apply Hv.
    + rewrite lookup_insert_ne in Hd by done. by apply Hv.
Qed.

Definition captures (n : _ReferenceNode) : bool := match rn_role n with Some _ => true | None => false end.

(** A read that is cached, or could be. *)
Definition cached (n : _ReferenceNode) (A : Auditing) (read : _BlobRead) (A' : Auditing) : Prop :=
  blob_wf read ∧
  (ok read = true → ∃ bs, blob_of (reference n) bs ∧ bl_size_bytes read = Some (size_bytes (reference n)) ∧
     (captures n = true → data read = Some bs)) ∧
  reads_inv A' ∧ au_findings A' = au_findings A ∧ au_builders A' = au_builders A ∧
  au_pending A' = au_pending A.

Lemma cached_read_spec n A : reads_inv A →
  (∃ read A', cached_read store_root n A = Ok (read, A') ∧ cached n A read A') ∨
  ∃ e, cached_read store_root n A = Err e ∧ close_failure e.
Proof.
  intros Hi. unfold cached_read. change (match rn_role n with Some _ => true | None => false end) with (captures n).
  match goal with |- context [match _ with Some _ => _ | None => ?f end] => set (fresh := f) end.
  assert ((∃ read A', fresh = Ok (read, A') ∧ cached n A read A') ∨ ∃ e, fresh = Err e ∧ close_failure e) as Hfresh.
  { unfold fresh. destruct (read_reference_spec store_root (reference n) (captures n) (au_budget A))
      as [(read & b & Hr & Hw & Hok)|(e & Hr & He)]; rewrite Hr; cbn [mbind result_bind]; [left|right; eauto].
    do 2 eexists. split; [done|]. split; [done|]. split; [|split; [|done]].
    - intros Ho. destruct (Hok Ho) as (Hs & bs & Hb & Hz & Hsz & Hd). exists bs. split_and!; try done.
      intros Hc. by rewrite Hc in Hd.
    - intros r' b'. cbn. destruct (decide ((sha256 r', size_bytes r', storage_ref r') =
        (sha256 (reference n), size_bytes (reference n), storage_ref (reference n)))) as [E|Hne].
      + rewrite E, lookup_insert_eq. intros [= <-]. split; [done|]. intros Ho.
        destruct (Hok Ho) as (Hs & bs & Hb & Hz & Hsz & Hd). injection E as E1 E2 E3. exists bs.
        unfold blob_of. rewrite E1, E2, E3. split_and!; try done. rewrite Hd. destruct (captures n); auto.
      + rewrite lookup_insert_ne by congruence. apply Hi. }
  destruct (au_reads A !! _) as [old|] eqn:Eold; [|done].
  destruct (captures n && ok old && negb (present (data old))) eqn:Ec; [done|].
  left. exists old, A. destruct (Hi _ _ Eold) as [Hwo Hoo]. split; [done|]. split; [done|]. split; [|done].
  intros Ho. destruct (Hoo Ho) as (bs & Hb & Hsz & Hd). exists bs. split_and!; try done.
  intros Hc. rewrite Hc, Ho in Ec. destruct Hd as [Hd|Hd]; [|done]. by rewrite Hd in Ec.
Qed.

Lemma mark_verified_spec d size A bs :
  holds_blob store_root d bs → size = Z.of_nat (length bs) →
  let A' := mark_verified d size A in
  builders_grow A A' ∧ (verified_inv A → verified_inv A') ∧ reads_inv A = reads_inv A' ∧
  au_findings A' = au_findings A ∧ au_pending A' = au_pending A.
Proof.
  intros Hb ->. unfold mark_verified. split_and!; try done.
  - intros d' b Hd. cbn. destruct (decide (d' = d)) as [->|Hne].
    + rewrite lookup_alter_eq, Hd. cbn. eexists. split; [done|]. done.
    + rewrite lookup_alter_ne by done. eauto.
  - intros Hv d' b Hd. cbn in Hd. destruct (decide (d' = d)) as [->|Hne].
    + rewrite lookup_alter_eq in Hd. destruct (au_builders A !! d); [|done]. injection Hd as <-. cbn. eauto.
    + rewrite lookup_alter_ne in Hd by done. by apply Hv.
Qed.

(** ** Structured artifacts *)

Context {datetimes : PydanticDatetime} {parser : PydanticJson}.
Variable manifests : gmap string RunManifest.

(** The reference's bytes are the canonical text of a record that pydantic reads back. *)
Definition reads_as {T} (validate : json → result T) (dump : T → json) (r : ArtifactRef) (t : T) : Prop :=
  ∃ bs, blob_of r bs ∧ model_validate_json validate bs = Ok t ∧ canonical_bytes (dump t) = Some bs.

(** What an untroubled structured artifact says, with the nodes it leads to in [Q]. *)
Definition task_settled (n : _ReferenceNode) (Q : list _ReferenceNode) : Prop :=
  ∃ t m nodes, reads_as validate_task dump_task (reference n) t ∧
    media_type (reference n) = _TASK_MEDIA_TYPE ∧ manifests !! ow_run_id (rn_owner n) = Some m ∧
    ts_task_id t = m_task_id m ∧ image_digest t = m_environment_digest m ∧
    _task_references (ow_run_id (rn_owner n)) t = Ok nodes ∧ nodes ⊆ Q.

Definition evaluation_settled (n : _ReferenceNode) (Q : list _ReferenceNode) : Prop :=
  ∃ e m nodes, reads_as validate_evaluation dump_evaluation (reference n) e ∧
    media_type (reference n) = _EVALUATION_MEDIA_TYPE ∧ manifests !! ow_run_id (rn_owner n) = Some m ∧
    er_run_id e = m_run_id m ∧ er_run_status e = m_status m ∧
    evidence e = omap (λ role, m_artifacts m !! role) evaluation_evidence_roles ∧
    _evaluation_references (ow_run_id (rn_owner n)) e = Ok nodes ∧ nodes ⊆ Q.

Definition role_settled (n : _ReferenceNode) (Q : list _ReferenceNode) : Prop :=
  match rn_role n with
  | None => True
  | Some TaskRole => task_settled n Q
  | Some EvaluationRole => evaluation_settled n Q
  end.

Lemma role_settled_mono n Q Q' : Q ⊆ Q' → role_settled n Q → role_settled n Q'.
Proof.
  intros Hs. unfold role_settled, task_settled, evaluation_settled. destruct (rn_role n) as [[]|]; [| |done].
  - intros (t & m & nodes & H). exists t, m, nodes. set_solver.
  - intros (t & m & nodes & H). exists t, m, nodes. set_solver.
Qed.

(** The outcome of reading a structured artifact: the queue grows by [new]. *)
Record structured_step (n : _ReferenceNode) (settled : list _ReferenceNode → Prop) (A A' : Auditing) : Prop := {
  ss_tracks : tracks A A';
  ss_builders : au_builders A' = au_builders A;
  ss_reads : au_reads A' = au_reads A;
  ss_new : ∃ new, au_pending A' = au_pending A ++ new ∧
             (clean (au_findings A') → ∀ Q, new ⊆ Q → settled Q);
}.

Lemma structured_corrupt n S r d o A : structured_step n S A (corrupt r d o A).
Proof.
  split; [apply tracks_corrupt|done|done|]. exists []. rewrite app_nil_r. split; [done|].
  by intros ?%corrupt_unclean.
Qed.

Ltac unless_tac := repeat match goal with
  | |- context [corrupt_unless ?b ?r ?d ?o ?A] =>
      let A' := fresh "A" in pose proof (unless_same b r d o A); pose proof (tracks_unless b r d o A);
      pose proof (unless_clean b r d o A); set (A' := corrupt_unless b r d o A) in *; clearbody A'
  | H : context [corrupt_unless ?b ?r ?d ?o ?A] |- _ =>
      let A' := fresh "A" in pose proof (unless_same b r d o A); pose proof (tracks_unless b r d o A);
      pose proof (unless_clean b r d o A); set (A' := corrupt_unless b r d o A) in *; clearbody A'
  end.

Lemma same_trans A1 A2 A3 : same_but_findings A1 A2 → same_but_findings A2 A3 → same_but_findings A1 A3.
Proof. unfold same_but_findings. intros -> H. rewrite H. done. Qed.

Lemma same_findings_fields A A' : same_but_findings A A' →
  au_builders A' = au_builders A ∧ au_reads A' = au_reads A ∧ au_pending A' = au_pending A.
Proof. unfold same_but_findings. intros ->. done. Qed.

Ltac open_same := repeat match goal with
  | H : same_but_findings _ _ |- _ => apply same_findings_fields in H as (? & ? & ?)
  end.
(** Follows the chain of [tracks] hypotheses to the end of a processing step. *)
Ltac follow_tracks := repeat (eapply tracks_trans; [eassumption|]); by split.
(** The findings were clean all along. *)
Ltac all_clean := repeat match goal with
  | T : tracks ?X ?Y, D : clean (au_findings ?Y) |- _ =>
      lazymatch goal with _ : clean (au_findings X) |- _ => fail | _ => pose proof (tr_clean _ _ T D) end
  end.

Lemma process_task_spec n bs A A' :
  blob_of (reference n) bs → process_task manifests n bs A = Ok A' →
  structured_step n (task_settled n) A A'.
Proof.
  intros Hb. unfold process_task. destruct (str_eqb (media_type _) _) eqn:Em; simpl.
  2:{ intros [= <-]. apply structured_corrupt. }
  destruct (model_validate_json _ _) as [task|] eqn:Ev.
  2:{ intros [= <-]. apply structured_corrupt. }
  destruct (bool_decide _) eqn:Ec; simpl.
  2:{ intros [= <-]. apply structured_corrupt. }
  intros H. inv_ok. unless_tac. split_andb. apply String.eqb_eq in Em.
  open_same.
  split; cbn.
  - follow_tracks.
  - congruence.
  - congruence.
  - exists a0. split; [congruence|]. intros Hcl Q HQ.
    all_clean. repeat match goal with C : clean (au_findings ?X) → _ = true, D : clean (au_findings ?X) |- _ =>
      specialize (C D) end. split_andb.
    repeat match goal with E : str_eqb _ _ = true |- _ => apply String.eqb_eq in E end.
    exists task, a, a0. unfold reads_as. split_and!; eauto.
Qed.

Lemma process_evaluation_spec n bs A A' :
  blob_of (reference n) bs → process_evaluation manifests n bs A = Ok A' →
  structured_step n (evaluation_settled n) A A'.
Proof.
  intros Hb. unfold process_evaluation. destruct (str_eqb (media_type _) _) eqn:Em; simpl.
  2:{ intros [= <-]. apply structured_corrupt. }
  destruct (model_validate_json _ _) as [e|] eqn:Ev.
  2:{ intros [= <-]. apply structured_corrupt. }
  destruct (bool_decide _) eqn:Ec; simpl.
  2:{ intros [= <-]. apply structured_corrupt. }
  intros H. inv_ok. unfold _crosscheck_evaluation in *. unless_tac. split_andb. apply String.eqb_eq in Em.
  open_same.
  split; cbn.
  - follow_tracks.
  - congruence.
  - congruence.
  - exists a0. split; [congruence|]. intros Hcl Q HQ.
    all_clean. repeat match goal with C : clean (au_findings ?X) → _ = true, D : clean (au_findings ?X) |- _ =>
      specialize (C D) end. split_andb.
    repeat match goal with E : str_eqb _ _ = true |- _ => apply String.eqb_eq in E end.
    exists e, a, a0. unfold reads_as. split_and!; eauto.
Qed.

(** What processing one node does. *)
Record node_step (n : _ReferenceNode) (A A' : Auditing) : Prop := {
  ns_tracks : tracks A A';
  ns_builders : builders_grow A A';
  ns_reads : reads_inv A';
  ns_verified : verified_inv A';
  ns_new : ∃ new, au_pending A' = au_pending A ++ new ∧
    (clean (au_findings A') → bound A' n ∧ (∃ bs, blob_of (reference n) bs) ∧
       ∀ Q, new ⊆ Q → role_settled n Q);
}.

Lemma same_builders_grow A A' : au_builders A' = au_builders A → builders_grow A A'.
Proof. intros E d b H. rewrite E. eauto. Qed.

Lemma same_fields_inv A A' :
  au_builders A' = au_builders A → au_reads A' = au_reads A →
  (verified_inv A → verified_inv A') ∧ (reads_inv A → reads_inv A').
Proof. intros E1 E2. unfold verified_inv, reads_inv. by rewrite E1, E2. Qed.

Lemma process_node_spec n A A' :
  reads_inv A → verified_inv A → process_node store_root manifests n A = Ok A' → node_step n A A'.
Proof.
  intros Hr Hv. unfold process_node.
  destruct (bind_reference_spec n A) as (T1 & G1 & Bn & V1 & R1 & P1).
  set (A1 := bind_reference n A) in *. clearbody A1.
  assert (reads_inv A1) as Hr1 by (intros r b; rewrite R1; apply Hr).
  destruct (cached_read_spec n A1 Hr1) as [(read & A2 & Ec & Hw & Hok & Hr2 & F2 & B2 & P2)|(e & Ec & _)];
    rewrite Ec; [|done]. cbn [mbind result_bind]. unfold blob_wf in Hw.
  assert (tracks A1 A2) as T2 by (split; by rewrite F2).
  assert (verified_inv A2) as Hv2 by (intros d b; rewrite B2; by apply V1).
  pose proof (same_builders_grow _ _ B2) as G2.
  destruct (ok read) eqn:Eok; cbn [negb].
  - destruct (Hok eq_refl) as (bs & Hb & Hsz & Hd). rewrite Hsz. cbn [of_option mbind result_bind].
    destruct (mark_verified_spec (sha256 (reference n)) (size_bytes (reference n)) A2 bs)
      as (G3 & V3 & R3 & F3 & P3); [apply Hb|apply Hb|].
    set (A3 := mark_verified _ _ A2) in *. clearbody A3. rewrite R3 in Hr2.
    assert (tracks A2 A3) as T3 by (split; by rewrite F3).
    assert (∀ S A4, structured_step n S A3 A4 → (∀ Q, S Q → role_settled n Q) → node_step n A A4) as Hfin.
    { intros S A4 [T4 B4 R4 (new & Hp & Hc)] HS. destruct (same_fields_inv A3 A4 B4 R4) as [Hv4 Hr4].
      pose proof (same_builders_grow _ _ B4) as G4. split; [eauto using tracks_trans| | | |].
      - eauto using builders_grow_trans.
      - auto.
      - auto.
      - exists new. split; [congruence|]. intros Hcl. split; [|split; [eauto|eauto]].
        eapply bound_grow; [|exact Bn]. eauto using builders_grow_trans. }
    unfold captures in Hd. destruct (rn_role n) as [role|] eqn:Erole.
    + rewrite (Hd eq_refl). destruct role; intros H.
      * eapply Hfin; [by eapply process_task_spec|]. unfold role_settled. by rewrite Erole.
      * eapply Hfin; [by eapply process_evaluation_spec|]. unfold role_settled. by rewrite Erole.
    + intros H. assert (A' = A3) as -> by (by destruct (data read); injection H).
      apply (Hfin (λ _, True)); [|unfold role_settled; by rewrite Erole].
      split; [apply tracks_refl|done|done|]. exists []. by rewrite app_nil_r.
  - destruct (bl_kind read) as [k|] eqn:Ek; [|done]. cbn [of_option mbind result_bind]. intros [= <-].
    split; cbn.
    + eapply tracks_trans; [exact T1|]. eapply tracks_trans; [exact T2|]. apply tracks_add.
      simpl in Hw. unfold not_orphan. simpl. by destruct (is_orphan k).
    + eauto using builders_grow_trans.
    + done.
    + done.
    + exists []. rewrite app_nil_r. split; [congruence|]. intros (_ & He & _)%clean_add. set_solver.
Qed.

(** ** The queue *)

(** A node that was bound, read and, if structured, understood. *)
Definition node_settled (A : Auditing) (Q : list _ReferenceNode) (n : _ReferenceNode) : Prop :=
  bound A n ∧ (∃ bs, blob_of (reference n) bs) ∧ role_settled n Q.

Record tracing (F0 : _FindingBuilders) (init past : list _ReferenceNode) (A : Auditing) : Prop := {
  tc_clean : clean (au_findings A) → clean F0;
  tc_reads : reads_inv A;
  tc_verified : verified_inv A;
  tc_keys : all_keys not_orphan (au_findings A);
  tc_init : init ⊆ past ++ au_pending A;
  tc_settled : clean (au_findings A) → ∀ n, n ∈ past → node_settled A (past ++ au_pending A) n;
}.

Lemma tracing_step F0 init past A A' n rest p :
  tracing F0 init past A → au_pending A = n :: rest →
  process_node store_root manifests n (A <| au_pending := rest |> <| au_processed := p |>) = Ok A' →
  tracing F0 init (past ++ [n]) A'.
Proof.
  intros [Hc0 Hr Hv Hk Hi Hs] Hp H. set (A0 := A <| au_pending := rest |> <| au_processed := p |>) in *.
  apply process_node_spec in H as [T G Hr' Hv' (new & Hnew & Hc)]; [|done|done].
  assert (au_pending A0 = rest) as Hrest by done. rewrite Hrest in Hnew.
  assert (past ++ au_pending A ⊆ (past ++ [n]) ++ au_pending A') as Hsub.
  { rewrite Hp, Hnew. set_solver. }
  split; [by intros ?%(tr_clean _ _ T)%Hc0|done|done| | |].
  - by apply (tr_keys _ _ T).
  - etrans; [exact Hi|exact Hsub].
  - intros Hcl m Hm. pose proof (tr_clean _ _ T Hcl) as Hcl0. destruct (Hc Hcl) as (Hb & Hbs & Hrole).
    apply elem_of_app in Hm as [Hm|Hm%list_elem_of_singleton].
    + destruct (Hs Hcl0 m Hm) as (Hbm & Hbsm & Hrm). split; [|split; [done|]].
      * by apply (bound_grow A0).
      * by eapply role_settled_mono.
    + subst m. split; [done|]. split; [done|]. apply Hrole. rewrite Hnew. set_solver.
Qed.

(** What the processed queue says. *)
Record traced (F0 : _FindingBuilders) (init : list _ReferenceNode) (A : Auditing) : Prop := {
  td_clean : clean (au_findings A) → clean F0;
  td_verified : verified_inv A;
  td_keys : all_keys not_orphan (au_findings A);
  td_settled : clean (au_findings A) →
    ∃ past, init ⊆ past ∧ ∀ n, n ∈ past → node_settled A past n;
}.

Lemma audit_step_continue F0 init past A A' :
  tracing F0 init past A → audit_step store_root manifests A = Continue A' →
  ∃ past', tracing F0 init past' A'.
Proof.
  unfold audit_step. intros Ht. destruct (au_pending A) as [|n rest] eqn:Ep; [done|].
  case_match; [done|]. destruct (process_node _ _ _ _) as [A1|] eqn:E; [|done]. intros [= <-].
  exists (past ++ [n]). by eapply tracing_step.
Qed.

Lemma audit_step_leave F0 init past A A' :
  tracing F0 init past A → audit_step store_root manifests A = Leave (Ok A') → traced F0 init A'.
Proof.
  unfold audit_step. intros [Hc0 Hr Hv Hk Hi Hs]. destruct (au_pending A) as [|n rest] eqn:Ep.
  - intros [= <-]. rewrite app_nil_r in Hi. split; [done|done|done|]. intros Hcl. exists past. split; [done|].
    intros n Hn. specialize (Hs Hcl n Hn). by rewrite app_nil_r in Hs.
  - case_match.
    + intros [= <-]. split; cbn; [by intros (_ & _ & Hf)%clean_add|done|by apply all_keys_add|]. by intros (_ & _ & Hf)%clean_add.
    + by destruct (process_node _ _ _ _).
Qed.

Lemma process_pending_spec F0 init A A' :
  tracing F0 init [] A → process_pending store_root manifests A = Ok A' → traced F0 init A'.
Proof.
  intros Ht. unfold process_pending, bounded.
  destruct (run_loop _ _ _) as [A1|r] eqn:E; simpl; [done|].
  intros ->. revert E.
  generalize (Z.to_pos (_MAX_REACHABLE_REFERENCES + 1)). intros p E.
  assert (∀ A2, Ok A' = Ok A2 → traced F0 init A2) as Hall; [|by apply Hall].
  refine (run_loop_ind _ (λ A, ∃ past, tracing F0 init past A) (λ r, ∀ A2, r = Ok A2 → traced F0 init A2)
            p A (Ok A') E _ _ _).
  - eauto.
  - intros s s' [past Hs]. by eapply audit_step_continue.
  - intros s r' [past Hs] Hl A2 ->. by eapply audit_step_leave.
Qed.
End node.

(** ** Cross-checks and inventory *)

Lemma crosscheck_run_spec A id : tracks A (crosscheck_run A id) ∧ same_but_findings A (crosscheck_run A id).
Proof.
  assert (∀ A, same_but_findings A A) as Hrefl by (by intros []).
  unfold crosscheck_run. destruct (au_tasks A !! id) as [t|]; [|split; [apply tracks_refl|done]].
  destruct (au_evaluations A !! id) as [[[e r] o]|]; [|split; [apply tracks_refl|done]].
  set (A1 := corrupt_unless _ _ _ _ A).
  assert (tracks A A1 ∧ same_but_findings A A1) as [H1 H2] by (split; [apply tracks_unless|apply unless_same]).
  assert (tracks A A1 ∧ same_but_findings A A1) as H by done.
  destruct (jget _ _) as [[]|]; try exact H. destruct (py_strip_nonempty _); [|exact H].
  split; [eapply tracks_trans; [exact H1|apply tracks_unless]|].
  eapply same_trans; [exact H2|apply unless_same].
Qed.

Lemma crosscheck_spec A : tracks A (_crosscheck_task_evaluations A) ∧
  same_but_findings A (_crosscheck_task_evaluations A).
Proof.
  unfold _crosscheck_task_evaluations. generalize (sort_by id (elements (dom (au_tasks A) ∩ dom (au_evaluations A) : gset string))).
  intros l. revert A. induction l as [|x l IH]; intros A; simpl.
  - split; [apply tracks_refl|by destruct A].
  - destruct (crosscheck_run_spec A x) as [T1 S1], (IH (crosscheck_run A x)) as [T2 S2].
    split; [by eapply tracks_trans|by eapply same_trans].
Qed.

Lemma hash_loop_digest fd p b d b' :
  run_loop p (hash_step fd) {| rd_count := 0; rd_content := []; rd_budget := b |} = Leave (Hashed d, b') →
  ∃ bs, delivers fd 0 bs ∧ sha256_bytes bs = d.
Proof.
  intros H.
  refine (run_loop_ind _ (reading_inv fd)
    (λ o, ∀ d, o.1 = Hashed d → ∃ bs, delivers fd 0 bs ∧ sha256_bytes bs = d) p _ _ H _ _ _ d eq_refl).
  - by intros rest Hd.
  - intros s s' Hs. unfold hash_step. destruct (fd_read _ _ _) as [[|c chunk]|] eqn:E; [done| |done].
    destruct (_ <? _); [done|]. destruct (consume _ _); [|done]. intros [= <-] rest Hd.
    cbn [rd_count rd_content] in *. rewrite <- app_assoc. apply Hs. by eapply delivers_more.
  - intros s [h b1] Hs. unfold hash_step. destruct (fd_read _ _ _) as [[|c chunk]|] eqn:E.
    + intros [= <- <-] d' [= <-]. exists (rd_content s). split; [|done].
      rewrite <- (app_nil_r (rd_content s)). apply Hs. by eapply delivers_end.
    + destruct (_ <? _); [by intros [= <- <-] ?|]. destruct (consume _ _); [done|]. by intros [= <- <-] ?.
    + by intros [= <- <-] ?.
Qed.

Lemma startswith_take p s : startswith p s = true → String.length p = 2%nat → take_prefix 2 s = p.
Proof. unfold startswith, take_prefix. intros H <-. by apply String.prefix_correct. Qed.

Section inventory.
Variables (store_root : path) (reach : gmap string (gset ArtifactOwner)).

(** A finding about an orphan names a canonical file that nothing references; if it is
    called valid, the file's bytes hash to its name. *)
Definition orphan_unreached (k : finding_key) : Prop := is_orphan (fk_kind k) = true →
  ∃ digest, fk_relative_path k = _canonical_relative_path digest ∧ is_lower_sha256 digest = true ∧
    reach !! digest = None ∧
    (fk_kind k = VALID_FINALIZED_ORPHAN → ∃ fd bs,
       open_file (canonical_path store_root digest) = Done fd ∧ delivers fd 0 bs ∧ sha256_bytes bs = digest).

Record lists (V V' : Inventory) : Prop := {
  ls_clean : clean (in_findings V') → clean (in_findings V);
  ls_keys : all_keys orphan_unreached (in_findings V) → all_keys orphan_unreached (in_findings V');
}.

Lemma lists_refl V : lists V V.
Proof. by split. Qed.
Lemma lists_trans V1 V2 V3 : lists V1 V2 → lists V2 V3 → lists V1 V3.
Proof. intros [C1 K1] [C2 K2]. split; auto. Qed.
Lemma lists_note V k os : orphan_unreached k → lists V (note k os V).
Proof. intros Hk. split; simpl; [by intros [? _]%clean_add|by apply all_keys_add]. Qed.
Lemma lists_same V V' : in_findings V' = in_findings V → lists V V'.
Proof. intros E. split; by rewrite E. Qed.
Lemma not_orphan_unreached k : is_orphan (fk_kind k) = false → orphan_unreached k.
Proof. intros H1 H2. congruence. Qed.
Lemma lists_note_plain V k os : is_orphan (fk_kind k) = false → lists V (note k os V).
Proof. intros H. by apply lists_note, not_orphan_unreached. Qed.

Lemma scan_entries_lists relative es acc :
  lists acc.2 (fold_left (scan_entry relative) es acc).2.
Proof.
  revert acc. induction es as [|e es IH]; intros [o V]; simpl; [apply lists_refl|].
  eapply lists_trans; [|apply IH]. unfold scan_entry. destruct o as [l|]; [|apply lists_refl].
  case_match.
  - eapply lists_trans; [apply (lists_same _ (V <| in_counter ::= Z.succ |>)); done|].
    by apply lists_note_plain.
  - destruct (de_name e).
    + by apply lists_same.
    + eapply lists_trans; [apply (lists_same _ (V <| in_counter ::= Z.succ |>)); done|].
      by apply lists_note_plain.
Qed.

Lemma scan_directory_lists p relative V o V' : _scan_directory p relative V = (o, V') → lists V V'.
Proof.
  unfold _scan_directory. pose proof (scan_entries_lists relative (entries (scandir p)) (Some [], V)) as H.
  destruct (fold_left _ _ _) as [[es|] V1]; simpl in H.
  - destruct (scan_error _); intros [= <- <-]; [|done].
    eapply lists_trans; [exact H|]. by apply lists_note_plain.
  - by intros [= <- <-].
Qed.

Lemma entry_stat_lists st relative V o V' : _entry_stat st relative V = (o, V') → lists V V'.
Proof. destruct st; simpl; intros [= <- <-]; [apply lists_refl|by apply lists_note_plain]. Qed.

Lemma classify_mode_lists m relative V : lists V (_classify_mode_noncanonical m relative V).
Proof. unfold _classify_mode_noncanonical. apply lists_note_plain. simpl. by destruct (_ || _). Qed.

Lemma classify_lists st relative V : lists V (_classify_noncanonical st relative V).
Proof.
  unfold _classify_noncanonical. destruct (_entry_stat st relative V) as [o V1] eqn:E.
  pose proof (entry_stat_lists _ _ _ _ _ E) as H1. destruct o as [m|]; [|done].
  eapply lists_trans; [exact H1|]. case_match; [by apply lists_note_plain|apply classify_mode_lists].
Qed.

Lemma hash_path_digest p b d b' : _hash_path_no_follow p b = Ok (Hashed d, b') →
  ∃ fd bs, open_file p = Done fd ∧ delivers fd 0 bs ∧ sha256_bytes bs = d.
Proof.
  unfold _hash_path_no_follow. destruct (open_file p) as [fd|]; [|done]. intros [_ H]%closing_Ok. revert H.
  destruct (fd_stat fd) as [m|]; [|done]. case_match; [done|]. case_match; [done|].
  unfold bounded. intros Hl%of_option_Ok. destruct (run_loop _ _ _) as [|o] eqn:E; [done|].
  injection Hl as ->. destruct (hash_loop_digest _ _ _ _ _ E) as (bs & ? & ?). eauto.
Qed.

Lemma orphan_lists prefix name m V V' :
  String.length prefix = 2%nat → startswith prefix name = true → is_lower_sha256 name = true →
  reach !! name = None →
  inventory_orphan ((store_root ++ ["sha256"; prefix]) ++ [name]) ("sha256/" +:+ prefix +:+ "/" +:+ name)
    name m V = Ok V' → lists V V'.
Proof.
  intros Hl Hp Hn Hr. unfold inventory_orphan. case_match; [intros [= <-]; by apply lists_note_plain|].
  intros H'. inv_ok. destruct a as [h b].
  eapply lists_trans; [apply (lists_same _ (V <| in_budget := b |>)); done|].
  destruct h as [d| |]; injection H' as <-; [|by apply lists_note_plain|by apply lists_note_plain].
  apply lists_note. intros _. exists name. cbn [fkey fk_relative_path fk_kind].
  pose proof (startswith_take _ _ Hp Hl) as Ht. unfold _canonical_relative_path, canonical_path.
  rewrite Ht. split_and!; try done. destruct (str_eqb d name) eqn:E; [|done]. intros _.
  apply String.eqb_eq in E as <-. by eapply hash_path_digest.
Qed.

Lemma shard_entry_lists prefix V entry V' : String.length prefix = 2%nat →
  shard_entry (store_root ++ ["sha256"; prefix]) prefix reach V entry = Ok V' → lists V V'.
Proof.
  intros Hl. unfold shard_entry. destruct entry as [name st].
  destruct (_entry_stat _ _ V) as [o V1] eqn:E. pose proof (entry_stat_lists _ _ _ _ _ E) as H1.
  destruct o as [m|]; [|by intros [= <-]]. intros H. eapply lists_trans; [exact H1|]. clear V E H1.
  case_match; [injection H as <-; by apply lists_note_plain|].
  case_match; [injection H as <-; by apply lists_note_plain|].
  case_match; [injection H as <-; case_match; by apply lists_note_plain|].
  destruct (negb (is_lower_sha256 name && startswith prefix name)) eqn:Ec; simpl in H.
  { injection H as <-. apply classify_mode_lists. }
  split_andb. case_match; [injection H as <-; apply classify_mode_lists|].
  destruct (reach !! name) eqn:Er; simpl in H; [injection H as <-; by apply lists_same|].
  by eapply orphan_lists.
Qed.

Lemma foldM_lists {B} (f : Inventory → B → result Inventory) V l V' :
  (∀ V x V', f V x = Ok V' → lists V V') → foldM f V l = Ok V' → lists V V'.
Proof.
  intros Hf H. refine (foldM_ind (lists V) f V l V' H (lists_refl V) _).
  intros V1 x V2 _ HV Hx. eapply lists_trans; eauto.
Qed.

Lemma inventory_shard_lists prefix V V' : String.length prefix = 2%nat →
  _inventory_shard (store_root ++ ["sha256"; prefix]) prefix reach V = Ok V' → lists V V'.
Proof.
  intros Hl. unfold _inventory_shard. destruct (_scan_directory _ _ V) as [o V1] eqn:E.
  pose proof (scan_directory_lists _ _ _ _ _ E) as H1. destruct o as [es|]; [|by intros [= <-]].
  intros H. eapply lists_trans; [exact H1|]. eapply foldM_lists; [|exact H].
  intros V2 x V3. by apply shard_entry_lists.
Qed.

Lemma prefix_entry_lists V entry V' : prefix_entry store_root reach V entry = Ok V' → lists V V'.
Proof.
  unfold prefix_entry. destruct entry as [name st].
  destruct (_entry_stat _ _ V) as [o V1] eqn:E. pose proof (entry_stat_lists _ _ _ _ _ E) as H1.
  destruct o as [m|]; [|by intros [= <-]]. intros H. eapply lists_trans; [exact H1|]. clear V E H1.
  case_match; [injection H as <-; by apply lists_note_plain|].
  destruct (negb (is_lower_hex 2 name)) eqn:Ep; simpl in H.
  { injection H as <-. apply lists_note_plain. simpl. by case_match. }
  case_match; [injection H as <-; apply lists_note_plain; simpl; by case_match|].
  eapply inventory_shard_lists; [|exact H]. split_andb. unfold is_lower_hex in Ep. split_andb.
  by apply Nat.eqb_eq.
Qed.

Lemma root_entry_lists V entry V' : root_entry store_root reach V entry = Ok V' → lists V V'.
Proof.
  unfold root_entry. destruct entry as [name st]. case_match; [intros [= <-]; apply classify_lists|].
  destruct (_entry_stat _ _ V) as [o V1] eqn:E. pose proof (entry_stat_lists _ _ _ _ _ E) as H1.
  destruct o as [m|]; [|by intros [= <-]]. intros H'. eapply lists_trans; [exact H1|]. clear V E H1.
  case_match; [injection H' as <-; by apply lists_note_plain|].
  case_match; [injection H' as <-; by apply lists_note_plain|].
  destruct (_scan_directory _ _ V1) as [o V2] eqn:E. pose proof (scan_directory_lists _ _ _ _ _ E) as H3.
  destruct o as [es|]; [|by injection H' as <-].
  eapply lists_trans; [exact H3|]. eapply foldM_lists; [|exact H']. apply prefix_entry_lists.
Qed.

Lemma inventory_lists V V' : _inventory_store store_root reach V = Ok V' → lists V V'.
Proof.
  unfold _inventory_store. destruct (_scan_directory _ _ V) as [o V1] eqn:E.
  pose proof (scan_directory_lists _ _ _ _ _ E) as H1. destruct o as [es|]; [|by intros [= <-]].
  intros H. eapply lists_trans; [exact H1|]. eapply foldM_lists; [|exact H]. apply root_entry_lists.
Qed.
End inventory.
End audit.
