(* ===== verification/AuditFacts.v ===== *)
(** * What an audit report promises (src/guildmind/storage/integrity.py)

    The steps of IntegrityFacts.v put together: from the roots and the report of
    [audit_artifact_store] to the statements about the store. *)

From coqutil Require Import Datatypes.RecordSettersUsingExistingGetters.
From S2P Require Import Prelude Order Loop Effects PyStr Files Float64 Json Hash Datetime Fields Usage.
From S2P Require Import Models Specs Replay SampleRun Sqlite EventStore SampleLedger Artifacts.
From S2P Require Import Integrity SampleStore IntegrityFacts.

Local Open Scope Z_scope.

Section audit.
Context {hashing : Hashing} {fs : FileSystem}.

(** ** Freezing *)

Lemma check_finding_id f f' : check_finding f = Ok f' → f' = f.
Proof. unfold check_finding. intros H. by inv_ok. Qed.
Lemma check_reachable_id r r' : check_reachable r = Ok r' → r' = r.
Proof. unfold check_reachable. intros H. by inv_ok. Qed.
Lemma check_audit_id a a' : check_audit a = Ok a' → a' = a.
Proof. unfold check_audit. intros H. by inv_ok. Qed.

Lemma freeze_elem F l f : freeze F = Ok l →
  f ∈ l ↔ ∃ k os, F !! k = Some os ∧ f = {| finding := k; owners := sorted_owners os |}.
Proof.
  unfold freeze. intros H. inv_ok. rewrite elem_of_sort_by. split.
  - intros Hf. destruct (mapR_elem_inv _ _ _ _ H0 Hf) as ([k os] & Hc & Hin).
    apply check_finding_id in Hc. apply elem_of_map_to_list in Hin. eauto.
  - intros (k & os & Hk & ->). apply elem_of_map_to_list in Hk.
    destruct (mapR_elem _ _ _ _ H0 Hk) as (f & Hc & Hin). by apply check_finding_id in Hc as ->.
Qed.

Lemma sorted_owners_nil X : sorted_owners X = [] → X = ∅.
Proof.
  intros H. apply set_eq. intros x. rewrite <- elem_of_elements, <- (elem_of_sort_by _owner_key).
  unfold sorted_owners in H. rewrite H. set_solver.
Qed.

(** A report that allows quarantine was clean to the end. *)
Lemma allowed_clean F l reach : freeze F = Ok l →
  is_quarantine_allowed (is_complete l) reach l = true → clean F ∧ Forall (λ r, bytes_verified r = true) reach.
Proof.
  intros Hf H. unfold is_quarantine_allowed, is_complete in H. split_andb. split.
  - intros k os Hk.
    assert ({| finding := k; owners := sorted_owners os |} ∈ l) as Hin by (apply (freeze_elem _ _ _ Hf); eauto).
    apply list_elem_of_In in Hin. split.
    + apply sorted_owners_nil. cut (has_owners {| finding := k; owners := sorted_owners os |} = false).
      { unfold has_owners. intros Ho. split_andb. apply dec_stable. done. }
      destruct (has_owners _) eqn:E; [|done].
      assert (existsb has_owners l = true) by (apply existsb_exists; eauto). congruence.
    + destruct (scan_failure k) eqn:E; [|done].
      assert (existsb is_scan_failure l = true) by (apply existsb_exists; eauto). congruence.
  - apply Forall_forall. intros r Hr. rewrite forallb_forall in H0. apply H0. by apply list_elem_of_In.
Qed.

Lemma note_unobserved_fold observed l F :
  let F' := fold_left (note_unobserved observed) l F in
  (clean F' → clean F) ∧ (∀ P, (∀ k, not_orphan k → P k) → all_keys P F → all_keys P F').
Proof.
  revert F. induction l as [|p l IH]; intros F; simpl; [done|].
  destruct (IH (note_unobserved observed F p)) as [C K]. unfold note_unobserved in *.
  case_match; [done|]. split.
  - intros Hc. by destruct (clean_add _ _ _ (C Hc)).
  - intros P HP HF. apply K; [done|]. apply all_keys_add; [by apply HP|done].
Qed.

(** The report of a processed queue. *)
Record finished (store_root : path) (A : Auditing) (a : ArtifactAudit) : Prop := {
  fi_reachable : ∀ ra, ra ∈ reachable a ↔ ∃ b, au_builders A !! ra_sha256 ra = Some b ∧
    ra = {| ra_sha256 := ra_sha256 ra; ra_size_bytes := rb_size_bytes b;
            ra_storage_ref := _canonical_relative_path (ra_sha256 ra);
            ra_media_types := sort_by id (elements (rb_media_types b));
            ra_owners := sorted_owners (rb_owners b); bytes_verified := rb_verified b |};
  fi_allowed : quarantine_allowed a = true → clean (au_findings A) ∧
    Forall (λ r, bytes_verified r = true) (reachable a);
  fi_orphans : all_keys not_orphan (au_findings A) → ∀ f, f ∈ findings a →
    orphan_unreached store_root (rb_owners <$> au_builders A) (finding f);
}.

Lemma finish_spec store_root snapshot A a :
  finish_audit store_root snapshot A = Ok a → finished store_root A a.
Proof.
  unfold finish_audit. destruct (crosscheck_spec A) as [[C1 K1] (B1 & _ & _)%same_findings_fields].
  set (A1 := _crosscheck_task_evaluations A) in *. clearbody A1. intros H. inv_ok.
  rename a0 into V. match goal with H : _inventory_store _ _ _ = _ |- _ => rename H into Hinv end.
  match goal with H : mapR freeze_reachable _ = _ |- _ => rename H into Hreach end.
  match goal with H : freeze _ = _ |- _ => rename H into Hfreeze end.
  apply check_audit_id in H as ->. apply inventory_lists in Hinv as [C2 K2]. cbn [in_findings] in C2, K2.
  pose proof (note_unobserved_fold (in_observed V) (sorted_builders A1) (in_findings V)) as [C3 K3].
  rewrite B1 in K2. split; cbn [reachable findings quarantine_allowed].
  - assert (∀ d b, (d, b) ∈ sorted_builders A1 ↔ au_builders A !! d = Some b) as Hsb.
    { intros d b. unfold sorted_builders. by rewrite elem_of_sort_by, elem_of_map_to_list, B1. }
    intros ra. split.
    + intros Hra. destruct (mapR_elem_inv _ _ _ _ Hreach Hra) as ([d b] & Hc & Hin).
      apply check_reachable_id in Hc as ->. exists b. cbn. split; [by apply Hsb|done].
    + intros (b & Hb & Hra). apply Hsb in Hb.
      destruct (mapR_elem _ _ _ _ Hreach Hb) as (r & Hc & Hin). apply check_reachable_id in Hc.
      rewrite Hra. unfold freeze_reachable in Hc. by rewrite Hc in Hin.
  - intros Hq. destruct (allowed_clean _ _ _ Hfreeze Hq) as [Hc Hv]. auto.
  - intros Hk f Hf. apply (freeze_elem _ _ _ Hfreeze) in Hf as (k & os & Hk' & ->). cbn [finding].
    assert (all_keys (orphan_unreached store_root (rb_owners <$> au_builders A))
              (fold_left (note_unobserved (in_observed V)) (sorted_builders A1) (in_findings V))) as Hall.
    { apply K3; [intros; by apply not_orphan_unreached|]. apply K2, (map_Forall_impl _ _ _ (K1 Hk)).
      intros k' _ Hn. by apply not_orphan_unreached. }
    exact (Hall k os Hk').
Qed.

(** ** The roots *)

Definition root_id (rt : VerifiedRunRoot) : string := m_run_id (vr_manifest rt).

(** Validated roots have distinct run identifiers. *)
Lemma validate_roots_distinct l : ∀ prev x,
  StronglySorted root_le l → (∀ p, prev = Some p → Forall (λ rt, String.le p (root_id rt)) l) →
  foldM validate_root prev l = Ok x →
  NoDup (root_id <$> l) ∧ (∀ p, prev = Some p → p ∉ root_id <$> l).
Proof.
  induction l as [|rt l IH]; intros prev x Hs Hp H.
  { split; [constructor|]. intros p _ Hin. by apply not_elem_of_nil in Hin. }
  cbn [foldM] in H. inv_ok. apply StronglySorted_inv in Hs as [Hs Hle].
  match goal with V : validate_root _ _ = _ |- _ => unfold validate_root in V end. inv_ok. split_andb.
  destruct (IH (Some (root_id rt)) x Hs) as [Hnd Hni]; [|exact H|].
  { intros p [= <-]. exact Hle. }
  specialize (Hni _ eq_refl). change (m_run_id (vr_manifest rt)) with (root_id rt) in *. split.
  - rewrite fmap_cons. by constructor.
  - intros p ->. rewrite fmap_cons. intros [->|Hin]%elem_of_cons; [by destruct H1|].
    specialize (Hp _ eq_refl). apply Forall_cons in Hp as [Hp _].
    apply list_elem_of_fmap in Hin as (rt' & -> & Hin). rewrite Forall_forall in Hle.
    assert (root_id rt = root_id rt') as E.
    { apply (anti_symm String.le); [by apply Hle|exact Hp]. }
    apply H1. by rewrite E.
Qed.

#[local] Instance root_le_trans : Transitive root_le.
Proof. intros a b c. unfold root_le. apply transitivity. Qed.
#[local] Instance root_le_total : Total root_le.
Proof. intros a b. unfold root_le. apply (total String.le). Qed.

Lemma validate_roots_spec roots ordered snapshot : _validate_roots roots = Ok (ordered, snapshot) →
  ordered ≡ₚ roots ∧ NoDup (root_id <$> ordered).
Proof.
  unfold _validate_roots. intros H. inv_ok.
  split; [apply merge_sort_Permutation|].
  eapply validate_roots_distinct; [apply StronglySorted_merge_sort; apply _| |eassumption]. done.
Qed.

Lemma fold_insert_lookup {A B} (f : A → string) (h : A → B) l : ∀ (g : gmap string B) x,
  NoDup (f <$> l) → x ∈ l → fold_left (λ g a, <[ f a := h a ]> g) l g !! f x = Some (h x).
Proof.
  induction l as [|a l IH]; intros g x Hnd Hx; [by apply not_elem_of_nil in Hx|].
  rewrite fmap_cons in Hnd. apply NoDup_cons in Hnd as [Hni Hnd]. simpl.
  assert (∀ g : gmap string B, fold_left (λ g a, <[ f a := h a ]> g) l g !! f a = g !! f a) as Hkeep.
  { clear IH Hnd Hx. induction l as [|b l IH]; intros g'; [done|]. simpl.
    rewrite fmap_cons, not_elem_of_cons in Hni. destruct Hni as [Hne Hni].
    rewrite IH by done. by rewrite lookup_insert_ne. }
  apply elem_of_cons in Hx as [->|Hx]; [by rewrite Hkeep, lookup_insert_eq|auto].
Qed.

Definition manifest_role (role : string) : option structured_role :=
  if str_eqb role "task_spec" then Some TaskRole
  else if str_eqb role "evaluation" then Some EvaluationRole else None.

Lemma make_owner_Ok id p o : make_owner id p = Ok o → o = {| ow_run_id := id; ow_path := p |}.
Proof. unfold make_owner. intros H. by inv_ok. Qed.

(** The queue starts with every reference of every manifest. *)
Lemma manifest_nodes_spec roots nodes rt role r :
  mapR manifest_nodes roots = Ok nodes → rt ∈ roots → m_artifacts (vr_manifest rt) !! role = Some r →
  {| reference := r; rn_owner := {| ow_run_id := root_id rt; ow_path := [role] |};
     rn_role := manifest_role role |} ∈ concat nodes.
Proof.
  intros H Hrt Hr. destruct (mapR_elem _ _ _ _ H Hrt) as (ns & Hns & Hin).
  unfold manifest_nodes in Hns. apply elem_of_map_to_list in Hr.
  rewrite <- (elem_of_sort_by fst) in Hr. destruct (mapR_elem _ _ _ _ Hns Hr) as (n & Hn & Hin').
  inv_ok. apply make_owner_Ok in H0 as ->. apply list_elem_of_In, in_concat. exists ns.
  split; by apply list_elem_of_In.
Qed.

Section parsed.
Context {datetimes : PydanticDatetime} {parser : PydanticJson}.

(** What tracing the references of validated roots gives. *)
Lemma trace_spec store_root ordered A : NoDup (root_id <$> ordered) →
  trace_references store_root ordered = Ok A →
  verified_inv store_root A ∧ all_keys not_orphan (au_findings A) ∧
  (clean (au_findings A) → ∃ manifests past,
     (∀ rt, rt ∈ ordered → manifests !! root_id rt = Some (vr_manifest rt)) ∧
     (∀ n, n ∈ past → node_settled store_root manifests A past n) ∧
     ∀ rt role r, rt ∈ ordered → m_artifacts (vr_manifest rt) !! role = Some r →
       {| reference := r; rn_owner := {| ow_run_id := root_id rt; ow_path := [role] |};
          rn_role := manifest_role role |} ∈ past).
Proof.
  intros Hnd. unfold trace_references. set (over := _ <? _). set (kept := if over then _ else _).
  set (F0 := if over then _ else _). set (manifests := fold_left _ kept ∅). intros H. inv_ok.
  match goal with X : mapR manifest_nodes kept = _ |- _ => rename X into Hn end.
  match type of H with process_pending _ _ ?A0 = _ =>
    assert (tracing store_root manifests F0 (concat a) [] A0) as Ht end.
  { split; cbn.
    - done.
    - intros r b. cbn. by rewrite lookup_empty.
    - intros d b. cbn. by rewrite lookup_empty.
    - unfold F0. destruct over; [by apply all_keys_add|apply all_keys_empty].
    - done.
    - intros _ n Hin. by apply not_elem_of_nil in Hin. }
  destruct (process_pending_spec _ _ _ _ _ _ Ht H) as [Hclean Hv Hk Hs].
  split; [done|]. split; [done|]. intros Hcl. destruct (Hs Hcl) as (past & Hsub & Hpast).
  assert (kept = ordered) as Ekept.
  { specialize (Hclean Hcl). unfold F0, kept in *. destruct over; [|done].
    by apply clean_add in Hclean as (_ & _ & ?). }
  exists manifests, past. split_and!; [|done|].
  - intros rt Hrt. unfold manifests. rewrite Ekept. by apply (fold_insert_lookup root_id vr_manifest).
  - intros rt role r Hrt Hr. apply Hsub. rewrite <- Ekept in Hrt. by eapply manifest_nodes_spec.
Qed.

(** ** The report *)

Lemma untrusted_root_spec snapshot k a : untrusted_root snapshot k = Ok a →
  quarantine_allowed a = false ∧ ∀ f, f ∈ findings a → finding f = k.
Proof.
  unfold untrusted_root. intros H. inv_ok. apply check_audit_id in H as ->. split; [done|].
  cbn [findings]. intros f Hf. apply (freeze_elem _ _ _ H0) in Hf as (k' & os & Hk & ->). cbn [finding].
  unfold add_finding in Hk. rewrite lookup_insert_Some in Hk. destruct Hk as [[-> _]|[_ Hk]]; [done|].
  by rewrite lookup_empty in Hk.
Qed.

Lemma check_candidates_key l k : check_candidates l = Some k → fk_kind k = SCAN_ERROR.
Proof.
  induction l as [|[p b] l IH]; simpl; [done|]. destruct (lstat p); [|by intros [= <-]].
  case_match; [exact IH|]. case_match; by intros [= <-].
Qed.

(** Either the store's root was not trusted, or the audit ran to its end. *)
Lemma audit_inv roots store a : audit_artifact_store roots store = Ok a →
  (quarantine_allowed a = false ∧ ∀ f, f ∈ findings a → fk_kind (finding f) = SCAN_ERROR) ∨
  ∃ ordered A, ordered ≡ₚ roots ∧ NoDup (root_id <$> ordered) ∧
    trace_references (root store) ordered = Ok A ∧ finished (root store) A a.
Proof.
  unfold audit_artifact_store. intros H. inv_ok. destruct a0 as [ordered snapshot].
  assert (∀ k, fk_kind k = SCAN_ERROR → untrusted_root snapshot k = Ok a →
    quarantine_allowed a = false ∧ ∀ f, f ∈ findings a → fk_kind (finding f) = SCAN_ERROR) as Hun.
  { intros k Hk [Hq Hf]%untrusted_root_spec. split; [done|]. intros f Hin. by rewrite (Hf f Hin). }
  destruct (verify_root_identity store start).1 as [|e].
  2:{ destruct e; lazymatch type of H with Err _ = _ => discriminate H | _ => left; eapply Hun; [|exact H] end.
      reflexivity. }
  destruct (_validate_store_root store) as [k|] eqn:Ek.
  { left. eapply Hun; [|exact H]. clear H Hun. unfold _validate_store_root in Ek.
    destruct (negb _); [by injection Ek as <-|by eapply check_candidates_key]. }
  right. apply bind_Ok in H as (A & Ht & Hf). apply validate_roots_spec in H0 as [Hp Hnd].
  exists ordered, A. split_and!; try done. by eapply finish_spec.
Qed.

(** The report accounts for the reference, under the owner. *)
Definition reaches (a : ArtifactAudit) (r : ArtifactRef) (o : ArtifactOwner) : Prop :=
  ∃ ra, ra ∈ reachable a ∧ ra_sha256 ra = sha256 r ∧ ra_size_bytes ra = size_bytes r ∧
    ra_storage_ref ra = storage_ref r ∧ o ∈ ra_owners ra.

(** A digest has one file, so one size. *)
Lemma holds_blob_size store_root d bs bs' :
  holds_blob store_root d bs → holds_blob store_root d bs' → length bs = length bs'.
Proof.
  intros (fd & m & E1 & E2 & _ & _ & E3 & _) (fd' & m' & E1' & E2' & _ & _ & E3' & _).
  rewrite E1 in E1'. injection E1' as <-. rewrite E2 in E2'. injection E2' as <-. lia.
Qed.

Lemma settled_reaches store_root A a n bs : finished store_root A a → verified_inv store_root A →
  Forall (λ r, bytes_verified r = true) (reachable a) →
  bound A n → blob_of store_root (reference n) bs → reaches a (reference n) (rn_owner n).
Proof.
  intros [Hr _ _] Hv Hall (b & Hb & Ho) (Hs & Hh & Hz).
  set (ra := {| ra_sha256 := sha256 (reference n); ra_size_bytes := rb_size_bytes b;
            ra_storage_ref := _canonical_relative_path (sha256 (reference n));
            ra_media_types := sort_by id (elements (rb_media_types b));
            ra_owners := sorted_owners (rb_owners b); bytes_verified := rb_verified b |}).
  assert (ra ∈ reachable a) as Hra by (apply Hr; exists b; done).
  exists ra. split; [done|]. split; [done|]. split; [|split; [done|]].
  - rewrite Forall_forall in Hall. destruct (Hv _ _ Hb (Hall _ Hra)) as (bs' & Hh' & E).
    simpl. rewrite E, Hz. by rewrite (holds_blob_size _ _ _ _ Hh Hh').
  - simpl. unfold sorted_owners. rewrite elem_of_sort_by. by apply elem_of_elements.
Qed.

(** What a report that allows quarantine says of one task specification and of one
    evaluation: the artifact is the canonical text of the record, the record agrees with
    the manifest, and everything it refers to is reached. *)
Definition task_closed (store : FileArtifactStore) (a : ArtifactAudit) (m : RunManifest) (r : ArtifactRef) : Prop :=
  ∃ t nodes, reads_as (root store) validate_task dump_task r t ∧ ts_task_id t = m_task_id m ∧
    image_digest t = m_environment_digest m ∧ _task_references (m_run_id m) t = Ok nodes ∧
    ∀ n, n ∈ nodes → reaches a (reference n) (rn_owner n).

Definition evaluation_closed (store : FileArtifactStore) (a : ArtifactAudit) (m : RunManifest)
    (r : ArtifactRef) : Prop :=
  ∃ e nodes, reads_as (root store) validate_evaluation dump_evaluation r e ∧ er_run_id e = m_run_id m ∧
    er_run_status e = m_status m ∧
    evidence e = omap (λ role, m_artifacts m !! role) evaluation_evidence_roles ∧
    _evaluation_references (m_run_id m) e = Ok nodes ∧ ∀ n, n ∈ nodes → reaches a (reference n) (rn_owner n).

(** What a closed, verified graph is. *)
Definition graph_closed (roots : list VerifiedRunRoot) (store : FileArtifactStore) (a : ArtifactAudit) : Prop :=
  (∀ ra, ra ∈ reachable a → ∃ bs, holds_blob (root store) (ra_sha256 ra) bs ∧
     ra_size_bytes ra = Z.of_nat (length bs)) ∧
  ∀ rt role r, rt ∈ roots → m_artifacts (vr_manifest rt) !! role = Some r →
    reaches a r {| ow_run_id := m_run_id (vr_manifest rt); ow_path := [role] |} ∧
    (role = "task_spec" → task_closed store a (vr_manifest rt) r) ∧
    (role = "evaluation" → evaluation_closed store a (vr_manifest rt) r).

Lemma allowed_graph_closed roots store a :
  audit_artifact_store roots store = Ok a → quarantine_allowed a = true → graph_closed roots store a.
Proof.
  intros [[Hq _]|(ordered & A & Hp & Hnd & Ht & Hf)]%audit_inv Hallow; [congruence|].
  destruct (trace_spec _ _ _ Hnd Ht) as (Hv & _ & Hs). destruct (fi_allowed _ _ _ Hf Hallow) as [Hcl Hall].
  destruct (Hs Hcl) as (manifests & past & Hm & Hpast & Hinit).
  assert (∀ n, n ∈ past → reaches a (reference n) (rn_owner n)) as Hreach.
  { intros n Hn. destruct (Hpast n Hn) as (Hb & (bs & Hbs) & _). by eapply settled_reaches. }
  split.
  - intros ra Hra. pose proof Hra as Hver. rewrite Forall_forall in Hall. apply Hall in Hver.
    apply (fi_reachable _ _ _ Hf) in Hra as (b & Hb & E). rewrite E in Hver.
    destruct (Hv _ _ Hb Hver) as (bs & Hh & Hz). exists bs. rewrite E. done.
  - intros rt role r Hrt Hr. rewrite <- Hp in Hrt. specialize (Hinit rt role r Hrt Hr).
    specialize (Hm rt Hrt). split; [by apply (Hreach _ Hinit)|].
    destruct (Hpast _ Hinit) as (_ & _ & Hrole). unfold role_settled in Hrole. cbn [rn_role] in Hrole. split.
    + intros ->. destruct Hrole as (t & m & nodes & Hreads & _ & Hm' & E1 & E2 & Hn & Hsub).
      cbn [reference rn_owner ow_run_id] in *. rewrite Hm in Hm'. injection Hm' as <-.
      exists t, nodes. split_and!; try done. intros n Hin. by apply Hreach, Hsub.
    + intros ->. destruct Hrole as (e & m & nodes & Hreads & _ & Hm' & E1 & E2 & E3 & Hn & Hsub).
      cbn [reference rn_owner ow_run_id] in *. rewrite Hm in Hm'. injection Hm' as <-.
      exists e, nodes. split_and!; try done. intros n Hin. by apply Hreach, Hsub.
Qed.

(** C22. A report that allows quarantine stands for a verified, closed graph: every
    reachable artifact is a plain single-link file at its canonical path whose bytes hash
    to its digest and have its size; every artifact of every audited run is reachable
    under its role; every task specification and evaluation is the canonical text of a
    record that agrees with its run's manifest; and everything those records refer to is
    reachable as well. *)
Theorem quarantine_graph_closed roots store a :
  audit_artifact_store roots store = Ok a → quarantine_allowed a = true →
  (∀ ra, ra ∈ reachable a → ∃ bs, holds_blob (root store) (ra_sha256 ra) bs ∧
     ra_size_bytes ra = Z.of_nat (length bs)) ∧
  ∀ rt role r, rt ∈ roots → m_artifacts (vr_manifest rt) !! role = Some r →
    reaches a r {| ow_run_id := m_run_id (vr_manifest rt); ow_path := [role] |} ∧
    (role = "task_spec" → task_closed store a (vr_manifest rt) r) ∧
    (role = "evaluation" → evaluation_closed store a (vr_manifest rt) r).
Proof. apply allowed_graph_closed. Qed.

(** What an audit calls a finalized orphan is a file with a canonical name that no
    reachable artifact has; and when it calls the orphan valid, the file's bytes hash to
    that name. *)
Theorem orphans_are_unreachable roots store a f :
  audit_artifact_store roots store = Ok a → f ∈ findings a → is_orphan (fk_kind (finding f)) = true →
  ∃ digest, is_lower_sha256 digest = true ∧
    fk_relative_path (finding f) = _canonical_relative_path digest ∧
    (∀ ra, ra ∈ reachable a → ra_sha256 ra ≠ digest) ∧
    (fk_kind (finding f) = VALID_FINALIZED_ORPHAN → ∃ fd bs,
       open_file (canonical_path (root store) digest) = Done fd ∧ delivers fd 0 bs ∧
       sha256_bytes bs = digest).
Proof.
  intros [[_ Hf]|(ordered & A & Hp & Hnd & Ht & Hfin)]%audit_inv Hin Ho.
  { by rewrite (Hf f Hin) in Ho. }
  destruct (trace_spec _ _ _ Hnd Ht) as (_ & Hk & _).
  destruct (fi_orphans _ _ _ Hfin Hk f Hin Ho) as (digest & Hpath & Hd & Hr & Hvalid).
  exists digest. split_and!; try done. intros ra Hra <-.
  apply (fi_reachable _ _ _ Hfin) in Hra as (b & Hb & _). by rewrite lookup_fmap, Hb in Hr.
Qed.
End parsed.
End audit.

(** The sample store: its run's task specification is closed. *)
Lemma quarantine_graph_closed_witness :
  ∃ a, audit_artifact_store [sample_root_of_run] sample_store = Ok a ∧ quarantine_allowed a = true ∧
    task_closed sample_store a (vr_manifest sample_root_of_run) (self_reference _TASK_MEDIA_TYPE task_size).
Proof.
  destruct (audit_artifact_store [sample_root_of_run] sample_store) as [a|e] eqn:E.
  - exists a. assert (quarantine_allowed a = true) as Hq.
    { apply (f_equal (λ r, match r with Ok a => quarantine_allowed a | Err _ => false end)) in E.
      vm_compute in E. symmetry. exact E. }
    split; [reflexivity|]. split; [exact Hq|].
    refine (proj1 (proj2 (proj2 (quarantine_graph_closed _ _ a E Hq) sample_root_of_run "task_spec"
              (self_reference _TASK_MEDIA_TYPE task_size) _ _)) eq_refl).
    + apply list_elem_of_here.
    + reflexivity.
  - exfalso. apply (f_equal is_ok) in E. vm_compute in E. discriminate E.
Defined.

(** The file of the sample store that nothing references. *)
Lemma orphans_are_unreachable_witness :
  ∃ a f, audit_artifact_store [sample_root_of_run] sample_store = Ok a ∧ f ∈ findings a ∧
    ∃ digest, is_lower_sha256 digest = true ∧ fk_relative_path (finding f) = _canonical_relative_path digest ∧
      ∀ ra, ra ∈ reachable a → ra_sha256 ra ≠ digest.
Proof.
  destruct (audit_artifact_store [sample_root_of_run] sample_store) as [a|e] eqn:E.
  - destruct (findings a) as [|f l] eqn:Ef.
    + exfalso. apply (f_equal (λ r, match r with Ok a => length (findings a) | Err _ => 0%nat end)) in E.
      rewrite Ef in E. vm_compute in E. discriminate E.
    + exists a, f. assert (f ∈ findings a) as Hin by (rewrite Ef; apply list_elem_of_here).
      assert (is_orphan (fk_kind (finding f)) = true) as Ho.
      { apply (f_equal (λ r, match r with Ok a => (λ f, is_orphan (fk_kind (finding f))) <$> findings a
                             | Err _ => [] end)) in E.
        rewrite Ef in E. vm_compute in E. injection E. done. }
      split; [reflexivity|]. split; [rewrite Ef; apply list_elem_of_here|].
      destruct (orphans_are_unreachable _ _ a f E Hin Ho) as (digest & H1 & H2 & H3 & _).
      exists digest. split; [exact H1|]. split; [exact H2|exact H3].
  - exfalso. apply (f_equal is_ok) in E. vm_compute in E. discriminate E.
Defined.
