(* ===== verification/AuditLimits.v ===== *)
(** * The audit ends, within its limits (src/guildmind/storage/integrity.py)

    No loop of the audit outruns its bound and no assertion of the code can fail; the
    bytes that are read for hashing stay within the budget, and the queue within the limit
    of references. *)

From coqutil Require Import Datatypes.RecordSettersUsingExistingGetters.
From S2P Require Import Prelude Order Loop Effects PyStr Files Descriptors Disk Tame Float64 Json Hash Datetime Fields Usage.
From S2P Require Import Models Specs Replay SampleRun Sqlite EventStore SampleLedger Artifacts.
From S2P Require Import ArtifactFacts Integrity SampleStore IntegrityFacts AuditFacts.

Local Open Scope Z_scope.

(** ** Computations that never assert *)

Ltac solve_ordinary :=
  repeat match goal with
  | |- ordinary _ => exact I
  | |- fails _ (let '(_, _) := ?x in _) => destruct x
  | |- fails _ _ => progress solve_fails
  end.

Section ordinary.
Context {hashing : Hashing}.

Lemma ordinary_canonical v : fails ordinary (canonical_json v).
Proof. unfold canonical_json, _json_compatible. solve_ordinary. Qed.
Lemma ordinary_sha256 v : fails ordinary (canonical_sha256 v).
Proof. unfold canonical_sha256. apply fails_bind; [apply ordinary_canonical|intros ?; apply fails_Ok]. Qed.
Lemma ordinary_owner id p : fails ordinary (make_owner id p).
Proof. unfold make_owner. solve_ordinary. Qed.
Lemma ordinary_reachable r : fails ordinary (check_reachable r).
Proof. unfold check_reachable. solve_ordinary. Qed.
Lemma ordinary_finding f : fails ordinary (check_finding f).
Proof. unfold check_finding. cbv zeta. solve_ordinary. Qed.
Lemma ordinary_audit a : fails ordinary (check_audit a).
Proof. unfold check_audit. solve_ordinary. Qed.
#[local] Hint Resolve ordinary_sha256 ordinary_owner ordinary_reachable ordinary_finding ordinary_audit : fails.
Lemma ordinary_freeze F : fails ordinary (freeze F).
Proof. unfold freeze. solve_ordinary. Qed.
Lemma ordinary_pin roots : fails ordinary (verified_run_roots_sha256 roots).
Proof. unfold verified_run_roots_sha256. solve_ordinary. Qed.
#[local] Hint Resolve ordinary_freeze ordinary_pin : fails.
Lemma ordinary_roots roots : fails ordinary (_validate_roots roots).
Proof. unfold _validate_roots, validate_root. solve_ordinary. Qed.
Lemma ordinary_plain id p r : fails ordinary (plain_node id p r).
Proof. unfold plain_node. solve_ordinary. Qed.
#[local] Hint Resolve ordinary_plain : fails.
Lemma ordinary_task_references id t : fails ordinary (_task_references id t).
Proof. unfold _task_references, indexed_nodes. solve_ordinary. Qed.
Lemma ordinary_evaluation_references id e : fails ordinary (_evaluation_references id e).
Proof. unfold _evaluation_references, indexed_nodes. solve_ordinary. Qed.
Lemma ordinary_manifest_nodes rt : fails ordinary (manifest_nodes rt).
Proof. unfold manifest_nodes. solve_ordinary. Qed.
Lemma ordinary_untrusted s k : fails ordinary (untrusted_root s k).
Proof. unfold untrusted_root. solve_ordinary. Qed.
End ordinary.
#[export] Hint Resolve ordinary_canonical ordinary_sha256 ordinary_owner ordinary_reachable ordinary_finding
  ordinary_audit ordinary_freeze ordinary_pin ordinary_roots ordinary_plain ordinary_task_references
  ordinary_evaluation_references ordinary_manifest_nodes ordinary_untrusted : fails.

(** ** The hashing budget *)

(** The first bytes that the reads of a descriptor deliver, from the [k]-th read on. *)
Inductive begins (fd : descriptor) : nat → list Byte.byte → Prop :=
  | begins_nil k : begins fd k []
  | begins_more k n chunk bs : fd_read fd k n = Done chunk → begins fd (S k) bs → begins fd k (chunk ++ bs).

(** What was hashed: the path of a file, and the bytes of it. *)
Definition hashings := list (path * list Byte.byte).
Definition hashed_bytes (L : hashings) : Z := Z.of_nat (length (concat (snd <$> L))).

Lemma hashed_app L1 L2 : hashed_bytes (L1 ++ L2) = hashed_bytes L1 + hashed_bytes L2.
Proof. unfold hashed_bytes. rewrite fmap_app, concat_app, length_app. lia. Qed.

Section limits.
Context {hashing : Hashing} {fs : FileSystem}.

Definition hashed_from (e : path * list Byte.byte) : Prop := ∃ fd, open_file e.1 = Done fd ∧ begins fd 0 e.2.

(** The budget is charged for exactly what was hashed, and never past its maximum. *)
Definition charged (L : hashings) (b b' : _HashBudget) : Prop :=
  maximum b' = maximum b ∧ Forall hashed_from L ∧ hb_used b' = hb_used b + hashed_bytes L ∧
  (hb_used b <= maximum b → hb_used b' <= maximum b').
(** A digest is that of bytes that were hashed, of the file at [p]. *)
Definition observes (L : hashings) (p : path) (o : option string) : Prop :=
  ∀ d, o = Some d → ∃ bs, (p, bs) ∈ L ∧ sha256_bytes bs = d.

Lemma charged_nil b : charged [] b b.
Proof. split_and!; [done|constructor| |done]. unfold hashed_bytes. simpl. lia. Qed.
Lemma charged_app L1 L2 b1 b2 b3 : charged L1 b1 b2 → charged L2 b2 b3 → charged (L1 ++ L2) b1 b3.
Proof.
  intros (E1 & F1 & U1 & M1) (E2 & F2 & U2 & M2). split_and!; [congruence|by apply Forall_app| |auto].
  rewrite hashed_app. lia.
Qed.
Lemma charged_one p bs b b' : hashed_from (p, bs) → maximum b' = maximum b →
  hb_used b' = hb_used b + Z.of_nat (length bs) → (hb_used b <= maximum b → hb_used b' <= maximum b') →
  charged [(p, bs)] b b'.
Proof.
  intros H1 H2 H3 H4. split_and!; [done|by constructor| |done]. unfold hashed_bytes. simpl. by rewrite app_nil_r.
Qed.
Lemma observes_none L p : observes L p None.
Proof. by intros d [=]. Qed.
Lemma observes_one p bs : observes [(p, bs)] p (Some (sha256_bytes bs)).
Proof. intros d [= <-]. exists bs. split; [left|done]. Qed.
Lemma observes_l L1 L2 p o : observes L1 p o → observes (L1 ++ L2) p o.
Proof. intros H d E. destruct (H d E) as (bs & ? & ?). exists bs. split; [apply elem_of_app; by left|done]. Qed.
Lemma observes_r L1 L2 p o : observes L2 p o → observes (L1 ++ L2) p o.
Proof. intros H d E. destruct (H d E) as (bs & ? & ?). exists bs. split; [apply elem_of_app; by right|done]. Qed.

Section reading.
Variables (p : path) (fd : descriptor) (b0 : _HashBudget).

(** What was read so far was hashed and charged. *)
Record metered (s : Reading) : Prop := {
  mt_maximum : maximum (rd_budget s) = maximum b0;
  mt_used : hb_used (rd_budget s) = hb_used b0 + rd_total s;
  mt_within : hb_used b0 <= maximum b0 → hb_used (rd_budget s) <= maximum b0;
  mt_read : ∀ rest, begins fd (rd_count s) rest → begins fd 0 (rd_content s ++ rest);
}.

Lemma metered_start : metered {| rd_count := 0; rd_content := []; rd_budget := b0 |}.
Proof. split; cbn; try done. unfold rd_total. simpl. lia. Qed.

Lemma metered_more s n chunk b : metered s → fd_read fd (rd_count s) n = Done chunk →
  consume (Z.of_nat (length chunk)) (rd_budget s) = Some b →
  metered {| rd_count := S (rd_count s); rd_content := rd_content s ++ chunk; rd_budget := b |}.
Proof.
  intros [H1 H2 H3 H4] Hc. unfold consume, remaining.
  destruct (Z.ltb_spec (maximum (rd_budget s) - hb_used (rd_budget s)) (Z.of_nat (length chunk))); [done|].
  intros [= <-]. split; cbn [rd_count rd_content rd_budget maximum hb_used]; [done| |lia|].
  - unfold rd_total in *. cbn [rd_content]. rewrite length_app. lia.
  - intros rest Hr. rewrite <- app_assoc. apply H4. by eapply begins_more.
Qed.

Lemma metered_charged s : open_file p = Done fd → metered s → charged [(p, rd_content s)] b0 (rd_budget s).
Proof.
  intros Ho [H1 H2 H3 H4]. apply charged_one; [|done|done|by rewrite H1]. exists fd. split; [done|]. cbn [snd].
  rewrite <- (app_nil_r (rd_content s)). apply H4, begins_nil.
Qed.

Lemma reference_metered r capture s s' : metered s → read_reference_step fd r capture s = Continue s' → metered s'.
Proof.
  intros Hs. unfold read_reference_step. destruct (fd_read _ _ _) as [[|c chunk]|] eqn:E; [by case_match| |done].
  destruct (_ <? _); [done|]. destruct (consume _ _) as [b|] eqn:Ec; [|done]. intros [= <-].
  by eapply metered_more.
Qed.
Lemma reference_left r capture s o : open_file p = Done fd → metered s → read_reference_step fd r capture s = Leave o →
  ∃ L, charged L b0 o.2 ∧ observes L p (observed_sha256 o.1).
Proof.
  intros Ho Hs. pose proof (metered_charged s Ho Hs) as Hc. unfold read_reference_step.
  destruct (fd_read _ _ _) as [[|c chunk]|]; [case_match; intros [= <-]| |intros [= <-]].
  - eexists. split; [exact Hc|]. apply observes_one.
  - eexists. split; [exact Hc|]. apply observes_one.
  - destruct (_ <? _); [intros [= <-]; eexists; split; [exact Hc|apply observes_none]|].
    destruct (consume _ _); [done|]. intros [= <-]. eexists. split; [exact Hc|apply observes_none].
  - eexists. split; [exact Hc|apply observes_none].
Qed.

Lemma hash_metered s s' : metered s → hash_step fd s = Continue s' → metered s'.
Proof.
  intros Hs. unfold hash_step. destruct (fd_read _ _ _) as [[|c chunk]|] eqn:E; [done| |done].
  destruct (_ <? _); [done|]. destruct (consume _ _) as [b|] eqn:Ec; [|done]. intros [= <-]. by eapply metered_more.
Qed.
Definition hash_observed (h : path_hash) : option string := match h with Hashed d => Some d | _ => None end.
Lemma hash_left s o : open_file p = Done fd → metered s → hash_step fd s = Leave o →
  ∃ L, charged L b0 o.2 ∧ observes L p (hash_observed o.1).
Proof.
  intros Ho Hs. pose proof (metered_charged s Ho Hs) as Hc. unfold hash_step.
  destruct (fd_read _ _ _) as [[|c chunk]|]; [intros [= <-]| |intros [= <-]].
  - eexists. split; [exact Hc|]. apply observes_one.
  - destruct (_ <? _); [intros [= <-]; eexists; split; [exact Hc|apply observes_none]|].
    destruct (consume _ _); [done|]. intros [= <-]. eexists. split; [exact Hc|apply observes_none].
  - eexists. split; [exact Hc|apply observes_none].
Qed.
Lemma hashing_ends : ∃ o, run_loop (Z.to_pos (_MAX_ARTIFACT_BYTES + 1)) (hash_step fd)
  {| rd_count := 0; rd_content := []; rd_budget := b0 |} = Leave o.
Proof.
  apply (run_loop_terminates _ (λ _, True) (λ s, Z.max 0 (_MAX_ARTIFACT_BYTES - rd_total s))); [done| |].
  - intros s1 s2 _. unfold hash_step. destruct (fd_read _ _ _) as [[|c chunk]|]; [done| |done].
    destruct (Z.ltb_spec _MAX_ARTIFACT_BYTES (rd_total s1 + Z.of_nat (length (c :: chunk)))); [done|].
    destruct (consume _ _); [|done]. intros [= <-]. split; [done|].
    unfold rd_total in *. cbn [rd_content]. rewrite length_app. cbn [length] in *. lia.
  - unfold rd_total. simpl. unfold _MAX_ARTIFACT_BYTES. lia.
Qed.
End reading.

(** Where the file of a reference is. *)
Definition reference_path (store_root : path) (digest : string) : path :=
  (store_root ++ ["sha256"; take_prefix 2 digest]) ++ [digest].

Lemma unread p b (o : option string) : o = None → ∃ L, charged L b b ∧ observes L p o.
Proof. intros ->. exists []. split; [apply charged_nil|apply observes_none]. Qed.

Lemma read_reference_budget root r capture b read b' : _read_reference root r capture b = Ok (read, b') →
  ∃ L, charged L b b' ∧ observes L (reference_path root (sha256 r)) (observed_sha256 read).
Proof.
  unfold _read_reference. destruct (check_limits_of r capture) as [x|] eqn:E1.
  { intros [= <- <-]. apply unread. unfold check_limits_of in E1. by repeat case_match; simplify_eq. }
  destruct (check_components _) as [x|] eqn:E2.
  { intros [= <- <-]. apply unread. revert E2. generalize [(root ++ ["sha256"], true);
      (root ++ ["sha256"; take_prefix 2 (sha256 r)], true); ((root ++ ["sha256"; take_prefix 2 (sha256 r)]) ++ [sha256 r], false)].
    intros l. induction l as [|[q d] l IH]; cbn [check_components]; [done|].
    destruct (check_component q d) as [y|] eqn:E; [|done]. intros [= <-]. unfold check_component in E.
    by repeat case_match; simplify_eq. }
  destruct (open_file _) as [fd|n] eqn:Eo; [|intros [= <- <-]; by apply unread].
  intros [_ H]%closing_Ok. unfold read_descriptor in H.
  destruct (fd_stat fd) as [m|]; [|injection H as <- <-; by apply unread].
  do 4 (case_match; [injection H as <- <-; by apply unread|]). unfold bounded in H. apply of_option_Ok in H.
  destruct (run_loop _ _ _) as [|o] eqn:El; [done|]. injection H as ->.
  apply (run_loop_ind _ (metered fd b) (λ o, ∃ L, charged L b o.2 ∧
    observes L (reference_path root (sha256 r)) (observed_sha256 o.1))) in El; [done|apply metered_start| |].
  - intros s s'. apply reference_metered.
  - intros s o. by apply reference_left.
Qed.

(** Hashing a path ends; unless closing the file fails, what it found is what it hashed. *)
Lemma hash_path_spec p b :
  (∃ h b' L, _hash_path_no_follow p b = Ok (h, b') ∧ charged L b b' ∧ observes L p (hash_observed h)) ∨
  ∃ e, _hash_path_no_follow p b = Err e ∧ close_failure e.
Proof.
  assert (∀ h, hash_observed h = None → ∃ h' b' L, Ok (h, b) = Ok (h', b') ∧ charged L b b' ∧ observes L p (hash_observed h'))
    as Hnone.
  { intros h Hh. exists h, b, []. split; [done|]. split; [apply charged_nil|]. rewrite Hh. apply observes_none. }
  unfold _hash_path_no_follow. destruct (open_file p) as [fd|n] eqn:Eo; [|left; by apply Hnone].
  match goal with |- context [closing fd ?r] => destruct (closing_cases p fd r Eo) as [->|Hc]; [left|by right] end.
  destruct (fd_stat fd) as [m|]; [|by apply Hnone].
  case_match; [by apply Hnone|]. case_match; [by apply Hnone|].
  destruct (hashing_ends fd b) as ([h b'] & El). rewrite El. exists h, b'.
  apply (run_loop_ind _ (metered fd b) (λ o, ∃ L, charged L b o.2 ∧ observes L p (hash_observed o.1))) in El
    as (L & H1 & H2); [exists L; done|apply metered_start| |].
  - intros s s'. apply hash_metered.
  - intros s o. by apply hash_left.
Qed.

(** ** Tracing *)

(** A cached read observed what was hashed of its file. *)
Definition known (root : path) (L : hashings) (A : Auditing) (key : string * Z * string) (read : _BlobRead) : Prop :=
  observes L (reference_path root key.1.1) (observed_sha256 read).

(** A step of the tracing charges what it hashes and processes nothing else. *)
Definition advances (root : path) (A A' : Auditing) : Prop :=
  au_processed A' = au_processed A ∧ ∃ L, charged L (au_budget A) (au_budget A') ∧
  ∀ key read, au_reads A' !! key = Some read → au_reads A !! key = Some read ∨ known root L A key read.

Lemma advances_same root A A' : au_budget A' = au_budget A → au_processed A' = au_processed A →
  au_reads A' = au_reads A → advances root A A'.
Proof.
  intros E1 E2 E3. split; [done|]. exists []. rewrite E1, E3. split; [apply charged_nil|]. by left.
Qed.
Lemma advances_trans root A1 A2 A3 : advances root A1 A2 → advances root A2 A3 → advances root A1 A3.
Proof.
  intros (E1 & L1 & C1 & K1) (E2 & L2 & C2 & K2). split; [congruence|]. exists (L1 ++ L2).
  split; [by eapply charged_app|]. intros key read [H|H]%K2; [|right; by apply observes_r].
  apply K1 in H as [H|H]; [by left|right; by apply observes_l].
Qed.

Lemma unless_advances root b r d o A : advances root A (corrupt_unless b r d o A).
Proof. apply advances_same; by destruct b. Qed.

Lemma cached_read_advances root n A read A' : cached_read root n A = Ok (read, A') → advances root A A'.
Proof.
  assert (∀ capture, ('(read, b) ← _read_reference root (reference n) capture (au_budget A);
     Ok (read, A <| au_reads ::= <[ (sha256 (reference n), size_bytes (reference n), storage_ref (reference n)) := read ]> |>
                 <| au_budget := b |>)) = Ok (read, A') → advances root A A') as Hfresh.
  { intros capture H. apply bind_Ok in H as ([read' b] & Hr & [= -> <-]).
    apply read_reference_budget in Hr as (L & HL & Ho). split; [done|]. exists L. split; [done|].
    intros key read1. cbn. destruct (decide (key = (sha256 (reference n), size_bytes (reference n), storage_ref (reference n))))
      as [->|Hne]; [|rewrite lookup_insert_ne by done; by left].
    rewrite lookup_insert_eq. intros [= <-]. by right. }
  unfold cached_read. destruct (au_reads A !! _) as [old|]; [|by apply Hfresh].
  destruct (_ && _ && _); [by apply Hfresh|]. intros [= _ <-]. by apply advances_same.
Qed.

Section parsed.
Context {datetimes : PydanticDatetime} {parser : PydanticJson}.

Lemma task_advances root manifests n bs A A' : process_task manifests n bs A = Ok A' → advances root A A'.
Proof.
  unfold process_task. repeat case_match; intros Hc; try (injection Hc as <-; by apply advances_same).
  inv_ok. match goal with |- advances _ A ?A' => set (A2 := A') end.
  eapply advances_trans; [apply unless_advances|]. eapply advances_trans; [apply unless_advances|].
  by apply advances_same.
Qed.

Lemma evaluation_advances root manifests n bs A A' : process_evaluation manifests n bs A = Ok A' → advances root A A'.
Proof.
  unfold process_evaluation, _crosscheck_evaluation.
  repeat case_match; intros Hc; try (injection Hc as <-; by apply advances_same).
  inv_ok. do 3 (eapply advances_trans; [apply unless_advances|]). by apply advances_same.
Qed.

Lemma node_advances root manifests n A A' : process_node root manifests n A = Ok A' → advances root A A'.
Proof.
  unfold process_node. intros H. apply bind_Ok in H as ([read A1] & Hc & H).
  apply cached_read_advances in Hc.
  assert (advances root A A1) as H1.
  { eapply advances_trans; [|exact Hc]. unfold bind_reference. apply advances_same; cbv zeta; by repeat case_match. }
  destruct (negb (ok read)).
  - inv_ok. eapply advances_trans; [exact H1|]. by apply advances_same.
  - apply bind_Ok in H as (size & _ & H).
    assert (advances root A (mark_verified (sha256 (reference n)) size A1)) as H2
      by (eapply advances_trans; [exact H1|by apply advances_same]).
    eapply advances_trans; [exact H2|].
    destruct (rn_role n) as [[]|], (data read); inv_ok; try (by apply advances_same).
    + by eapply task_advances.
    + by eapply evaluation_advances.
Qed.

Lemma ordinary_task manifests n bs A : fails ordinary (process_task manifests n bs A).
Proof. unfold process_task. cbv zeta. solve_ordinary. Qed.
Lemma ordinary_evaluation manifests n bs A : fails ordinary (process_evaluation manifests n bs A).
Proof. unfold process_evaluation. cbv zeta. solve_ordinary. Qed.

Lemma ordinary_close e : close_failure e → ordinary e.
Proof. by intros (p & fd & n & _ & _ & ->). Qed.

Lemma ordinary_node root manifests n A : reads_inv root A → fails ordinary (process_node root manifests n A).
Proof.
  intros Hr. unfold process_node.
  destruct (bind_reference_spec root n A) as (_ & _ & _ & _ & R1 & _).
  assert (reads_inv root (bind_reference n A)) as Hr1 by (intros r b; rewrite R1; apply Hr).
  destruct (cached_read_spec root n _ Hr1) as [(read & A2 & Ec & Hw & _)|(e & Ec & He)]; rewrite Ec;
    cbn [mbind result_bind]; [|by apply fails_Err, ordinary_close].
  unfold blob_wf in Hw. destruct (ok read); cbn [negb].
  - destruct (bl_size_bytes read); [|done]. cbn [of_option mbind result_bind].
    destruct (rn_role n) as [[]|], (data read); try apply fails_Ok; [apply ordinary_task|apply ordinary_evaluation].
  - destruct (bl_kind read); [|done]. simpl. apply fails_Ok.
Qed.

(** What was hashed accounts for the budget, and for every digest of a cached read. *)
Definition hashes (root : path) (b0 : _HashBudget) (A : Auditing) : Prop := ∃ L, charged L b0 (au_budget A) ∧
  ∀ key read, au_reads A !! key = Some read → known root L A key read.

Lemma hashes_advance root b0 A A' : hashes root b0 A → advances root A A' → hashes root b0 A'.
Proof.
  intros (L & HL & HK) (_ & L' & HL' & HK'). exists (L ++ L'). split; [by eapply charged_app|].
  intros key read [H|H]%HK'; [by apply observes_l, HK|by apply observes_r].
Qed.

(** The queue: what holds of the audit's variables before each node. *)
Record queueing (root : path) (b0 : _HashBudget) (A : Auditing) : Prop := {
  qu_reads : reads_inv root A;
  qu_verified : verified_inv root A;
  qu_hashes : hashes root b0 A;
  qu_processed : 0 <= au_processed A <= _MAX_REACHABLE_REFERENCES;
}.

Lemma queueing_step root manifests b0 A A' :
  queueing root b0 A → audit_step root manifests A = Continue A' →
  queueing root b0 A' ∧ au_processed A' = au_processed A + 1.
Proof.
  intros [Hr Hv Hb Hp]. unfold audit_step. destruct (au_pending A) as [|n rest]; [done|]. cbv zeta.
  set (A1 := A <| au_pending := rest |> <| au_processed ::= Z.succ |>).
  destruct (Z.ltb_spec _MAX_REACHABLE_REFERENCES (au_processed A1)) as [|Hle]; [done|].
  destruct (process_node _ _ _ _) as [A2|] eqn:E; [|done]. intros [= <-].
  assert (reads_inv root A1 ∧ verified_inv root A1 ∧ hashes root b0 A1) as (Hr1 & Hv1 & Hb1) by done.
  pose proof (process_node_spec root manifests n A1 A2 Hr1 Hv1 E) as [_ _ Hr2 Hv2 _].
  apply node_advances in E as G. destruct G as [Ep _]. assert (au_processed A1 = au_processed A + 1) as E1 by done.
  split; [|lia]. split; [done|done| |lia]. eapply hashes_advance; [exact Hb1|by eapply node_advances].
Qed.

Lemma pending_limits root manifests A : reads_inv root A → verified_inv root A → au_processed A = 0 → au_reads A = ∅ →
  fails ordinary (process_pending root manifests A) ∧
  ∀ A', process_pending root manifests A = Ok A' →
    hashes root (au_budget A) A' ∧ au_processed A' <= _MAX_REACHABLE_REFERENCES + 1.
Proof.
  intros Hr Hv H0 Hre. unfold process_pending.
  assert (queueing root (au_budget A) A) as Hq.
  { split; try done; [|rewrite H0; done]. exists []. split; [apply charged_nil|]. rewrite Hre. intros key read.
    by rewrite lookup_empty. }
  destruct (run_loop_terminates (audit_step root manifests) (queueing root (au_budget A))
              (λ A, _MAX_REACHABLE_REFERENCES - au_processed A)
              (Z.to_pos (_MAX_REACHABLE_REFERENCES + 1)) A Hq) as [r Hl].
  { intros A1 A2 H1 E. destruct (queueing_step _ _ _ _ _ H1 E) as [H2 Ep]. split; [done|].
    destruct H2 as [_ _ _ Hp]. lia. }
  { rewrite H0. done. }
  rewrite Hl. cbn [bounded leave of_option mbind result_bind].
  apply (run_loop_ind _ (queueing root (au_budget A)) (λ r, fails ordinary r ∧ ∀ A', r = Ok A' →
    hashes root (au_budget A) A' ∧ au_processed A' <= _MAX_REACHABLE_REFERENCES + 1)) in Hl; [done|done| |].
  - intros A1 A2 H1 E. by destruct (queueing_step _ _ _ _ _ H1 E).
  - intros A1 r1 [Hr1 Hv1 Hb1 Hp1]. unfold audit_step. destruct (au_pending A1) as [|n rest].
    { intros [= <-]. split; [apply fails_Ok|]. intros A' [= <-]. split; [done|lia]. }
    cbv zeta. set (A2 := A1 <| au_pending := rest |> <| au_processed ::= Z.succ |>).
    assert (au_processed A2 = au_processed A1 + 1) as E2 by done.
    destruct (_ <? _).
    { intros [= <-]. split; [apply fails_Ok|]. intros A' [= <-]. split; [done|].
      change (au_processed A2 <= _MAX_REACHABLE_REFERENCES + 1). lia. }
    pose proof (ordinary_node root manifests n A2 Hr1) as Ht.
    destruct (process_node _ _ _ _) as [A3|e] eqn:E; [done|]. intros [= <-]. by split.
Qed.
End parsed.

(** ** Inventory *)

(** The digest of a finding is that of bytes that were hashed. *)
Definition digests_from (L : hashings) (k : finding_key) : Prop := ∀ d, fk_observed_sha256 k = Some d → ∃ p, observes L p (Some d).

(** An operation of the inventory only charges for what it hashes and reports no other
    digests; it raises only when it cannot close a file. *)
Definition tallies (V V' : Inventory) : Prop := ∃ L, charged L (in_budget V) (in_budget V') ∧
  ∀ k, is_Some (in_findings V' !! k) → is_Some (in_findings V !! k) ∨ digests_from L k.
Definition inventories (f : Inventory → result Inventory) : Prop := ∀ V,
  match f V with Ok V' => tallies V V' | Err e => close_failure e end.

Lemma tallies_trans V1 V2 V3 : tallies V1 V2 → tallies V2 V3 → tallies V1 V3.
Proof.
  intros (L1 & C1 & K1) (L2 & C2 & K2). exists (L1 ++ L2). split; [by eapply charged_app|].
  intros k [H|H]%K2; [apply K1 in H as [H|H]; [by left|]|]; right; intros d Hd; destruct (H d Hd) as [p Hp];
    exists p; [by apply observes_l|by apply observes_r].
Qed.
(** Nothing was hashed. *)
Lemma tallies_quiet V V' : in_budget V' = in_budget V →
  (∀ k, is_Some (in_findings V' !! k) → is_Some (in_findings V !! k) ∨ fk_observed_sha256 k = None) → tallies V V'.
Proof.
  intros E H. exists []. rewrite E. split; [apply charged_nil|]. intros k [?|Hk]%H; [by left|]. right. intros d. by rewrite Hk.
Qed.
Lemma tallies_note k os V : fk_observed_sha256 k = None → tallies V (note k os V).
Proof.
  intros Hk. apply tallies_quiet; [done|]. intros k' Hk'. cbn in Hk'. unfold add_finding in Hk'.
  destruct (decide (k' = k)) as [->|Hne]; [by right|]. rewrite lookup_insert_ne in Hk' by done. by left.
Qed.
Lemma tallies_same V V' : in_budget V' = in_budget V → in_findings V' = in_findings V → tallies V V'.
Proof. intros E1 E2. apply tallies_quiet; [done|]. rewrite E2. by left. Qed.

Lemma inventories_foldM {B} (f : Inventory → B → result Inventory) l :
  (∀ b, inventories (λ V, f V b)) → inventories (λ V, foldM f V l).
Proof.
  intros Hf. induction l as [|b l IH]; intros V; cbn [foldM]; [by apply tallies_same|].
  specialize (Hf b V). cbv beta in Hf. destruct (f V b) as [V1|e]; cbn [mbind result_bind]; [|done].
  specialize (IH V1). cbv beta in IH. destruct (foldM f V1 l) as [V2|e]; [|done]. by eapply tallies_trans.
Qed.

Lemma scan_tallies p relative V o V' : _scan_directory p relative V = (o, V') → tallies V V'.
Proof.
  unfold _scan_directory.
  assert (∀ l o V, tallies V (fold_left (scan_entry relative) l (o, V)).2) as H.
  { induction l as [|e l IH]; intros o0 V0; [by apply tallies_same|]. cbn [fold_left scan_entry].
    destruct o0 as [es|]; [|apply IH]. eapply tallies_trans; [by apply (tallies_same _ (V0 <| in_counter ::= Z.succ |>))|].
    destruct (_ <? _); [|destruct (de_name e)]; (eapply tallies_trans; [|apply IH]); [by apply tallies_note| |by apply tallies_note].
    by apply tallies_same. }
  specialize (H (entries (scandir p)) (Some []) V). destruct (fold_left _ _ _) as [[es|] V1]; cbn [snd] in H.
  - destruct (scan_error _); intros [= <- <-]; [|done]. eapply tallies_trans; [exact H|by apply tallies_note].
  - by intros [= <- <-].
Qed.

Lemma stat_tallies st relative V o V' : _entry_stat st relative V = (o, V') → tallies V V'.
Proof. destruct st; intros [= <- <-]; [by apply tallies_same|by apply tallies_note]. Qed.
Lemma mode_tallies m relative V : tallies V (_classify_mode_noncanonical m relative V).
Proof. unfold _classify_mode_noncanonical. cbv zeta. by apply tallies_note. Qed.
Lemma classify_tallies st relative V : tallies V (_classify_noncanonical st relative V).
Proof.
  unfold _classify_noncanonical. destruct (_entry_stat st relative V) as [[m|] V1] eqn:E; apply stat_tallies in E; [|done].
  eapply tallies_trans; [exact E|]. destruct (is_kind _ _); [by apply tallies_note|apply mode_tallies].
Qed.

(** What follows an inspection. *)
Lemma inventories_after V V1 r : tallies V V1 → match r with Ok V' => tallies V1 V' | Err e => close_failure e end →
  match r with Ok V' => tallies V V' | Err e => close_failure e end.
Proof. intros H. destruct r as [V2|e]; [|done]. by apply tallies_trans. Qed.

Lemma inventories_orphan p relative name m : inventories (inventory_orphan p relative name m).
Proof.
  intros V. unfold inventory_orphan. destruct (_ <? _); [by apply tallies_note|].
  destruct (hash_path_spec p (in_budget V)) as [(h & b & L & E & HL & Ho)|(e & E & He)]; rewrite E; cbn [mbind result_bind];
    [|done].
  assert (∀ k os, fk_observed_sha256 k = hash_observed h → tallies V (note k os (V <| in_budget := b |>))) as Hnote.
  { intros k os Hk. exists L. split; [exact HL|]. intros k' Hk'. cbn in Hk'. unfold add_finding in Hk'.
    destruct (decide (k' = k)) as [->|Hne]; [|rewrite lookup_insert_ne in Hk' by done; by left]. right.
    intros d Hd. exists p. rewrite Hk in Hd. by rewrite <- Hd. }
  destruct h; by apply Hnote.
Qed.

Lemma inventories_shard_entry shard prefix reach entry : inventories (λ V, shard_entry shard prefix reach V entry).
Proof.
  intros V. cbv beta. unfold shard_entry. destruct entry as [name st].
  destruct (_entry_stat st _ V) as [[m|] V1] eqn:E; apply stat_tallies in E; [|done].
  apply (inventories_after _ _ _ E). cbv zeta. destruct (is_kind SymbolicLink m); [by apply tallies_note|].
  destruct (is_kind Regular m && _); [by apply tallies_note|].
  destruct (startswith _ _); [case_match; by apply tallies_note|].
  destruct (_ || _); [apply mode_tallies|].
  destruct (present _); [by apply tallies_same|]. apply inventories_orphan.
Qed.

Lemma inventories_shard shard prefix reach : inventories (_inventory_shard shard prefix reach).
Proof.
  intros V. unfold _inventory_shard. destruct (_scan_directory _ _ V) as [[es|] V1] eqn:E; apply scan_tallies in E; [|done].
  apply (inventories_after _ _ _ E), (inventories_foldM _ _ (inventories_shard_entry shard prefix reach)).
Qed.

Lemma inventories_prefix_entry root reach entry : inventories (λ V, prefix_entry root reach V entry).
Proof.
  intros V. cbv beta. unfold prefix_entry. destruct entry as [name st].
  destruct (_entry_stat st _ V) as [[m|] V1] eqn:E; apply stat_tallies in E; [|done].
  apply (inventories_after _ _ _ E). cbv zeta. destruct (is_kind SymbolicLink m); [by apply tallies_note|].
  destruct (_ || _); [by apply tallies_note|]. apply inventories_shard.
Qed.

Lemma inventories_root_entry root reach entry : inventories (λ V, root_entry root reach V entry).
Proof.
  intros V. cbv beta. unfold root_entry. destruct entry as [name st]. destruct (negb _); [apply classify_tallies|].
  destruct (_entry_stat st _ V) as [[m|] V1] eqn:E; apply stat_tallies in E; [|done].
  apply (inventories_after _ _ _ E). cbv zeta. destruct (is_kind SymbolicLink m); [by apply tallies_note|].
  destruct (negb _); [by apply tallies_note|].
  destruct (_scan_directory _ _ V1) as [[es|] V2] eqn:E2; apply scan_tallies in E2; [|done].
  apply (inventories_after _ _ _ E2), (inventories_foldM _ _ (inventories_prefix_entry root reach)).
Qed.

Lemma inventories_store root reach : inventories (_inventory_store root reach).
Proof.
  intros V. unfold _inventory_store. destruct (_scan_directory _ _ V) as [[es|] V1] eqn:E; apply scan_tallies in E; [|done].
  apply (inventories_after _ _ _ E), (inventories_foldM _ _ (inventories_root_entry root reach)).
Qed.

(** ** The whole audit *)

Lemma ordinary_finish root snapshot A : fails ordinary (finish_audit root snapshot A).
Proof.
  unfold finish_audit. cbv zeta. apply fails_bind.
  - match goal with |- fails _ (_inventory_store ?r ?reach ?V) => pose proof (inventories_store r reach V) as H;
      destruct (_inventory_store r reach V) as [V'|e] end; [apply fails_Ok|by apply fails_Err, ordinary_close].
  - intros V. unfold freeze_reachable. solve_ordinary.
Qed.

Section parsed.
Context {datetimes : PydanticDatetime} {parser : PydanticJson}.

Lemma initial_limits root manifests F nodes :
  let A := {| au_findings := F; au_builders := ∅; au_reads := ∅;
              au_budget := {| maximum := _MAX_TOTAL_HASHED_BYTES; hb_used := 0 |};
              au_tasks := ∅; au_evaluations := ∅; au_pending := nodes; au_processed := 0 |} in
  fails ordinary (process_pending root manifests A) ∧
  ∀ A', process_pending root manifests A = Ok A' →
    hashes root (au_budget A) A' ∧ au_processed A' <= _MAX_REACHABLE_REFERENCES + 1.
Proof.
  intros A. apply pending_limits; [| |done..].
  - intros r b. unfold A. cbn. by rewrite lookup_empty.
  - intros d b. unfold A. cbn. by rewrite lookup_empty.
Qed.

Lemma ordinary_trace root ordered : fails ordinary (trace_references root ordered).
Proof.
  unfold trace_references. cbv zeta. apply fails_bind; [solve_ordinary|]. intros nodes. apply initial_limits.
Qed.

(** Nothing that an audit raises is a failed assertion or the quarantine protocol's. *)
Lemma ordinary_artifact_audit roots store : fails ordinary (audit_artifact_store roots store).
Proof.
  unfold audit_artifact_store. apply fails_bind; [apply ordinary_roots|]. intros [ordered snapshot].
  assert (fails ordinary (verify_root_identity (world := frozen fs) store start).1) as Hi.
  { destruct (verify_root_identity (world := frozen fs) store start) as [[u|e] s'] eqn:E; [apply fails_Ok|].
    apply fails_Err. destruct (closing_identity (world := frozen fs) store _ _ _ E) as [_ He].
    by destruct (He _ eq_refl) as [[? ->]|(? & ? & -> & _)]. }
  destruct (verify_root_identity (world := frozen fs) store start).1 as [u|e].
  - destruct (_validate_store_root store); [apply ordinary_untrusted|].
    apply fails_bind; [apply ordinary_trace|]. intros A. apply ordinary_finish.
  - specialize (Hi e eq_refl). destruct e; first [by apply fails_Err|apply ordinary_untrusted].
Qed.

(** C29. An artifact audit always comes to an end: no loop outruns the bound the model gives
    it, for reading, hashing or following references, and none of the two assertions of
    the code can fail, whatever the store holds and however its system calls fail. *)
Theorem audit_always_ends roots store msg : audit_artifact_store roots store ≠ Err (AssertionError msg).
Proof. intros H. by apply (ordinary_artifact_audit roots store _ H). Qed.

(** C30. The audit works within its limits, and its budget counts what it hashes.  Following
    the references takes at most 16,385 nodes from the queue and hashes at most a gigabyte:
    the bytes in [L], each entry the first bytes of the file at its path, are what the
    budget was charged for, and every digest that a read observed is that of bytes in [L]
    of the reference's own file.  The inventory goes on from the budget that is left: what
    it hashes besides, [L'], does not take the total past the gigabyte, and every digest
    that it reports is of bytes in [L'].  It completes unless a file that it opened could
    not be closed, and then raises that error. *)
Theorem audit_keeps_its_limits root ordered A reach : trace_references root ordered = Ok A →
  au_processed A <= _MAX_REACHABLE_REFERENCES + 1 ∧
  ∃ L, Forall hashed_from L ∧ hb_used (au_budget A) = hashed_bytes L ∧ hashed_bytes L <= _MAX_TOTAL_HASHED_BYTES ∧
  (∀ digest size location read, au_reads A !! (digest, size, location) = Some read →
     observes L (reference_path root digest) (observed_sha256 read)) ∧
  ∀ F, match _inventory_store root reach
               {| in_findings := F; in_counter := 0; in_observed := ∅; in_budget := au_budget A |} with
       | Ok V => ∃ L', Forall hashed_from L' ∧ hb_used (in_budget V) = hashed_bytes (L ++ L') ∧
           hashed_bytes (L ++ L') <= _MAX_TOTAL_HASHED_BYTES ∧
           ∀ k, is_Some (in_findings V !! k) → is_Some (F !! k) ∨ digests_from L' k
       | Err e => close_failure e
       end.
Proof.
  unfold trace_references. cbv zeta. intros H. apply bind_Ok in H as (nodes & _ & H).
  apply initial_limits in H as [(L & (Em & HL & Hu & Hle) & HK) Hp]. cbn [au_budget maximum hb_used] in *.
  rewrite Em in Hle. specialize (Hle ltac:(done)). split; [done|]. exists L. split_and!; [done|lia|lia| |].
  - intros digest size location read Hr. exact (HK _ _ Hr).
  - intros F. match goal with |- context [_inventory_store ?r ?reach ?V] => pose proof (inventories_store r reach V) as HI;
      destruct (_inventory_store r reach V) as [V'|e] end; [|done].
    destruct HI as (L' & (Em' & HL' & Hu' & Hle') & HK'). cbn [in_budget] in *. exists L'.
    rewrite hashed_app. rewrite Em', Em in Hle'. specialize (Hle' Hle). split_and!; [done|lia|lia|done].
Qed.
End parsed.
End limits.

Lemma audit_keeps_its_limits_witness : ∃ A L, trace_references sample_root [sample_root_of_run] = Ok A ∧
  hb_used (au_budget A) = hashed_bytes L ∧ 0 < hashed_bytes L <= _MAX_TOTAL_HASHED_BYTES ∧
  au_processed A <= _MAX_REACHABLE_REFERENCES + 1.
Proof.
  destruct (trace_references sample_root [sample_root_of_run]) as [A|e] eqn:E.
  - destruct (audit_keeps_its_limits _ _ A ∅ E) as (Hp & L & _ & Hu & Hm & _).
    assert (0 < hb_used (au_budget A)) as H0.
    { assert (hb_used (au_budget A) = match trace_references sample_root [sample_root_of_run] with
        Ok A => hb_used (au_budget A) | Err _ => 0 end) as -> by (rewrite E; reflexivity). vm_compute. reflexivity. }
    exists A, L. split; [reflexivity|]. split; [exact Hu|]. split; [lia|exact Hp].
  - exfalso. apply (f_equal is_ok) in E. vm_compute in E. discriminate E.
Defined.
