(* ===== verification/Coordinator.v ===== *)
(** * The storage coordinator (src/guildmind/storage/coordinator.py)

    [audit_storage] looks at a state directory, its database, its sidecar files and its
    artifact root without changing any of them, holds the ledger at a verified snapshot
    while the artifacts it commits to are audited, and derives from what it saw which
    operations are allowed.  The system calls are steps of the [World]; the audit of the
    artifacts runs within one of them. *)

From S2P Require Import Prelude Order Loop Effects PyStr Files Float64 Json Hash Datetime Fields Usage.
From S2P Require Import Models Specs Sqlite EventStore Artifacts Integrity.

Local Open Scope Z_scope.

(** [EventStore.open_existing_read_only(path, trusted_base=...)]: what opening the database
    file at a moment gives. *)
Class Ledgers := { open_ledger : nat → path → path → result store }.

Inductive StorageIntegrityState :=
  | UNINITIALIZED | DATABASE_MISSING_WITH_ARTIFACTS | DATABASE_INVALID | INITIALIZED_EMPTY
  | INITIALIZED_EMPTY_WITH_UNREFERENCED_FINDINGS | AUDIT_INCOMPLETE | REFERENCED_EVIDENCE_INVALID
  | HEALTHY_WITH_UNREFERENCED_FINDINGS | HEALTHY.

#[export] Instance storage_state_eq_dec : EqDecision StorageIntegrityState.
Proof. solve_decision. Defined.

Definition storage_state_value (s : StorageIntegrityState) : string :=
  match s with
  | UNINITIALIZED => "uninitialized"
  | DATABASE_MISSING_WITH_ARTIFACTS => "database_missing_with_artifacts"
  | DATABASE_INVALID => "database_invalid"
  | INITIALIZED_EMPTY => "initialized_empty"
  | INITIALIZED_EMPTY_WITH_UNREFERENCED_FINDINGS => "initialized_empty_with_unreferenced_findings"
  | AUDIT_INCOMPLETE => "audit_incomplete"
  | REFERENCED_EVIDENCE_INVALID => "referenced_evidence_invalid"
  | HEALTHY_WITH_UNREFERENCED_FINDINGS => "healthy_with_unreferenced_findings"
  | HEALTHY => "healthy"
  end.

(** ** The ledger's commitment *)

Record VerifiedRunRootCommitment := {
  rc_run_id : string;
  rc_manifest_revision : Z;
  rc_manifest_sha256 : string;
  rc_event_count : Z;
  rc_head_event_sha256 : string;
}.

Definition check_commitment (c : VerifiedRunRootCommitment) : result VerifiedRunRootCommitment :=
  _ ← require (str_nonempty (rc_run_id c)) (ValidationError "string_too_short");
  _ ← require (0 <=? rc_manifest_revision c) (ValidationError "greater_than_equal");
  _ ← require (is_lower_sha256 (rc_manifest_sha256 c)) (ValidationError "string_pattern_mismatch");
  _ ← require (1 <=? rc_event_count c) (ValidationError "greater_than_equal");
  _ ← require (is_lower_sha256 (rc_head_event_sha256 c)) (ValidationError "string_pattern_mismatch");
  _ ← require (py_strip_nonempty (rc_run_id c)) (ValidationError "verified ledger run ID cannot be blank");
  _ ← require (rc_manifest_revision c <? rc_event_count c)
        (ValidationError "manifest revision must be less than event count");
  Ok c.

(** [root.model_dump(mode="json")] *)
Definition dump_commitment (c : VerifiedRunRootCommitment) : json :=
  JObj [("run_id", JStr (rc_run_id c)); ("manifest_revision", JInt (rc_manifest_revision c));
        ("manifest_sha256", JStr (rc_manifest_sha256 c)); ("event_count", JInt (rc_event_count c));
        ("head_event_sha256", JStr (rc_head_event_sha256 c))].

Record VerifiedLedgerSnapshot := { ls_snapshot_sha256 : string; ls_roots : list VerifiedRunRootCommitment }.

Definition ledger_snapshot_schema : string := "guildmind.verified-run-root-snapshot/v1".

Definition check_ledger_snapshot {hashing : Hashing} (l : VerifiedLedgerSnapshot) : result VerifiedLedgerSnapshot :=
  _ ← require (is_lower_sha256 (ls_snapshot_sha256 l)) (ValidationError "string_pattern_mismatch");
  let run_ids := rc_run_id <$> ls_roots l in
  _ ← require (bool_decide (run_ids = sorted_set id run_ids))
        (ValidationError "verified ledger roots must be unique and sorted by run ID");
  expected ← canonical_sha256
    (JObj [("roots", JArr (dump_commitment <$> ls_roots l)); ("schema_version", JStr ledger_snapshot_schema)]);
  _ ← require (str_eqb (ls_snapshot_sha256 l) expected) (ValidationError "verified ledger snapshot hash mismatch");
  Ok l.

(** [snapshot.contains_run(run_id)] *)
Definition contains_run (l : VerifiedLedgerSnapshot) (run_id : string) : bool :=
  existsb (λ c, str_eqb (rc_run_id c) run_id) (ls_roots l).

(** ** The report and its derivation *)

Record _Derivation := {
  de_state : StorageIntegrityState;
  de_initialization_allowed : bool;
  de_references_verified : bool;
  de_read_allowed : bool;
  de_mutation_allowed : bool;
  de_quarantine_allowed : bool;
  de_clean : bool;
}.

#[export] Instance derivation_eq_dec : EqDecision _Derivation.
Proof. solve_decision. Defined.

Record StorageIntegrityReport := {
  si_state : StorageIntegrityState;
  database_present : bool;
  artifact_root_present : bool;
  ledger_snapshot : option VerifiedLedgerSnapshot;
  artifact_audit : option ArtifactAudit;
  diagnostic : option string;
  initialization_allowed : bool;
  references_verified : bool;
  read_allowed : bool;
  mutation_allowed : bool;
  si_quarantine_allowed : bool;
  clean : bool;
}.

(** A state in which nothing is allowed. *)
Definition denied (s : StorageIntegrityState) : _Derivation :=
  {| de_state := s; de_initialization_allowed := false; de_references_verified := false;
     de_read_allowed := false; de_mutation_allowed := false; de_quarantine_allowed := false;
     de_clean := false |}.

(** Without a database: whether there is anything that initialization could harm. *)
Definition derive_without_database (audit : option ArtifactAudit) (diagnostic : option string) : _Derivation :=
  match diagnostic with
  | Some d => if startswith "state_directory_" d then denied DATABASE_INVALID
              else denied DATABASE_MISSING_WITH_ARTIFACTS
  | None =>
      let artifact_content :=
        match audit with
        | Some a => bool_decide (findings a ≠ []) || bool_decide (reachable a ≠ [])
        | None => false
        end in
      if artifact_content then denied DATABASE_MISSING_WITH_ARTIFACTS
      else {| de_state := UNINITIALIZED; de_initialization_allowed := true; de_references_verified := false;
              de_read_allowed := false; de_mutation_allowed := false; de_quarantine_allowed := false;
              de_clean := true |}
  end.

Definition is_clean_state (s : StorageIntegrityState) : bool :=
  match s with INITIALIZED_EMPTY | HEALTHY => true | _ => false end.

(** With a verified ledger and an audit bound to it. *)
Definition derive_audited (l : VerifiedLedgerSnapshot) (a : ArtifactAudit) : _Derivation :=
  let referenced_failure := existsb has_owners (findings a) || existsb (λ r, negb (bytes_verified r)) (reachable a) in
  let operational := complete a && negb referenced_failure in
  let empty := bool_decide (ls_roots l = []) in
  let state :=
    if referenced_failure then REFERENCED_EVIDENCE_INVALID
    else if negb (complete a) then AUDIT_INCOMPLETE
    else if bool_decide (findings a ≠ []) then
      (if empty then INITIALIZED_EMPTY_WITH_UNREFERENCED_FINDINGS else HEALTHY_WITH_UNREFERENCED_FINDINGS)
    else if empty then INITIALIZED_EMPTY else HEALTHY in
  {| de_state := state; de_initialization_allowed := false; de_references_verified := operational;
     de_read_allowed := operational; de_mutation_allowed := operational;
     de_quarantine_allowed := operational && quarantine_allowed a; de_clean := is_clean_state state |}.

(** [_derive_report(...)] *)
Definition _derive_report (present : bool) (l : option VerifiedLedgerSnapshot) (audit : option ArtifactAudit)
    (diagnostic : option string) : result _Derivation :=
  if negb present then Ok (derive_without_database audit diagnostic)
  else match l, diagnostic with
  | None, _ => Ok (denied DATABASE_INVALID)
  | Some _, Some _ => Ok (denied AUDIT_INCOMPLETE)
  | Some l, None =>
      a ← of_option (ValueError "a validated database requires a bound artifact audit") audit;
      _ ← require (str_eqb (snapshot_sha256 a) (ls_snapshot_sha256 l))
            (ValueError "artifact audit is not bound to the ledger snapshot");
      Ok (derive_audited l a)
  end.

(** The fields of a report that must be derived. *)
Definition observed (r : StorageIntegrityReport) : _Derivation :=
  {| de_state := si_state r; de_initialization_allowed := initialization_allowed r;
     de_references_verified := references_verified r; de_read_allowed := read_allowed r;
     de_mutation_allowed := mutation_allowed r; de_quarantine_allowed := si_quarantine_allowed r;
     de_clean := clean r |}.

(** The model validator of [StorageIntegrityReport]; its [ValueError]s become a
    [ValidationError]. *)
Definition check_report (r : StorageIntegrityReport) : result StorageIntegrityReport :=
  derivation ← except (λ _, ValidationError "value_error")
    (_derive_report (database_present r) (ledger_snapshot r) (artifact_audit r) (diagnostic r));
  _ ← require (bool_decide (observed r = derivation))
        (ValidationError "storage integrity state and gates must be derived");
  _ ← require (match ledger_snapshot r, artifact_audit r with
               | Some l, Some a => str_eqb (ls_snapshot_sha256 l) (snapshot_sha256 a)
               | _, _ => true
               end) (ValidationError "artifact audit is not bound to the ledger snapshot");
  Ok r.

(** [_report(...)] *)
Definition _report (present artifacts_present : bool) (l : option VerifiedLedgerSnapshot)
    (audit : option ArtifactAudit) (diagnostic : option string) : result StorageIntegrityReport :=
  d ← _derive_report present l audit diagnostic;
  check_report
    {| si_state := de_state d; database_present := present; artifact_root_present := artifacts_present;
       ledger_snapshot := l; artifact_audit := audit; diagnostic := diagnostic;
       initialization_allowed := de_initialization_allowed d; references_verified := de_references_verified d;
       read_allowed := de_read_allowed d; mutation_allowed := de_mutation_allowed d;
       si_quarantine_allowed := de_quarantine_allowed d; clean := de_clean d |}.

(** ** Observing paths *)

Inductive _PathKind := MISSING | DIRECTORY | REGULAR | LINK | OTHER | ERROR.

#[export] Instance path_kind_eq_dec : EqDecision _PathKind.
Proof. solve_decision. Defined.

Definition path_kind_value (k : _PathKind) : string :=
  match k with
  | MISSING => "missing" | DIRECTORY => "directory" | REGULAR => "regular" | LINK => "symlink"
  | OTHER => "other" | ERROR => "error"
  end.

Record _PathObservation := {
  po_kind : _PathKind;
  po_error_number : option Z;
  po_device : option Z;
  po_inode : option Z;
}.

#[export] Instance path_observation_eq_dec : EqDecision _PathObservation.
Proof. solve_decision. Defined.

Definition observation_of (o : os_result stat_result) : _PathObservation :=
  match o with
  | OSError n =>
      if not_found n then {| po_kind := MISSING; po_error_number := None; po_device := None; po_inode := None |}
      else {| po_kind := ERROR; po_error_number := Some (_errno n); po_device := None; po_inode := None |}
  | Done m =>
      {| po_kind := match st_kind m with
                    | SymbolicLink => LINK | Directory => DIRECTORY | Regular => REGULAR | OtherKind => OTHER
                    end;
         po_error_number := None; po_device := Some (st_dev m); po_inode := Some (st_ino m) |}
  end.

Definition is_path_kind (k : _PathKind) (o : _PathObservation) : bool := bool_decide (po_kind o = k).

(** [_path_diagnostic(name, observation)] *)
Definition _path_diagnostic (name : string) (o : _PathObservation) : string :=
  name +:+ "_" +:+ path_kind_value (po_kind o) +:+
  match po_error_number o with Some n => "_errno_" +:+ int_repr n | None => "" end.

(** A path that was neither absent nor a directory. *)
Definition artifact_diagnostic (o : _PathObservation) : option string :=
  if is_path_kind MISSING o || is_path_kind DIRECTORY o then None else Some (_path_diagnostic "artifact_root" o).

(** The first sidecar file that exists without a database. *)
Fixpoint sidecar_diagnostic (l : list (path * string * _PathObservation)) : option string :=
  match l with
  | [] => None
  | (_, name, o) :: l => if is_path_kind MISSING o then sidecar_diagnostic l else Some (_path_diagnostic name o)
  end.

Section hashing.
Context {hashing : Hashing}.

(** [_ledger_snapshot(roots)] *)
Definition _ledger_snapshot (roots : list VerifiedRunRoot) : result VerifiedLedgerSnapshot :=
  commitments ← mapR (λ root, check_commitment
      {| rc_run_id := m_run_id (vr_manifest root); rc_manifest_revision := manifest_revision root;
         rc_manifest_sha256 := manifest_sha256 root; rc_event_count := vr_event_count root;
         rc_head_event_sha256 := head_event_sha256 root |})
    (sort_by (λ root, m_run_id (vr_manifest root)) roots);
  snapshot ← verified_run_roots_sha256 roots;
  check_ledger_snapshot {| ls_snapshot_sha256 := snapshot; ls_roots := commitments |}.

(** [_empty_audit(snapshot_sha256)] *)
Definition _empty_audit (snapshot : string) : result ArtifactAudit :=
  check_audit {| snapshot_sha256 := snapshot; reachable := []; findings := []; complete := true;
                 quarantine_allowed := true |}.

(** [_incomplete_audit(snapshot_sha256, detail)] *)
Definition _incomplete_audit (snapshot detail : string) : result ArtifactAudit :=
  f ← check_finding
    {| finding := fkey SCAN_ERROR "." None None None (Some detail)
                    (if str_eqb detail "artifact_store_missing" then Some ENOENT else None);
       owners := [] |};
  check_audit {| snapshot_sha256 := snapshot; reachable := []; findings := [f]; complete := false;
                 quarantine_allowed := false |}.

(** The references by digest: the first size seen, every media type and every owner. *)
Abbreviation missing_references := (gmap string (Z * gset string * gset ArtifactOwner)).

Definition add_missing (run_id : string) (g : missing_references) (p : string * ArtifactRef)
    : result missing_references :=
  let '(role, r) := p in
  o ← make_owner run_id [role];
  let '(size, media, os) := default (size_bytes r, ∅, ∅) (g !! sha256 r) in
  Ok (<[ sha256 r := (size, media ∪ {[ media_type r ]}, os ∪ {[ o ]}) ]> g).

Definition missing_of_root (g : missing_references) (root : VerifiedRunRoot) : result missing_references :=
  let m := vr_manifest root in
  foldM (add_missing (m_run_id m)) g (sort_by fst (map_to_list (m_artifacts m))).

(** One missing digest: what it was to be, and the finding. *)
Definition missing_reachable (p : string * (Z * gset string * gset ArtifactOwner)) : result ReachableArtifact :=
  let '(digest, (size, media, os)) := p in
  check_reachable {| ra_sha256 := digest; ra_size_bytes := size;
    ra_storage_ref := _canonical_relative_path digest; ra_media_types := sort_by id (elements media);
    ra_owners := sorted_owners os; bytes_verified := false |}.

Definition missing_finding (p : string * (Z * gset string * gset ArtifactOwner)) : result ArtifactFinding :=
  let '(digest, (size, media, os)) := p in
  check_finding {| finding := fkey MISSING_REFERENCED (_canonical_relative_path digest) (Some digest) None
                     (Some size) (Some "artifact_store_missing") (Some ENOENT);
                   owners := sorted_owners os |}.

(** [_missing_store_audit(roots, snapshot_sha256)] *)
Definition _missing_store_audit (roots : list VerifiedRunRoot) (snapshot : string) : result ArtifactAudit :=
  references ← foldM missing_of_root ∅ roots;
  let ordered := sort_by fst (map_to_list references) in
  reach ← mapR missing_reachable ordered;
  found ← mapR missing_finding ordered;
  check_audit {| snapshot_sha256 := snapshot; reachable := reach; findings := found; complete := true;
                 quarantine_allowed := false |}.

(** ** The coordinated audit *)

Section world.
Context {world : World} {ledgers : Ledgers} {env : Environment}.
Context {datetimes : PydanticDatetime} {parser : PydanticJson}.

(** [_observe_path(path)] *)
Definition _observe_path (p : path) : Sys _PathObservation := call (λ _, observation_of (lstat p)).

(** [_require_same_path(path, expected, name)]: kind, device and inode are compared. *)
Definition _require_same_path (p : path) (expected : _PathObservation) (name : string) : Sys unit :=
  o ← _observe_path p;
  lift (require (bool_decide (po_kind o = po_kind expected) && bool_decide (po_device o = po_device expected) &&
                 bool_decide (po_inode o = po_inode expected))
          (StoreIntegrityError (name +:+ " changed during storage integrity audit"))).

(** [_paths_are_unchanged(observations)] *)
Fixpoint _paths_are_unchanged (l : list (path * _PathObservation)) : Sys bool :=
  match l with
  | [] => mret true
  | (p, expected) :: l =>
      o ← _observe_path p;
      if bool_decide (o = expected) then _paths_are_unchanged l else mret false
  end.

(** [_unstable_report(state, database_path, artifact_root)] *)
Definition _unstable_report (state database_path artifact_root : path) : Sys StorageIntegrityReport :=
  o ← _observe_path state;
  if negb (is_path_kind DIRECTORY o)
  then lift (_report false false None None (Some "state_directory_changed_during_audit"))
  else
    d ← _observe_path database_path;
    a ← _observe_path artifact_root;
    lift (_report (negb (is_path_kind MISSING d)) (negb (is_path_kind MISSING a)) None None
            (Some "storage_paths_changed_during_audit")).

(** [audit_artifact_store] at one moment. *)
Definition audit_now (roots : list VerifiedRunRoot) (store : FileArtifactStore) : Sys ArtifactAudit :=
  r ← call (λ fs, audit_artifact_store (fs := fs) roots store); lift r.

(** [except (ArtifactCorruptionError, OSError, StoreIntegrityError, ValueError)] *)
Definition is_store_failure (e : exn) : bool :=
  match e with ArtifactCorruptionError _ | OSException _ | StoreIntegrityError _ => true | _ => is_value_error e end.

(** [except (OSError, sqlite3.DatabaseError, StoreIntegrityError, ValueError)] *)
Definition is_database_failure (e : exn) : bool :=
  match e with OSException _ | SqliteIntegrityError _ | SqliteOperationalError _ | StoreIntegrityError _ => true | _ => is_value_error e end.

(** Opening the artifact root below the state directory's parent and auditing it; [None]
    when that fails. *)
Definition try_audit (roots : list VerifiedRunRoot) (state artifact_root : path) (o : _PathObservation)
    : Sys (option ArtifactAudit) :=
  catch (store ← open_existing_read_only artifact_root (Some (path_parent state));
         audit ← audit_now roots store;
         _ ← _require_same_path artifact_root o "artifact_root";
         mret (Some audit))
    (λ e, if is_store_failure e then Some (mret None) else None).

(** [_audit_for_snapshot(roots, snapshot, state_directory, artifact_root, observation)] *)
Definition _audit_for_snapshot (roots : list VerifiedRunRoot) (snapshot : VerifiedLedgerSnapshot)
    (state artifact_root : path) (o : _PathObservation) : Sys ArtifactAudit :=
  let pin := ls_snapshot_sha256 snapshot in
  if is_path_kind DIRECTORY o then
    tried ← try_audit roots state artifact_root o;
    match (tried : option ArtifactAudit) with
    | None => lift (_incomplete_audit pin "artifact_store_open_failed")
    | Some audit =>
        _ ← lift (require (str_eqb (snapshot_sha256 audit) pin)
                    (ValueError "artifact audit snapshot binding mismatch"));
        mret audit
    end
  else if is_path_kind MISSING o then
    if existsb (λ root, bool_decide (m_artifacts (vr_manifest root) ≠ ∅)) roots
    then lift (_missing_store_audit roots pin)
    else lift (_empty_audit pin)
  else lift (_incomplete_audit pin "artifact_store_path_invalid").

(** [_audit_without_database(state_directory, artifact_root, observation)] *)
Definition _audit_without_database (state artifact_root : path) (o : _PathObservation)
    : Sys (option ArtifactAudit) :=
  if is_path_kind MISSING o then mret None
  else
    snapshot ← lift (_ledger_snapshot []);
    let pin := ls_snapshot_sha256 snapshot in
    if negb (is_path_kind DIRECTORY o)
    then a ← lift (_incomplete_audit pin "artifact_store_path_invalid"); mret (Some a)
    else
      tried ← try_audit [] state artifact_root o;
      match (tried : option ArtifactAudit) with
      | Some audit => mret (Some audit)
      | None => a ← lift (_incomplete_audit pin "artifact_store_open_failed"); mret (Some a)
      end.

(** [with event_store.verified_snapshot() as roots: body] *)
Definition with_verified_snapshot {A} (st : store) (body : list VerifiedRunRoot → Sys A) : Sys A :=
  match enter_snapshot st with
  | (Err e, _) => lift (Err e)
  | (Ok roots, st) => a ← body roots; _ ← lift (_validate_tracked_path st).1; mret a
  end.

(** The body of the [try] around the open ledger. *)
Definition audit_ledger (state database_path artifact_root : path)
    (state_o database_o artifact_o : _PathObservation) (sidecars : list (path * string * _PathObservation))
    : Sys (VerifiedLedgerSnapshot * ArtifactAudit) :=
  opened ← (λ s, (Ok (open_ledger (moment s) database_path (path_parent state)),
                  {| moment := S (moment s); effects := effects s |}));
  st ← lift opened;
  with_verified_snapshot st (λ roots,
    _ ← _require_same_path state state_o "state_directory";
    _ ← _require_same_path database_path database_o "database";
    snapshot ← lift (_ledger_snapshot roots);
    audit ← _audit_for_snapshot roots snapshot state artifact_root artifact_o;
    _ ← _require_same_path state state_o "state_directory";
    _ ← _require_same_path database_path database_o "database";
    _ ← _require_same_path artifact_root artifact_o "artifact_root";
    _ ← forM (λ p, _require_same_path p.1.1 p.2 p.1.2) sidecars;
    mret (snapshot, audit)).

Definition sidecar_paths (state : path) : list (path * string) :=
  [(state ++ ["runs.db-wal"], "database_wal"); (state ++ ["runs.db-shm"], "database_shm");
   (state ++ ["runs.db-journal"], "database_journal")].

(** [audit_storage(state_directory)] *)
Definition audit_storage (state : path) : Sys StorageIntegrityReport :=
  state_o ← _observe_path state;
  if is_path_kind MISSING state_o then
    unchanged ← _paths_are_unchanged [(state, state_o)];
    lift (_report false false None None
            (if (unchanged : bool) then None else Some "state_directory_changed_during_audit"))
  else if negb (is_path_kind DIRECTORY state_o) then
    lift (_report false false None None (Some (_path_diagnostic "state_directory" state_o)))
  else
    let database_path := state ++ ["runs.db"] in
    let artifact_root := state ++ ["artifacts"] in
    database_o ← _observe_path database_path;
    artifact_o ← _observe_path artifact_root;
    sidecars ← mapM_eff (λ p, o ← _observe_path p.1; mret (p, o)) (sidecar_paths state);
    let observed_paths := (state, state_o) :: (database_path, database_o) :: (artifact_root, artifact_o) ::
                          ((λ p, (p.1.1, p.2)) <$> sidecars) in
    let artifact_present := negb (is_path_kind MISSING artifact_o) in
    if is_path_kind MISSING database_o then
      audit ← _audit_without_database state artifact_root artifact_o;
      unchanged ← _paths_are_unchanged observed_paths;
      if negb (unchanged : bool) then _unstable_report state database_path artifact_root
      else
        let diagnostic := match sidecar_diagnostic sidecars with
                          | Some d => Some d
                          | None => artifact_diagnostic artifact_o
                          end in
        lift (_report false artifact_present None audit diagnostic)
    else if negb (is_path_kind REGULAR database_o) then
      audit ← _audit_without_database state artifact_root artifact_o;
      unchanged ← _paths_are_unchanged observed_paths;
      if negb (unchanged : bool) then _unstable_report state database_path artifact_root
      else lift (_report true artifact_present None audit (Some (_path_diagnostic "database" database_o)))
    else
      audited ← catch
        (p ← audit_ledger state database_path artifact_root state_o database_o artifact_o sidecars; mret (Some p))
        (λ e, if is_database_failure e then Some (mret None) else None);
      match (audited : option (VerifiedLedgerSnapshot * ArtifactAudit)) with
      | None => lift (_report true artifact_present None None (Some "database_integrity_validation_failed"))
      | Some (snapshot, audit) =>
          lift (_report true artifact_present (Some snapshot) (Some audit) (artifact_diagnostic artifact_o))
      end.
End world.
End hashing.
