(* ===== verification/AuditErrors.v ===== *)
(** * What an audit of the storage may raise (src/guildmind/storage/integrity.py, events.py)

    An audit reads the whole ledger and the whole artifact store.  None of the validators,
    decoders and checks that it goes through fails an assertion or raises an exception of
    the quarantine protocol; so what comes out of an audit is never taken for the word of
    the protocol. *)

From S2P Require Import Prelude Loop Effects PyStr Files Descriptors Float64 Json Hash Datetime Fields Usage Models Specs.
From S2P Require Import Replay Sqlite EventStore Artifacts ArtifactFacts Integrity Disk Tame IntegrityFacts AuditFacts AuditLimits Coordinator.

Local Open Scope Z_scope.

(** An [except] clause that raises something ordinary in place of something ordinary. *)
Lemma ordinary_except {A} f (r : result A) : fails ordinary r → (∀ e, ordinary e → ordinary (f e)) → fails ordinary (except f r).
Proof. intros Hr Hf. apply fails_except. intros e He. by apply Hf, Hr. Qed.

Ltac head_of t := lazymatch t with ?f _ => head_of f | _ => t end.
(** Walks through a computation, unfolding the definitions it is made of. *)
Ltac walk :=
  repeat first
  [ progress solve_ordinary
  | progress cbv zeta
  | lazymatch goal with
    | |- fails _ (except _ _) =>
        apply ordinary_except; [|let e := fresh "e" in intros e; destruct e; try done; cbn; by repeat case_match]
    | |- fails _ ?r => let h := head_of r in unfold h
    end ].

Section reading.
Context {hashing : Hashing} {datetimes : PydanticDatetime}.

Lemma ordinary_loads s : fails ordinary (loads s).
Proof. walk. Qed.
Lemma ordinary_manifest v : fails ordinary (validate_manifest v).
Proof. walk. Qed.
Lemma ordinary_event v : fails ordinary (validate_event v).
Proof. walk. Qed.
Lemma ordinary_usage v : fails ordinary (validate_usage v).
Proof. walk. Qed.
Lemma ordinary_limits v : fails ordinary (validate_limits v).
Proof. walk. Qed.
#[local] Hint Resolve ordinary_loads ordinary_manifest ordinary_event ordinary_usage ordinary_limits : fails.

Lemma ordinary_chain c e : fails ordinary (chain_step c e).
Proof. walk. Qed.
Lemma ordinary_dispatch r e : fails ordinary (dispatch r e).
Proof. walk. Qed.
#[local] Hint Resolve ordinary_chain ordinary_dispatch : fails.
Lemma ordinary_replay evs b : fails ordinary (replay_events evs b).
Proof. walk. Qed.
#[local] Hint Resolve ordinary_replay : fails.

Lemma ordinary_load_manifest d id : fails ordinary (_load_manifest_locked d id).
Proof. walk. Qed.
Lemma ordinary_list_events d id : fails ordinary (_list_events_locked d id).
Proof. walk. Qed.
#[local] Hint Resolve ordinary_load_manifest ordinary_list_events : fails.
Lemma ordinary_state d id m : fails ordinary (_validated_state_locked d id m).
Proof. walk. Qed.
#[local] Hint Resolve ordinary_state : fails.
Lemma ordinary_ledger d : fails ordinary (verify_ledger d).
Proof. walk. Qed.
End reading.

(** ** The audit of the storage *)

Section audit.
Context {hashing : Hashing} {world : World} {ledgers : Ledgers} {env : Environment}.
Context {datetimes : PydanticDatetime} {parser : PydanticJson}.

(** Opening the ledger and its checks outside the tables (SQLite, the file and its
    sidecars) know nothing of the quarantine. *)
Definition ordinary_ledgers : Prop := ∀ t file base, fails ordinary (open_ledger t file base).
Definition ordinary_checks : Prop := ∀ n, fails ordinary (outside_check n).
Context (Hledgers : ordinary_ledgers) (Hchecks : ordinary_checks).

#[local] Abbreviation calm := (raises ordinary).

Lemma calm_call {A} (f : FileSystem → A) : calm (call f).
Proof. by intros s e s' [=]. Qed.
Lemma calm_lift {A} (r : result A) : fails ordinary r → calm (lift r : Sys A).
Proof. apply raises_lift. Qed.
Lemma calm_outside : calm outside.
Proof. intros s e s' [= H _]. by eapply Hchecks. Qed.
Lemma calm_snapshot : calm enter_snapshot.
Proof.
  unfold enter_snapshot, idle, _validate_tracked_path, _validate_schema_locked.
  repeat (apply raises_bind; [try apply calm_outside|intros ?]).
  - intros s e s' [= H _]. unfold insist, require in H. case_match; [done|]. by injection H as <-.
  - apply raises_exceptM. unfold _verified_roots_locked. intros s e s' H.
    assert (ordinary e) as He.
    { revert H. eapply (raises_bind ordinary); [apply calm_outside|]. intros _ s1 e1 s2 [= H _].
      by apply ordinary_ledger in H. }
    destruct e; try done; cbn; by repeat case_match.
Qed.

(** The walk over programs. *)
Ltac calm_step :=
  first
  [ apply raises_ret | apply calm_call
  | lazymatch goal with
    | |- raises _ (mbind _ _) => apply raises_bind; [|intros ?]
    | |- raises _ (forM _ _) => apply raises_forM; intros ?
    | |- raises _ (mapM_eff _ _) => apply raises_mapM; intros ?
    | |- raises _ (lift _) => apply calm_lift; solve [walk]
    | |- raises _ (match ?x with _ => _ end) => destruct x
    end ].

Lemma calm_closing {A} (m : Sys A) : fails_closing m → calm m.
Proof. intros H s e s' [_ He]%H. by destruct (He _ eq_refl) as [[? ->]|(? & ? & -> & _)]. Qed.
Lemma calm_chain store : calm (_validate_directory_chain store).
Proof. apply calm_closing, (closing_identity store). Qed.
Lemma calm_open root base : calm (open_existing_read_only root base).
Proof. unfold open_existing_read_only, _snapshot_directory_chain. repeat first [apply calm_chain|calm_step|progress unfold corruption, ensure]. Qed.
Lemma calm_same p o n : calm (_require_same_path p o n).
Proof. unfold _require_same_path, _observe_path. repeat calm_step. Qed.
Lemma calm_unchanged l : calm (_paths_are_unchanged l).
Proof.
  induction l as [|[p o] l IH]; cbn [_paths_are_unchanged]; unfold _observe_path; repeat first [apply IH|calm_step].
Qed.
Lemma calm_audit_now roots store : calm (audit_now roots store).
Proof.
  intros s e s' H. unfold audit_now in H. apply bindM_inv in H as [(r & s1 & [= <- <-] & H)|(e1 & [=] & _)].
  injection H as H _. by apply ordinary_artifact_audit in H.
Qed.
Lemma calm_try roots state artifacts o : calm (try_audit roots state artifacts o).
Proof.
  unfold try_audit. apply raises_catch. intros s e s' H.
  destruct (is_store_failure e); [apply raises_ret|]. revert s e s' H.
  change (calm (store ← open_existing_read_only artifacts (Some (path_parent state)); audit ← audit_now roots store;
    _ ← _require_same_path artifacts o "artifact_root"; mret (Some audit))).
  repeat first [apply calm_open|apply calm_audit_now|apply calm_same|calm_step].
Qed.

Lemma ordinary_snapshot roots : fails ordinary (_ledger_snapshot roots).
Proof. walk. Qed.
Lemma ordinary_missing roots pin : fails ordinary (_missing_store_audit roots pin).
Proof. walk. Qed.
Lemma ordinary_report b1 b2 l a d : fails ordinary (_report b1 b2 l a d).
Proof. walk. Qed.
#[local] Hint Resolve ordinary_snapshot ordinary_missing ordinary_report : fails.

Lemma calm_for_snapshot roots snapshot state artifacts o : calm (_audit_for_snapshot roots snapshot state artifacts o).
Proof. unfold _audit_for_snapshot. cbv zeta. repeat first [apply calm_try|calm_step]. Qed.
Lemma calm_without state artifacts o : calm (_audit_without_database state artifacts o).
Proof. unfold _audit_without_database. repeat first [apply calm_try|calm_step|progress cbv zeta]. Qed.

Lemma calm_with_snapshot {A} st (body : list VerifiedRunRoot → Sys A) :
  (∀ roots, calm (body roots)) → calm (with_verified_snapshot st body).
Proof.
  intros Hb. unfold with_verified_snapshot. destruct (enter_snapshot st) as [[roots|e] st'] eqn:E.
  - repeat first [apply Hb|calm_step]. apply calm_lift. intros e. apply Hchecks.
  - apply calm_lift, fails_Err. by eapply calm_snapshot.
Qed.
Lemma calm_ledger state database_path artifact_root so d_o ao sidecars :
  calm (audit_ledger state database_path artifact_root so d_o ao sidecars).
Proof.
  intros s e s' H. unfold audit_ledger in H. apply bindM_inv in H as [(r & s1 & [= <- <-] & H)|(e1 & [=] & _)].
  revert H. apply (raises_bind ordinary); [apply calm_lift, Hledgers|]. intros st. apply calm_with_snapshot. intros roots.
  repeat first [apply calm_same|apply calm_for_snapshot|calm_step].
Qed.
Lemma calm_unstable state d a : calm (_unstable_report state d a).
Proof. unfold _unstable_report, _observe_path. repeat calm_step. Qed.

(** An audit raises nothing of the protocol's, and no assertion of it fails. *)
Lemma calm_audit_storage state : calm (audit_storage state).
Proof.
  unfold audit_storage, _observe_path.
  repeat first
  [ apply calm_unchanged | apply calm_without | apply calm_unstable | calm_step
  | progress cbv zeta ].
  apply raises_catch. intros s e s' H. destruct (is_database_failure e); [apply raises_ret|]. revert H.
  apply (raises_bind ordinary); [apply calm_ledger|intros ?; apply raises_ret].
Qed.
End audit.
