(* ===== verification/CoordinatorFacts.v ===== *)
(** * What a storage report is worth (src/guildmind/storage/coordinator.py)

    The gates of a report are functions of what was observed, and each open gate stands
    for observations: initialization for an absent ledger and empty surroundings, reading
    and mutation for a verified ledger all of whose referenced bytes were verified. *)

From S2P Require Import Prelude Order Loop Effects PyStr Files Float64 Json Hash Datetime Fields Usage.
From S2P Require Import Models Specs Replay SampleRun Sqlite EventStore SampleLedger Artifacts.
From S2P Require Import ArtifactFacts Integrity SampleStore IntegrityFacts AuditFacts Coordinator.

Local Open Scope Z_scope.

(** ** The gates *)

Lemma check_report_inv r r' : check_report r = Ok r' →
  r' = r ∧ _derive_report (database_present r) (ledger_snapshot r) (artifact_audit r) (diagnostic r)
           = Ok (observed r).
Proof.
  unfold check_report. intros H. inv_ok. split_andb. split; [done|].
  match goal with E : observed _ = _ |- _ => by rewrite E end.
Qed.

(** The audit is of the ledger's snapshot, ran to its end, and no reference failed. *)
Definition verified_audit (l : VerifiedLedgerSnapshot) (a : ArtifactAudit) : Prop :=
  snapshot_sha256 a = ls_snapshot_sha256 l ∧ complete a = true ∧
  Forall (λ f, owners f = []) (findings a) ∧ Forall (λ ra, bytes_verified ra = true) (reachable a).

Lemma existsb_Forall {A} (p : A → bool) l : existsb p l = false ↔ Forall (λ a, p a = false) l.
Proof.
  induction l as [|a l IH]; simpl; [by split|]. rewrite orb_false_iff, Forall_cons, IH. done.
Qed.

Lemma derive_audited_operational l a : snapshot_sha256 a = ls_snapshot_sha256 l →
  de_references_verified (derive_audited l a) = true → verified_audit l a.
Proof.
  intros Hs. unfold derive_audited. cbn [de_references_verified]. intros H. split_andb.
  match goal with H : existsb has_owners _ = _ |- _ => apply existsb_Forall in H; rename H into Ho end.
  match goal with H : existsb _ _ = _ |- _ => apply existsb_Forall in H; rename H into Hv end.
  split_and!; try done.
  - eapply Forall_impl; [exact Ho|]. intros f. unfold has_owners. intros Hf. split_andb. by apply dec_stable.
  - eapply Forall_impl; [exact Hv|]. intros ra. by rewrite negb_false_iff.
Qed.

(** The gates of every report that validates are what its observations warrant:
    reading and mutation are allowed exactly when the references are verified, and then
    there is a verified ledger and a complete audit bound to it in which no reference
    failed; quarantine needs all of that and the audit's own consent; initialization is
    allowed only for an uninitialized pair, without a database and without artifacts, and
    never together with mutation. *)
Lemma report_gates r r' : check_report r = Ok r' →
  read_allowed r' = references_verified r' ∧ mutation_allowed r' = references_verified r' ∧
  (references_verified r' = true → database_present r' = true ∧ diagnostic r' = None ∧
     ∃ l a, ledger_snapshot r' = Some l ∧ artifact_audit r' = Some a ∧ verified_audit l a ∧
       (si_quarantine_allowed r' = quarantine_allowed a)) ∧
  (si_quarantine_allowed r' = true → mutation_allowed r' = true) ∧
  (initialization_allowed r' = true ↔ si_state r' = UNINITIALIZED) ∧
  (initialization_allowed r' = true → database_present r' = false ∧ diagnostic r' = None ∧
     mutation_allowed r' = false ∧ ∀ a, artifact_audit r' = Some a → findings a = [] ∧ reachable a = []) ∧
  (clean r' = true → si_state r' = UNINITIALIZED ∨
     references_verified r' = true ∧ ∀ a, artifact_audit r' = Some a → findings a = []).
Proof.
  intros [-> H]%check_report_inv. destruct r as [st dp ap l au dg ia rv ra ma qa cl].
  cbn [si_state database_present artifact_root_present ledger_snapshot artifact_audit diagnostic
       initialization_allowed references_verified read_allowed mutation_allowed si_quarantine_allowed clean] in *.
  unfold _derive_report, observed in H. cbn in H. destruct dp; cbn [negb] in H.
  - destruct l as [l|]; [|unfold denied in H; injection H as <- <- <- <- <- <- <-; naive_solver].
    destruct dg as [d|]; [unfold denied in H; injection H as <- <- <- <- <- <- <-; naive_solver|].
    inv_ok. split_andb. rename a into au0.
    match goal with H : str_eqb _ _ = true |- _ => apply String.eqb_eq in H; rename H into Hs end.
    pose proof (derive_audited_operational l au0 Hs) as Hop.
    unfold derive_audited in Hop. cbn [de_references_verified] in Hop. cbv zeta in Hop.
    destruct (existsb has_owners (findings au0) || _); [destruct (complete au0); naive_solver|].
    destruct (complete au0); [|naive_solver]. cbn [negb andb] in *. specialize (Hop eq_refl).
    split; [done|]. split; [done|]. split; [intros _; split; [done|]; split; [done|]; by exists l, au0|].
    split; [done|]. split; [split; [done|]; by repeat case_match|]. split; [done|].
    intros Hc. right. split; [done|]. intros a [= <-]. destruct (bool_decide (findings au0 ≠ [])) eqn:E.
    + by destruct (bool_decide (ls_roots l = [])).
    + split_andb. by apply dec_stable.
  - injection H as H. unfold derive_without_database, denied in H. destruct dg as [d|].
    + destruct (startswith _ _); injection H as <- <- <- <- <- <- <-; naive_solver.
    + destruct au as [a|]; [|injection H as <- <- <- <- <- <- <-; naive_solver].
      destruct (bool_decide (findings a ≠ [])) eqn:E1; [|destruct (bool_decide (reachable a ≠ [])) eqn:E2];
        cbn [orb] in H; injection H as <- <- <- <- <- <- <-; try naive_solver.
      split_andb. apply dec_stable in E1, E2. naive_solver.
Qed.

(** A report is refused only for want of a bound audit: [_report] returns exactly when
    an audit, if there is one next to a ledger snapshot, is bound to that snapshot, and
    there is one whenever a verified database comes without a diagnostic.  In particular
    the constructor never rejects the gates that were derived for it. *)
Theorem report_accepts_its_derivation present artifacts l audit diagnostic :
  is_ok (_report present artifacts l audit diagnostic) = true ↔
  (∀ snapshot a, l = Some snapshot → audit = Some a → snapshot_sha256 a = ls_snapshot_sha256 snapshot) ∧
  (present = true → is_Some l → diagnostic = None → is_Some audit).
Proof.
  unfold _report, check_report. split.
  - intros [r H]%is_ok_spec. inv_ok. cbn [ledger_snapshot artifact_audit database_present Coordinator.diagnostic] in *.
    split.
    + intros snapshot a' -> ->. symmetry. by apply String.eqb_eq.
    + intros -> [snapshot ->] ->. match goal with H : _derive_report _ _ _ _ = Ok a |- _ => cbn in H end.
      inv_ok. subst. eauto.
  - intros [Hb Hp]. apply is_ok_spec.
    assert (∃ d, _derive_report present l audit diagnostic = Ok d) as [d Hd].
    { unfold _derive_report. destruct present; [|eauto]. cbn [negb]. destruct l as [snapshot|]; [|eauto].
      destruct diagnostic; [eauto|]. destruct (Hp eq_refl (mk_is_Some _ _ eq_refl) eq_refl) as [a ->].
      cbn [of_option mbind result_bind]. rewrite (Hb snapshot a eq_refl eq_refl). unfold str_eqb.
      rewrite String.eqb_refl. simpl. eauto. }
    rewrite Hd. cbn [mbind result_bind Coordinator.diagnostic ledger_snapshot artifact_audit database_present].
    rewrite Hd. cbn [except mbind result_bind]. unfold observed at 1. cbn.
    rewrite bool_decide_true by (by destruct d). cbn [require mbind result_bind].
    destruct l as [snapshot|], audit as [a|]; simpl; eauto.
    rewrite (Hb snapshot a eq_refl eq_refl). unfold str_eqb. rewrite String.eqb_refl. simpl. eauto.
Qed.

(** ** What the audit saw *)

Section audit.
Context {hashing : Hashing} {world : World} {ledgers : Ledgers} {env : Environment}.
Context {datetimes : PydanticDatetime} {parser : PydanticJson}.

Lemma within_mapM {A B} P (f : A → Sys B) l : (∀ a, within P (f a)) → within P (mapM_eff f l).
Proof.
  intros Hf. induction l as [|a l IH]; cbn [mapM_eff]; [apply within_ret|].
  apply within_bind; [done|]. intros b. apply within_bind; [done|]. intros. apply within_ret.
Qed.

Lemma quiet_open root base : quiet (open_existing_read_only root base).
Proof.
  unfold quiet, open_existing_read_only. solve_within; [|apply quiet_chain].
  unfold _snapshot_directory_chain. apply within_mapM. intros q. solve_within.
Qed.

Lemma quiet_same p o n : quiet (_require_same_path p o n).
Proof. unfold quiet, _require_same_path, _observe_path. solve_within. Qed.

Lemma quiet_unchanged l : quiet (_paths_are_unchanged l).
Proof.
  unfold quiet. induction l as [|[p o] l IH]; cbn [_paths_are_unchanged]; [apply within_ret|].
  unfold _observe_path. solve_within.
Qed.

Lemma quiet_try_audit roots state artifacts o : quiet (try_audit roots state artifacts o).
Proof.
  unfold quiet, try_audit, audit_now. apply within_catch.
  - solve_within; first [apply quiet_open|apply quiet_same].
  - intros e k. destruct (is_store_failure e); [|done]. intros [= <-]. apply within_ret.
Qed.

Lemma quiet_for_snapshot roots snapshot state artifacts o :
  quiet (_audit_for_snapshot roots snapshot state artifacts o).
Proof. unfold quiet, _audit_for_snapshot. solve_within; apply quiet_try_audit. Qed.

Lemma quiet_without state artifacts o : quiet (_audit_without_database state artifacts o).
Proof. unfold quiet, _audit_without_database. solve_within; apply quiet_try_audit. Qed.

Lemma quiet_with_snapshot {A} st (body : list VerifiedRunRoot → Sys A) :
  (∀ roots, quiet (body roots)) → quiet (with_verified_snapshot st body).
Proof.
  intros Hb. unfold quiet, with_verified_snapshot. destruct (enter_snapshot st) as [[roots|e] st']; [|apply within_lift].
  apply within_bind; [apply Hb|]. intros a. solve_within.
Qed.

Lemma quiet_ledger state database_path artifact_root so d_o ao sidecars :
  quiet (audit_ledger state database_path artifact_root so d_o ao sidecars).
Proof.
  unfold quiet, audit_ledger. apply within_bind.
  { apply within_none. intros s r s' [= <- <-]. split; [simpl; lia|done]. }
  intros opened. apply within_bind; [apply within_lift|]. intros st. apply quiet_with_snapshot. intros roots.
  unfold quiet. solve_within; first [apply quiet_same|apply quiet_for_snapshot].
Qed.

Lemma quiet_sidecars l : quiet (mapM_eff (λ p : path * string, o ← _observe_path p.1; mret (p, o)) l).
Proof. apply within_mapM. intros p. unfold _observe_path. solve_within. Qed.

Lemma quiet_unstable state d a : quiet (_unstable_report state d a).
Proof. unfold quiet, _unstable_report, _observe_path. solve_within. Qed.

Lemma quiet_audit_storage state : quiet (audit_storage state).
Proof.
  unfold quiet, audit_storage, _observe_path.
  repeat match goal with
  | |- within _ (catch _ _) => apply within_catch; [|intros e k; case_match; [intros [= <-]; apply within_ret|done]]
  | |- within _ (audit_ledger _ _ _ _ _ _ _) => apply quiet_ledger
  | |- within _ (_paths_are_unchanged _) => apply quiet_unchanged
  | |- within _ (_audit_without_database _ _ _) => apply quiet_without
  | |- within _ (_unstable_report _ _ _) => apply quiet_unstable
  | |- within _ (mapM_eff _ _) => apply quiet_sidecars
  | |- within _ (mbind _ _) => apply within_bind; [|intros ?]
  | |- within _ (match ?x with _ => _ end) => destruct x
  | |- within _ _ => first [apply within_ret|apply within_lift|apply within_call]
  end.
Qed.

(** ** Reports *)

Lemma report_fields present artifacts l audit dg rep : _report present artifacts l audit dg = Ok rep →
  database_present rep = present ∧ ledger_snapshot rep = l ∧ artifact_audit rep = audit ∧ diagnostic rep = dg ∧
  _derive_report present l audit dg = Ok (observed rep).
Proof.
  unfold _report. intros H. inv_ok. apply check_report_inv in H as [-> H]. cbn. by destruct a.
Qed.

Lemma Ok_inj {A} (a b : A) : Ok a = Ok b → a = b.
Proof. congruence. Qed.

(** Without a ledger snapshot no reference is verified. *)
Lemma report_unverified present artifacts audit dg rep : _report present artifacts None audit dg = Ok rep →
  references_verified rep = false.
Proof.
  intros (_ & _ & _ & _ & H)%report_fields. 
  assert (references_verified rep = de_references_verified (observed rep)) as -> by done.
  unfold _derive_report in H. destruct present; cbn [negb] in H; apply Ok_inj in H; rewrite <- H; [done|].
  unfold derive_without_database, denied. by repeat case_match.
Qed.

Lemma report_verified present artifacts l audit dg rep : _report present artifacts l audit dg = Ok rep →
  references_verified rep = true →
  ∃ snapshot a, l = Some snapshot ∧ audit = Some a ∧ ledger_snapshot rep = l ∧ artifact_audit rep = audit ∧
    verified_audit snapshot a ∧ si_quarantine_allowed rep = quarantine_allowed a.
Proof.
  intros Hr Hv. destruct l as [snapshot|]; [|apply report_unverified in Hr; congruence].
  destruct (report_fields _ _ _ _ _ _ Hr) as (_ & El & Ea & _ & H).
  change (de_references_verified (observed rep) = true) in Hv.
  assert (si_quarantine_allowed rep = de_quarantine_allowed (observed rep)) as -> by done.
  unfold _derive_report in H. destruct present; cbn [negb] in H.
  - destruct dg; [apply Ok_inj in H; by rewrite <- H in Hv|].
    apply bind_Ok in H as (a & ->%of_option_Ok & H). apply bind_Ok in H as (u & Hs%require_Ok & H).
    apply Ok_inj in H. rewrite <- H in Hv |- *. exists snapshot, a. apply String.eqb_eq in Hs.
    split_and!; try done; [by apply derive_audited_operational|].
    unfold derive_audited in *. cbn [de_references_verified de_quarantine_allowed] in *. by rewrite Hv.
  - apply Ok_inj in H. rewrite <- H in Hv. unfold derive_without_database, denied in Hv. by repeat case_match.
Qed.

Lemma report_initialization present artifacts l audit dg rep : _report present artifacts l audit dg = Ok rep →
  initialization_allowed rep = true →
  present = false ∧ dg = None ∧ artifact_audit rep = audit ∧ ∀ a, audit = Some a → findings a = [] ∧ reachable a = [].
Proof.
  intros (_ & _ & Ea & _ & H)%report_fields Hi. change (de_initialization_allowed (observed rep) = true) in Hi.
  unfold _derive_report in H. destruct present; cbn [negb] in H.
  - destruct l; [|apply Ok_inj in H; by rewrite <- H in Hi].
    destruct dg; [apply Ok_inj in H; by rewrite <- H in Hi|].
    apply bind_Ok in H as (a & _ & H). apply bind_Ok in H as (u & _ & H). apply Ok_inj in H.
    by rewrite <- H in Hi.
  - apply Ok_inj in H. rewrite <- H in Hi. unfold derive_without_database, denied in Hi.
    destruct dg; [by destruct (startswith _ _)|]. split_and!; try done. intros a ->.
    destruct (bool_decide (findings a ≠ [])) eqn:E1; [done|].
    destruct (bool_decide (reachable a ≠ [])) eqn:E2; [done|]. split_andb. by apply dec_stable in E1, E2.
Qed.

(** ** Observations *)

(** What the path was at the moment. *)
Definition observed_at (t : nat) (p : path) : _PathObservation := observation_of (lstat (FileSystem := fs_at t) p).

Definition missing_at (t : nat) (p : path) : Prop := po_kind (observed_at t p) = MISSING.

Lemma observe_Ok p s o s' : _observe_path p s = (Ok o, s') →
  o = observed_at (moment s) p ∧ moment s' = S (moment s).
Proof. unfold _observe_path. intros [-> ->]%call_Ok. done. Qed.

Lemma unchanged_spec l s s' : _paths_are_unchanged l s = (Ok true, s') →
  Forall (λ p, ∃ t, (moment s <= t < moment s')%nat ∧ observed_at t p.1 = p.2) l.
Proof.
  revert s. induction l as [|[p o] l IH]; intros s H; [constructor|]. cbn [_paths_are_unchanged] in H.
  apply bindM_Ok in H as (o' & s1 & Ho & H). apply observe_Ok in Ho as [-> Et].
  destruct (bool_decide _) eqn:E; [|by apply retM_Ok in H as [[=] _]]. split_andb.
  destruct (quiet_Ok _ _ _ _ (quiet_unchanged _) H) as [Hle _]. constructor.
  - exists (moment s). split; [lia|done].
  - eapply Forall_impl; [exact (IH _ H)|]. intros q (t & ? & ?). exists t. split; [lia|done].
Qed.

Lemma sidecars_spec l s r s' :
  mapM_eff (λ p : path * string, o ← _observe_path p.1; mret (p, o)) l s = (Ok r, s') →
  (moment s <= moment s')%nat ∧ fst <$> r = l ∧
  Forall (λ p, ∃ t, (moment s <= t < moment s')%nat ∧ observed_at t p.1.1 = p.2) r.
Proof.
  revert s r. induction l as [|p l IH]; intros s r H; cbn [mapM_eff] in H; inv_eff_step.
  - subst. split_and!; [lia|done|constructor].
  - inv_sys. destruct p as [p name].
    match goal with H : _observe_path _ _ = _ |- _ => apply observe_Ok in H as [-> Et] end.
    match goal with H : mapM_eff _ _ _ = _ |- _ => destruct (IH _ _ H) as (Hle & E & Hall) end.
    split; [lia|]. split; [by rewrite fmap_cons, E|]. constructor.
    + exists (moment s). split; [lia|done].
    + eapply Forall_impl; [exact Hall|]. intros q (t & ? & ?). exists t. split; [lia|done].
Qed.

(** ** The audit of a missing artifact store *)

Lemma add_missing_keys run_id g p g' : add_missing run_id g p = Ok g' →
  sha256 p.2 ∈ dom g' ∧ dom g ⊆ dom g'.
Proof.
  destruct p as [role r]. unfold add_missing. intros H. apply bind_Ok in H as (o & _ & H).
  destruct (default _ _) as [[size media] os]. injection H as <-. simpl. set_solver.
Qed.

Lemma missing_of_root_keys g rt g' : missing_of_root g rt = Ok g' →
  dom g ⊆ dom g' ∧ ∀ role r, m_artifacts (vr_manifest rt) !! role = Some r → sha256 r ∈ dom g'.
Proof.
  unfold missing_of_root.
  assert (∀ l g g', foldM (add_missing (m_run_id (vr_manifest rt))) g l = Ok g' →
    dom g ⊆ dom g' ∧ ∀ p, p ∈ l → sha256 p.2 ∈ dom g') as Hfold.
  { induction l as [|p l IH]; intros g0 g1 H; cbn [foldM] in H.
    - injection H as <-. split; [done|]. intros p Hp. by apply not_elem_of_nil in Hp.
    - apply bind_Ok in H as (g2 & [Hp Hsub]%add_missing_keys & H). destruct (IH _ _ H) as [Hsub' Hall].
      split; [set_solver|]. intros q [->|Hq]%elem_of_cons; [set_solver|auto]. }
  intros [Hsub Hall]%Hfold. split; [done|]. intros role r Hr.
  apply (Hall (role, r)). by rewrite elem_of_sort_by, elem_of_map_to_list.
Qed.

(** Such an audit verifies nothing, so it is only clean when nothing was referenced. *)
Lemma missing_store_unverified roots pin a : _missing_store_audit roots pin = Ok a →
  Forall (λ ra, bytes_verified ra = true) (reachable a) →
  ∀ rt, rt ∈ roots → m_artifacts (vr_manifest rt) = ∅.
Proof.
  unfold _missing_store_audit. intros H Hv rt Hrt. inv_ok.
  match goal with H : foldM _ _ _ = Ok ?g |- _ => rename H into Hg; rename g into G end.
  match goal with H : mapR missing_reachable _ = _ |- _ => rename H into Hr end.
  apply check_audit_id in H as ->. cbn [reachable] in Hv. apply map_empty. intros role.
  destruct (m_artifacts (vr_manifest rt) !! role) as [r|] eqn:Er; [|done]. exfalso.
  assert (∀ l g g', foldM missing_of_root g l = Ok g' → dom g ⊆ dom g' ∧
    (rt ∈ l → sha256 r ∈ dom g')) as Hfold.
  { induction l as [|x l IH]; intros g0 g1 H; cbn [foldM] in H.
    - injection H as <-. split; [done|]. intros Hp. by apply not_elem_of_nil in Hp.
    - apply bind_Ok in H as (g2 & [Hsub Hx]%missing_of_root_keys & H). destruct (IH _ _ H) as [Hsub' Hall].
      split; [set_solver|]. intros [->|Hq]%elem_of_cons; [|auto]. specialize (Hx _ _ Er). set_solver. }
  destruct (Hfold _ _ _ Hg) as [_ Hin]. specialize (Hin Hrt). apply elem_of_dom in Hin as [v Hin].
  apply elem_of_map_to_list in Hin. rewrite <- (elem_of_sort_by fst) in Hin.
  destruct (mapR_elem _ _ _ _ Hr Hin) as (ra & Hra & Hra'). rewrite Forall_forall in Hv. specialize (Hv _ Hra').
  destruct v as [[size media] os]. unfold missing_reachable in Hra. apply check_reachable_id in Hra.
  by rewrite Hra in Hv.
Qed.

Lemma incomplete_audit_incomplete pin detail a : _incomplete_audit pin detail = Ok a → complete a = false.
Proof. unfold _incomplete_audit. intros H. inv_ok. by apply check_audit_id in H as ->. Qed.

(** ** The audited ledger *)

Lemma try_audit_spec roots state artifacts o s a s' : try_audit roots state artifacts o s = (Ok (Some a), s') →
  ∃ t store, (moment s <= t < moment s')%nat ∧ audit_artifact_store (fs := fs_at t) roots store = Ok a.
Proof.
  unfold try_audit. intros [H|(e & s1 & k & _ & Hk & H)]%catch_Ok.
  - inv_sys. unfold audit_now in *. inv_sys. subst.
    match goal with H : open_existing_read_only _ _ _ = _ |- _ =>
      apply (quiet_Ok _ _ _ _ (quiet_open _ _)) in H as [T1 _] end.
    match goal with H : _require_same_path _ _ _ _ = _ |- _ =>
      apply (quiet_Ok _ _ _ _ (quiet_same _ _ _)) in H as [T2 _] end.
    simplify_eq. cbn [moment] in *. eexists _, _. split; [|by symmetry]. lia.
  - destruct (is_store_failure e); [|done]. injection Hk as <-. by apply retM_Ok in H as [[=] _].
Qed.

(** A complete, verified audit is the audit of a store, or of nothing at all. *)
Lemma for_snapshot_spec roots snapshot state artifacts o s a s' :
  _audit_for_snapshot roots snapshot state artifacts o s = (Ok a, s') → verified_audit snapshot a →
  (∃ t store, (moment s <= t < moment s')%nat ∧ audit_artifact_store (fs := fs_at t) roots store = Ok a) ∨
  (po_kind o = MISSING ∧ ∀ rt, rt ∈ roots → m_artifacts (vr_manifest rt) = ∅).
Proof.
  unfold _audit_for_snapshot. intros H (_ & Hc & _ & Hv).
  destruct (is_path_kind DIRECTORY o).
  - left. inv_sys. destruct a0 as [audit|].
    + inv_sys. by eapply try_audit_spec.
    + inv_sys. by apply incomplete_audit_incomplete in H; congruence.
  - destruct (is_path_kind MISSING o) eqn:Em; [|inv_sys; apply incomplete_audit_incomplete in H; congruence].
    right. unfold is_path_kind in Em. split_andb. split; [done|].
    destruct (existsb _ roots) eqn:Ee; inv_sys; [by eapply missing_store_unverified|].
    intros rt Hrt. apply existsb_Forall in Ee. rewrite Forall_forall in Ee. specialize (Ee _ Hrt). split_andb.
    by apply dec_stable.
Qed.

Lemma same_path_spec p o name s u s' : _require_same_path p o name s = (Ok u, s') →
  po_kind (observed_at (moment s) p) = po_kind o ∧ po_device (observed_at (moment s) p) = po_device o ∧
  po_inode (observed_at (moment s) p) = po_inode o ∧ moment s' = S (moment s).
Proof.
  unfold _require_same_path. intros H. inv_sys.
  match goal with H : _observe_path _ _ = _ |- _ => apply observe_Ok in H as [-> Et] end. by split_andb.
Qed.

(** The file that was opened at the moment is still there after the audit. *)
Definition same_file (p : path) (o : _PathObservation) (t : nat) : Prop :=
  po_kind (observed_at t p) = po_kind o ∧ po_device (observed_at t p) = po_device o ∧
  po_inode (observed_at t p) = po_inode o.

Lemma audit_ledger_spec state database_path artifact_root so d_o ao sidecars s snapshot a s' :
  audit_ledger state database_path artifact_root so d_o ao sidecars s = (Ok (snapshot, a), s') →
  verified_audit snapshot a →
  ∃ t0 t1 t2 st roots, (moment s <= t0 < t1)%nat ∧ (t1 < t2 < moment s')%nat ∧
    open_ledger t0 database_path (path_parent state) = Ok st ∧ (enter_snapshot st).1 = Ok roots ∧
    _ledger_snapshot roots = Ok snapshot ∧
    same_file database_path d_o t1 ∧ same_file database_path d_o t2 ∧
    ((∃ t store, (t1 < t < t2)%nat ∧ audit_artifact_store (fs := fs_at t) roots store = Ok a) ∨
     (po_kind ao = MISSING ∧ ∀ rt, rt ∈ roots → m_artifacts (vr_manifest rt) = ∅)).
Proof.
  unfold audit_ledger, with_verified_snapshot. intros H Hv.
  apply bindM_Ok in H as (opened & s1 & [= <- <-] & H). apply bindM_Ok in H as (st & s2 & [Hst ->]%lift_Ok & H).
  destruct (enter_snapshot st) as [[roots|e] st'] eqn:Est; [|by inv_sys].
  apply bindM_Ok in H as (p & s3 & H & H2). inv_sys. injection H as <- <-.
  repeat match goal with
  | H : _require_same_path _ _ _ _ = _ |- _ => apply same_path_spec in H as (? & ? & ? & ?)
  | H : forM _ _ _ = _ |- _ =>
      apply (quiet_Ok _ _ _ _ (within_forM _ _ _ (λ p, quiet_same p.1.1 p.2 p.1.2))) in H as [? _]
  end.
  match goal with H : _audit_for_snapshot _ _ _ _ _ ?s1 = (_, ?s2) |- _ =>
    pose proof (quiet_Ok _ _ _ _ (quiet_for_snapshot _ _ _ _ _) H) as [? _];
    apply for_snapshot_spec in H; [|done] end.
  cbn [moment] in *. exists (moment s), (moment s1), (moment s6), st, roots.
  split; [lia|]. split; [lia|]. split; [done|]. split; [by rewrite Est|]. split; [done|].
  split; [done|]. split; [done|]. destruct H5 as [(t & store & Ht & Ha)|?]; [|by right].
  left. exists t, store. split; [lia|done].
Qed.

Lemma ledger_snapshot_pin roots snapshot : _ledger_snapshot roots = Ok snapshot →
  verified_run_roots_sha256 roots = Ok (ls_snapshot_sha256 snapshot).
Proof. unfold _ledger_snapshot, check_ledger_snapshot. intros H. by inv_ok. Qed.

(** Opens the branches of [audit_storage]. *)
Ltac open_branches :=
  repeat match goal with
  | H : _unstable_report _ _ _ _ = _ |- _ => unfold _unstable_report in H; inv_sys
  | H : (if ?b then _ else _) _ = (Ok _, _) |- _ => destruct b eqn:?; inv_sys
  end.

(** Whatever an audit reports was derived by [_report]. *)
Lemma audit_reports state s rep s' : audit_storage state s = (Ok rep, s') →
  ∃ present artifacts l audit dg, _report present artifacts l audit dg = Ok rep.
Proof.
  intros H. unfold audit_storage in H. inv_sys. open_branches.
  all: try by match goal with H : _report _ _ _ _ _ = Ok _ |- _ => eauto 6 end.
  match goal with H : match ?o with Some _ => _ | None => _ end _ = (Ok _, _) |- _ =>
    rename H into Hrep; destruct o as [[snapshot a']|]; apply lift_Ok in Hrep as [Hrep ?] end; eauto 6.
Qed.

(** A gate that is open in a report says that the references were verified. *)
Lemma open_gate_verified state s rep s' : audit_storage state s = (Ok rep, s') →
  read_allowed rep = true ∨ mutation_allowed rep = true ∨ si_quarantine_allowed rep = true → references_verified rep = true.
Proof.
  intros (present & artifacts & l & audit & dg & H)%audit_reports Hg. unfold _report in H.
  apply bind_Ok in H as (d & _ & H). apply report_gates in H as (Hr & Hm & _ & Hq & _).
  destruct Hg as [Hg|[Hg|Hg%Hq]]; congruence.
Qed.

(** C23. A report that allows reading, mutation or quarantine stands for one verified ledger
    and its evidence, and says that the references were verified.  During the audit, in
    this order: the database was opened; it was the file observed before; the artifact
    store was audited against exactly the roots that the ledger's verification yielded,
    whose commitment is the report's snapshot; and the database was still that file.
    Without a store, no root referenced anything.  When the report allows quarantine, the
    audited graph was closed.  Nothing was changed. *)
Theorem open_gates_stand_for_evidence state s rep s' :
  audit_storage state s = (Ok rep, s') →
  read_allowed rep = true ∨ mutation_allowed rep = true ∨ si_quarantine_allowed rep = true →
  let database_path := state ++ ["runs.db"] in
  references_verified rep = true ∧ effects s' = effects s ∧
  ∃ t0 t1 t2 st roots snapshot a, (moment s <= t0 < t1)%nat ∧ (t1 < t2 < moment s')%nat ∧
    open_ledger t0 database_path (path_parent state) = Ok st ∧ (enter_snapshot st).1 = Ok roots ∧
    po_kind (observed_at t1 database_path) = REGULAR ∧
    same_file database_path (observed_at t1 database_path) t2 ∧
    ledger_snapshot rep = Some snapshot ∧ _ledger_snapshot roots = Ok snapshot ∧
    verified_run_roots_sha256 roots = Ok (ls_snapshot_sha256 snapshot) ∧
    artifact_audit rep = Some a ∧ verified_audit snapshot a ∧
    ((∃ t store, (t1 < t < t2)%nat ∧ audit_artifact_store (fs := fs_at t) roots store = Ok a ∧
        (si_quarantine_allowed rep = true → graph_closed (fs := fs_at t) roots store a)) ∨
     ∀ rt, rt ∈ roots → m_artifacts (vr_manifest rt) = ∅).
Proof.
  intros H Hgate database_path. pose proof (open_gate_verified _ _ _ _ H Hgate) as Hv. split; [done|]. clear Hgate.
  split; [by apply (quiet_Ok _ _ _ _ (quiet_audit_storage state)) in H as [_ ?]|].
  unfold audit_storage in H. inv_sys. open_branches.
  all: try by match goal with H : _report _ _ None _ _ = Ok _ |- _ =>
    apply report_unverified in H; congruence end.
  match goal with H : match ?o with Some _ => _ | None => _ end _ = (Ok _, _) |- _ =>
    rename H into Hrep; destruct o as [[snapshot a']|]; apply lift_Ok in Hrep as [Hrep ?] end.
  2:{ apply report_unverified in Hrep. congruence. }
  subst s'. unfold is_path_kind in *. split_andb.
  destruct (report_verified _ _ _ _ _ _ Hrep Hv) as (sn & au & [= <-] & [= <-] & El & Ea & Hva & Hq).
  match goal with H : catch _ _ _ = _ |- _ =>
    apply catch_Ok in H as [Hl|(e & s5 & k & _ & Hk & Hk')] end.
  2:{ destruct (is_database_failure e); [|done]. injection Hk as <-. by apply retM_Ok in Hk' as [[=] _]. }
  inv_sys. simplify_eq.
  match goal with H : audit_ledger _ _ _ _ _ _ _ _ = _ |- _ =>
    destruct (audit_ledger_spec _ _ _ _ _ _ _ _ _ _ _ H Hva)
      as (t0 & t1 & t2 & st & roots & Ht & Ht' & Hst & Hroots & Hsn & S1 & S2 & Hcase) end.
  match goal with H : mapM_eff _ _ _ = _ |- _ => apply sidecars_spec in H as [? _] end.
  repeat match goal with H : _observe_path _ _ = _ |- _ => apply observe_Ok in H as [? ?] end.
  destruct S1 as (K1 & D1 & I1). unfold same_file in S2. rewrite <- K1, <- D1, <- I1 in S2.
  exists t0, t1, t2, st, roots, snapshot, a'. split; [lia|]. split; [lia|]. split_and!; try done.
  - unfold database_path. rewrite K1. done.
  - by apply ledger_snapshot_pin.
  - destruct Hcase as [(t & store & Htt & Ha)|[_ Hn]]; [left|by right].
    exists t, store. split; [done|]. split; [done|]. intros Hqa. apply allowed_graph_closed; [done|congruence].
Qed.

Lemma missing_observed t p o : observed_at t p = o → is_path_kind MISSING o = true → missing_at t p.
Proof. intros <- H. unfold is_path_kind in H. unfold missing_at. by split_andb. Qed.

Lemma sidecar_diagnostic_None l : sidecar_diagnostic l = None → Forall (λ p, is_path_kind MISSING p.2 = true) l.
Proof.
  induction l as [|[[p name] o] l IH]; cbn [sidecar_diagnostic]; [constructor|].
  destruct (is_path_kind MISSING o) eqn:E; [|done]. intros H. constructor; auto.
Qed.

Lemma incomplete_audit_found pin detail a : _incomplete_audit pin detail = Ok a → findings a ≠ [].
Proof. unfold _incomplete_audit. intros H. inv_ok. by apply check_audit_id in H as ->. Qed.

Lemma audited_without_database state artifacts o s audit s' :
  _audit_without_database state artifacts o s = (Ok audit, s') → is_path_kind MISSING o = false →
  (∀ a, audit = Some a → findings a = [] ∧ reachable a = []) →
  ∃ t store a, (moment s <= t < moment s')%nat ∧ audit_artifact_store (fs := fs_at t) [] store = Ok a ∧
    audit = Some a.
Proof.
  unfold _audit_without_database. intros H Hm Hempty. rewrite Hm in H. inv_sys.
  destruct (is_path_kind DIRECTORY o); cbn [negb] in H.
  - inv_sys. destruct a0 as [au|]; inv_sys.
    + match goal with H : try_audit _ _ _ _ _ = _ |- _ => apply try_audit_spec in H as (t & store & ? & ?) end.
      exists t, store, au. done.
    + match goal with H : _incomplete_audit _ _ = Ok ?a |- _ =>
        apply incomplete_audit_found in H; by destruct (Hempty a eq_refl) end.
  - inv_sys. match goal with H : _incomplete_audit _ _ = Ok ?a |- _ =>
      apply incomplete_audit_found in H; by destruct (Hempty a eq_refl) end.
Qed.

(** The path was missing when it was looked at, and again after everything else. *)
Definition stayed_missing (from to : nat) (p : path) : Prop :=
  ∃ t t', (from <= t < t')%nat ∧ (t' < to)%nat ∧ missing_at t p ∧ missing_at t' p.

(** C24. A report that allows initialization stands for an absence: the state directory was
    missing and stayed missing; or the database and all three of its sidecar files were
    missing and stayed missing, and so was the artifact root, unless it was audited and
    found to hold nothing at all.  Evidence is never initialized over. *)
Theorem initialization_stands_for_absence state s rep s' :
  audit_storage state s = (Ok rep, s') → initialization_allowed rep = true →
  effects s' = effects s ∧
  (stayed_missing (moment s) (moment s') state ∨
   (∀ name, name ∈ ["runs.db"; "runs.db-wal"; "runs.db-shm"; "runs.db-journal"] →
      stayed_missing (moment s) (moment s') (state ++ [name])) ∧
   (stayed_missing (moment s) (moment s') (state ++ ["artifacts"]) ∨
    ∃ t store a, (moment s <= t < moment s')%nat ∧ audit_artifact_store (fs := fs_at t) [] store = Ok a ∧
      findings a = [] ∧ reachable a = [])).
Proof.
  intros H Hi. split; [by apply (quiet_Ok _ _ _ _ (quiet_audit_storage state)) in H as [_ ?]|].
  unfold audit_storage in H. inv_sys. open_branches.
  all: try match goal with H : _report _ _ _ _ _ = Ok _ |- _ =>
    apply report_initialization in H as (Hp & Hd & Hea & Hempty); [|exact Hi] end.
  all: try discriminate.
  - left. destruct a0; [|done]. apply observe_Ok in H0 as [-> Et].
    match goal with H : _paths_are_unchanged _ _ = _ |- _ =>
      apply unchanged_spec in H; apply Forall_cons in H as [(t & Ht & Ho) _] end. cbn [fst snd] in Ho.
    exists (moment s), t. split; [lia|]. split; [lia|]. split; [by apply (missing_observed _ _ _ eq_refl)|].
    by apply (missing_observed _ _ _ Ho).
  - right.
    destruct (sidecar_diagnostic _) eqn:Es; [done|].
    match goal with H : mapM_eff _ _ _ = _ |- _ => apply sidecars_spec in H as (Ht3 & Ef & Hfirst) end.
    match goal with H : _audit_without_database _ _ _ _ = _ |- _ =>
      pose proof (quiet_Ok _ _ _ _ (quiet_without _ _ _) H) as [Ht4 _]; rename H into Hw end.
    match goal with H : negb ?b = false, H' : _paths_are_unchanged _ _ = (Ok ?b, _) |- _ =>
      apply negb_false_iff in H; rewrite H in H' end.
    match goal with H : _paths_are_unchanged _ _ = _ |- _ => apply unchanged_spec in H; rename H into Hun end.
    repeat match goal with H : _observe_path _ _ = _ |- _ => apply observe_Ok in H as [? ?] end. subst.
    apply Forall_cons in Hun as [_ Hun]. apply Forall_cons in Hun as [Hdb Hun].
    apply Forall_cons in Hun as [Har Hun]. cbn [fst snd] in *. split.
    + assert (∀ p name, (p, name) ∈ sidecar_paths state → stayed_missing (moment s) (moment s5) p) as Hside.
      { intros p name Hin. rewrite <- Ef in Hin. apply list_elem_of_fmap in Hin as ([[p' name'] o] & [= -> ->] & Hin).
        rewrite Forall_forall in Hfirst. destruct (Hfirst _ Hin) as (t & Ht & Ho).
        rewrite Forall_forall in Hun.
        destruct (Hun (p', o)) as (t' & Ht' & Ho').
        { apply list_elem_of_fmap. by exists (p', name', o). }
        apply sidecar_diagnostic_None in Es. rewrite Forall_forall in Es. specialize (Es _ Hin).
        cbn [fst snd] in *. exists t, t'. split; [lia|]. split; [lia|].
        split; [by apply (missing_observed _ _ _ Ho)|by apply (missing_observed _ _ _ Ho')]. }
      intros name Hname. rewrite !elem_of_cons in Hname. destruct Hname as [->|[->|[->|[->|[]%not_elem_of_nil]]]].
      * destruct Hdb as (t & Ht & Ho). exists (moment s0), t. split; [lia|]. split; [lia|].
        split; [by apply (missing_observed _ _ _ eq_refl)|by apply (missing_observed _ _ _ Ho)].
      * eapply Hside. unfold sidecar_paths. rewrite !elem_of_cons. eauto.
      * eapply Hside. unfold sidecar_paths. rewrite !elem_of_cons. eauto.
      * eapply Hside. unfold sidecar_paths. rewrite !elem_of_cons. eauto.
    + destruct (is_path_kind MISSING (observed_at (moment s1) (state ++ ["artifacts"]))) eqn:Em.
      * left. destruct Har as (t & Ht & Ho). exists (moment s1), t. split; [lia|]. split; [lia|].
        split; [by apply (missing_observed _ _ _ eq_refl)|by apply (missing_observed _ _ _ Ho)].
      * right. destruct (audited_without_database _ _ _ _ _ _ Hw Em Hempty) as (t & st & a & Ht & Ha & E).
        destruct Har as (? & ? & _). exists t, st, a. split; [lia|]. split; [done|]. by apply Hempty.
  - match goal with H : match ?o with Some _ => _ | None => _ end _ = (Ok _, _) |- _ =>
      destruct o as [[snapshot a']|]; apply lift_Ok in H as [Hrep _] end;
      by apply report_initialization in Hrep as (? & _).
Qed.
End audit.

(** ** Samples *)

(** A state directory with a database and nothing else, or nothing at all. *)
Definition ledger_tree (initialized : bool) : FileSystem :=
  {| lstat := λ p,
       if negb initialized then OSError (Some ENOENT)
       else if bool_decide (p = ["state"]) then Done (sample_metadata Directory 0)
       else if bool_decide (p = ["state"; "runs.db"]) then Done (sample_metadata Regular 4096)
       else OSError (Some ENOENT);
     scandir := λ _, {| entries := []; scan_error := None |};
     open_file := λ _, OSError (Some ENOENT);
     resolve := λ _ p, Done p |}.

Definition ledger_world (initialized : bool) : World := frozen (ledger_tree initialized).

(** The database holds one created run. *)
Definition sample_ledgers : Ledgers := {| open_ledger := λ _ _ _, Ok created |}.

Definition sample_audit_of (initialized : bool) : result StorageIntegrityReport * sys :=
  audit_storage (world := ledger_world initialized) (ledgers := sample_ledgers) ["state"] start.

Lemma report_gates_witness : ∃ r, _report false false None None None = Ok r ∧
  initialization_allowed r = true ∧ mutation_allowed r = false.
Proof.
  destruct (_report false false None None None) as [r|e] eqn:E; [|vm_compute in E; discriminate E].
  exists r. split; [reflexivity|].
  assert (check_report r = Ok r) as Hr by (vm_compute in E; injection E as <-; vm_compute; reflexivity).
  assert (initialization_allowed r = true) as Hi by (vm_compute in E; injection E as <-; reflexivity).
  split; [exact Hi|].
  exact (proj1 (proj2 (proj2 (proj1 (proj2 (proj2 (proj2 (proj2 (proj2 (report_gates r r Hr)))))) Hi)))).
Defined.

Lemma open_gates_stand_for_evidence_witness : ∃ rep s', sample_audit_of true = (Ok rep, s') ∧
  mutation_allowed rep = true ∧ references_verified rep = true ∧
  ∃ roots, (enter_snapshot created).1 = Ok roots ∧
    ∃ snapshot, ledger_snapshot rep = Some snapshot ∧
      verified_run_roots_sha256 roots = Ok (ls_snapshot_sha256 snapshot).
Proof.
  destruct (sample_audit_of true) as [[rep|e] s'] eqn:E.
  - exists rep, s'. split; [reflexivity|]. assert (mutation_allowed rep = true) as Hv.
    { apply (f_equal returned) in E. vm_compute in E. injection E as <-. reflexivity. }
    split; [exact Hv|].
    destruct (open_gates_stand_for_evidence (world := ledger_world true) (ledgers := sample_ledgers)
        ["state"] start rep s' E (or_intror (or_introl Hv)))
      as (Hr & _ & t0 & t1 & t2 & st & roots & snapshot & a & _ & _ & Hst & Hroots & _ & _ & Hl & _ & Hpin & _).
    split; [exact Hr|]. injection Hst as <-. exists roots. split; [exact Hroots|]. exists snapshot. split; [exact Hl|exact Hpin].
  - exfalso. apply (f_equal returned) in E. vm_compute in E. discriminate E.
Defined.

Lemma initialization_stands_for_absence_witness : ∃ rep s', sample_audit_of false = (Ok rep, s') ∧
  initialization_allowed rep = true ∧ effects s' = [].
Proof.
  destruct (sample_audit_of false) as [[rep|e] s'] eqn:E.
  - exists rep, s'. split; [reflexivity|]. assert (initialization_allowed rep = true) as Hi.
    { apply (f_equal returned) in E. vm_compute in E. injection E as <-. reflexivity. }
    split; [exact Hi|].
    exact (proj1 (initialization_stands_for_absence (world := ledger_world false) (ledgers := sample_ledgers)
                    ["state"] start rep s' E Hi)).
  - exfalso. apply (f_equal returned) in E. vm_compute in E. discriminate E.
Defined.
