(* ===== verification/Maintenance.v ===== *)
(** * Maintenance leases (src/guildmind/storage/maintenance.py)

    Publishers hold a shared lease on the state directory, maintenance an exclusive one,
    by [flock] on one lock file; [quarantine/v1/ACTIVE] fences off the publishers.  The
    functions on descriptors are programs of [Sys]; a [process] adds the module's
    registry and the objects that leases share, which nested shared leases alias. *)

From coqutil Require Import Datatypes.RecordSettersUsingExistingGetters.
From S2P Require Import Prelude Loop Effects PyStr Files Descriptors.

Local Open Scope Z_scope.

Definition MAINTENANCE_LOCK_FILENAME : string := ".guildmind-maintenance.lock".
(** The directories of [QUARANTINE_ACTIVE_RELATIVE_PATH] and its last component. *)
Definition fence_directories : list string := ["quarantine"; "v1"].
Definition fence_marker : string := "ACTIVE".
Definition _MAX_FENCE_DIRECTORY_ENTRIES : Z := 65536.

Inductive MaintenanceLeaseMode := SHARED | EXCLUSIVE.
#[export] Instance lease_mode_eq_dec : EqDecision MaintenanceLeaseMode.
Proof. solve_decision. Defined.

Inductive MaintenanceBusyReason := LEASE_HELD | QUARANTINE_ACTIVE.
Definition busy_reason_value (r : MaintenanceBusyReason) : string :=
  match r with LEASE_HELD => "lease_held" | QUARANTINE_ACTIVE => "quarantine_active" end.

Inductive MaintenanceIntegrityReason :=
  | STATE_INVALID | STATE_CHANGED | LOCK_INVALID | LOCK_CHANGED | QUARANTINE_FENCE_INVALID
  | LOCK_OPERATION_FAILED | PROCESS_CHANGED | LEASE_MODE_REQUIRED | LEASE_DESCRIPTOR_BORROWED
  | LEASE_ALREADY_ENTERED | LEASE_RELEASED.
Definition integrity_reason_value (r : MaintenanceIntegrityReason) : string :=
  match r with
  | STATE_INVALID => "state_invalid" | STATE_CHANGED => "state_changed" | LOCK_INVALID => "lock_invalid"
  | LOCK_CHANGED => "lock_changed" | QUARANTINE_FENCE_INVALID => "quarantine_fence_invalid"
  | LOCK_OPERATION_FAILED => "lock_operation_failed" | PROCESS_CHANGED => "process_changed"
  | LEASE_MODE_REQUIRED => "lease_mode_required" | LEASE_DESCRIPTOR_BORROWED => "lease_descriptor_borrowed"
  | LEASE_ALREADY_ENTERED => "lease_already_entered" | LEASE_RELEASED => "lease_released"
  end.

Definition busy (r : MaintenanceBusyReason) : exn := MaintenanceBusyError (busy_reason_value r).
Definition broken (r : MaintenanceIntegrityReason) (detail : string) : exn :=
  MaintenanceIntegrityError (integrity_reason_value r) detail.

Record _FileIdentity := {
  fi_file_type : file_kind;
  fi_device : Z;
  fi_inode : Z;
  fi_link_count : Z;
}.
#[export] Instance file_identity_eq_dec : EqDecision _FileIdentity.
Proof. solve_decision. Defined.

(** [_identity(metadata)] *)
Definition _identity (m : stat_result) : _FileIdentity :=
  {| fi_file_type := st_kind m; fi_device := st_dev m; fi_inode := st_ino m; fi_link_count := st_nlink m |}.

(** [_same_object(first, second)] *)
Definition _same_object (a b : _FileIdentity) : bool :=
  bool_decide (fi_file_type a = fi_file_type b) && (fi_device a =? fi_device b) && (fi_inode a =? fi_inode b).

Record _HeldLease := {
  owner_pid : Z;
  state_directory : path;
  state_descriptor : Z;
  state_identity : _FileIdentity;
  lock_descriptor : Z;
  lock_identity : _FileIdentity;
  mode : MaintenanceLeaseMode;
  references : Z;
}.

(** [except OSError as error: raise _integrity_error(...) from error], as a function on
    exceptions and on a call's outcome. *)
Definition _integrity_error (r : MaintenanceIntegrityReason) (detail : string) (e : exn) : exn :=
  match e with OSException _ => broken r detail | _ => e end.
Definition trusted {A} (r : MaintenanceIntegrityReason) (detail : string) (o : os_result A) : Sys A :=
  match o with Done a => mret a | OSError _ => lift (Err (broken r detail)) end.
(** [if not b: raise MaintenanceIntegrityError(...)] *)
Definition intact (b : bool) (r : MaintenanceIntegrityReason) (detail : string) : Sys unit :=
  lift (require b (broken r detail)).

(** [_require_regular_single_link(identity, state, label, reason=...)] *)
Definition _require_regular_single_link (i : _FileIdentity) (r : MaintenanceIntegrityReason) : Sys unit :=
  intact (bool_decide (fi_file_type i = Regular) && (fi_link_count i =? 1)) r
    "must be a single-link regular file".

(** The search of [_require_exact_fence_entry_name]: [None] when the limit is passed. *)
Fixpoint find_entry (name : string) (position : Z) (l : list DirEntry) : option bool :=
  match l with
  | [] => Some false
  | e :: l =>
      if _MAX_FENCE_DIRECTORY_ENTRIES <? position then None
      else if match de_name e with Name s => str_eqb s name | RawName _ => false end then Some true
      else find_entry name (position + 1) l
  end.

Section kernel.
Context {world : World} {kernel : Kernel}.

(** [_require_state_path_identity(state, expected)] *)
Definition _require_state_path_identity (state : path) (expected : _FileIdentity) : Sys unit :=
  o ← call (λ _, lstat state);
  m ← trusted STATE_CHANGED "state directory path changed" o;
  intact (_same_object (_identity m) expected) STATE_CHANGED
    "state directory path no longer names the opened directory".

(** [_require_lock_path_identity(state, state_descriptor, expected)] *)
Definition _require_lock_path_identity (state_fd : Z) (expected : _FileIdentity) : Sys unit :=
  o ← os_stat state_fd MAINTENANCE_LOCK_FILENAME;
  m ← trusted LOCK_CHANGED "maintenance lock path changed" o;
  intact (bool_decide (_identity m = expected)) LOCK_CHANGED
    "maintenance lock path no longer names the locked inode".

(** [_require_exact_fence_entry_name(directory_descriptor, expected_name, state, label=...)] *)
Definition _require_exact_fence_entry_name (directory : Z) (name : string) : Sys unit :=
  l ← os_scandir directory;
  match find_entry name 1 (entries l), scan_error l with
  | None, _ => lift (Err (broken QUARANTINE_FENCE_INVALID "parent exceeds the inspection limit"))
  | Some true, _ => mret tt
  | Some false, Some _ =>
      lift (Err (broken QUARANTINE_FENCE_INVALID "name could not be inspected descriptor-relatively"))
  | Some false, None =>
      lift (Err (broken QUARANTINE_FENCE_INVALID "does not use exact canonical spelling"))
  end.

(** [os.fstat] and [os.stat] outside a [try] *)
Definition fstat_identity (fd : Z) : Sys _FileIdentity := o ← os_fstat fd; m ← raise_os o; mret (_identity m).
Definition stat_identity (directory : Z) (name : string) : Sys _FileIdentity :=
  o ← os_stat directory name; m ← raise_os o; mret (_identity m).

(** [_open_state_directory(configured_state)]; the path is absolute. *)
Definition _open_state_directory (configured : path) : Sys (path * Z * _FileIdentity) :=
  _ ← intact (bool_decide (configured ≠ [])) STATE_INVALID "state directory cannot be a filesystem root";
  o ← call (λ _, resolve true (path_parent configured));
  parent ← trusted STATE_INVALID "state directory parent is unavailable" o;
  let state := parent ++ [path_name configured] in
  o ← call (λ _, lstat state);
  metadata ← trusted STATE_INVALID "state directory is unavailable" o;
  let path_identity := _identity metadata in
  _ ← intact (is_kind Directory metadata) STATE_INVALID "state directory is not a real directory";
  o ← os_open (Rooted state) DirectoryFlags;
  fd ← trusted STATE_INVALID "state directory could not be opened without following links" o;
  _ ← close_on_error fd (
    o ← os_fstat fd;
    m ← trusted STATE_CHANGED "open state directory could not be inspected" o;
    _ ← intact (_same_object (_identity m) path_identity) STATE_CHANGED
          "state directory changed while it was opened";
    _require_state_path_identity state path_identity);
  mret (state, fd, path_identity).

(** One round of the loop of [_open_or_create_lock]: the descriptor of the lock file with
    the identity its path had, if it existed; [None] when someone else created it between
    the two calls, and the round is repeated. *)
Definition lock_round (state_fd : Z) : Sys (option (Z * option _FileIdentity)) :=
  o ← os_stat state_fd MAINTENANCE_LOCK_FILENAME;
  match o with
  | OSError n =>
      if not_found n then
        o ← os_create state_fd MAINTENANCE_LOCK_FILENAME;
        match o with
        | Done fd => mret (Some (fd, None))
        | OSError n =>
            if file_exists n then mret None
            else lift (Err (broken LOCK_OPERATION_FAILED "maintenance lock file could not be created exclusively"))
        end
      else lift (Err (broken LOCK_INVALID "maintenance lock path could not be inspected without following links"))
  | Done m =>
      _ ← _require_regular_single_link (_identity m) LOCK_INVALID;
      o ← os_open (At state_fd MAINTENANCE_LOCK_FILENAME) ReadWriteFlags;
      fd ← trusted LOCK_INVALID "maintenance lock file could not be opened without following links" o;
      mret (Some (fd, Some (_identity m)))
  end.

(** The loop, for at most [patience] rounds. *)
Fixpoint open_lock (patience : nat) (state_fd : Z) : Sys (Z * option _FileIdentity) :=
  match patience with
  | O => lift (Err (AssertionError "loop bound"))
  | S patience =>
      opened ← lock_round state_fd;
      match opened with Some p => mret p | None => open_lock patience state_fd end
  end.

(** [_open_or_create_lock(state, state_descriptor)] *)
Definition _open_or_create_lock (patience : nat) (state_fd : Z) : Sys (Z * _FileIdentity) :=
  '((fd, observed) : Z * option _FileIdentity) ← open_lock patience state_fd;
  identity ← close_on_error fd (
    identity ← fstat_identity fd;
    _ ← _require_regular_single_link identity LOCK_INVALID;
    _ ← intact match observed with Some i => bool_decide (identity = i) | None => true end LOCK_CHANGED
          "maintenance lock changed while it was opened";
    _ ← _require_lock_path_identity state_fd identity;
    o ← os_fsync fd; _ ← raise_os o;
    o ← os_fsync state_fd; _ ← raise_os o;
    final ← fstat_identity fd;
    _ ← intact (bool_decide (final = identity)) LOCK_CHANGED "maintenance lock inode changed while it was opened";
    _ ← _require_lock_path_identity state_fd identity;
    mret identity);
  mret (fd, identity).

(** [_verify_held_lease(held)] in the process [pid] *)
Definition _verify_held_lease (pid : Z) (h : _HeldLease) : Sys unit :=
  _ ← intact (owner_pid h =? pid) PROCESS_CHANGED "lease ownership does not survive fork as a child-owned lease";
  identity ← fstat_identity (state_descriptor h);
  _ ← intact (_same_object identity (state_identity h)) STATE_CHANGED "open state directory identity changed";
  _ ← _require_state_path_identity (state_directory h) (state_identity h);
  identity ← fstat_identity (lock_descriptor h);
  _ ← intact (bool_decide (identity = lock_identity h)) LOCK_CHANGED "open maintenance lock identity changed";
  _require_lock_path_identity (state_descriptor h) (lock_identity h).

(** One directory of the fence, opened below [current]; [None] when it does not exist. *)
Definition enter_fence_directory (current : Z) (component : string) : Sys (option Z) :=
  o ← os_stat current component;
  match o with
  | OSError n =>
      if not_found n then mret None
      else lift (Err (broken QUARANTINE_FENCE_INVALID "quarantine fence namespace could not be inspected"))
  | Done m =>
      _ ← _require_exact_fence_entry_name current component;
      _ ← intact (is_kind Directory m) QUARANTINE_FENCE_INVALID "quarantine fence ancestor is not a real directory";
      o ← os_open (At current component) DirectoryFlags;
      next ← trusted QUARANTINE_FENCE_INVALID
               "quarantine fence ancestor could not be opened without following links" o;
      _ ← close_on_error next (
        identity ← fstat_identity next;
        _ ← intact (_same_object identity (_identity m)) QUARANTINE_FENCE_INVALID
              "quarantine fence ancestor changed while it was opened";
        final ← stat_identity current component;
        _ ← intact (_same_object final (_identity m)) QUARANTINE_FENCE_INVALID
              "quarantine fence ancestor changed during inspection";
        _require_exact_fence_entry_name current component);
      mret (Some next)
  end.

(** The marker below the last directory of the fence. *)
Definition fence_marker_present (current : Z) : Sys bool :=
  o ← os_stat current fence_marker;
  match o with
  | OSError n =>
      if not_found n then mret false
      else lift (Err (broken QUARANTINE_FENCE_INVALID "quarantine ACTIVE marker could not be inspected"))
  | Done m =>
      _ ← _require_exact_fence_entry_name current fence_marker;
      _ ← _require_regular_single_link (_identity m) QUARANTINE_FENCE_INVALID;
      o ← os_open (At current fence_marker) ReadFlags;
      fd ← trusted QUARANTINE_FENCE_INVALID
             "quarantine ACTIVE marker could not be opened without following links" o;
      _ ← finally (
        identity ← fstat_identity fd;
        _ ← intact (bool_decide (identity = _identity m)) QUARANTINE_FENCE_INVALID
              "quarantine ACTIVE marker changed while it was opened";
        final ← stat_identity current fence_marker;
        _ ← intact (bool_decide (final = _identity m)) QUARANTINE_FENCE_INVALID
              "quarantine ACTIVE marker changed during inspection";
        _require_exact_fence_entry_name current fence_marker) (λ _, close_fd fd);
      mret true
  end.

(** The walk down the fence.  Whichever directory is current when the walk ends or fails
    is closed at last. *)
Fixpoint walk_fence (components : list string) (current : Z) : Sys bool :=
  match components with
  | [] => finally (fence_marker_present current) (λ _, close_fd current)
  | component :: components =>
      entered ← finally (enter_fence_directory current component)
        (λ r, match r with Ok (Some _) => mret tt | _ => close_fd current end);
      match entered with
      | None => mret false
      | Some next =>
          _ ← finally (close_fd current) (λ r, match r with Ok _ => mret tt | Err _ => close_fd current end);
          walk_fence components next
      end
  end.

(** [_quarantine_marker_present(held)] *)
Definition _quarantine_marker_present (h : _HeldLease) : Sys bool :=
  o ← os_dup (state_descriptor h);
  current ← raise_os o;
  walk_fence fence_directories current.

(** [_close_descriptors(...)]: all of them are closed; whether one failed. *)
Fixpoint _close_descriptors (fds : list Z) : Sys bool :=
  match fds with
  | [] => mret false
  | fd :: fds =>
      o ← os_close fd;
      failed ← _close_descriptors fds;
      mret match o with Done _ => failed | OSError _ => true end
  end.

(** [_unlock_without_raising(descriptor)] *)
Definition _unlock_without_raising (fd : Z) : Sys unit := _ ← unlock fd; mret tt.
End kernel.

(** ** The process: the registry and the shared objects *)

(** A [MaintenanceLease] object; [le_held] is the identity of its [_HeldLease]. *)
Record MaintenanceLease := {
  le_held : nat;
  le_released : bool;
  le_entered : bool;
  le_descriptor_borrows : Z;
}.

(** [registry] and [borrowed] are the module's [_registry] and [_borrowed_descriptors];
    objects are positions in [helds] and [leases], which only grow. *)
Record process := {
  machine_of : sys;
  pid : Z;  (* [os.getpid()] *)
  registry_pid : Z;
  registry : gmap path nat;
  borrowed : gset Z;
  helds : list _HeldLease;
  leases : list MaintenanceLease;
}.

Definition new_process (w : sys) (p : Z) : process :=
  {| machine_of := w; pid := p; registry_pid := p; registry := ∅; borrowed := ∅; helds := []; leases := [] |}.

Abbreviation P := (eff process).

Definition on_os {A} (m : Sys A) : P A := λ p, let '(r, w) := m (machine_of p) in (r, p <| machine_of := w |>).
Definition gets {A} (f : process → A) : P A := λ p, (Ok (f p), p).
Definition modifies (f : process → process) : P unit := λ p, (Ok tt, f p).

(** An object that exists: its identity was handed out. *)
Definition object {A} (o : option A) : P A := lift (of_option (AssertionError "no such object") o).
Definition held_object (h : nat) : P _HeldLease := o ← gets (λ p, helds p !! h); object o.
Definition lease_object (l : nat) : P MaintenanceLease := o ← gets (λ p, leases p !! l); object o.
Definition set_held (h : nat) (f : _HeldLease → _HeldLease) : P unit :=
  modifies (λ p, p <| helds ::= alter f h |>).
Definition set_lease (l : nat) (f : MaintenanceLease → MaintenanceLease) : P unit :=
  modifies (λ p, p <| leases ::= alter f l |>).

(** [cls(held)], activated: the new lease's identity. *)
Definition new_lease (h : nat) : P nat := λ p,
  (Ok (length (leases p)),
   p <| leases ::= (λ l, l ++ [{| le_held := h; le_released := false; le_entered := false;
                                  le_descriptor_borrows := 0 |}]) |>).

Definition demand_lease (b : bool) (r : MaintenanceIntegrityReason) (detail : string) : P unit :=
  lift (require b (broken r detail)).

Section process.
Context {world : World} {kernel : Kernel}.

(** [with suppress(OSError): os.close(fd)] *)
Definition close_quietly (fd : Z) : Sys unit := _ ← os_close fd; mret tt.

(** [_reset_registry_in_child()].  A set and a dict are walked in some order. *)
Definition _reset_registry_in_child : P unit :=
  inherited ← gets (λ p, omap (λ h, helds p !! h) (map_to_list (registry p)).*2);
  inherited_borrows ← gets (λ p, elements (borrowed p));
  _ ← modifies (λ p, p <| registry := ∅ |> <| borrowed := ∅ |> <| registry_pid := pid p |>);
  _ ← on_os (forM close_quietly inherited_borrows);
  on_os (forM (λ h, _ ← close_quietly (lock_descriptor h); close_quietly (state_descriptor h)) inherited).

(** [_reset_registry_after_fork()] *)
Definition _reset_registry_after_fork : P unit :=
  same ← gets (λ p, pid p =? registry_pid p);
  if (same : bool) then mret tt else _reset_registry_in_child.

(** [_reset_registry_after_fork(); with _registry_lock: _reset_registry_after_fork(); m] *)
Definition critical {A} (m : P A) : P A :=
  _ ← _reset_registry_after_fork;
  _ ← _reset_registry_after_fork;
  m.

(** The [except BaseException] of [_acquire]: the lock is given up, both descriptors are
    closed, and the exception is raised again, an [OSError] or a failure to close as an
    integrity error. *)
Definition abandon (lock_fd : option Z) (locked : bool) (state_fd : Z) (e : exn) : Sys unit :=
  _ ← match lock_fd with
      | Some fd => if locked then _unlock_without_raising fd else mret tt
      | None => mret tt
      end;
  failed ← _close_descriptors (match lock_fd with Some fd => [fd] | None => [] end ++ [state_fd]);
  lift (Err (if (failed : bool)
             then broken LOCK_OPERATION_FAILED "maintenance lease descriptors could not be closed after acquisition"
             else _integrity_error LOCK_OPERATION_FAILED "maintenance lease acquisition failed" e)).

Definition or_abandon {A} (lock_fd : option Z) (locked : bool) (state_fd : Z) (m : Sys A) : Sys A :=
  finally m (λ r, match r with Ok _ => mret tt | Err e => abandon lock_fd locked state_fd e end).

(** [EACCES] and [EAGAIN] say that the lock is held. *)
Definition EACCES : Z := 13.
Definition EAGAIN : Z := 11.
Definition is_contended (n : option Z) : bool := bool_decide (n = Some EACCES) || bool_decide (n = Some EAGAIN).

(** The fresh part of [_acquire]: the kernel lock is taken and everything verified. *)
Definition acquire_fresh (patience : nat) (p : Z) (m : MaintenanceLeaseMode) (state : path) (state_fd : Z)
    (identity : _FileIdentity) : Sys _HeldLease :=
  '((lock_fd, lock_identity) : Z * _FileIdentity) ←
     or_abandon None false state_fd (_open_or_create_lock patience state_fd);
  _ ← or_abandon (Some lock_fd) false state_fd (
    o ← flock lock_fd (bool_decide (m = EXCLUSIVE));
    match o with
    | Done _ => mret tt
    | OSError n =>
        lift (Err (if is_contended n then busy LEASE_HELD
                   else broken LOCK_OPERATION_FAILED "kernel lease operation failed"))
    end);
  let held := {| owner_pid := p; state_directory := state; state_descriptor := state_fd;
                 state_identity := identity; lock_descriptor := lock_fd; lock_identity := lock_identity;
                 mode := m; references := 1 |} in
  _ ← or_abandon (Some lock_fd) true state_fd (
    _ ← _verify_held_lease p held;
    marker_present ← _quarantine_marker_present held;
    lift (require (negb (bool_decide (m = SHARED) && (marker_present : bool))) (busy QUARANTINE_ACTIVE)));
  mret held.

(** [MaintenanceLease._acquire(configured_state, mode=...)]: the identity of the lease. *)
Definition _acquire (patience : nat) (m : MaintenanceLeaseMode) (configured : path) : P nat :=
  critical (
    p ← gets pid;
    '((state, state_fd, identity) : path * Z * _FileIdentity) ← on_os (_open_state_directory configured);
    existing ← gets (λ p, registry p !! state);
    match existing with
    | Some h =>
        held ← held_object h;
        marker_present ← on_os (finally
          (exceptM (_integrity_error LOCK_OPERATION_FAILED "nested maintenance lease validation failed")
             (_ ← _verify_held_lease p held; _quarantine_marker_present held))
          (λ _, close_fd state_fd));
        if bool_decide (mode held = SHARED) && bool_decide (m = SHARED) then
          _ ← lift (require (negb marker_present) (busy QUARANTINE_ACTIVE));
          _ ← set_held h (λ held, held <| references ::= Z.succ |>);
          new_lease h
        else lift (Err (busy LEASE_HELD))
    | None =>
        held ← on_os (acquire_fresh patience p m state state_fd identity);
        h ← gets (λ p, length (helds p));
        _ ← modifies (λ p, p <| helds ::= (λ l, l ++ [held]) |> <| registry ::= <[ state := h ]> |>);
        new_lease h
    end).
Definition acquire_shared (patience : nat) (configured : path) : P nat := _acquire patience SHARED configured.
Definition acquire_exclusive (patience : nat) (configured : path) : P nat := _acquire patience EXCLUSIVE configured.

(** What [close] finds wrong with the lease before it gives it up. *)
Definition release_check (p : Z) (held : _HeldLease) : Sys (option exn) :=
  catch
    (_ ← _verify_held_lease p held;
     _ ← (if bool_decide (mode held = SHARED)
          then marker_present ← _quarantine_marker_present held;
               intact (negb marker_present) STATE_CHANGED "quarantine became active while a shared lease was held"
          else mret tt);
     mret None)
    (λ e, Some (mret (Some (_integrity_error LOCK_OPERATION_FAILED
                              "maintenance lease validation failed during release" e)))).

(** The last reference leaves the registry, unlocks and closes both descriptors; the first
    failure is the one that counts. *)
Definition drop_last_reference (held : _HeldLease) (found : option exn) : P (option exn) :=
  _ ← modifies (λ p, p <| registry ::= delete (state_directory held) |>);
  unlocked ← on_os (unlock (lock_descriptor held));
  failed ← on_os (_close_descriptors [lock_descriptor held; state_descriptor held]);
  mret match found, unlocked, failed with
       | Some e, _, _ => Some e
       | None, OSError _, _ => Some (broken LOCK_OPERATION_FAILED "kernel lease release failed")
       | None, Done _, true =>
           Some (broken LOCK_OPERATION_FAILED "maintenance lease descriptors could not be closed")
       | None, Done _, false => None
       end.

Definition drop_reference (h : nat) (held : _HeldLease) (found : option exn) : P (option exn) :=
  _ ← set_held h (λ held, held <| references ::= Z.pred |>);
  if references held =? 1 then drop_last_reference held found else mret found.

(** [lease.close()] *)
Definition close (l : nat) : P unit :=
  lease ← lease_object l;
  if le_released lease then mret tt
  else critical (
    p ← gets pid;
    let h := le_held lease in
    held ← held_object h;
    _ ← demand_lease (negb ((owner_pid held =? p) && negb (le_descriptor_borrows lease =? 0)))
          LEASE_DESCRIPTOR_BORROWED "a maintenance lease cannot close while lending a state descriptor";
    _ ← set_lease l (λ lease, lease <| le_released := true |>);
    _ ← demand_lease (owner_pid held =? p) PROCESS_CHANGED "a lease cannot be released by a forked child";
    registered ← gets (λ p, registry p !! state_directory held);
    _ ← demand_lease (bool_decide (registered = Some h)) STATE_CHANGED
          "the process-local lease registration changed";
    found ← on_os (release_check p held);
    release_error ← drop_reference h held found;
    match (release_error : option exn) with Some e => lift (Err e) | None => mret tt end).

(** A release whose failure becomes a note on the exception under way: after a failed
    entry, in [__exit__] under an exception, and in [__del__]. *)
Definition close_noted (l : nat) : P unit := catch (close l) (λ _, Some (mret tt)).

(** [lease.__enter__()] *)
Definition __enter__ (l : nat) : P unit :=
  critical (
    p ← gets pid;
    lease ← lease_object l;
    let h := le_held lease in
    held ← held_object h;
    _ ← demand_lease (negb (le_released lease)) LEASE_RELEASED "a released maintenance lease cannot be re-entered";
    _ ← demand_lease (owner_pid held =? p) PROCESS_CHANGED "a lease acquired by another process cannot be entered";
    registered ← gets (λ p, registry p !! state_directory held);
    _ ← demand_lease (bool_decide (registered = Some h)) STATE_CHANGED
          "the process-local lease registration changed before entry";
    _ ← demand_lease (negb (le_entered lease)) LEASE_ALREADY_ENTERED
          "one lease object cannot be entered more than once";
    _ ← catch
      (on_os (
         marker_present ← exceptM
           (_integrity_error LOCK_OPERATION_FAILED "maintenance lease validation failed before entry")
           (_ ← _verify_held_lease p held; _quarantine_marker_present held);
         intact (negb (bool_decide (mode held = SHARED) && (marker_present : bool))) STATE_CHANGED
           "quarantine became active before shared lease entry"))
      (λ e, Some (_ ← close_noted l; lift (Err e)));
    set_lease l (λ lease, lease <| le_entered := true |>)).

(** [lease.__exit__(...)], with or without an exception under way *)
Definition __exit__ (l : nat) (exception : bool) : P unit := if exception then close_noted l else close l.

(** The entry of [lease.verified_state_descriptor(require_exclusive=...)]: the duplicate. *)
Definition lend_descriptor (l : nat) (require_exclusive : bool) : P Z :=
  critical (
    p ← gets pid;
    lease ← lease_object l;
    let h := le_held lease in
    held ← held_object h;
    _ ← demand_lease (negb (le_released lease)) LEASE_RELEASED
          "a released maintenance lease cannot lend its state descriptor";
    _ ← demand_lease (owner_pid held =? p) PROCESS_CHANGED
          "a lease cannot lend its state descriptor to another process";
    registered ← gets (λ p, registry p !! state_directory held);
    _ ← demand_lease (bool_decide (registered = Some h)) STATE_CHANGED
          "the process-local lease registration changed before descriptor use";
    _ ← demand_lease (negb (require_exclusive && bool_decide (mode held = SHARED))) LEASE_MODE_REQUIRED
          "this state-directory operation requires an exclusive maintenance lease";
    let as_integrity := _integrity_error LOCK_OPERATION_FAILED
                          "state-directory descriptor could not be duplicated safely" in
    duplicate ← on_os (exceptM as_integrity (
      _ ← _verify_held_lease p held;
      marker_present ← _quarantine_marker_present held;
      _ ← intact (negb (bool_decide (mode held = SHARED) && (marker_present : bool))) STATE_CHANGED
            "quarantine became active before state-descriptor use";
      o ← os_dup (state_descriptor held);
      raise_os o));
    _ ← on_os (finally
      (identity ← fstat_identity duplicate;
       _ ← intact (bool_decide (fi_file_type identity = Directory) && _same_object identity (state_identity held))
             STATE_CHANGED "duplicated state-directory descriptor changed identity";
       _require_state_path_identity (state_directory held) (state_identity held))
      (λ r, match r with
            | Ok _ => mret tt
            | Err e =>
                failed ← _close_descriptors [duplicate];
                lift (Err (if (failed : bool)
                           then broken LOCK_OPERATION_FAILED
                                  "duplicated state-directory descriptor could not be closed after validation"
                           else as_integrity e))
            end));
    _ ← modifies (λ p, p <| borrowed ::= union {[ duplicate ]} |>);
    _ ← set_lease l (λ lease, lease <| le_descriptor_borrows ::= Z.succ |>);
    mret duplicate).

(** What the exit of [verified_state_descriptor] found wrong. *)
Definition return_descriptor (l : nat) (held : _HeldLease) (duplicate : Z) : P (option exn) :=
  _ ← _reset_registry_after_fork;
  lent ← gets (λ p, bool_decide (duplicate ∈ borrowed p));
  failure ←
    (if (lent : bool) then
       o ← on_os (os_fstat duplicate);
       failure ←
         match o with
         | OSError _ =>
             mret (Some (broken STATE_CHANGED
               "borrowed state-directory descriptor was closed or replaced by its caller"))
         | Done m =>
             if negb (is_kind Directory m && _same_object (_identity m) (state_identity held))
             then mret (Some (broken STATE_CHANGED
               "borrowed state-directory descriptor was replaced by another open file; the replacement was left open"))
             else
               o ← on_os (os_close duplicate);
               mret match o with
                    | Done _ => None
                    | OSError _ => Some (broken LOCK_OPERATION_FAILED
                                           "borrowed state-directory descriptor could not be closed")
                    end
         end;
       _ ← modifies (λ p, p <| borrowed ::= λ b, b ∖ {[ duplicate ]} |>);
       mret failure
     else mret None);
  _ ← set_lease l (λ lease, lease <| le_descriptor_borrows ::= Z.pred |>);
  mret failure.

(** [with lease.verified_state_descriptor(require_exclusive=...) as duplicate: body]; what
    a failure of the exit becomes for a caller who handles it, given what [body] returned. *)
Definition borrowing {A} (l : nat) (require_exclusive : bool) (on_exit : A → exn → exn) (body : Z → P A) : P A :=
  duplicate ← lend_descriptor l require_exclusive;
  lease ← lease_object l;
  held ← held_object (le_held lease);
  finally (body duplicate) (λ r,
    failure ← return_descriptor l held duplicate;
    match r, (failure : option exn) with Ok a, Some e => lift (Err (on_exit a e)) | _, _ => mret tt end).
Definition verified_state_descriptor {A} (l : nat) (require_exclusive : bool) (body : Z → P A) : P A :=
  borrowing l require_exclusive (λ _ e, e) body.

(** [os.fork()] in the child: the parent's variables under a new process identifier, and
    the handler that was registered with [os.register_at_fork]. *)
Definition fork (child : Z) : P unit :=
  _ ← modifies (λ p, p <| pid := child |>);
  _reset_registry_in_child.
End process.
