(* ===== verification/MaintenanceFacts.v ===== *)
(** * What a maintenance lease is worth (src/guildmind/storage/maintenance.py)

    The registry counts its leases: however a process acquires, enters, lends, closes and
    forks, a registered lock is referenced by exactly the leases that are live, and by
    one if it is exclusive. *)

From coqutil Require Import Datatypes.RecordSettersUsingExistingGetters.
From S2P Require Import Prelude Loop Effects PyStr Files Descriptors Maintenance.

Local Open Scope Z_scope.

(** ** The registry counts its leases *)

Definition is_live (h : nat) (l : MaintenanceLease) : bool := Nat.eqb (le_held l) h && negb (le_released l).
(** The live leases of a shared object. *)
Definition live (p : process) (h : nat) : nat := length (List.filter (is_live h) (leases p)).

(** [owed] is an object whose count is one ahead of its live leases: one of them is just
    being released. *)
Record entry_counted (owed : option nat) (p : process) (state : path) (h : nat) (held : _HeldLease) : Prop := {
  ec_held : helds p !! h = Some held;
  ec_state : state_directory held = state;
  ec_owner : owner_pid held = registry_pid p;
  ec_references : references held = Z.of_nat (live p h) + (if bool_decide (owed = Some h) then 1 else 0);
  ec_positive : 1 <= references held;
  ec_exclusive : mode held = EXCLUSIVE → references held = 1;
}.

Record counted_owing (owed : option nat) (p : process) : Prop := {
  co_entries : ∀ state h, registry p !! state = Some h → ∃ held, entry_counted owed p state h held;
  co_leases : Forall (λ l, le_held l < length (helds p))%nat (leases p);
  co_live : ∀ l x held, leases p !! l = Some x → le_released x = false → helds p !! le_held x = Some held →
    owner_pid held = registry_pid p → registry p !! state_directory held = Some (le_held x);
  co_pids : pid p = registry_pid p ∨ Forall (λ held, owner_pid held ≠ pid p) (helds p);
}.
Abbreviation counted := (counted_owing None).

(** The invariant does not look at the machine. *)
Lemma counted_machine owed p w : counted_owing owed p → counted_owing owed (p <| machine_of := w |>).
Proof. intros [He Hl Hlive Hpids]. split; [|done..]. intros state h Hr. destruct (He _ _ Hr) as [held []]. by exists held. Qed.

Lemma on_os_inv {A} (m : Sys A) p r p' : on_os m p = (r, p') →
  ∃ w, m (machine_of p) = (r, w) ∧ p' = p <| machine_of := w |>.
Proof. unfold on_os. destruct (m (machine_of p)) as [r0 w]. intros [= <- <-]. eauto. Qed.

Lemma counted_on_os {A} owed (m : Sys A) p r p' : counted_owing owed p → on_os m p = (r, p') →
  counted_owing owed p' ∧ helds p' = helds p ∧ registry p' = registry p.
Proof. intros H. unfold on_os. destruct (m (machine_of p)). intros [= _ <-]. by split; [apply counted_machine|]. Qed.

Lemma counted_new w n : counted (new_process w n).
Proof.
  split; [|done|done|by left]. intros state h. simpl. by rewrite lookup_empty.
Qed.

Definition keeps {A} (m : P A) : Prop := ∀ p r p', counted p → m p = (r, p') → counted p'.

Lemma keeps_ret {A} (a : A) : keeps (mret a).
Proof. by intros p r p' H [= _ <-]. Qed.
Lemma keeps_lift {A} (r : result A) : keeps (lift r).
Proof. by intros p r' p' H [= _ <-]. Qed.
Lemma keeps_gets {A} (f : process → A) : keeps (gets f).
Proof. by intros p r' p' H [= _ <-]. Qed.
Lemma keeps_on_os {A} (m : Sys A) : keeps (on_os m).
Proof. intros p r p' H. unfold on_os. destruct (m (machine_of p)). intros [= _ <-]. by apply counted_machine. Qed.
Lemma keeps_bind {A B} (m : P A) (f : A → P B) : keeps m → (∀ a, keeps (f a)) → keeps (m ≫= f).
Proof. intros Hm Hf p r p' H [(a & p1 & E1 & E2)|(e & E & _)]%bindM_inv; [eapply Hf; [eapply Hm|]|eapply Hm]; done. Qed.
Lemma keeps_catch {A} (m : P A) h : keeps m → (∀ e k, h e = Some k → keeps k) → keeps (catch m h).
Proof.
  intros Hm Hh p r p' H. unfold catch. destruct (m p) as [[a|e] p1] eqn:E.
  - intros [= _ <-]. by eapply Hm.
  - destruct (h e) as [k|] eqn:Ek; [intros Hk; eapply Hh; [exact Ek| |exact Hk]|intros [= _ <-]]; by eapply Hm.
Qed.
Lemma keeps_set_lease l f : (∀ x, le_held (f x) = le_held x ∧ le_released (f x) = le_released x) → keeps (set_lease l f).
Proof.
  intros Hf p r p' [He Hl Hlive Hpids] [= _ <-].
  assert (∀ h, live (p <| leases ::= alter f l |>) h = live p h) as Elive.
  { intros h. unfold live. change (leases (p <| leases ::= alter f l |>)) with (alter f l (leases p)). generalize (leases p) as ls. clear - Hf. intros ls.
    revert l. induction ls as [|x ls IH]; intros [|l]; [reflexivity|reflexivity| |].
    - cbn. unfold is_live. destruct (Hf x) as [E1 E2]. rewrite E1, E2. by destruct (_ && _).
    - cbn. destruct (is_live h x); cbn; by rewrite IH. }
  split.
  - intros state h Hr. destruct (He _ _ Hr) as [held []]. exists held. split; try done; by rewrite Elive.
  - change (Forall (λ l, le_held l < length (helds p))%nat (alter f l (leases p))). apply Forall_alter; [done|]. intros x _. by destruct (Hf x) as [-> _].
  - intros l' x held Hx Er Hh Eo. change (alter f l (leases p) !! l' = Some x) in Hx.
    destruct (decide (l = l')) as [<-|Hne].
    + rewrite list_lookup_alter_eq in Hx. destruct (leases p !! l) as [y|] eqn:Ey; [|done]. injection Hx as <-.
      destruct (Hf y) as [E1 E2]. rewrite E1 in *. rewrite E2 in Er. by eapply Hlive.
    + rewrite list_lookup_alter_ne in Hx by done. by eapply Hlive.
  - exact Hpids.
Qed.

Create HintDb keeps.
#[local] Hint Resolve keeps_ret keeps_lift keeps_gets keeps_on_os : keeps.

Ltac solve_keeps :=
  repeat lazymatch goal with
  | |- keeps (mbind _ _) => apply keeps_bind; [|intros ?]
  | |- keeps (catch _ _) => apply keeps_catch; [|intros ? ? [= <-]]
  | |- keeps (set_lease _ _) => by apply keeps_set_lease
  | |- keeps (demand_lease _ _ _) => apply keeps_lift
  | |- keeps (object _) => apply keeps_lift
  | |- keeps (held_object _) => unfold held_object
  | |- keeps (lease_object _) => unfold lease_object
  | |- keeps (if ?b then _ else _) => destruct b
  | |- keeps (match ?x with _ => _ end) => destruct x
  | |- keeps _ => solve [auto with keeps nocore]
  end.

Lemma bind_returned {S A B} (m : eff S A) (f : A → eff S B) s a s1 : m s = (Ok a, s1) → (m ≫= f) s = f a s1.
Proof. intros E. unfold mbind, eff_bind. by rewrite E. Qed.
Lemma held_object_at h p held : helds p !! h = Some held → held_object h p = (Ok held, p).
Proof. intros E. unfold held_object, gets, object, mbind, eff_bind. by rewrite E. Qed.
Lemma lease_object_at l p x : leases p !! l = Some x → lease_object l p = (Ok x, p).
Proof. intros E. unfold lease_object, gets, object, mbind, eff_bind. by rewrite E. Qed.

Lemma lease_object_inv l p r p' : lease_object l p = (r, p') →
  p' = p ∧ (∀ x, r = Ok x → leases p !! l = Some x).
Proof.
  unfold lease_object, gets, object, lift, mbind, eff_bind. intros [= <- <-]. split; [done|].
  intros x. by destruct (leases p !! l); intros [= ->].
Qed.
Lemma held_object_inv h p r p' : held_object h p = (r, p') →
  p' = p ∧ (∀ x, r = Ok x → helds p !! h = Some x).
Proof.
  unfold held_object, gets, object, lift, mbind, eff_bind. intros [= <- <-]. split; [done|].
  intros x. by destruct (helds p !! h); intros [= ->].
Qed.

(** Opens the run of a program over the process, at a step that changes nothing. *)
Ltac inv_step H :=
  let E := fresh "E" in
  let a := fresh "a" in let q := fresh "q" in
  apply bindM_inv in H as [(a & q & E & H)|(? & E & ?)];
  first [ apply lease_object_inv in E as [-> E]; try specialize (E _ eq_refl)
        | apply held_object_inv in E as [-> E]; try specialize (E _ eq_refl)
        | match type of E with
          | gets _ _ = _ => injection E as <- <-
          | demand_lease ?b _ _ _ = (Ok _, _) => unfold demand_lease in E; apply lift_Ok in E as [E ->];
              apply require_Ok in E
          | demand_lease ?b _ _ _ = (Err _, _) => unfold demand_lease in E; apply lift_Err in E as [E ->]
          | lift _ _ = (Ok _, _) => apply lift_Ok in E as [E ->]
          | lift _ _ = (Err _, _) => apply lift_Err in E as [E ->]
          end
        | idtac ].

Section kernel.
Context {world : World} {kernel : Kernel}.

Lemma keeps_borrowed f : keeps (modifies (λ p, p <| borrowed ::= f |>)).
Proof.
  intros p r p' [He Hl Hlive Hpids] [= _ <-]. split; [|done..].
  intros state h Hr. destruct (He _ _ Hr) as [held []]. by exists held.
Qed.

(** The reset of a process none of whose objects is its own. *)
Lemma counted_reset p r p' : counted p → Forall (λ held, owner_pid held ≠ pid p) (helds p) →
  _reset_registry_in_child p = (r, p') → counted p'.
Proof.
  intros [He Hl Hlive _] Ho H. unfold _reset_registry_in_child in H.
  apply bindM_inv in H as [(l1 & p1 & [= _ <-] & H)|(e & [=] & _)].
  apply bindM_inv in H as [(l2 & p1 & [= _ <-] & H)|(e & [=] & _)].
  apply bindM_inv in H as [(u & p1 & [= _ <-] & H)|(e & [=] & _)].
  match type of H with (_ ≫= _) ?q = _ => assert (counted q) as Hq; [|revert H; generalize q, Hq] end.
  - split; [|done| |by left].
    + intros state h Hr. change ((∅ : gmap path nat) !! state = Some h) in Hr. by rewrite lookup_empty in Hr.
    + intros l x held _ _ Hh Eo. rewrite Forall_lookup in Ho. by destruct (Ho _ _ Hh).
  - clear. intros q Hq H. refine (keeps_bind _ _ (keeps_on_os _) _ _ _ _ Hq H). intros ?. solve_keeps.
Qed.

Lemma keeps_reset : keeps _reset_registry_after_fork.
Proof.
  intros p r p' Hc H. unfold _reset_registry_after_fork in H.
  apply bindM_inv in H as [(b & p1 & [= <- <-] & H)|(e & [=] & _)].
  destruct (Z.eqb_spec (pid p) (registry_pid p)) as [E|E]; [by injection H as _ <-|].
  eapply counted_reset; [exact Hc| |exact H]. by destruct (co_pids _ _ Hc).
Qed.

(** In its critical section an operation belongs to the process the registry is for. *)
Lemma close_quietly_returns fd s : ∃ s', close_quietly fd s = (Ok tt, s').
Proof. by eexists. Qed.
Lemma forM_returns {A} (f : A → Sys unit) l s : (∀ a s, ∃ s', f a s = (Ok tt, s')) → ∃ s', forM f l s = (Ok tt, s').
Proof.
  intros Hf. revert s. induction l as [|a l IH]; intros s; cbn [forM]; [by eexists|].
  destruct (Hf a s) as [s1 E]. unfold mbind, eff_bind. rewrite E. apply IH.
Qed.

Lemma reset_owned p : ∃ p1, _reset_registry_after_fork p = (Ok tt, p1) ∧ pid p1 = registry_pid p1 ∧ leases p1 = leases p ∧
  (pid p = registry_pid p → p1 = p).
Proof.
  unfold _reset_registry_after_fork, gets. unfold mbind at 1, eff_bind at 1.
  destruct (Z.eqb_spec (pid p) (registry_pid p)) as [E|E]; [by exists p|].
  unfold _reset_registry_in_child, gets, modifies, on_os. unfold mbind, eff_bind. cbn beta iota.
  match goal with |- context [forM close_quietly ?l ?w] =>
    destruct (forM_returns close_quietly l w close_quietly_returns) as [w1 ->] end. cbn beta iota.
  match goal with |- context [forM ?f ?l ?w] => destruct (forM_returns f l w) as [w2 ->] end.
  { intros h s. destruct (close_quietly_returns (lock_descriptor h) s) as [s1 E1].
    destruct (close_quietly_returns (state_descriptor h) s1) as [s2 E2]. exists s2.
    unfold eff_bind. by rewrite E1. }
  by eexists.
Qed.

Lemma critical_inv {A} (m : P A) p r p' : critical m p = (r, p') →
  ∃ p1, m p1 = (r, p') ∧ pid p1 = registry_pid p1 ∧ (counted p → counted p1) ∧
    leases p1 = leases p ∧ (pid p = registry_pid p → p1 = p).
Proof.
  unfold critical. destruct (reset_owned p) as (p1 & E1 & O1 & L1 & S1).
  destruct (reset_owned p1) as (p2 & E2 & O2 & _ & S2). rewrite (S2 O1) in *.
  unfold mbind at 1 2, eff_bind at 1 2. rewrite E1, E2. intros H. exists p1. split_and!; [done|done| |done|done].
  intros Hc. by eapply keeps_reset.
Qed.

Lemma keeps_critical {A} (m : P A) : (∀ p r p', counted p → pid p = registry_pid p → m p = (r, p') → counted p') →
  keeps (critical m).
Proof. intros Hm p r p' H (p1 & E & O & Hc & _)%critical_inv. by eapply Hm; [apply Hc| |]. Qed.

(** *** A new lease *)

Lemma live_new p h h' x : le_held x = h → le_released x = false →
  live (p <| leases ::= (λ l, l ++ [x]) |>) h' = (live p h' + if Nat.eqb h h' then 1 else 0)%nat.
Proof.
  intros <- Er. unfold live. change (leases (p <| leases ::= (λ l, l ++ [x]) |>)) with (leases p ++ [x]).
  rewrite List.filter_app, length_app. cbn [List.filter]. unfold is_live at 2. rewrite Er, andb_true_r.
  by destruct (Nat.eqb _ _).
Qed.

Lemma live_none p h : Forall (λ l, le_held l < length (helds p))%nat (leases p) → (length (helds p) ≤ h)%nat →
  live p h = 0%nat.
Proof.
  intros Hl Hh. unfold live. induction Hl as [|x l Hx _ IH]; [done|]. cbn [List.filter]. unfold is_live at 1.
  by destruct (Nat.eqb_spec (le_held x) h); [lia|].
Qed.

(** A further shared lease on a registered object. *)
Lemma counted_nested p h held r p' : counted p → helds p !! h = Some held → mode held = SHARED →
  registry p !! state_directory held = Some h →
  (_ ← set_held h (λ held, held <| references ::= Z.succ |>); new_lease h) p = (r, p') → counted p'.
Proof.
  intros [He Hl Hlive Hpids] Hh Em Hreg [= _ <-]. set (x := {| le_held := h; le_released := false |}).
  set (held' := held <| references ::= Z.succ |>).
  assert (∀ h', live (p <| helds ::= alter (λ held, held <| references ::= Z.succ |>) h |>
    <| leases ::= (λ l, l ++ [x]) |>) h' = (live p h' + if Nat.eqb h h' then 1 else 0)%nat) as El.
  { intros h'. 
    exact (live_new (p <| helds ::= alter (λ held, held <| references ::= Z.succ |>) h |>) h h' x eq_refl eq_refl). }
  split.
  - intros state h' Hr. change (registry p !! state = Some h') in Hr. destruct (He _ _ Hr) as [held1 [H1 ?? Hc Hp Hx]].
    change (references held1 = Z.of_nat (live p h') + 0) in Hc. destruct (decide (h = h')) as [<-|Hne].
    + rewrite Hh in H1. injection H1 as <-. exists held'. split; try done.
      * change (alter (λ held, held <| references ::= Z.succ |>) h (helds p) !! h = Some held').
        by rewrite list_lookup_alter_eq, Hh.
      * rewrite El, Nat.eqb_refl. change (Z.succ (references held) = Z.of_nat (live p h + 1) + 0). lia.
      * change (1 <= Z.succ (references held)). lia.
      * change (mode held = EXCLUSIVE → references held' = 1). by rewrite Em.
    + exists held1. split; try done.
      * change (alter (λ held, held <| references ::= Z.succ |>) h (helds p) !! h' = Some held1).
        by rewrite list_lookup_alter_ne.
      * rewrite El. destruct (Nat.eqb_spec h h'); [done|]. rewrite Nat.add_0_r. exact Hc.
  - change (Forall (λ l, (le_held l < length (alter (λ held, held <| references ::= Z.succ |>) h (helds p)))%nat)
      (leases p ++ [x])).
    rewrite length_alter. apply Forall_app. split; [done|]. apply Forall_singleton. cbn. by eapply lookup_lt_Some.
  - intros l y held1 Hy Er Hh1 Eo. change ((leases p ++ [x]) !! l = Some y) in Hy.
    change (alter (λ held, held <| references ::= Z.succ |>) h (helds p) !! le_held y = Some held1) in Hh1.
    change (owner_pid held1 = registry_pid p) in Eo.
    assert (∃ held2, helds p !! le_held y = Some held2 ∧ state_directory held1 = state_directory held2 ∧
      owner_pid held1 = owner_pid held2) as (held2 & H2 & -> & E2).
    { destruct (decide (h = le_held y)) as [Eh|Hne].
      - rewrite <- Eh in Hh1 |- *. rewrite list_lookup_alter_eq, Hh in Hh1. injection Hh1 as <-. by exists held.
      - rewrite list_lookup_alter_ne in Hh1 by done. by exists held1. }
    apply lookup_app_Some in Hy as [Hy|[_ Hy]]; [by eapply Hlive; [|..|congruence]|].
    apply list_lookup_singleton_Some in Hy as [_ <-]. cbn [le_held x] in *. rewrite Hh in H2. by injection H2 as <-.
  - destruct Hpids as [|Hp]; [by left|right].
    change (Forall (λ held, owner_pid held ≠ pid p) (alter (λ held, held <| references ::= Z.succ |>) h (helds p))).
    by apply Forall_alter.
Qed.

(** A fresh object with its first lease. *)
Lemma counted_fresh p state held : counted p → references held = 1 → state_directory held = state →
  owner_pid held = registry_pid p → pid p = registry_pid p → registry p !! state = None →
  ∀ r p', (_ ← modifies (λ q, q <| helds ::= (λ l, l ++ [held]) |> <| registry ::= <[ state := length (helds p) ]> |>);
           new_lease (length (helds p))) p = (r, p') → counted p'.
Proof.
  intros [He Hl Hlive Hpids] Er Es Eo Ep En r p' [= _ <-]. set (h := length (helds p)).
  set (x := {| le_held := h; le_released := false |}).
  set (p1 := p <| helds ::= (λ l, l ++ [held]) |> <| registry ::= <[ state := h ]> |>).
  assert (∀ h', live (p1 <| leases ::= (λ l, l ++ [x]) |>) h' = (live p h' + if Nat.eqb h h' then 1 else 0)%nat) as El.
  { intros h'. by apply (live_new p1 h h' x). }
  split.
  - intros s h' Hr. change (<[ state := h ]> (registry p) !! s = Some h') in Hr.
    destruct (decide (state = s)) as [<-|Hne].
    + rewrite lookup_insert_eq in Hr. injection Hr as <-. exists held. split; try done.
      * change ((helds p ++ [held]) !! h = Some held). by apply list_lookup_middle.
      * rewrite El, Nat.eqb_refl, (live_none p h Hl) by done. by rewrite Er.
      * by rewrite Er.
    + rewrite lookup_insert_ne in Hr by done. destruct (He _ _ Hr) as [held1 [H1 ?? Hc Hp Hx]].
      assert (h' < h)%nat as Hlt by (by eapply lookup_lt_Some).
      exists held1. split; try done.
      * change ((helds p ++ [held]) !! h' = Some held1). by apply lookup_app_l_Some.
      * rewrite El. destruct (Nat.eqb_spec h h'); [lia|]. by rewrite Nat.add_0_r.
  - change (Forall (λ l, (le_held l < length (helds p ++ [held]))%nat) (leases p ++ [x])). rewrite length_app.
    apply Forall_app. split; [|apply Forall_singleton; cbn; unfold h; lia].
    eapply Forall_impl; [exact Hl|]. intros ? ?. cbn in *. lia.
  - intros l y held1 Hy Ey Hh1 Eo1. change ((leases p ++ [x]) !! l = Some y) in Hy.
    change ((helds p ++ [held]) !! le_held y = Some held1) in Hh1.
    change (<[ state := h ]> (registry p) !! state_directory held1 = Some (le_held y)).
    apply lookup_app_Some in Hy as [Hy|[_ Hy]].
    + assert (le_held y < h)%nat as Hlt by (rewrite Forall_lookup in Hl; by eapply Hl).
      rewrite lookup_app_l in Hh1 by done. pose proof (Hlive _ _ _ Hy Ey Hh1 Eo1) as Hr.
      rewrite lookup_insert_ne; [done|]. intros Eq. rewrite <- Eq, En in Hr. done.
    + apply list_lookup_singleton_Some in Hy as [_ <-]. cbn [le_held x] in *.
      rewrite list_lookup_middle in Hh1 by done. injection Hh1 as Eh. rewrite <- Eh, Es. apply lookup_insert_eq.
  - by left.
Qed.

(** *** Releasing a lease *)

Abbreviation release l := (set_lease l (λ lease, lease <| le_released := true |>)).

Lemma live_release p l x h : leases p !! l = Some x → le_released x = false →
  live p h = (live (p <| leases ::= alter (λ lease, lease <| le_released := true |>) l |>) h +
              if Nat.eqb (le_held x) h then 1 else 0)%nat.
Proof.
  unfold live. change (leases (p <| leases ::= alter (λ lease, lease <| le_released := true |>) l |>))
    with (alter (λ lease, lease <| le_released := true |>) l (leases p)).
  generalize (leases p) as ls. clear p. intros ls. revert l.
  induction ls as [|y ls IH]; intros [|l]; [done|done| |].
  - cbn. intros [= ->] Er. unfold is_live. rewrite Er. cbn.
    destruct (Nat.eqb _ _); cbn; lia.
  - cbn. intros El Er. destruct (is_live h y); cbn; rewrite (IH l El Er); lia.
Qed.

Lemma counted_release p l x r p' : counted p → leases p !! l = Some x → le_released x = false →
  release l p = (r, p') → counted_owing (Some (le_held x)) p'.
Proof.
  intros [He Hl Hlive Hpids] El Er [= _ <-]. split; [| | |exact Hpids].
  - intros state h Hr. destruct (He _ _ Hr) as [held [H1 ?? Hc Hp Hx]].
    change (references held = Z.of_nat (live p h) + 0) in Hc. exists held. split; try done.
    rewrite Hc, (live_release p l x h El Er). destruct (Nat.eqb_spec (le_held x) h) as [->|Hne].
    + rewrite bool_decide_true by done. lia.
    + rewrite bool_decide_false by congruence. lia.
  - change (Forall (λ l, (le_held l < length (helds p))%nat)
      (alter (λ lease, lease <| le_released := true |>) l (leases p))).
    by apply Forall_alter.
  - intros l' y held Hy Ey Hh Eo.
    change (alter (λ lease, lease <| le_released := true |>) l (leases p) !! l' = Some y) in Hy.
    destruct (decide (l = l')) as [<-|Hne].
    + rewrite list_lookup_alter_eq, El in Hy. by injection Hy as <-.
    + rewrite list_lookup_alter_ne in Hy by done. by eapply Hlive.
Qed.

(** An object that is not registered owes nothing. *)
Lemma counted_unregistered h p : counted_owing (Some h) p → (∀ state, registry p !! state ≠ Some h) → counted p.
Proof.
  intros [He Hl Hlive Hpids] Hn. split; [|done..]. intros state h' Hr. destruct (He _ _ Hr) as [held []]. exists held.
  split; try done. rewrite bool_decide_false in * by naive_solver. done.
Qed.

Lemma live_positive p l x : leases p !! l = Some x → le_released x = false → (1 ≤ live p (le_held x))%nat.
Proof.
  unfold live. generalize (leases p) as ls. intros ls. revert l.
  induction ls as [|y ls IH]; intros [|l]; [done|done| |]; cbn.
  - intros [= ->] Ex. unfold is_live at 1. rewrite Ex, Nat.eqb_refl. cbn. lia.
  - intros El Ex. specialize (IH _ El Ex). destruct (is_live _ y); cbn; lia.
Qed.

Lemma live_two p l1 l2 x1 x2 : leases p !! l1 = Some x1 → leases p !! l2 = Some x2 → l1 ≠ l2 →
  le_released x1 = false → le_released x2 = false → le_held x2 = le_held x1 → (1 < live p (le_held x2))%nat.
Proof.
  intros H1 H2 Hne R1 R2 Eh. pose proof (live_release p l1 x1 (le_held x2) H1 R1) as E.
  rewrite Eh, Nat.eqb_refl in E. rewrite Eh, E. rewrite <- Eh.
  match goal with |- context [live ?q _] => assert (1 ≤ live q (le_held x2))%nat; [|lia] end.
  apply (live_positive _ l2); [|done].
  change (alter (λ lease, lease <| le_released := true |>) l1 (leases p) !! l2 = Some x2).
  by rewrite list_lookup_alter_ne.
Qed.

(** The count is brought up to date; at zero the object leaves the registry. *)
Lemma counted_settle p h held : counted_owing (Some h) p → helds p !! h = Some held →
  registry p !! state_directory held = Some h →
  let p' := p <| helds ::= alter (λ held, held <| references ::= Z.pred |>) h |> in
  counted (if references held =? 1 then p' <| registry ::= delete (state_directory held) |> else p').
Proof.
  intros [He Hl Hlive Hpids] Hh Hreg. intros p'.
  assert (Forall (λ l, (le_held l < length (helds p'))%nat) (leases p')) as Hl'.
  { change (helds p') with (alter (λ held, held <| references ::= Z.pred |>) h (helds p)). by rewrite length_alter. }
  assert (∀ state h', registry p !! state = Some h' → h' ≠ h → ∃ held, entry_counted None p' state h' held) as Hother.
  { intros state h' Hr Hne. destruct (He _ _ Hr) as [held1 [H1 ?? Hc Hp Hx]].
    exists held1. split; try done.
    - change (alter (λ held, held <| references ::= Z.pred |>) h (helds p) !! h' = Some held1).
      by rewrite list_lookup_alter_ne.
    - by rewrite bool_decide_false in * by congruence. }
  destruct (He _ _ Hreg) as [held0 [H0 Es Eo Hc Hp Hx]]. rewrite Hh in H0. injection H0 as <-.
  rewrite bool_decide_true in Hc by done.
  assert (pid p' = registry_pid p' ∨ Forall (λ held, owner_pid held ≠ pid p') (helds p')) as Hpids'.
  { destruct Hpids as [|Hf]; [by left|right].
    change (Forall (λ held, owner_pid held ≠ pid p) (alter (λ held, held <| references ::= Z.pred |>) h (helds p))).
    by apply Forall_alter. }
  assert (∀ l x held1, leases p' !! l = Some x → le_released x = false → helds p' !! le_held x = Some held1 →
    owner_pid held1 = registry_pid p' → registry p !! state_directory held1 = Some (le_held x)) as Hlive'.
  { intros l x held1 Hlx Ex Hh1 Eo1.
    change (alter (λ held, held <| references ::= Z.pred |>) h (helds p) !! le_held x = Some held1) in Hh1.
    destruct (decide (h = le_held x)) as [Eh|Hne].
    - rewrite <- Eh in Hh1 |- *. rewrite list_lookup_alter_eq, Hh in Hh1. by injection Hh1 as <-.
    - rewrite list_lookup_alter_ne in Hh1 by done. by eapply Hlive. }
  destruct (Z.eqb_spec (references held) 1) as [E1|E1].
  - split; [|done| |done]; cycle 1.
    { intros l x held1 Hlx Ex Hh1 Eo1. specialize (Hlive' _ _ _ Hlx Ex Hh1 Eo1).
      change (delete (state_directory held) (registry p) !! state_directory held1 = Some (le_held x)).
      rewrite lookup_delete_ne; [done|]. intros Eq. rewrite <- Eq, Hreg in Hlive'. injection Hlive' as ->.
      assert (1 ≤ live p (le_held x))%nat; [|lia]. eapply live_positive; [exact Hlx|exact Ex]. }
    intros state h' Hr.
    change (delete (state_directory held) (registry p) !! state = Some h') in Hr.
    apply lookup_delete_Some in Hr as [Hne Hr].
    destruct (Hother state h' Hr) as [held1 []]; [|by exists held1]. intros ->.
    destruct (He _ _ Hr) as [held1 [H1 E _ _ _ _]]. rewrite Hh in H1. injection H1 as <-. done.
  - split; [|done..]. intros state h' Hr. change (registry p !! state = Some h') in Hr.
    destruct (decide (h' = h)) as [->|Hne]; [|by apply Hother].
    exists (held <| references ::= Z.pred |>). split.
    + change (alter (λ held, held <| references ::= Z.pred |>) h (helds p) !! h = Some (held <| references ::= Z.pred |>)).
      by rewrite list_lookup_alter_eq, Hh.
    + destruct (He _ _ Hr) as [held1 [H1 E _ _ _ _]]. rewrite Hh in H1. by injection H1 as <-.
    + exact Eo.
    + change (Z.pred (references held) = Z.of_nat (live p h) + 0). lia.
    + change (1 <= Z.pred (references held)). lia.
    + intros Em. by destruct E1; apply Hx.
Qed.

(** *** The operations *)

Lemma counted_drop h held found p r p' : counted_owing (Some h) p → helds p !! h = Some held →
  registry p !! state_directory held = Some h → drop_reference h held found p = (r, p') →
  counted p'.
Proof.
  intros Hc Hh Hreg H. pose proof (counted_settle _ _ _ Hc Hh Hreg) as Hs. cbv zeta in Hs.
  unfold drop_reference in H. apply bindM_inv in H as [(u & p1 & [= _ <-] & H)|(e & [=] & _)].
  destruct (references held =? 1); [|by injection H as _ <-]. unfold drop_last_reference in H.
  apply bindM_inv in H as [(u1 & p1 & [= _ <-] & H)|(e & [=] & _)].
  refine (keeps_bind _ _ (keeps_on_os _) _ _ _ _ Hs H). intros ?. solve_keeps.
Qed.

Lemma keeps_close l : keeps (close l).
Proof.
  intros p r p' Hc H. unfold close in H. inv_step H; [|done]. rename a into x.
  destruct (le_released x) eqn:Er; [by injection H as _ <-|].
  apply critical_inv in H as (p1 & H & Ho & Hc1 & El & _). specialize (Hc1 Hc). rewrite <- El in E. clear p Hc El.
  inv_step H; [|done]. inv_step H; [|done]. rename a into held, E0 into Eh. inv_step H; [|done]. clear E0.
  apply bindM_inv in H as [(u & p2 & Erel & H)|(e & [=] & _)].
  pose proof (counted_release _ _ _ _ _ Hc1 E Er Erel) as Hc2.
  assert (registry p2 = registry p1 ∧ registry_pid p2 = registry_pid p1 ∧ helds p2 = helds p1) as (R2 & O2 & H2)
    by (by injection Erel as _ <-).
  rewrite <- H2 in Eh.
  assert (∀ state, registry p2 !! state = Some (le_held x) → state_directory held = state ∧ owner_pid held = pid p1)
    as Hentry.
  { intros state Hs. destruct (co_entries _ _ Hc2 _ _ Hs) as [held1 [Hh1 ? ? _ _ _]]. rewrite Eh in Hh1.
    injection Hh1 as <-. split; congruence. }
  inv_step H; cycle 1.
  { apply require_Err in E0 as [Eo%Z.eqb_neq _]. eapply counted_unregistered; [exact Hc2|]. intros state Hs.
    by destruct (Hentry _ Hs). }
  inv_step H; [|done]. inv_step H; cycle 1.
  { apply require_Err in E1 as [Eo%bool_decide_eq_false _]. eapply counted_unregistered; [exact Hc2|]. intros state Hs.
    destruct (Hentry _ Hs) as [<- _]. done. }
  apply bool_decide_eq_true in E1. apply bindM_inv in H as [(found & p3 & Ev & H)|(e & Ev & _)]; cycle 1.
  { exfalso. unfold on_os, release_check, catch in Ev. repeat case_match; simplify_eq. }
  destruct (counted_on_os _ _ _ _ _ Hc2 Ev) as (Hc3 & H3 & R3). rewrite <- H3 in Eh. rewrite <- R3 in E1.
  apply bindM_inv in H as [(e & p4 & Ed & H)|(e & Ed & _)];
    pose proof (counted_drop _ _ _ _ _ _ Hc3 Eh E1 Ed) as Hc4; [|done].
  destruct e; by injection H as _ <-.
Qed.

Lemma keeps_close_noted l : keeps (close_noted l).
Proof. pose proof (keeps_close l). unfold close_noted. apply keeps_catch; [done|]. intros e k [= <-]. apply keeps_ret. Qed.

Lemma keeps_critical_any {A} (m : P A) : keeps m → keeps (critical m).
Proof. intros Hm. apply keeps_critical. intros p r p' Hc _. by apply Hm. Qed.

Lemma keeps_enter l : keeps (__enter__ l).
Proof. unfold __enter__. apply keeps_critical_any. pose proof (keeps_close_noted l). solve_keeps; done. Qed.

Lemma keeps_lend l b : keeps (lend_descriptor l b).
Proof. unfold lend_descriptor. apply keeps_critical_any. pose proof keeps_borrowed. solve_keeps; done. Qed.

Lemma keeps_return l held fd : keeps (return_descriptor l held fd).
Proof. unfold return_descriptor. pose proof keeps_reset. pose proof keeps_borrowed. solve_keeps; done. Qed.

Lemma acquire_fresh_Ok n p m state fd i s held s' : acquire_fresh n p m state fd i s = (Ok held, s') →
  references held = 1 ∧ state_directory held = state ∧ owner_pid held = p ∧ mode held = m.
Proof.
  unfold acquire_fresh. intros H. inv_eff_step. destruct a as [lock_fd lock_i]. repeat inv_eff_step. done.
Qed.

Lemma acquire_fresh_descriptor n p m state fd i s held s' : acquire_fresh n p m state fd i s = (Ok held, s') →
  state_descriptor held = fd.
Proof. unfold acquire_fresh. intros H. inv_eff_step. destruct a as [lock_fd lock_i]. by repeat inv_eff_step. Qed.

Lemma keeps_acquire n m configured : keeps (_acquire n m configured).
Proof.
  unfold _acquire. apply keeps_critical. intros p r p' Hc Ho H.
  inv_step H; [|done]. apply bindM_inv in H as [(w & p1 & E & H)|(e & E & _)];
    destruct (counted_on_os _ _ _ _ _ Hc E) as (Hc1 & H1 & R1); [|done].
  assert (registry_pid p1 = registry_pid p) as O1 by (by apply on_os_inv in E as (? & _ & ->)).
  destruct w as [[state fd] i]. inv_step H; [|done]. destruct (registry p1 !! state) as [h|] eqn:Er.
  - inv_step H; [|done]. rename a into held.
    apply bindM_inv in H as [(present & p2 & E2 & H)|(e & E2 & _)];
      destruct (counted_on_os _ _ _ _ _ Hc1 E2) as (Hc2 & H2 & R2); [|done].
    destruct (bool_decide_reflect (mode held = SHARED)) as [Em|]; [|by injection H as _ <-].
    destruct (bool_decide _); [|by injection H as _ <-]. cbn [andb] in H.
    inv_step H; [|done]. destruct (co_entries _ _ Hc2 _ _ (eq_trans (f_equal (lookup state) R2) Er)) as [held1 [Hh1 Es _ _ _ _]].
    rewrite <- H2 in E0. rewrite E0 in Hh1. injection Hh1 as <-.
    eapply counted_nested; [exact Hc2|exact E0|exact Em| |exact H]. by rewrite R2, Es.
  - apply bindM_inv in H as [(held & p2 & E2 & H)|(e & E2 & _)];
      destruct (counted_on_os _ _ _ _ _ Hc1 E2) as (Hc2 & H2 & R2); [|done].
    assert (∃ s s', acquire_fresh n (pid p) m state fd i s = (Ok held, s')) as (s & s' & Ef).
    { apply on_os_inv in E2 as (? & ? & _). eauto. }
    apply acquire_fresh_Ok in Ef as (Ef1 & Ef2 & Ef3 & _).
    inv_step H; [|done]. eapply counted_fresh; [exact Hc2|exact Ef1|exact Ef2| | |by rewrite R2|exact H];
      apply on_os_inv in E2 as (? & _ & ->); apply on_os_inv in E as (? & _ & ->); cbn in *; congruence.
Qed.

(** ** What a process may do with its leases *)

Inductive lease_op :=
  | Acquire (patience : nat) (m : MaintenanceLeaseMode) (configured : path)
  | Enter (l : nat)
  | Exit (l : nat) (exception : bool)
  | Close (l : nat)
  | Forget (l : nat)  (* [__del__] *)
  | Lend (l : nat) (require_exclusive : bool)
  | Return (l : nat) (held : _HeldLease) (fd : Z)
  | Fork (child : Z).

(** The process after an operation, however it ended. *)
Definition after (op : lease_op) (p : process) : process :=
  match op with
  | Acquire n m configured => (_acquire n m configured p).2
  | Enter l => (__enter__ l p).2
  | Exit l exception => (__exit__ l exception p).2
  | Close l => (close l p).2
  | Forget l => (close_noted l p).2
  | Lend l require_exclusive => (lend_descriptor l require_exclusive p).2
  | Return l held fd => (return_descriptor l held fd p).2
  | Fork child => (fork child p).2
  end.

Lemma keeps_after {A} (m : P A) p : keeps m → counted p → counted (m p).2.
Proof. intros Hm Hc. destruct (m p) as [r p'] eqn:E. by eapply Hm. Qed.

(** A child's identifier is new: no object carries it. *)
Definition fresh_child (op : lease_op) (p : process) : Prop :=
  match op with Fork child => Forall (λ held, owner_pid held ≠ child) (helds p) | _ => True end.

Inductive reachable (w : sys) (n : Z) : process → Prop :=
  | reachable_new : reachable w n (new_process w n)
  | reachable_after op p : reachable w n p → fresh_child op p → reachable w n (after op p).

Lemma counted_after op p : counted p → fresh_child op p → counted (after op p).
Proof.
  intros Hc Hf. destruct op; cbn [after];
    lazymatch goal with |- counted (fork _ _).2 => idtac | _ => apply keeps_after; [|done] end.
  - apply keeps_acquire.
  - apply keeps_enter.
  - destruct exception; [apply keeps_close_noted|apply keeps_close].
  - apply keeps_close.
  - apply keeps_close_noted.
  - apply keeps_lend.
  - apply keeps_return.
  - destruct (fork child p) as [r p'] eqn:E. unfold fork in E.
    apply bindM_inv in E as [(u & p1 & [= _ <-] & E)|(e & [=] & _)].
    refine (counted_reset (p <| pid := child |>) _ _ _ Hf E). destruct Hc as [He Hl Hlive _]. split; [|done|done|by right].
    intros state h Hr. destruct (He _ _ Hr) as [held []]. by exists held.
Qed.

Lemma reachable_counted w n p : reachable w n p → counted p.
Proof. intros Hr. induction Hr as [|op q Hr IH Hf]; [apply counted_new|by apply counted_after]. Qed.

(** C32. Whatever a process does with its leases, forks included, and however the system
    answers: the object registered for a state directory belongs to this process and
    counts exactly the leases on it that are live, at least one and, if it is exclusive,
    only one; and any two live leases that the process took on one state directory share
    one object, so that both are the same lease or both are shared. *)
Theorem leases_are_counted w n p : reachable w n p →
  (∀ state h, registry p !! state = Some h → ∃ held, helds p !! h = Some held ∧
     state_directory held = state ∧ owner_pid held = registry_pid p ∧
     references held = Z.of_nat (live p h) ∧ (1 ≤ live p h)%nat ∧
     (mode held = EXCLUSIVE → live p h = 1%nat)) ∧
  (∀ l1 l2 x1 x2 held1 held2,
     leases p !! l1 = Some x1 → leases p !! l2 = Some x2 → le_released x1 = false → le_released x2 = false →
     helds p !! le_held x1 = Some held1 → helds p !! le_held x2 = Some held2 →
     owner_pid held1 = registry_pid p → owner_pid held2 = registry_pid p →
     state_directory held1 = state_directory held2 →
     le_held x1 = le_held x2 ∧ (l1 = l2 ∨ mode held1 = SHARED ∧ mode held2 = SHARED)).
Proof.
  intros Hr. destruct (reachable_counted _ _ _ Hr) as [He Hl Hlive _].
  assert (∀ state h, registry p !! state = Some h → ∃ held, helds p !! h = Some held ∧
     state_directory held = state ∧ owner_pid held = registry_pid p ∧
     references held = Z.of_nat (live p h) ∧ (1 ≤ live p h)%nat ∧
     (mode held = EXCLUSIVE → live p h = 1%nat)) as Hentries.
  { intros state h Hs. destruct (He _ _ Hs) as [held [Hh Es Eo Hc Hp Hx]].
    change (references held = Z.of_nat (live p h) + 0) in Hc. exists held. split_and!; [done..|lia|lia|].
    intros Em. specialize (Hx Em). lia. }
  split; [exact Hentries|]. intros l1 l2 x1 x2 held1 held2 H1 H2 R1 R2 Hh1 Hh2 O1 O2 Es.
  pose proof (Hlive _ _ _ H1 R1 Hh1 O1) as Hg1. pose proof (Hlive _ _ _ H2 R2 Hh2 O2) as Hg2.
  rewrite Es, Hg2 in Hg1. injection Hg1 as Eh. split; [done|].
  destruct (decide (l1 = l2)) as [|Hne]; [by left|right].
  rewrite Eh, Hh1 in Hh2. injection Hh2 as <-. destruct (Hentries _ _ Hg2) as (held & Hh & _ & _ & _ & _ & Hx).
  rewrite Eh, Hh1 in Hh. injection Hh as <-. destruct (mode held1) eqn:Em; [done|exfalso]. specialize (Hx eq_refl).
  assert (1 < live p (le_held x2))%nat; [|lia]. eapply live_two; [exact H1|exact H2|..]; done.
Qed.
End kernel.

(** ** A sample: a state directory with its lock file and no quarantine *)

Definition directory_metadata : stat_result :=
  {| st_kind := Directory; st_perm := 420; st_dev := 1; st_ino := 2; st_nlink := 3; st_size := 0; st_mtime_ns := 0; st_ctime_ns := 0 |}.
Definition lock_metadata : stat_result :=
  {| st_kind := Regular; st_perm := 420; st_dev := 1; st_ino := 5; st_nlink := 1; st_size := 0; st_mtime_ns := 0; st_ctime_ns := 0 |}.

Definition lease_files : FileSystem :=
  {| lstat := λ _, Done directory_metadata; scandir := λ _, {| entries := []; scan_error := None |};
     open_file := λ _, OSError (Some ENOENT); resolve := λ _ p, Done p |}.

(** Descriptor 3 is the directory's, 4 the lock file's. *)
Definition lease_kernel : Kernel :=
  {| kernel_open := λ _ l _, Done match l with Rooted _ => 3 | At _ _ => 4 end;
     kernel_create := λ _ _ _, OSError (Some EEXIST); kernel_dup := λ _ _, Done 6;
     kernel_close := λ _ _, Done tt;
     kernel_fstat := λ _ fd, Done (if fd =? 4 then lock_metadata else directory_metadata);
     kernel_stat := λ _ _ name, if str_eqb name MAINTENANCE_LOCK_FILENAME then Done lock_metadata
                                else OSError (Some ENOENT);
     kernel_scan := λ _ _, {| entries := []; scan_error := None |}; kernel_fsync := λ _ _, Done tt;
     kernel_flock := λ _ _ _, Done tt; kernel_unlock := λ _ _, Done tt |}.

Definition lease_world : World := frozen lease_files.
#[local] Existing Instance lease_world.
#[local] Existing Instance lease_kernel.

Definition sample_acquire : lease_op := Acquire 1 SHARED ["state"].
Definition one_lease : process := Eval vm_compute in after sample_acquire (new_process start 7).
Definition two_leases : process := Eval vm_compute in after sample_acquire one_lease.

Lemma one_lease_acquired : _acquire 1 SHARED ["state"] (new_process start 7) = (Ok 0%nat, one_lease).
Proof. vm_compute. reflexivity. Qed.
Lemma two_leases_reachable : reachable start 7 two_leases.
Proof.
  assert (after sample_acquire (after sample_acquire (new_process start 7)) = two_leases) as <- by (vm_compute; reflexivity).
  by apply reachable_after; [apply reachable_after; [apply reachable_new|]|].
Qed.

(** The same object counts two leases. *)
Lemma leases_are_counted_witness : registry two_leases !! ["state"] = Some 0%nat ∧ live two_leases 0 = 2%nat ∧
  ∃ held, helds two_leases !! 0%nat = Some held ∧ references held = 2.
Proof.
  assert (registry two_leases !! ["state"] = Some 0%nat) as E by (vm_compute; reflexivity).
  assert (live two_leases 0 = 2%nat) as El by (vm_compute; reflexivity). split; [exact E|]. split; [exact El|].
  destruct (proj1 (leases_are_counted _ _ _ two_leases_reachable) _ _ E) as (held & Hh & _ & _ & Hr & _).
  exists held. split; [exact Hh|]. rewrite Hr, El. reflexivity.
Defined.
