(* ===== verification/LeaseEffects.v ===== *)
(** * What taking and giving up a lease does to the machine (src/guildmind/storage/maintenance.py)

    The operations on leases open, lock, sync and close descriptors and create their lock
    file; they touch nothing else, whatever they raise. *)

From coqutil Require Import Datatypes.RecordSettersUsingExistingGetters.
From S2P Require Import Prelude Loop Effects PyStr Files Descriptors Disk Tame Maintenance MaintenanceFacts.

Local Open Scope Z_scope.

(** The effects and the exceptions of lease operations. *)
Definition leasing (e : effect) : Prop :=
  match e with
  | OpenFd _ | CloseFd _ | FsyncFd _ | LockFd _ _ | UnlockFd _ => True
  | CreateFd _ name _ => name = MAINTENANCE_LOCK_FILENAME
  | _ => False
  end.
Definition lease_exn (e : exn) : Prop :=
  match e with MaintenanceBusyError _ | MaintenanceIntegrityError _ _ | OSException _ | AssertionError _ => True | _ => False end.

Section lease.
Context {kernel : Kernel} {world : World}.

Abbreviation meek := (tame leasing lease_exn).

Ltac meek_call := apply tame_system; intros ? ? ?; repeat constructor.
Lemma meek_open l flags : meek (os_open l flags).
Proof. meek_call. Qed.
Lemma meek_create d : meek (os_create d MAINTENANCE_LOCK_FILENAME).
Proof. meek_call. Qed.
Lemma meek_dup fd : meek (os_dup fd).
Proof. meek_call. Qed.
Lemma meek_fstat fd : meek (os_fstat fd).
Proof. meek_call. Qed.
Lemma meek_stat fd name : meek (os_stat fd name).
Proof. meek_call. Qed.
Lemma meek_fsync fd : meek (os_fsync fd).
Proof. meek_call. Qed.
Lemma meek_flock fd b : meek (flock fd b).
Proof. meek_call. Qed.
Lemma meek_unlock fd : meek (unlock fd).
Proof. meek_call. Qed.
Lemma meek_os_close fd : meek (os_close fd).
Proof.
  apply tame_intro. intros s r s' [= <- <-]. split; [|apply fails_Ok]. split; [simpl; lia|].
  exists [CloseFd fd]. split; [done|by repeat constructor].
Qed.
Lemma meek_scandir fd : meek (os_scandir fd).
Proof.
  apply tame_intro. intros s r s' [= <- <-]. split; [|apply fails_Ok]. split; [simpl; lia|].
  exists []. by rewrite app_nil_r.
Qed.
Lemma meek_raise_os {A} (o : os_result A) : meek (raise_os o).
Proof. destruct o; [apply tame_ret|]. by apply tame_lift, fails_Err. Qed.
Lemma meek_trusted {A} r d (o : os_result A) : meek (trusted r d o).
Proof. destruct o; [apply tame_ret|]. by apply tame_lift, fails_Err. Qed.
Lemma meek_intact b r d : meek (intact b r d).
Proof. by apply tame_lift, fails_require. Qed.
#[local] Hint Resolve meek_open meek_create meek_dup meek_fstat meek_stat meek_fsync meek_flock meek_unlock meek_os_close
  meek_scandir meek_raise_os meek_trusted meek_intact : tame.

(** Taking a program apart, raising included. *)
Ltac solve_meek :=
  solve_tame; repeat match goal with |- lease_exn (if ?b then _ else _) => destruct b end; try exact I.

Lemma meek_close fd : meek (close_fd fd).
Proof. unfold close_fd. solve_meek. Qed.
#[local] Hint Resolve meek_close : tame.
Lemma meek_close_on_error {A} fd (m : Sys A) : meek m → meek (close_on_error fd m).
Proof. intros H. unfold close_on_error. apply tame_finally; [done|]. intros [|]; solve_meek. Qed.
Lemma meek_unlock_quietly fd : meek (_unlock_without_raising fd).
Proof. unfold _unlock_without_raising. solve_meek. Qed.
Lemma meek_closes fds : meek (_close_descriptors fds).
Proof. induction fds as [|fd fds IH]; cbn [_close_descriptors]; solve_meek. Qed.
#[local] Hint Resolve meek_unlock_quietly meek_closes : tame.

Lemma integrity_meek r d e : lease_exn e → lease_exn (_integrity_error r d e).
Proof. by destruct e. Qed.

Lemma meek_state_path state i : meek (_require_state_path_identity state i).
Proof. unfold _require_state_path_identity. solve_meek. Qed.
Lemma meek_lock_path fd i : meek (_require_lock_path_identity fd i).
Proof. unfold _require_lock_path_identity. solve_meek. Qed.
Lemma meek_entry fd name : meek (_require_exact_fence_entry_name fd name).
Proof. unfold _require_exact_fence_entry_name. solve_meek. Qed.
Lemma meek_fstat_identity fd : meek (fstat_identity fd).
Proof. unfold fstat_identity. solve_meek. Qed.
Lemma meek_stat_identity fd name : meek (stat_identity fd name).
Proof. unfold stat_identity. solve_meek. Qed.
Lemma meek_regular i r : meek (_require_regular_single_link i r).
Proof. apply meek_intact. Qed.
#[local] Hint Resolve meek_state_path meek_lock_path meek_entry meek_fstat_identity meek_stat_identity meek_regular : tame.

Lemma meek_open_state configured : meek (_open_state_directory configured).
Proof. unfold _open_state_directory. cbv zeta. solve_meek. apply meek_close_on_error. solve_meek. Qed.
Lemma meek_lock_round fd : meek (lock_round fd).
Proof. unfold lock_round. solve_meek. Qed.
Lemma meek_open_lock n fd : meek (open_lock n fd).
Proof. induction n as [|n IH]; cbn [open_lock]; [by apply tame_lift, fails_Err|]. solve_meek. apply meek_lock_round. Qed.
Lemma meek_open_or_create n fd : meek (_open_or_create_lock n fd).
Proof.
  unfold _open_or_create_lock. apply tame_seq; [apply meek_open_lock|intros [lock observed]].
  apply tame_seq; [apply meek_close_on_error|intros; apply tame_ret]. solve_meek.
Qed.
Lemma meek_verify n h : meek (_verify_held_lease n h).
Proof. unfold _verify_held_lease. solve_meek. Qed.
Lemma meek_enter fd c : meek (enter_fence_directory fd c).
Proof. unfold enter_fence_directory. solve_meek. apply meek_close_on_error. solve_meek. Qed.
Lemma meek_marker fd : meek (fence_marker_present fd).
Proof. unfold fence_marker_present. solve_meek. Qed.
Lemma meek_walk components fd : meek (walk_fence components fd).
Proof.
  revert fd. induction components as [|c components IH]; intros fd; cbn [walk_fence]; solve_meek;
    first [apply meek_marker|apply meek_enter|apply IH].
Qed.
Lemma meek_present h : meek (_quarantine_marker_present h).
Proof. unfold _quarantine_marker_present. solve_meek. apply meek_walk. Qed.
#[local] Hint Resolve meek_open_state meek_open_or_create meek_verify meek_present : tame.

Lemma meek_or_abandon {A} lock_fd locked state_fd (m : Sys A) : meek m → meek (or_abandon lock_fd locked state_fd m).
Proof.
  intros Hm. apply tame_cleanup; [done|]. intros [a|e] He; [apply tame_ret|]. unfold abandon. solve_meek.
  by apply integrity_meek, He.
Qed.
Lemma meek_acquire_fresh n p m state fd i : meek (acquire_fresh n p m state fd i).
Proof.
  unfold acquire_fresh. cbv zeta. apply tame_seq; [apply meek_or_abandon; solve_meek|intros [lock lock_i]].
  apply tame_seq; [apply meek_or_abandon; solve_meek|intros _].
  apply tame_seq; [apply meek_or_abandon; solve_meek|intros _; apply tame_ret].
Qed.
Lemma meek_validated {A} r d (m : Sys A) : meek m → meek (exceptM (_integrity_error r d) m).
Proof. intros H. apply tame_exceptM; [done|]. intros e. apply integrity_meek. Qed.
#[local] Hint Resolve meek_acquire_fresh : tame.

(** ** In a process *)

(** The machine of a process went on with lease effects, and what was raised is a lease's. *)
Definition gentle {A} (m : P A) : Prop := ∀ p r p', m p = (r, p') →
  added leasing (machine_of p) (machine_of p') ∧ fails lease_exn r.

Lemma gentle_ret {A} (a : A) : gentle (mret a).
Proof. intros p r p' [= <- <-]. split; [apply added_refl|apply fails_Ok]. Qed.
Lemma gentle_lift {A} (r : result A) : fails lease_exn r → gentle (lift r).
Proof. intros Hr p r' p' [= <- <-]. split; [apply added_refl|done]. Qed.
Lemma gentle_gets {A} (f : process → A) : gentle (gets f).
Proof. intros p r p' [= <- <-]. split; [apply added_refl|apply fails_Ok]. Qed.
Lemma gentle_modifies f : (∀ p, machine_of (f p) = machine_of p) → gentle (modifies f).
Proof. intros Hf p r p' [= <- <-]. rewrite Hf. split; [apply added_refl|apply fails_Ok]. Qed.
Lemma gentle_on_os {A} (m : Sys A) : meek m → gentle (on_os m).
Proof. intros Hm p r p' (s' & H & ->)%on_os_inv. by eapply tame_run in H. Qed.
Lemma gentle_bind {A B} (m : P A) (f : A → P B) : gentle m → (∀ a, gentle (f a)) → gentle (m ≫= f).
Proof.
  intros Hm Hf p r p' [(a & p1 & H1 & H2)|(e & H1 & ->)]%bindM_inv; destruct (Hm _ _ _ H1) as [Ha He].
  - destruct (Hf _ _ _ _ H2). split; [by eapply added_trans|done].
  - split; [done|]. apply fails_Err. by apply He.
Qed.
Lemma gentle_catch {A} (m : P A) h : gentle m → (∀ e k, lease_exn e → h e = Some k → gentle k) → gentle (catch m h).
Proof.
  intros Hm Hh p r p'. unfold catch. destruct (m p) as [[a|e] p1] eqn:E; destruct (Hm _ _ _ E) as [Ha He].
  - intros [= <- <-]. split; [done|apply fails_Ok].
  - destruct (h e) as [k|] eqn:Ek; [|by intros [= <- <-]]. intros H.
    destruct (Hh _ _ (He _ eq_refl) Ek _ _ _ H). split; [by eapply added_trans|done].
Qed.

Lemma gentle_object {A} (o : option A) : gentle (object o).
Proof. by apply gentle_lift, fails_of_option. Qed.
Lemma gentle_demand b r d : gentle (demand_lease b r d).
Proof. by apply gentle_lift, fails_require. Qed.
Lemma gentle_raise {A} e : lease_exn e → gentle (lift (Err e) : P A).
Proof. intros. by apply gentle_lift, fails_Err. Qed.
Lemma gentle_set_held h f : gentle (set_held h f).
Proof. by apply gentle_modifies. Qed.
Lemma gentle_set_lease l f : gentle (set_lease l f).
Proof. by apply gentle_modifies. Qed.
Lemma gentle_new h : gentle (new_lease h).
Proof. intros p r p' [= <- <-]. split; [apply added_refl|apply fails_Ok]. Qed.

#[local] Ltac solve_gentle :=
  repeat match goal with
  | |- gentle (mbind _ _) => apply gentle_bind; [|intros ?]
  | |- gentle (mret _) => apply gentle_ret
  | |- gentle (gets _) => apply gentle_gets
  | |- gentle (modifies _) => by apply gentle_modifies
  | |- gentle (on_os _) => apply gentle_on_os; solve_meek
  | |- gentle (object _) => apply gentle_object
  | |- gentle (demand_lease _ _ _) => apply gentle_demand
  | |- gentle (set_held _ _) => apply gentle_set_held
  | |- gentle (set_lease _ _) => apply gentle_set_lease
  | |- gentle (new_lease _) => apply gentle_new
  | |- gentle (lift (Err _)) => apply gentle_raise
  | |- gentle (lift (require _ _)) => apply gentle_lift, fails_require; exact I
  | |- gentle (if ?x then _ else _) => destruct x
  | |- gentle (match ?x with _ => _ end) => destruct x
  end; try exact I.

Lemma gentle_held h : gentle (held_object h).
Proof. unfold held_object. solve_gentle. Qed.
Lemma gentle_lease l : gentle (lease_object l).
Proof. unfold lease_object. solve_gentle. Qed.
Lemma gentle_child : gentle _reset_registry_in_child.
Proof.
  unfold _reset_registry_in_child. solve_gentle; apply tame_forM; intros x _; unfold close_quietly; solve_meek.
Qed.
Lemma gentle_reset : gentle _reset_registry_after_fork.
Proof. unfold _reset_registry_after_fork. solve_gentle. apply gentle_child. Qed.
Lemma gentle_critical {A} (m : P A) : gentle m → gentle (critical m).
Proof. intros H. unfold critical. do 2 (apply gentle_bind; [apply gentle_reset|intros _]). done. Qed.

Lemma gentle_acquire n m configured : gentle (_acquire n m configured).
Proof.
  unfold _acquire. apply gentle_critical. solve_gentle; try apply gentle_held.
  apply meek_validated. solve_meek.
Qed.
Lemma meek_release_check n held : meek (release_check n held).
Proof.
  unfold release_check. apply tame_catch; [solve_meek|]. intros e k [= <-]. apply tame_ret.
Qed.

(** What an exit finds wrong is a lease's exception. *)
Definition finds (m : P (option exn)) : Prop := gentle m ∧ ∀ p e p', m p = (Ok (Some e), p') → lease_exn e.
Definition is_found (o : option exn) : Prop := ∀ e, o = Some e → lease_exn e.

Lemma finds_ret o : is_found o → finds (mret o).
Proof. intros Ho. split; [apply gentle_ret|]. intros p e p' [= -> _]. by apply Ho. Qed.
Lemma finds_bind {A} (m : P A) f : gentle m → (∀ a, finds (f a)) → finds (m ≫= f).
Proof.
  intros Hm Hf. split; [apply gentle_bind; [done|apply Hf]|]. intros p e p' (a & p1 & _ & H)%bindM_Ok.
  by eapply (Hf a).
Qed.
Lemma gentle_found {A} (m : P (option exn)) (f : option exn → P A) : finds m →
  (∀ o, is_found o → gentle (f o)) → gentle (m ≫= f).
Proof.
  intros [Hm Hf] Hk p r p' [(o & p1 & H1 & H2)|(e & H1 & ->)]%bindM_inv; destruct (Hm _ _ _ H1) as [Ha He].
  - assert (is_found o) as Ho by (intros e ->; by eapply Hf). destruct (Hk o Ho _ _ _ H2). split; [by eapply added_trans|done].
  - split; [done|]. apply fails_Err. by apply He.
Qed.

Lemma finds_release n held : finds (on_os (release_check n held)).
Proof.
  split; [apply gentle_on_os, meek_release_check|]. intros p e p' (s' & H & _)%on_os_inv. revert H. unfold release_check.
  match goal with |- catch ?m _ _ = _ → _ => set (body := m) end.
  assert (meek body) as Hb by (unfold body; solve_meek). intros [H|(e' & s1 & k & H & [= <-] & H2)]%catch_Ok.
  - unfold body in H. do 2 (apply bindM_Ok in H as (? & ? & _ & H)). by apply retM_Ok in H as [[=] _].
  - apply retM_Ok in H2 as [[= ->] _]. apply integrity_meek. by apply (tame_run _ _ _ _ _ _ Hb H).
Qed.
Lemma finds_drop h held found : is_found found → finds (drop_reference h held found).
Proof.
  intros Hf. unfold drop_reference, drop_last_reference. apply finds_bind; [solve_gentle|intros _].
  destruct (_ =? _); [|by apply finds_ret]. do 3 (apply finds_bind; [solve_gentle|intros ?]). apply finds_ret.
  intros e. destruct found as [e'|]; [by intros [= <-]; apply Hf|]. destruct a0; [destruct a1|]; by intros [= <-].
Qed.
Lemma gentle_close l : gentle (close l).
Proof.
  unfold close. apply gentle_bind; [apply gentle_lease|intros lease]. destruct (le_released lease); [apply gentle_ret|].
  apply gentle_critical. do 7 (apply gentle_bind; [first [apply gentle_held|solve_gentle]|intros ?]).
  apply gentle_found; [apply finds_release|intros found Hf]. apply gentle_found; [by apply finds_drop|intros [e|] Ho].
  - by apply gentle_raise, Ho.
  - apply gentle_ret.
Qed.
Lemma gentle_close_noted l : gentle (close_noted l).
Proof. apply gentle_catch; [apply gentle_close|]. intros e k _ [= <-]. apply gentle_ret. Qed.
Lemma gentle_exit l b : gentle (__exit__ l b).
Proof. destruct b; [apply gentle_close_noted|apply gentle_close]. Qed.

Lemma gentle_enter l : gentle (__enter__ l).
Proof.
  unfold __enter__. apply gentle_critical. cbv zeta. solve_gentle; try first [apply gentle_held|apply gentle_lease].
  apply gentle_catch; [apply gentle_on_os; solve_meek; apply meek_validated; solve_meek|].
  intros e k He [= <-]. apply gentle_bind; [apply gentle_close_noted|intros _; by apply gentle_raise].
Qed.
Lemma gentle_lend l b : gentle (lend_descriptor l b).
Proof.
  unfold lend_descriptor. apply gentle_critical. cbv zeta. solve_gentle; try first [apply gentle_held|apply gentle_lease].
  - apply meek_validated. solve_meek.
  - apply integrity_meek. match goal with X : fails _ (Err e) |- _ => by apply X end.
Qed.
Lemma finds_found (m : P (option exn)) f : finds m → (∀ o, is_found o → finds (f o)) → finds (m ≫= f).
Proof.
  intros Hm Hf. split; [apply gentle_found; [done|apply Hf]|]. intros p e p' (o & p1 & H1 & H2)%bindM_Ok.
  assert (is_found o) as Ho by (intros e' ->; by eapply Hm). by eapply (Hf o Ho).
Qed.
Lemma finds_return l held fd : finds (return_descriptor l held fd).
Proof.
  unfold return_descriptor. do 2 (apply finds_bind; [first [apply gentle_reset|solve_gentle]|intros ?]).
  apply finds_found.
  - destruct a0; [|by apply finds_ret]. apply finds_bind; [solve_gentle|intros o]. apply finds_found.
    + destruct o; [|apply finds_ret; by intros e [= <-]]. destruct (negb _); [apply finds_ret; by intros e [= <-]|].
      apply finds_bind; [solve_gentle|intros []]; apply finds_ret; by intros e [= <-].
    + intros failure Ho. apply finds_bind; [solve_gentle|intros _]. by apply finds_ret.
  - intros failure Ho. apply finds_bind; [solve_gentle|intros _]. by apply finds_ret.
Qed.

(** Whatever a process does with its leases, time does not run back. *)
Lemma later_after op p : (moment (machine_of p) ≤ moment (machine_of (after op p)))%nat.
Proof.
  assert (∀ (A : Type) (m : P A), gentle m → (moment (machine_of p) ≤ moment (machine_of (m p).2))%nat) as Hg.
  { intros A m Hm. destruct (m p) as [r p'] eqn:E. by destruct (Hm _ _ _ E) as [[? _] _]. }
  destruct op; cbn [after]; apply Hg;
    first [ apply gentle_acquire | apply gentle_enter | apply gentle_exit | apply gentle_close | apply gentle_close_noted
          | apply gentle_lend | apply finds_return | idtac ].
  unfold fork. apply gentle_bind; [by apply gentle_modifies|intros _; apply gentle_child].
Qed.
End lease.
