(* ===== verification/LeaseFacts.v ===== *)
(** * Leases and the system (src/guildmind/storage/maintenance.py)

    What acquiring and closing a lease opens, closes and locks: the effects of every
    program are counted per descriptor, for each of its outcomes, and the calls behind a
    returned lease are exhibited with their moments. *)

From coqutil Require Import Datatypes.RecordSettersUsingExistingGetters.
From S2P Require Import Prelude Loop Effects PyStr Files Descriptors Disk Tame Maintenance MaintenanceFacts LeaseEffects.

Local Open Scope Z_scope.

(** ** Descriptors *)

(** How many more times the log opens a descriptor than it closes it. *)
Definition opens (fd : Z) (e : effect) : Z :=
  match e with
  | OpenFd fd' | CreateFd _ _ fd' => if fd =? fd' then 1 else 0
  | CloseFd fd' => if fd =? fd' then -1 else 0
  | _ => 0
  end.
Fixpoint net (fd : Z) (log : list effect) : Z :=
  match log with [] => 0 | e :: log => opens fd e + net fd log end.

Lemma net_app fd l1 l2 : net fd (l1 ++ l2) = net fd l1 + net fd l2.
Proof. induction l1 as [|e l1 IH]; cbn [net app]; lia. Qed.

(** One, if it is this descriptor. *)
Definition one (fd fd' : Z) : Z := if fd' =? fd then 1 else 0.

(** A call that closes a descriptor failed, at a moment between two. *)
Definition failed_close {kernel : Kernel} (from to : nat) : Prop :=
  ∃ t fd n, (from ≤ t < to)%nat ∧ kernel_close t fd = OSError n.

Section leaving.
Context {kernel : Kernel}.

Lemma failed_close_mono a b a' b' : failed_close a b → (a' ≤ a)%nat → (b ≤ b')%nat → failed_close a' b'.
Proof. intros (t & fd & n & ? & ?) ? ?. exists t, fd, n. split; [lia|done]. Qed.

(** What a log shows of the descriptors, and its window of moments: the balance [δ], or the
    system failed to close a descriptor. *)
Definition balanced (from to : nat) (δ : Z → Z) (old log : list effect) : Prop := (from ≤ to)%nat ∧
  ∃ new, log = old ++ new ∧ ((∀ fd, net fd new = δ fd) ∨ failed_close from to).

Lemma balanced_ext a b δ γ old log : balanced a b δ old log → (∀ fd, δ fd = γ fd) → balanced a b γ old log.
Proof.
  intros (? & new & L & N) Hd. split; [done|]. exists new. split; [done|]. destruct N as [N|N]; [left|by right].
  intros fd. by rewrite N.
Qed.
Lemma balanced_trans a b c δ γ η l1 l2 l3 : balanced a b δ l1 l2 → balanced b c γ l2 l3 → (∀ fd, δ fd + γ fd = η fd) →
  balanced a c η l1 l3.
Proof.
  intros (? & n1 & L1 & N1) (? & n2 & L2 & N2) Hd. split; [lia|]. exists (n1 ++ n2). rewrite L2, L1, app_assoc.
  split; [done|]. destruct N1 as [N1|N1]; [|right; eapply failed_close_mono; [exact N1|lia|lia]].
  destruct N2 as [N2|N2]; [|right; eapply failed_close_mono; [exact N2|lia|lia]].
  left. intros fd. by rewrite net_app, N1, N2.
Qed.
Lemma balanced_new a b δ new old : (a ≤ b)%nat → (∀ fd, net fd new = δ fd) → balanced a b δ old (old ++ new).
Proof. intros Hab H. split; [done|]. exists new. split; [done|by left]. Qed.
Lemma balanced_none a b δ old : (a ≤ b)%nat → (∀ fd, δ fd = 0) → balanced a b δ old old.
Proof. intros Hab H. split; [done|]. exists []. rewrite app_nil_r. split; [done|by left]. Qed.

(** How many more descriptors a program leaves open than it found, for each outcome, unless
    the system failed to close one. *)
Definition leaves {A} (δ : result A → Z → Z) (m : Sys A) : Prop := ∀ s r s', m s = (r, s') →
  balanced (moment s) (moment s') (δ r) (effects s) (effects s').

Abbreviation neutral m := (leaves (λ _ _, 0) m).

Lemma leaves_ext {A} (δ γ : result A → Z → Z) m : leaves δ m → (∀ r fd, δ r fd = γ r fd) → leaves γ m.
Proof. intros Hm Hd s r s' E. by eapply balanced_ext; [by apply Hm|]. Qed.

Lemma leaves_quiet {A} (m : Sys A) : (∀ s, (moment s ≤ moment (m s).2)%nat ∧ effects (m s).2 = effects s) → neutral m.
Proof. intros H s r s' E. specialize (H s). rewrite E in H. destruct H as [? H]. cbn in H. rewrite H. by apply balanced_none. Qed.
Lemma leaves_ret {A} (a : A) : neutral (mret a).
Proof. by apply leaves_quiet. Qed.
Lemma leaves_return {A} (δ : result A → Z → Z) a : (∀ fd, δ (Ok a) fd = 0) → leaves δ (mret a).
Proof. intros H s r s' [= <- <-]. by apply balanced_none. Qed.
Lemma leaves_raise {A} (δ : result A → Z → Z) e : (∀ fd, δ (Err e) fd = 0) → leaves δ (lift (Err e)).
Proof. intros H s r s' [= <- <-]. by apply balanced_none. Qed.
Lemma leaves_lift {A} (r : result A) : neutral (lift r).
Proof. by apply leaves_quiet. Qed.
Lemma leaves_intact b r d : neutral (intact b r d).
Proof. apply leaves_lift. Qed.
Lemma leaves_trusted {A} r d (o : os_result A) : neutral (trusted r d o).
Proof. destruct o; [apply leaves_ret|apply leaves_lift]. Qed.
Lemma leaves_raise_os {A} (o : os_result A) : neutral (raise_os o).
Proof. destruct o; [apply leaves_ret|apply leaves_lift]. Qed.

(** What [m] leaves is the debt of what follows it. *)
Lemma leaves_bind {A B} (δ : result A → Z → Z) (γ : result B → Z → Z) (m : Sys A) (f : A → Sys B) :
  leaves δ m → (∀ e fd, δ (Err e) fd = γ (Err e) fd) →
  (∀ a, leaves (λ r fd, γ r fd - δ (Ok a) fd) (f a)) → leaves γ (m ≫= f).
Proof.
  intros Hm He Hf s r s' [(a & s1 & E1 & E2)|(e & E & ->)]%bindM_inv.
  - eapply balanced_trans; [exact (Hm _ _ _ E1)|exact (Hf _ _ _ _ E2)|]. intros fd. simpl. lia.
  - eapply balanced_ext; [exact (Hm _ _ _ E)|apply He].
Qed.

Lemma leaves_after {A B} (γ : result B → Z → Z) (m : Sys A) (f : A → Sys B) :
  neutral m → (∀ e fd, γ (Err e) fd = 0) → (∀ a, leaves γ (f a)) → leaves γ (m ≫= f).
Proof.
  intros Hm He Hf. eapply leaves_bind; [exact Hm|done|]. intros a. eapply leaves_ext; [apply Hf|]. intros. simpl. lia.
Qed.

Lemma leaves_finally {A} (δ γ : result A → Z → Z) (m : Sys A) c : leaves δ m →
  (∀ r, leaves (λ r' fd, γ (match r' with Ok _ => r | Err e => Err e end) fd - δ r fd) (c r)) →
  leaves γ (finally m c).
Proof.
  intros Hm Hc s r s'. unfold finally. destruct (m s) as [r1 s1] eqn:E1. destruct (c r1 s1) as [r2 s2] eqn:E2.
  intros H. assert (s' = s2 ∧ r = match r2 with Ok _ => r1 | Err e => Err e end) as [-> ->].
  { destruct r2; by injection H as <- <-. }
  eapply balanced_trans; [exact (Hm _ _ _ E1)|exact (Hc _ _ _ _ E2)|]. intros fd. simpl. lia.
Qed.

(** A program that never raises: what it would leave then does not matter. *)
Definition returns {A} (m : Sys A) : Prop := ∀ s, ∃ a s', m s = (Ok a, s').

Lemma leaves_bind_returns {A B} (δ : result A → Z → Z) (γ : result B → Z → Z) (m : Sys A) (f : A → Sys B) :
  returns m → leaves δ m → (∀ a, leaves (λ r fd, γ r fd - δ (Ok a) fd) (f a)) → leaves γ (m ≫= f).
Proof.
  intros Ht Hm Hf. eapply leaves_bind with (δ := λ r fd, match r with Ok _ => δ r fd | Err e => γ (Err e) fd end);
    [|done|exact Hf].
  intros s r s' E. destruct (Ht s) as (a & s1 & E1). rewrite E1 in E. injection E as <- <-. by apply Hm.
Qed.

Lemma leaves_exceptM {A} f (m : Sys A) : neutral m → neutral (exceptM f m).
Proof.
  intros Hm s r s'. unfold exceptM. destruct (m s) as [[a|e] s1] eqn:E; intros [= <- <-]; exact (Hm _ _ _ E).
Qed.
End leaving.
Abbreviation neutral m := (leaves (λ _ _, 0) m).

Section descriptors.
Context {world : World} {kernel : Kernel}.

Lemma leaves_call {A} (f : FileSystem → A) : neutral (call f).
Proof. apply leaves_quiet. intros s. simpl. split; [lia|done]. Qed.
Lemma leaves_silent {A} (f : nat → os_result A) : neutral (system f (λ _, [])).
Proof. apply leaves_quiet. intros s. unfold system. cbn. split; [lia|]. destruct (f _); [by rewrite app_nil_r|done]. Qed.
Lemma leaves_logged {A} (δ : result (os_result A) → Z → Z) (f : nat → os_result A) log :
  (∀ a fd, net fd (log a) = δ (Ok (Done a)) fd) → (∀ n fd, δ (Ok (OSError n)) fd = 0) → leaves δ (system f log).
Proof.
  intros H1 H2 s r s' [= <- <-]. cbn [moment effects]. destruct (f _); [apply balanced_new|apply balanced_none]; auto with lia.
Qed.
Lemma leaves_fsync fd : neutral (os_fsync fd).
Proof. by apply leaves_logged. Qed.
Lemma leaves_flock fd b : neutral (flock fd b).
Proof. by apply leaves_logged. Qed.
Lemma leaves_unlock fd : neutral (unlock fd).
Proof. by apply leaves_logged. Qed.

(** What an opening call leaves. *)
Definition opened (r : result (os_result Z)) : Z → Z := match r with Ok (Done fd) => one fd | _ => λ _, 0 end.

Lemma leaves_open l flags : leaves opened (os_open l flags).
Proof. apply leaves_logged; [|done]. intros a fd0. cbn. unfold one. lia. Qed.
Lemma leaves_create d name : leaves opened (os_create d name).
Proof. apply leaves_logged; [|done]. intros a fd0. cbn. unfold one. lia. Qed.
Lemma leaves_dup fd : leaves opened (os_dup fd).
Proof. apply leaves_logged; [|done]. intros a fd0. cbn. unfold one. lia. Qed.
Lemma leaves_close fd : leaves (λ _ fd', - one fd fd') (os_close fd).
Proof.
  intros s r s' [= <- <-]. cbn [moment effects]. apply balanced_new; [lia|]. intros fd'. cbn. unfold one.
  destruct (_ =? _); lia.
Qed.
Lemma leaves_close_fd fd : leaves (λ _ fd', - one fd fd') (close_fd fd).
Proof.
  unfold close_fd. eapply leaves_bind; [apply leaves_close|done|]. intros o.
  eapply leaves_ext; [apply leaves_raise_os|]. intros. simpl. lia.
Qed.

(** Where a program that opens something is used: it must be closed by what follows. *)
Lemma leaves_opened {B} (γ : result B → Z → Z) m f : leaves opened m → (∀ e fd, γ (Err e) fd = 0) →
  (∀ fd, leaves (λ r fd', γ r fd' - one fd fd') (f (Done fd))) → (∀ n, leaves γ (f (OSError n))) →
  leaves γ (m ≫= f).
Proof.
  intros Hm He Hd Hn. eapply leaves_bind; [exact Hm|by intros; rewrite He|]. intros [fd|n]; [apply Hd|].
  eapply leaves_ext; [apply Hn|]. intros. simpl. lia.
Qed.

Create HintDb leaves.
#[local] Hint Resolve leaves_ret leaves_lift leaves_intact leaves_trusted leaves_raise_os leaves_call leaves_silent
  leaves_fsync leaves_flock leaves_unlock leaves_exceptM : leaves.

(** A program whose every call is neutral. *)
Ltac solve_neutral :=
  repeat lazymatch goal with
  | |- leaves _ (mbind _ _) => apply leaves_after; [|done|intros ?]
  | |- leaves _ (match ?x with _ => _ end) => destruct x
  | |- leaves _ (exceptM _ _) => apply leaves_exceptM
  | |- leaves _ _ => solve [auto with leaves nocore]
  end.

Lemma leaves_state_path p i : neutral (_require_state_path_identity p i).
Proof. unfold _require_state_path_identity. solve_neutral. Qed.
Lemma leaves_stat d name : neutral (os_stat d name).
Proof. apply leaves_silent. Qed.
Lemma leaves_fstat fd : neutral (os_fstat fd).
Proof. apply leaves_silent. Qed.
Lemma leaves_scandir fd : neutral (os_scandir fd).
Proof. apply leaves_quiet. intros s. simpl. split; [lia|done]. Qed.
#[local] Hint Resolve leaves_state_path leaves_stat leaves_fstat leaves_scandir : leaves.
Lemma leaves_lock_path fd i : neutral (_require_lock_path_identity fd i).
Proof. unfold _require_lock_path_identity. solve_neutral. Qed.
Lemma leaves_exact fd name : neutral (_require_exact_fence_entry_name fd name).
Proof. unfold _require_exact_fence_entry_name. solve_neutral. Qed.
Lemma leaves_fstat_identity fd : neutral (fstat_identity fd).
Proof. unfold fstat_identity. solve_neutral. Qed.
Lemma leaves_stat_identity fd name : neutral (stat_identity fd name).
Proof. unfold stat_identity. solve_neutral. Qed.
Lemma leaves_regular i r : neutral (_require_regular_single_link i r).
Proof. apply leaves_intact. Qed.
#[local] Hint Resolve leaves_lock_path leaves_exact leaves_fstat_identity leaves_stat_identity leaves_regular : leaves.
Lemma leaves_verify n h : neutral (_verify_held_lease n h).
Proof. unfold _verify_held_lease. solve_neutral. Qed.
#[local] Hint Resolve leaves_verify : leaves.

(** A program guarded by [close_on_error] closes the descriptor where it raises. *)
Lemma leaves_close_on_error {A} fd (m : Sys A) : neutral m →
  leaves (λ r fd', match r with Ok _ => 0 | Err _ => - one fd fd' end) (close_on_error fd m).
Proof.
  intros Hm. eapply leaves_finally; [exact Hm|]. intros [a|e].
  - by apply leaves_return.
  - eapply leaves_ext; [apply leaves_close_fd|]. intros [] ?; simpl; lia.
Qed.

(** A descriptor that is opened, or the failure raised, and passed on. *)
Lemma leaves_open_trusted {B} (γ : result B → Z → Z) m r d (f : Z → Sys B) :
  leaves opened m → (∀ e fd, γ (Err e) fd = 0) → (∀ fd, leaves (λ r fd', γ r fd' - one fd fd') (f fd)) →
  leaves γ (o ← m; fd ← trusted r d o; f fd).
Proof. intros Hm He Hf. apply leaves_opened; [done|done|exact Hf|]. intros n. by apply leaves_raise. Qed.
Lemma leaves_open_raise {B} (γ : result B → Z → Z) m (f : Z → Sys B) :
  leaves opened m → (∀ e fd, γ (Err e) fd = 0) → (∀ fd, leaves (λ r fd', γ r fd' - one fd fd') (f fd)) →
  leaves γ (o ← m; fd ← raise_os o; f fd).
Proof. intros Hm He Hf. apply leaves_opened; [done|done|exact Hf|]. intros n. by apply leaves_raise. Qed.

(** A guarded program, and what follows once it returned. *)
Lemma leaves_guarded {A B} (γ : result B → Z → Z) fd (m : Sys A) f : neutral m → (∀ e fd', γ (Err e) fd' = 0) →
  (∀ a, leaves (λ r fd', γ r fd' - one fd fd') (f a)) →
  leaves (λ r fd', γ r fd' - one fd fd') (close_on_error fd m ≫= f).
Proof.
  intros Hm He Hf. eapply leaves_bind; [by apply leaves_close_on_error|..].
  - intros e fd'. simpl. rewrite He. lia.
  - intros a. eapply leaves_ext; [apply Hf|]. intros. simpl. lia.
Qed.

(** What the opening of a named thing leaves. *)
Lemma leaves_open_state configured :
  leaves (λ r, match r with Ok (_, fd, _) => one fd | Err _ => λ _, 0 end) (_open_state_directory configured).
Proof.
  unfold _open_state_directory. cbv zeta.
  do 6 (apply leaves_after; [auto with leaves nocore|done|intros ?]).
  apply leaves_open_trusted; [apply leaves_open|done|intros fd]. apply leaves_guarded; [solve_neutral|done|].
  intros u. apply leaves_return. intros fd'. lia.
Qed.

Abbreviation opens_some := (λ (r : result (option (Z * option _FileIdentity))),
  match r with Ok (Some (fd, _)) => one fd | _ => λ _, 0 end).

Lemma leaves_lock_round fd : leaves opens_some (lock_round fd).
Proof.
  unfold lock_round. apply leaves_after; [apply leaves_stat|done|]. intros [m|n].
  - apply leaves_after; [apply leaves_regular|done|intros _].
    apply leaves_open_trusted; [apply leaves_open|done|]. intros fd'. apply leaves_return. intros. lia.
  - destruct (not_found n); [|by apply leaves_raise].
    apply leaves_opened; [apply leaves_create|done|intros fd'; apply leaves_return; intros; lia|].
    intros n'. destruct (file_exists n'); [by apply leaves_return|by apply leaves_raise].
Qed.

Lemma leaves_open_lock n fd : leaves (λ r, match r with Ok (fd, _) => one fd | Err _ => λ _, 0 end) (open_lock n fd).
Proof.
  induction n as [|n IH]; cbn [open_lock]; [by apply leaves_raise|].
  eapply leaves_bind; [apply leaves_lock_round|done|]. intros [[fd' i]|]; cbn beta iota.
  - apply leaves_return. intros. lia.
  - eapply leaves_ext; [apply IH|]. intros [[? ?]|] ?; lia.
Qed.

Lemma leaves_open_or_create n fd :
  leaves (λ r, match r with Ok (fd, _) => one fd | Err _ => λ _, 0 end) (_open_or_create_lock n fd).
Proof.
  unfold _open_or_create_lock. eapply leaves_bind; [apply leaves_open_lock|done|]. intros [fd' i]. cbn beta iota.
  apply (leaves_guarded (λ r, match r with Ok (fd, _) => one fd | Err _ => λ _, 0 end)); [solve_neutral|done|].
  intros i'. apply leaves_return. intros. lia.
Qed.

(** ** The fence *)

Lemma leaves_enter fd c : leaves (λ r, match r with Ok (Some fd) => one fd | _ => λ _, 0 end) (enter_fence_directory fd c).
Proof.
  unfold enter_fence_directory. apply leaves_after; [apply leaves_stat|done|]. intros [m|n].
  - apply leaves_after; [apply leaves_exact|done|intros _]. apply leaves_after; [apply leaves_intact|done|intros _].
    apply leaves_open_trusted; [apply leaves_open|done|intros fd']. cbv zeta.
    apply (leaves_guarded (λ r, match r with Ok (Some fd) => one fd | _ => λ _, 0 end)); [solve_neutral|done|].
    intros u. apply leaves_return. intros. lia.
  - destruct (not_found n); [by apply leaves_return|by apply leaves_raise].
Qed.

Lemma leaves_marker fd : neutral (fence_marker_present fd).
Proof.
  unfold fence_marker_present. apply leaves_after; [apply leaves_stat|done|]. intros [m|n].
  - apply leaves_after; [apply leaves_exact|done|intros _]. apply leaves_after; [apply leaves_regular|done|intros _].
    apply leaves_open_trusted; [apply leaves_open|done|intros fd'].
    eapply leaves_bind with (δ := λ _ fd0, - one fd' fd0); [|by intros; lia|].
    + apply leaves_finally with (δ := λ _ _, 0); [solve_neutral|]. intros r. eapply leaves_ext; [apply leaves_close_fd|]. intros. simpl. lia.
    + intros u. apply leaves_return. intros. lia.
  - destruct (not_found n); [by apply leaves_return|by apply leaves_raise].
Qed.

Lemma closes_returns fds : returns (_close_descriptors fds).
Proof.
  induction fds as [|fd fds IH]; intros s; cbn [_close_descriptors]; [by eexists _, _|].
  unfold os_close, mbind, eff_bind at 1. destruct (IH {| moment := S (moment s); effects := effects s ++ [CloseFd fd] |})
    as (a & s1 & E). unfold eff_bind. rewrite E. by eexists _, _.
Qed.

Lemma leaves_closes fds : leaves (λ _ fd', - (foldr (λ fd n, one fd fd' + n) 0 fds)) (_close_descriptors fds).
Proof.
  induction fds as [|fd fds IH]; cbn [_close_descriptors foldr]; [by apply leaves_return|].
  eapply leaves_bind_returns; [by intros s; eexists _, _|apply leaves_close|]. intros o.
  eapply leaves_bind_returns; [apply closes_returns|apply IH|]. intros b. apply leaves_return. intros. simpl. lia.
Qed.

(** A second attempt to close, after one that failed; whatever would be left open then. *)
Lemma leaves_close_twice (open : Z → Z) fd : leaves (λ r fd', match r with Ok _ => - one fd fd' | Err _ => open fd' end)
  (finally (close_fd fd) (λ r, match r with Ok _ => mret tt | Err _ => close_fd fd end)).
Proof.
  intros s r s' H. destruct (kernel_close (moment s) fd) as [[]|n] eqn:Ek.
  - assert ((r, s') = close_fd fd s) as E.
    { rewrite <- H. unfold finally, close_fd, os_close, raise_os, mbind, eff_bind. by rewrite Ek. }
    assert (r = Ok tt) as -> by (unfold close_fd, os_close, raise_os, mbind, eff_bind in E; rewrite Ek in E; by injection E).
    symmetry in E. by apply leaves_close_fd in E.
  - unfold finally, close_fd, os_close, raise_os, mbind, eff_bind in H. rewrite Ek in H. cbn in H.
    assert (moment s' = S (S (moment s)) ∧ effects s' = (effects s ++ [CloseFd fd]) ++ [CloseFd fd]) as [E1 E2]
      by (destruct (kernel_close _ fd); by injection H as _ <-).
    rewrite E1, E2, <- app_assoc. split; [lia|]. eexists. split; [done|]. right. exists (moment s), fd, n. split; [lia|done].
Qed.

Lemma leaves_walk components fd : leaves (λ _ fd', - one fd fd') (walk_fence components fd).
Proof.
  revert fd. induction components as [|c components IH]; intros fd; cbn [walk_fence].
  - apply leaves_finally with (δ := λ _ _, 0); [apply leaves_marker|]. intros r.
    eapply leaves_ext; [apply leaves_close_fd|]. intros. simpl. lia.
  - eapply leaves_bind with (δ := λ r fd', match r with Ok (Some next) => one next fd' | _ => - one fd fd' end).
    + eapply leaves_finally; [apply leaves_enter|]. intros [[next|]|e].
      * by apply leaves_return; intros; simpl; lia.
      * eapply leaves_ext; [apply leaves_close_fd|]. intros [] ?; simpl; lia.
      * eapply leaves_ext; [apply leaves_close_fd|]. intros [] ?; simpl; lia.
    + done.
    + intros [next|]; [|by apply leaves_return; intros; simpl; lia].
      eapply leaves_bind; [apply (leaves_close_twice (λ fd', - one fd fd' - one next fd'))|intros; simpl; lia|].
      intros u. eapply leaves_ext; [apply IH|]. intros. simpl. lia.
Qed.

Lemma leaves_present h : neutral (_quarantine_marker_present h).
Proof.
  unfold _quarantine_marker_present. apply leaves_open_raise; [apply leaves_dup|done|]. intros fd.
  eapply leaves_ext; [apply leaves_walk|]. intros. simpl. lia.
Qed.
#[local] Hint Resolve leaves_present : leaves.

(** ** Acquiring and releasing *)

Definition locked_fd (lock_fd : option Z) (fd : Z) : Z := match lock_fd with Some l => one l fd | None => 0 end.

Lemma leaves_abandon lock_fd locked state_fd e :
  leaves (λ _ fd, - (locked_fd lock_fd fd + one state_fd fd)) (abandon lock_fd locked state_fd e).
Proof.
  unfold abandon. eapply leaves_bind_returns with (δ := λ _ _, 0).
  - intros s. destruct lock_fd; [destruct locked|]; by eexists _, _.
  - destruct lock_fd; [destruct locked|]; [|apply leaves_ret..].
    unfold _unlock_without_raising. apply leaves_after; [apply leaves_unlock|done|intros ?; apply leaves_ret].
  - intros u. eapply leaves_bind_returns; [apply closes_returns|apply leaves_closes|].
    intros failed. apply leaves_raise. intros fd. destruct lock_fd; simpl; lia.
Qed.

Lemma leaves_or_abandon {A} (δ : A → Z → Z) lock_fd locked state_fd (m : Sys A) :
  leaves (λ r, match r with Ok a => δ a | Err _ => λ _, 0 end) m →
  leaves (λ r fd, match r with Ok a => δ a fd | Err _ => - (locked_fd lock_fd fd + one state_fd fd) end)
    (or_abandon lock_fd locked state_fd m).
Proof.
  intros Hm. eapply leaves_finally; [exact Hm|]. intros [a|e].
  - apply leaves_return. intros. simpl. lia.
  - eapply leaves_ext; [apply leaves_abandon|]. intros [] ?; simpl; lia.
Qed.

Lemma leaves_acquire_fresh n p m state state_fd i :
  leaves (λ r fd, match r with Ok held => one (lock_descriptor held) fd | Err _ => - one state_fd fd end)
    (acquire_fresh n p m state state_fd i).
Proof.
  unfold acquire_fresh. eapply leaves_bind.
  - apply (leaves_or_abandon (λ p, one p.1)). eapply leaves_ext; [apply leaves_open_or_create|]. by intros [[]|].
  - done.
  - intros [lock_fd lock_i]. cbv zeta beta iota.
    eapply leaves_bind with (δ := λ r fd, match r with Ok _ => 0 | Err _ => - (one lock_fd fd + one state_fd fd) end).
    + apply (leaves_or_abandon (λ _ _, 0) (Some lock_fd)).
      apply leaves_ext with (δ := λ _ _, 0); [|by intros [] ?].
      apply leaves_after; [apply leaves_flock|done|]. intros []; [apply leaves_ret|apply leaves_lift].
    + intros e fd. simpl. lia.
    + intros u. eapply leaves_bind with (δ := λ r fd, match r with Ok _ => 0 | Err _ => - (one lock_fd fd + one state_fd fd) end).
      * apply (leaves_or_abandon (λ _ _, 0) (Some lock_fd)).
      apply leaves_ext with (δ := λ _ _, 0); [|by intros [] ?]. solve_neutral.
      * intros e fd. simpl. lia.
      * intros u'. apply leaves_return. intros fd. simpl. lia.
Qed.

(** The same, for what a process does. *)
Definition grown (p p' : process) (δ : Z → Z) : Prop :=
  balanced (moment (machine_of p)) (moment (machine_of p')) δ (effects (machine_of p)) (effects (machine_of p')).

Lemma grown_trans p1 p2 p3 δ1 δ2 δ : grown p1 p2 δ1 → grown p2 p3 δ2 → (∀ fd, δ1 fd + δ2 fd = δ fd) → grown p1 p3 δ.
Proof. apply balanced_trans. Qed.
Lemma grown_same p p' δ : machine_of p' = machine_of p → (∀ fd, δ fd = 0) → grown p p' δ.
Proof. intros E Hd. unfold grown. rewrite E. by apply balanced_none. Qed.

(** A call changes the machine only. *)
Lemma on_os_leaves {A} (δ : result A → Z → Z) (m : Sys A) p r p' : leaves δ m → on_os m p = (r, p') →
  grown p p' (δ r) ∧ ∃ w, p' = p <| machine_of := w |>.
Proof. intros Hm (w & E & ->)%on_os_inv. split; [|by exists w]. exact (Hm _ _ _ E). Qed.

Lemma acquire_nested_leaves p pid_ held fd r p' :
  on_os (finally (exceptM (_integrity_error LOCK_OPERATION_FAILED "nested maintenance lease validation failed")
     (_ ← _verify_held_lease pid_ held; _quarantine_marker_present held)) (λ _, close_fd fd)) p = (r, p') →
  grown p p' (λ fd', - one fd fd') ∧ ∃ w, p' = p <| machine_of := w |>.
Proof.
  apply (on_os_leaves (λ _ fd', - one fd fd')). apply leaves_finally with (δ := λ _ _, 0); [solve_neutral|].
  intros r'. eapply leaves_ext; [apply leaves_close_fd|]. intros. simpl. lia.
Qed.

(** What an acquisition leaves open: nothing where it raises; nothing more with a further
    lease on an object; and the two descriptors of a new object. *)
Definition acquired (p : process) (r : result nat) (p' : process) (fd : Z) : Z :=
  match r with
  | Err _ => 0
  | Ok l =>
      match leases p' !! l with
      | Some x =>
          match helds p !! le_held x, helds p' !! le_held x with
          | None, Some held => one (state_descriptor held) fd + one (lock_descriptor held) fd
          | _, _ => 0
          end
      | None => 0
      end
  end.

Lemma lookup_last {A} (l : list A) (x : A) : (l ++ [x]) !! length l = Some x.
Proof. by apply list_lookup_middle. Qed.

Lemma acquire_leaves k m configured p r p' : counted p → pid p = registry_pid p →
  _acquire k m configured p = (r, p') → grown p p' (acquired p r p').
Proof.
  intros Hc Ho H. unfold _acquire in H. apply critical_inv in H as (p1 & H & _ & _ & _ & Es).
  rewrite (Es Ho) in H. clear p1 Es.
  inv_step H; [|done]. apply bindM_inv in H as [(w & p1 & E & H)|(e & E & ->)];
    destruct (on_os_leaves _ _ _ _ _ (leaves_open_state configured) E) as (G1 & w1 & Ep1); [|done].
  destruct w as [[state fd] i]. inv_step H; [|done]. clear E.
  assert (helds p1 = helds p ∧ leases p1 = leases p ∧ registry p1 = registry p) as (H1 & Le1 & R1) by (by rewrite Ep1).
  rewrite R1 in H. destruct (registry p !! state) as [h|] eqn:Er.
  - destruct (co_entries _ _ Hc _ _ Er) as [held [Hh _ _ _ _ _]].
    rewrite (bind_returned _ _ _ _ _ (held_object_at h p1 held (eq_trans (f_equal (lookup h) H1) Hh))) in H.
    apply bindM_inv in H as [(present & p2 & E & H)|(e & E & ->)];
      destruct (acquire_nested_leaves _ _ _ _ _ _ E) as (G2 & w2 & Ep2); clear E;
      pose proof (λ δ, grown_trans _ _ _ _ _ δ G1 G2) as G; [|apply G; intros; simpl; lia].
    assert (leases p2 = leases p) as Le2 by (by rewrite Ep2).
    destruct (_ && _); [|injection H as <- <-; apply G; intros; simpl; lia].
    apply bindM_inv in H as [(u & p3 & E & H)|(e & E & ->)]; cycle 1.
    { apply lift_Err in E as [_ ->]. apply G. intros. simpl. lia. }
    apply lift_Ok in E as [_ ->]. injection H as <- <-. eapply grown_trans; [apply (G (λ _, 0)); intros; simpl; lia|..].
    + apply (grown_same _ _ (λ _, 0)); done.
    + intros fd'. unfold acquired.
      match goal with |- _ = match ?l !! ?n with _ => _ end => change (l !! n) with ((leases p2 ++ [{| le_held := h;
        le_released := false; le_entered := false; le_descriptor_borrows := 0 |}]) !! length (leases p2)) end.
      rewrite lookup_last. cbn [le_held]. by rewrite Hh.
  - apply bindM_inv in H as [(held & p2 & E & H)|(e & E & ->)];
      destruct (on_os_leaves _ _ _ _ _ (leaves_acquire_fresh _ _ _ _ _ _) E) as (G2 & w2 & Ep2);
      pose proof (λ δ, grown_trans _ _ _ _ _ δ G1 G2) as G; [|apply G; intros; simpl; lia].
    assert (state_descriptor held = fd) as Efd.
    { apply on_os_inv in E as (w3 & E & _). by apply acquire_fresh_descriptor in E. }
    assert (leases p2 = leases p ∧ helds p2 = helds p) as (Le2 & H2) by (by rewrite Ep2).
    injection H as <- <-. eapply grown_trans; [apply (G (λ fd', one (state_descriptor held) fd' + one (lock_descriptor held) fd'))|..].
    + intros fd'. rewrite Efd. simpl. lia.
    + apply (grown_same _ _ (λ _, 0)); done.
    + intros fd'. unfold acquired.
      match goal with |- _ = match ?l !! ?n with _ => _ end => change (l !! n) with ((leases p2 ++ [{| le_held :=
        length (helds p2); le_released := false; le_entered := false; le_descriptor_borrows := 0 |}]) !! length (leases p2)) end.
      rewrite lookup_last. cbn [le_held]. rewrite lookup_ge_None_2 by (by rewrite H2).
      match goal with |- _ = match ?l !! ?n with _ => _ end => change (l !! n) with ((helds p2 ++ [held]) !! length (helds p2)) end.
      rewrite lookup_last. lia.
Qed.

Lemma leaves_release_check n held : neutral (release_check n held).
Proof.
  unfold release_check. intros s r s'. unfold catch.
  match goal with |- context [?m s] => assert (neutral m) as Hm; [solve_neutral|destruct (m s) as [[o|e] s1] eqn:E] end;
    intros [= <- <-]; exact (Hm _ _ _ E).
Qed.

Lemma drop_returns h held found p : ∃ o p', drop_reference h held found p = (Ok o, p').
Proof.
  unfold drop_reference, drop_last_reference, set_held, modifies, mbind, eff_bind.
  destruct (references held =? 1); [|by eexists _, _]. unfold on_os, unlock, system.
  match goal with |- context [_close_descriptors ?l ?s] => destruct (closes_returns l s) as (b & s1 & ->) end.
  by eexists _, _.
Qed.

(** What giving up a reference does to the descriptors and to the registry. *)
Lemma drop_leaves h held found p r p' : drop_reference h held found p = (r, p') →
  grown p p' (λ fd, if references held =? 1 then - (one (state_descriptor held) fd + one (lock_descriptor held) fd) else 0) ∧
  registry p' = (if references held =? 1 then delete (state_directory held) (registry p) else registry p) ∧
  leases p' = leases p.
Proof.
  unfold drop_reference. intros H. apply bindM_inv in H as [(u & p1 & E1 & H)|(e & [=] & _)].
  assert (machine_of p1 = machine_of p ∧ registry p1 = registry p ∧ leases p1 = leases p) as (M1 & R1 & L1)
    by (by injection E1 as _ <-).
  destruct (references held =? 1); cycle 1.
  { injection H as _ <-. split_and!; [by apply grown_same|done|done]. }
  unfold drop_last_reference in H. apply bindM_inv in H as [(u1 & p2 & E2 & H)|(e & [=] & _)].
  assert (machine_of p2 = machine_of p ∧ registry p2 = delete (state_directory held) (registry p) ∧ leases p2 = leases p)
    as (M2 & R2 & L2) by (injection E2 as _ <-; rewrite <- M1, <- R1, <- L1; done).
  clear E1 E2 M1 R1 L1. apply bindM_inv in H as [(o & p3 & E & H)|(e & E & _)]; cycle 1.
  { apply on_os_inv in E as (w & [=] & _). }
  destruct (on_os_leaves _ _ _ _ _ (leaves_unlock _) E) as (G3 & w3 & Ep3). clear E.
  apply bindM_inv in H as [(b & p4 & E & H)|(e & E & _)]; cycle 1.
  { apply on_os_inv in E as (w & E & _). destruct (closes_returns [lock_descriptor held; state_descriptor held]
      (machine_of p3)) as (a & s' & E'). by rewrite E' in E. }
  destruct (on_os_leaves _ _ _ _ _ (leaves_closes _) E) as (G4 & w4 & Ep4). injection H as _ <-.
  split; [|by rewrite Ep4, Ep3].
  eapply grown_trans; [|exact G4|].
  - eapply grown_trans; [apply (grown_same _ _ (λ _, 0)); [exact M2|done]|exact G3|]. intros fd. reflexivity.
  - intros fd. simpl. lia.
Qed.

Lemma close_leaves l x held p r p' : counted p → pid p = registry_pid p →
  leases p !! l = Some x → le_released x = false → helds p !! le_held x = Some held →
  owner_pid held = pid p → le_descriptor_borrows x = 0 → close l p = (r, p') →
  grown p p' (λ fd, if references held =? 1 then - (one (state_descriptor held) fd + one (lock_descriptor held) fd) else 0) ∧
  registry p' = (if references held =? 1 then delete (state_directory held) (registry p) else registry p) ∧
  ∃ x', leases p' !! l = Some x' ∧ le_released x' = true.
Proof.
  intros Hc Ho Hl Er Hh Eo Eb H. unfold close in H.
  rewrite (bind_returned _ _ _ _ _ (lease_object_at _ _ _ Hl)), Er in H.
  apply critical_inv in H as (p1 & H & _ & _ & _ & Es). rewrite (Es Ho) in H. clear p1 Es.
  inv_step H; [|done]. rewrite (bind_returned _ _ _ _ _ (held_object_at _ _ _ Hh)), Eo, Eb, Z.eqb_refl in H.
  cbn [andb negb Z.eqb] in H. apply bindM_inv in H as [(u & p1 & E & H)|(e & [=] & _)].
  apply lift_Ok in E as [_ ->]. apply bindM_inv in H as [(u1 & p1 & E1 & H)|(e & [=] & _)].
  assert (machine_of p1 = machine_of p ∧ registry p1 = registry p ∧
    leases p1 = alter (λ lease, lease <| le_released := true |>) l (leases p)) as (M1 & R1 & L1)
    by (by injection E1 as _ <-). clear E1.
  apply bindM_inv in H as [(u2 & p2 & E & H)|(e & [=] & _)]. apply lift_Ok in E as [_ ->].
  inv_step H; [|done]. rewrite R1, (co_live _ _ Hc _ _ _ Hl Er Hh (eq_trans Eo Ho)), bool_decide_true in H by done.
  apply bindM_inv in H as [(u3 & p2 & E & H)|(e & [=] & _)]. apply lift_Ok in E as [_ ->].
  apply bindM_inv in H as [(found & p2 & E & H)|(e & E & _)]; cycle 1.
  { apply on_os_inv in E as (w & E & _). unfold release_check, catch in E. repeat case_match; simplify_eq. }
  destruct (on_os_leaves _ _ _ _ _ (leaves_release_check _ _) E) as (G2 & w2 & Ep2). clear E.
  apply bindM_inv in H as [(e & p3 & E & H)|(e & E & _)]; cycle 1.
  { destruct (drop_returns (le_held x) held found p2) as (o & q & E'). by rewrite E' in E. }
  destruct (drop_leaves _ _ _ _ _ _ E) as (G3 & R3 & L3).
  assert (p' = p3) as -> by (destruct e; by injection H as _ <-). split_and!.
  - eapply (grown_trans _ _ _ (λ _, 0)); [|exact G3|intros fd; apply Z.add_0_l].
    eapply grown_trans; [apply (grown_same _ _ (λ _, 0)); [exact M1|done]|exact G2|]. done.
  - rewrite R3, Ep2. by rewrite <- R1.
  - rewrite L3, Ep2. exists (x <| le_released := true |>). split; [|done].
    change (leases p1 !! l = Some (x <| le_released := true |>)). by rewrite L1, list_lookup_alter_eq, Hl.
Qed.

(** C33. Leases leak no descriptor, unless the system fails to close one meanwhile.  An
    acquisition that raises has closed everything it opened; one that returns holds open the
    two descriptors of a new object, and nothing more for a further lease on an object it
    shares.  Closing a live lease of this process, whatever it finds wrong with it, marks
    it released and, with the last reference, unregisters the object and closes both of
    its descriptors.  (When closing fails inside the walk along the fence, the descriptor is
    closed again and the next one stays open.) *)
Theorem leases_leak_nothing w n p : reachable w n p → pid p = registry_pid p →
  (∀ k m configured r p', _acquire k m configured p = (r, p') → grown p p' (acquired p r p')) ∧
  (∀ l x held r p', leases p !! l = Some x → le_released x = false → helds p !! le_held x = Some held →
     owner_pid held = pid p → le_descriptor_borrows x = 0 → close l p = (r, p') →
     grown p p' (λ fd, if references held =? 1
                       then - (one (state_descriptor held) fd + one (lock_descriptor held) fd) else 0) ∧
     registry p' = (if references held =? 1 then delete (state_directory held) (registry p) else registry p) ∧
     ∃ x', leases p' !! l = Some x' ∧ le_released x' = true).
Proof.
  intros Hr Ho. pose proof (reachable_counted _ _ _ Hr) as Hc. split.
  - intros k m configured r p' H. by eapply acquire_leaves.
  - intros l x held r p' H1 H2 H3 H4 H5 H6. by eapply close_leaves.
Qed.

(** ** What a lease stands for *)

(** Time does not run backwards. *)
Definition forward {A} (m : Sys A) : Prop := ∀ s r s', m s = (r, s') → (moment s ≤ moment s')%nat.

Lemma forward_ret {A} (a : A) : forward (mret a).
Proof. by intros s r s' [= _ <-]. Qed.
Lemma forward_lift {A} (r : result A) : forward (lift r).
Proof. by intros s r' s' [= _ <-]. Qed.
Lemma forward_call {A} (f : FileSystem → A) : forward (call f).
Proof. intros s r s' [= _ <-]. simpl. lia. Qed.
Lemma forward_system {A} (f : nat → os_result A) log : forward (system f log).
Proof. intros s r s' [= _ <-]. simpl. lia. Qed.
Lemma forward_close fd : forward (os_close fd).
Proof. intros s r s' [= _ <-]. simpl. lia. Qed.
Lemma forward_scandir fd : forward (os_scandir fd).
Proof. intros s r s' [= _ <-]. simpl. lia. Qed.
Lemma forward_bind {A B} (m : Sys A) (f : A → Sys B) : forward m → (∀ a, forward (f a)) → forward (m ≫= f).
Proof.
  intros Hm Hf s r s' [(a & s1 & E1 & E2)|(e & E & _)]%bindM_inv; [|by eapply Hm].
  etrans; [by eapply Hm|by eapply Hf].
Qed.
Lemma forward_finally {A} (m : Sys A) c : forward m → (∀ r, forward (c r)) → forward (finally m c).
Proof.
  intros Hm Hc s r s'. unfold finally. destruct (m s) as [r1 s1] eqn:E1. destruct (c r1 s1) as [r2 s2] eqn:E2.
  intros H. assert (s' = s2) as -> by (destruct r2; by injection H). etrans; [by eapply Hm|by eapply Hc].
Qed.

Ltac solve_forward :=
  repeat lazymatch goal with
  | |- forward (mbind _ _) => apply forward_bind; [|intros ?]
  | |- forward (finally _ _) => apply forward_finally; [|intros ?]
  | |- forward (mret _) => apply forward_ret
  | |- forward (lift _) => apply forward_lift
  | |- forward (intact _ _ _) => apply forward_lift
  | |- forward (call _) => apply forward_call
  | |- forward (os_close _) => apply forward_close
  | |- forward (os_scandir _) => apply forward_scandir
  | |- forward (match ?x with _ => _ end) => destruct x
  | |- forward (os_stat _ _) => apply forward_system
  | |- forward (os_fstat _) => apply forward_system
  | |- forward (os_open _ _) => apply forward_system
  end.

(** The lease's open directory and lock file are the ones that the paths still name, in
    four calls from the [n]-th on. *)
Record lease_verified (h : _HeldLease) (n : nat) : Prop := {
  lv_state : ∃ a, kernel_fstat n (state_descriptor h) = Done a ∧ _same_object (_identity a) (state_identity h) = true;
  lv_path : ∃ a, @lstat (fs_at (1 + n)) (state_directory h) = Done a ∧
    _same_object (_identity a) (state_identity h) = true;
  lv_lock : ∃ a, kernel_fstat (2 + n) (lock_descriptor h) = Done a ∧ _identity a = lock_identity h;
  lv_entry : ∃ a, kernel_stat (3 + n) (state_descriptor h) MAINTENANCE_LOCK_FILENAME = Done a ∧
    _identity a = lock_identity h;
}.

(** A directory was opened below another one, and was the one that had been seen there. *)
Definition entered (from to : nat) (d : Z) (name : string) (next : Z) : Prop := ∃ k j m a,
  (from ≤ k < j)%nat ∧ (S j < to)%nat ∧ kernel_stat k d name = Done m ∧ is_kind Directory m = true ∧
  kernel_open j (At d name) DirectoryFlags = Done next ∧ kernel_fstat (S j) next = Done a ∧
  _same_object (_identity a) (_identity m) = true.

(** The names were followed down from an open directory, one below the other, until one was
    not there. *)
Inductive absent (to : nat) : nat → Z → list string → Prop :=
  | absent_here from d name names k e : (from ≤ k < to)%nat → kernel_stat k d name = OSError e → not_found e = true →
      absent to from d (name :: names)
  | absent_below from d name names next from' : (from ≤ from')%nat → entered from from' d name next →
      absent to from' next names → absent to from d (name :: names).

(** Between two moments, the fence quarantine/v1/ACTIVE was looked for below the lease's own
    directory, and was not there. *)
Definition unfenced (from to : nat) (h : _HeldLease) : Prop := ∃ k d, (from ≤ k < to)%nat ∧
  kernel_dup k (state_descriptor h) = Done d ∧ absent to (S k) d ["quarantine"; "v1"; "ACTIVE"].

Lemma fstat_Ok fd s i s' : fstat_identity fd s = (Ok i, s') →
  ∃ a, kernel_fstat (moment s) fd = Done a ∧ i = _identity a ∧ moment s' = S (moment s).
Proof.
  unfold fstat_identity, os_fstat, system, raise_os, mbind, eff_bind.
  destruct (kernel_fstat (moment s) fd) as [a|e]; intros [= <- <-]. by exists a.
Qed.
Lemma intact_Ok b r d s u s' : intact b r d s = (Ok u, s') → b = true ∧ s' = s.
Proof. intros [H ->]%lift_Ok. by apply require_Ok in H. Qed.
Lemma lock_path_Ok fd i s u s' : _require_lock_path_identity fd i s = (Ok u, s') →
  (∃ a, kernel_stat (moment s) fd MAINTENANCE_LOCK_FILENAME = Done a ∧ _identity a = i) ∧ moment s' = S (moment s).
Proof.
  unfold _require_lock_path_identity, os_stat, system, trusted, mbind, eff_bind.
  destruct (kernel_stat _ fd _) as [a|e]; [|done]. intros [Hb ->]%intact_Ok.
  split; [|done]. exists a. by apply bool_decide_eq_true in Hb.
Qed.
Lemma state_path_Ok p i s u s' : _require_state_path_identity p i s = (Ok u, s') →
  (∃ a, @lstat (fs_at (moment s)) p = Done a ∧ _same_object (_identity a) i = true) ∧ moment s' = S (moment s).
Proof.
  unfold _require_state_path_identity, call, trusted, mbind, eff_bind. cbn [fst snd].
  destruct (lstat p) as [a|e]; [|done]. intros [Hb ->]%intact_Ok. split; [|done]. by exists a.
Qed.

Lemma verify_Ok n h s u s' : _verify_held_lease n h s = (Ok u, s') →
  owner_pid h = n ∧ lease_verified h (moment s) ∧ (moment s < moment s')%nat.
Proof.
  unfold _verify_held_lease. intros H.
  apply bindM_Ok in H as (u0 & s0 & [Eo ->]%intact_Ok & H). apply Z.eqb_eq in Eo.
  apply bindM_Ok in H as (i & s1 & (a1 & A1 & -> & T1)%fstat_Ok & H).
  apply bindM_Ok in H as (u1 & s2 & [E1 ->]%intact_Ok & H).
  apply bindM_Ok in H as (u2 & s3 & [(a2 & A2 & E2) T2]%state_path_Ok & H).
  apply bindM_Ok in H as (i3 & s4 & (a3 & A3 & -> & T3)%fstat_Ok & H).
  apply bindM_Ok in H as (u3 & s5 & [E3%bool_decide_eq_true ->]%intact_Ok & H).
  apply lock_path_Ok in H as [(a4 & A4 & E4) T4].
  rewrite T1 in A2, T2. rewrite T2 in A3, T3. rewrite T3 in A4, T4. split; [done|]. split; [|lia].
  split; [by exists a1|by exists a2|by exists a3|by exists a4].
Qed.

Lemma forward_enter fd c : forward (enter_fence_directory fd c).
Proof.
  unfold enter_fence_directory, trusted, _require_exact_fence_entry_name, close_on_error, fstat_identity,
    stat_identity, close_fd, raise_os. cbv zeta. solve_forward.
Qed.
Lemma forward_close_fd fd : forward (close_fd fd).
Proof. unfold close_fd, raise_os. solve_forward. Qed.

Lemma absent_mono to to' from from' d names : absent to from d names → (from' ≤ from)%nat → (to ≤ to')%nat →
  absent to' from' d names.
Proof.
  intros H. revert from'. induction H as [from d name names k e Hk H1 H2|from d name names next mid Hm He _ IH];
    intros from' Hf Ht.
  - eapply absent_here; [|exact H1|exact H2]. lia.
  - destruct He as (k & j & m & a & ? & ? & He). eapply (absent_below _ _ _ _ _ next mid); [lia| |apply IH; [done|lia]].
    exists k, j, m, a. split; [lia|]. split; [lia|exact He].
Qed.

Lemma forward_intact b r d : forward (intact b r d).
Proof. apply forward_lift. Qed.
Lemma forward_exact fd name : forward (_require_exact_fence_entry_name fd name).
Proof. unfold _require_exact_fence_entry_name. solve_forward. Qed.

(** One directory of the fence: not there, or entered. *)
Lemma enter_Ok fd c s o s' : enter_fence_directory fd c s = (Ok o, s') →
  (moment s < moment s')%nat ∧
  match o with
  | None => ∃ e, kernel_stat (moment s) fd c = OSError e ∧ not_found e = true
  | Some next => entered (moment s) (moment s') fd c next
  end.
Proof.
  unfold enter_fence_directory. intros (os & s1 & [= <- <-] & H)%bindM_Ok.
  destruct (kernel_stat (moment s) fd c) as [m|e] eqn:Es; cycle 1.
  { destruct (not_found e) eqn:En; [|done]. apply retM_Ok in H as [-> ->]. split; [simpl; lia|by exists e]. }
  apply bindM_Ok in H as (u1 & s2 & H1 & H). apply forward_exact in H1. cbn [moment] in H1.
  apply bindM_Ok in H as (u2 & s3 & [Hd ->]%intact_Ok & H).
  apply bindM_Ok in H as (oo & s4 & [= <- <-] & H).
  destruct (kernel_open (moment s2) (At fd c) DirectoryFlags) as [next|n] eqn:Eo; [|done].
  apply bindM_Ok in H as (fd' & s5 & [-> ->]%retM_Ok & H).
  apply bindM_Ok in H as (u3 & s6 & (s7 & H & Hc)%finally_Ok & [-> ->]%retM_Ok). apply retM_Ok in Hc as [_ ->].
  apply bindM_Ok in H as (i & s8 & (a & Ha & -> & T)%fstat_Ok & H). apply bindM_Ok in H as (u4 & s9 & [Hs ->]%intact_Ok & H).
  assert (moment s8 ≤ moment s7)%nat as T2.
  { revert H. assert (forward (final ← stat_identity fd c;
      _ ← intact (_same_object final (_identity m)) QUARANTINE_FENCE_INVALID
            "quarantine fence ancestor changed during inspection";
      _require_exact_fence_entry_name fd c)) as Hf; [|apply Hf].
    unfold stat_identity, raise_os, _require_exact_fence_entry_name. solve_forward. }
  cbn [moment] in *. split; [lia|]. exists (moment s), (moment s2), m, a. split_and!; try done; lia.
Qed.

Lemma marker_absent fd s s' : fence_marker_present fd s = (Ok false, s') →
  (moment s < moment s')%nat ∧ ∃ e, kernel_stat (moment s) fd fence_marker = OSError e ∧ not_found e = true.
Proof.
  unfold fence_marker_present. intros (os & s1 & [= <- <-] & H)%bindM_Ok.
  destruct (kernel_stat (moment s) fd fence_marker) as [m|e] eqn:Es.
  - exfalso. do 4 (apply bindM_Ok in H as (? & ? & _ & H)). apply bindM_Ok in H as (? & ? & _ & H). by apply retM_Ok in H as [? _].
  - destruct (not_found e) eqn:En; [|done]. apply retM_Ok in H as [_ ->]. split; [simpl; lia|by exists e].
Qed.

Lemma walk_absent components fd s s' : walk_fence components fd s = (Ok false, s') →
  absent (moment s') (moment s) fd (components ++ [fence_marker]).
Proof.
  revert fd s. induction components as [|c components IH]; intros fd s; cbn [walk_fence app].
  - intros (s1 & H & Hc%forward_close_fd)%finally_Ok. apply marker_absent in H as (T & e & H1 & H2).
    eapply absent_here; [|exact H1|exact H2]. lia.
  - intros (entered & s1 & (s2 & E & Hc)%finally_Ok & H)%bindM_Ok. apply enter_Ok in E as [T E].
    destruct entered as [next|].
    + apply retM_Ok in Hc as [_ ->]. apply bindM_Ok in H as (u & s3 & (s4 & E3 & E4)%finally_Ok & H).
      apply retM_Ok in E4 as [_ ->]. apply forward_close_fd in E3.
      eapply (absent_below _ _ _ _ _ next (moment s2)); [lia|exact E|]. eapply absent_mono; [apply IH, H|done|done].
    + apply forward_close_fd in Hc. apply retM_Ok in H as [_ ->]. destruct E as (e & H1 & H2).
      eapply absent_here; [|exact H1|exact H2]. lia.
Qed.

Lemma present_Ok h s s' : _quarantine_marker_present h s = (Ok false, s') → unfenced (moment s) (moment s') h.
Proof.
  unfold _quarantine_marker_present. intros (o & s1 & [= <- <-] & (fd & s2 & E & H)%bindM_Ok)%bindM_Ok.
  destruct (kernel_dup _ _) as [fd'|e] eqn:Ed; [|done]. apply retM_Ok in E as [-> ->].
  apply walk_absent in H as H'. cbn [moment] in H'. exists (moment s), fd'. split; [|done].
  split; [done|]. inversion H'; subst; [lia|]. match goal with X : entered _ _ _ _ _ |- _ => destruct X as (? & ? & ? & ? & ? & ? & _) end.
  assert (moment {| moment := S (moment s); effects := effects s ++ [OpenFd fd'] |} ≤ moment s')%nat; [|simpl in *; lia].
  by apply (meek_walk fence_directories fd') in H as [? _].
Qed.
Lemma unfenced_mono from to from' to' h : unfenced from to h → (from' ≤ from)%nat → (to ≤ to')%nat → unfenced from' to' h.
Proof.
  intros (k & d & Hk & Hd & H) ? ?. exists k, d. split; [lia|]. split; [done|]. by eapply absent_mono.
Qed.

Lemma fresh_evidence k n m state fd i s held s' : acquire_fresh k n m state fd i s = (Ok held, s') →
  ∃ t, kernel_flock t (lock_descriptor held) (bool_decide (m = EXCLUSIVE)) = Done tt ∧
    (moment s ≤ t)%nat ∧ (S t < moment s')%nat ∧
    lease_verified held (S t) ∧ (m = SHARED → unfenced (S t) (moment s') held).
Proof.
  unfold acquire_fresh, or_abandon. intros ([fd' i'] & s1 & (s0 & E0 & Ec)%finally_Ok & H)%bindM_Ok.
  apply retM_Ok in Ec as [_ ->]. apply (meek_open_or_create k fd) in E0 as [T0 _].
  apply bindM_Ok in H as (u & s2 & (s3 & E & Ec)%finally_Ok & H). apply retM_Ok in Ec as [_ ->].
  apply bindM_Ok in H as (u1 & s4 & (s5 & E1 & Ec)%finally_Ok & H). apply retM_Ok in Ec as [_ ->].
  apply retM_Ok in H as [-> ->]. cbn [lock_descriptor].
  apply bindM_Ok in E as (o & s6 & [= <- <-] & E). exists (moment s0).
  destruct (kernel_flock _ _ _) as [[]|e] eqn:Ek; [|done]. apply retM_Ok in E as [_ ->].
  apply bindM_Ok in E1 as (u2 & s6 & (_ & Hv & Ht)%verify_Ok & E1). cbn [moment] in *.
  apply bindM_Ok in E1 as (b & s7 & E1 & Hb). apply lift_Ok in Hb as [Hb ->]. apply require_Ok in Hb.
  pose proof (meek_present _ _ _ _ E1) as [T1 _]. split; [done|]. split; [lia|]. split; [lia|]. split; [done|].
  intros Em. rewrite bool_decide_true in Hb by done. destruct b; [done|].
  apply present_Ok in E1. eapply unfenced_mono; [exact E1|lia|done].
Qed.

(** ** The kernel's grants *)

(** The kernel granted the lock of every shared object, in its mode, at some moment before. *)
Definition lock_granted (h : _HeldLease) (before : nat) : Prop := ∃ t, (t < before)%nat ∧
  kernel_flock t (lock_descriptor h) (bool_decide (mode h = EXCLUSIVE)) = Done tt.
Definition granted (p : process) : Prop := ∀ h held, helds p !! h = Some held → lock_granted held (moment (machine_of p)).

(** A program that neither makes objects nor gives one another lock. *)
Definition same_lock (a b : _HeldLease) : Prop := lock_descriptor a = lock_descriptor b ∧ mode a = mode b.
Definition locks_from (p p' : process) : Prop := ∀ h held', helds p' !! h = Some held' →
  ∃ held, helds p !! h = Some held ∧ same_lock held held'.
Definition keeps_locks {A} (m : P A) : Prop := ∀ p r p', m p = (r, p') → locks_from p p'.

Lemma locks_from_refl p : locks_from p p.
Proof. intros h held Hh. by exists held. Qed.
Lemma locks_from_trans p1 p2 p3 : locks_from p1 p2 → locks_from p2 p3 → locks_from p1 p3.
Proof.
  intros H1 H2 h held' Hh. destruct (H2 _ _ Hh) as (held1 & Hh1 & E1 & E2), (H1 _ _ Hh1) as (held & Hh0 & E3 & E4).
  exists held. split; [done|]. split; congruence.
Qed.

Lemma locks_unchanged {A} (m : P A) : (∀ p, helds (m p).2 = helds p) → keeps_locks m.
Proof. intros H p r p' E h held' Hh. specialize (H p). rewrite E in H. cbn in H. rewrite H in Hh. by exists held'. Qed.
Lemma locks_lift {A} (r : result A) : keeps_locks (lift r).
Proof. by apply locks_unchanged. Qed.
Lemma locks_ret {A} (a : A) : keeps_locks (mret a).
Proof. by apply locks_unchanged. Qed.
Lemma locks_gets {A} (f : process → A) : keeps_locks (gets f).
Proof. by apply locks_unchanged. Qed.
Lemma locks_on_os {A} (m : Sys A) : keeps_locks (on_os m).
Proof. apply locks_unchanged. intros p. unfold on_os. by destruct (m _). Qed.
Lemma locks_modifies f : (∀ p, helds (f p) = helds p) → keeps_locks (modifies f).
Proof. intros H. by apply locks_unchanged. Qed.
Lemma locks_set_lease l f : keeps_locks (set_lease l f).
Proof. by apply locks_modifies. Qed.
Lemma locks_references h f : keeps_locks (set_held h (λ held, held <| references ::= f |>)).
Proof.
  intros p r p' [= <- <-] h' held' Hh. change (alter (λ held, held <| references ::= f |>) h (helds p) !! h' = Some held') in Hh.
  destruct (decide (h = h')) as [<-|Hne]; [|rewrite list_lookup_alter_ne in Hh by done; by exists held'].
  rewrite list_lookup_alter_eq in Hh. apply fmap_Some in Hh as (held & H & ->). by exists held.
Qed.
Lemma locks_bind {A B} (m : P A) (f : A → P B) : keeps_locks m → (∀ a, keeps_locks (f a)) → keeps_locks (m ≫= f).
Proof.
  intros Hm Hf p r p' [(a & p1 & H1 & H2)|(e & H1 & ->)]%bindM_inv; [|by eapply Hm].
  eapply locks_from_trans; [by eapply Hm|by eapply Hf].
Qed.
Lemma locks_catch {A} (m : P A) h : keeps_locks m → (∀ e k, h e = Some k → keeps_locks k) → keeps_locks (catch m h).
Proof.
  intros Hm Hh p r p'. unfold catch. destruct (m p) as [[a|e] p1] eqn:E; [intros [= <- <-]; by eapply Hm|].
  destruct (h e) as [k|] eqn:Ek; [|intros [= <- <-]; by eapply Hm]. intros H. eapply locks_from_trans; [by eapply Hm|by eapply Hh].
Qed.

Ltac head_symbol t := lazymatch t with ?f _ => head_symbol f | _ => t end.
Ltac solve_locks :=
  repeat lazymatch goal with
  | |- keeps_locks (mbind _ _) => apply locks_bind; [|intros ?]
  | |- keeps_locks (catch _ _) => apply locks_catch; [|intros ? ? [= <-]]
  | |- keeps_locks (mret _) => apply locks_ret
  | |- keeps_locks (lift _) => apply locks_lift
  | |- keeps_locks (gets _) => apply locks_gets
  | |- keeps_locks (on_os _) => apply locks_on_os
  | |- keeps_locks (modifies _) => by apply locks_modifies
  | |- keeps_locks (set_lease _ _) => apply locks_set_lease
  | |- keeps_locks (set_held _ _) => apply locks_references
  | |- keeps_locks (new_lease _) => by apply locks_unchanged
  | |- keeps_locks (demand_lease _ _ _) => apply locks_lift
  | |- keeps_locks (match ?x with _ => _ end) => destruct x
  | |- keeps_locks ?m => let h := head_symbol m in unfold h
  end.

Lemma locks_close l : keeps_locks (close l).
Proof. solve_locks. Qed.
Lemma locks_after op p : match op with Acquire _ _ _ => True | _ => locks_from p (after op p) end.
Proof.
  assert (∀ (A : Type) (m : P A), keeps_locks m → locks_from p (m p).2) as Hk.
  { intros A m Hm. destruct (m p) as [r p'] eqn:E. by eapply Hm. }
  destruct op; cbn [after]; try done; apply Hk; unfold __exit__; solve_locks.
Qed.

(** A first acquisition adds an object whose lock was just granted. *)
Lemma acquire_locks k m configured p r p' : _acquire k m configured p = (r, p') →
  ∀ h held', helds p' !! h = Some held' →
  (∃ held, helds p !! h = Some held ∧ same_lock held held') ∨ lock_granted held' (moment (machine_of p')).
Proof.
  intros H. assert (keeps_locks _reset_registry_after_fork) as Hreset by solve_locks.
  unfold _acquire, critical in H.
  assert (∀ p1, locks_from p p1 → ∀ h held', helds p1 !! h = Some held' →
    (∃ held, helds p !! h = Some held ∧ same_lock held held') ∨ lock_granted held' (moment (machine_of p'))) as Hold.
  { intros p1 Hp h held' Hh. left. by apply Hp. }
  assert (∀ (A : Type) (m0 : P A) p1 r1 p2, keeps_locks m0 → m0 p1 = (r1, p2) → locks_from p p1 → locks_from p p2) as Hstep.
  { intros A m0 p1 r1 p2 Hm E Hp. eapply locks_from_trans; [exact Hp|by eapply Hm]. }
  pose proof (locks_from_refl p) as Hp0.
  apply bindM_inv in H as [(u1 & p1 & E1 & H)|(e & E1 & _)]; pose proof (Hstep _ _ _ _ _ Hreset E1 Hp0) as Hp1; [|by apply Hold].
  apply bindM_inv in H as [(u2 & p2 & E2 & H)|(e & E2 & _)]; pose proof (Hstep _ _ _ _ _ Hreset E2 Hp1) as Hp2; [|by apply Hold].
  inv_step H; [|by apply Hold].
  apply bindM_inv in H as [([[state fd] i] & p3 & E3 & H)|(e & E3 & _)];
    pose proof (Hstep _ _ _ _ _ (locks_on_os _) E3 Hp2) as Hp3; [|by apply Hold].
  inv_step H; [|by apply Hold]. destruct (registry p3 !! state) as [h0|].
  - apply Hold. eapply Hstep; [|exact H|exact Hp3]. solve_locks.
  - apply bindM_inv in H as [(held & p4 & E4 & H)|(e & E4 & _)];
      pose proof (Hstep _ _ _ _ _ (locks_on_os _) E4 Hp3) as Hp4; [|by apply Hold].
    apply on_os_inv in E4 as (w4 & E4 & ->). pose proof (acquire_fresh_Ok _ _ _ _ _ _ _ _ _ E4) as (_ & _ & _ & Em).
    apply fresh_evidence in E4 as (t & Hf & _ & Ht & _).
    inv_step H; [|by apply Hold]. injection H as <- <-. intros h held' Hh.
    change ((helds p3 ++ [held]) !! h = Some held') in Hh. apply lookup_snoc_Some in Hh as [[_ Hh]|[_ <-]].
    + left. by apply Hp3.
    + right. exists t. change (moment (machine_of _)) with (moment w4). split; [lia|]. by rewrite Em.
Qed.

Lemma lock_granted_later held a b : lock_granted held a → (a ≤ b)%nat → lock_granted held b.
Proof. intros (t & ? & H) ?. exists t. split; [lia|done]. Qed.

Lemma reachable_granted w n p : reachable w n p → granted p.
Proof.
  intros Hr. induction Hr as [|op q Hr IH _]; [by intros h held|]. intros h held Hh.
  pose proof (later_after op q) as T.
  assert ((∃ held0, helds q !! h = Some held0 ∧ same_lock held0 held) ∨ lock_granted held (moment (machine_of (after op q))))
    as [(held0 & H0 & E1 & E2)|H]; [| |done].
  { pose proof (locks_after op q) as Hk. destruct op; try (left; exact (Hk _ _ Hh)). cbn [after] in Hh |- *.
    destruct (_acquire _ _ _ q) as [r p'] eqn:E. by eapply acquire_locks. }
  destruct (IH _ _ H0) as (t & Ht & Hg). exists t. split; [lia|]. by rewrite <- E1, <- E2.
Qed.

Lemma critical_owned {A} (m : P A) p r p' : critical m p = (r, p') → counted p → granted p →
  ∃ p1, m p1 = (r, p') ∧ counted p1 ∧ granted p1 ∧ (moment (machine_of p) ≤ moment (machine_of p1))%nat.
Proof.
  unfold critical. destruct (reset_owned p) as (p1 & E1 & O1 & _). destruct (reset_owned p1) as (p2 & E2 & _ & _ & S2).
  rewrite (S2 O1) in E2. unfold mbind at 1 2, eff_bind at 1 2. rewrite E1, E2. intros H Hc Hg. exists p1.
  destruct (gentle_reset _ _ _ E1) as [[T _] _]. split; [done|]. split; [by eapply keeps_reset|]. split; [|done].
  assert (keeps_locks _reset_registry_after_fork) as Hk by solve_locks. intros h held Hh.
  destruct (Hk _ _ _ E1 _ _ Hh) as (held0 & H0 & El & Em). destruct (Hg _ _ H0) as (t & Ht & Hf).
  exists t. split; [lia|]. by rewrite <- El, <- Em.
Qed.

(** C34. A lease that an acquisition returns is live, registered and of the mode asked for.
    Its directory and its lock file were verified against the paths again.  The kernel had
    granted the lock on the lease's own lock file, in its mode: just before for a first
    lease; at some earlier moment for a further one, which shares, in shared mode, an object
    that is already in use.  For a shared lease, the fence quarantine/v1/ACTIVE was then
    looked for from the lease's own directory down, during the acquisition, and was not
    there. *)
Theorem lease_stands_for_lock w n p k m configured l p' : reachable w n p →
  _acquire k m configured p = (Ok l, p') →
  ∃ x held t, leases p' !! l = Some x ∧ le_released x = false ∧ helds p' !! le_held x = Some held ∧
    registry p' !! state_directory held = Some (le_held x) ∧ mode held = m ∧
    (moment (machine_of p) ≤ t < moment (machine_of p'))%nat ∧ lease_verified held t ∧
    (m = SHARED → unfenced t (moment (machine_of p')) held) ∧
    ∃ t0, kernel_flock t0 (lock_descriptor held) (bool_decide (m = EXCLUSIVE)) = Done tt ∧
      (t = S t0 ∨
       m = SHARED ∧ (t0 < t)%nat ∧ ∃ before, before <| references ::= Z.succ |> = held ∧ 1 <= references before).
Proof.
  intros Hr H. apply critical_owned in H as (p1 & H & Hc & Hg & T1);
    [|by eapply reachable_counted|by eapply reachable_granted]. clear Hr.
  inv_step H; [|done]. apply bindM_Ok in H as ([[state fd] i] & p2 & (w2 & Eo & ->)%on_os_inv & H).
  apply (meek_open_state configured) in Eo as [T2 _].
  inv_step H; [|done]. change (registry (p1 <| machine_of := w2 |>)) with (registry p1) in H.
  destruct (registry p1 !! state) as [h|] eqn:Er.
  - destruct (co_entries _ _ Hc _ _ Er) as [before [Hh Es _ _ Hp _]].
    apply bindM_Ok in H as (held & p3 & [-> E]%held_object_inv & H). specialize (E _ eq_refl).
    change (helds p1 !! h = Some held) in E. rewrite Hh in E. injection E as <-.
    apply bindM_Ok in H as (b & p4 & (w4 & E & ->)%on_os_inv & H).
    apply finally_Ok in E as (s1 & E & T5%forward_close_fd). apply exceptM_Ok in E.
    apply bindM_Ok in E as (u & s2 & (_ & Hv & Ht)%verify_Ok & E). pose proof (meek_present _ _ _ _ E) as [T3 _].
    change (moment (machine_of (p1 <| machine_of := w2 |>))) with (moment w2) in *.
    destruct (bool_decide_reflect (mode before = SHARED)) as [Em|]; [|done].
    destruct (bool_decide_reflect (m = SHARED)) as [->|]; [|done]. cbn [andb] in H.
    apply bindM_Ok in H as (u1 & p5 & [Hb%require_Ok ->]%lift_Ok & H). destruct b; [done|]. injection H as <- <-.
    destruct (Hg _ _ Hh) as (t0 & Ht0 & Hf). rewrite Em in Hf. apply present_Ok in E as Hu.
    exists {| le_held := h; le_released := false; le_entered := false; le_descriptor_borrows := 0 |},
      (before <| references ::= Z.succ |>), (moment w2).
    change (moment (machine_of _)) with (moment w4) at 2 3.
    assert (moment s2 < moment s1)%nat as T4 by (destruct Hu as (k1 & d1 & ? & _); lia).
    split; [apply lookup_last|]. split; [done|]. split.
    { change (alter (λ held, held <| references ::= Z.succ |>) h (helds p1) !! h = Some (before <| references ::= Z.succ |>)).
      by rewrite list_lookup_alter_eq, Hh. }
    split; [change (registry p1 !! state_directory before = Some h); by rewrite Es|]. split; [exact Em|].
    split; [lia|]. split; [destruct Hv; by split|]. split.
    { intros _. destruct (unfenced_mono _ _ (moment w2) (moment w4) _ Hu (Nat.lt_le_incl _ _ Ht) T5) as (k1 & d1 & H1 & H2 & H3). by exists k1, d1. }
    exists t0. split; [exact Hf|]. right. split; [done|]. split; [lia|]. by exists before.
  - apply bindM_Ok in H as (held & p3 & (w3 & E & ->)%on_os_inv & H).
    pose proof (acquire_fresh_Ok _ _ _ _ _ _ _ _ _ E) as (_ & Es & _ & Em).
    apply fresh_evidence in E as (t & Hf & T3 & T4 & Hv & Hu). inv_step H; [|done]. injection H as <- <-.
    change (moment (machine_of (p1 <| machine_of := w2 |>))) with (moment w2) in *.
    exists {| le_held := length (helds p1); le_released := false; le_entered := false; le_descriptor_borrows := 0 |}, held, (S t).
    change (moment (machine_of _)) with (moment w3) at 2 3.
    split; [apply lookup_last|]. split; [done|]. split.
    { change ((helds p1 ++ [held]) !! length (helds p1) = Some held). apply lookup_last. }
    split. { change (<[ state := length (helds p1) ]> (registry p1) !! state_directory held = Some (length (helds p1))).
      rewrite Es. apply lookup_insert_eq. }
    split; [exact Em|]. split; [lia|]. split; [exact Hv|]. split; [exact Hu|]. exists t. split; [exact Hf|by left].
Qed.
End descriptors.

#[local] Existing Instance lease_world.
#[local] Existing Instance lease_kernel.

(** The first acquisition opens 3 and 4, and closes the duplicate it looked through. *)
Lemma leases_leak_nothing_witness : ∃ new, effects (machine_of one_lease) = new ∧
  net 3 new = acquired (new_process start 7) (Ok 0%nat) one_lease 3 ∧ net 3 new = 1 ∧ net 4 new = 1 ∧ net 6 new = 0.
Proof.
  destruct (proj1 (leases_leak_nothing (kernel := lease_kernel) start 7 (new_process start 7)
              (reachable_new _ _) eq_refl) _ _ _ _ _ one_lease_acquired) as (_ & new & Hl & [Hn|(t & fd & m & _ & [=])]).
  exists new. split; [exact Hl|]. rewrite !Hn. split; [reflexivity|]. vm_compute. done.
Defined.

(** The first acquisition, of a shared lease, found the quarantine's directory missing. *)
Lemma lease_stands_for_lock_witness : ∃ held t, helds one_lease !! 0%nat = Some held ∧ lease_verified held t ∧
  unfenced t (moment (machine_of one_lease)) held ∧ ∃ t0, kernel_flock t0 (lock_descriptor held) false = Done tt.
Proof.
  destruct (lease_stands_for_lock start 7 _ 1 SHARED ["state"] 0 one_lease (reachable_new _ _) one_lease_acquired)
    as (x & held & t & Hx & _ & Hh & _ & _ & _ & Hv & Hu & t0 & Hf & _).
  exists held, t. injection Hx as <-. split; [exact Hh|]. split; [exact Hv|]. split; [exact (Hu eq_refl)|]. exists t0. exact Hf.
Defined.
