(* ===== verification/Recovery.v ===== *)
(** * Guarded recovery (src/guildmind/runtime/recovery.py)

    An existing run is brought to a terminal state under a shared maintenance lease: a
    fresh audit of the storage, the identity of every path before and after each step, and
    the artifacts audited again inside SQLite's writer window, before the terminalization
    and before the commit. *)

From coqutil Require Import Datatypes.RecordSettersUsingExistingGetters.
From S2P Require Import Prelude Loop Effects PyStr Files Descriptors Float64 Json Hash Datetime Fields Usage.
From S2P Require Import Models Specs Sqlite EventStore Artifacts Integrity Coordinator Maintenance.

Local Open Scope Z_scope.

(** [EventStore.open_existing_writable(path, clock=..., trusted_base=...)]: what opening the
    database file at a moment gives. *)
Class WritableLedgers := { open_existing_writable : nat → path → path → result store }.

Inductive RecoveryDenialReason :=
  | STORAGE_NOT_RECOVERABLE | RUN_NOT_FOUND | STORAGE_CHANGED | REFERENCED_EVIDENCE_INVALID_DENIAL
  | MAINTENANCE_BUSY.
Definition denial_value (r : RecoveryDenialReason) : string :=
  match r with
  | STORAGE_NOT_RECOVERABLE => "storage_not_recoverable" | RUN_NOT_FOUND => "run_not_found"
  | STORAGE_CHANGED => "storage_changed"
  | REFERENCED_EVIDENCE_INVALID_DENIAL => "referenced_evidence_invalid" | MAINTENANCE_BUSY => "maintenance_busy"
  end.

Inductive _FixtureTerminalizationOperation := RECOVER_INTERRUPTED | BUDGET_REFUSAL.

Definition recovery_denied (r : RecoveryDenialReason) (storage_state : option StorageIntegrityState) : exn :=
  RecoveryDeniedError (denial_value r) (storage_state_value <$> storage_state).

Record FixtureRecoveryResult := { fr_manifest : RunManifest; fr_events : list EventRecord }.

Record _PathIdentity := {
  pi_file_type : option file_kind;
  pi_device : option Z;
  pi_inode : option Z;
  pi_error_number : option Z;
}.
#[export] Instance path_identity_eq_dec : EqDecision _PathIdentity.
Proof. solve_decision. Defined.

Record _StorageIdentity := {
  trusted_base : _PathIdentity;
  si_state_directory : _PathIdentity;
  si_database : _PathIdentity;
  si_artifact_root : _PathIdentity;
  wal : _PathIdentity;
  shm : _PathIdentity;
  journal : _PathIdentity;
}.

(** The process and, oldest first, the tables of each writable session of the ledger as
    they were when it was opened and when it was closed. *)
Record recovery_state := { rc_process : process; rc_sessions : list (database * database) }.
Abbreviation R := (eff recovery_state).

Definition on_process {A} (m : P A) : R A := λ s,
  let '(r, p) := m (rc_process s) in (r, {| rc_process := p; rc_sessions := rc_sessions s |}).
Definition on_system {A} (m : Sys A) : R A := on_process (on_os m).

Definition path_identity_of (o : os_result stat_result) : _PathIdentity :=
  match o with
  | Done m => {| pi_file_type := Some (st_kind m); pi_device := Some (st_dev m); pi_inode := Some (st_ino m);
                 pi_error_number := None |}
  | OSError n =>
      {| pi_file_type := None; pi_device := None; pi_inode := None;
         pi_error_number := if not_found n then None else Some (default (-1) n) |}
  end.

Section recovery.
Context {hashing : Hashing} {datetimes : PydanticDatetime} {parser : PydanticJson}.
Context {world : World} {kernel : Kernel} {ledgers : Ledgers} {writable : WritableLedgers} {env : Environment}.

(** [_observe_path(path)] *)
Definition _observe_path (p : path) : Sys _PathIdentity := call (λ _, path_identity_of (lstat p)).

(** [_capture_storage_identity(state_directory)] *)
Definition _capture_storage_identity (state : path) : Sys _StorageIdentity :=
  base ← _observe_path (path_parent state);
  directory ← _observe_path state;
  db ← _observe_path (state ++ ["runs.db"]);
  artifacts ← _observe_path (state ++ ["artifacts"]);
  w ← _observe_path (state ++ ["runs.db-wal"]);
  s ← _observe_path (state ++ ["runs.db-shm"]);
  j ← _observe_path (state ++ ["runs.db-journal"]);
  mret {| trusted_base := base; si_state_directory := directory; si_database := db; si_artifact_root := artifacts;
          wal := w; shm := s; journal := j |}.

Definition identity_stable (observed expected : _StorageIdentity) (include_sidecars : bool) : bool :=
  bool_decide (trusted_base observed = trusted_base expected) &&
  bool_decide (si_state_directory observed = si_state_directory expected) &&
  bool_decide (si_database observed = si_database expected) &&
  bool_decide (si_artifact_root observed = si_artifact_root expected) &&
  (negb include_sidecars ||
   bool_decide (wal observed = wal expected) && bool_decide (shm observed = shm expected) &&
   bool_decide (journal observed = journal expected)).

(** [_require_storage_identity(...)] *)
Definition _require_storage_identity (state : path) (expected : _StorageIdentity)
    (storage_state : StorageIntegrityState) (include_sidecars : bool) : Sys unit :=
  observed ← _capture_storage_identity state;
  lift (require (identity_stable observed expected include_sidecars)
          (recovery_denied STORAGE_CHANGED (Some storage_state))).

(** What the audit of the locked artifacts must have found. *)
Definition audit_accepted (audit : ArtifactAudit) : bool :=
  complete audit &&
  negb (existsb has_owners (findings audit) || existsb (λ r, negb (bytes_verified r)) (reachable audit)).

(** [_verify_locked_artifacts(state_directory=..., run_id=..., roots=...)] *)
Definition _verify_locked_artifacts (state : path) (roots : list VerifiedRunRoot) : Sys unit :=
  let artifact_root := state ++ ["artifacts"] in
  expected ← lift (verified_run_roots_sha256 roots);
  let has_references := existsb (λ root, bool_decide (m_artifacts (vr_manifest root) ≠ ∅)) roots in
  o ← call (λ _, lstat artifact_root);
  match o with
  | OSError _ => lift (require (negb has_references) (recovery_denied REFERENCED_EVIDENCE_INVALID_DENIAL None))
  | Done _ =>
      audit ← catch
        (store ← open_existing_read_only artifact_root (Some (path_parent state)); audit_now roots store)
        (λ e, if is_store_failure e
              then Some (lift (Err (recovery_denied REFERENCED_EVIDENCE_INVALID_DENIAL None))) else None);
      _ ← lift (require (str_eqb (snapshot_sha256 audit) expected) (recovery_denied STORAGE_CHANGED None));
      lift (require (audit_accepted audit) (recovery_denied REFERENCED_EVIDENCE_INVALID_DENIAL None))
  end.

(** The closure [verify_locked_artifacts] of [_commit_existing_fixture_terminalization]. *)
Definition verify_locked_artifacts (state : path) (expected : _StorageIdentity) (storage_state : StorageIntegrityState)
    (roots : list VerifiedRunRoot) : Sys unit :=
  _ ← _require_storage_identity state expected storage_state false;
  _ ← _verify_locked_artifacts state roots;
  _require_storage_identity state expected storage_state false.

(** [with EventStore.open_existing_writable(...) as event_store: body]; closing the store
    leaves what is on disk. *)
Definition with_event_store {A} (database_path base : path) (body : M A) : R A := λ s,
  let w := machine_of (rc_process s) in
  let w1 := {| moment := S (moment w); effects := effects w |} in
  match open_existing_writable (moment w) database_path base with
  | Err e => (Err e, {| rc_process := (rc_process s) <| machine_of := w1 |>; rc_sessions := rc_sessions s |})
  | Ok st =>
      let '(r, st') := body {| db := db st; left_open := None; ticks := ticks st; checks := checks st; machine := w1 |} in
      (r, {| rc_process := (rc_process s) <| machine_of := machine st' |>;
             rc_sessions := rc_sessions s ++ [(db st, on_disk st')] |})
  end.

(** The exceptions that become [STORAGE_CHANGED]. *)
Definition is_commit_failure (e : exn) : bool :=
  match e with KeyError _ | SqliteIntegrityError _ | SqliteOperationalError _ => true | _ => is_store_failure e end.

(** The operation in the open event store. *)
Definition terminalize_run (operation : _FixtureTerminalizationOperation) (run_id : string) (finished_at : datetime)
    (reason pin : string) (guard : list VerifiedRunRoot → Sys unit) : M EventStoreTerminalResult :=
  match operation with
  | RECOVER_INTERRUPTED => recover_run_with_events run_id finished_at reason (Some pin) (Some guard)
  | BUDGET_REFUSAL => complete_budget_exhaustion_with_events run_id finished_at reason (Some pin) (Some guard)
  end.

(** [_commit_existing_fixture_terminalization(...)] *)
Definition _commit_existing_fixture_terminalization (state : path) (run_id reason : string)
    (operation : _FixtureTerminalizationOperation) (expected : _StorageIdentity)
    (storage_state : StorageIntegrityState) (pin : string) : R FixtureRecoveryResult :=
  terminalized ← exceptM
    (λ e, if is_commit_failure e then recovery_denied STORAGE_CHANGED (Some storage_state) else e)
    (_ ← on_system (_require_storage_identity state expected storage_state true);
     with_event_store (state ++ ["runs.db"]) (path_parent state)
       (_ ← on_machine (_require_storage_identity state expected storage_state false);
        now ← stamp;
        terminalize_run operation run_id (cs_occurred_at now) reason pin
          (verify_locked_artifacts state expected storage_state)));
  mret {| fr_manifest := tr_manifest terminalized; fr_events := tr_events terminalized |}.

(** [_terminalize_existing_fixture_run_under_shared_lease(...)]; the path is absolute. *)
Definition _terminalize_existing_fixture_run_under_shared_lease (state : path) (run_id reason : string)
    (operation : _FixtureTerminalizationOperation) : R FixtureRecoveryResult :=
  _ ← lift (require (bool_decide (state ≠ [])) (recovery_denied STORAGE_NOT_RECOVERABLE None));
  expected ← on_system (_capture_storage_identity state);
  report ← exceptM (λ e, if is_store_failure e then recovery_denied STORAGE_NOT_RECOVERABLE None else e)
    (on_system (audit_storage state));
  _ ← on_system (_require_storage_identity state expected (si_state report) true);
  let denied_with r := recovery_denied r (Some (si_state report)) in
  _ ← lift (require (mutation_allowed report && references_verified report)
        (denied_with (if bool_decide (si_state report = REFERENCED_EVIDENCE_INVALID)
                      then REFERENCED_EVIDENCE_INVALID_DENIAL else STORAGE_NOT_RECOVERABLE)));
  snapshot ← lift (of_option (denied_with STORAGE_NOT_RECOVERABLE) (ledger_snapshot report));
  _ ← lift (require (contains_run snapshot run_id) (denied_with RUN_NOT_FOUND));
  _commit_existing_fixture_terminalization state run_id reason operation expected (si_state report)
    (ls_snapshot_sha256 snapshot).

(** [_diagnostic_storage_state(state_directory)] *)
Definition _diagnostic_storage_state (state : path) : Sys (option StorageIntegrityState) :=
  if bool_decide (state = []) then mret None
  else catch (report ← audit_storage state; mret (Some (si_state report)))
         (λ e, if is_store_failure e then Some (mret None) else None).

(** [_terminalize_existing_fixture_run(...)] *)
Definition _terminalize_existing_fixture_run (patience : nat) (state : path) (run_id reason : string)
    (operation : _FixtureTerminalizationOperation) : R FixtureRecoveryResult :=
  lease ← catch (on_process (acquire_shared patience state))
    (λ e, match e with
          | MaintenanceBusyError _ => Some (lift (Err (recovery_denied MAINTENANCE_BUSY None)))
          | MaintenanceIntegrityError _ _ =>
              Some (diagnostic ← on_system (_diagnostic_storage_state state);
                    lift (Err (recovery_denied STORAGE_NOT_RECOVERABLE diagnostic)))
          | _ => None
          end);
  result ← finally (_terminalize_existing_fixture_run_under_shared_lease state run_id reason operation)
    (λ r, match r with Ok _ => mret tt | Err _ => on_process (close_noted lease) end);
  _ ← exceptM (λ e, match e with
                    | MaintenanceIntegrityError _ _ =>
                        RecoveryPostCommitMaintenanceError (m_run_id (fr_manifest result))
                    | _ => e
                    end) (on_process (close lease));
  mret result.

(** [recover_existing_fixture_run(...)] *)
Definition recover_existing_fixture_run (patience : nat) (state : path) (run_id reason : string)
    : R FixtureRecoveryResult :=
  _terminalize_existing_fixture_run patience state run_id reason RECOVER_INTERRUPTED.

(** [terminalize_existing_fixture_budget_refusal(...)] *)
Definition terminalize_existing_fixture_budget_refusal (patience : nat) (state : path) (run_id reason : string)
    : R FixtureRecoveryResult :=
  _terminalize_existing_fixture_run patience state run_id reason BUDGET_REFUSAL.
End recovery.
