(* ===== verification/RecoveryFacts.v ===== *)
(** * What a recovery is worth (src/guildmind/runtime/recovery.py)

    A recovery that returns stands for an audit that allowed mutation, a ledger that still
    had the audited pin inside the writer window, and artifacts verified there twice; one
    that is denied has changed nothing. *)

From coqutil Require Import Datatypes.RecordSettersUsingExistingGetters.
From S2P Require Import Prelude Loop Effects PyStr Files Descriptors Float64 Json Hash Datetime Fields Usage.
From S2P Require Import Models Specs Replay Sqlite EventStore SampleRun SampleLedger StoreReads StoreGrowth StoreOps.
From S2P Require Import Artifacts ArtifactFacts Integrity Coordinator CoordinatorFacts Maintenance MaintenanceFacts.
From S2P Require Import SampleStore Recovery.

Local Open Scope Z_scope.

Section ledger.
Context {hashing : Hashing} {datetimes : PydanticDatetime} {env : Environment}.

Lemma guard_ran f roots s u s' : call_guard (Some f) roots s = (Ok u, s') → ∃ w w', f roots w = (Ok tt, w').
Proof.
  unfold call_guard, on_machine. destruct (f roots (machine s)) as [[[]|e] w] eqn:E; [|done]. intros _. eauto.
Qed.

(** The ledger inside the writer window had the expected pin, and the guard passed on it. *)
Lemma check_snapshot_Ok pin f s u s' : check_snapshot (Some pin) (Some f) s = (Ok u, s') →
  db s' = db s ∧ ∃ roots, verify_ledger (db s) = Ok roots ∧ verified_run_roots_sha256 roots = Ok pin ∧
    ∃ w w', f roots w = (Ok tt, w').
Proof.
  unfold check_snapshot. cbn [present orb]. intros H. unfold _verified_roots_locked in H. inv_M. open_result.
  match goal with O : outside _ = _ |- _ => apply outside_Ok in O end.
  match goal with G : call_guard _ ?r _ = _ |- _ => pose proof (guard_Ok _ _ _ _ _ G); pose proof (guard_ran _ _ _ _ _ G);
    split; [congruence|]; exists r end.
  split_and!; [congruence|congruence|done].
Qed.

Lemma terminalize_Ok id current st at_ reason p u r s m s' : terminalize id current st at_ reason p u r s = (Ok m, s') →
  _load_manifest_locked (db s') id = Ok m ∧ m_status m = st.
Proof.
  unfold terminalize, _update_budget_locked, _transition_manifest. intros H. inv_M. open_result.
  match goal with C : check_manifest ?x = Ok ?y, V : _save_manifest_locked _ _ _ = _ |- _ =>
    pose proof (settles_manifest _ _ C) as Hc; pose proof (save_load _ _ _ _ _ Hc V) as Hl;
    destruct (check_manifest_inv _ _ C) as (_ & _ & _ & _ & _ & _ & _ & Hs) end.
  match goal with X : execute _ _ = (Ok _, _) |- _ => apply execute_Ok in X as ([= <-] & _) end.
  split; [|by rewrite Hs]. by rewrite (same_runs_load (db s3)).
Qed.

(** A terminalization that returns, pinned and guarded. *)
Record terminalized (id pin : string) (guard : list VerifiedRunRoot → Sys unit) (d : database)
    (res : EventStoreTerminalResult) (d' : database) : Prop := {
  tz_before : ∃ roots, verify_ledger d = Ok roots ∧ verified_run_roots_sha256 roots = Ok pin ∧
    ∃ w w', guard roots w = (Ok tt, w');
  tz_after : ∃ roots, verify_ledger d' = Ok roots ∧ ∃ w w', guard roots w = (Ok tt, w');
  tz_manifest : _load_manifest_locked d' id = Ok (tr_manifest res);
  tz_events : _list_events_locked d' id = Ok (tr_events res);
  tz_terminal : is_terminal (m_status (tr_manifest res)) = true;
}.

Lemma already_Ok id current s res s' : already_terminal id current s = (Ok res, s') →
  db s' = db s ∧ tr_manifest res = current ∧ _list_events_locked (db s) id = Ok (tr_events res).
Proof. unfold already_terminal. intros H. inv_M. done. Qed.

Lemma transaction_guarded {A} f (body : M A) s a s' : _transaction (Some f) body s = (Ok a, s') →
  ∃ s1 s2 roots, db s1 = db s ∧ db s' = db s2 ∧ body s1 = (Ok a, s2) ∧ verify_ledger (db s') = Ok roots ∧
    ∃ w w', f roots w = (Ok tt, w').
Proof.
  intros (_ & s1 & s2 & _ & roots & E1 & E2 & _ & Hb & Hv & s3 & s4 & _ & Hg)%transaction_Ok.
  exists s1, s2, roots. split_and!; try done; [congruence|]. by eapply guard_ran.
Qed.

Lemma recover_Ok id at_ reason pin f s res s' :
  recover_run_with_events id at_ reason (Some pin) (Some f) s = (Ok res, s') →
  terminalized id pin f (db s) res (db s').
Proof.
  unfold recover_run_with_events. intros H. apply bindM_Ok in H as (u & s0 & [_ ->]%lift_Ok & H).
  apply transaction_guarded in H as (s1 & s2 & roots & E1 & E2 & H & Hv & Hg).
  apply bindM_Ok in H as (u1 & s3 & O1%outside_Ok & H).
  apply bindM_Ok in H as (u2 & s4 & (O2 & Hb)%check_snapshot_Ok & H).
  rewrite O1, E1 in Hb. apply bindM_Ok in H as (current & s5 & [Hc ->]%reads_Ok & H).
  apply bindM_Ok in H as (st & s6 & [_ ->]%reads_Ok & H). destruct (is_terminal (m_status current)) eqn:Et.
  - apply already_Ok in H as (E3 & <- & Hl). rewrite <- E2 in E3.
    split; [done|eauto|by rewrite E3|by rewrite E3|done].
  - apply bindM_Ok in H as (u3 & s7 & _ & H). apply bindM_Ok in H as (b & s8 & _ & H).
    apply bindM_Ok in H as ([[used reserved] reason'] & s9 & _ & H).
    apply bindM_Ok in H as (m & s10 & Ht & H). apply terminalize_Ok in Ht as [Hm Hs].
    apply bindM_Ok in H as (roots1 & s11 & Hr & H). apply exceptM_Ok in Hr.
    assert (db s11 = db s10) as E3.
    { unfold _verified_roots_locked in Hr. inv_M. by match goal with O : outside _ = _ |- _ => apply outside_Ok in O end. }
    apply bindM_Ok in H as (evs & s12 & [Hl ->]%reads_Ok & H). apply retM_Ok in H as [-> ->]. rewrite E3 in Hl.
    rewrite E2, E3 in *. split; [done|eauto|done|done|]. cbn [tr_manifest]. by rewrite Hs.
Qed.

Lemma exhaust_Ok id at_ reason pin f s res s' :
  complete_budget_exhaustion_with_events id at_ reason (Some pin) (Some f) s = (Ok res, s') →
  terminalized id pin f (db s) res (db s').
Proof.
  unfold complete_budget_exhaustion_with_events. intros H. apply bindM_Ok in H as (u & s0 & [_ ->]%lift_Ok & H).
  apply transaction_guarded in H as (s1 & s2 & roots & E1 & E2 & H & Hv & Hg).
  apply bindM_Ok in H as (u1 & s3 & O1%outside_Ok & H).
  apply bindM_Ok in H as (u2 & s4 & (O2 & Hb)%check_snapshot_Ok & H).
  rewrite O1, E1 in Hb. apply bindM_Ok in H as (current & s5 & [Hc ->]%reads_Ok & H).
  apply bindM_Ok in H as (st & s6 & [_ ->]%reads_Ok & H). destruct (is_terminal (m_status current)) eqn:Et.
  - apply already_Ok in H as (E3 & <- & Hl). rewrite <- E2 in E3.
    split; [done|eauto|by rewrite E3|by rewrite E3|done].
  - apply bindM_Ok in H as (u3 & s7 & _ & H). apply bindM_Ok in H as (b & s8 & _ & H).
    apply bindM_Ok in H as (u4 & s9 & _ & H). apply bindM_Ok in H as (u5 & s10 & _ & H).
    apply bindM_Ok in H as (m & s11 & Ht & H). apply terminalize_Ok in Ht as [Hm Hs].
    apply bindM_Ok in H as (evs & s12 & [Hl ->]%reads_Ok & H). apply retM_Ok in H as [-> ->].
    rewrite E2 in *. split; [done|eauto|done|done|]. cbn [tr_manifest]. by rewrite Hs.
Qed.

Lemma terminalize_run_Ok op id at_ reason pin f s res s' : terminalize_run op id at_ reason pin f s = (Ok res, s') →
  terminalized id pin f (db s) res (db s').
Proof. destruct op; [apply recover_Ok|apply exhaust_Ok]. Qed.

(** One that raises leaves the tables on disk as they were; one that returns leaves no
    transaction open. *)
Lemma terminalize_run_Err op id at_ reason pin f s e s' : terminalize_run op id at_ reason pin f s = (Err e, s') →
  on_disk s' = on_disk s.
Proof.
  assert (atomic (terminalize_run op id at_ reason pin f)) as Ha; [|by apply Ha].
  unfold terminalize_run, recover_run_with_events, complete_budget_exhaustion_with_events.
  destruct op; apply atomic_bind_pure; try apply pure_lift; intros ?; apply atomic_transaction.
Qed.
Lemma terminalize_run_closed op id at_ reason pin f s res s' : terminalize_run op id at_ reason pin f s = (Ok res, s') →
  on_disk s' = db s'.
Proof.
  assert (closed (terminalize_run op id at_ reason pin f)) as Hc.
  { unfold terminalize_run, recover_run_with_events, complete_budget_exhaustion_with_events.
    destruct op; apply closed_bind_pure; try apply pure_lift; intros ?; apply closed_transaction. }
  intros H. unfold on_disk. destruct (Hc _ _ _ H) as [_ ->]. done.
Qed.
End ledger.

(** ** Closing a lease fails in one way only *)

Definition lease_failure (e : exn) : Prop :=
  (∃ n, e = OSException n) ∨ ∃ r m, e = MaintenanceIntegrityError r m.

Section leases.
Context {world : World} {kernel : Kernel}.

(** [m] raises such errors only. *)
#[local] Abbreviation leased := (raises (S := sys) lease_failure).

Lemma fails_ret {A} (a : A) : leased (mret a).
Proof. apply raises_ret. Qed.
Lemma fails_broken {A} r m : leased (lift (Err (broken r m)) : Sys A).
Proof. apply raises_lift. intros e [= <-]. right. by eexists _, _. Qed.
Lemma fails_intact b r m : leased (intact b r m).
Proof. apply raises_lift. intros e. destruct b; [done|]. intros [= <-]. right. by eexists _, _. Qed.
Lemma fails_trusted {A} r m (o : os_result A) : leased (trusted r m o).
Proof. destruct o; [apply fails_ret|apply fails_broken]. Qed.
Lemma fails_raise_os {A} (o : os_result A) : leased (raise_os o).
Proof. destruct o as [a|n]; [apply fails_ret|]. apply raises_lift. intros e [= <-]. left. eauto. Qed.
Lemma fails_system {A} (f : nat → os_result A) log : leased (system f log).
Proof. by intros s e s' [=]. Qed.
Lemma fails_call {A} (f : FileSystem → A) : leased (call f).
Proof. by intros s e s' [=]. Qed.
Lemma fails_close fd : leased (os_close fd).
Proof. by intros s e s' [=]. Qed.
Lemma fails_scandir fd : leased (os_scandir fd).
Proof. by intros s e s' [=]. Qed.

Ltac solve_fails :=
  repeat first
  [ apply fails_ret | apply fails_broken | apply fails_intact | apply fails_trusted | apply fails_raise_os
  | apply fails_system | apply fails_call | apply fails_close | apply fails_scandir
  | lazymatch goal with
    | |- leased (mbind _ _) => apply raises_bind; [|intros ?]
    | |- leased (finally _ _) => apply raises_finally; [|intros ?]
    | |- leased (match ?x with _ => _ end) => destruct x
    end ].

Lemma fails_verify n h : leased (_verify_held_lease n h).
Proof. unfold _verify_held_lease, fstat_identity, _require_state_path_identity, _require_lock_path_identity. solve_fails. Qed.
Lemma fails_enter fd c : leased (enter_fence_directory fd c).
Proof.
  unfold enter_fence_directory, _require_exact_fence_entry_name, close_on_error, close_fd, fstat_identity, stat_identity.
  cbv zeta. solve_fails.
Qed.
Lemma fails_marker fd : leased (fence_marker_present fd).
Proof.
  unfold fence_marker_present, _require_regular_single_link, _require_exact_fence_entry_name, close_fd,
    fstat_identity, stat_identity. solve_fails.
Qed.
Lemma fails_present h : leased (_quarantine_marker_present h).
Proof.
  unfold _quarantine_marker_present. apply raises_bind; [apply fails_system|intros o].
  apply raises_bind; [apply fails_raise_os|intros fd]. generalize fence_directories. intros l. revert fd.
  induction l as [|c l IH]; intros fd; cbn [walk_fence]; unfold close_fd.
  - apply raises_finally; [apply fails_marker|intros ?]. solve_fails.
  - apply raises_bind; [apply raises_finally; [apply fails_enter|intros ?; solve_fails]|].
    intros [next|]; [|apply fails_ret]. apply raises_bind; [solve_fails|intros _; apply IH].
Qed.

Lemma release_check_found n held s o s' : release_check n held s = (Ok (Some o), s') →
  ∃ r m, o = MaintenanceIntegrityError r m.
Proof.
  unfold release_check, catch. match goal with |- context [?m s] => assert (raises (S := sys) lease_failure m) as Hm end.
  { apply raises_bind; [apply fails_verify|intros _]. apply raises_bind; [|intros _; apply fails_ret].
    destruct (bool_decide _); [|apply fails_ret]. apply raises_bind; [apply fails_present|intros ?; apply fails_intact]. }
  match goal with |- context [?m s] => destruct (m s) as [[o'|e] s1] eqn:E end.
  - intros [= -> <-]. apply bindM_Ok in E as (u & s2 & _ & E). apply bindM_Ok in E as (u1 & s3 & _ & E).
    by apply retM_Ok in E as [[=] _].
  - intros [= <- <-]. destruct (Hm _ _ _ E) as [[m ->]|(r & m & ->)]; by eexists _, _.
Qed.

Lemma drop_found h held found p e p' : (∀ e, found = Some e → ∃ r m, e = MaintenanceIntegrityError r m) →
  drop_reference h held found p = (Ok (Some e), p') → ∃ r m, e = MaintenanceIntegrityError r m.
Proof.
  intros Hf. unfold drop_reference. intros (u & p1 & _ & H)%bindM_Ok. destruct (references held =? 1).
  - unfold drop_last_reference in H. apply bindM_Ok in H as (u1 & p2 & _ & H).
    apply bindM_Ok in H as (o & p3 & _ & H). apply bindM_Ok in H as (b & p4 & _ & H). apply retM_Ok in H as [He _].
    destruct found as [e'|]; [injection He as ->; by apply Hf|].
    destruct o as [[]|n]; [destruct b; [|done]|]; injection He as ->; by eexists _, _.
  - apply retM_Ok in H as [He _]. by apply Hf.
Qed.

(** Closing a lease that exists raises nothing but integrity errors. *)
Lemma close_fails l x held p e p' : counted p → pid p = registry_pid p → leases p !! l = Some x →
  helds p !! le_held x = Some held → close l p = (Err e, p') → ∃ r m, e = MaintenanceIntegrityError r m.
Proof.
  intros Hc Ho Hl Hh H. unfold close in H. rewrite (bind_returned _ _ _ _ _ (lease_object_at _ _ _ Hl)) in H.
  destruct (le_released x); [done|]. apply critical_inv in H as (p1 & H & _ & _ & _ & Es).
  rewrite (Es Ho) in H. clear p1 Es. assert (∀ b r m e, require b (broken r m) = Err e →
    ∃ r m, e = MaintenanceIntegrityError r m) as Hb by (intros [] r m e0; [done|intros [= <-]; by eexists _, _]).
  inv_step H; [|done]. rewrite (bind_returned _ _ _ _ _ (held_object_at _ _ _ Hh)) in H.
  inv_step H; [|by simplify_eq; eapply Hb]. apply bindM_inv in H as [(u & p1 & [= _ <-] & H)|(e1 & [=] & _)].
  inv_step H; [|by simplify_eq; eapply Hb]. inv_step H; [|done]. inv_step H; [|by simplify_eq; eapply Hb].
  apply bindM_inv in H as [(found & p3 & Ev & H)|(e1 & Ev & _)]; cycle 1.
  { exfalso. apply on_os_inv in Ev as (w & Ev & _). unfold release_check, catch in Ev. repeat case_match; simplify_eq. }
  apply on_os_inv in Ev as (w & Ev & _).
  apply bindM_inv in H as [(o & p4 & Ed & H)|(e1 & Ed & _)]; cycle 1.
  { exfalso. clear - Ed. unfold drop_reference, drop_last_reference, set_held, modifies, on_os, mbind, eff_bind in Ed.
    repeat case_match; simplify_eq. }
  destruct o as [e1|]; [|done]. apply lift_Err in H as [[= ->] _]. eapply drop_found; [|exact Ed].
  intros e' ->. by eapply release_check_found.
Qed.
End leases.

(** ** The guarded terminalization *)

Section recovery.
Context {hashing : Hashing} {datetimes : PydanticDatetime} {parser : PydanticJson}.
Context {world : World} {kernel : Kernel} {ledgers : Ledgers} {writable : WritableLedgers} {env : Environment}.

(** The artifacts the roots refer to: none, or an audit of the store, bound to the same
    pin, found every one of them intact. *)
Definition artifacts_verified (roots : list VerifiedRunRoot) : Prop :=
  Forall (λ root, m_artifacts (vr_manifest root) = ∅) roots ∨
  ∃ t store audit, audit_artifact_store (fs := fs_at t) roots store = Ok audit ∧ audit_accepted audit = true ∧
    verified_run_roots_sha256 roots = Ok (snapshot_sha256 audit).

Lemma locked_artifacts_Ok state roots s u s' : _verify_locked_artifacts state roots s = (Ok u, s') →
  artifacts_verified roots.
Proof.
  unfold _verify_locked_artifacts. intros (pin & s1 & [Hp ->]%lift_Ok & H)%bindM_Ok.
  apply bindM_Ok in H as (o & s2 & [= <- <-] & H). destruct (lstat _) as [m|n]; cycle 1.
  - apply lift_Ok in H as [H _]. apply require_Ok in H. left.
    apply negb_true_iff, existsb_Forall in H. eapply Forall_impl; [exact H|].
    intros root Hr. simpl in Hr. apply bool_decide_eq_false in Hr. by apply dec_stable.
  - apply bindM_Ok in H as (audit & s3 & H1 & H). apply bindM_Ok in H as (u1 & s4 & [Hs%require_Ok ->]%lift_Ok & H).
    apply lift_Ok in H as [Ha%require_Ok _]. apply String.eqb_eq in Hs. right.
    apply catch_Ok in H1 as [H1|(e & s5 & k & _ & Hk & Hc)].
    + apply bindM_Ok in H1 as (store & s5 & _ & H1). unfold audit_now in H1.
      apply bindM_Ok in H1 as (r & s6 & [= <- <-] & H1). apply lift_Ok in H1 as [H1 _].
      eexists _, store, audit. split; [exact H1|]. split; [done|]. by rewrite Hs.
    + destruct (is_store_failure e); [|done]. injection Hk as <-. done.
Qed.

Lemma guard_Ok_verified state expected st roots : (∃ w w', verify_locked_artifacts state expected st roots w = (Ok tt, w')) →
  artifacts_verified roots.
Proof.
  intros (w & w' & H). unfold verify_locked_artifacts in H. apply bindM_Ok in H as (u & w1 & _ & H).
  apply bindM_Ok in H as (u1 & w2 & H & _). by eapply locked_artifacts_Ok.
Qed.

(** What a terminalization that returned did to the ledger. *)
Definition recovered (state : path) (id pin : string) (res : FixtureRecoveryResult) (s s' : recovery_state) : Prop :=
  ∃ t st d', open_existing_writable t (state ++ ["runs.db"]) (path_parent state) = Ok st ∧
    rc_sessions s' = rc_sessions s ++ [(db st, d')] ∧
    (∃ roots, verify_ledger (db st) = Ok roots ∧ verified_run_roots_sha256 roots = Ok pin ∧ artifacts_verified roots) ∧
    (∃ roots, verify_ledger d' = Ok roots ∧ artifacts_verified roots) ∧
    _load_manifest_locked d' id = Ok (fr_manifest res) ∧ _list_events_locked d' id = Ok (fr_events res) ∧
    is_terminal (m_status (fr_manifest res)) = true.

(** No session, or one that left its tables as they were. *)
Definition unchanged (s s' : recovery_state) : Prop :=
  rc_sessions s' = rc_sessions s ∨ ∃ d, rc_sessions s' = rc_sessions s ++ [(d, d)].

(** The process is as it was but for its machine. *)
Definition same_process (s s' : recovery_state) : Prop := ∃ w, rc_process s' = (rc_process s) <| machine_of := w |>.

Lemma same_process_refl s : same_process s s.
Proof. exists (machine_of (rc_process s)). destruct s as [p l]. cbn [rc_process]. destruct p. reflexivity. Qed.
Lemma same_process_trans s1 s2 s3 : same_process s1 s2 → same_process s2 s3 → same_process s1 s3.
Proof. intros [w1 E1] [w2 E2]. exists w2. by rewrite E2, E1. Qed.

Lemma on_system_inv {A} (m : Sys A) s r s' : on_system m s = (r, s') →
  same_process s s' ∧ rc_sessions s' = rc_sessions s ∧ ∃ w w', m w = (r, w').
Proof.
  unfold on_system, on_process. destruct (on_os m (rc_process s)) as [r0 p] eqn:E.
  apply on_os_inv in E as (w & E & ->). intros [= <- <-]. split; [by exists w|]. split; [done|eauto].
Qed.

Lemma exceptM_raised {S A} f (m : eff S A) s e s' : exceptM f m s = (Err e, s') → ∃ e', m s = (Err e', s').
Proof. unfold exceptM. destruct (m s) as [[a|e'] s1]; [done|]. intros [= _ <-]. eauto. Qed.

(** The writable session: opened, checked, stamped and terminalized. *)
Lemma session_spec state id reason op expected st0 pin guard s r s' :
  with_event_store (state ++ ["runs.db"]) (path_parent state)
    (_ ← on_machine (_require_storage_identity state expected st0 false);
     now ← stamp;
     terminalize_run op id (cs_occurred_at now) reason pin guard) s = (r, s') →
  same_process s s' ∧
  match r with
  | Err _ => unchanged s s'
  | Ok res => ∃ t st d', open_existing_writable t (state ++ ["runs.db"]) (path_parent state) = Ok st ∧
      rc_sessions s' = rc_sessions s ++ [(db st, d')] ∧ terminalized id pin guard (db st) res d'
  end.
Proof.
  unfold with_event_store. destruct (open_existing_writable _ _ _) as [st|e] eqn:Eo; cycle 1.
  { intros [= <- <-]. split; [by eexists|by left]. }
  match goal with |- (let '(_, _) := ?x in _) = _ → _ => destruct x as [r0 st'] eqn:E end.
  intros [= <- <-]. split; [by eexists|].
  apply bindM_inv in E as [(u & s1 & E1 & E)|(e & E & ->)].
  - assert (db s1 = db st ∧ on_disk s1 = db st) as [D1 D2].
    { unfold on_machine in E1. case_match. by injection E1 as _ <-. }
    apply bindM_inv in E as [(now & s2 & [_ ->]%stamp_Ok & E)|(e & E & _)]; [|done].
    destruct r0 as [res|e].
    + pose proof (terminalize_run_closed _ _ _ _ _ _ _ _ _ E) as Ed. apply terminalize_run_Ok in E. cbn [db] in E.
      rewrite D1 in E. eexists _, st, (db st'). cbn [rc_sessions]. by rewrite Ed.
    + apply terminalize_run_Err in E. right. exists (db st). cbn [rc_sessions].
      assert (on_disk st' = db st) as -> by (rewrite E; exact D2). done.
  - right. exists (db st). unfold on_machine in E. case_match. by injection E as _ <-.
Qed.

Lemma commit_spec state id reason op expected st pin s r s' :
  _commit_existing_fixture_terminalization state id reason op expected st pin s = (r, s') →
  same_process s s' ∧ match r with Ok res => recovered state id pin res s s' | Err _ => unchanged s s' end.
Proof.
  unfold _commit_existing_fixture_terminalization.
  set (guard := verify_locked_artifacts state expected st).
  set (body := _ ← on_machine _; _).
  assert (∀ r s', (_ ← on_system (_require_storage_identity state expected st true);
      with_event_store (state ++ ["runs.db"]) (path_parent state) body) s = (r, s') →
    same_process s s' ∧ match r with
    | Err _ => unchanged s s'
    | Ok res => ∃ t st d', open_existing_writable t (state ++ ["runs.db"]) (path_parent state) = Ok st ∧
        rc_sessions s' = rc_sessions s ++ [(db st, d')] ∧ terminalized id pin guard (db st) res d'
    end) as Hbody.
  { intros r1 s1 [(u & s2 & (P2 & S2 & _)%on_system_inv & H)|(e & (P2 & S2 & _)%on_system_inv & ->)]%bindM_inv.
    - apply session_spec in H as [P3 H]. split; [by eapply same_process_trans|]. unfold unchanged in *. by rewrite <- S2.
    - split; [done|by left]. }
  intros H. apply bindM_inv in H as [(res & s1 & H & Hr)|(e & H & ->)].
  - injection Hr as <- <-. apply exceptM_Ok in H. apply Hbody in H as [HP (t & st' & d' & Ho & Hs & [Hb Ha Hm He Ht])].
    split; [done|]. exists t, st', d'. destruct Hb as (roots & Hv & Hp & Hg), Ha as (roots' & Hv' & Hg').
    split_and!; try done.
    + exists roots. split_and!; [done|done|]. by eapply guard_Ok_verified.
    + exists roots'. split; [done|]. by eapply guard_Ok_verified.
  - apply exceptM_raised in H as [e' H]. by apply Hbody in H.
Qed.

Lemma under_lease_spec state id reason op s r s' :
  _terminalize_existing_fixture_run_under_shared_lease state id reason op s = (r, s') →
  same_process s s' ∧
  match r with
  | Err _ => unchanged s s'
  | Ok res => ∃ report snapshot, (∃ w w', audit_storage state w = (Ok report, w')) ∧
      mutation_allowed report = true ∧ references_verified report = true ∧
      ledger_snapshot report = Some snapshot ∧ contains_run snapshot id = true ∧
      recovered state id (ls_snapshot_sha256 snapshot) res s s'
  end.
Proof.
  unfold _terminalize_existing_fixture_run_under_shared_lease.
  intros H. pose proof (same_process_refl s) as Hs.
  apply bindM_inv in H as [(u & s1 & [_ ->]%lift_Ok & H)|(e & [_ ->]%lift_Err & ->)]; [|split; [done|by left]].
  apply bindM_inv in H as [(expected & s1 & (P1 & S1 & _)%on_system_inv & H)|(e & (P1 & S1 & _)%on_system_inv & ->)];
    [|split; [done|by left]].
  apply bindM_inv in H as [(report & s2 & (P2 & S2 & Hr)%exceptM_Ok%on_system_inv & H)|(e & H & ->)]; cycle 1.
  { apply exceptM_raised in H as (e' & (P2 & S2 & _)%on_system_inv). split; [exact (same_process_trans _ _ _ P1 P2)|left; congruence]. }
  pose proof (same_process_trans _ _ _ P1 P2) as P.
  apply bindM_inv in H as [(u1 & s3 & (P3 & S3 & _)%on_system_inv & H)|(e & (P3 & S3 & _)%on_system_inv & ->)];
    [|split; [exact (same_process_trans _ _ _ P P3)|left; congruence]].
  pose proof (same_process_trans _ _ _ P P3) as P4. cbv zeta in H.
  assert (unchanged s s3) as Hu by (left; congruence).
  apply bindM_inv in H as [(u2 & s4 & [Hg%require_Ok ->]%lift_Ok & H)|(e & [_ ->]%lift_Err & ->)]; [|done].
  apply bindM_inv in H as [(snapshot & s4 & [Hl ->]%lift_Ok & H)|(e & [_ ->]%lift_Err & ->)]; [|done].
  apply bindM_inv in H as [(u3 & s4 & [Hc%require_Ok ->]%lift_Ok & H)|(e & [_ ->]%lift_Err & ->)]; [|done].
  apply commit_spec in H as [P5 H]. split; [exact (same_process_trans _ _ _ P4 P5)|].
  assert (rc_sessions s3 = rc_sessions s) as S by congruence.
  destruct r as [res|e]; [|unfold unchanged in *; by rewrite <- S].
  apply andb_true_iff in Hg as [Hg1 Hg2]. exists report, snapshot. split_and!; try done.
  - destruct (ledger_snapshot report); [by injection Hl as ->|done].
  - unfold recovered in *. by rewrite <- S.
Qed.

Lemma acquire_Ok k m configured p l p' : pid p = registry_pid p → _acquire k m configured p = (Ok l, p') →
  pid p' = registry_pid p' ∧ ∃ x, leases p' !! l = Some x.
Proof.
  intros Ho H. unfold _acquire in H. apply critical_inv in H as (p1 & H & _ & _ & _ & Es). rewrite (Es Ho) in H. clear p1 Es.
  assert (∀ h q, pid q = registry_pid q → new_lease h q = (Ok l, p') → pid p' = registry_pid p' ∧ ∃ x, leases p' !! l = Some x)
    as Hnew by (intros h q Hq [= <- <-]; split; [done|]; eexists; by apply list_lookup_middle).
  inv_step H; [|done]. apply bindM_Ok in H as ([[state fd] i] & p2 & (w2 & _ & ->)%on_os_inv & H).
  inv_step H; [|done]. destruct (registry _ !! state) as [h|].
  - apply bindM_Ok in H as (held & p3 & [-> _]%held_object_inv & H).
    apply bindM_Ok in H as (b & p4 & (w4 & _ & ->)%on_os_inv & H). destruct (_ && _); [|done].
    apply bindM_Ok in H as (u1 & p5 & [_ ->]%lift_Ok & H). apply bindM_Ok in H as (u2 & p6 & [= _ <-] & H).
    by eapply Hnew; [|exact H].
  - apply bindM_Ok in H as (held & p3 & (w3 & _ & ->)%on_os_inv & H). inv_step H; [|done].
    apply bindM_Ok in H as (u & p4 & [= _ <-] & H). by eapply Hnew; [|exact H].
Qed.

(** The process before a recovery: its leases are counted, and it owns its registry. *)
Definition sound_process (p : process) : Prop := counted p ∧ pid p = registry_pid p.

Lemma on_process_inv {A} (m : P A) s r s' : on_process m s = (r, s') →
  rc_sessions s' = rc_sessions s ∧ m (rc_process s) = (r, rc_process s').
Proof. unfold on_process. destruct (m (rc_process s)) as [r0 p]. by intros [= <- <-]. Qed.

(** The lease a recovery holds can be closed, and fails only as an integrity error. *)
Lemma recovery_close k state s lease s1 s2 e s3 : sound_process (rc_process s) →
  on_process (acquire_shared k state) s = (Ok lease, s1) → same_process s1 s2 →
  on_process (close lease) s2 = (Err e, s3) → ∃ r m, e = MaintenanceIntegrityError r m.
Proof.
  intros [Hc Ho] [_ Ha]%on_process_inv [w Ew] [_ H]%on_process_inv.
  destruct (acquire_Ok _ _ _ _ _ _ Ho Ha) as (Ho1 & x & Hx).
  pose proof (keeps_acquire _ _ _ _ _ _ Hc Ha) as Hc1.
  destruct (lookup_lt_is_Some_2 (helds (rc_process s1)) (le_held x)) as [held Hh].
  { pose proof (co_leases _ _ Hc1) as Hl. rewrite Forall_lookup in Hl. by eapply Hl. }
  rewrite Ew in H. eapply (close_fails lease x held); [by apply counted_machine|exact Ho1|exact Hx|exact Hh|exact H].
Qed.

Lemma recovered_sessions state id pin res s s' t t' : rc_sessions s = rc_sessions t → rc_sessions s' = rc_sessions t' →
  recovered state id pin res s s' → recovered state id pin res t t'.
Proof. unfold recovered. by intros -> ->. Qed.

(** The outcomes of a terminalization. *)
Lemma recovery_spec k state id reason op s r s' : sound_process (rc_process s) →
  _terminalize_existing_fixture_run k state id reason op s = (r, s') →
  match r with
  | Err e => unchanged s s' ∨
      ∃ res pin, e = RecoveryPostCommitMaintenanceError (m_run_id (fr_manifest res)) ∧ recovered state id pin res s s'
  | Ok res => ∃ report snapshot, (∃ w w', audit_storage state w = (Ok report, w')) ∧
      mutation_allowed report = true ∧ references_verified report = true ∧
      ledger_snapshot report = Some snapshot ∧ contains_run snapshot id = true ∧
      recovered state id (ls_snapshot_sha256 snapshot) res s s'
  end.
Proof.
  intros Hp H. unfold _terminalize_existing_fixture_run in H.
  apply bindM_inv in H as [(lease & s1 & Ha & H)|(e & Ha & ->)]; cycle 1.
  { left. left. unfold catch in Ha. destruct (on_process _ s) as [[l|e1] s1] eqn:E; [done|].
    apply on_process_inv in E as [S1 _]. destruct e1; try (injection Ha as _ <-; done).
    apply bindM_inv in Ha as [(d & s2 & (_ & S2 & _)%on_system_inv & Ha)|(e1 & (_ & S2 & _)%on_system_inv & _)].
    - injection Ha as _ <-. congruence.
    - congruence. }
  apply catch_Ok in Ha as [Ha|(e & s0 & h & _ & Hh & Ha)]; cycle 1.
  { exfalso. destruct e; try done; injection Hh as <-; [done|]. by apply bindM_Ok in Ha as (d & s2 & _ & Ha). }
  pose proof Ha as [S1 _]%on_process_inv.
  apply bindM_inv in H as [(res & s2 & H & Hr)|(e & H & ->)].
  - apply finally_Ok in H as (s3 & H & [_ ->]%retM_Ok). apply under_lease_spec in H as [P2 Hrec].
    apply bindM_inv in Hr as [(u & s4 & Hcl & Hr)|(e & Hcl & ->)].
    + apply exceptM_Ok, on_process_inv in Hcl as [S4 _]. injection Hr as <- <-.
      destruct Hrec as (report & snapshot & H1 & H2 & H3 & H4 & H5 & H6). exists report, snapshot.
      split_and!; try done. eapply recovered_sessions; [exact S1|symmetry; exact S4|eassumption].
    + destruct Hrec as (report & snapshot & _ & _ & _ & _ & _ & Hrec). right.
      unfold exceptM in Hcl. destruct (on_process (close lease) s3) as [[u|e1] s4] eqn:E; [done|].
      injection Hcl as <- <-. destruct (recovery_close _ _ _ _ _ _ _ _ Hp Ha P2 E) as (r & m & ->).
      apply on_process_inv in E as [S4 _]. exists res, (ls_snapshot_sha256 snapshot). split; [done|].
      eapply recovered_sessions; [exact S1|symmetry; exact S4|eassumption].
  - left. unfold finally in H.
    destruct (_terminalize_existing_fixture_run_under_shared_lease state id reason op s1) as [r0 s2] eqn:Hu.
    apply under_lease_spec in Hu as [_ Hu]. destruct r0 as [res|e0]; [done|].
    assert (∃ s3, on_process (close_noted lease) s2 = (Ok tt, s3)) as [s3 Hn].
    { unfold on_process, close_noted, catch. destruct (close lease (rc_process s2)) as [[[]|e1] p]; by eexists. }
    rewrite Hn in H. injection H as <- <-. apply on_process_inv in Hn as [S3 _].
    unfold unchanged in *. rewrite S3, <- S1. exact Hu.
Qed.

(** C35. A guarded terminalization that returns stands for its evidence: an audit of the
    storage that allowed mutation and verified the references; one writable session of the
    run's database, whose ledger verified inside the writer window with the very pin the
    audit had committed to, every referenced artifact audited intact there; the ledger
    verified again with its artifacts before the commit; and the manifest and events that
    are returned are those the committed ledger holds, of a terminal run. *)
Theorem recovery_stands_for_evidence k state id reason op s res s' : sound_process (rc_process s) →
  _terminalize_existing_fixture_run k state id reason op s = (Ok res, s') →
  ∃ report snapshot, (∃ w w', audit_storage state w = (Ok report, w')) ∧
    mutation_allowed report = true ∧ references_verified report = true ∧
    ledger_snapshot report = Some snapshot ∧ contains_run snapshot id = true ∧
    recovered state id (ls_snapshot_sha256 snapshot) res s s'.
Proof. intros Hp H. exact (recovery_spec _ _ _ _ _ _ _ _ Hp H). Qed.

(** C36. A guarded terminalization that raises has changed nothing: it opened no writable
    session, or one that left the tables as they were - unless the exception says that the
    lease could not be closed after the commit, and then the run did recover. *)
Theorem denied_recovery_changes_nothing k state id reason op s e s' : sound_process (rc_process s) →
  _terminalize_existing_fixture_run k state id reason op s = (Err e, s') →
  unchanged s s' ∨
  ∃ res pin, e = RecoveryPostCommitMaintenanceError (m_run_id (fr_manifest res)) ∧ recovered state id pin res s s'.
Proof. intros Hp H. exact (recovery_spec _ _ _ _ _ _ _ _ Hp H). Qed.
End recovery.

(** ** Samples *)

(** A kernel for the state directory of [ledger_tree]: no fence, and the lock file. *)
Definition recovery_kernel : Kernel :=
  {| kernel_open := λ _ l _, Done match l with Rooted _ => 3 | At _ _ => 4 end;
     kernel_create := λ _ _ _, OSError (Some EEXIST); kernel_dup := λ _ _, Done 6;
     kernel_close := λ _ _, Done tt;
     kernel_fstat := λ _ fd, Done (if fd =? 4 then lock_metadata else sample_metadata Directory 0);
     kernel_stat := λ _ _ name, if str_eqb name MAINTENANCE_LOCK_FILENAME then Done lock_metadata
                                else OSError (Some ENOENT);
     kernel_scan := λ _ _, {| entries := []; scan_error := None |}; kernel_fsync := λ _ _, Done tt;
     kernel_flock := λ _ _ _, Done tt; kernel_unlock := λ _ _, Done tt |}.

Definition idle : recovery_state := {| rc_process := new_process start 7; rc_sessions := [] |}.

(** The recovery of the created run, where opening the database for writing gives [r]. *)
Definition sample_recover (r : result store) : result FixtureRecoveryResult * recovery_state :=
  recover_existing_fixture_run (world := ledger_world true) (kernel := recovery_kernel) (ledgers := sample_ledgers)
    (writable := {| open_existing_writable := λ _ _ _, r |}) 1 ["state"] "run-1" "interrupted_run_recovered" idle.

Lemma idle_sound : sound_process (rc_process idle).
Proof. split; [apply counted_new|done]. Qed.

(** The recovery runs to its end and closes the run. *)
Lemma recovery_stands_for_evidence_witness : ∃ res s', sample_recover (Ok created) = (Ok res, s') ∧
  is_terminal (m_status (fr_manifest res)) = true ∧ ∃ d', rc_sessions s' = [(db created, d')].
Proof.
  destruct (sample_recover (Ok created)) as [[res|e] s'] eqn:E.
  - exists res, s'. split; [reflexivity|].
    destruct (recovery_stands_for_evidence _ _ _ _ _ _ _ _ idle_sound E)
      as (rep & snapshot & _ & _ & _ & _ & _ & t & st & d' & Ho & Hs & _ & _ & _ & _ & Ht).
    injection Ho as <-. split; [exact Ht|]. exists d'. exact Hs.
  - exfalso. apply (f_equal (λ p, is_ok p.1)) in E. vm_compute in E. discriminate E.
Defined.

(** A database that cannot be opened for writing denies the recovery. *)
Lemma denied_recovery_changes_nothing_witness : ∃ e s',
  sample_recover (Err (StoreIntegrityError "database path changed")) = (Err e, s') ∧
  e = RecoveryDeniedError "storage_changed" (Some "healthy") ∧ unchanged idle s'.
Proof.
  destruct (sample_recover (Err (StoreIntegrityError "database path changed"))) as [[res|e] s'] eqn:E.
  - exfalso. apply (f_equal (λ p, is_ok p.1)) in E. vm_compute in E. discriminate E.
  - assert (e = RecoveryDeniedError "storage_changed" (Some "healthy")) as Ee.
    { apply (f_equal fst) in E. vm_compute in E. injection E as <-. reflexivity. }
    exists e, s'. split; [reflexivity|]. split; [exact Ee|].
    destruct (denied_recovery_changes_nothing _ _ _ _ _ _ _ _ idle_sound E) as [H|(res & pin & H & _)]; [exact H|].
    rewrite Ee in H. discriminate H.
Defined.
