(* ===== verification/Runner.v ===== *)
(** * The fixture runner (src/guildmind/runtime/runner.py, src/guildmind/models/)

    One run of a fixture, from the shared lease to the terminal evidence: the task is
    materialized, the run created and started, a model call reserved, recorded, made and
    charged, the patch evaluated, and everything bound in one terminal transaction.  An
    exception closes the run that was created, as a budget refusal or as interrupted. *)

From coqutil Require Import Datatypes.RecordSettersUsingExistingGetters.
From S2P Require Import Prelude Order Loop Effects PyStr Files Descriptors Float64 Json Text Patch Hash Datetime Fields.
From S2P Require Import Usage Budget Models Specs LocalEvaluation Protocol Replay Sqlite EventStore Artifacts Fixture.
From S2P Require Import Integrity Coordinator Maintenance Recovery.

Local Open Scope Z_scope.

(** ** Models and evaluators *)

(** [ModelResponse] and the interface [ModelClient] (models/base.py) *)
Record ModelResponse := { mo_patch : list Byte.byte; mo_usage : BudgetUsage; mo_returned_model : string }.
Class ModelClient := {
  model_id : string;
  maximum_usage : BudgetUsage;
  propose_patch : string → Sys ModelResponse;
}.

(** The interface [Evaluator] (evaluation/base.py) *)
Class Evaluator := {
  evaluator_identity : string;  (* [evaluator_version] *)
  environment_digest : string;
  evaluate : LocalEvaluationSpec → path → option string → Sys LocalEvaluationResult;
}.

(** [LocalEvaluator()] as an evaluator *)
Definition local_evaluator `{Hashing} `{World} `{Workspaces} `{HiddenTests} (patience : positive) : Evaluator :=
  {| evaluator_identity := local_evaluator_version; environment_digest := local_environment_digest;
     evaluate := local_evaluate patience |}.

Definition scripted_usage (input output : Z) : BudgetUsage :=
  {| uncached_input_tokens := input; cache_read_input_tokens := 0; cache_write_input_tokens := 0;
     output_tokens := output; reasoning_tokens := 0; model_calls := 1; model_retries := 0; tool_calls := 0;
     tool_cpu_seconds := fzero; container_wall_seconds := fzero; elapsed_seconds := fzero; estimated_cost_usd := fzero |}.

(** [ScriptedPatchModel(patch_path, ...)] (models/fake.py) *)
Definition ScriptedPatchModel `{Workspaces} (patch_path : path) (id : option string) (maximum actual : option BudgetUsage)
    : ModelClient :=
  let id := default "guildmind/fake-scripted-patch-v1" id in
  {| model_id := id; maximum_usage := default (scripted_usage 64 64) maximum;
     propose_patch := λ problem_statement,
       _ ← lift (require (py_strip_nonempty problem_statement) (ValueError "problem statement cannot be empty"));
       data ← ask_os (λ n, read_bytes n patch_path);
       mret {| mo_patch := data; mo_usage := default (scripted_usage 24 16) actual; mo_returned_model := id |} |}.

(** ** The runner's state *)

(** [EventStore(path, clock=...)]: what opening the database, or creating it, gives. *)
Class EventLedgers := { open_event_store : nat → path → result store }.

Record FixtureRunner := { state_directory_of : path; state_directory_identity : Z * Z }.

Record FixtureRunResult := {
  rr_task : TaskSpec;
  rr_manifest : RunManifest;
  rr_evaluation : EvaluationResult;
  rr_events : list EventRecord;
  rr_replay : ReplayState;
  rr_semantic_digest : string;
  rr_database_path : path;
  rr_artifact_root : path;
}.

(** The process and the sessions of the ledger, and the stamps the runner's clock gave. *)
Record run_state := { rn_recovery : recovery_state; rn_ticks : nat }.
Abbreviation Run := (eff run_state).

Definition on_recovery {A} (m : R A) : Run A := λ s,
  let '(r, c) := m (rn_recovery s) in (r, {| rn_recovery := c; rn_ticks := rn_ticks s |}).
Definition in_system {A} (m : Sys A) : Run A := on_recovery (on_system m).

(** Inside [with EventStore(...)]: the open store, and the two flags that the [except]
    clauses read. *)
Record running := { rs_store : store; run_created : bool; reservation_refused : bool }.
Abbreviation Running := (eff running).

Definition on_store {A} (m : M A) : Running A := λ s,
  let '(r, st) := m (rs_store s) in
  (r, {| rs_store := st; run_created := run_created s; reservation_refused := reservation_refused s |}).
Definition on_files {A} (m : Sys A) : Running A := on_store (on_machine m).
Definition set_run_created : Running unit := λ s,
  (Ok tt, {| rs_store := rs_store s; run_created := true; reservation_refused := reservation_refused s |}).
Definition set_refused : Running unit := λ s,
  (Ok tt, {| rs_store := rs_store s; run_created := run_created s; reservation_refused := true |}).

(** ** Statuses and directories *)

Definition _terminal_status (s : EvaluationStatus) : RunStatus :=
  match s with
  | PASSED => SUCCEEDED
  | EVALUATION_TIMED_OUT => TIMED_OUT
  | EVALUATION_INFRASTRUCTURE_ERROR => INFRASTRUCTURE_ERROR
  | _ => FAILED
  end.

Section runner.
Context {hashing : Hashing} {datetimes : PydanticDatetime} {parser : PydanticJson}.
Context {world : World} {workspaces : Workspaces} {kernel : Kernel}.
Context {ledgers : Ledgers} {writable : WritableLedgers} {stores : EventLedgers} {env : Environment}.
Context {model : ModelClient} {evaluator : Evaluator}.

(** [_directory_identity(path)] *)
Definition _directory_identity (p : path) : Sys (Z * Z) :=
  o ← call (λ _, lstat p);
  match o with
  | OSError _ => corruption "state directory could not be inspected"
  | Done m => _ ← ensure (is_kind Directory m) "state directory is not a real directory"; mret (st_dev m, st_ino m)
  end.

(** [_prepare_state_directory(configured)], for an absolute path *)
Definition _prepare_state_directory (configured : path) : Sys path :=
  _ ← lift (require (bool_decide (configured ≠ [])) (ValueError "state directory cannot be a filesystem root"));
  parent ← resolve_path (path_parent configured);
  let physical := parent ++ [path_name configured] in
  made ← ask (λ n, make_directory n true false physical);
  _ ← match made with
      | Done _ => mret tt
      | OSError e => ensure (bool_decide (e = Some EEXIST)) "state directory could not be created safely"
      end;
  o ← call (λ _, lstat physical);
  match o with
  | OSError _ => corruption "state directory could not be inspected"
  | Done m => _ ← ensure (is_kind Directory m) "state directory is not a real directory"; mret physical
  end.

(** [FixtureRunner(state_directory=...)] *)
Definition new_runner (configured : path) : Sys FixtureRunner :=
  directory ← _prepare_state_directory configured;
  identity ← _directory_identity directory;
  mret {| state_directory_of := directory; state_directory_identity := identity |}.

(** [runner._verify_state_directory_identity()] *)
Definition _verify_state_directory_identity (runner : FixtureRunner) : Sys unit :=
  identity ← _directory_identity (state_directory_of runner);
  ensure (bool_decide (identity = state_directory_identity runner)) "state directory changed after runner initialization".

(** ** One run *)

(** The arguments of [run]. *)
Record run_request := {
  rq_fixture_root : path;
  rq_run_id : string;
  rq_code_revision : string;
  rq_experiment_id : string;
  rq_candidate_id : string;
  rq_seed : Z;
  rq_budget_limits : option BudgetLimits;
}.

Definition default_limits : BudgetLimits :=
  {| max_input_tokens := None; max_output_tokens := None; max_total_tokens := Some 128; max_model_calls := Some 1;
     max_model_retries := Some 0; max_tool_calls := Some 0; max_tool_cpu_seconds := None;
     max_container_wall_seconds := None; max_elapsed_seconds := None; max_estimated_cost_usd := None |}.

(** The pending manifest. *)
Definition pending_manifest (q : run_request) (task : TaskSpec) (limits : BudgetLimits) (created_at : datetime)
    : result RunManifest :=
  check_manifest
    {| m_run_id := rq_run_id q; m_experiment_id := rq_experiment_id q; m_task_id := ts_task_id task;
       m_candidate_id := rq_candidate_id q; m_genome_hash := None; m_requested_model := model_id;
       m_returned_model := None; m_model_parameters := []; m_seed := rq_seed q;
       m_environment_digest := image_digest task; m_code_revision := rq_code_revision q; m_budget_limits := limits;
       m_status := PENDING; m_created_at := created_at; m_started_at := None; m_finished_at := None;
       m_terminal_reason := None; m_artifacts := ∅ |}.

Definition reservation_id : string := "model-request-0001".

(** The run is created, started, and bound to its task. *)
Definition start_in_store (run_id : string) (pending : RunManifest) (task_artifact : ArtifactRef) : Running unit :=
  _ ← on_store (create_run pending);
  _ ← set_run_created;
  started_at ← on_store stamp;
  _ ← on_store (start_run run_id (cs_occurred_at started_at) model_id);
  _ ← on_store (record_artifact run_id "task_spec" task_artifact);
  mret tt.

(** The reservation and its record; a refusal is remembered. *)
Definition dispatch_request (run_id : string) (authority : BudgetAuthority) : Running BudgetAuthority :=
  let maximum := maximum_usage in
  authority ← match Budget.reserve reservation_id maximum authority with
              | Ok a => mret a
              | Err (BudgetExceededError d) => _ ← set_refused; lift (Err (BudgetExceededError d))
              | Err e => lift (Err e)
              end;
  held ← lift (Budget.reserved authority);
  _ ← on_store (start_model_request run_id reservation_id maximum (_used authority) held);
  mret authority.

(** The model is asked, its patch put, and its usage charged. *)
Definition ask_model (run_id : string) (store : FileArtifactStore) (problem_statement : string) (authority : BudgetAuthority)
    : Running (BudgetAuthority * ArtifactRef) :=
  response ← on_files (propose_patch problem_statement);
  patch_artifact ← on_files (put_bytes store (mo_patch response) "text/x-diff; charset=utf-8");
  authority ← lift (Budget.reconcile reservation_id (mo_usage response) authority);
  held ← lift (Budget.reserved authority);
  _ ← on_store (complete_model_response run_id reservation_id (mo_returned_model response) (mo_usage response)
        patch_artifact (_used authority) held);
  mret (authority, patch_artifact).

(** A transcript that the evaluator may have kept: its artifact joins the evidence and the
    evaluation's artifacts. *)
Definition put_transcript (store : FileArtifactStore) (name : string) (raw : option (list Byte.byte))
    (acc : list ArtifactRef * gmap string ArtifactRef) : Running (list ArtifactRef * gmap string ArtifactRef) :=
  match raw with
  | None => mret acc
  | Some data =>
      a ← on_files (put_bytes store data "application/octet-stream");
      mret (acc.1 ++ [a], <[name := a]> acc.2)
  end.

(** [EvaluationResult.model_validate({**evaluation.model_dump(), "evidence": ...})] *)
Definition with_evidence (e : EvaluationResult) (refs : list ArtifactRef) : result EvaluationResult :=
  check_evaluation
    {| evaluation_id := evaluation_id e; er_run_id := er_run_id e; er_run_status := er_run_status e;
       Specs.evaluator_version := Specs.evaluator_version e; task_hash := task_hash e; patch_hash := patch_hash e;
       outcome := outcome e; score := score e; er_result := er_result e; result_sha256 := result_sha256 e;
       evidence := refs; evaluated_at := evaluated_at e; signature := signature e |}.

(** The evaluator is run on the published patch, and its result becomes an evaluation. *)
Definition evaluate_patch (run_id : string) (store : FileArtifactStore) (task : TaskSpec) (spec : LocalEvaluationSpec)
    (patch_artifact : ArtifactRef) : Running (LocalEvaluationResult * EvaluationResult) :=
  _ ← on_files (verify store patch_artifact);
  patch_path ← on_files (path_for store patch_artifact);
  local_result ← on_files (evaluate spec patch_path (Some (sha256 patch_artifact)));
  now ← on_store stamp;
  evaluation ← lift (to_domain_result local_result task (run_id +:+ ":evaluation:0001") run_id
    (_terminal_status (lr_status local_result)) evaluator_identity (sha256 patch_artifact) (cs_occurred_at now));
  mret (local_result, evaluation).

(** The outputs and the evaluation are put. *)
Definition put_evaluation (store : FileArtifactStore) (local_result : LocalEvaluationResult) (evaluation : EvaluationResult)
    : Running (EvaluationResult * gmap string ArtifactRef) :=
  stdout_artifact ← on_files (put_text store (stdout local_result) "text/plain; charset=utf-8");
  stderr_artifact ← on_files (put_text store (lr_stderr local_result) "text/plain; charset=utf-8");
  let acc := ([stdout_artifact; stderr_artifact],
              <["evaluation_stdout" := stdout_artifact]> {["evaluation_stderr" := stderr_artifact]}) in
  acc ← put_transcript store "evaluation_candidate_stdout" (raw_candidate_stdout local_result) acc;
  acc ← put_transcript store "evaluation_scorer_stdout" (raw_scorer_stdout local_result) acc;
  evaluation ← lift (with_evidence evaluation acc.1);
  text ← lift (canonical_json (dump_evaluation evaluation));
  evaluation_artifact ← on_files (put_text store text "application/vnd.guildmind.evaluation+json");
  mret (evaluation, <["evaluation" := evaluation_artifact]> acc.2).

Definition evaluation_payload_of (evaluation : EvaluationResult) (status : EvaluationStatus) : dict :=
  [("outcome", JStr (outcome_value (outcome evaluation))); ("result_sha256", JStr (result_sha256 evaluation));
   ("score", dump_opt JFloat (score evaluation)); ("status", JStr (evaluation_status_value status))].

(** Everything is bound in one terminal transaction. *)
Definition finish (run_id : string) (authority : BudgetAuthority) (local_result : LocalEvaluationResult)
    (evaluation : EvaluationResult) (arts : gmap string ArtifactRef) : Running EventStoreTerminalResult :=
  now ← on_store stamp;
  let terminal_status := _terminal_status (lr_status local_result) in
  let terminal_reason := if bool_decide (terminal_status = SUCCEEDED) then None
                         else Some (evaluation_status_value (lr_status local_result)) in
  held ← lift (Budget.reserved authority);
  on_store (complete_evaluation_with_events run_id arts (evaluation_payload_of evaluation (lr_status local_result))
    terminal_status (cs_occurred_at now) terminal_reason (_used authority) held).

(** What the first half of a run does, up to the recorded request. *)
Definition until_dispatch (run_id : string) (pending : RunManifest) (task_artifact : ArtifactRef) (limits : BudgetLimits)
    : Running BudgetAuthority :=
  _ ← start_in_store run_id pending task_artifact;
  dispatch_request run_id (new_authority limits).

(** The body of [with EventStore(...) as event_store]. *)
Definition run_in_store (run_id : string) (store : FileArtifactStore) (task : TaskSpec) (spec : LocalEvaluationSpec)
    (problem_statement : string) (pending : RunManifest) (task_artifact : ArtifactRef) (limits : BudgetLimits)
    : Running (EvaluationResult * EventStoreTerminalResult) :=
  authority ← until_dispatch run_id pending task_artifact limits;
  answered ← ask_model run_id store problem_statement authority;
  evaluated ← evaluate_patch run_id store task spec answered.2;
  put ← put_evaluation store evaluated.1 evaluated.2;
  terminal ← finish run_id answered.1 evaluated.1 put.1 put.2;
  mret (put.1, terminal).

(** [with EventStore(path, clock=...) as event_store: body], the exception and the flags
    handed to the [except] clauses. *)
Definition in_event_store {A} (database_path : path) (body : Running A) : Run (result A * bool * bool) := λ s,
  let c := rn_recovery s in
  let w := machine_of (rc_process c) in
  let w1 := {| moment := S (moment w); effects := effects w |} in
  match open_event_store (moment w) database_path with
  | Err e => (Ok (Err e, false, false),
              s <| rn_recovery := c <| rc_process := (rc_process c) <| machine_of := w1 |> |> |>)
  | Ok st =>
      let opened := {| db := db st; left_open := None; ticks := rn_ticks s; checks := checks st; machine := w1 |} in
      let '(r, b) := body {| rs_store := opened; run_created := false; reservation_refused := false |} in
      let closed := rs_store b in
      (Ok (r, run_created b, reservation_refused b),
       {| rn_recovery := {| rc_process := (rc_process c) <| machine_of := machine closed |>;
                            rc_sessions := rc_sessions c ++ [(db st, on_disk closed)] |};
          rn_ticks := ticks closed |})
  end.

(** [try: m; except BaseException as other: error.add_note(...)] *)
Definition noted {A} (m : Run A) : Run unit := catch (_ ← m; mret tt) (λ _, Some (mret tt)).

Definition is_budget_exceeded (e : exn) : bool := match e with BudgetExceededError _ => true | _ => false end.

(** The [except] clauses: what becomes of the run that was created. *)
Definition close_run (patience : nat) (state : path) (run_id : string) (created refused : bool) (e : exn) : Run unit :=
  if is_budget_exceeded e && refused
  then noted (on_recovery (terminalize_existing_fixture_budget_refusal patience state run_id "model_reservation_refused"))
  else if (created : bool)
  then noted (on_recovery (recover_existing_fixture_run patience state run_id "runner_exception"))
  else mret tt.

(** The runner's clock. *)
Definition run_stamp : Run ClockStamp := λ s,
  (Ok (clock_stamp (rn_ticks s)), {| rn_recovery := rn_recovery s; rn_ticks := S (rn_ticks s) |}).

(** [runner._run_with_shared_lease(...)] *)
Definition _run_with_shared_lease (patience : nat) (reads : positive) (runner : FixtureRunner) (q : run_request)
    : Run FixtureRunResult :=
  let state := state_directory_of runner in
  let run_id := rq_run_id q in
  _ ← in_system (_verify_state_directory_identity runner);
  let artifact_root := state ++ ["artifacts"] in
  let database_path := state ++ ["runs.db"] in
  store ← in_system (new_store artifact_root (Some (path_parent state)));
  fixture_root ← in_system (resolve_path (rq_fixture_root q));
  '((task, spec, problem_statement) : TaskSpec * LocalEvaluationSpec * string) ←
    in_system (materialize_fixture_task reads fixture_root store evaluator_identity environment_digest);
  text ← lift (canonical_json (dump_task task));
  task_artifact ← in_system (put_text store text "application/vnd.guildmind.task+json");
  let limits := default default_limits (rq_budget_limits q) in
  created_at ← run_stamp;
  pending ← lift (pending_manifest q task limits (cs_occurred_at created_at));
  '((outcome, created, refused) : result (EvaluationResult * EventStoreTerminalResult) * bool * bool) ←
    in_event_store database_path
      (run_in_store run_id store task spec problem_statement pending task_artifact limits);
  '((evaluation, terminal) : EvaluationResult * EventStoreTerminalResult) ←
    match outcome with
    | Ok r => mret r
    | Err e => _ ← close_run patience state run_id created refused e; lift (Err e)
    end;
  replay ← lift (replay_events (tr_events terminal) true);
  digest ← lift (semantic_digest (tr_events terminal));
  mret {| rr_task := task; rr_manifest := tr_manifest terminal; rr_evaluation := evaluation;
          rr_events := tr_events terminal; rr_replay := replay; rr_semantic_digest := digest;
          rr_database_path := database_path; rr_artifact_root := artifact_root |}.

(** [runner.run(...)] *)
Definition run (patience : nat) (reads : positive) (runner : FixtureRunner) (q : run_request) : Run FixtureRunResult :=
  _ ← in_system (_verify_state_directory_identity runner);
  lease ← on_recovery (on_process (acquire_shared patience (state_directory_of runner)));
  result ← finally (_run_with_shared_lease patience reads runner q)
    (λ r, match r with Ok _ => mret tt | Err _ => on_recovery (on_process (close_noted lease)) end);
  _ ← exceptM (λ e, match e with
                    | MaintenanceIntegrityError _ _ => FixtureRunPostCommitMaintenanceError (m_run_id (rr_manifest result))
                    | _ => e
                    end) (on_recovery (on_process (close lease)));
  mret result.
End runner.
