(* ===== verification/RunnerFacts.v ===== *)
(** * What a run is worth (src/guildmind/runtime/runner.py)

    A run that returns stands for a terminal run in a verified ledger, bound to the
    evaluation that was made of it.  The model is only asked once its request is recorded
    and within the caps.  However a run ends, it has only extended its ledger, and any
    other session was a guarded terminalization. *)

From coqutil Require Import Datatypes.RecordSettersUsingExistingGetters.
From S2P Require Import Prelude Order Loop Effects PyStr Files Descriptors Float64 Json Text Patch Hash Datetime Fields.
From S2P Require Import Usage Budget Models Specs LocalEvaluation Protocol Replay ReplayFacts Sqlite EventStore StoreReads.
From S2P Require Import StoreGrowth StoreOps Artifacts ArtifactFacts Fixture FixtureFacts Integrity Coordinator.
From S2P Require Import Maintenance MaintenanceFacts Recovery RecoveryFacts Runner.

Local Open Scope Z_scope.

Section ledger.
Context {hashing : Hashing} {datetimes : PydanticDatetime} {env : Environment}.

(** ** What an open session does to its tables *)

(** However the program ends, the tables have only grown. *)
Definition extends {A} (m : Running A) : Prop :=
  ∀ s r s', m s = (r, s') → grows (on_disk (rs_store s)) (on_disk (rs_store s')).
(** The tables are as they were. *)
Definition silent {A} (m : Running A) : Prop := ∀ s r s', m s = (r, s') →
  db (rs_store s') = db (rs_store s) ∧ left_open (rs_store s') = left_open (rs_store s).

Lemma extends_silent {A} (m : Running A) : silent m → extends m.
Proof.
  intros Hm s r s' H. destruct (Hm _ _ _ H) as [E1 E2]. unfold on_disk. rewrite E1, E2. apply grows_refl.
Qed.

Lemma silent_ret {A} (a : A) : silent (mret a).
Proof. by intros s r s' [= _ <-]. Qed.
Lemma silent_lift {A} (r : result A) : silent (lift r).
Proof. by intros s r0 s' [= _ <-]. Qed.
Lemma silent_created : silent set_run_created.
Proof. by intros s r s' [= _ <-]. Qed.
Lemma silent_refused : silent set_refused.
Proof. by intros s r s' [= _ <-]. Qed.
Lemma on_store_inv {A} (m : M A) s r s' : on_store m s = (r, s') →
  m (rs_store s) = (r, rs_store s') ∧ run_created s' = run_created s ∧ reservation_refused s' = reservation_refused s.
Proof. unfold on_store. destruct (m (rs_store s)) as [r0 st]. by intros [= <- <-]. Qed.
Lemma on_store_run {A} (m : M A) s r st : m (rs_store s) = (r, st) →
  on_store m s = (r, {| rs_store := st; run_created := run_created s; reservation_refused := reservation_refused s |}).
Proof. unfold on_store. by intros ->. Qed.
Lemma silent_store {A} (m : M A) : pure m → silent (on_store m).
Proof. intros Hm s r s' (H & _)%on_store_inv. by eapply Hm. Qed.
Lemma silent_stamp : silent (on_store stamp).
Proof. by intros s r s' [= _ <-]. Qed.
Lemma silent_files {A} (m : Sys A) : silent (on_files m).
Proof. apply silent_store. intros s r s'. unfold on_machine. destruct (m (machine s)). by intros [= _ <-]. Qed.

Lemma silent_bind {A B} (m : Running A) (f : A → Running B) : silent m → (∀ a, silent (f a)) → silent (m ≫= f).
Proof.
  intros Hm Hf s r s' [(a & s1 & H1 & H2)|(e & H1 & _)]%bindM_inv; [|by eapply Hm].
  destruct (Hf _ _ _ _ H2) as [-> ->]. by eapply Hm.
Qed.
Lemma extends_bind {A B} (m : Running A) (f : A → Running B) : extends m → (∀ a, extends (f a)) → extends (m ≫= f).
Proof.
  intros Hm Hf s r s' [(a & s1 & H1 & H2)|(e & H1 & _)]%bindM_inv; [|by eapply Hm].
  eapply grows_trans; [by eapply Hm|by eapply Hf].
Qed.

(** A writing operation of the store. *)
Lemma extends_operation {A} (m : M A) op : (∀ s, exec op s = (_ ← m; mret tt) s) → extends (on_store m).
Proof.
  intros E s r s' (H & _)%on_store_inv. destruct r as [a|e].
  - assert (exec op (rs_store s) = (Ok tt, rs_store s')) as Hop by (rewrite E; unfold mbind, eff_bind; by rewrite H).
    destruct (exec_closed _ _ _ Hop) as [E1 E2]. unfold on_disk. rewrite E1, E2. by apply (growing_exec op _ tt).
  - destruct (atomic_exec op (rs_store s) e (rs_store s')) as [-> _]; [|apply grows_refl].
    rewrite E. unfold mbind, eff_bind. by rewrite H.
Qed.
Create HintDb running.
#[local] Hint Resolve silent_ret silent_lift silent_created silent_refused silent_stamp silent_files : running.

Lemma extends_create m : extends (on_store (create_run m)).
Proof. by apply (extends_operation _ (CreateRun m)). Qed.
Lemma extends_start id t model : extends (on_store (start_run id t model)).
Proof. by apply (extends_operation _ (StartRun id t model)). Qed.
Lemma extends_record id n a : extends (on_store (record_artifact id n a)).
Proof. by apply (extends_operation _ (RecordArtifact id n a)). Qed.
Lemma extends_request id rid m u r : extends (on_store (start_model_request id rid m u r)).
Proof. by apply (extends_operation _ (StartModelRequest id rid m u r)). Qed.
Lemma extends_response id rid rm a p u r : extends (on_store (complete_model_response id rid rm a p u r)).
Proof. by apply (extends_operation _ (CompleteModelResponse id rid rm a p u r)). Qed.
Lemma extends_complete id arts ep st t reason u r :
  extends (on_store (complete_evaluation_with_events id arts ep st t reason u r)).
Proof. by apply (extends_operation _ (CompleteEvaluation id arts ep st t reason u r)). Qed.
#[local] Hint Resolve extends_create extends_start extends_record extends_request extends_response extends_complete : running.

Ltac solve_running := repeat first
  [ by eauto with running | apply extends_silent; by eauto with running | apply extends_bind; [|intros ?]
  | match goal with |- extends (match ?x with _ => _ end) => destruct x end ].

Ltac solve_silent := repeat first
  [ by eauto with running | apply silent_bind; [|intros ?]
  | match goal with |- silent (match ?x with _ => _ end) => destruct x end ].

Section program.
Context {parser : PydanticJson} {world : World} {workspaces : Workspaces} {kernel : Kernel}.
Context {model : ModelClient} {evaluator : Evaluator}.

Lemma silent_evaluate id store task spec a : silent (evaluate_patch id store task spec a).
Proof. unfold evaluate_patch. solve_silent. Qed.
Lemma silent_put store l e : silent (put_evaluation store l e).
Proof. unfold put_evaluation, put_transcript. solve_silent. Qed.
#[local] Hint Resolve silent_evaluate silent_put : running.

Lemma extends_until_dispatch id pending a limits : extends (until_dispatch id pending a limits).
Proof. unfold until_dispatch, start_in_store, dispatch_request. solve_running. Qed.
Lemma extends_ask id store p a : extends (ask_model id store p a).
Proof. unfold ask_model. solve_running. Qed.
Lemma extends_finish id a l e arts : extends (finish id a l e arts).
Proof. unfold finish. solve_running. Qed.
#[local] Hint Resolve extends_until_dispatch extends_ask extends_finish : running.

(** However a run's session ends, it has only extended the ledger. *)
Lemma extends_run id store task spec p pending a limits : extends (run_in_store id store task spec p pending a limits).
Proof. unfold run_in_store. solve_running. Qed.

(** ** The recorded request *)

(** A run of a verified ledger has an identifier that needs no stripping. *)
Lemma verified_settled d roots id : verify_ledger d = Ok roots → has_run d id = true → c_nonempty id = Ok id.
Proof.
  intros Hv Hr. destruct (verified_has_run _ _ _ Hv Hr) as (row & root & <- & Hrow & _).
  apply verify_run_inv in Hrow as (st & evs & _ & (evs' & used & res & Hl & Hne & _)%validated_state_inv & _).
  apply list_events_stream in Hl as [Hs _]. by eapply stream_id_settled.
Qed.

Lemma load_has_run d id m : _load_manifest_locked d id = Ok m → has_run d id = true.
Proof. rewrite has_run_find. unfold _load_manifest_locked. by destruct (find_run d id). Qed.

Lemma request_settled id rid m u r s x s' : start_model_request id rid m u r s = (Ok x, s') →
  c_nonempty id = Ok id ∧ ∃ roots, verify_ledger (db s') = Ok roots.
Proof.
  unfold start_model_request. intros H. do 2 (apply bindM_Ok in H as (? & ? & [_ ->]%lift_Ok & H)).
  apply transaction_Ok in H as (_ & s1 & s2 & roots & roots' & _ & E2 & Hv & Hb & Hv' & _).
  apply bindM_Ok in Hb as (m0 & ? & [Hl%load_has_run _]%reads_Ok & _). split; [exact (verified_settled _ _ _ Hv Hl)|].
  exists roots'. congruence.
Qed.

(** What the ledger says when the model is asked. *)
Record recorded (id : string) (maximum : BudgetUsage) (authority : BudgetAuthority) (d : database) : Prop := {
  rc_verified : ∃ roots, verify_ledger d = Ok roots;
  rc_manifest : ∃ m total held, _load_manifest_locked d id = Ok m ∧ m_status m = RUNNING ∧
    Budget.reserved authority = Ok held ∧ _load_budget_locked d id = Ok (_used authority, held) ∧
    _add_usage (_used authority) held = Ok total ∧ exceeded_limits total (m_budget_limits m) = [];
  rc_stream : ∃ evs e1 e2 st, _list_events_locked d id = Ok (evs ++ [e1; e2]) ∧
    event_type e1 = "model.request_started" ∧
    payload e1 = sort_dict [("maximum", dump_usage maximum); ("request_id", JStr reservation_id)] ∧
    event_type e2 = "budget.snapshot" ∧ replay_events (evs ++ [e1; e2]) false = Ok st ∧ model_request_state st = started;
}.

(** After a request and its snapshot the request is outstanding. *)
Lemma request_outstanding evs e1 e2 st : replay_events (evs ++ [e1; e2]) false = Ok st →
  event_type e1 = "model.request_started" → event_type e2 = "budget.snapshot" → model_request_state st = started.
Proof.
  intros (r & first & _ & _ & Hf & -> & _)%replay_events_fold T1 T2.
  replace (evs ++ [e1; e2]) with ((evs ++ [e1]) ++ [e2]) in Hf by by rewrite <- app_assoc.
  rewrite !foldM_snoc in Hf. apply bind_Ok in Hf as (r1 & (r0 & _ & H1)%bind_Ok & H2).
  apply replay_refines_lifecycle in H1 as (k1 & K1 & L1), H2 as (k2 & K2 & L2).
  rewrite T1 in K1. rewrite T2 in K2. injection K1 as <-. injection K2 as <-.
  change (ph_request (phase_of r) = started). revert L1 L2. generalize (phase_of r0) (phase_of r1) (phase_of r).
  intros p0 p1 p2 L1 L2. inversion L1; subst. by inversion L2.
Qed.

Lemma request_recorded id m (authority : BudgetAuthority) held s x s' : usage_valid (_used authority) = true →
  Budget.reserved authority = Ok held → start_model_request id reservation_id m (_used authority) held s = (Ok x, s') →
  recorded id m authority (db s').
Proof.
  intros Hu Hh H. destruct x as [e1 e2]. destruct (request_settled _ _ _ _ _ _ _ _ H) as [Hid (roots & Hv)].
  assert (usage_valid held = true) as Hr by (apply check_usage_Ok in Hh as [-> ?]; done).
  destruct (request_reserved _ _ _ _ _ _ _ _ _ Hu Hr Hid H) as
    [(m0 & _ & Hs & Hl & total & Ht & Hx) _ _ (evs & _ & Hevs) [T1 P1] [T2 _] Hi _].
  split; [eauto|by exists m0, total, held|]. exists evs, e1, e2.
  destruct (verified_has_run _ _ _ Hv (load_has_run _ _ _ Hl)) as (row & root & <- & Hrow & _).
  apply verify_run_inv in Hrow as (st & evs' & _ & _ & Hl' & Hrep%replay_any & _). rewrite Hevs in Hl'. injection Hl' as <-.
  exists st. split_and!; try done. by eapply request_outstanding.
Qed.

Lemma reserve_used id m a a' : Budget.reserve id m a = Ok a' → _used a' = _used a.
Proof. unfold Budget.reserve. intros H. inv_ok. destruct (exceeded_limits _ _); [|done]. by injection H as <-. Qed.

(** The refusal flag is not touched. *)
Definition unrefusing {A} (m : Running A) : Prop := ∀ s r s', m s = (r, s') → reservation_refused s' = reservation_refused s.
Lemma unrefusing_bind {A B} (m : Running A) (f : A → Running B) : unrefusing m → (∀ a, unrefusing (f a)) → unrefusing (m ≫= f).
Proof.
  intros Hm Hf s r s' [(a & s1 & H1 & H2)|(e & H1 & _)]%bindM_inv; [|by eapply Hm].
  by rewrite (Hf _ _ _ _ H2), (Hm _ _ _ H1).
Qed.
Lemma unrefusing_store {A} (m : M A) : unrefusing (on_store m).
Proof. by intros s r s' (_ & _ & F)%on_store_inv. Qed.

Lemma start_keeps_flag id pending a : unrefusing (start_in_store id pending a).
Proof.
  unfold start_in_store. repeat (apply unrefusing_bind; [|intros ?]); try apply unrefusing_store; by intros s r s' [= _ <-].
Qed.

(** C7. The model is only asked once its request is on record: when the run has got as far
    as the model, the ledger verifies, its stream ends with the request, for the model's
    maximum, and the snapshot of the reserved amounts; the request is outstanding and used
    plus reserved is within every cap of the manifest.  A run whose reservation is refused
    has recorded nothing after its task. *)
Theorem dispatch_is_recorded id pending task_artifact limits s r s' : reservation_refused s = false →
  until_dispatch id pending task_artifact limits s = (r, s') →
  match r with
  | Ok authority => recorded id maximum_usage authority (db (rs_store s'))
  | Err e => reservation_refused s' = true → is_budget_exceeded e = true ∧
      ∃ s1, start_in_store id pending task_artifact s = (Ok tt, s1) ∧ rs_store s' = rs_store s1
  end.
Proof.
  intros Hf H. unfold until_dispatch in H. apply bindM_inv in H as [([] & s1 & Hs & H)|(e & Hs & ->)].
  - assert (reservation_refused s1 = false) as Hf1 by by rewrite (start_keeps_flag _ _ _ _ _ _ Hs).
    unfold dispatch_request in H. apply bindM_inv in H as [(a & s2 & Ha & H)|(e & Ha & ->)].
    + destruct (Budget.reserve _ _ _) as [a0|e] eqn:E; [|by destruct e].
      apply retM_Ok in Ha as [-> ->]. apply reserve_used in E.
      apply bindM_inv in H as [(held & s3 & [Hh ->]%lift_Ok & H)|(e & [_ ->]%lift_Err & ->)]; [|congruence].
      apply bindM_inv in H as [(x & s4 & (H4 & _)%on_store_inv & H)|(e & (_ & _ & F)%on_store_inv & ->)]; [|congruence].
      injection H as <- <-. eapply request_recorded; [by rewrite E|done|done].
    + intros Ht. destruct (Budget.reserve _ _ _) as [a0|e'] eqn:E; [done|].
      destruct e'; try (injection Ha as <- <-; congruence). injection Ha as <- <-. split; [done|]. by exists s1.
  - intros Ht. exfalso. rewrite (start_keeps_flag _ _ _ _ _ _ Hs) in Ht. congruence.
Qed.

(** ** The terminal transaction *)

Lemma check_manifest_artifacts m m' : check_manifest m = Ok m' → m_artifacts m' = m_artifacts m ∧ m_status m' = m_status m.
Proof.
  unfold check_manifest. intros H. inv_ok. cbn [m_artifacts m_status]. split; [|done].
  match goal with C : c_artifacts _ = Ok _ |- _ => unfold c_artifacts in C; destruct (forallb _ _); [|done]; by injection C end.
Qed.

Lemma update_budget_runs id u r s x s' : _update_budget_locked id u r s = (Ok x, s') →
  runs (db s') = runs (db s) ∧ run_manifests (db s') = run_manifests (db s) ∧ events (db s') = events (db s).
Proof.
  unfold _update_budget_locked. intros H. inv_M.
  match goal with X : execute _ _ = (Ok _, _) |- _ => apply execute_Ok in X as ([= <-] & _) end. done.
Qed.

Lemma append_keeps_manifest id name p s e s' k : _append_locked id name p s = (Ok e, s') →
  _load_manifest_locked (db s') k = _load_manifest_locked (db s) k.
Proof. intros ((Hr & Hm & _) & _)%append_tables. by apply same_runs_load. Qed.

Lemma saved_manifest id m m' s x s' s2 : _transition_manifest m = Ok m' → _save_manifest_locked id m' s = (Ok x, s') →
  runs (db s2) = runs (db s') → run_manifests (db s2) = run_manifests (db s') → _load_manifest_locked (db s2) id = Ok m'.
Proof.
  intros Hc%settles_manifest Hs Hr Hm. rewrite (same_runs_load (db s')) by done. by eapply save_load.
Qed.

Lemma response_Ok id rid rm a p u r s m s' : complete_model_response id rid rm a p u r s = (Ok m, s') →
  _load_manifest_locked (db s') id = Ok m ∧ m_artifacts m !! "patch" = Some p.
Proof.
  unfold complete_model_response. intros (_ & s1 & s2 & _ & _ & _ & E2 & _ & H & _)%transaction_Ok. rewrite E2.
  do 11 (apply bindM_Ok in H as (? & ? & _ & H)). apply bindM_Ok in H as (m' & ? & [Ht _]%lift_Ok & H).
  do 3 (apply bindM_Ok in H as (? & ? & _ & H)). apply bindM_Ok in H as ([] & ? & Hs & H).
  apply bindM_Ok in H as (? & ? & (Hr & Hm & _)%update_budget_runs & [-> ->]%retM_Ok).
  split; [by eapply saved_manifest|]. apply check_manifest_artifacts in Ht as [-> _]. cbn [with_artifacts with_changes m_artifacts].
  by rewrite lookup_insert_eq.
Qed.

(** What completing an evaluation leaves. *)
Record completed_run (id : string) (arts : gmap string ArtifactRef) (st : RunStatus) (d : database)
    (res : EventStoreTerminalResult) (d' : database) : Prop := {
  cr_verified : ∃ roots, verify_ledger d' = Ok roots;
  cr_manifest : _load_manifest_locked d' id = Ok (tr_manifest res);
  cr_events : _list_events_locked d' id = Ok (tr_events res);
  cr_status : m_status (tr_manifest res) = st ∧ is_terminal st = true;
  cr_artifacts : ∃ current, _load_manifest_locked d id = Ok current ∧
    m_artifacts (tr_manifest res) = arts ∪ m_artifacts current;
}.

Lemma complete_Ok id arts ep st t reason u r s res s' :
  complete_evaluation_with_events id arts ep st t reason u r s = (Ok res, s') →
  completed_run id arts st (db s) res (db s').
Proof.
  unfold complete_evaluation_with_events. intros H. apply bindM_Ok in H as (? & ? & [Hst%require_Ok ->]%lift_Ok & H).
  do 3 (apply bindM_Ok in H as (? & ? & [_ ->]%lift_Ok & H)).
  apply transaction_Ok in H as (_ & s1 & s2 & _ & roots & E1 & E2 & _ & H & Hv & _). rewrite E2, <- E1.
  apply bindM_Ok in H as (current & ? & [Hl ->]%reads_Ok & H). do 7 (apply bindM_Ok in H as (? & ? & _ & H)).
  apply bindM_Ok in H as (m & ? & [Ht _]%lift_Ok & H). do 4 (apply bindM_Ok in H as (? & ? & _ & H)).
  apply bindM_Ok in H as ([] & ? & Hs & H). apply bindM_Ok in H as (? & ? & (Hr & Hm & _)%update_budget_runs & H).
  apply bindM_Ok in H as (? & ? & [_ ->]%reads_Ok & H). apply bindM_Ok in H as (evs & ? & [He ->]%reads_Ok & H).
  apply retM_Ok in H as [-> ->]. pose proof (check_manifest_artifacts _ _ Ht) as [Ha Hst'].
  split; cbn [tr_manifest tr_events]; [eauto|by eapply saved_manifest|done| |].
  - by rewrite Hst'.
  - exists current. split; [done|]. by rewrite Ha.
Qed.

Lemma evaluation_fields e e' : check_evaluation e = Ok e' →
  er_run_status e' = er_run_status e ∧ patch_hash e' = patch_hash e ∧ c_nonempty (er_run_id e) = Ok (er_run_id e') ∧
  check_evaluation e' = Ok e'.
Proof.
  intros H. pose proof (settles_evaluation _ _ H) as Hs. unfold check_evaluation in H. inv_ok. cbn [er_run_status patch_hash er_run_id].
  split_and!; try done. destruct (patch_hash e) as [h|]; cbn [c_opt] in *; [|congruence]. inv_ok.
  match goal with H : c_sha256 _ = Ok _ |- _ => by apply c_sha256_inv in H as [-> _] end.
Qed.

(** What was put for an evaluation. *)
Lemma put_evaluation_Ok store l e s ev arts s' : put_evaluation store l e s = (Ok (ev, arts), s') →
  er_run_status ev = er_run_status e ∧ patch_hash ev = patch_hash e ∧ c_nonempty (er_run_id e) = Ok (er_run_id ev) ∧
  check_evaluation ev = Ok ev ∧ arts !! "patch" = None ∧
  ∃ a text, arts !! "evaluation" = Some a ∧ canonical_json (dump_evaluation ev) = Ok text ∧
    sha256 a = sha256_bytes (utf8_encode text).
Proof.
  unfold put_evaluation. intros H. apply bindM_Ok in H as (o & ? & _ & H). apply bindM_Ok in H as (e0 & ? & _ & H).
  apply bindM_Ok in H as (acc1 & ? & H1 & H). apply bindM_Ok in H as (acc2 & ? & H2 & H).
  assert (∀ name raw acc s acc' s', put_transcript store name raw acc s = (Ok acc', s') → name ≠ "patch" →
    acc.2 !! "patch" = None → acc'.2 !! "patch" = None) as Hput.
  { intros name raw acc t acc' t' Hp Hne Hn. unfold put_transcript in Hp. destruct raw as [data|].
    - apply bindM_Ok in Hp as (a & ? & _ & [-> _]%retM_Ok). cbn [snd]. by rewrite lookup_insert_ne.
    - apply retM_Ok in Hp as [-> _]. done. }
  apply Hput in H1; [|done|by vm_compute]. apply Hput in H2; [|done|done].
  apply bindM_Ok in H as (ev' & ? & [(Es & Ep & Er & Hc)%evaluation_fields _]%lift_Ok & H). cbn in Es, Ep, Er.
  apply bindM_Ok in H as (text & ? & [Ht _]%lift_Ok & H). apply bindM_Ok in H as (a & ? & Ha & [[= -> ->] _]%retM_Ok).
  split_and!; try done; [by rewrite lookup_insert_ne|]. exists a, text. split_and!; [by rewrite lookup_insert_eq|done|].
  apply on_store_inv in Ha as (Ha & _). unfold on_machine in Ha. destruct (put_text store text _ _) as [r w] eqn:E.
  injection Ha as -> _. by eapply put_bytes_digest.
Qed.

(** What a run's session leaves when it returns. *)
Record run_evidence (id : string) (ev : EvaluationResult) (res : EventStoreTerminalResult) (d : database) : Prop := {
  re_verified : ∃ roots, verify_ledger d = Ok roots;
  re_manifest : _load_manifest_locked d id = Ok (tr_manifest res);
  re_events : _list_events_locked d id = Ok (tr_events res);
  re_terminal : is_terminal (m_status (tr_manifest res)) = true;
  re_evaluation : check_evaluation ev = Ok ev ∧ er_run_id ev = id ∧ er_run_status ev = m_status (tr_manifest res);
  re_patch : ∃ a, m_artifacts (tr_manifest res) !! "patch" = Some a ∧ patch_hash ev = Some (sha256 a);
  re_bound : ∃ a text, m_artifacts (tr_manifest res) !! "evaluation" = Some a ∧
    canonical_json (dump_evaluation ev) = Ok text ∧ sha256 a = sha256_bytes (utf8_encode text);
}.

Lemma run_in_store_Ok id store task spec p pending a limits s ev res s' :
  run_in_store id store task spec p pending a limits s = (Ok (ev, res), s') → run_evidence id ev res (db (rs_store s')).
Proof.
  unfold run_in_store. intros H. apply bindM_Ok in H as (au & ? & _ & H). apply bindM_Ok in H as ([au' pa] & s1 & Hask & H).
  cbn [fst snd] in H. apply bindM_Ok in H as ([lr e] & s2 & He & H). apply bindM_Ok in H as ([ev' arts] & s3 & Hp & H).
  cbn [fst snd] in H. apply bindM_Ok in H as (res' & s4 & Hfin & [[= -> ->] ->]%retM_Ok).
  pose proof (proj1 (silent_evaluate _ _ _ _ _ _ _ _ He)) as D1. pose proof (proj1 (silent_put _ _ _ _ _ _ Hp)) as D2.
  apply put_evaluation_Ok in Hp as (Es & Ep & Er & Hc & Hn & ae & text & Hae & Ht & Hs).
  unfold ask_model in Hask. apply bindM_Ok in Hask as (? & ? & _ & Hask). apply bindM_Ok in Hask as (patch & ? & _ & Hask).
  do 2 (apply bindM_Ok in Hask as (? & ? & _ & Hask)).
  apply bindM_Ok in Hask as (m & s5 & (Hresp & _)%on_store_inv & [[= _ ->] ->]%retM_Ok). apply response_Ok in Hresp as [Hl Hpatch].
  unfold evaluate_patch in He. do 4 (apply bindM_Ok in He as (? & ? & _ & He)).
  apply bindM_Ok in He as (e' & ? & [Hd _]%lift_Ok & [[= -> ->] _]%retM_Ok).
  unfold to_domain_result in Hd. apply bind_Ok in Hd as (? & _ & Hd). apply bind_Ok in Hd as (? & _ & (Ds & Dp & Dr & _)%evaluation_fields).
  cbn in Ds, Dp, Dr. unfold finish in Hfin. apply bindM_Ok in Hfin as (now & s6 & Hnow & Hfin).
  apply bindM_Ok in Hfin as (held & ? & [_ ->]%lift_Ok & (Hfin & _)%on_store_inv).
  apply complete_Ok in Hfin as [(roots & Hv) Hm Hev [Hst Hterm] (current & Hcur & Ha)].
  assert (db (rs_store s6) = db (rs_store s5)) as D3.
  { injection Hnow as _ <-. cbn [rs_store db]. congruence. }
  rewrite D3, Hl in Hcur. injection Hcur as <-.
  pose proof (verified_settled _ _ _ Hv (load_has_run _ _ _ Hm)) as Hid. rewrite Hid in Dr. injection Dr as Dr.
  cbn [fst snd] in *.   rewrite <- Dr, Hid in Er. injection Er as Er. split; try done.
  - eauto.
  - by rewrite Hst.
  - split_and!; congruence.
  - exists patch. rewrite Ha, lookup_union_r by done. split; congruence.
  - exists ae, text. rewrite Ha. split_and!; [|done|done]. by apply lookup_union_Some_l.
Qed.

(** It leaves no transaction open. *)
Lemma run_in_store_closed id store task spec p pending a limits s ev res s' :
  run_in_store id store task spec p pending a limits s = (Ok (ev, res), s') → on_disk (rs_store s') = db (rs_store s').
Proof.
  unfold run_in_store. intros H. do 4 (apply bindM_Ok in H as (? & ? & _ & H)).
  apply bindM_Ok in H as (terminal & s1 & Hfin & [_ ->]%retM_Ok). unfold finish in Hfin.
  do 2 (apply bindM_Ok in Hfin as (? & ? & _ & Hfin)). apply on_store_inv in Hfin as [Hfin _].
  match goal with H : complete_evaluation_with_events ?i ?ar ?ep ?st ?t ?rs ?u ?r ?s0 = _ |- _ =>
    destruct (exec_closed (CompleteEvaluation i ar ep st t rs u r) s0 (rs_store s1)) as [_ E] end.
  { cbn [exec]. unfold mbind, eff_bind. by rewrite Hfin. }
  unfold on_disk. by rewrite E.
Qed.

(** ** Whole runs *)

Section runs.
Context {ledgers : Ledgers} {writable : WritableLedgers} {stores : EventLedgers}.
Variables (patience : nat) (k : positive) (runner : FixtureRunner) (q : run_request).

(** The sessions of a run's end: none, one that changed nothing, or one that closed it. *)
Definition closing (rest : list (database * database)) : Prop :=
  rest = [] ∨ (∃ d, rest = [(d, d)]) ∨
  ∃ d d' m roots, rest = [(d, d')] ∧ verify_ledger d' = Ok roots ∧ artifacts_verified roots ∧
    _load_manifest_locked d' (rq_run_id q) = Ok m ∧ is_terminal (m_status m) = true.

(** The sessions of a run: its own, on the store it opened, and those of its end. *)
Definition ran (l : list (database * database)) : Prop :=
  l = [] ∨ ∃ t st d rest, open_event_store t (state_directory_of runner ++ ["runs.db"]) = Ok st ∧
    l = (db st, d) :: rest ∧ grows (db st) d ∧ closing rest.

(** What the result of a run says is what its session left. *)
Definition stands_for (res : FixtureRunResult) (l : list (database * database)) : Prop :=
  ∃ t st d, open_event_store t (rr_database_path res) = Ok st ∧ l = [(db st, d)] ∧
    run_evidence (rq_run_id q) (rr_evaluation res) {| tr_manifest := rr_manifest res; tr_events := rr_events res |} d ∧
    replay_events (rr_events res) true = Ok (rr_replay res) ∧ status (rr_replay res) = m_status (rr_manifest res) ∧
    semantic_digest (rr_events res) = Ok (rr_semantic_digest res).

Definition outcome_spec (S : list (database * database)) (r : result FixtureRunResult) (S' : list (database * database)) : Prop :=
  ∃ l, S' = S ++ l ∧ ran l ∧ match r with Ok res => stands_for res l | Err _ => True end.

Definition sound (s : run_state) : Prop := sound_process (rc_process (rn_recovery s)).
Definition runs (m : Run FixtureRunResult) : Prop := ∀ s r s', sound s → m s = (r, s') →
  outcome_spec (rc_sessions (rn_recovery s)) r (rc_sessions (rn_recovery s')).

(** A program that touches the machine at most. *)
Definition quiet_run {A} (m : Run A) : Prop := ∀ s r s', m s = (r, s') →
  same_process (rn_recovery s) (rn_recovery s') ∧ rc_sessions (rn_recovery s') = rc_sessions (rn_recovery s).

Lemma quiet_in_system {A} (m : Sys A) : quiet_run (in_system m).
Proof.
  intros s r s'. unfold in_system, on_recovery. destruct (on_system m (rn_recovery s)) as [r0 c] eqn:E.
  apply on_system_inv in E as (P & S & _). by intros [= _ <-].
Qed.
Lemma quiet_lift {A} (r : result A) : quiet_run (lift r).
Proof. intros s r0 s' [= _ <-]. split; [apply same_process_refl|done]. Qed.
Lemma quiet_run_stamp : quiet_run run_stamp.
Proof. intros s r s' [= _ <-]. split; [apply same_process_refl|done]. Qed.

Lemma sound_same s s' : sound s → same_process (rn_recovery s) (rn_recovery s') → sound s'.
Proof. intros [Hc Ho] [w E]. unfold sound. rewrite E. split; [by apply counted_machine|done]. Qed.

Lemma outcome_none S e : outcome_spec S (Err e) S.
Proof. exists []. split; [by rewrite app_nil_r|]. split; [by left|done]. Qed.

Lemma runs_bind {A} (m : Run A) f : quiet_run m → (∀ a, runs (f a)) → runs (m ≫= f).
Proof.
  intros Hm Hf s r s' Hs [(a & s1 & H1 & H2)|(e & H1 & ->)]%bindM_inv.
  - destruct (Hm _ _ _ H1) as [P <-]. eapply Hf; [by eapply sound_same|exact H2].
  - destruct (Hm _ _ _ H1) as [_ ->]. apply outcome_none.
Qed.

(** The terminalization that an exception asks for. *)
Lemma noted_inv (op : _FixtureTerminalizationOperation) reason s r s' : sound s →
  noted (on_recovery (_terminalize_existing_fixture_run patience (state_directory_of runner) (rq_run_id q) reason op)) s = (r, s') →
  ∃ rest, rc_sessions (rn_recovery s') = rc_sessions (rn_recovery s) ++ rest ∧ closing rest.
Proof.
  intros Hs H. assert (∃ r0, on_recovery (_terminalize_existing_fixture_run patience (state_directory_of runner) (rq_run_id q) reason op) s = (r0, s')) as [r0 E].
  { unfold noted, catch in H. match type of H with (let (_, _) := ?x in _) = _ => destruct x as [[u|e] s1] eqn:E end.
    - injection H as _ <-. apply bindM_Ok in E as (x & s2 & E & [_ ->]%retM_Ok). eauto.
    - injection H as _ <-. apply bindM_Err in E as [E|(x & s2 & _ & [=])]. eauto. }
  unfold on_recovery in E. destruct (_terminalize_existing_fixture_run _ _ _ _ _ _) as [r1 c] eqn:Er.
  injection E as <- <-. cbn [rn_recovery]. apply recovery_spec in Er; [|exact Hs].
  assert (∀ res pin, recovered (state_directory_of runner) (rq_run_id q) pin res (rn_recovery s) c →
    ∃ rest, rc_sessions c = rc_sessions (rn_recovery s) ++ rest ∧ closing rest) as Hrec.
  { intros res pin (t & st & d' & _ & E & _ & (roots & Hv & Ha) & Hm & _ & Ht). exists [(db st, d')]. split; [done|].
    right. right. by exists (db st), d', (fr_manifest res), roots. }
  destruct r1 as [res|e].
  - destruct Er as (rep & snap & _ & _ & _ & _ & _ & Er). by eapply Hrec.
  - destruct Er as [[E|(d & E)]|(res & pin & _ & Er)].
    + exists []. split; [by rewrite app_nil_r|by left].
    + exists [(d, d)]. split; [done|right; left; eauto].
    + by eapply Hrec.
Qed.

Lemma close_run_inv created refused e s r s' : sound s →
  close_run patience (state_directory_of runner) (rq_run_id q) created refused e s = (r, s') →
  ∃ rest, rc_sessions (rn_recovery s') = rc_sessions (rn_recovery s) ++ rest ∧ closing rest.
Proof.
  intros Hs. unfold close_run. destruct (_ && _); [by apply noted_inv|]. destruct created; [by apply noted_inv|].
  intros [= _ <-]. exists []. split; [by rewrite app_nil_r|by left].
Qed.

Lemma in_event_store_inv {A} path (body : Running A) s r s' : extends body → in_event_store path body s = (r, s') →
  ∃ r0 created refused, r = Ok (r0, created, refused) ∧ same_process (rn_recovery s) (rn_recovery s') ∧
  ((rc_sessions (rn_recovery s') = rc_sessions (rn_recovery s) ∧ created = false ∧ refused = false ∧
    ∃ e, r0 = Err e) ∨
   ∃ t st b0 b, open_event_store t path = Ok st ∧ body b0 = (r0, b) ∧ grows (db st) (on_disk (rs_store b)) ∧
     rc_sessions (rn_recovery s') = rc_sessions (rn_recovery s) ++ [(db st, on_disk (rs_store b))]).
Proof.
  intros Hb. unfold in_event_store. destruct (open_event_store _ _) as [st|e] eqn:Eo; cycle 1.
  { intros [= <- <-]. do 3 eexists. split; [done|]. split; [by eexists|]. left. split_and!; eauto. }
  match goal with |- (let '(_, _) := ?x in _) = _ → _ => destruct x as [r0 b] eqn:E end. intros [= <- <-].
  do 3 eexists. split; [done|]. split; [by eexists|]. right. do 4 eexists. split_and!; [done|exact E| |done].
  by apply Hb in E.
Qed.

Lemma replayed_status id ev res d rep : run_evidence id ev res d → replay_events (tr_events res) true = Ok rep →
  status rep = m_status (tr_manifest res).
Proof.
  intros [(roots & Hv) Hm He _ _ _ _] Hr%replay_any.
  destruct (verified_has_run _ _ _ Hv (load_has_run _ _ _ Hm)) as (row & root & <- & Hrow & _).
  apply verify_run_inv in Hrow as (st & evs & Hm' & (evs' & u & v & Hl & _ & Hr' & _ & Hst & _)%validated_state_inv & _).
  congruence.
Qed.

Lemma runs_under_lease : runs (_run_with_shared_lease patience k runner q).
Proof.
  unfold _run_with_shared_lease.
  apply runs_bind; [apply quiet_in_system|intros _]. apply runs_bind; [apply quiet_in_system|intros store].
  apply runs_bind; [apply quiet_in_system|intros fixture_root].
  apply runs_bind; [apply quiet_in_system|intros [[task spec] statement]].
  apply runs_bind; [apply quiet_lift|intros text]. apply runs_bind; [apply quiet_in_system|intros task_artifact].
  apply runs_bind; [apply quiet_run_stamp|intros created_at]. apply runs_bind; [apply quiet_lift|intros pending].
  intros s r s' Hs H. apply bindM_inv in H as [(x & s1 & H1 & H)|(e & H1 & ->)];
    apply in_event_store_inv in H1 as (r0 & created & refused & Ex & P & HS); try apply extends_run; [|done].
  injection Ex as ->. pose proof (sound_same _ _ Hs P) as Hs1. destruct r0 as [[ev terminal]|e].
  - destruct HS as [(_ & _ & _ & [e [=]])|(t & st & b0 & b & Ho & Hb & Hg & S1)].
    rewrite (run_in_store_closed _ _ _ _ _ _ _ _ _ _ _ _ Hb) in *. apply run_in_store_Ok in Hb.
    cbn [mbind eff_bind mret eff_ret] in H. apply bindM_inv in H as [([ev' terminal'] & s2 & [[= -> ->] ->]%retM_Ok & H)|(e & [=] & _)].
    assert (ran [(db st, db (rs_store b))]) as Hran.
    { right. exists t, st, (db (rs_store b)), []. split_and!; [done|done|done|by left]. }
    apply bindM_inv in H as [(rep & s2 & [Hrep ->]%lift_Ok & H)|(e & [_ ->]%lift_Err & ->)]; [|eexists; split_and!; [exact S1|done|done]].
    apply bindM_inv in H as [(dg & s2 & [Hd ->]%lift_Ok & H)|(e & [_ ->]%lift_Err & ->)]; [|eexists; split_and!; [exact S1|done|done]].
    injection H as <- <-. eexists. split_and!; [exact S1|done|]. exists t, st, (db (rs_store b)).
    split_and!; [done|done| |done|by eapply replayed_status|done]. by destruct terminal.
  - apply bindM_inv in H as [(y & s2 & (? & ? & _ & [[=] _]%lift_Ok)%bindM_Ok & _)|(e' & H & ->)].
    assert (∃ rest, rc_sessions (rn_recovery s') = rc_sessions (rn_recovery s1) ++ rest ∧ closing rest ∧
      (is_budget_exceeded e && refused = false → created = false → rest = [])) as (rest & S2 & Hc & Hno).
    { assert (∃ u, close_run patience (state_directory_of runner) (rq_run_id q) created refused e s1 = (u, s')) as [u Hu].
      { apply bindM_Err in H as [H|(u & s2 & H & [_ ->]%lift_Err)]; eauto. }
      pose proof (close_run_inv _ _ _ _ _ _ Hs1 Hu) as (rest & S2 & Hc). exists rest. split_and!; [done|done|].
      intros Eb Ec. unfold close_run in Hu. rewrite Eb, Ec in Hu. injection Hu as _ <-.
      rewrite <- (app_nil_r (rc_sessions (rn_recovery s1))) in S2 at 1. by apply app_inv_head in S2. }
    destruct HS as [(S1 & -> & -> & _)|(t & st & b0 & b & Ho & _ & Hg & S1)].
    + rewrite andb_false_r in Hno. exists []. rewrite S2, S1, Hno by done. split_and!; [done|by left|done].
    + exists ((db st, on_disk (rs_store b)) :: rest). rewrite S2, S1, <- app_assoc. split_and!; [done| |done].
      right. by exists t, st, (on_disk (rs_store b)), rest.
Qed.

(** Acquiring and closing the lease does not open the ledger. *)
Lemma on_lease_inv {A} (m : P A) s r s' : on_recovery (on_process m) s = (r, s') →
  rc_sessions (rn_recovery s') = rc_sessions (rn_recovery s) ∧ m (rc_process (rn_recovery s)) = (r, rc_process (rn_recovery s')).
Proof.
  unfold on_recovery. destruct (on_process m (rn_recovery s)) as [r0 c] eqn:E. apply on_process_inv in E as [S E].
  by intros [= <- <-].
Qed.

Lemma run_spec : runs (run patience k runner q).
Proof.
  unfold run. apply runs_bind; [apply quiet_in_system|intros _]. intros s r s' Hs H.
  apply bindM_inv in H as [(lease & s1 & [S1 Ha]%on_lease_inv & H)|(e & [S1 Ha]%on_lease_inv & ->)];
    [|rewrite S1; apply outcome_none].
  assert (sound s1) as Hs1.
  { destruct Hs as [Hc Ho]. split; [by eapply keeps_acquire|]. by destruct (acquire_Ok _ _ _ _ _ _ Ho Ha). }
  rewrite <- S1. apply bindM_inv in H as [(res & s2 & H & Hr)|(e & H & ->)].
  - apply finally_Ok in H as (s3 & H & [_ ->]%retM_Ok). apply runs_under_lease in H; [|done].
    destruct H as (l & S2 & Hran & Hres).
    apply bindM_inv in Hr as [(u & s4 & Hcl & Hr)|(e & Hcl & ->)].
    + apply exceptM_Ok, on_lease_inv in Hcl as [S4 _]. injection Hr as <- <-. exists l. by rewrite S4.
    + apply exceptM_raised in Hcl as [e' [S4 _]%on_lease_inv]. exists l. by rewrite S4.
  - unfold finally in H. destruct (_run_with_shared_lease patience k runner q s1) as [r0 s2] eqn:Hu.
    apply runs_under_lease in Hu; [|done]. destruct Hu as (l & S2 & Hran & _). destruct r0 as [res|e0]; [done|].
    assert (rc_sessions (rn_recovery s') = rc_sessions (rn_recovery s2)) as S3.
    { destruct (on_recovery (on_process (close_noted lease)) s2) as [[u|e1] s3] eqn:En; injection H as _ <-;
        by apply on_lease_inv in En as [S3 _]. }
    exists l. by rewrite S3.
Qed.

(** C6. A run that returns stands for its evidence: its one session of the ledger left a
    verified ledger in which the run is terminal, with the manifest and the events that
    are returned; the replay and the digest are theirs; the evaluation is valid, is of
    this run, has the run's status and the bound patch's hash; and the artifact bound as
    the evaluation has the digest of its canonical text. *)
Theorem run_stands_for_evidence s res s' : sound_process (rc_process (rn_recovery s)) →
  run patience k runner q s = (Ok res, s') →
  ∃ l, rc_sessions (rn_recovery s') = rc_sessions (rn_recovery s) ++ l ∧ stands_for res l.
Proof. intros Hs H. destruct (run_spec _ _ _ Hs H) as (l & E & _ & Hres). eauto. Qed.

(** C8. However a run ends, its session has only extended the ledger: streams are
    extended, histories grow, terminal runs are as they were.  Any other session is a
    guarded terminalization, which changed nothing or left the run terminal in a verified
    ledger whose artifacts it audited. *)
Theorem run_only_extends s r s' : sound_process (rc_process (rn_recovery s)) → run patience k runner q s = (r, s') →
  ∃ l, rc_sessions (rn_recovery s') = rc_sessions (rn_recovery s) ++ l ∧ ran l.
Proof. intros Hs H. destruct (run_spec _ _ _ Hs H) as (l & E & Hran & _). eauto. Qed.
End runs.
End program.
End ledger.
