(* ===== verification/SampleRunner.v ===== *)
(** * A concrete run

    The fixture of SampleFixture.v run to its end on an empty ledger, by a model with one
    patch and an evaluator whose tests fail on it, and the same run with a budget that refuses the
    model call. *)

From S2P Require Import Prelude Order Loop Effects PyStr Files Descriptors Float64 Json Text Patch Hash Datetime Fields.
From S2P Require Import Usage Budget Models Specs LocalEvaluation Protocol Replay SampleRun Sqlite EventStore SampleLedger StoreGrowth.
From S2P Require Import Artifacts ArtifactFacts Fixture SampleFixture Integrity SampleStore Coordinator CoordinatorFacts.
From S2P Require Import Maintenance MaintenanceFacts Recovery RecoveryFacts Runner RunnerFacts.

Local Open Scope Z_scope.

Definition sample_model (id : string) : ModelClient :=
  {| model_id := id; maximum_usage := scripted_usage 64 64;
     propose_patch := λ _, mret {| mo_patch := utf8_encode "diff"; mo_usage := scripted_usage 24 16;
                                   mo_returned_model := id |} |}.

Definition sample_evaluator : Evaluator :=
  {| evaluator_identity := "evaluator-1"; environment_digest := "sha256:" +:+ zeros 64;
     evaluate := λ spec _ _, mret
       {| lr_task_id := sp_task_id spec; lr_status := TESTS_FAILED; exit_code := Some 1; stdout := "ok"; lr_stderr := "";
          output_truncated := false; execution := []; raw_candidate_stdout := None; raw_scorer_stdout := None |} |}.

Definition sample_runner : FixtureRunner := {| state_directory_of := ["state"]; state_directory_identity := (1, 1) |}.

Definition sample_request_of (limits : option BudgetLimits) : run_request :=
  {| rq_fixture_root := ["fix"]; rq_run_id := "run-1"; rq_code_revision := "abc"; rq_experiment_id := "experiment-0001";
     rq_candidate_id := "scripted-solo-v0"; rq_seed := 0; rq_budget_limits := limits |}.

Definition idle_runner : run_state := {| rn_recovery := idle; rn_ticks := 0 |}.

Lemma idle_runner_sound : sound_process (rc_process (rn_recovery idle_runner)).
Proof. exact idle_sound. Qed.

Definition no_database : WritableLedgers :=
  {| open_existing_writable := λ _ _ _, Err (StoreIntegrityError "database path changed") |}.
Definition fresh_database : EventLedgers := {| open_event_store := λ _ _, Ok empty_store |}.

Abbreviation sample_run limits known :=
  (run (hashing := sample_hashing) (world := fixture_world known) (workspaces := fixture_workspaces)
    (kernel := recovery_kernel) (ledgers := sample_ledgers) (writable := no_database) (stores := fresh_database)
    (model := sample_model "model-1") (evaluator := sample_evaluator) 1 10 sample_runner (sample_request_of limits) idle_runner).

(** The texts the run puts: those of the task, the patch, and those of the evaluation. *)
Definition texts_of (rounds : nat) (known : list (string * list Byte.byte)) : list (string * list Byte.byte) :=
  learn rounds (λ known, machine_of (rc_process (rn_recovery (sample_run None known).2))) known.
Definition run_task_texts : list (string * list Byte.byte) := Eval vm_compute in texts_of 4 [].
Definition run_texts : list (string * list Byte.byte) := Eval vm_compute in texts_of 4 run_task_texts.

(** One token at most is refused. *)
Definition tight_limits : BudgetLimits :=
  {| max_input_tokens := None; max_output_tokens := None; max_total_tokens := Some 1; max_model_calls := Some 1;
     max_model_retries := Some 0; max_tool_calls := Some 0; max_tool_cpu_seconds := None;
     max_container_wall_seconds := None; max_elapsed_seconds := None; max_estimated_cost_usd := None |}.

(** The run ends, failed, and its ledger says so. *)
Lemma run_stands_for_evidence_witness : ∃ res s', sample_run None run_texts = (Ok res, s') ∧
  m_status (rr_manifest res) = FAILED ∧ ∃ d, rc_sessions (rn_recovery s') = [(empty_database, d)] ∧
  _load_manifest_locked (hashing := sample_hashing) d "run-1" = Ok (rr_manifest res).
Proof.
  assert (match (sample_run None run_texts).1 with Ok r => Some (m_status (rr_manifest r)) | Err _ => None end
          = Some FAILED) as H by (vm_compute; reflexivity).
  destruct (sample_run None run_texts) as [[res|e] s'] eqn:E.
  - exists res, s'. split; [reflexivity|]. split.
    + injection H as H. exact H.
    + destruct (run_stands_for_evidence _ _ _ _ _ _ _ idle_runner_sound E) as (l & Hs & t & st & d & [= <-] & -> & Hev & _).
      exists d. split; [exact Hs|]. exact (re_manifest _ _ _ _ Hev).
  - exfalso. discriminate H.
Defined.

(** A refused reservation ends the run; it has had one session, which only extended the
    ledger, and whatever followed left no other. *)
Lemma run_only_extends_witness : ∃ e s' d, sample_run (Some tight_limits) run_task_texts = (Err e, s') ∧
  is_budget_exceeded e = true ∧ rc_sessions (rn_recovery s') = [(empty_database, d)] ∧
  grows (hashing := sample_hashing) empty_database d.
Proof.
  assert ((λ p : result FixtureRunResult * run_state, (match p.1 with Err e => is_budget_exceeded e | Ok _ => false end,
    length (rc_sessions (rn_recovery p.2)))) (sample_run (Some tight_limits) run_task_texts) = (true, 1%nat)) as H
    by (vm_compute; reflexivity).
  destruct (sample_run (Some tight_limits) run_task_texts) as [[res|e] s'] eqn:E; [discriminate H|].
  injection H as He Hn.
  destruct (run_only_extends _ _ _ _ _ _ _ idle_runner_sound E) as (l & Hs & Hran).
  change (rc_sessions (rn_recovery idle_runner) ++ l) with l in Hs. rewrite Hs in Hn.
  destruct Hran as [->|(t & st & d & rest & [= <-] & -> & Hg & _)]; [discriminate Hn|].
  destruct rest; [|discriminate Hn]. exists e, s', d. split; [reflexivity|]. split; [exact He|].
  split; [exact Hs|exact Hg].
Defined.

Definition opened : running := {| rs_store := empty_store; run_created := false; reservation_refused := false |}.
Abbreviation sample_dispatch limits :=
  (until_dispatch (model := sample_model "model") "run-1" sample_manifest sample_reference limits opened).

(** One budget admits the call, the other refuses it. *)
Lemma dispatch_is_recorded_witness :
  (∃ a s', sample_dispatch sample_limits = (Ok a, s') ∧
     recorded "run-1" (scripted_usage 64 64) a (db (rs_store s'))) ∧
  ∃ e s', sample_dispatch tight_limits = (Err e, s') ∧ is_budget_exceeded e = true.
Proof.
  split.
  - destruct (sample_dispatch sample_limits) as [[a|e] s'] eqn:E.
    + exists a, s'. split; [reflexivity|]. exact (dispatch_is_recorded _ _ _ _ opened _ _ eq_refl E).
    + exfalso. apply (f_equal (λ p, is_ok p.1)) in E. vm_compute in E. discriminate E.
  - destruct (sample_dispatch tight_limits) as [[a|e] s'] eqn:E.
    + exfalso. apply (f_equal (λ p, is_ok p.1)) in E. vm_compute in E. discriminate E.
    + exists e, s'. split; [reflexivity|]. assert (reservation_refused s' = true) as Hr.
      { apply (f_equal (λ p, reservation_refused p.2)) in E. vm_compute in E. symmetry. exact E. }
      exact (proj1 (dispatch_is_recorded _ _ _ _ opened _ _ eq_refl E Hr)).
Defined.
