(* ===== verification/Reports.v ===== *)
(** * The records of an audit as JSON (src/guildmind/storage/integrity.py, coordinator.py)

    What [canonical_json] writes of a storage report and of everything in it, and what
    [model_validate_json(..., strict=True)] reads: each reader rejects unknown keys, reads
    the declared fields and runs the model's own checks. *)

From S2P Require Import Prelude Order PyStr Float64 Json Hash Datetime Fields Usage Models Sqlite EventStore Artifacts.
From S2P Require Import Integrity Coordinator.

Local Open Scope Z_scope.

Definition v_bool (v : json) : result bool := match v with JBool b => Ok b | _ => invalid "bool_type" end.

(** An enumeration: one of its members by value. *)
Definition v_member {A} (value : A → string) (members : list A) (v : json) : result A :=
  s ← v_str v; of_option (ValidationError "enum") (List.find (λ a, str_eqb (value a) s) members).

(** [Literal[text] = text] *)
Definition v_tag (o : dict) (text : string) : result unit := field_default o "schema_version" tt (v_literal text).

Definition dump_strings (l : list string) : json := JArr (JStr <$> l).

(** ** The artifact audit *)

Definition dump_owner (o : ArtifactOwner) : json :=
  JObj [("run_id", JStr (ow_run_id o)); ("path", dump_strings (ow_path o))].
Definition validate_owner (v : json) : result ArtifactOwner :=
  o ← v_model ["run_id"; "path"] v;
  run_id ← field o "run_id" v_str;
  path ← field o "path" (v_list v_str);
  make_owner run_id path.

Definition dump_reachable (r : ReachableArtifact) : json :=
  JObj [("sha256", JStr (ra_sha256 r)); ("size_bytes", JInt (ra_size_bytes r)); ("storage_ref", JStr (ra_storage_ref r));
        ("media_types", dump_strings (ra_media_types r)); ("owners", JArr (dump_owner <$> ra_owners r));
        ("bytes_verified", JBool (bytes_verified r))].
Definition validate_reachable (v : json) : result ReachableArtifact :=
  o ← v_model ["sha256"; "size_bytes"; "storage_ref"; "media_types"; "owners"; "bytes_verified"] v;
  digest ← field o "sha256" v_str;
  size ← field o "size_bytes" v_int;
  ref ← field o "storage_ref" v_str;
  media ← field o "media_types" (v_list v_str);
  os ← field o "owners" (v_list validate_owner);
  verified ← field o "bytes_verified" v_bool;
  check_reachable {| ra_sha256 := digest; ra_size_bytes := size; ra_storage_ref := ref; ra_media_types := media;
                     ra_owners := os; bytes_verified := verified |}.

Definition dump_finding (f : ArtifactFinding) : json :=
  let k := finding f in
  JObj [("kind", JStr (kind_value (fk_kind k))); ("relative_path", JStr (fk_relative_path k));
        ("expected_sha256", dump_opt JStr (fk_expected_sha256 k)); ("observed_sha256", dump_opt JStr (fk_observed_sha256 k));
        ("size_bytes", dump_opt JInt (fk_size_bytes k)); ("detail", dump_opt JStr (fk_detail k));
        ("errno", dump_opt JInt (fk_errno k)); ("owners", JArr (dump_owner <$> owners f))].
Definition validate_finding (v : json) : result ArtifactFinding :=
  o ← v_model ["kind"; "relative_path"; "expected_sha256"; "observed_sha256"; "size_bytes"; "detail"; "errno"; "owners"] v;
  kind ← field o "kind" (v_member kind_value all_kinds);
  relative ← field o "relative_path" v_str;
  expected ← field_default o "expected_sha256" None (v_opt v_str);
  observed ← field_default o "observed_sha256" None (v_opt v_str);
  size ← field_default o "size_bytes" None (v_opt v_int);
  detail ← field_default o "detail" None (v_opt v_str);
  errno ← field_default o "errno" None (v_opt v_int);
  os ← field_default o "owners" [] (v_list validate_owner);
  check_finding
    {| finding := {| fk_kind := kind; fk_relative_path := relative; fk_expected_sha256 := expected;
                     fk_observed_sha256 := observed; fk_size_bytes := size; fk_detail := detail; fk_errno := errno |};
       owners := os |}.

Definition audit_schema : string := "guildmind.artifact-audit/v1".
Definition dump_audit (a : ArtifactAudit) : json :=
  JObj [("schema_version", JStr audit_schema); ("snapshot_sha256", JStr (snapshot_sha256 a));
        ("reachable", JArr (dump_reachable <$> reachable a)); ("findings", JArr (dump_finding <$> findings a));
        ("complete", JBool (complete a)); ("quarantine_allowed", JBool (quarantine_allowed a))].
Definition validate_audit (v : json) : result ArtifactAudit :=
  o ← v_model ["schema_version"; "snapshot_sha256"; "reachable"; "findings"; "complete"; "quarantine_allowed"] v;
  _ ← v_tag o audit_schema;
  snapshot ← field o "snapshot_sha256" v_str;
  reach ← field o "reachable" (v_list validate_reachable);
  found ← field o "findings" (v_list validate_finding);
  complete ← field o "complete" v_bool;
  allowed ← field o "quarantine_allowed" v_bool;
  check_audit {| snapshot_sha256 := snapshot; reachable := reach; findings := found; complete := complete;
                 quarantine_allowed := allowed |}.

(** ** The coordinator's report *)

Definition validate_commitment (v : json) : result VerifiedRunRootCommitment :=
  o ← v_model ["run_id"; "manifest_revision"; "manifest_sha256"; "event_count"; "head_event_sha256"] v;
  run_id ← field o "run_id" v_str;
  revision ← field o "manifest_revision" v_int;
  manifest ← field o "manifest_sha256" v_str;
  count ← field o "event_count" v_int;
  head ← field o "head_event_sha256" v_str;
  check_commitment {| rc_run_id := run_id; rc_manifest_revision := revision; rc_manifest_sha256 := manifest;
                      rc_event_count := count; rc_head_event_sha256 := head |}.

Definition dump_ledger_snapshot (l : VerifiedLedgerSnapshot) : json :=
  JObj [("schema_version", JStr ledger_snapshot_schema); ("snapshot_sha256", JStr (ls_snapshot_sha256 l));
        ("roots", JArr (dump_commitment <$> ls_roots l))].

Definition all_storage_states : list StorageIntegrityState :=
  [UNINITIALIZED; DATABASE_MISSING_WITH_ARTIFACTS; DATABASE_INVALID; INITIALIZED_EMPTY;
   INITIALIZED_EMPTY_WITH_UNREFERENCED_FINDINGS; AUDIT_INCOMPLETE; REFERENCED_EVIDENCE_INVALID;
   HEALTHY_WITH_UNREFERENCED_FINDINGS; HEALTHY].

Definition report_schema : string := "guildmind.storage-integrity/v1".
Definition dump_report (r : StorageIntegrityReport) : json :=
  JObj [("schema_version", JStr report_schema); ("state", JStr (storage_state_value (si_state r)));
        ("database_present", JBool (database_present r)); ("artifact_root_present", JBool (artifact_root_present r));
        ("ledger_snapshot", dump_opt dump_ledger_snapshot (ledger_snapshot r));
        ("artifact_audit", dump_opt dump_audit (artifact_audit r)); ("diagnostic", dump_opt JStr (diagnostic r));
        ("initialization_allowed", JBool (initialization_allowed r));
        ("references_verified", JBool (references_verified r)); ("read_allowed", JBool (read_allowed r));
        ("mutation_allowed", JBool (mutation_allowed r)); ("quarantine_allowed", JBool (si_quarantine_allowed r));
        ("clean", JBool (clean r))].

Section hashing.
Context {hashing : Hashing}.

Definition validate_ledger_snapshot (v : json) : result VerifiedLedgerSnapshot :=
  o ← v_model ["schema_version"; "snapshot_sha256"; "roots"] v;
  _ ← v_tag o ledger_snapshot_schema;
  snapshot ← field o "snapshot_sha256" v_str;
  roots ← field o "roots" (v_list validate_commitment);
  check_ledger_snapshot {| ls_snapshot_sha256 := snapshot; ls_roots := roots |}.

Definition validate_report (v : json) : result StorageIntegrityReport :=
  o ← v_model ["schema_version"; "state"; "database_present"; "artifact_root_present"; "ledger_snapshot";
               "artifact_audit"; "diagnostic"; "initialization_allowed"; "references_verified"; "read_allowed";
               "mutation_allowed"; "quarantine_allowed"; "clean"] v;
  _ ← v_tag o report_schema;
  state ← field o "state" (v_member storage_state_value all_storage_states);
  database ← field o "database_present" v_bool;
  artifacts ← field o "artifact_root_present" v_bool;
  snapshot ← field_default o "ledger_snapshot" None (v_opt validate_ledger_snapshot);
  audit ← field_default o "artifact_audit" None (v_opt validate_audit);
  text ← field_default o "diagnostic" None (v_opt v_str);
  initialization ← field o "initialization_allowed" v_bool;
  references ← field o "references_verified" v_bool;
  reading ← field o "read_allowed" v_bool;
  mutation ← field o "mutation_allowed" v_bool;
  quarantine ← field o "quarantine_allowed" v_bool;
  is_clean ← field o "clean" v_bool;
  check_report
    {| si_state := state; database_present := database; artifact_root_present := artifacts; ledger_snapshot := snapshot;
       artifact_audit := audit; diagnostic := text; initialization_allowed := initialization;
       references_verified := references; read_allowed := reading; mutation_allowed := mutation;
       si_quarantine_allowed := quarantine; clean := is_clean |}.

(** A report that was read passes its own checks, and so does the audit in it. *)
Lemma validate_report_checked v r : validate_report v = Ok r → check_report r = Ok r.
Proof.
  unfold validate_report. intros H. inv_ok.
  match goal with X : check_report _ = Ok r |- _ => pose proof X as E; unfold check_report in X end.
  inv_ok. exact E.
Qed.
End hashing.
