(* ===== verification/QuarantineRecords.v ===== *)
(** * The records of a quarantine transaction (src/guildmind/storage/quarantine.py)

    BEFORE, PLAN, ACTIVE, the receipts, AFTER and COMPLETE, and the result.  A candidate
    and a plan are named by the digest of their bodies. *)

From Stdlib Require Import Ascii.
From S2P Require Import Prelude Order PyStr Files Float64 Json Text Hash Datetime Fields Usage Models Sqlite EventStore.
From S2P Require Import Artifacts Integrity Coordinator Reports.

Local Open Scope Z_scope.

Definition _ACTIVE_NAME : string := "ACTIVE".
Definition _QUARANTINE_NAME : string := "quarantine".
Definition _VERSION_NAME : string := "v1".
Definition _TRANSACTIONS_NAME : string := "transactions".
Definition _BEFORE_NAME : string := "BEFORE.json".
Definition _PLAN_NAME : string := "PLAN.json".
Definition _PAYLOAD_NAME : string := "payload".
Definition _RECEIPTS_NAME : string := "receipts".
Definition _AFTER_NAME : string := "AFTER.json".
Definition _COMPLETE_NAME : string := "COMPLETE.json".

Definition _MAX_CANDIDATES : Z := 16384.
Definition _MAX_DIRECTORY_ENTRIES : Z := 65536.
Definition _MAX_CANDIDATE_BYTES : Z := 268435456.
Definition _MAX_TOTAL_HASHED_BYTES : Z := 1073741824.
Definition _MAX_ACTIVE_BYTES : Z := 4096.
Definition _MAX_RECORD_BYTES : Z := 67108864.
Definition _READ_CHUNK_BYTES : Z := 1048576.

Definition _ALLOWED_FINDINGS : list ArtifactFindingKind := [VALID_FINALIZED_ORPHAN; CORRUPT_FINALIZED_ORPHAN; TEMP_ORPHAN].
(** [finding.kind in _ALLOWED_FINDINGS and not finding.owners] *)
Definition is_actionable (f : ArtifactFinding) : bool :=
  bool_decide (fk_kind (finding f) ∈ _ALLOWED_FINDINGS) && bool_decide (owners f = []).

Inductive QuarantineOutcome := NO_OP | COMPLETED.
#[export] Instance quarantine_outcome_eq_dec : EqDecision QuarantineOutcome.
Proof. solve_decision. Defined.
Definition quarantine_outcome_value (o : QuarantineOutcome) : string :=
  match o with NO_OP => "no_op" | COMPLETED => "completed" end.

Inductive QuarantineFailureReason :=
  | MAINTENANCE_DENIED | STORAGE_NOT_QUARANTINABLE | UNSUPPORTED_FINDING | CANDIDATE_LIMIT_EXCEEDED
  | HASH_LIMIT_EXCEEDED | NAMESPACE_INVALID | ACTIVE_INVALID | RECORD_INVALID | PLAN_CHANGED | LEDGER_CHANGED
  | REACHABLE_GRAPH_CHANGED | CANDIDATE_CHANGED | CANDIDATE_AMBIGUOUS | DESTINATION_COLLISION | CROSS_DEVICE
  | FINAL_AUDIT_FAILED | IO_ERROR.
Definition failure_value (r : QuarantineFailureReason) : string :=
  match r with
  | MAINTENANCE_DENIED => "maintenance_denied" | STORAGE_NOT_QUARANTINABLE => "storage_not_quarantinable"
  | UNSUPPORTED_FINDING => "unsupported_finding" | CANDIDATE_LIMIT_EXCEEDED => "candidate_limit_exceeded"
  | HASH_LIMIT_EXCEEDED => "hash_limit_exceeded" | NAMESPACE_INVALID => "namespace_invalid"
  | ACTIVE_INVALID => "active_invalid" | RECORD_INVALID => "record_invalid" | PLAN_CHANGED => "plan_changed"
  | LEDGER_CHANGED => "ledger_changed" | REACHABLE_GRAPH_CHANGED => "reachable_graph_changed"
  | CANDIDATE_CHANGED => "candidate_changed" | CANDIDATE_AMBIGUOUS => "candidate_ambiguous"
  | DESTINATION_COLLISION => "destination_collision" | CROSS_DEVICE => "cross_device"
  | FINAL_AUDIT_FAILED => "final_audit_failed" | IO_ERROR => "io_error"
  end.

(** [_ProtocolFailure(reason, detail)] *)
Definition protocol_failure (r : QuarantineFailureReason) : exn := _ProtocolFailure (failure_value r).

(** ** Identities *)

(** [DirectoryIdentity] and [DatabaseIdentity]: a device and an inode *)
Record DirectoryIdentity := { di_device : Z; di_inode : Z }.
#[export] Instance directory_identity_eq_dec : EqDecision DirectoryIdentity.
Proof. solve_decision. Defined.
Definition check_directory_identity (i : DirectoryIdentity) : result DirectoryIdentity :=
  _ ← require (0 <=? di_device i) (ValidationError "greater_than_equal");
  _ ← require (0 <? di_inode i) (ValidationError "greater_than");
  Ok i.
Definition dump_directory_identity (i : DirectoryIdentity) : json :=
  JObj [("device", JInt (di_device i)); ("inode", JInt (di_inode i))].
Definition validate_directory_identity (v : json) : result DirectoryIdentity :=
  o ← v_model ["device"; "inode"] v;
  device ← field o "device" v_int;
  inode ← field o "inode" v_int;
  check_directory_identity {| di_device := device; di_inode := inode |}.

(** [FileIdentity], of type "regular" *)
Record FileIdentity := {
  qf_device : Z; qf_inode : Z; qf_mode : Z; qf_link_count : Z; qf_size_bytes : Z; qf_mtime_ns : Z; qf_ctime_ns : Z;
}.
#[export] Instance quarantine_file_identity_eq_dec : EqDecision FileIdentity.
Proof. solve_decision. Defined.
Definition check_file_identity (i : FileIdentity) : result FileIdentity :=
  _ ← require (forallb (λ n, 0 <=? n) [qf_device i; qf_mode i; qf_size_bytes i; qf_mtime_ns i; qf_ctime_ns i])
        (ValidationError "greater_than_equal");
  _ ← require ((0 <? qf_inode i) && (0 <? qf_link_count i)) (ValidationError "greater_than");
  _ ← require (qf_link_count i =? 1) (ValidationError "quarantine candidates must be single-link regular files");
  Ok i.
Definition dump_file_identity (i : FileIdentity) : json :=
  JObj [("file_type", JStr "regular"); ("device", JInt (qf_device i)); ("inode", JInt (qf_inode i));
        ("mode", JInt (qf_mode i)); ("link_count", JInt (qf_link_count i)); ("size_bytes", JInt (qf_size_bytes i));
        ("mtime_ns", JInt (qf_mtime_ns i)); ("ctime_ns", JInt (qf_ctime_ns i))].
Definition validate_file_identity (v : json) : result FileIdentity :=
  o ← v_model ["file_type"; "device"; "inode"; "mode"; "link_count"; "size_bytes"; "mtime_ns"; "ctime_ns"] v;
  _ ← field_default o "file_type" tt (v_literal "regular");
  device ← field o "device" v_int;
  inode ← field o "inode" v_int;
  mode ← field o "mode" v_int;
  links ← field o "link_count" v_int;
  size ← field o "size_bytes" v_int;
  mtime ← field o "mtime_ns" v_int;
  ctime ← field o "ctime_ns" v_int;
  check_file_identity {| qf_device := device; qf_inode := inode; qf_mode := mode; qf_link_count := links;
                         qf_size_bytes := size; qf_mtime_ns := mtime; qf_ctime_ns := ctime |}.

(** [_stable_file_identity(identity)]: what a rename keeps *)
Definition _stable_file_identity (i : FileIdentity) : list Z :=
  [qf_device i; qf_inode i; qf_mode i; qf_link_count i; qf_size_bytes i; qf_mtime_ns i].

(** ** Candidates *)

(** [_FINALIZED_PATH]: the two groups *)
Definition finalized_path (s : string) : option (string * string) :=
  match split_char "/"%char s with
  | [base; shard; name] =>
      if str_eqb base "sha256" && is_lower_hex 2 shard && is_lower_sha256 name then Some (shard, name) else None
  | _ => None
  end.
(** [_TEMP_PATH] *)
Definition is_temp_path (s : string) : bool :=
  match split_char "/"%char s with
  | [base; shard; name] =>
      str_eqb base "sha256" && is_lower_hex 2 shard &&
      match literal ".artifact-" name with Some rest => str_nonempty rest | None => false end
  | _ => false
  end.

Record QuarantineCandidateBody := {
  cb_finding : ArtifactFinding;
  cb_source_relative_path : string;
  cb_source_identity : FileIdentity;
  cb_content_sha256 : string;
}.

Definition check_candidate_body (b : QuarantineCandidateBody) : result QuarantineCandidateBody :=
  let f := cb_finding b in
  let k := finding f in
  _ ← require (str_nonempty (cb_source_relative_path b)) (ValidationError "string_too_short");
  _ ← require (is_lower_sha256 (cb_content_sha256 b)) (ValidationError "string_pattern_mismatch");
  _ ← require (is_actionable f) (ValidationError "quarantine candidate finding is not an ownerless v1 orphan");
  _ ← require (str_eqb (cb_source_relative_path b) (fk_relative_path k))
        (ValidationError "candidate source path must match its audit finding");
  _ ← require (bool_decide (fk_size_bytes k = Some (qf_size_bytes (cb_source_identity b))))
        (ValidationError "candidate size must match its audit finding");
  _ ← (if bool_decide (fk_kind k = TEMP_ORPHAN)
       then require (is_temp_path (cb_source_relative_path b)) (ValidationError "temporary candidate path is not canonical")
       else match finalized_path (cb_source_relative_path b) with
            | None => Err (ValidationError "finalized candidate path is not canonical")
            | Some (shard, name) =>
                _ ← require (startswith shard name) (ValidationError "finalized candidate path is not canonical");
                _ ← require (bool_decide (fk_expected_sha256 k = Some name))
                      (ValidationError "finalized candidate digest does not match its path");
                require (bool_decide (fk_observed_sha256 k = Some (cb_content_sha256 b)))
                  (ValidationError "finalized candidate content hash changed after audit")
            end);
  Ok b.
Definition dump_candidate_body (b : QuarantineCandidateBody) : json :=
  JObj [("schema_version", JStr "guildmind.quarantine-candidate-body/v1"); ("finding", dump_finding (cb_finding b));
        ("source_relative_path", JStr (cb_source_relative_path b));
        ("source_identity", dump_file_identity (cb_source_identity b)); ("content_sha256", JStr (cb_content_sha256 b))].
Definition validate_candidate_body (v : json) : result QuarantineCandidateBody :=
  o ← v_model ["schema_version"; "finding"; "source_relative_path"; "source_identity"; "content_sha256"] v;
  _ ← v_tag o "guildmind.quarantine-candidate-body/v1";
  f ← field o "finding" validate_finding;
  source ← field o "source_relative_path" v_str;
  identity ← field o "source_identity" validate_file_identity;
  content ← field o "content_sha256" v_str;
  check_candidate_body {| cb_finding := f; cb_source_relative_path := source; cb_source_identity := identity;
                          cb_content_sha256 := content |}.

Record QuarantineCandidate := { candidate_id : string; c_body : QuarantineCandidateBody }.
Definition dump_candidate (c : QuarantineCandidate) : json :=
  JObj [("schema_version", JStr "guildmind.quarantine-candidate/v1"); ("candidate_id", JStr (candidate_id c));
        ("body", dump_candidate_body (c_body c))].

(** [candidate.destination_relative_path] *)
Definition destination_relative_path (c : QuarantineCandidate) : string := _PAYLOAD_NAME +:+ "/" +:+ candidate_id c.

(** ** The other records *)

Record QuarantinePlanBody := {
  pb_before_sha256 : string;
  pb_ledger_snapshot_sha256 : string;
  pb_reachable_sha256 : string;
  pb_state_identity : DirectoryIdentity;
  pb_database_identity : DirectoryIdentity;
  pb_artifact_root_identity : DirectoryIdentity;
  pb_candidates : list QuarantineCandidate;
}.

Definition sizes_of (l : list QuarantineCandidate) : list Z := (λ c, qf_size_bytes (cb_source_identity (c_body c))) <$> l.
Definition total (l : list Z) : Z := foldr Z.add 0 l.

Definition check_plan_body (b : QuarantinePlanBody) : result QuarantinePlanBody :=
  let l := pb_candidates b in
  let ids := candidate_id <$> l in
  let paths := (λ c, cb_source_relative_path (c_body c)) <$> l in
  let expected_device := di_device (pb_state_identity b) in
  _ ← require (forallb is_lower_sha256 [pb_before_sha256 b; pb_ledger_snapshot_sha256 b; pb_reachable_sha256 b])
        (ValidationError "string_pattern_mismatch");
  _ ← require (bool_decide (ids = sorted_set id ids)) (ValidationError "quarantine candidates must be unique and sorted by ID");
  _ ← require (bool_decide (NoDup paths)) (ValidationError "quarantine candidate paths must be unique");
  _ ← require (bool_decide (l ≠ [])) (ValidationError "a quarantine plan requires at least one candidate");
  _ ← require (Z.of_nat (length l) <=? _MAX_CANDIDATES) (ValidationError "quarantine plan exceeds the candidate-count bound");
  _ ← require (forallb (λ size, size <=? _MAX_CANDIDATE_BYTES) (sizes_of l))
        (ValidationError "quarantine plan exceeds the per-candidate byte bound");
  _ ← require (total (sizes_of l) <=? _MAX_TOTAL_HASHED_BYTES)
        (ValidationError "quarantine plan exceeds the total hashed-byte bound");
  _ ← require ((di_device (pb_artifact_root_identity b) =? expected_device) &&
               forallb (λ c, qf_device (cb_source_identity (c_body c)) =? expected_device) l)
        (ValidationError "quarantine plan candidates and roots must share the state filesystem");
  Ok b.
Definition dump_plan_body (b : QuarantinePlanBody) : json :=
  JObj [("schema_version", JStr "guildmind.quarantine-plan-body/v1"); ("before_sha256", JStr (pb_before_sha256 b));
        ("ledger_snapshot_sha256", JStr (pb_ledger_snapshot_sha256 b)); ("reachable_sha256", JStr (pb_reachable_sha256 b));
        ("state_identity", dump_directory_identity (pb_state_identity b));
        ("database_identity", dump_directory_identity (pb_database_identity b));
        ("artifact_root_identity", dump_directory_identity (pb_artifact_root_identity b));
        ("candidates", JArr (dump_candidate <$> pb_candidates b))].

Record QuarantinePlan := { qp_transaction_id : string; p_body : QuarantinePlanBody }.
Definition dump_plan (p : QuarantinePlan) : json :=
  JObj [("schema_version", JStr "guildmind.quarantine-plan/v1"); ("transaction_id", JStr (qp_transaction_id p));
        ("body", dump_plan_body (p_body p))].

(** [QuarantineBefore(report=...)] *)
Record QuarantineBefore := { before_report : StorageIntegrityReport }.
Definition dump_before (b : QuarantineBefore) : json :=
  JObj [("schema_version", JStr "guildmind.quarantine-before/v1"); ("report", dump_report (before_report b))].

Record QuarantineActive := { qa_transaction_id : string; qa_plan_sha256 : string; qa_before_sha256 : string }.
#[export] Instance quarantine_active_eq_dec : EqDecision QuarantineActive.
Proof. solve_decision. Defined.
Definition check_active (a : QuarantineActive) : result QuarantineActive :=
  _ ← require (forallb is_lower_sha256 [qa_transaction_id a; qa_plan_sha256 a; qa_before_sha256 a])
        (ValidationError "string_pattern_mismatch");
  Ok a.
Definition dump_active (a : QuarantineActive) : json :=
  JObj [("schema_version", JStr "guildmind.quarantine-active/v1"); ("transaction_id", JStr (qa_transaction_id a));
        ("plan_sha256", JStr (qa_plan_sha256 a)); ("before_sha256", JStr (qa_before_sha256 a))].
Definition validate_active (v : json) : result QuarantineActive :=
  o ← v_model ["schema_version"; "transaction_id"; "plan_sha256"; "before_sha256"] v;
  _ ← v_tag o "guildmind.quarantine-active/v1";
  transaction ← field o "transaction_id" v_str;
  plan ← field o "plan_sha256" v_str;
  before ← field o "before_sha256" v_str;
  check_active {| qa_transaction_id := transaction; qa_plan_sha256 := plan; qa_before_sha256 := before |}.

Record QuarantineReceipt := {
  qr_transaction_id : string; qr_plan_sha256 : string; qr_candidate_id : string; qr_source_relative_path : string;
  qr_destination_relative_path : string; qr_content_sha256 : string; qr_size_bytes : Z; qr_device : Z; qr_inode : Z;
  qr_mode : Z; qr_mtime_ns : Z;
}.
#[export] Instance quarantine_receipt_eq_dec : EqDecision QuarantineReceipt.
Proof. solve_decision. Defined.
Definition check_receipt (r : QuarantineReceipt) : result QuarantineReceipt :=
  _ ← require (forallb is_lower_sha256 [qr_transaction_id r; qr_plan_sha256 r; qr_candidate_id r; qr_content_sha256 r])
        (ValidationError "string_pattern_mismatch");
  _ ← require (str_nonempty (qr_source_relative_path r) && str_nonempty (qr_destination_relative_path r))
        (ValidationError "string_too_short");
  _ ← require (forallb (λ n, 0 <=? n) [qr_size_bytes r; qr_device r; qr_mode r; qr_mtime_ns r])
        (ValidationError "greater_than_equal");
  _ ← require (0 <? qr_inode r) (ValidationError "greater_than");
  Ok r.
(** [link_count] is always 1. *)
Definition dump_receipt (r : QuarantineReceipt) : json :=
  JObj [("schema_version", JStr "guildmind.quarantine-receipt/v1"); ("transaction_id", JStr (qr_transaction_id r));
        ("plan_sha256", JStr (qr_plan_sha256 r)); ("candidate_id", JStr (qr_candidate_id r));
        ("source_relative_path", JStr (qr_source_relative_path r));
        ("destination_relative_path", JStr (qr_destination_relative_path r)); ("content_sha256", JStr (qr_content_sha256 r));
        ("size_bytes", JInt (qr_size_bytes r)); ("device", JInt (qr_device r)); ("inode", JInt (qr_inode r));
        ("mode", JInt (qr_mode r)); ("link_count", JInt 1); ("mtime_ns", JInt (qr_mtime_ns r))].
Definition validate_receipt (v : json) : result QuarantineReceipt :=
  o ← v_model ["schema_version"; "transaction_id"; "plan_sha256"; "candidate_id"; "source_relative_path";
               "destination_relative_path"; "content_sha256"; "size_bytes"; "device"; "inode"; "mode"; "link_count";
               "mtime_ns"] v;
  _ ← v_tag o "guildmind.quarantine-receipt/v1";
  transaction ← field o "transaction_id" v_str;
  plan ← field o "plan_sha256" v_str;
  candidate ← field o "candidate_id" v_str;
  source ← field o "source_relative_path" v_str;
  destination ← field o "destination_relative_path" v_str;
  content ← field o "content_sha256" v_str;
  size ← field o "size_bytes" v_int;
  device ← field o "device" v_int;
  inode ← field o "inode" v_int;
  mode ← field o "mode" v_int;
  links ← field_default o "link_count" 1 v_int;
  _ ← require (links =? 1) (ValidationError "literal_error");
  mtime ← field o "mtime_ns" v_int;
  check_receipt {| qr_transaction_id := transaction; qr_plan_sha256 := plan; qr_candidate_id := candidate;
                   qr_source_relative_path := source; qr_destination_relative_path := destination;
                   qr_content_sha256 := content; qr_size_bytes := size; qr_device := device; qr_inode := inode;
                   qr_mode := mode; qr_mtime_ns := mtime |}.

Record QuarantineAfter := { af_transaction_id : string; after_report : StorageIntegrityReport }.
Definition dump_after (a : QuarantineAfter) : json :=
  JObj [("schema_version", JStr "guildmind.quarantine-after/v1"); ("transaction_id", JStr (af_transaction_id a));
        ("report", dump_report (after_report a))].
Definition check_after (a : QuarantineAfter) : result QuarantineAfter :=
  _ ← require (is_lower_sha256 (af_transaction_id a)) (ValidationError "string_pattern_mismatch"); Ok a.

Record ReceiptCommitment := { rm_candidate_id : string; rm_receipt_sha256 : string }.
Definition check_receipt_commitment (c : ReceiptCommitment) : result ReceiptCommitment :=
  _ ← require (forallb is_lower_sha256 [rm_candidate_id c; rm_receipt_sha256 c]) (ValidationError "string_pattern_mismatch");
  Ok c.
Definition dump_receipt_commitment (c : ReceiptCommitment) : json :=
  JObj [("candidate_id", JStr (rm_candidate_id c)); ("receipt_sha256", JStr (rm_receipt_sha256 c))].

Record QuarantineComplete := {
  qc_transaction_id : string; qc_plan_sha256 : string; qc_before_sha256 : string; qc_after_sha256 : string;
  qc_receipts : list ReceiptCommitment;
}.
Definition check_complete (c : QuarantineComplete) : result QuarantineComplete :=
  let ids := rm_candidate_id <$> qc_receipts c in
  _ ← require (forallb is_lower_sha256 [qc_transaction_id c; qc_plan_sha256 c; qc_before_sha256 c; qc_after_sha256 c])
        (ValidationError "string_pattern_mismatch");
  _ ← require (bool_decide (ids = sorted_set id ids)) (ValidationError "receipt commitments must be unique and sorted");
  Ok c.
Definition dump_complete (c : QuarantineComplete) : json :=
  JObj [("schema_version", JStr "guildmind.quarantine-complete/v1"); ("transaction_id", JStr (qc_transaction_id c));
        ("plan_sha256", JStr (qc_plan_sha256 c)); ("before_sha256", JStr (qc_before_sha256 c));
        ("after_sha256", JStr (qc_after_sha256 c)); ("receipts", JArr (dump_receipt_commitment <$> qc_receipts c))].

Record QuarantineResult := {
  qs_outcome : QuarantineOutcome;
  qs_transaction_id : option string;
  qs_resumed : bool;
  qs_quarantined_count : Z;
  qs_final_report : StorageIntegrityReport;
  qs_completion_sha256 : option string;
}.
Definition check_result (r : QuarantineResult) : result QuarantineResult :=
  _ ← require (opt_all is_lower_sha256 (qs_transaction_id r) && opt_all is_lower_sha256 (qs_completion_sha256 r))
        (ValidationError "string_pattern_mismatch");
  _ ← require (0 <=? qs_quarantined_count r) (ValidationError "greater_than_equal");
  _ ← match qs_outcome r with
      | NO_OP =>
          require (negb (present (qs_transaction_id r) || negb (qs_quarantined_count r =? 0) ||
                         present (qs_completion_sha256 r) || qs_resumed r))
            (ValidationError "no-op quarantine result contains transaction fields")
      | COMPLETED =>
          require (present (qs_transaction_id r) && (0 <? qs_quarantined_count r) && present (qs_completion_sha256 r))
            (ValidationError "completed quarantine result lacks transaction fields")
      end;
  Ok r.

(** ** Names that are digests *)

Section hashing.
Context {hashing : Hashing}.

Definition check_candidate (c : QuarantineCandidate) : result QuarantineCandidate :=
  _ ← require (is_lower_sha256 (candidate_id c)) (ValidationError "string_pattern_mismatch");
  expected ← canonical_sha256 (dump_candidate_body (c_body c));
  _ ← require (str_eqb (candidate_id c) expected) (ValidationError "quarantine candidate ID does not match its body");
  Ok c.
Definition validate_candidate (v : json) : result QuarantineCandidate :=
  o ← v_model ["schema_version"; "candidate_id"; "body"] v;
  _ ← v_tag o "guildmind.quarantine-candidate/v1";
  id ← field o "candidate_id" v_str;
  body ← field o "body" validate_candidate_body;
  check_candidate {| candidate_id := id; c_body := body |}.

Definition validate_plan_body (v : json) : result QuarantinePlanBody :=
  o ← v_model ["schema_version"; "before_sha256"; "ledger_snapshot_sha256"; "reachable_sha256"; "state_identity";
               "database_identity"; "artifact_root_identity"; "candidates"] v;
  _ ← v_tag o "guildmind.quarantine-plan-body/v1";
  before ← field o "before_sha256" v_str;
  snapshot ← field o "ledger_snapshot_sha256" v_str;
  reach ← field o "reachable_sha256" v_str;
  state ← field o "state_identity" validate_directory_identity;
  database ← field o "database_identity" validate_directory_identity;
  root ← field o "artifact_root_identity" validate_directory_identity;
  l ← field o "candidates" (v_list validate_candidate);
  check_plan_body {| pb_before_sha256 := before; pb_ledger_snapshot_sha256 := snapshot; pb_reachable_sha256 := reach;
                     pb_state_identity := state; pb_database_identity := database; pb_artifact_root_identity := root;
                     pb_candidates := l |}.

Definition check_plan (p : QuarantinePlan) : result QuarantinePlan :=
  _ ← require (is_lower_sha256 (qp_transaction_id p)) (ValidationError "string_pattern_mismatch");
  expected ← canonical_sha256 (dump_plan_body (p_body p));
  _ ← require (str_eqb (qp_transaction_id p) expected)
        (ValidationError "quarantine transaction ID does not match its plan body");
  Ok p.
Definition validate_plan (v : json) : result QuarantinePlan :=
  o ← v_model ["schema_version"; "transaction_id"; "body"] v;
  _ ← v_tag o "guildmind.quarantine-plan/v1";
  transaction ← field o "transaction_id" v_str;
  body ← field o "body" validate_plan_body;
  check_plan {| qp_transaction_id := transaction; p_body := body |}.

Definition validate_before (v : json) : result QuarantineBefore :=
  o ← v_model ["schema_version"; "report"] v;
  _ ← v_tag o "guildmind.quarantine-before/v1";
  r ← field o "report" validate_report;
  Ok {| before_report := r |}.

(** [_reachable_sha256(reachable)] *)
Definition _reachable_sha256 (l : list ReachableArtifact) : result string :=
  canonical_sha256 (JObj [("reachable", JArr (dump_reachable <$> l));
                          ("schema_version", JStr "guildmind.quarantine-reachable/v1")]).

(** [_finding_set_sha256(findings)] *)
Definition _finding_set_sha256 (l : list ArtifactFinding) : result string :=
  texts ← mapR (λ f, canonical_json (dump_finding f)) l;
  canonical_sha256 (JObj [("findings", dump_strings (sort_by id texts));
                          ("schema_version", JStr "guildmind.quarantine-finding-set/v1")]).
End hashing.
