(* ===== verification/QuarantineFiles.v ===== *)
(** * Files and directories of a quarantine (src/guildmind/storage/quarantine.py)

    What the protocol does on open directories: entries looked up by their exact names,
    directories opened without following links, records written once and read back,
    candidates hashed.  Each function is a program of [Sys]. *)

From Stdlib Require Import Ascii.
From S2P Require Import Prelude Order Loop Effects PyStr Files Descriptors Disk Float64 Json Text Hash Datetime Fields Usage.
From S2P Require Import Models Sqlite EventStore Artifacts Integrity Coordinator Reports QuarantineRecords.

Local Open Scope Z_scope.

(** [raise _ProtocolFailure(reason, ...)], unless [b] *)
Definition protocol {A} (r : QuarantineFailureReason) : Sys A := lift (Err (protocol_failure r)).
Definition demand_protocol (b : bool) (r : QuarantineFailureReason) : Sys unit := lift (require b (protocol_failure r)).
(** [except OSError as error: raise _ProtocolFailure(reason, ...)] *)
Definition or_protocol {A} (r : QuarantineFailureReason) (o : os_result A) : Sys A :=
  match o with Done a => mret a | OSError _ => protocol r end.

(** [_RECORD_TEMP] *)
Definition record_stem (s : string) : bool :=
  existsb (str_eqb s) [_BEFORE_NAME; _PLAN_NAME; _AFTER_NAME; _COMPLETE_NAME; _ACTIVE_NAME] ||
  (endswith ".json" s && is_lower_sha256 (take_prefix (String.length s - 5) s)).
Definition is_record_temp (s : string) : bool :=
  match literal "." s with
  | None => false
  | Some rest =>
      let n := (String.length rest - 37)%nat in
      match literal ".tmp-" (String.substring n 37 rest) with
      | Some token => is_lower_hex 32 token && record_stem (take_prefix n rest)
      | None => false
      end
  end.

(** [_file_snapshot(metadata)] *)
Definition _file_snapshot (m : stat_result) :=
  (st_kind m, st_dev m, st_ino m, st_nlink m, st_size m, st_perm m, st_mtime_ns m, st_ctime_ns m).

Section files.
Context {kernel : Kernel} {disk : Disk}.

(** ** Entries *)

(** [_iter_entry_names(descriptor, label)]: the names, and what iterating past them raises. *)
Definition _iter_entry_names (fd : Z) : Sys (list entry_name * option exn) :=
  l ← os_scandir fd;
  let names := de_name <$> entries l in
  mret (if Z.of_nat (length names) <=? _MAX_DIRECTORY_ENTRIES
        then (names, match scan_error l with Some _ => Some (protocol_failure NAMESPACE_INVALID) | None => None end)
        else (take (Z.to_nat _MAX_DIRECTORY_ENTRIES) names, Some (protocol_failure NAMESPACE_INVALID))).

Definition is_name (name : string) (n : entry_name) : bool :=
  match n with Name s => str_eqb s name | RawName _ => false end.
Definition raise_some (o : option exn) : Sys unit := match o with Some e => lift (Err e) | None => mret tt end.

(** [_entry_exists_exact(parent_descriptor, name)] *)
Definition _entry_exists_exact (fd : Z) (name : string) : Sys bool :=
  '((names, broken) : list entry_name * option exn) ← _iter_entry_names fd;
  if existsb (is_name name) names then mret true
  else
    _ ← raise_some broken;
    o ← os_stat fd name;
    match o with
    | OSError n => if not_found n then mret false else protocol NAMESPACE_INVALID
    | Done _ => protocol NAMESPACE_INVALID
    end.

(** [_require_entry_absent(parent_descriptor, name)] *)
Definition _require_entry_absent (fd : Z) (name : string) : Sys unit :=
  present ← _entry_exists_exact fd name; demand_protocol (negb present) RECORD_INVALID.

(** [_require_directory_empty(descriptor, label)] *)
Definition _require_directory_empty (fd : Z) : Sys unit :=
  '((names, broken) : list entry_name * option exn) ← _iter_entry_names fd;
  match names with [] => raise_some broken | _ :: _ => protocol NAMESPACE_INVALID end.

(** Whether a name is among these. *)
Definition is_expected (expected : list string) (n : entry_name) : bool :=
  match n with Name s => existsb (str_eqb s) expected | RawName _ => false end.

(** [_require_entries_subset(descriptor, allowed, label)] *)
Definition _require_entries_subset (fd : Z) (allowed : list string) : Sys unit :=
  '((names, broken) : list entry_name * option exn) ← _iter_entry_names fd;
  _ ← demand_protocol (forallb (is_expected allowed) names) NAMESPACE_INVALID;
  raise_some broken.

(** [_require_exact_entries(descriptor, expected, label)] *)
Definition _require_exact_entries (fd : Z) (expected : list string) : Sys unit :=
  '((names, broken) : list entry_name * option exn) ← _iter_entry_names fd;
  _ ← demand_protocol (forallb (is_expected expected) names) NAMESPACE_INVALID;
  _ ← raise_some broken;
  demand_protocol (forallb (λ name, existsb (is_name name) names) expected) NAMESPACE_INVALID.

(** [_require_expected_transaction_entries(descriptor)] *)
Definition _require_expected_transaction_entries (fd : Z) : Sys unit :=
  _require_entries_subset fd [_BEFORE_NAME; _PLAN_NAME; _PAYLOAD_NAME; _RECEIPTS_NAME; _AFTER_NAME; _COMPLETE_NAME].

(** A single-link regular file. *)
Definition is_plain_file (m : stat_result) : bool := is_kind Regular m && (st_nlink m =? 1).

(** Calls outside a [try]. *)
Definition do_stat (fd : Z) (name : string) : Sys stat_result := o ← os_stat fd name; raise_os o.
Definition do_fstat (fd : Z) : Sys stat_result := o ← os_fstat fd; raise_os o.
Definition do_fsync (fd : Z) : Sys unit := o ← os_fsync fd; raise_os o.
Definition do_unlink (fd : Z) (name : string) : Sys unit := o ← os_unlink fd name; raise_os o.
Definition do_open (fd : Z) (name : string) : Sys Z := o ← os_open (At fd name) ReadFlags; raise_os o.

(** [_clean_known_record_temps(descriptor)] *)
Definition clean_temp (fd : Z) (name : string) : Sys unit :=
  m ← do_stat fd name;
  _ ← demand_protocol (is_plain_file m) RECORD_INVALID;
  do_unlink fd name.
Definition record_temps (names : list entry_name) : list string :=
  omap (λ n, match n with Name s => if is_record_temp s then Some s else None | RawName _ => None end) names.
Definition _clean_known_record_temps (fd : Z) : Sys unit :=
  '((names, broken) : list entry_name * option exn) ← _iter_entry_names fd;
  _ ← raise_some broken;
  let temporary_names := record_temps names in
  _ ← forM (clean_temp fd) temporary_names;
  if bool_decide (temporary_names = []) then mret tt else do_fsync fd.

(** ** Directories *)

(** The part of a [stat_result] that says which object it is. *)
Definition same_entry (a b : stat_result) : bool :=
  (st_dev a =? st_dev b) && (st_ino a =? st_ino b) && bool_decide (st_kind a = st_kind b).

(** [_open_existing_directory_descriptor(parent_descriptor, name)] *)
Definition _open_existing_directory_descriptor (fd : Z) (name : string) : Sys Z :=
  o ← os_stat fd name;
  m ← or_protocol NAMESPACE_INVALID o;
  _ ← demand_protocol (is_kind Directory m) NAMESPACE_INVALID;
  o ← os_open (At fd name) DirectoryFlags;
  child ← or_protocol NAMESPACE_INVALID o;
  _ ← close_on_error child (
    opened ← do_fstat child;
    final ← do_stat fd name;
    demand_protocol (same_entry opened m && same_entry final m) NAMESPACE_INVALID);
  mret child.

(** [_try_open_existing_directory_at(parent_descriptor, name)] *)
Definition _try_open_existing_directory_at (fd : Z) (name : string) : Sys (option Z) :=
  present ← _entry_exists_exact fd name;
  if (present : bool) then child ← _open_existing_directory_descriptor fd name; mret (Some child) else mret None.

(** The entry of [_open_existing_directory_at(parent_descriptor, name)] *)
Definition open_existing (fd : Z) (name : string) : Sys Z :=
  o ← _try_open_existing_directory_at fd name;
  match (o : option Z) with Some child => mret child | None => protocol NAMESPACE_INVALID end.

(** The entry of [_ensure_directory_at(parent_descriptor, name)].  The second sync is
    outside the [try] that closes the descriptor. *)
Definition ensure_directory (fd : Z) (name : string) : Sys Z :=
  o ← _try_open_existing_directory_at fd name;
  child ← match (o : option Z) with
          | Some child => mret child
          | None =>
              made ← os_mkdir fd name;
              _ ← match made with
                  | Done _ => mret tt
                  | OSError n => protocol (if file_exists n then NAMESPACE_INVALID else IO_ERROR)
                  end;
              _ ← do_fsync fd;
              _open_existing_directory_descriptor fd name
          end;
  _ ← do_fsync fd;
  mret child.

(** [with opening as descriptor: body] *)
Definition with_descriptor {A} (opening : Sys Z) (body : Z → Sys A) : Sys A :=
  fd ← opening; finally (body fd) (λ _, close_fd fd).

(** ** The stack of directories *)

(** An [ExitStack] closes its descriptors, the last one first; the exception of the last
    closing that fails is the one that counts. *)
Fixpoint close_stack (stack : list Z) : Sys (option exn) :=
  match stack with
  | [] => mret None
  | fd :: stack =>
      o ← os_close fd;
      later ← close_stack stack;
      mret match later, o with
           | Some e, _ => Some e
           | None, OSError n => Some (OSException n)
           | None, Done _ => None
           end
  end.

(** The stack is left: what becomes of a failure to close, given how the body ended. *)
Definition leave_stack {A} (stack : list Z) (on_exit : result A → exn → exn) (body : Sys A) : Sys A := λ s,
  let '(r, s) := body s in
  match close_stack stack s with
  | (Ok (Some e), s) => (Err (on_exit r e), s)
  | (_, s) => (r, s)
  end.

(** While the stack is built: an exception leaves it. *)
Definition unwinding {A} (stack : list Z) (m : Sys A) : Sys A :=
  finally m (λ r, match r with Ok _ => mret tt | Err _ => e ← close_stack stack; raise_some e end).

Record transaction_directories := {
  td_version : Z; td_transaction : Z; td_payload : Z; td_receipts : Z; td_stack : list Z;
}.

(** [_open_transaction_directories(stack, state_descriptor, transaction_id, create=...)] *)
Definition _open_transaction_directories (state_fd : Z) (transaction_id : string) (create : bool)
    : Sys transaction_directories :=
  _ ← demand_protocol (is_lower_sha256 transaction_id) RECORD_INVALID;
  let opener := if create then ensure_directory else open_existing in
  state ← do_fstat state_fd;
  quarantine ← opener state_fd _QUARANTINE_NAME;
  version ← unwinding [quarantine] (opener quarantine _VERSION_NAME);
  transactions ← unwinding [version; quarantine] (opener version _TRANSACTIONS_NAME);
  transaction ← unwinding [transactions; version; quarantine] (opener transactions transaction_id);
  payload ← unwinding [transaction; transactions; version; quarantine] (opener transaction _PAYLOAD_NAME);
  receipts ← unwinding [payload; transaction; transactions; version; quarantine] (opener transaction _RECEIPTS_NAME);
  let stack := [receipts; payload; transaction; transactions; version; quarantine] in
  _ ← unwinding stack (forM (λ fd, m ← do_fstat fd; demand_protocol (st_dev m =? st_dev state) CROSS_DEVICE)
        [quarantine; version; transactions; transaction; payload; receipts]);
  mret {| td_version := version; td_transaction := transaction; td_payload := payload; td_receipts := receipts;
          td_stack := stack |}.

(** [with ExitStack() as stack: ... = _open_transaction_directories(stack, ...); body] *)
Definition with_transaction {A} (state_fd : Z) (transaction_id : string) (create : bool)
    (on_exit : result A → exn → exn) (body : transaction_directories → Sys A) : Sys A :=
  d ← _open_transaction_directories state_fd transaction_id create;
  leave_stack (td_stack d) on_exit (body d).

(** ** Records *)

(** The bytes of an open record, never more than [maximum]. *)
Definition record_chunk (fd maximum : Z) (acc : list Byte.byte) : Sys (step (list Byte.byte) (list Byte.byte)) :=
  let total := Z.of_nat (length acc) in
  o ← os_read fd (Z.min _READ_CHUNK_BYTES (maximum - total + 1));
  chunk ← raise_os o;
  match chunk with
  | [] => mret (Leave acc)
  | _ :: _ =>
      _ ← demand_protocol (Z.of_nat (length (acc ++ chunk)) <=? maximum) RECORD_INVALID;
      mret (Continue (acc ++ chunk))
  end.

(** [_read_record_bytes(parent_descriptor, name, maximum=...)] *)
Definition _read_record_bytes (parent : Z) (name : string) (maximum : Z) : Sys (list Byte.byte) :=
  present ← _entry_exists_exact parent name;
  _ ← demand_protocol present RECORD_INVALID;
  m ← do_stat parent name;
  _ ← demand_protocol (is_plain_file m && (st_perm m =? 384) && (st_size m <=? maximum)) RECORD_INVALID;
  with_descriptor (do_open parent name) (λ fd,
    opened ← do_fstat fd;
    _ ← demand_protocol (bool_decide (_file_snapshot opened = _file_snapshot m)) RECORD_INVALID;
    data ← loopM (Z.to_pos (maximum + 2)) (record_chunk fd maximum) [];
    final_opened ← do_fstat fd;
    final_path ← do_stat parent name;
    _ ← demand_protocol (bool_decide (_file_snapshot opened = _file_snapshot final_opened) &&
                         bool_decide (_file_snapshot opened = _file_snapshot final_path)) RECORD_INVALID;
    mret data).

(** [_remove_record_temporary(parent_descriptor, name, missing_ok=...)] *)
Definition _remove_record_temporary (parent : Z) (name : string) (missing_ok : bool) : Sys unit :=
  o ← os_stat parent name;
  match o with
  | OSError n => if not_found n && missing_ok then mret tt else lift (Err (OSException n))
  | Done m =>
      _ ← demand_protocol (is_plain_file m) RECORD_INVALID;
      _ ← do_unlink parent name;
      do_fsync parent
  end.

(** On an exception, the temporary is removed; a failure of that becomes a note. *)
Definition discarding {A} (parent : Z) (temporary : string) (m : Sys A) : Sys A :=
  finally m (λ r, match r with
                  | Ok _ => mret tt
                  | Err _ => catch (_remove_record_temporary parent temporary true) (λ _, Some (mret tt))
                  end).

(** The write loop of [_write_immutable_model]. *)
Definition write_rest (fd : Z) (data : list Byte.byte) (written : Z) : Sys (step Z unit) :=
  if written <? Z.of_nat (length data) then
    o ← os_write fd (drop (Z.to_nat written) data);
    amount ← raise_os o;
    _ ← lift (require (0 <? amount) (OSException (Some EIO)));
    mret (Continue (written + amount))
  else mret (Leave tt).

(** The temporary is written, synced, looked at, and closed. *)
Definition write_temporary (parent : Z) (temporary : string) (data : list Byte.byte) (fd : Z) : Sys unit :=
  _ ← finally
    (_ ← loopM (Z.to_pos (Z.of_nat (length data) + 1)) (write_rest fd data) 0;
     _ ← do_fsync fd;
     m ← do_fstat fd;
     demand_protocol (is_plain_file m && (st_size m =? Z.of_nat (length data))) RECORD_INVALID)
    (λ r, match r with
          | Ok _ => mret tt
          | Err _ =>
              _ ← os_close fd;
              catch (_remove_record_temporary parent temporary true) (λ _, Some (mret tt))
          end);
  close_fd fd.

(** The temporary gets the record's name, unless the record exists: then it must have the
    same bytes, and the temporary goes. *)
Definition publish_record (parent : Z) (name temporary : string) (data : list Byte.byte) (maximum : Z) : Sys unit :=
  o ← rename_noreplace_at parent temporary parent name;
  match o with
  | Done _ => do_fsync parent
  | OSError n =>
      discarding parent temporary (
        if file_exists n then
          observed ← _read_record_bytes parent name maximum;
          _ ← demand_protocol (bool_decide (observed = data)) RECORD_INVALID;
          _ ← _remove_record_temporary parent temporary false;
          do_fsync parent
        else lift (Err (OSException n)))
  end.

Section hashing.
Context {hashing : Hashing} {parser : PydanticJson}.

(** [_write_immutable_model(parent_descriptor, name, model, maximum=...)], the model given
    by its dump: the digest of the record's bytes. *)
Definition _write_immutable_model (parent : Z) (name : string) (model : json) (maximum : Z) : Sys string :=
  text ← lift (canonical_json model);
  let data := utf8_encode text in
  _ ← demand_protocol (Z.of_nat (length data) <=? maximum) RECORD_INVALID;
  present ← _entry_exists_exact parent name;
  if (present : bool) then
    observed ← _read_record_bytes parent name maximum;
    _ ← demand_protocol (bool_decide (observed = data)) RECORD_INVALID;
    _ ← do_fsync parent;
    mret (sha256_bytes observed)
  else
    token ← token_hex;
    let temporary := "." +:+ name +:+ ".tmp-" +:+ token in
    o ← os_create parent temporary;
    fd ← raise_os o;
    _ ← write_temporary parent temporary data fd;
    _ ← publish_record parent name temporary data maximum;
    observed ← _read_record_bytes parent name maximum;
    _ ← demand_protocol (bool_decide (observed = data)) RECORD_INVALID;
    mret (sha256_bytes observed).

(** [_read_model(parent_descriptor, name, model_type, maximum=...)], the type given by its
    reader and its dump *)
Definition _read_model {T} (validate : json → result T) (dump : T → json) (parent : Z) (name : string) (maximum : Z)
    : Sys (T * string) :=
  data ← _read_record_bytes parent name maximum;
  model ← lift (except (λ e, if is_value_error e then protocol_failure RECORD_INVALID else e)
                  (model_validate_json validate data));
  text ← lift (canonical_json (dump model));
  _ ← demand_protocol (bool_decide (utf8_encode text = data)) RECORD_INVALID;
  mret (model, sha256_bytes data).
End hashing.

(** ** Candidates *)

(** [_file_identity(metadata)] and [_directory_identity(metadata)] *)
Definition _file_identity (m : stat_result) : result FileIdentity :=
  _ ← require (is_plain_file m) (protocol_failure CANDIDATE_CHANGED);
  check_file_identity
    {| qf_device := st_dev m; qf_inode := st_ino m; qf_mode := st_perm m; qf_link_count := st_nlink m;
       qf_size_bytes := st_size m; qf_mtime_ns := st_mtime_ns m; qf_ctime_ns := st_ctime_ns m |}.
Definition _directory_identity (m : stat_result) : result DirectoryIdentity :=
  _ ← require (is_kind Directory m) (protocol_failure NAMESPACE_INVALID);
  check_directory_identity {| di_device := st_dev m; di_inode := st_ino m |}.

(** [PurePosixPath(relative_path).parts] of a relative path, and whether it is absolute *)
Definition posix_parts (s : string) : list string :=
  List.filter (λ part, negb (existsb (str_eqb part) [""; "."])) (split_char "/"%char s).

(** The walk of [_open_candidate_parent]: whichever directory is current when it ends or
    fails is closed at last. *)
Fixpoint below {A} (current : Z) (components : list string) (body : Z → Sys A) : Sys A :=
  match components with
  | [] => finally (body current) (λ _, close_fd current)
  | component :: components =>
      next ← finally (_open_existing_directory_descriptor current component)
        (λ r, match r with Ok _ => mret tt | Err _ => close_fd current end);
      _ ← finally (close_fd current) (λ r, match r with Ok _ => mret tt | Err _ => close_fd current end);
      below next components body
  end.

(** [with _open_candidate_parent(artifact_descriptor, relative_path) as (parent, name): body] *)
Definition with_candidate_parent {A} (artifact_fd : Z) (relative_path : string) (body : Z → string → Sys A) : Sys A :=
  let parts := posix_parts relative_path in
  _ ← demand_protocol (negb (startswith "/" relative_path || bool_decide (parts = []) || existsb (str_eqb "..") parts))
        UNSUPPORTED_FINDING;
  o ← os_dup artifact_fd;
  current ← raise_os o;
  below current (removelast parts) (λ parent, body parent (List.last parts "")).

(** The content of an open candidate; [budget] is what the total limit leaves, if there
    is one. *)
Definition candidate_chunk (fd maximum : Z) (acc : list Byte.byte * option Z)
    : Sys (step (list Byte.byte * option Z) (list Byte.byte * option Z)) :=
  let '(content, budget) := acc in
  let size := Z.min (Z.min _READ_CHUNK_BYTES (maximum - Z.of_nat (length content) + 1))
                match budget with Some n => n + 1 | None => _READ_CHUNK_BYTES end in
  o ← os_read fd size;
  chunk ← raise_os o;
  match chunk with
  | [] => mret (Leave acc)
  | _ :: _ =>
      _ ← demand_protocol (Z.of_nat (length (content ++ chunk)) <=? maximum) HASH_LIMIT_EXCEEDED;
      let amount := Z.of_nat (length chunk) in
      _ ← demand_protocol match budget with Some n => amount <=? n | None => true end HASH_LIMIT_EXCEEDED;
      mret (Continue (content ++ chunk, (λ n, n - amount) <$> budget))
  end.

Section observing.
Context {hashing : Hashing}.

(** [_observe_regular_leaf(parent_descriptor, name, ...)]: the identity, the digest, and
    what the budget leaves. *)
Definition _observe_regular_leaf (parent : Z) (name : string) (maximum : Z) (budget : option Z) (sync_file : bool)
    : Sys (FileIdentity * string * option Z) :=
  present ← _entry_exists_exact parent name;
  _ ← demand_protocol present CANDIDATE_CHANGED;
  m ← do_stat parent name;
  identity ← lift (_file_identity m);
  _ ← demand_protocol (qf_size_bytes identity <=? maximum) HASH_LIMIT_EXCEEDED;
  with_descriptor (do_open parent name) (λ fd,
    opened ← do_fstat fd;
    _ ← demand_protocol (bool_decide (_file_snapshot opened = _file_snapshot m)) CANDIDATE_CHANGED;
    '((content, budget) : list Byte.byte * option Z) ←
      loopM (Z.to_pos (maximum + 2)) (candidate_chunk fd maximum) ([], budget);
    _ ← (if sync_file then do_fsync fd else mret tt);
    final_opened ← do_fstat fd;
    final_path ← do_stat parent name;
    _ ← demand_protocol ((Z.of_nat (length content) =? qf_size_bytes identity) &&
                         bool_decide (_file_snapshot opened = _file_snapshot final_opened) &&
                         bool_decide (_file_snapshot opened = _file_snapshot final_path)) CANDIDATE_CHANGED;
    mret (identity, sha256_bytes content, budget)).

(** [_observe_candidate(artifact_descriptor, relative_path, ...)] *)
Definition _observe_candidate (artifact_fd : Z) (relative_path : string) (budget : Z)
    (expected_identity : option FileIdentity) (expected_sha256 : option string) (sync_file : bool)
    : Sys (FileIdentity * string * option Z) :=
  '((identity, digest, budget) : FileIdentity * string * option Z) ←
    with_candidate_parent artifact_fd relative_path (λ parent name,
      _observe_regular_leaf parent name _MAX_CANDIDATE_BYTES (Some budget) sync_file);
  _ ← demand_protocol (opt_all (λ i, bool_decide (identity = i)) expected_identity) CANDIDATE_CHANGED;
  _ ← demand_protocol (opt_all (str_eqb digest) expected_sha256) CANDIDATE_CHANGED;
  mret (identity, digest, budget).

(** [_observe_candidate_leaf(parent_descriptor, name, candidate, ...)] *)
Definition _observe_candidate_leaf (parent : Z) (name : string) (c : QuarantineCandidate) (sync_file allow_rename_ctime : bool)
    : Sys unit :=
  '((identity, digest, _) : FileIdentity * string * option Z) ←
    _observe_regular_leaf parent name _MAX_CANDIDATE_BYTES None sync_file;
  let expected := cb_source_identity (c_body c) in
  let identity_matches := if allow_rename_ctime
                          then bool_decide (_stable_file_identity identity = _stable_file_identity expected)
                          else bool_decide (identity = expected) in
  demand_protocol (identity_matches && str_eqb digest (cb_content_sha256 (c_body c))) CANDIDATE_CHANGED.

(** [_candidate_source_exists], [_validate_candidate_source], [_validate_candidate_destination] *)
Definition _candidate_source_exists (artifact_fd : Z) (c : QuarantineCandidate) : Sys bool :=
  with_candidate_parent artifact_fd (cb_source_relative_path (c_body c)) _entry_exists_exact.
Definition _validate_candidate_source (artifact_fd : Z) (c : QuarantineCandidate) (sync_file : bool) : Sys unit :=
  with_candidate_parent artifact_fd (cb_source_relative_path (c_body c)) (λ parent name,
    _observe_candidate_leaf parent name c sync_file false).
Definition _validate_candidate_destination (payload_fd : Z) (c : QuarantineCandidate) : Sys unit :=
  _observe_candidate_leaf payload_fd (candidate_id c) c false true.
End observing.

(** ** The database *)

(** The part of its metadata that is compared. *)
Definition database_entry (m : stat_result) := (st_kind m, st_dev m, st_ino m, st_nlink m).

(** [_database_identity_at(state_descriptor)] *)
Definition _database_identity_at (state_fd : Z) : Sys DirectoryIdentity :=
  present ← _entry_exists_exact state_fd "runs.db";
  _ ← demand_protocol present STORAGE_NOT_QUARANTINABLE;
  o ← os_stat state_fd "runs.db";
  m ← or_protocol STORAGE_NOT_QUARANTINABLE o;
  _ ← demand_protocol (is_plain_file m) STORAGE_NOT_QUARANTINABLE;
  with_descriptor (o ← os_open (At state_fd "runs.db") ReadFlags; or_protocol STORAGE_NOT_QUARANTINABLE o) (λ fd,
    opened ← do_fstat fd;
    final ← do_stat state_fd "runs.db";
    _ ← demand_protocol (bool_decide (database_entry opened = database_entry m) &&
                         bool_decide (database_entry final = database_entry m)) STORAGE_NOT_QUARANTINABLE;
    lift (check_directory_identity {| di_device := st_dev opened; di_inode := st_ino opened |})).
End files.
