(* ===== verification/Quarantine.v ===== *)
(** * Quarantine of orphans (src/guildmind/storage/quarantine.py)

    [quarantine_orphans]: under an exclusive lease, a plan bound to an audited storage is
    made durable, [quarantine/v1/ACTIVE] fences off every publisher, the candidates are
    moved one by one with a receipt each, and a clean audit unfences.  An interrupted
    transaction is resumed from its records. *)

From S2P Require Import Prelude Order Loop Effects PyStr Files Descriptors Disk Float64 Json Text Hash Datetime Fields Usage.
From S2P Require Import Models Sqlite EventStore Artifacts Integrity Coordinator Reports QuarantineRecords QuarantineFiles.
From S2P Require Import Maintenance.

Local Open Scope Z_scope.

Definition prelude_entries : list string := [_TRANSACTIONS_NAME].
Definition active_entries : list string := [_TRANSACTIONS_NAME; _ACTIVE_NAME].

Section quarantine.
Context {kernel : Kernel} {disk : Disk} {world : World} {hashing : Hashing} {datetimes : PydanticDatetime}.
Context {parser : PydanticJson} {ledgers : Ledgers} {env : Environment}.

(** ** What a report must say *)

(** [_require_quarantinable(report)] *)
Definition _require_quarantinable (report : StorageIntegrityReport) : result unit :=
  match artifact_audit report with
  | None => Err (protocol_failure STORAGE_NOT_QUARANTINABLE)
  | Some audit =>
      _ ← require (si_quarantine_allowed report) (protocol_failure STORAGE_NOT_QUARANTINABLE);
      _ ← require (bool_decide (findings audit ≠ [])) (protocol_failure STORAGE_NOT_QUARANTINABLE);
      require (forallb is_actionable (findings audit)) (protocol_failure UNSUPPORTED_FINDING)
  end.

(** [_require_before_matches_plan(before, plan)] *)
Definition _require_before_matches_plan (before : QuarantineBefore) (plan : QuarantinePlan) : result unit :=
  let report := before_report before in
  _ ← _require_quarantinable report;
  match ledger_snapshot report, artifact_audit report with
  | Some snapshot, Some audit =>
      _ ← require (str_eqb (ls_snapshot_sha256 snapshot) (pb_ledger_snapshot_sha256 (p_body plan)))
            (protocol_failure RECORD_INVALID);
      reach ← _reachable_sha256 (reachable audit);
      _ ← require (str_eqb reach (pb_reachable_sha256 (p_body plan))) (protocol_failure RECORD_INVALID);
      found ← _finding_set_sha256 (findings audit);
      planned ← _finding_set_sha256 ((λ c, cb_finding (c_body c)) <$> pb_candidates (p_body plan));
      require (str_eqb found planned) (protocol_failure RECORD_INVALID)
  | _, _ => Err (protocol_failure RECORD_INVALID)
  end.

(** [_require_report_graph(plan, report)]: the audit that it is bound to *)
Definition _require_report_graph (plan : QuarantinePlan) (report : StorageIntegrityReport) : result unit :=
  match si_quarantine_allowed report, ledger_snapshot report, artifact_audit report with
  | true, Some snapshot, Some audit =>
      _ ← require (str_eqb (ls_snapshot_sha256 snapshot) (pb_ledger_snapshot_sha256 (p_body plan)))
            (protocol_failure LEDGER_CHANGED);
      reach ← _reachable_sha256 (reachable audit);
      require (str_eqb reach (pb_reachable_sha256 (p_body plan))) (protocol_failure REACHABLE_GRAPH_CHANGED)
  | _, _, _ => Err (protocol_failure REACHABLE_GRAPH_CHANGED)
  end.

(** The candidates that are still to be moved. *)
Definition pending_of (plan : QuarantinePlan) (pending : list bool) : list QuarantineCandidate :=
  (List.filter snd (zip (pb_candidates (p_body plan)) pending)).*1.

(** [_require_current_report(plan, report, pending)] *)
Definition _require_current_report (plan : QuarantinePlan) (report : StorageIntegrityReport) (pending : list bool)
    : result unit :=
  _ ← _require_report_graph plan report;
  match artifact_audit report with
  | None => Err (protocol_failure REACHABLE_GRAPH_CHANGED)
  | Some audit =>
      found ← _finding_set_sha256 (findings audit);
      expected ← _finding_set_sha256 ((λ c, cb_finding (c_body c)) <$> pending_of plan pending);
      require (str_eqb found expected) (protocol_failure PLAN_CHANGED)
  end.

(** [_require_final_report(plan, report)] *)
Definition _require_final_report (plan : QuarantinePlan) (report : StorageIntegrityReport) : result unit :=
  _ ← _require_report_graph plan report;
  require match artifact_audit report with
          | Some audit => bool_decide (findings audit = []) && clean report
          | None => false
          end (protocol_failure FINAL_AUDIT_FAILED).

(** ** The fence *)

(** [_read_active(state_descriptor)] *)
Definition _read_active (state_fd : Z) : Sys (option QuarantineActive) :=
  o ← _try_open_existing_directory_at state_fd _QUARANTINE_NAME;
  match (o : option Z) with
  | None => mret None
  | Some quarantine => finally (
      o ← _try_open_existing_directory_at quarantine _VERSION_NAME;
      match (o : option Z) with
      | None => mret None
      | Some version => finally (
          _ ← _clean_known_record_temps version;
          present ← _entry_exists_exact version _ACTIVE_NAME;
          if negb present then mret None
          else
            _ ← _require_exact_entries version active_entries;
            '((active, _) : QuarantineActive * string) ←
              _read_model validate_active dump_active version _ACTIVE_NAME _MAX_ACTIVE_BYTES;
            mret (Some active)) (λ _, close_fd version)
      end) (λ _, close_fd quarantine)
  end.

(** [_active_path_exists(state_descriptor)]: what cannot be inspected counts as fenced. *)
Definition _active_path_exists (state_fd : Z) : Sys bool :=
  catch (
    o ← _try_open_existing_directory_at state_fd _QUARANTINE_NAME;
    match (o : option Z) with
    | None => mret false
    | Some quarantine => finally (
        o ← _try_open_existing_directory_at quarantine _VERSION_NAME;
        match (o : option Z) with
        | None => mret false
        | Some version => finally (_entry_exists_exact version _ACTIVE_NAME) (λ _, close_fd version)
        end) (λ _, close_fd quarantine)
    end)
    (λ e, match e with OSException _ | _ProtocolFailure _ => Some (mret true) | _ => None end).

(** [_publish_active(state_descriptor, active)] *)
Definition _publish_active (state_fd : Z) (active : QuarantineActive) : Sys unit :=
  with_transaction state_fd (qa_transaction_id active) false (λ _ e, e) (λ d,
    let version := td_version d in
    _ ← _clean_known_record_temps version;
    _ ← _require_exact_entries version prelude_entries;
    _ ← _write_immutable_model version _ACTIVE_NAME (dump_active active) _MAX_ACTIVE_BYTES;
    _ ← _require_exact_entries version active_entries;
    do_fsync version).

(** The exception that carries an authoritative result. *)
Definition committed_failure (r : QuarantineResult) : exn :=
  _CommittedFailure (quarantine_outcome_value (qs_outcome r)) (qs_transaction_id r) (qs_completion_sha256 r).
Definition finalization (r : QuarantineResult) : exn :=
  QuarantineFinalizationError (quarantine_outcome_value (qs_outcome r)) (qs_transaction_id r) (qs_completion_sha256 r).

(** [_remove_active(version_descriptor, expected, result)] *)
Definition _remove_active (version : Z) (expected : QuarantineActive) (r : QuarantineResult) : Sys unit :=
  '((observed, _) : QuarantineActive * string) ←
    _read_model validate_active dump_active version _ACTIVE_NAME _MAX_ACTIVE_BYTES;
  _ ← demand_protocol (bool_decide (observed = expected)) ACTIVE_INVALID;
  o ← os_unlink version _ACTIVE_NAME;
  _ ← or_protocol IO_ERROR o;
  o ← os_fsync version;
  match o with Done _ => mret tt | OSError _ => lift (Err (committed_failure r)) end.

(** ** Receipts and moves *)

(** [_expected_receipt(plan, plan_sha256, candidate)] *)
Definition _expected_receipt (plan : QuarantinePlan) (plan_sha256 : string) (c : QuarantineCandidate)
    : result QuarantineReceipt :=
  let identity := cb_source_identity (c_body c) in
  check_receipt
    {| qr_transaction_id := qp_transaction_id plan; qr_plan_sha256 := plan_sha256; qr_candidate_id := candidate_id c;
       qr_source_relative_path := cb_source_relative_path (c_body c);
       qr_destination_relative_path := destination_relative_path c; qr_content_sha256 := cb_content_sha256 (c_body c);
       qr_size_bytes := qf_size_bytes identity; qr_device := qf_device identity; qr_inode := qf_inode identity;
       qr_mode := qf_mode identity; qr_mtime_ns := qf_mtime_ns identity |}.

Definition receipt_name (id : string) : string := id +:+ ".json".

(** [_write_or_verify_receipt(parent_descriptor, receipt)] *)
Definition _write_or_verify_receipt (receipts_fd : Z) (r : QuarantineReceipt) : Sys string :=
  _write_immutable_model receipts_fd (receipt_name (qr_candidate_id r)) (dump_receipt r) _MAX_RECORD_BYTES.

(** [_read_expected_receipt(parent_descriptor, expected)] *)
Definition _read_expected_receipt (receipts_fd : Z) (expected : QuarantineReceipt) : Sys string :=
  '((observed, digest) : QuarantineReceipt * string) ←
    _read_model validate_receipt dump_receipt receipts_fd (receipt_name (qr_candidate_id expected)) _MAX_RECORD_BYTES;
  _ ← demand_protocol (bool_decide (observed = expected)) RECORD_INVALID;
  mret digest.

(** After a rename, or a repaired one: both directories are synced, the evidence's first,
    the source must be gone, and the destination is looked at again. *)
Definition settle_move (source_parent : Z) (source_name : string) (payload_fd : Z) (c : QuarantineCandidate) : Sys unit :=
  _ ← do_fsync payload_fd;
  _ ← do_fsync source_parent;
  present ← _entry_exists_exact source_parent source_name;
  _ ← demand_protocol (negb present) CANDIDATE_AMBIGUOUS;
  _validate_candidate_destination payload_fd c.

(** [_repair_moved_candidate_durability(artifact_descriptor, payload_descriptor, candidate)] *)
Definition _repair_moved_candidate_durability (artifact_fd payload_fd : Z) (c : QuarantineCandidate) : Sys unit :=
  with_candidate_parent artifact_fd (cb_source_relative_path (c_body c)) (λ source_parent source_name,
    _ ← _observe_candidate_leaf payload_fd (candidate_id c) c true true;
    settle_move source_parent source_name payload_fd c).

(** The rename of [_move_candidate], and what its failures mean. *)
Definition rename_candidate (source_parent : Z) (source_name : string) (payload_fd : Z) (c : QuarantineCandidate) : Sys unit :=
  _ ← _observe_candidate_leaf source_parent source_name c true false;
  present ← _entry_exists_exact payload_fd (candidate_id c);
  _ ← demand_protocol (negb present) DESTINATION_COLLISION;
  o ← rename_noreplace_at source_parent source_name payload_fd (candidate_id c);
  match o with
  | Done _ => mret tt
  | OSError n =>
      protocol (if file_exists n then DESTINATION_COLLISION
                else if bool_decide (n = Some EXDEV) then CROSS_DEVICE else IO_ERROR)
  end.

(** [_move_candidate(...)] *)
Definition _move_candidate (artifact_fd payload_fd receipts_fd : Z) (plan : QuarantinePlan) (plan_sha256 : string)
    (c : QuarantineCandidate) : Sys unit :=
  _ ← with_candidate_parent artifact_fd (cb_source_relative_path (c_body c)) (λ source_parent source_name,
        _ ← rename_candidate source_parent source_name payload_fd c;
        settle_move source_parent source_name payload_fd c);
  receipt ← lift (_expected_receipt plan plan_sha256 c);
  _ ← _write_or_verify_receipt receipts_fd receipt;
  mret tt.

(** One candidate of [_reconcile_candidates]: whether it is still to be moved. *)
Definition reconcile_candidate (artifact_fd payload_fd receipts_fd : Z) (plan : QuarantinePlan) (plan_sha256 : string)
    (c : QuarantineCandidate) : Sys bool :=
  source_present ← _candidate_source_exists artifact_fd c;
  destination_present ← _entry_exists_exact payload_fd (candidate_id c);
  receipt ← lift (_expected_receipt plan plan_sha256 c);
  receipt_present ← _entry_exists_exact receipts_fd (receipt_name (candidate_id c));
  if source_present && negb destination_present then
    _ ← demand_protocol (negb receipt_present) RECORD_INVALID;
    _ ← _validate_candidate_source artifact_fd c false;
    mret true
  else if destination_present && negb source_present then
    _ ← _repair_moved_candidate_durability artifact_fd payload_fd c;
    _ ← _write_or_verify_receipt receipts_fd receipt;
    mret false
  else protocol CANDIDATE_AMBIGUOUS.

(** [_reconcile_candidates(...)] *)
Definition _reconcile_candidates (artifact_fd payload_fd receipts_fd : Z) (plan : QuarantinePlan) (plan_sha256 : string)
    : Sys (list bool) :=
  let ids := candidate_id <$> pb_candidates (p_body plan) in
  _ ← _require_entries_subset payload_fd ids;
  _ ← _require_entries_subset receipts_fd (receipt_name <$> ids);
  mapM_eff (reconcile_candidate artifact_fd payload_fd receipts_fd plan plan_sha256) (pb_candidates (p_body plan)).

(** ** The transaction *)

(** [_prepare_transaction_records(state_descriptor, before, plan)] *)
Definition _prepare_transaction_records (state_fd : Z) (before : QuarantineBefore) (plan : QuarantinePlan) : Sys unit :=
  with_transaction state_fd (qp_transaction_id plan) true (λ _ e, e) (λ d,
    let transaction := td_transaction d in
    _ ← _clean_known_record_temps transaction;
    _ ← _clean_known_record_temps (td_receipts d);
    _ ← _require_directory_empty (td_payload d);
    _ ← _require_directory_empty (td_receipts d);
    _ ← _require_entry_absent transaction _AFTER_NAME;
    _ ← _require_entry_absent transaction _COMPLETE_NAME;
    _ ← _write_immutable_model transaction _BEFORE_NAME (dump_before before) _MAX_RECORD_BYTES;
    _ ← _write_immutable_model transaction _PLAN_NAME (dump_plan plan) _MAX_RECORD_BYTES;
    _ ← _require_exact_entries transaction [_BEFORE_NAME; _PLAN_NAME; _PAYLOAD_NAME; _RECEIPTS_NAME];
    do_fsync transaction).

(** [_require_plan_storage_identity(state_descriptor, plan)] *)
Definition _require_plan_storage_identity (state_fd : Z) (plan : QuarantinePlan) : Sys unit :=
  m ← do_fstat state_fd;
  state ← lift (_directory_identity m);
  _ ← demand_protocol (bool_decide (state = pb_state_identity (p_body plan))) PLAN_CHANGED;
  database ← _database_identity_at state_fd;
  _ ← demand_protocol (bool_decide (database = pb_database_identity (p_body plan))) PLAN_CHANGED;
  with_descriptor (open_existing state_fd "artifacts") (λ artifact_fd,
    m ← do_fstat artifact_fd;
    root ← lift (_directory_identity m);
    demand_protocol (bool_decide (root = pb_artifact_root_identity (p_body plan))) PLAN_CHANGED).

(** The durable records, bound to each other by ACTIVE. *)
Definition read_records (transaction : Z) (active : QuarantineActive) : Sys (QuarantinePlan * string) :=
  '((before, _) : QuarantineBefore * string) ←
    _read_model validate_before dump_before transaction _BEFORE_NAME _MAX_RECORD_BYTES;
  '((plan, plan_sha256) : QuarantinePlan * string) ←
    _read_model validate_plan dump_plan transaction _PLAN_NAME _MAX_RECORD_BYTES;
  _ ← demand_protocol (str_eqb (qp_transaction_id plan) (qa_transaction_id active) &&
                       str_eqb plan_sha256 (qa_plan_sha256 active) &&
                       str_eqb (pb_before_sha256 (p_body plan)) (qa_before_sha256 active)) RECORD_INVALID;
  before_sha256 ← lift (canonical_sha256 (dump_before before));
  _ ← demand_protocol (str_eqb before_sha256 (pb_before_sha256 (p_body plan))) RECORD_INVALID;
  _ ← lift (_require_before_matches_plan before plan);
  mret (plan, plan_sha256).

(** The candidates are reconciled, the storage is audited, and what is pending is moved. *)
Definition move_pending (state : path) (state_fd : Z) (d : transaction_directories) (plan : QuarantinePlan)
    (plan_sha256 : string) : Sys unit :=
  with_descriptor (open_existing state_fd "artifacts") (λ artifact_fd,
    statuses ← _reconcile_candidates artifact_fd (td_payload d) (td_receipts d) plan plan_sha256;
    current ← audit_storage state;
    _ ← lift (_require_current_report plan current statuses);
    forM (_move_candidate artifact_fd (td_payload d) (td_receipts d) plan plan_sha256) (pending_of plan statuses)).

(** The receipts are read again, one commitment for each candidate. *)
Definition commit_receipts (receipts_fd : Z) (plan : QuarantinePlan) (plan_sha256 : string) : Sys (list ReceiptCommitment) :=
  mapM_eff (λ c,
    receipt ← lift (_expected_receipt plan plan_sha256 c);
    digest ← _read_expected_receipt receipts_fd receipt;
    lift (check_receipt_commitment {| rm_candidate_id := candidate_id c; rm_receipt_sha256 := digest |}))
    (pb_candidates (p_body plan)).

(** The final audit, AFTER, COMPLETE, and the result. *)
Definition complete_transaction (state : path) (d : transaction_directories) (plan : QuarantinePlan)
    (plan_sha256 : string) (resumed : bool) : Sys QuarantineResult :=
  let transaction := td_transaction d in
  let candidates := pb_candidates (p_body plan) in
  final_report ← audit_storage state;
  _ ← lift (_require_final_report plan final_report);
  after ← lift (check_after {| af_transaction_id := qp_transaction_id plan; after_report := final_report |});
  after_sha256 ← _write_immutable_model transaction _AFTER_NAME (dump_after after) _MAX_RECORD_BYTES;
  commitments ← commit_receipts (td_receipts d) plan plan_sha256;
  complete ← lift (check_complete
    {| qc_transaction_id := qp_transaction_id plan; qc_plan_sha256 := plan_sha256;
       qc_before_sha256 := pb_before_sha256 (p_body plan); qc_after_sha256 := after_sha256; qc_receipts := commitments |});
  completion_sha256 ← _write_immutable_model transaction _COMPLETE_NAME (dump_complete complete) _MAX_RECORD_BYTES;
  _ ← _require_exact_entries (td_payload d) (candidate_id <$> candidates);
  _ ← _require_exact_entries (td_receipts d) ((λ c, receipt_name (candidate_id c)) <$> candidates);
  _ ← _require_expected_transaction_entries transaction;
  _ ← do_fsync transaction;
  lift (check_result
    {| qs_outcome := COMPLETED; qs_transaction_id := Some (qp_transaction_id plan); qs_resumed := resumed;
       qs_quarantined_count := Z.of_nat (length candidates); qs_final_report := final_report;
       qs_completion_sha256 := Some completion_sha256 |}).

(** The body of [_resume_transaction], inside its [with] *)
Definition resumed_body (state : path) (state_fd : Z) (active : QuarantineActive) (resumed : bool)
    (d : transaction_directories) : Sys QuarantineResult :=
  _ ← _require_exact_entries (td_version d) active_entries;
  '((plan, plan_sha256) : QuarantinePlan * string) ← read_records (td_transaction d) active;
  _ ← _clean_known_record_temps (td_transaction d);
  _ ← _clean_known_record_temps (td_receipts d);
  _ ← _require_expected_transaction_entries (td_transaction d);
  _ ← _require_plan_storage_identity state_fd plan;
  _ ← move_pending state state_fd d plan plan_sha256;
  res ← complete_transaction state d plan plan_sha256 resumed;
  _ ← _remove_active (td_version d) active res;
  mret res.

(** [_resume_transaction(state, state_descriptor, active, resumed=...)].  When the body has
    returned, the transaction is unfenced: a failure to close then carries the result. *)
Definition _resume_transaction (state : path) (state_fd : Z) (active : QuarantineActive) (resumed : bool)
    : Sys QuarantineResult :=
  with_transaction state_fd (qa_transaction_id active) false
    (λ r e, match r with Ok res => committed_failure res | Err _ => e end) (resumed_body state state_fd active resumed).

(** ** A fresh plan *)

(** [_candidate_from_finding(artifact_descriptor, finding, budget)] *)
Definition _candidate_from_finding (artifact_fd : Z) (f : ArtifactFinding) (budget : Z) : Sys (QuarantineCandidate * Z) :=
  _ ← demand_protocol (is_actionable f) UNSUPPORTED_FINDING;
  let relative := fk_relative_path (finding f) in
  '((identity, content, rest) : FileIdentity * string * option Z) ←
    _observe_candidate artifact_fd relative budget None None false;
  body ← lift (check_candidate_body {| cb_finding := f; cb_source_relative_path := relative;
                                       cb_source_identity := identity; cb_content_sha256 := content |});
  id ← lift (canonical_sha256 (dump_candidate_body body));
  c ← lift (check_candidate {| candidate_id := id; c_body := body |});
  mret (c, default budget rest).

Fixpoint candidates_from_findings (artifact_fd : Z) (l : list ArtifactFinding) (budget : Z) : Sys (list QuarantineCandidate) :=
  match l with
  | [] => mret []
  | f :: l =>
      '((c, budget) : QuarantineCandidate * Z) ← _candidate_from_finding artifact_fd f budget;
      cs ← candidates_from_findings artifact_fd l budget;
      mret (c :: cs)
  end.

(** The candidates of an audit, observed below the artifact root, and the root. *)
Definition observe_candidates (state_fd : Z) (state : DirectoryIdentity) (audit : ArtifactAudit)
    : Sys (list QuarantineCandidate * DirectoryIdentity) :=
  with_descriptor (open_existing state_fd "artifacts") (λ artifact_fd,
    m ← do_fstat artifact_fd;
    root ← lift (_directory_identity m);
    _ ← demand_protocol (di_device root =? di_device state) CROSS_DEVICE;
    cs ← candidates_from_findings artifact_fd (findings audit) _MAX_TOTAL_HASHED_BYTES;
    let candidates := sort_by candidate_id cs in
    _ ← demand_protocol (forallb (λ c, qf_device (cb_source_identity (c_body c)) =? di_device state) candidates) CROSS_DEVICE;
    mret (candidates, root)).

(** What [_prepare_fresh_plan] makes of a report that is not clean. *)
Definition plan_report (state : path) (state_fd : Z) (report : StorageIntegrityReport)
    : Sys (QuarantineBefore * QuarantinePlan) :=
  _ ← lift (_require_quarantinable report);
  match artifact_audit report, ledger_snapshot report with
  | Some audit, Some snapshot =>
      _ ← demand_protocol (Z.of_nat (length (findings audit)) <=? _MAX_CANDIDATES) CANDIDATE_LIMIT_EXCEEDED;
      _ ← demand_protocol (bool_decide (NoDup ((λ f, fk_relative_path (finding f)) <$> findings audit))) UNSUPPORTED_FINDING;
      m ← do_fstat state_fd;
      state_identity ← lift (_directory_identity m);
      database_identity ← _database_identity_at state_fd;
      '((candidates, artifact_identity) : list QuarantineCandidate * DirectoryIdentity) ←
        observe_candidates state_fd state_identity audit;
      repeated ← audit_storage state;
      a ← lift (canonical_sha256 (dump_report repeated));
      b ← lift (canonical_sha256 (dump_report report));
      _ ← demand_protocol (str_eqb a b) PLAN_CHANGED;
      database ← _database_identity_at state_fd;
      _ ← demand_protocol (bool_decide (database = database_identity)) PLAN_CHANGED;
      let before := {| before_report := report |} in
      before_sha256 ← lift (canonical_sha256 (dump_before before));
      reach ← lift (_reachable_sha256 (reachable audit));
      body ← lift (check_plan_body
        {| pb_before_sha256 := before_sha256; pb_ledger_snapshot_sha256 := ls_snapshot_sha256 snapshot;
           pb_reachable_sha256 := reach; pb_state_identity := state_identity;
           pb_database_identity := database_identity; pb_artifact_root_identity := artifact_identity;
           pb_candidates := candidates |});
      id ← lift (canonical_sha256 (dump_plan_body body));
      plan ← lift (check_plan {| qp_transaction_id := id; p_body := body |});
      mret (before, plan)
  | _, _ => protocol STORAGE_NOT_QUARANTINABLE
  end.

(** [_prepare_fresh_plan(state, state_descriptor)]: a result when there is nothing to do. *)
Definition _prepare_fresh_plan (state : path) (state_fd : Z) : Sys (QuarantineResult + QuarantineBefore * QuarantinePlan) :=
  report ← audit_storage state;
  if clean report && match artifact_audit report with Some audit => bool_decide (findings audit = []) | None => false end
  then
    res ← lift (check_result
      {| qs_outcome := NO_OP; qs_transaction_id := None; qs_resumed := false; qs_quarantined_count := 0;
         qs_final_report := report; qs_completion_sha256 := None |});
    mret (inl res)
  else
    planned ← plan_report state state_fd report;
    mret (inr planned).

(** ** The operation *)

(** [except _ProtocolFailure ... except (OSError, ValidationError, ValueError)], the
    failure being reported by [raised]. *)
Definition reported (raised : string → exn) (e : exn) : exn :=
  match e with
  | _ProtocolFailure reason => raised reason
  | OSException _ => raised (failure_value IO_ERROR)
  | _ => if is_value_error e then raised (failure_value IO_ERROR) else e
  end.

(** ACTIVE could not be read: incomplete if it may exist, denied if it does not. *)
Definition fenced_or_denied (state_fd : Z) (transaction : option string) (reason : string) {A} : Sys A :=
  exists_ ← _active_path_exists state_fd;
  lift (Err (if (exists_ : bool) then QuarantineIncompleteError reason transaction else QuarantineDeniedError reason)).

(** [_run_with_exclusive_lease(state, state_descriptor)] *)
Definition _run_with_exclusive_lease (state : path) (state_fd : Z) : Sys QuarantineResult :=
  active ← catch (_read_active state_fd) (λ e,
    match e with
    | _ProtocolFailure reason => Some (fenced_or_denied state_fd None reason)
    | OSException _ => Some (fenced_or_denied state_fd None (failure_value ACTIVE_INVALID))
    | _ => None
    end);
  match (active : option QuarantineActive) with
  | Some active =>
      exceptM (reported (λ reason, QuarantineIncompleteError reason (Some (qa_transaction_id active))))
        (_resume_transaction state state_fd active true)
  | None =>
      prepared ← exceptM (reported QuarantineDeniedError) (_prepare_fresh_plan state state_fd);
      match (prepared : QuarantineResult + QuarantineBefore * QuarantinePlan) with
      | inl res => mret res
      | inr (before, plan) =>
          plan_sha256 ← lift (canonical_sha256 (dump_plan plan));
          active ← lift (check_active
            {| qa_transaction_id := qp_transaction_id plan; qa_plan_sha256 := plan_sha256;
               qa_before_sha256 := pb_before_sha256 (p_body plan) |});
          _ ← catch (_ ← _prepare_transaction_records state_fd before plan; _publish_active state_fd active)
                (λ e, Some (fenced_or_denied state_fd (Some (qp_transaction_id plan))
                              match e with _ProtocolFailure reason => reason | _ => failure_value IO_ERROR end));
          exceptM (reported (λ reason, QuarantineIncompleteError reason (Some (qp_transaction_id plan))))
            (_resume_transaction state state_fd active false)
      end
  end.

(** [except (MaintenanceBusyError, MaintenanceIntegrityError, OSError)] *)
Definition is_lease_failure (e : exn) : bool :=
  match e with MaintenanceBusyError _ | MaintenanceIntegrityError _ _ | OSException _ => true | _ => false end.

(** [quarantine_orphans(state_directory)], for an absolute path *)
Definition quarantine_orphans (patience : nat) (state : path) : P QuarantineResult :=
  let denied := QuarantineDeniedError (failure_value MAINTENANCE_DENIED) in
  let on_exit res e := if is_lease_failure e then finalization res else e in
  lease ← exceptM (λ e, match e with MaintenanceBusyError _ | MaintenanceIntegrityError _ _ => denied | _ => e end)
            (acquire_exclusive patience state);
  exceptM (λ e, match e with
                | _CommittedFailure outcome transaction completion =>
                    QuarantineFinalizationError outcome transaction completion
                | _ => if is_lease_failure e then denied else e
                end)
    (_ ← __enter__ lease;
     finally (borrowing lease true on_exit (λ state_fd, on_os (_run_with_exclusive_lease state state_fd)))
       (λ r, match r with Ok res => exceptM (on_exit res) (__exit__ lease false) | Err _ => __exit__ lease true end)).
End quarantine.
