(* ===== verification/QuarantineTrace.v ===== *)
(** * What a quarantine does to the disk (src/guildmind/storage/quarantine.py)

    The helpers of the protocol only keep their own namespace up: they make its
    directories, and create, publish and remove the temporaries of records.  A candidate is
    only moved after it was seen to be what the plan says. *)

From S2P Require Import Prelude Order Loop Effects PyStr Files Descriptors Disk Float64 Json Text Hash Datetime Fields Usage.
From S2P Require Import Models Sqlite EventStore Artifacts Integrity Coordinator Reports QuarantineRecords QuarantineFiles.
From S2P Require Import Tame Maintenance Quarantine.

Local Open Scope Z_scope.

(** ** Upkeep *)

Definition temporary_of (stem token : string) : string := "." +:+ stem +:+ ".tmp-" +:+ token.

Definition namespace : list string := [_QUARANTINE_NAME; _VERSION_NAME; _TRANSACTIONS_NAME; _PAYLOAD_NAME; _RECEIPTS_NAME].

(** Effects that leave artifacts, records and the fence alone. *)
Definition upkeep (e : effect) : Prop :=
  match e with
  | OpenFd _ | CloseFd _ | FsyncFd _ | WriteFd _ _ => True
  | MkdirAt _ name => name ∈ namespace ∨ is_lower_sha256 name = true
  | CreateFd _ name _ => ∃ stem token, name = temporary_of stem token
  | UnlinkAt _ name => is_record_temp name = true ∨ ∃ stem token, name = temporary_of stem token
  | RenameAt source name target new_name => source = target ∧ ∃ token, name = temporary_of new_name token
  | _ => False
  end.

(** The exceptions of the protocol's own making. *)
Definition local_exn (e : exn) : Prop :=
  match e with
  | _ProtocolFailure _ | OSException _ => True
  | _ => is_value_error e = true
  end.

Definition value_exn (e : exn) : Prop := is_value_error e = true.
Lemma value_local e : value_exn e → local_exn e.
Proof. unfold value_exn. by destruct e. Qed.

(** Validation fails with a [ValueError]. *)
Section validation.
Context {hashing : Hashing}.

Lemma fails_canonical_json v : fails value_exn (canonical_json v).
Proof. unfold canonical_json, _json_compatible. solve_fails. done. Qed.
Lemma fails_canonical_sha256 v : fails value_exn (canonical_sha256 v).
Proof. unfold canonical_sha256. apply fails_bind; [apply fails_canonical_json|intros ?; apply fails_Ok]. Qed.
#[local] Hint Resolve fails_canonical_json fails_canonical_sha256 : fails.

Lemma fails_v_str v : fails value_exn (v_str v).
Proof. unfold v_str, invalid. by solve_fails. Qed.
Lemma fails_v_int v : fails value_exn (v_int v).
Proof. unfold v_int, invalid. by solve_fails. Qed.
Lemma fails_v_bool v : fails value_exn (v_bool v).
Proof. unfold v_bool, invalid. by solve_fails. Qed.
Lemma fails_v_literal text v : fails value_exn (v_literal text v).
Proof. unfold v_literal, invalid. by solve_fails. Qed.
#[local] Hint Resolve fails_v_str fails_v_int fails_v_bool fails_v_literal : fails.
Lemma fails_v_opt {A} (f : json → result A) v : (∀ v, fails value_exn (f v)) → fails value_exn (v_opt f v).
Proof. intros H. unfold v_opt. destruct v; by solve_fails. Qed.
Lemma fails_v_list {A} (f : json → result A) v : (∀ v, fails value_exn (f v)) → fails value_exn (v_list f v).
Proof. intros H. unfold v_list, invalid. destruct v; by solve_fails. Qed.
Lemma fails_v_member {A} (value : A → string) l v : fails value_exn (v_member value l v).
Proof. unfold v_member. by solve_fails. Qed.
Lemma fails_field {A} o k (f : json → result A) : (∀ v, fails value_exn (f v)) → fails value_exn (field o k f).
Proof. intros H. unfold field, invalid. by solve_fails. Qed.
Lemma fails_field_default {A} o k (d : A) (f : json → result A) :
  (∀ v, fails value_exn (f v)) → fails value_exn (field_default o k d f).
Proof. intros H. unfold field_default. by solve_fails. Qed.
Lemma fails_v_model names v : fails value_exn (v_model names v).
Proof. unfold v_model, invalid. by solve_fails. Qed.
#[local] Hint Resolve fails_v_opt fails_v_list fails_v_member fails_field fails_field_default fails_v_model : fails.
Lemma fails_v_tag o text : fails value_exn (v_tag o text).
Proof. unfold v_tag. auto with fails. Qed.
#[local] Hint Resolve fails_v_tag : fails.

Ltac solve_value := solve_fails; try reflexivity.

Lemma fails_make_owner r p : fails value_exn (make_owner r p).
Proof. unfold make_owner. by solve_value. Qed.
#[local] Hint Resolve fails_make_owner : fails.
Lemma fails_owner v : fails value_exn (validate_owner v).
Proof. unfold validate_owner. by solve_value. Qed.
#[local] Hint Resolve fails_owner : fails.
Lemma fails_reachable v : fails value_exn (validate_reachable v).
Proof. unfold validate_reachable, check_reachable. by solve_value. Qed.
Lemma fails_finding v : fails value_exn (validate_finding v).
Proof. unfold validate_finding, check_finding. by solve_value. Qed.
#[local] Hint Resolve fails_reachable fails_finding : fails.
Lemma fails_audit v : fails value_exn (validate_audit v).
Proof. unfold validate_audit, check_audit. by solve_value. Qed.
Lemma fails_commitment v : fails value_exn (validate_commitment v).
Proof. unfold validate_commitment, check_commitment. by solve_value. Qed.
#[local] Hint Resolve fails_audit fails_commitment : fails.
Lemma fails_ledger_snapshot v : fails value_exn (validate_ledger_snapshot v).
Proof. unfold validate_ledger_snapshot, check_ledger_snapshot. by solve_value. Qed.
Lemma fails_check_report r : fails value_exn (check_report r).
Proof.
  unfold check_report. apply fails_bind; [by apply fails_except|intros ?]. by solve_value.
Qed.
#[local] Hint Resolve fails_ledger_snapshot fails_check_report : fails.
Lemma fails_report v : fails value_exn (validate_report v).
Proof. unfold validate_report. by solve_value. Qed.
#[local] Hint Resolve fails_report : fails.

Lemma fails_directory_identity i : fails value_exn (check_directory_identity i).
Proof. unfold check_directory_identity. by solve_value. Qed.
Lemma fails_file_identity i : fails value_exn (check_file_identity i).
Proof. unfold check_file_identity. by solve_value. Qed.
#[local] Hint Resolve fails_directory_identity fails_file_identity : fails.
Lemma fails_validate_directory v : fails value_exn (validate_directory_identity v).
Proof. unfold validate_directory_identity. by solve_value. Qed.
Lemma fails_validate_file v : fails value_exn (validate_file_identity v).
Proof. unfold validate_file_identity. by solve_value. Qed.
Lemma fails_check_body b : fails value_exn (check_candidate_body b).
Proof. unfold check_candidate_body. by solve_value. Qed.
#[local] Hint Resolve fails_validate_directory fails_validate_file fails_check_body : fails.
Lemma fails_candidate_body v : fails value_exn (validate_candidate_body v).
Proof. unfold validate_candidate_body. by solve_value. Qed.
Lemma fails_check_candidate c : fails value_exn (check_candidate c).
Proof. unfold check_candidate. by solve_value. Qed.
#[local] Hint Resolve fails_candidate_body fails_check_candidate : fails.
Lemma fails_candidate v : fails value_exn (validate_candidate v).
Proof. unfold validate_candidate. by solve_value. Qed.
#[local] Hint Resolve fails_candidate : fails.
Lemma fails_check_plan_body b : fails value_exn (check_plan_body b).
Proof. unfold check_plan_body. by solve_value. Qed.
Lemma fails_check_plan p : fails value_exn (check_plan p).
Proof. unfold check_plan. by solve_value. Qed.
#[local] Hint Resolve fails_check_plan_body fails_check_plan : fails.
Lemma fails_plan_body v : fails value_exn (validate_plan_body v).
Proof. unfold validate_plan_body. by solve_value. Qed.
#[local] Hint Resolve fails_plan_body : fails.
Lemma fails_plan v : fails value_exn (validate_plan v).
Proof. unfold validate_plan. by solve_value. Qed.
Lemma fails_before v : fails value_exn (validate_before v).
Proof. unfold validate_before. by solve_value. Qed.
Lemma fails_active v : fails value_exn (validate_active v).
Proof. unfold validate_active, check_active. by solve_value. Qed.
Lemma fails_check_receipt r : fails value_exn (check_receipt r).
Proof. unfold check_receipt. by solve_value. Qed.
#[local] Hint Resolve fails_check_receipt : fails.
Lemma fails_receipt v : fails value_exn (validate_receipt v).
Proof. unfold validate_receipt. by solve_value. Qed.
Lemma fails_check_result r : fails value_exn (check_result r).
Proof. unfold check_result. by solve_value. Qed.
Lemma fails_finding_set l : fails value_exn (_finding_set_sha256 l).
Proof. unfold _finding_set_sha256. by solve_value. Qed.
Lemma fails_reachable_sha256 l : fails value_exn (_reachable_sha256 l).
Proof. unfold _reachable_sha256. by solve_value. Qed.
End validation.

#[export] Hint Resolve fails_canonical_json fails_canonical_sha256 fails_before fails_plan fails_active fails_receipt
  fails_check_receipt fails_check_result fails_check_report fails_finding_set fails_reachable_sha256
  fails_directory_identity fails_file_identity fails_check_body fails_check_candidate fails_check_plan_body
  fails_check_plan : fails.

(** Closed with a lemma on [value_exn] where [local_exn] is asked for. *)
Lemma fails_local {A} (r : result A) : fails value_exn r → fails local_exn r.
Proof. apply fails_mono, value_local. Qed.
#[export] Hint Extern 4 (fails local_exn _) => apply fails_local; solve [eauto with fails] : fails.

(** ** The helpers are tame *)

Section files.
Context {kernel : Kernel} {disk : Disk}.

Abbreviation neat := (tame upkeep local_exn).

Lemma neat_protocol {A} r : neat (protocol r : Sys A).
Proof. by apply tame_lift, fails_Err. Qed.
Lemma neat_demand b r : neat (demand_protocol b r).
Proof. by apply tame_lift, fails_require. Qed.
Lemma neat_or_protocol {A} r (o : os_result A) : neat (or_protocol r o).
Proof. destruct o; [apply tame_ret|apply neat_protocol]. Qed.
Lemma neat_raise_os {A} (o : os_result A) : neat (raise_os o).
Proof. destruct o; [apply tame_ret|]. by apply tame_lift, fails_Err. Qed.
#[local] Hint Resolve neat_protocol neat_demand neat_or_protocol neat_raise_os : tame.

Ltac neat_call := apply tame_system; intros ? ? ?; repeat constructor.
Lemma neat_open l flags : neat (os_open l flags).
Proof. neat_call. Qed.
Lemma neat_dup fd : neat (os_dup fd).
Proof. neat_call. Qed.
Lemma neat_os_stat fd name : neat (os_stat fd name).
Proof. neat_call. Qed.
Lemma neat_os_fstat fd : neat (os_fstat fd).
Proof. neat_call. Qed.
Lemma neat_os_fsync fd : neat (os_fsync fd).
Proof. neat_call. Qed.
Lemma neat_read fd n : neat (os_read fd n).
Proof. neat_call. Qed.
Lemma neat_write fd data : neat (os_write fd data).
Proof. neat_call. Qed.
Lemma neat_os_close fd : neat (os_close fd).
Proof.
  apply tame_intro. intros s r s' [= <- <-]. split; [|apply fails_Ok]. split; [simpl; lia|].
  exists [CloseFd fd]. split; [done|by repeat constructor].
Qed.
Lemma neat_scandir fd : neat (os_scandir fd).
Proof.
  apply tame_intro. intros s r s' [= <- <-]. split; [|apply fails_Ok]. split; [simpl; lia|].
  exists []. by rewrite app_nil_r.
Qed.
Lemma neat_token : neat token_hex.
Proof.
  apply tame_intro. intros s r s' [= <- <-]. split; [|apply fails_Ok]. split; [simpl; lia|].
  exists []. by rewrite app_nil_r.
Qed.
#[local] Hint Resolve neat_open neat_dup neat_os_stat neat_os_fstat neat_os_fsync neat_read neat_write neat_os_close
  neat_scandir neat_token : tame.

Lemma neat_close fd : neat (close_fd fd).
Proof. unfold close_fd. solve_tame. Qed.
Lemma neat_stat fd name : neat (do_stat fd name).
Proof. unfold do_stat. solve_tame. Qed.
Lemma neat_fstat fd : neat (do_fstat fd).
Proof. unfold do_fstat. solve_tame. Qed.
Lemma neat_fsync fd : neat (do_fsync fd).
Proof. unfold do_fsync. solve_tame. Qed.
Lemma neat_do_open fd name : neat (do_open fd name).
Proof. unfold do_open. solve_tame. Qed.
#[local] Hint Resolve neat_close neat_stat neat_fstat neat_fsync neat_do_open : tame.

Lemma neat_names fd : neat (_iter_entry_names fd).
Proof. unfold _iter_entry_names. solve_tame. Qed.
(** What iterating raises is a protocol failure. *)
Lemma names_broken fd s names broken s' e : _iter_entry_names fd s = (Ok (names, broken), s') → broken = Some e → local_exn e.
Proof.
  unfold _iter_entry_names. intros H. apply bindM_Ok in H as (l & s1 & _ & H). apply retM_Ok in H as [H _].
  apply (f_equal snd) in H. cbn [snd] in H. subst broken.
  destruct (_ <=? _); cbn [snd]; [destruct (scan_error l); [|done]|]; by intros [= <-].
Qed.

(** What is done with the names, and with what iterating past them raises. *)
Lemma neat_iter {B} fd (f : list entry_name * option exn → Sys B) :
  (∀ names broken, (∀ e, broken = Some e → local_exn e) → neat (f (names, broken))) → neat (_iter_entry_names fd ≫= f).
Proof.
  intros Hf. apply tame_intro. intros s r s' [([names broken] & s1 & H1 & H2)|(e & H1 & ->)]%bindM_inv.
  - destruct (tame_run _ _ _ _ _ _ (neat_names fd) H1) as [Ha _].
    destruct (tame_run _ _ _ _ _ _ (Hf names broken (λ e, names_broken _ _ _ _ _ e H1)) H2) as [Hb He].
    split; [by eapply added_trans|done].
  - destruct (tame_run _ _ _ _ _ _ (neat_names fd) H1) as [Ha He]. split; [done|]. intros e' [= <-]. by apply He.
Qed.
Lemma neat_raise_some o : (∀ e, o = Some e → local_exn e) → neat (raise_some o).
Proof. intros H. destruct o as [e|]; [|apply tame_ret]. apply tame_lift, fails_Err. by apply H. Qed.
#[local] Hint Resolve neat_raise_some : tame.

Lemma neat_exists fd name : neat (_entry_exists_exact fd name).
Proof. unfold _entry_exists_exact. apply neat_iter. intros names broken Hb. solve_tame. Qed.
Lemma neat_empty fd : neat (_require_directory_empty fd).
Proof. unfold _require_directory_empty. apply neat_iter. intros names broken Hb. solve_tame. Qed.
Lemma neat_subset fd l : neat (_require_entries_subset fd l).
Proof. unfold _require_entries_subset. apply neat_iter. intros names broken Hb. solve_tame. Qed.
Lemma neat_exact fd l : neat (_require_exact_entries fd l).
Proof. unfold _require_exact_entries. apply neat_iter. intros names broken Hb. solve_tame. Qed.
#[local] Hint Resolve neat_exists neat_empty neat_subset neat_exact : tame.
Lemma neat_absent fd name : neat (_require_entry_absent fd name).
Proof. unfold _require_entry_absent. solve_tame. Qed.

Lemma neat_unlink fd name : upkeep (UnlinkAt fd name) → neat (do_unlink fd name).
Proof.
  intros H. unfold do_unlink. apply tame_seq; [|intros ?; apply neat_raise_os].
  apply tame_system. intros _ _ _. by apply Forall_singleton.
Qed.
Lemma record_temps_spec names : Forall (λ s, is_record_temp s = true) (record_temps names).
Proof.
  apply Forall_forall. intros s Hs. apply list_elem_of_omap in Hs as (n & _ & H). destruct n as [t|]; [|done].
  destruct (is_record_temp t) eqn:E; [|done]. by injection H as <-.
Qed.
Lemma neat_clean fd : neat (_clean_known_record_temps fd).
Proof.
  unfold _clean_known_record_temps. apply neat_iter. intros names broken Hb. cbv zeta. solve_tame.
  apply tame_forM. intros name Hn. unfold clean_temp. solve_tame. apply neat_unlink. left.
  by apply (proj1 (Forall_forall _ _) (record_temps_spec names)).
Qed.
#[local] Hint Resolve neat_absent neat_clean : tame.

(** ** Directories *)

Lemma neat_close_on_error {A} fd (m : Sys A) : neat m → neat (close_on_error fd m).
Proof. intros H. unfold close_on_error. apply tame_finally; [done|]. intros [|]; solve_tame. Qed.
Lemma neat_open_directory fd name : neat (_open_existing_directory_descriptor fd name).
Proof. unfold _open_existing_directory_descriptor. solve_tame. apply neat_close_on_error. solve_tame. Qed.
#[local] Hint Resolve neat_open_directory : tame.
Lemma neat_try_open fd name : neat (_try_open_existing_directory_at fd name).
Proof. unfold _try_open_existing_directory_at. solve_tame. Qed.
#[local] Hint Resolve neat_try_open : tame.
Lemma neat_open_existing fd name : neat (open_existing fd name).
Proof. unfold open_existing. solve_tame. Qed.
Lemma neat_ensure fd name : upkeep (MkdirAt fd name) → neat (ensure_directory fd name).
Proof.
  intros H. unfold ensure_directory. solve_tame. unfold os_mkdir. apply tame_system. intros _ _ _. by apply Forall_singleton.
Qed.
#[local] Hint Resolve neat_open_existing : tame.

Lemma neat_with {A} (opening : Sys Z) (body : Z → Sys A) : neat opening → (∀ fd, neat (body fd)) →
  neat (with_descriptor opening body).
Proof. intros Ho Hb. unfold with_descriptor. solve_tame. Qed.

Lemma neat_close_stack stack : neat (close_stack stack).
Proof. induction stack as [|fd stack IH]; simpl; [apply tame_ret|]. solve_tame. Qed.
Lemma close_stack_returns stack s : ∃ o s', close_stack stack s = (Ok o, s') ∧ (∀ e, o = Some e → ∃ n, e = OSException n) ∧
  (moment s ≤ moment s')%nat ∧ effects s' = effects s ++ (CloseFd <$> stack).
Proof.
  revert s. induction stack as [|fd stack IH]; intros s; simpl.
  - exists None, s. split_and!; [done|done|done|by rewrite app_nil_r].
  - destruct (IH {| moment := S (moment s); effects := effects s ++ [CloseFd fd] |}) as (o & s' & H & He & Hm & Hf).
    unfold mbind, eff_bind, os_close at 1. rewrite H. eexists _, _. split; [done|]. simpl in *. split; [|split; [lia|]].
    + intros e. destruct o; [by apply He|]. destruct (kernel_close _ _); intros [= <-]. eauto.
    + by rewrite Hf, <- app_assoc.
Qed.
Lemma neat_unwinding {A} stack (m : Sys A) : neat m → neat (unwinding stack m).
Proof.
  intros H. unfold unwinding. apply tame_finally; [done|]. intros [a|e]; [apply tame_ret|].
  apply tame_intro. intros s r s'. unfold mbind, eff_bind.
  destruct (close_stack_returns stack s) as (o & s1 & -> & He & Hm & Hf). intros Hr.
  destruct o as [e'|]; injection Hr as <- <-;
    (split; [split; [done|]; exists (CloseFd <$> stack); split; [done|]; apply Forall_fmap, Forall_true; done|]).
  - intros e1 [= <-]. destruct (He _ eq_refl) as [n ->]. done.
  - apply fails_Ok.
Qed.

Lemma neat_open_transaction state_fd id create : neat (_open_transaction_directories state_fd id create).
Proof.
  unfold _open_transaction_directories. destruct (is_lower_sha256 id) eqn:Hid.
  2:{ apply tame_intro. intros s r s' [= <- <-]. split; [apply added_refl|]. by apply fails_Err. }
  apply tame_seq; [apply neat_demand|intros _].
  cbv zeta. assert (∀ fd name, name ∈ namespace ∨ is_lower_sha256 name = true →
    neat ((if create then ensure_directory else open_existing) fd name)) as Ho.
  { intros fd name Hn. destruct create; [by apply neat_ensure|apply neat_open_existing]. }
  solve_tame; repeat apply neat_unwinding; try (apply Ho; first [by right|left; unfold namespace; set_solver]).
  apply tame_forM. intros fd _. solve_tame.
Qed.

(** ** Records *)

Lemma neat_record_chunk fd maximum acc : neat (record_chunk fd maximum acc).
Proof. unfold record_chunk. solve_tame. Qed.
(** Each round of reading or writing leaves less to do. *)
Lemma demand_Ok b r s u s' : demand_protocol b r s = (Ok u, s') → b = true ∧ s' = s.
Proof. intros [H%require_Ok ->]%lift_Ok. done. Qed.

Definition left_of (maximum : Z) (acc : list Byte.byte) : Z := Z.max 0 (maximum + 1 - Z.of_nat (length acc)).
Lemma left_of_less maximum acc chunk : chunk ≠ [] → Z.of_nat (length (acc ++ chunk)) ≤ maximum →
  0 ≤ left_of maximum (acc ++ chunk) < left_of maximum acc.
Proof. unfold left_of. rewrite length_app. destruct chunk; [done|cbn [length]; lia]. Qed.

Lemma record_chunk_ends fd maximum acc s acc' s' : record_chunk fd maximum acc s = (Ok (Continue acc'), s') →
  0 ≤ left_of maximum acc' < left_of maximum acc.
Proof.
  unfold record_chunk. cbv zeta. intros H. do 2 (apply bindM_Ok in H as (? & ? & _ & H)). case_match; [by apply retM_Ok in H as [[=] _]|].
  apply bindM_Ok in H as (? & ? & [Hl%Z.leb_le _]%demand_Ok & H). apply retM_Ok in H as [[= ->] _]. by apply left_of_less.
Qed.
Lemma candidate_chunk_ends fd maximum acc s acc' s' : candidate_chunk fd maximum acc s = (Ok (Continue acc'), s') →
  0 ≤ left_of maximum acc'.1 < left_of maximum acc.1.
Proof.
  destruct acc as [acc budget]. unfold candidate_chunk. cbv zeta. intros H. do 2 (apply bindM_Ok in H as (? & ? & _ & H)).
  case_match; [by apply retM_Ok in H as [[=] _]|].
  apply bindM_Ok in H as (? & ? & [Hl%Z.leb_le _]%demand_Ok & H). apply bindM_Ok in H as (? & ? & _ & H).
  apply retM_Ok in H as [[= ->] _]. by apply left_of_less.
Qed.
Lemma write_rest_ends fd data n s n' s' : write_rest fd data n s = (Ok (Continue n'), s') →
  0 ≤ Z.max 0 (Z.of_nat (length data) - n') < Z.max 0 (Z.of_nat (length data) - n).
Proof.
  unfold write_rest. destruct (n <? Z.of_nat (length data)) eqn:En; intros H; [|by apply retM_Ok in H as [[=] _]].
  apply Z.ltb_lt in En. do 2 (apply bindM_Ok in H as (? & ? & _ & H)).
  apply bindM_Ok in H as (? & ? & [Hr%require_Ok%Z.ltb_lt _]%lift_Ok & H). apply retM_Ok in H as [[= ->] _]. lia.
Qed.

Lemma neat_read_record parent name maximum : neat (_read_record_bytes parent name maximum).
Proof.
  unfold _read_record_bytes. solve_tame. apply neat_with; [auto with tame|intros fd]. solve_tame.
  eapply tame_loop; [| |intros acc; apply neat_record_chunk]; [|by apply record_chunk_ends]. unfold left_of. cbn. lia.
Qed.
#[local] Hint Resolve neat_read_record : tame.
Lemma neat_remove_temporary parent stem token b : neat (_remove_record_temporary parent (temporary_of stem token) b).
Proof.
  unfold _remove_record_temporary. solve_tame; try done. apply neat_unlink. right. eauto.
Qed.
#[local] Hint Resolve neat_remove_temporary : tame.
Lemma neat_noted {A} (m : Sys A) (a : A) : neat m → neat (catch m (λ _, Some (mret a))).
Proof. intros H. apply tame_catch; [done|]. intros e k [= <-]. apply tame_ret. Qed.
Lemma neat_discarding {A} parent stem token (m : Sys A) : neat m → neat (discarding parent (temporary_of stem token) m).
Proof.
  intros H. unfold discarding. apply tame_finally; [done|]. intros [a|e]; [apply tame_ret|].
  apply neat_noted, neat_remove_temporary.
Qed.
Lemma neat_write_temporary parent stem token data fd : neat (write_temporary parent (temporary_of stem token) data fd).
Proof.
  unfold write_temporary. solve_tame.
  - eapply tame_loop; [|apply write_rest_ends|]; [cbn; lia|]. intros n. unfold write_rest. solve_tame. done.
  - apply neat_noted, neat_remove_temporary.
Qed.
Lemma neat_publish parent name token data maximum : neat (publish_record parent name (temporary_of name token) data maximum).
Proof.
  unfold publish_record. solve_tame.
  - unfold rename_noreplace_at. apply tame_system. intros _ _ _. apply Forall_singleton. split; [done|]. by exists token.
  - apply neat_discarding. solve_tame. done.
Qed.
#[local] Hint Resolve neat_write_temporary neat_publish : tame.

Context {hashing : Hashing} {parser : PydanticJson}.

Lemma neat_write_model parent name model maximum : neat (_write_immutable_model parent name model maximum).
Proof.
  unfold _write_immutable_model. cbv zeta. solve_tame.
  - unfold os_create. apply tame_system. intros _ fd _. apply Forall_singleton. by eexists _, _.
Qed.
Lemma neat_read_model {T} (validate : json → result T) dump parent name maximum : (∀ v, fails value_exn (validate v)) →
  neat (_read_model validate dump parent name maximum).
Proof.
  intros Hv. unfold _read_model. solve_tame. apply fails_except. intros e He.
  assert (value_exn e) as ->; [|done]. unfold model_validate_json in He. revert e He. change (fails value_exn
    (v ← of_option (ValidationError "json_invalid") (from_json a); validate v)).
  apply fails_bind; [by apply fails_of_option|apply Hv].
Qed.
#[local] Hint Resolve neat_write_model : tame.
Lemma neat_read_active_model parent : neat (_read_model validate_active dump_active parent _ACTIVE_NAME _MAX_ACTIVE_BYTES).
Proof. apply neat_read_model, fails_active. Qed.
Lemma neat_read_receipt parent r : neat (_read_expected_receipt parent r).
Proof. unfold _read_expected_receipt. solve_tame. apply neat_read_model, fails_receipt. Qed.
Lemma neat_write_receipt parent r : neat (_write_or_verify_receipt parent r).
Proof. apply neat_write_model. Qed.
#[local] Hint Resolve neat_read_active_model neat_read_receipt neat_write_receipt : tame.

(** ** Candidates and identities *)

Lemma fails_file_identity_of m : fails local_exn (_file_identity m).
Proof. unfold _file_identity. solve_fails. done. Qed.
Lemma fails_directory_identity_of m : fails local_exn (_directory_identity m).
Proof. unfold _directory_identity. solve_fails. done. Qed.
#[local] Hint Resolve fails_file_identity_of fails_directory_identity_of : fails.

Lemma neat_below {A} current l (body : Z → Sys A) : (∀ fd, neat (body fd)) → neat (below current l body).
Proof.
  intros Hb. revert current. induction l as [|c l IH]; intros current; cbn [below]; solve_tame; apply IH.
Qed.
Lemma neat_candidate_parent {A} fd relative (body : Z → string → Sys A) : (∀ fd name, neat (body fd name)) →
  neat (with_candidate_parent fd relative body).
Proof. intros Hb. unfold with_candidate_parent. cbv zeta. solve_tame. by apply neat_below. Qed.

Lemma neat_candidate_chunk fd maximum acc : neat (candidate_chunk fd maximum acc).
Proof. unfold candidate_chunk. cbv zeta. solve_tame. Qed.
Lemma neat_observe_leaf parent name maximum budget sync : neat (_observe_regular_leaf parent name maximum budget sync).
Proof.
  unfold _observe_regular_leaf. solve_tame. apply neat_with; [auto with tame|intros fd]. solve_tame.
  apply (tame_loop _ _ (λ acc, left_of maximum acc.1)); [|by apply candidate_chunk_ends|intros acc; apply neat_candidate_chunk].
  unfold left_of. cbn. lia.
Qed.
#[local] Hint Resolve neat_observe_leaf : tame.
Lemma neat_observe_candidate fd relative budget i h sync : neat (_observe_candidate fd relative budget i h sync).
Proof. unfold _observe_candidate. solve_tame. apply neat_candidate_parent. intros. solve_tame. Qed.
Lemma neat_candidate_leaf parent name c b1 b2 : neat (_observe_candidate_leaf parent name c b1 b2).
Proof. unfold _observe_candidate_leaf. cbv zeta. solve_tame. Qed.
#[local] Hint Resolve neat_observe_candidate neat_candidate_leaf : tame.
Lemma neat_source_exists fd c : neat (_candidate_source_exists fd c).
Proof. apply neat_candidate_parent. intros. solve_tame. Qed.
Lemma neat_validate_source fd c b : neat (_validate_candidate_source fd c b).
Proof. apply neat_candidate_parent. intros. solve_tame. Qed.
Lemma neat_destination fd c : neat (_validate_candidate_destination fd c).
Proof. apply neat_candidate_leaf. Qed.
Lemma neat_database fd : neat (_database_identity_at fd).
Proof.
  unfold _database_identity_at. solve_tame. apply neat_with; [solve_tame|intros]. solve_tame.
Qed.
End files.

#[export] Hint Resolve neat_protocol neat_demand neat_or_protocol neat_raise_os neat_close neat_stat neat_fstat neat_fsync
  neat_exists neat_empty neat_subset neat_exact neat_absent neat_clean neat_open_existing neat_open_transaction
  neat_write_model neat_read_active_model neat_read_receipt neat_write_receipt neat_observe_candidate neat_candidate_leaf
  neat_source_exists neat_validate_source neat_destination neat_database neat_os_fsync neat_try_open : tame.
#[export] Hint Resolve fails_file_identity_of fails_directory_identity_of : fails.
