(* ===== verification/QuarantineMoves.v ===== *)
(** * The moves of a quarantine (src/guildmind/storage/quarantine.py)

    A candidate is renamed only after its source was seen, on that very entry, to be the
    file of the plan with the content of the plan; everything else a transaction does
    before it is unfenced is upkeep. *)

From S2P Require Import Prelude Order Loop Effects PyStr Files Descriptors Disk Float64 Json Text Hash Datetime Fields Usage.
From S2P Require Import Models Sqlite EventStore Artifacts Integrity Coordinator Reports QuarantineRecords QuarantineFiles.
From S2P Require Import ArtifactFacts CoordinatorFacts Tame Maintenance Quarantine QuarantineTrace.

Local Open Scope Z_scope.

Section moves.
Context {kernel : Kernel} {disk : Disk} {hashing : Hashing}.

(** ** What was seen of a candidate *)

(** The reads of a descriptor, one call after the other, deliver these bytes and end. *)
Inductive delivered (fd : Z) : nat → nat → list Byte.byte → Prop :=
  | delivered_end t n : disk_read t fd n = Done [] → delivered fd t (S t) []
  | delivered_more t t' n chunk bs : disk_read t fd n = Done chunk → chunk ≠ [] → delivered fd (S t) t' bs →
      delivered fd t t' (chunk ++ bs).

(** Between two moments the entry named a plain file with this identity; the same file was
    opened there, delivered content with this digest, and was still what the entry named,
    with nothing about it changed. *)
Definition seen (parent : Z) (name : string) (i : FileIdentity) (digest : string) (from to : nat) : Prop :=
  ∃ (t0 t1 t2 t3 t4 t5 : nat) (fd : Z) (m opened after : stat_result) (content : list Byte.byte),
    (from ≤ t0 < t1)%nat ∧ (t1 < t2 < t3)%nat ∧ (t3 < t4 ≤ t5)%nat ∧ (t5 < to)%nat ∧
    kernel_stat t0 parent name = Done m ∧ is_plain_file m = true ∧ _file_identity m = Ok i ∧
    kernel_open t1 (At parent name) ReadFlags = Done fd ∧
    kernel_fstat t2 fd = Done opened ∧ _file_snapshot opened = _file_snapshot m ∧
    delivered fd t3 t4 content ∧ sha256_bytes content = digest ∧ Z.of_nat (length content) = qf_size_bytes i ∧
    kernel_stat t5 parent name = Done after ∧ _file_snapshot after = _file_snapshot m.

Lemma system_Ok {A} (f : nat → os_result A) log s a s' : system f log s = (Ok (Done a), s') →
  f (moment s) = Done a ∧ s' = {| moment := S (moment s); effects := effects s ++ log a |}.
Proof. unfold system. destruct (f (moment s)); intros [= -> <-]. done. Qed.
Lemma called_Ok {A} (m : Sys (os_result A)) (f : nat → os_result A) log s a s' : m = system f log →
  (o ← m; raise_os o) s = (Ok a, s') → f (moment s) = Done a ∧ moment s' = S (moment s).
Proof.
  intros -> H. apply bindM_Ok in H as (o & s1 & H1 & H2). destruct o as [a'|n]; [|by apply lift_Ok in H2 as [[=] _]].
  apply retM_Ok in H2 as [-> ->]. by apply system_Ok in H1 as [? ->].
Qed.
Lemma stat_Ok fd name s m s' : do_stat fd name s = (Ok m, s') → kernel_stat (moment s) fd name = Done m ∧ moment s' = S (moment s).
Proof. exact (called_Ok (os_stat fd name) _ _ s m s' eq_refl). Qed.
Lemma do_fstat_Ok fd s m s' : do_fstat fd s = (Ok m, s') → kernel_fstat (moment s) fd = Done m ∧ moment s' = S (moment s).
Proof. exact (called_Ok (os_fstat fd) _ _ s m s' eq_refl). Qed.
Lemma open_Ok fd name s d s' : do_open fd name s = (Ok d, s') →
  kernel_open (moment s) (At fd name) ReadFlags = Done d ∧ moment s' = S (moment s).
Proof. exact (called_Ok (os_open (At fd name) ReadFlags) _ _ s d s' eq_refl). Qed.

Lemma later {A} (m : Sys A) s r s' : tame upkeep local_exn m → m s = (r, s') → (moment s ≤ moment s')%nat.
Proof. intros Hm H. by destruct (tame_run _ _ _ _ _ _ Hm H) as [[? _] _]. Qed.

Lemma content_delivered p fd maximum budget s content left_ s' :
  loopM p (candidate_chunk fd maximum) ([], budget) s = (Ok (content, left_), s') →
  delivered fd (moment s) (moment s') content.
Proof.
  intros H. refine (loopM_ind
    (λ acc s1, ∀ t bs, delivered fd (moment s1) t bs → delivered fd (moment s) t (acc.1 ++ bs))
    (λ r s1, match r with Ok acc => delivered fd (moment s) (moment s1) acc.1 | Err _ => True end)
    _ _ _ _ _ _ H _ _ _ _ _); try done.
  - intros [acc b] s1 [acc' b'] s2 Hs Hc. unfold candidate_chunk in Hc. cbv zeta in Hc.
    apply bindM_Ok in Hc as (o & s3 & H1 & Hc). apply bindM_Ok in Hc as (chunk & s4 & H2 & Hc).
    destruct o as [chunk'|n]; [|by apply lift_Ok in H2 as [[=] _]]. apply retM_Ok in H2 as [-> ->].
    apply system_Ok in H1 as [H1 ->]. destruct chunk' as [|c chunk']; [by apply retM_Ok in Hc as [[=] _]|].
    apply bindM_Ok in Hc as (? & ? & [_ ->]%demand_Ok & Hc). apply bindM_Ok in Hc as (? & ? & [_ ->]%demand_Ok & Hc).
    apply retM_Ok in Hc as [[= -> ->] ->]. intros t bs Hd. cbn [fst] in *. rewrite <- app_assoc. apply Hs.
    by eapply delivered_more.
  - intros [acc b] s1 [acc' b'] s2 Hs Hc. unfold candidate_chunk in Hc. cbv zeta in Hc.
    apply bindM_Ok in Hc as (o & s3 & H1 & Hc). apply bindM_Ok in Hc as (chunk & s4 & H2 & Hc).
    destruct o as [chunk'|n]; [|by apply lift_Ok in H2 as [[=] _]]. apply retM_Ok in H2 as [-> ->].
    apply system_Ok in H1 as [H1 ->]. destruct chunk' as [|c chunk'].
    + apply retM_Ok in Hc as [[= -> ->] ->]. cbn [fst] in *. rewrite <- (app_nil_r acc). apply Hs.
      by eapply delivered_end.
    + apply bindM_Ok in Hc as (? & ? & _ & Hc). apply bindM_Ok in Hc as (? & ? & _ & Hc). by apply retM_Ok in Hc as [[=] _].
Qed.

Lemma file_identity_plain m i : _file_identity m = Ok i → is_plain_file m = true ∧ qf_size_bytes i = st_size m.
Proof. unfold _file_identity, check_file_identity. intros H. inv_ok. done. Qed.

(** An observation that returns saw the leaf. *)
Lemma observed_leaf parent name maximum budget sync s i digest rest s' :
  _observe_regular_leaf parent name maximum budget sync s = (Ok (i, digest, rest), s') →
  seen parent name i digest (moment s) (moment s').
Proof.
  unfold _observe_regular_leaf. intros H. apply bindM_Ok in H as (b & s1 & H1 & H).
  pose proof (later _ _ _ _ (neat_exists _ _) H1) as T1. apply bindM_Ok in H as (u & s2 & [_ ->]%demand_Ok & H).
  apply bindM_Ok in H as (m & s3 & [Hm T3]%stat_Ok & H). apply bindM_Ok in H as (i' & s4 & [Hi ->]%lift_Ok & H).
  apply bindM_Ok in H as (u1 & s5 & [_ ->]%demand_Ok & H). unfold with_descriptor in H.
  apply bindM_Ok in H as (fd & s6 & [Ho T6]%open_Ok & H). apply finally_Ok in H as (s7 & H & Hc).
  pose proof (later _ _ _ _ (neat_close _) Hc) as Tc.
  apply bindM_Ok in H as (opened & s8 & [Hf T8]%do_fstat_Ok & H). apply bindM_Ok in H as (u2 & s9 & [E1 ->]%demand_Ok & H).
  apply bindM_Ok in H as ([content left_] & s10 & Hl & H). pose proof (content_delivered _ _ _ _ _ _ _ _ Hl) as Hd.
  apply bindM_Ok in H as (u3 & s11 & Hs & H).
  assert (moment s10 ≤ moment s11)%nat as T11.
  { destruct sync; [by eapply later; [apply neat_fsync|]|by apply retM_Ok in Hs as [_ ->]]. }
  apply bindM_Ok in H as (fo & s12 & [Hfo T12]%do_fstat_Ok & H). apply bindM_Ok in H as (fp & s13 & [Hfp T13]%stat_Ok & H).
  apply bindM_Ok in H as (u4 & s14 & [E2 ->]%demand_Ok & H). apply retM_Ok in H as [[= -> -> ->] ->].
  apply bool_decide_eq_true in E1. split_andb.
  repeat match goal with X : bool_decide _ = true |- _ => apply bool_decide_eq_true in X end.
  match goal with X : (_ =? _) = true |- _ => apply Z.eqb_eq in X end.
  assert (moment s8 < moment s10)%nat as T10.
  { clear -Hd. induction Hd; lia. }
  destruct (file_identity_plain _ _ Hi) as [Hp _].
  exists (moment s1), (moment s3), (moment s6), (moment s8), (moment s10), (moment s12), fd, m, opened, fp, content.
  split_and!; try done; try lia. congruence.
Qed.

(** What [_observe_candidate_leaf] compares: the identity, or what a rename keeps of it. *)
Lemma observed_candidate parent name c sync rename s u s' : _observe_candidate_leaf parent name c sync rename s = (Ok u, s') →
  ∃ i, seen parent name i (cb_content_sha256 (c_body c)) (moment s) (moment s') ∧
    _stable_file_identity i = _stable_file_identity (cb_source_identity (c_body c)) ∧
    (rename = false → i = cb_source_identity (c_body c)).
Proof.
  unfold _observe_candidate_leaf. intros H. apply bindM_Ok in H as ([[i digest] rest] & s1 & H1 & H).
  apply demand_Ok in H as [H ->]. split_andb. apply observed_leaf in H1.
  match goal with X : str_eqb _ _ = true |- _ => apply String.eqb_eq in X; subst digest end.
  exists i. split; [done|]. destruct rename;
    match goal with X : bool_decide _ = true |- _ => apply bool_decide_eq_true in X end; [done|by subst].
Qed.

(** ** Planned moves *)

(** A rename of a candidate of these, by its identifier, right after its source was seen. *)
Definition moves (l : list QuarantineCandidate) (e : effect) : Prop :=
  match e with
  | RenameAt source name target new_name => ∃ c t0 t1 t2,
      c ∈ l ∧ new_name = candidate_id c ∧ name = List.last (posix_parts (cb_source_relative_path (c_body c))) "" ∧
      seen source name (cb_source_identity (c_body c)) (cb_content_sha256 (c_body c)) t0 t1 ∧ (t1 ≤ t2)%nat ∧
      disk_rename t2 source name target new_name = Done tt
  | _ => False
  end.
Definition moving (l : list QuarantineCandidate) (e : effect) : Prop := upkeep e ∨ moves l e.

Lemma neat_moving {A} l (m : Sys A) : tame upkeep local_exn m → tame (moving l) local_exn m.
Proof. intros H. eapply tame_weaken; [exact H|by left|done]. Qed.

Lemma rename_moves l parent payload c : c ∈ l →
  tame (moving l) local_exn
    (rename_candidate parent (List.last (posix_parts (cb_source_relative_path (c_body c))) "") payload c).
Proof.
  intros Hc. unfold rename_candidate. apply tame_intro. intros s r s' [([] & s1 & H1 & H)|(e & H1 & ->)]%bindM_inv.
  2:{ destruct (tame_run _ _ _ _ _ _ (neat_moving l _ (neat_candidate_leaf _ _ _ _ _)) H1) as [? He].
      split; [done|]. intros e' [= <-]. by apply He. }
  destruct (tame_run _ _ _ _ _ _ (neat_moving l _ (neat_candidate_leaf _ _ _ _ _)) H1) as [Ha _].
  apply observed_candidate in H1 as (i & Hseen & _ & Hi). rewrite (Hi eq_refl) in Hseen.
  assert (added (moving l) s1 s' ∧ fails local_exn r) as [? ?]; [|split; [by eapply added_trans|done]].
  apply bindM_inv in H as [(b & s2 & H2 & H)|(e & H2 & ->)];
    destruct (tame_run _ _ _ _ _ _ (neat_moving l _ (neat_exists _ _)) H2) as [Ha2 He]; cycle 1.
  { split; [done|]. intros e' [= <-]. by apply He. }
  assert (moment s1 ≤ moment s2)%nat as T2 by (by destruct Ha2).
  assert (added (moving l) s2 s' ∧ fails local_exn r) as [? ?]; [|split; [by eapply added_trans|done]].
  destruct b; [injection H as <- <-; split; [apply added_refl|by apply fails_Err]|].
  unfold mbind, eff_bind, demand_protocol, lift, rename_noreplace_at, system in H. cbn [negb require] in H.
  destruct (disk_rename (moment s2) _ _ _ _) as [[]|n] eqn:Er; injection H as <- <-.
  - split; [|apply fails_Ok]. split; [simpl; lia|]. eexists. split; [done|]. apply Forall_singleton. right.
    exists c, (moment s), (moment s1), (moment s2). done.
  - split; [|by apply fails_Err]. split; [simpl; lia|]. exists []. by rewrite app_nil_r.
Qed.

(** Programs with moves, below an open directory and inside [with]. *)
Section weaker.
Context (l : list QuarantineCandidate) (E : exn → Prop) (HE : ∀ e, local_exn e → E e).

Lemma neat_here {A} (m : Sys A) : tame upkeep local_exn m → tame (moving l) E m.
Proof using HE. intros H. eapply tame_weaken; [exact H|by left|done]. Qed.
Lemma tame_with {A} (opening : Sys Z) (body : Z → Sys A) : tame upkeep local_exn opening →
  (∀ fd, tame (moving l) E (body fd)) → tame (moving l) E (with_descriptor opening body).
Proof using HE.
  intros Ho Hb. unfold with_descriptor. apply tame_seq; [by apply neat_here|intros fd].
  apply tame_finally; [done|intros _]. apply neat_here, neat_close.
Qed.
Lemma tame_below {A} current components (body : Z → Sys A) : (∀ fd, tame (moving l) E (body fd)) →
  tame (moving l) E (below current components body).
Proof using HE.
  intros Hb. revert current. induction components as [|c components IH]; intros current; cbn [below].
  - apply tame_finally; [done|intros _]. apply neat_here, neat_close.
  - apply tame_seq.
    + apply tame_finally; [apply neat_here, neat_open_directory|intros []; [apply tame_ret|apply neat_here, neat_close]].
    + intros next. apply tame_seq; [|intros _; apply IH].
      apply tame_finally; [apply neat_here, neat_close|intros []; [apply tame_ret|apply neat_here, neat_close]].
Qed.
Lemma tame_candidate_parent {A} fd relative (body : Z → string → Sys A) :
  (∀ fd, tame (moving l) E (body fd (List.last (posix_parts relative) ""))) →
  tame (moving l) E (with_candidate_parent fd relative body).
Proof using HE.
  intros Hb. unfold with_candidate_parent. cbv zeta. apply tame_seq; [apply neat_here, neat_demand|intros _].
  apply tame_seq; [apply neat_here, neat_dup|intros o]. apply tame_seq; [apply neat_here, neat_raise_os|intros current].
  by apply tame_below.
Qed.
End weaker.

Lemma neat_settle parent name payload c : tame upkeep local_exn (settle_move parent name payload c).
Proof. unfold settle_move. solve_tame. Qed.
Lemma neat_repair artifact payload c : tame upkeep local_exn (_repair_moved_candidate_durability artifact payload c).
Proof.
  unfold _repair_moved_candidate_durability. apply neat_candidate_parent. intros. solve_tame. apply neat_settle.
Qed.

Context {parser : PydanticJson}.

Lemma fails_expected_receipt plan h c : fails local_exn (_expected_receipt plan h c).
Proof. unfold _expected_receipt. auto with fails. Qed.

Lemma move_moves l artifact payload receipts plan h c : c ∈ l →
  tame (moving l) local_exn (_move_candidate artifact payload receipts plan h c).
Proof.
  intros Hc. unfold _move_candidate. apply tame_seq.
  - apply tame_candidate_parent; [done|intros fd]. apply tame_seq; [by apply rename_moves|intros _].
    apply neat_moving, neat_settle.
  - intros _. apply neat_moving. solve_tame.
Qed.
Lemma neat_reconcile artifact payload receipts plan h : tame upkeep local_exn (_reconcile_candidates artifact payload receipts plan h).
Proof.
  unfold _reconcile_candidates. cbv zeta. solve_tame. apply tame_mapM. intros c _. unfold reconcile_candidate.
  solve_tame; first [apply fails_expected_receipt|apply neat_repair].
Qed.
End moves.
