(* ===== verification/QuarantineRun.v ===== *)
(** * How a quarantine transaction ends (src/guildmind/storage/quarantine.py)

    A transaction stays fenced until everything it promises is on disk: ACTIVE is removed
    last, and what was moved, recorded and audited before that is what COMPLETE commits
    to. *)

From S2P Require Import Prelude Order Loop Effects PyStr Files Descriptors Disk Float64 Json Text Hash Datetime Fields Usage.
From S2P Require Import Models Sqlite EventStore Artifacts Integrity Coordinator Reports QuarantineRecords QuarantineFiles.
From S2P Require Import ArtifactFacts CoordinatorFacts Tame Maintenance Quarantine QuarantineTrace QuarantineMoves.

Local Open Scope Z_scope.

Section run.
Context {kernel : Kernel} {disk : Disk} {world : World} {hashing : Hashing} {datetimes : PydanticDatetime}.
Context {parser : PydanticJson} {ledgers : Ledgers} {env : Environment}.

(** ** Records that were written or read *)

Lemma write_model_Ok parent name model maximum s h s' : _write_immutable_model parent name model maximum s = (Ok h, s') →
  canonical_sha256 model = Ok h.
Proof.
  unfold _write_immutable_model. cbv zeta. intros H. apply bindM_Ok in H as (text & ? & [Ht ->]%lift_Ok & H).
  apply bindM_Ok in H as (? & ? & [_ ->]%demand_Ok & H). apply bindM_Ok in H as (b & ? & _ & H).
  assert (∃ observed, observed = utf8_encode text ∧ h = sha256_bytes observed) as (observed & -> & ->).
  { destruct b.
    - apply bindM_Ok in H as (observed & ? & _ & H). apply bindM_Ok in H as (? & ? & [E _]%demand_Ok & H).
      apply bindM_Ok in H as (? & ? & _ & [-> _]%retM_Ok). apply bool_decide_eq_true in E. eauto.
    - do 5 (apply bindM_Ok in H as (? & ? & _ & H)). apply bindM_Ok in H as (observed & ? & _ & H).
      apply bindM_Ok in H as (? & ? & [E _]%demand_Ok & [-> _]%retM_Ok). apply bool_decide_eq_true in E. eauto. }
  unfold canonical_sha256. by rewrite Ht.
Qed.

Lemma read_model_Ok {T} (validate : json → result T) dump parent name maximum s m h s' :
  _read_model validate dump parent name maximum s = (Ok (m, h), s') →
  (∃ v, validate v = Ok m) ∧ canonical_sha256 (dump m) = Ok h.
Proof.
  unfold _read_model. intros H. apply bindM_Ok in H as (data & ? & _ & H). apply bindM_Ok in H as (m' & ? & [Hv _]%lift_Ok & H).
  apply bindM_Ok in H as (text & ? & [Ht _]%lift_Ok & H). apply bindM_Ok in H as (? & ? & [E _]%demand_Ok & H).
  apply retM_Ok in H as [[= -> ->] _]. apply bool_decide_eq_true in E. subst data.
  apply except_Ok in Hv. unfold model_validate_json in Hv. inv_ok. split; [eauto|]. unfold canonical_sha256. by rewrite Ht.
Qed.

(** ** The candidates of a plan *)

(** A candidate that validates: an ownerless orphan on a canonical path. *)
Definition valid_candidate (c : QuarantineCandidate) : Prop :=
  check_candidate c = Ok c ∧ check_candidate_body (c_body c) = Ok (c_body c).
Definition valid_plan (p : QuarantinePlan) : Prop :=
  check_plan p = Ok p ∧ check_plan_body (p_body p) = Ok (p_body p) ∧ Forall valid_candidate (pb_candidates (p_body p)).

(** A check returns its argument, and returns it again. *)
Lemma check_body_Ok b b' : check_candidate_body b = Ok b' → b' = b ∧ check_candidate_body b = Ok b.
Proof. intros H. assert (b' = b) as ->; [|done]. unfold check_candidate_body in H. by inv_ok. Qed.
Lemma check_candidate_Ok c c' : check_candidate c = Ok c' → c' = c ∧ check_candidate c = Ok c.
Proof. intros H. assert (c' = c) as ->; [|done]. unfold check_candidate in H. by inv_ok. Qed.
Lemma check_plan_body_Ok b b' : check_plan_body b = Ok b' → b' = b ∧ check_plan_body b = Ok b.
Proof. intros H. assert (b' = b) as ->; [|done]. unfold check_plan_body in H. by inv_ok. Qed.
Lemma check_plan_Ok p p' : check_plan p = Ok p' → p' = p ∧ check_plan p = Ok p.
Proof. intros H. assert (p' = p) as ->; [|done]. unfold check_plan in H. by inv_ok. Qed.

Lemma field_Ok {A} o k (f : json → result A) a : field o k f = Ok a → ∃ v, f v = Ok a.
Proof. unfold field. destruct (jget o k) as [v|]; [eauto|done]. Qed.
Lemma v_list_elem {A} (f : json → result A) v l a : v_list f v = Ok l → a ∈ l → ∃ w, f w = Ok a.
Proof.
  unfold v_list. destruct v; try done. intros H Ha. destruct (mapR_elem_inv _ _ _ _ H Ha) as (w & Hw & _). by exists w.
Qed.

Lemma validate_candidate_Ok v c : validate_candidate v = Ok c → valid_candidate c.
Proof.
  unfold validate_candidate. intros H. inv_ok. destruct (check_candidate_Ok _ _ H) as [-> Hc]. split; [done|].
  match goal with X : field _ "body" _ = Ok _ |- _ => apply field_Ok in X as [w X]; unfold validate_candidate_body in X end.
  inv_ok. match goal with X : check_candidate_body _ = Ok _ |- _ => destruct (check_body_Ok _ _ X) as [-> ?] end. done.
Qed.
Lemma validate_plan_Ok v p : validate_plan v = Ok p → valid_plan p.
Proof.
  unfold validate_plan. intros H. inv_ok. destruct (check_plan_Ok _ _ H) as [-> Hp]. split; [done|]. cbn [p_body].
  match goal with X : field _ "body" _ = Ok _ |- _ => apply field_Ok in X as [w X]; unfold validate_plan_body in X end.
  inv_ok. match goal with X : check_plan_body _ = Ok _ |- _ => destruct (check_plan_body_Ok _ _ X) as [-> ?] end.
  split; [done|]. cbn [pb_candidates].
  match goal with X : field _ "candidates" _ = Ok _ |- _ => apply field_Ok in X as [cs X] end.
  apply Forall_forall. intros c Hc. match goal with X : v_list _ _ = Ok _ |- _ =>
    destruct (v_list_elem _ _ _ _ X Hc) as [cv ?] end. by eapply validate_candidate_Ok.
Qed.

(** ** What an audit raises is not the protocol's own *)

Section state.
Context (state : path).

Definition audit_raised (e : exn) : Prop := ∃ s s', audit_storage state s = (Err e, s').
Definition ours (e : exn) : Prop := local_exn e ∨ audit_raised e.

Lemma local_ours e : local_exn e → ours e.
Proof. by left. Qed.
Lemma neat_ours {A} l (m : Sys A) : tame upkeep local_exn m → tame (moving l) ours m.
Proof. apply neat_here, local_ours. Qed.
Lemma ours_audit P : tame P ours (audit_storage state).
Proof.
  apply tame_intro. intros s r s' H. destruct (quiet_Ok _ _ _ _ (quiet_audit_storage state) H) as [? E].
  split; [split; [done|exists []; by rewrite app_nil_r]|]. intros e ->. right. by exists s, s'.
Qed.

(** ** The parts of a transaction *)

Lemma fails_quarantinable r : fails local_exn (_require_quarantinable r).
Proof. unfold _require_quarantinable. by solve_fails. Qed.
Lemma fails_graph plan r : fails local_exn (_require_report_graph plan r).
Proof. unfold _require_report_graph. by solve_fails. Qed.
#[local] Hint Resolve fails_quarantinable fails_graph : fails.
Lemma fails_before_matches before plan : fails local_exn (_require_before_matches_plan before plan).
Proof. unfold _require_before_matches_plan. cbv zeta. by solve_fails. Qed.
Lemma fails_current_report plan r pending : fails local_exn (_require_current_report plan r pending).
Proof. unfold _require_current_report. by solve_fails. Qed.
Lemma fails_final_report plan r : fails local_exn (_require_final_report plan r).
Proof. unfold _require_final_report. by solve_fails. Qed.
#[local] Hint Resolve fails_before_matches fails_current_report fails_final_report fails_expected_receipt : fails.

Lemma neat_read_records fd active : tame upkeep local_exn (read_records fd active).
Proof.
  unfold read_records. solve_tame; apply neat_read_model; auto with fails.
Qed.
Lemma neat_plan_identity fd plan : tame upkeep local_exn (_require_plan_storage_identity fd plan).
Proof. unfold _require_plan_storage_identity. solve_tame. apply neat_with; [auto with tame|intros]. solve_tame. Qed.
Lemma neat_commit fd plan h : tame upkeep local_exn (commit_receipts fd plan h).
Proof.
  unfold commit_receipts. apply tame_mapM. intros c _. solve_tame. apply fails_local. unfold check_receipt_commitment.
  by solve_fails.
Qed.

Lemma pending_subset plan pending c : c ∈ pending_of plan pending → c ∈ pb_candidates (p_body plan).
Proof.
  unfold pending_of. intros ((c' & b) & -> & H)%list_elem_of_fmap. apply list_elem_of_In, filter_In in H as [H _].
  by apply list_elem_of_In, elem_of_zip_l in H.
Qed.
Lemma move_pending_moves fd d plan h :
  tame (moving (pb_candidates (p_body plan))) ours (move_pending state fd d plan h).
Proof.
  unfold move_pending. apply tame_with; [apply local_ours|apply neat_open_existing|intros artifact].
  apply tame_seq; [apply neat_ours, neat_reconcile|intros statuses]. apply tame_seq; [apply ours_audit|intros current].
  apply tame_seq; [apply neat_ours; solve_tame|intros _]. apply tame_forM. intros c Hc.
  eapply tame_mono; [done|apply local_ours|]. by eapply move_moves, pending_subset.
Qed.
Lemma complete_moves d plan h resumed l : tame (moving l) ours (complete_transaction state d plan h resumed).
Proof.
  unfold complete_transaction. cbv zeta. apply tame_seq; [apply ours_audit|intros report]. apply neat_ours.
  solve_tame; first [apply neat_commit|apply neat_subset|apply fails_local; unfold check_after, check_complete; by solve_fails].
Qed.

(** The fence was removed between two states: what was added before, and after. *)
Definition unfenced (l : list QuarantineCandidate) (version : Z) (from : nat) (s s' : sys) : Prop :=
  ∃ pre post t, effects s' = effects s ++ pre ++ UnlinkAt version _ACTIVE_NAME :: post ∧
    Forall (moving l) pre ∧ Forall upkeep post ∧
    disk_unlink t version _ACTIVE_NAME = Done tt ∧ (from ≤ t < moment s')%nat.

Lemma unfenced_after l version from s1 s2 s3 : added (moving l) s1 s2 → unfenced l version from s2 s3 →
  unfenced l version from s1 s3.
Proof.
  intros (Ht & new & E1 & H1) (pre & post & t & E2 & H2 & H3 & Hd & Ht2). exists (new ++ pre), post, t.
  split_and!; try done; try lia; [|by apply Forall_app]. by rewrite E2, E1, <- !app_assoc.
Qed.
Lemma unfenced_before l version from s1 s2 s3 : unfenced l version from s1 s2 → added upkeep s2 s3 →
  unfenced l version from s1 s3.
Proof.
  intros (pre & post & t & E2 & H2 & H3 & Hd & Ht2) (Ht & new & E1 & H1). exists pre, (post ++ new), t.
  split_and!; try done; try lia; [|by apply Forall_app]. by rewrite E1, E2, <- !app_assoc.
Qed.

(** ACTIVE is removed at once, and the removal that could not be made durable says so. *)
Lemma remove_active_run version active res s r s' : _remove_active version active res s = (r, s') →
  (added upkeep s s' ∧ ∃ e, r = Err e ∧ local_exn e) ∨
  (unfenced [] version (moment s) s s' ∧ (r = Ok tt ∨ r = Err (committed_failure res) ∧ ∃ t n, kernel_fsync t version = OSError n)).
Proof.
  unfold _remove_active. intros H. apply bindM_inv in H as [([observed digest] & s1 & H1 & H)|(e & H1 & ->)];
    destruct (tame_run _ _ _ _ _ _ (neat_read_active_model _) H1) as [Ha He]; cycle 1.
  { left. split; [done|]. exists e. split; [done|]. by apply He. }
  apply bindM_inv in H as [(u & s2 & [_ ->]%demand_Ok & H)|(e & H2 & ->)]; cycle 1.
  { destruct (tame_run _ _ _ _ _ _ (neat_demand _ _) H2) as [Ha2 He2]. left.
    split; [by eapply added_trans|]. exists e. split; [done|]. by apply He2. }
  unfold mbind, eff_bind, os_unlink, system in H. destruct (disk_unlink (moment s1) version _ACTIVE_NAME) as [[]|n] eqn:Eu.
  - right. unfold or_protocol, mret, eff_ret, os_fsync, system in H. cbn [moment effects] in H.
    pose proof (proj1 Ha) as T. assert (added (moving []) s s1) as Hm by (eapply added_mono; [|exact Ha]; by left).
    destruct (kernel_fsync (S (moment s1)) version) as [[]|n] eqn:Ef; injection H as <- <-;
      (split; [eapply unfenced_after; [exact Hm|]|]); [| by left | |right; eauto].
    + exists [], [FsyncFd version], (moment s1). cbn [effects moment app]. rewrite <- app_assoc.
      split_and!; try done; [by repeat constructor|lia].
    + exists [], [], (moment s1). cbn [effects moment app]. split_and!; (done || lia).
  - left. injection H as <- <-. split; [|by eexists]. eapply added_trans; [exact Ha|]. split; [cbn; lia|].
    exists []. split; [by rewrite !app_nil_r|done].
Qed.
(** ** What was seen in the payload *)

(** The payload holds the candidate: the file that was planned, with its content. *)
Definition held (payload : Z) (until : nat) (c : QuarantineCandidate) : Prop := ∃ i from to,
  seen payload (candidate_id c) i (cb_content_sha256 (c_body c)) from to ∧ (to ≤ until)%nat ∧
  _stable_file_identity i = _stable_file_identity (cb_source_identity (c_body c)).

Lemma held_later payload t t' c : held payload t c → (t ≤ t')%nat → held payload t' c.
Proof. intros (i & from & to & ? & ? & ?) ?. exists i, from, to. split_and!; [done|lia|done]. Qed.

Lemma settle_held parent name payload c s u s' : settle_move parent name payload c s = (Ok u, s') → held payload (moment s') c.
Proof.
  unfold settle_move. intros H. do 4 (apply bindM_Ok in H as (? & ? & _ & H)).
  apply observed_candidate in H as (i & H & Hi & _). eexists i, _, _. by split_and!.
Qed.

Lemma below_Ok {A} current l (body : Z → Sys A) s a s' : below current l body s = (Ok a, s') →
  ∃ fd s1 s2, body fd s1 = (Ok a, s2) ∧ (moment s2 ≤ moment s')%nat.
Proof.
  revert current s. induction l as [|component l IH]; intros current s; cbn [below].
  - intros (s1 & H & Hc)%finally_Ok. exists current, s, s1. split; [done|]. by eapply later; [apply neat_close|].
  - intros H. apply bindM_Ok in H as (next & s1 & _ & H). apply bindM_Ok in H as (? & s2 & _ & H). by apply IH in H.
Qed.
Lemma candidate_parent_Ok {A} fd relative (body : Z → string → Sys A) s a s' :
  with_candidate_parent fd relative body s = (Ok a, s') →
  ∃ parent s1 s2, body parent (List.last (posix_parts relative) "") s1 = (Ok a, s2) ∧ (moment s2 ≤ moment s')%nat.
Proof.
  unfold with_candidate_parent. cbv zeta. intros H. do 3 (apply bindM_Ok in H as (? & ? & _ & H)). by apply below_Ok in H.
Qed.

Lemma move_held artifact payload receipts plan h c s u s' :
  _move_candidate artifact payload receipts plan h c s = (Ok u, s') → held payload (moment s') c.
Proof.
  unfold _move_candidate. intros H. apply bindM_Ok in H as (? & s1 & H1 & H).
  assert (moment s1 ≤ moment s')%nat as T.
  { eapply later; [|exact H]. solve_tame. }
  apply candidate_parent_Ok in H1 as (parent & s2 & s3 & H1 & ?). apply bindM_Ok in H1 as (? & ? & _ & H1).
  apply settle_held in H1. by eapply held_later; [|etransitivity].
Qed.
Lemma repair_held artifact payload c s u s' :
  _repair_moved_candidate_durability artifact payload c s = (Ok u, s') → held payload (moment s') c.
Proof.
  unfold _repair_moved_candidate_durability. intros (parent & s2 & s3 & H1 & ?)%candidate_parent_Ok.
  apply bindM_Ok in H1 as (? & ? & _ & H1). apply settle_held in H1. by eapply held_later.
Qed.
Lemma reconcile_held artifact payload receipts plan h c s s' :
  reconcile_candidate artifact payload receipts plan h c s = (Ok false, s') → held payload (moment s') c.
Proof.
  unfold reconcile_candidate. intros H. do 4 (apply bindM_Ok in H as (? & ? & _ & H)).
  destruct (_ && negb _).
  - do 2 (apply bindM_Ok in H as (? & ? & _ & H)). by apply retM_Ok in H as [[=] _].
  - destruct (_ && negb _); [|by apply lift_Ok in H as [[=] _]]. apply bindM_Ok in H as (? & s1 & H1 & H).
    apply repair_held in H1. eapply held_later; [exact H1|]. eapply later; [|exact H]. solve_tame.
Qed.
(** What holds of each round still holds at the end, when time cannot undo it. *)
Lemma forM_held {A} (Q : A → nat → Prop) (f : A → Sys unit) l s u s' :
  (∀ a t t', Q a t → (t ≤ t')%nat → Q a t') →
  (∀ a s r s', a ∈ l → f a s = (r, s') → (moment s ≤ moment s')%nat) →
  (∀ a s u s', f a s = (Ok u, s') → Q a (moment s')) →
  forM f l s = (Ok u, s') → Forall (λ a, Q a (moment s')) l ∧ (moment s ≤ moment s')%nat.
Proof.
  intros Hmono. revert s. induction l as [|a l IH]; intros s Ht Hf H; cbn [forM] in H.
  - by apply retM_Ok in H as [_ ->].
  - apply bindM_Ok in H as (v & s1 & H1 & H).
    destruct (IH s1 (λ a s r s' Ha, Ht a s r s' (list_elem_of_further _ _ _ Ha)) Hf H) as [Hall T].
    pose proof (Ht _ _ _ _ (list_elem_of_here _ _) H1). split; [|lia]. constructor; [|done]. eapply Hmono; [by eapply Hf|done].
Qed.
Lemma mapM_held {A B} (Q : A → B → nat → Prop) (f : A → Sys B) l s bs s' :
  (∀ a b t t', Q a b t → (t ≤ t')%nat → Q a b t') →
  (∀ a s r s', f a s = (r, s') → (moment s ≤ moment s')%nat) →
  (∀ a s b s', f a s = (Ok b, s') → Q a b (moment s')) →
  mapM_eff f l s = (Ok bs, s') → Forall2 (λ a b, Q a b (moment s')) l bs ∧ (moment s ≤ moment s')%nat.
Proof.
  intros Hmono Ht Hf. revert s bs. induction l as [|a l IH]; intros s bs H; cbn [mapM_eff] in H.
  - by apply retM_Ok in H as [-> ->].
  - apply bindM_Ok in H as (b & s1 & H1 & H). apply bindM_Ok in H as (bs' & s2 & H2 & [-> ->]%retM_Ok).
    destruct (IH _ _ H2) as [Hall T]. pose proof (Ht _ _ _ _ H1). split; [|lia].
    constructor; [|done]. eapply Hmono; [by eapply Hf|done].
Qed.

(** A candidate is still to be moved, or its status is [false]. *)
Lemma pending_complete (plan : QuarantinePlan) (statuses : list bool) (Q : QuarantineCandidate → Prop) :
  Forall2 (λ c (b : bool), b = false → Q c) (pb_candidates (p_body plan)) statuses →
  Forall Q (pending_of plan statuses) → Forall Q (pb_candidates (p_body plan)).
Proof.
  unfold pending_of. induction 1 as [|c b l statuses Hc Hl IH]; cbn; [done|]. destruct b; cbn.
  - intros [? ?]%Forall_cons. constructor; [done|by apply IH].
  - intros H. constructor; [by apply Hc|by apply IH].
Qed.

Lemma neat_reconcile_candidate artifact payload receipts plan h c :
  tame upkeep local_exn (reconcile_candidate artifact payload receipts plan h c).
Proof. unfold reconcile_candidate. solve_tame; try apply neat_repair. Qed.

Lemma move_pending_held fd d plan h s u s' : move_pending state fd d plan h s = (Ok u, s') →
  Forall (held (td_payload d) (moment s')) (pb_candidates (p_body plan)).
Proof.
  unfold move_pending, with_descriptor. intros H. apply bindM_Ok in H as (artifact & s1 & _ & H).
  apply finally_Ok in H as (s2 & H & Hc). pose proof (later _ _ _ _ (neat_close _) Hc) as Tc.
  apply bindM_Ok in H as (statuses & s3 & H1 & H). apply bindM_Ok in H as (report & s4 & H2 & H).
  apply bindM_Ok in H as (? & ? & [_ ->]%lift_Ok & H).
  destruct (quiet_Ok _ _ _ _ (quiet_audit_storage state) H2) as [T2 _].
  unfold _reconcile_candidates in H1. cbv zeta in H1. do 2 (apply bindM_Ok in H1 as (? & ? & _ & H1)).
  apply (mapM_held (λ c b t, b = false → held (td_payload d) t c)) in H1 as [H1 _].
  2:{ intros c b t t' Hb ? Hf. by eapply held_later; [apply Hb|]. }
  2:{ intros c s5 r s6 E. by eapply later; [apply neat_reconcile_candidate|]. }
  2:{ intros c s5 b s6 E ->. by eapply reconcile_held. }
  apply (forM_held (λ c t, held (td_payload d) t c)) in H as [H T].
  2:{ intros. by eapply held_later. }
  2:{ intros c s5 r s6 Hp%pending_subset E.
      by destruct (tame_run _ _ _ _ _ _ (move_moves (pb_candidates (p_body plan)) _ _ _ _ _ c Hp) E) as [[? _] _]. }
  2:{ intros c s5 [] s6 E. by eapply move_held. }
  apply (Forall_impl (held (td_payload d) (moment s2))); [|intros c Hh; by eapply held_later].
  apply (pending_complete plan statuses); [|done]. eapply Forall2_impl; [exact H1|]. cbv beta. intros c b Hb Hf.
  eapply held_later; [by apply Hb|lia].
Qed.
(** ** What a completed transaction stands for *)

(** The commitments of COMPLETE, one for each candidate. *)
Definition receipts_of (plan : QuarantinePlan) (plan_sha256 : string) : result (list ReceiptCommitment) :=
  mapR (λ c,
    receipt ← _expected_receipt plan plan_sha256 c;
    digest ← canonical_sha256 (dump_receipt receipt);
    check_receipt_commitment {| rm_candidate_id := candidate_id c; rm_receipt_sha256 := digest |})
    (pb_candidates (p_body plan)).

(** The plan that ACTIVE commits to, bound to the report it was made from. *)
Definition planned (active : QuarantineActive) (plan : QuarantinePlan) : Prop :=
  valid_plan plan ∧ qp_transaction_id plan = qa_transaction_id active ∧
  canonical_sha256 (dump_plan plan) = Ok (qa_plan_sha256 active) ∧
  pb_before_sha256 (p_body plan) = qa_before_sha256 active ∧
  ∃ before, canonical_sha256 (dump_before before) = Ok (qa_before_sha256 active) ∧
    _require_before_matches_plan before plan = Ok tt.

(** COMPLETE commits to everything, and the result names its digest. *)
Definition committed_to (plan : QuarantinePlan) (plan_sha256 : string) (res : QuarantineResult) : Prop :=
  ∃ after_sha256 commitments digest,
    canonical_sha256 (dump_after {| af_transaction_id := qp_transaction_id plan; after_report := qs_final_report res |}) =
      Ok after_sha256 ∧
    receipts_of plan plan_sha256 = Ok commitments ∧
    canonical_sha256 (dump_complete {| qc_transaction_id := qp_transaction_id plan; qc_plan_sha256 := plan_sha256;
      qc_before_sha256 := pb_before_sha256 (p_body plan); qc_after_sha256 := after_sha256; qc_receipts := commitments |}) =
      Ok digest ∧
    qs_completion_sha256 res = Some digest.

Definition result_of (plan : QuarantinePlan) (res : QuarantineResult) : Prop :=
  qs_outcome res = COMPLETED ∧ qs_transaction_id res = Some (qp_transaction_id plan) ∧
  qs_quarantined_count res = Z.of_nat (length (pb_candidates (p_body plan))).

(** Before the moment [until]: the payload was seen to hold the candidates, then the
    storage was audited and found as the plan wants it. *)
Definition audited (payload : Z) (plan : QuarantinePlan) (report : StorageIntegrityReport) (until : nat) : Prop :=
  ∃ s s', audit_storage state s = (Ok report, s') ∧ (moment s' ≤ until)%nat ∧
    Forall (held payload (moment s)) (pb_candidates (p_body plan)) ∧ _require_final_report plan report = Ok tt.

Lemma read_records_Ok fd active s plan h s' : read_records fd active s = (Ok (plan, h), s') →
  planned active plan ∧ h = qa_plan_sha256 active.
Proof.
  unfold read_records. intros H. apply bindM_Ok in H as ([before h1] & ? & _ & H).
  apply bindM_Ok in H as ([plan' h2] & ? & [[v Hv] H2]%read_model_Ok & H). apply bindM_Ok in H as (? & ? & [E _]%demand_Ok & H).
  apply bindM_Ok in H as (h3 & ? & [H3 _]%lift_Ok & H). apply bindM_Ok in H as (? & ? & [E2 _]%demand_Ok & H).
  apply bindM_Ok in H as ([] & ? & [H4 _]%lift_Ok & H). apply retM_Ok in H as [[= -> ->] _]. split_andb.
  repeat match goal with X : str_eqb _ _ = true |- _ => apply String.eqb_eq in X end. subst h2 h3.
  split; [|done]. split_and!; [by eapply validate_plan_Ok|done|done|done|]. exists before. split; [|done]. congruence.
Qed.

Lemma commit_receipts_Ok fd plan h s l s' : commit_receipts fd plan h s = (Ok l, s') → receipts_of plan h = Ok l.
Proof.
  unfold commit_receipts, receipts_of. generalize (pb_candidates (p_body plan)) as cs. intros cs. revert s l s'.
  induction cs as [|c cs IH]; intros s l s' H; cbn [mapM_eff] in H; [by apply retM_Ok in H as [-> _]|].
  apply bindM_Ok in H as (b & s1 & H1 & H). apply bindM_Ok in H as (bs & s2 & H2 & [-> _]%retM_Ok).
  apply IH in H2. cbn [mapR]. rewrite H2. apply bindM_Ok in H1 as (r & ? & [E _]%lift_Ok & H1).
  apply bindM_Ok in H1 as (digest & ? & Hd & [Hb _]%lift_Ok). unfold _read_expected_receipt in Hd.
  apply bindM_Ok in Hd as ([observed h'] & ? & [_ Hh]%read_model_Ok & Hd).
  apply bindM_Ok in Hd as (? & ? & [Ho _]%demand_Ok & [-> _]%retM_Ok). apply bool_decide_eq_true in Ho. subst observed.
  apply bind_Ok. exists b. split; [|done]. apply bind_Ok. exists r. split; [done|]. apply bind_Ok. by exists h'.
Qed.

Lemma complete_transaction_Ok d plan h resumed s res s' : complete_transaction state d plan h resumed s = (Ok res, s') →
  Forall (held (td_payload d) (moment s)) (pb_candidates (p_body plan)) →
  audited (td_payload d) plan (qs_final_report res) (moment s') ∧ committed_to plan h res ∧ result_of plan res.
Proof.
  unfold complete_transaction. cbv zeta. intros H Hheld. apply bindM_Ok in H as (report & s1 & Ha & H).
  assert (moment s1 ≤ moment s')%nat as T.
  { eapply later; [|exact H].
    solve_tame; first [apply neat_commit|apply neat_subset|apply fails_local; unfold check_after, check_complete; by solve_fails]. }
  apply bindM_Ok in H as ([] & ? & [Hr _]%lift_Ok & H). apply bindM_Ok in H as (after & ? & [Haf _]%lift_Ok & H).
  apply bindM_Ok in H as (after_sha256 & ? & Hs%write_model_Ok & H).
  apply bindM_Ok in H as (commitments & ? & Hc%commit_receipts_Ok & H).
  apply bindM_Ok in H as (complete & ? & [Hcm _]%lift_Ok & H).
  apply bindM_Ok in H as (digest & ? & Hd%write_model_Ok & H). do 4 (apply bindM_Ok in H as (? & ? & _ & H)).
  apply lift_Ok in H as [H _]. unfold check_after in Haf. unfold check_complete in Hcm. cbv zeta in Hcm. unfold check_result in H.
  inv_ok. split_and!; [|by eexists _, _, _|done]. by exists s, s1.
Qed.
(** ** The whole transaction *)

Lemma leave_stack_run {A} stack on_exit (body : Sys A) s r s' : leave_stack stack on_exit body s = (r, s') →
  ∃ r0 s1, body s = (r0, s1) ∧ added upkeep s1 s' ∧ (r = r0 ∨ ∃ n, r = Err (on_exit r0 (OSException n))).
Proof.
  unfold leave_stack. destruct (body s) as [r0 s1]. destruct (close_stack_returns stack s1) as (o & s2 & -> & Ho & T & E).
  assert (added upkeep s1 s2) as Ha.
  { split; [done|]. exists (CloseFd <$> stack). split; [done|]. by apply Forall_fmap, Forall_true. }
  destruct o as [e|]; intros [= <- <-]; exists r0, s1; (split_and!; [done|done|]); [|by left].
  destruct (Ho _ eq_refl) as [n ->]. right. by exists n.
Qed.

(** The candidates of the plan in force, if one was read. *)
Definition in_force (active : QuarantineActive) (l : list QuarantineCandidate) : Prop :=
  l = [] ∨ ∃ plan, planned active plan ∧ l = pb_candidates (p_body plan).

(** What a transaction that was unfenced stands for. *)
Definition completes (active : QuarantineActive) (res : QuarantineResult) (version : Z) (s s' : sys) : Prop :=
  ∃ plan payload from, planned active plan ∧ audited payload plan (qs_final_report res) from ∧
    committed_to plan (qa_plan_sha256 active) res ∧ result_of plan res ∧
    unfenced (pb_candidates (p_body plan)) version from s s'.

Definition stopped (active : QuarantineActive) (s s' : sys) (e : exn) : Prop :=
  ours e ∧ ∃ l, in_force active l ∧ added (moving l) s s'.

(** The removal could not be made durable, and a descriptor could not be closed either. *)
Definition unsynced (version : Z) (e : exn) : Prop :=
  (∃ n, e = OSException n) ∧ ∃ t n, kernel_fsync t version = OSError n.

(** One more step that keeps to the moves of a plan. *)
Lemma step_run {A B} l (m : Sys A) (f : A → Sys B) s0 s r s' : tame (moving l) ours m → added (moving l) s0 s →
  (m ≫= f) s = (r, s') →
  (∃ a s1, m s = (Ok a, s1) ∧ added (moving l) s0 s1 ∧ f a s1 = (r, s')) ∨
  (∃ e, r = Err e ∧ ours e ∧ added (moving l) s0 s').
Proof.
  intros Hm Ha [(a & s1 & H1 & H2)|(e & H1 & ->)]%bindM_inv; destruct (tame_run _ _ _ _ _ _ Hm H1) as [Ha1 He].
  - left. exists a, s1. split_and!; [done|by eapply added_trans|done].
  - right. exists e. split_and!; [done|by apply He|by eapply added_trans].
Qed.

#[local] Ltac halts := left; eexists; split; [reflexivity|]; split; [assumption|]; eexists; split; eassumption.

Lemma moving_none l e : moving [] e → moving l e.
Proof.
  intros [?|H]; [by left|]. destruct e; try done. by destruct H as (c & ? & ? & ? & Hc%not_elem_of_nil & _).
Qed.

Lemma body_run state_fd active resumed d s r s' : resumed_body state state_fd active resumed d s = (r, s') →
  (∃ e, r = Err e ∧ stopped active s s' e) ∨
  (∃ res, completes active res (td_version d) s s' ∧
     (r = Ok res ∨ r = Err (committed_failure res) ∧ ∃ t n, kernel_fsync t (td_version d) = OSError n)).
Proof.
  unfold resumed_body. intros H. pose proof (added_refl (moving []) s) as A0.
  assert (in_force active []) as F0 by (by left).
  apply (step_run [] _ _ s) in H as [(? & s1 & _ & A1 & H)|(e & -> & He & A1)]; [|halts|apply neat_ours, neat_exact|done].
  apply (step_run [] _ _ s) in H as [([plan h] & s2 & [Hplan ->]%read_records_Ok & A2 & H)|(e & -> & He & A2)];
    [|halts|apply neat_ours, neat_read_records|done].
  set (l := pb_candidates (p_body plan)) in *. assert (in_force active l) as F1 by (right; by exists plan).
  assert (added (moving l) s s2) as A3.
  { eapply added_mono; [|exact A2]. apply moving_none. }
  clear A0 A1 A2.
  apply (step_run l _ _ s) in H as [(? & s3 & _ & A4 & H)|(e & -> & He & A4)]; [|halts|apply neat_ours, neat_clean|done].
  apply (step_run l _ _ s) in H as [(? & s4 & _ & A5 & H)|(e & -> & He & A5)]; [|halts|apply neat_ours, neat_clean|done].
  apply (step_run l _ _ s) in H as [(? & s5 & _ & A6 & H)|(e & -> & He & A6)]; [|halts|apply neat_ours, neat_subset|done].
  apply (step_run l _ _ s) in H as [(? & s6 & _ & A7 & H)|(e & -> & He & A7)];
    [|halts|apply neat_ours, neat_plan_identity|done].
  apply (step_run l _ _ s) in H as [(? & s7 & Hheld%move_pending_held & A8 & H)|(e & -> & He & A8)];
    [|halts|apply move_pending_moves|done].
  apply (step_run l _ _ s) in H as [(res & s8 & Hc & A9 & H)|(e & -> & He & A9)]; [|halts|apply complete_moves|done].
  apply complete_transaction_Ok in Hc as (Haudit & Hcommitted & Hresult); [|done].
  assert (∀ s', unfenced [] (td_version d) (moment s8) s8 s' → completes active res (td_version d) s s') as Hcompletes.
  { intros s9 (pre & post & t & E & H1 & H2 & H3 & H4). exists plan, (td_payload d), (moment s8). split_and!; try done.
    eapply unfenced_after; [exact A9|]. exists pre, post, t. split_and!; try done; try lia.
    eapply Forall_impl; [exact H1|]. intros e. apply moving_none. }
  apply bindM_inv in H as [(? & s9 & Hr & [= <- <-])|(e & Hr & ->)];
    apply remove_active_run in Hr as [(A10 & e' & Ee & He)|(Hu & Hr)]; try done.
  - right. exists res. split; [by apply Hcompletes|by left].
  - injection Ee as <-. left. exists e. split; [done|]. split; [by left|]. exists l. split; [done|].
    eapply added_trans; [exact A9|]. eapply added_mono; [|exact A10]. by left.
  - right. exists res. split; [by apply Hcompletes|]. right. by destruct Hr as [|[[= ->] ?]].
Qed.

Lemma resume_run state_fd active resumed s r s' : _resume_transaction state state_fd active resumed s = (r, s') →
  (∃ e, r = Err e ∧ stopped active s s' e) ∨
  (∃ res version, completes active res version s s' ∧
     (r = Ok res ∨ r = Err (committed_failure res) ∨ ∃ e, r = Err e ∧ unsynced version e)).
Proof.
  unfold _resume_transaction, with_transaction. intros H. apply bindM_inv in H as [(d & s1 & H1 & H)|(e & H1 & ->)];
    destruct (tame_run _ _ _ _ _ _ (neat_ours [] _ (neat_open_transaction _ _ _)) H1) as [Ha He]; cycle 1.
  { left. exists e. split; [done|]. split; [by apply He|]. exists []. split; [by left|done]. }
  apply leave_stack_run in H as (r0 & s2 & Hb & Hc & Hr). apply body_run in Hb as [(e & -> & Ho & l & Hl & Hb)|(res & Hb & Hr0)].
  - left. assert (added (moving l) s s') as Hall.
    { eapply added_trans; [eapply added_trans; [|exact Hb]|eapply added_mono; [|exact Hc]; by left].
      eapply added_mono; [|exact Ha]. apply moving_none. }
    destruct Hr as [->|[n ->]]; eexists; (split; [done|]); (split; [|by exists l]); [done|by left].
  - right. exists res, (td_version d). split.
    + destruct Hb as (plan & payload & from & H2 & H3 & H4 & H5 & H6). exists plan, payload, from. split_and!; try done.
      eapply unfenced_before; [|exact Hc]. eapply unfenced_after; [|exact H6]. eapply added_mono; [|exact Ha]. apply moving_none.
    + destruct Hr0 as [->|[-> Hf]], Hr as [->|[n ->]]; eauto. right. right. eexists. split; [done|]. split; [by exists n|done].
Qed.
End state.
End run.
