(* ===== verification/QuarantineOutcome.v ===== *)
(** * The outcomes of a quarantine under its lease (src/guildmind/storage/quarantine.py)

    [_run_with_exclusive_lease] does nothing, refuses, stops inside a transaction or
    completes it; and what a fresh plan covers. *)

From Stdlib Require Import Permutation.
From S2P Require Import Prelude Order Loop Effects PyStr Files Descriptors Disk Float64 Json Text Hash Datetime Fields Usage.
From S2P Require Import Models Sqlite EventStore Artifacts Integrity Coordinator Reports QuarantineRecords QuarantineFiles.
From S2P Require Import ArtifactFacts CoordinatorFacts Tame Maintenance Quarantine QuarantineTrace QuarantineMoves QuarantineRun.

Local Open Scope Z_scope.

Section outcome.
Context {kernel : Kernel} {disk : Disk} {world : World} {hashing : Hashing} {datetimes : PydanticDatetime}.
Context {parser : PydanticJson} {ledgers : Ledgers} {env : Environment}.
Context (state : path).

(** ** Reading and preparing are upkeep *)

Lemma neat_read_active fd : tame upkeep local_exn (_read_active fd).
Proof. unfold _read_active. solve_tame. Qed.
Lemma neat_active_exists fd : tame upkeep local_exn (_active_path_exists fd).
Proof.
  unfold _active_path_exists. apply tame_catch; [solve_tame|]. intros e k. destruct e; intros [= <-]; apply tame_ret.
Qed.
Lemma neat_leave_stack {A} stack on_exit (body : Sys A) : tame upkeep local_exn body →
  (∀ r n, (∀ e, r = Err e → local_exn e) → local_exn (on_exit r (OSException n))) →
  tame upkeep local_exn (leave_stack stack on_exit body).
Proof.
  intros Hb Hon. apply tame_intro. intros s r s' H. apply leave_stack_run in H as (r0 & s1 & H1 & Ha & Hr).
  destruct (tame_run _ _ _ _ _ _ Hb H1) as [Ha1 He]. split; [by eapply added_trans|].
  destruct Hr as [->|[n ->]]; [done|]. apply fails_Err. by apply Hon.
Qed.
Lemma neat_transaction {A} fd id create (body : transaction_directories → Sys A) :
  (∀ d, tame upkeep local_exn (body d)) → tame upkeep local_exn (with_transaction fd id create (λ _ e, e) body).
Proof.
  intros Hb. unfold with_transaction. apply tame_seq; [apply neat_open_transaction|intros d].
  by apply neat_leave_stack.
Qed.
Lemma neat_prepare fd before plan : tame upkeep local_exn (_prepare_transaction_records fd before plan).
Proof. unfold _prepare_transaction_records. apply neat_transaction. intros d. cbv zeta. solve_tame. Qed.
Lemma neat_publish_active fd active : tame upkeep local_exn (_publish_active fd active).
Proof. unfold _publish_active. apply neat_transaction. intros d. cbv zeta. solve_tame. Qed.

Lemma neat_from_finding fd f budget : tame upkeep local_exn (_candidate_from_finding fd f budget).
Proof. unfold _candidate_from_finding. cbv zeta. solve_tame. Qed.
Lemma neat_from_findings fd l budget : tame upkeep local_exn (candidates_from_findings fd l budget).
Proof.
  revert budget. induction l as [|f l IH]; intros budget; cbn [candidates_from_findings]; [apply tame_ret|].
  apply tame_seq; [apply neat_from_finding|intros [c b]]. apply tame_seq; [apply IH|intros cs; apply tame_ret].
Qed.
Lemma neat_observe_candidates fd i audit : tame upkeep local_exn (observe_candidates fd i audit).
Proof.
  unfold observe_candidates. apply neat_with; [solve_tame|intros artifact]. cbv zeta. solve_tame. apply neat_from_findings.
Qed.

Lemma upkeep_ours {A} (m : Sys A) : tame upkeep local_exn m → tame upkeep (ours state) m.
Proof. apply tame_mono; [done|apply local_ours]. Qed.
Lemma tame_plan_report fd report : tame upkeep (ours state) (plan_report state fd report).
Proof.
  unfold plan_report. apply tame_seq; [apply upkeep_ours, tame_lift, fails_quarantinable|intros _].
  destruct (artifact_audit report) as [audit|]; [|apply upkeep_ours, neat_protocol].
  destruct (ledger_snapshot report) as [snapshot|]; [|apply upkeep_ours, neat_protocol].
  do 3 (apply tame_seq; [apply upkeep_ours; solve_tame|intros ?]).
  do 2 (apply tame_seq; [apply upkeep_ours; solve_tame|intros ?]).
  apply tame_seq; [apply upkeep_ours, neat_observe_candidates|intros [cs root]].
  apply tame_seq; [apply ours_audit|intros repeated]. apply upkeep_ours. cbv zeta. solve_tame.
Qed.
Lemma tame_fresh fd : tame upkeep (ours state) (_prepare_fresh_plan state fd).
Proof.
  unfold _prepare_fresh_plan. apply tame_seq; [apply ours_audit|intros report].
  destruct (_ && _); [apply upkeep_ours; solve_tame|]. apply tame_seq; [apply tame_plan_report|intros; apply tame_ret].
Qed.

(** ** What is reported *)

(** Exceptions that pass: a record that could not be encoded, and the audit's own. *)
Definition escaped (e : exn) : Prop := value_exn e ∨ (audit_raised state e ∧ ¬ local_exn e).

Lemma reported_ours raised e : ours state e → (∃ reason, reported raised e = raised reason) ∨ escaped (reported raised e).
Proof.
  intros He. unfold reported. destruct e; eauto; destruct (is_value_error _) eqn:Ev; eauto;
    right; (destruct He as [He|He]; [cbn [local_exn] in He; by rewrite Ev in He|right; split; [done|]]);
    cbn [local_exn]; by rewrite Ev.
Qed.

Definition refusal (e : exn) : Prop :=
  (∃ reason, e = QuarantineDeniedError reason) ∨ (∃ reason transaction, e = QuarantineIncompleteError reason transaction) ∨
  escaped e.

(** Nothing is to be done: the audit found nothing. *)
Definition nothing_to_do (res : QuarantineResult) : Prop :=
  qs_outcome res = NO_OP ∧ qs_quarantined_count res = 0 ∧ qs_transaction_id res = None ∧
  ∃ s s' audit, audit_storage state s = (Ok (qs_final_report res), s') ∧ clean (qs_final_report res) = true ∧
    artifact_audit (qs_final_report res) = Some audit ∧ findings audit = [].

Inductive outcome (s s' : sys) : result QuarantineResult → Prop :=
  | nothing_done res : added upkeep s s' → nothing_to_do res → outcome s s' (Ok res)
  | refused e : added upkeep s s' → refusal e → outcome s s' (Err e)
  | halted active l e : in_force active l → added (moving l) s s' →
      (∃ reason, e = QuarantineIncompleteError reason (Some (qa_transaction_id active))) ∨ escaped e → outcome s s' (Err e)
  | finished active res version r : completes state active res version s s' →
      (r = Ok res ∨ r = Err (committed_failure res) ∨
       (∃ reason, r = Err (QuarantineIncompleteError reason (Some (qa_transaction_id active)))) ∧
       ∃ t n, kernel_fsync t version = OSError n) → outcome s s' r.

Lemma local_cases e : local_exn e → (∃ reason, e = _ProtocolFailure reason) ∨ (∃ n, e = OSException n) ∨ value_exn e.
Proof. destruct e; try done; eauto. Qed.

Lemma tame_value_catch {A} (m : Sys A) h : tame upkeep local_exn m →
  (∀ reason, ∃ k, h (_ProtocolFailure reason) = Some k ∧ tame upkeep refusal k) →
  (∀ n, ∃ k, h (OSException n) = Some k ∧ tame upkeep refusal k) →
  (∀ e k, value_exn e → h e = Some k → tame upkeep refusal k) → tame upkeep refusal (catch m h).
Proof.
  intros Hm Hp Ho Hv. apply tame_intro. intros s r s'. unfold catch. destruct (m s) as [[a|e] s1] eqn:E;
    destruct (tame_run _ _ _ _ _ _ Hm E) as [Ha He]; [intros [= <- <-]; split; [done|apply fails_Ok]|].
  assert ((∃ k, h e = Some k ∧ tame upkeep refusal k) ∨ h e = None ∧ value_exn e) as [(k & -> & Hk)|[-> Hv1]].
  { destruct (local_cases e (He _ eq_refl)) as [[reason ->]|[[n ->]|Hve]]; [left; apply Hp|left; apply Ho|].
    destruct (h e) as [k|] eqn:Ek; [left; eauto|by right]. }
  - intros H. destruct (tame_run _ _ _ _ _ _ Hk H) as [? ?]. split; [by eapply added_trans|done].
  - intros [= <- <-]. split; [done|]. apply fails_Err. right. right. by left.
Qed.

Lemma tame_active_exists fd : tame upkeep refusal (_active_path_exists fd).
Proof.
  unfold _active_path_exists. apply tame_value_catch; [solve_tame|intros; by eexists; split; [|apply tame_ret]..|].
  intros e k _. destruct e; intros [= <-]; apply tame_ret.
Qed.
Lemma tame_fenced_or_denied {A} fd transaction reason : tame upkeep refusal (fenced_or_denied fd transaction reason : Sys A).
Proof.
  unfold fenced_or_denied. apply tame_seq; [apply tame_active_exists|]. intros b. apply tame_lift, fails_Err.
  unfold refusal. destruct b; eauto.
Qed.
Lemma refusal_escaped {A} (m : Sys A) : tame upkeep escaped m → tame upkeep refusal m.
Proof. apply tame_mono; [done|]. intros e. by right; right. Qed.

(** An outcome after some upkeep. *)
Lemma outcome_after s s1 s' r : added upkeep s s1 → outcome s1 s' r → outcome s s' r.
Proof.
  intros Ha H. destruct H as [res Hu Hn|e Hu He|active l e Hl Hu He|active res version r Hc Hr].
  - apply nothing_done; [by eapply added_trans|done].
  - apply refused; [by eapply added_trans|done].
  - eapply halted; [exact Hl| |exact He]. eapply added_trans; [|exact Hu]. eapply added_mono; [|exact Ha]. by left.
  - eapply finished; [|exact Hr]. destruct Hc as (plan & payload & from & ? & ? & ? & ? & Hu).
    exists plan, payload, from. split_and!; try done. eapply unfenced_after; [|exact Hu]. eapply added_mono; [|exact Ha]. by left.
Qed.
Lemma outcome_bind {A} (m : Sys A) f s r s' : (m ≫= f) s = (r, s') → tame upkeep refusal m →
  (∀ a s1, m s = (Ok a, s1) → f a s1 = (r, s') → outcome s1 s' r) → outcome s s' r.
Proof.
  intros [(a & s1 & H1 & H2)|(e & H1 & ->)]%bindM_inv Hm Hf; destruct (tame_run _ _ _ _ _ _ Hm H1) as [Ha He].
  - eapply outcome_after; [exact Ha|]. by eapply Hf.
  - apply refused; [done|by apply He].
Qed.

Lemma resume_outcome fd active resumed s r s' :
  exceptM (reported (λ reason, QuarantineIncompleteError reason (Some (qa_transaction_id active))))
    (_resume_transaction state fd active resumed) s = (r, s') → outcome s s' r.
Proof.
  unfold exceptM. destruct (_resume_transaction _ _ _ _ s) as [r0 s1] eqn:E. intros H.
  apply resume_run in E as [(e & -> & Ho & l & Hl & Ha)|(res & version & Hc & Hr)].
  - injection H as <- <-. by eapply halted, reported_ours.
  - destruct Hr as [->|[->|(e & -> & [n ->] & Hf)]]; injection H as <- <-; (eapply finished; [exact Hc|]); eauto 6.
Qed.

Lemma check_active_id id plan before active :
  check_active {| qa_transaction_id := id; qa_plan_sha256 := plan; qa_before_sha256 := before |} = Ok active →
  qa_transaction_id active = id.
Proof. unfold check_active. intros H. by inv_ok. Qed.

Lemma fresh_nothing fd s res s' : _prepare_fresh_plan state fd s = (Ok (inl res), s') → nothing_to_do res.
Proof.
  unfold _prepare_fresh_plan. intros H. apply bindM_Ok in H as (report & s1 & Ha & H).
  destruct (clean report && _) eqn:Hc; [|by apply bindM_Ok in H as (? & ? & _ & [[=] _]%retM_Ok)].
  apply andb_true_iff in Hc as [Hclean Hf]. destruct (artifact_audit report) as [audit|] eqn:Hr; [|done].
  apply bool_decide_eq_true in Hf. apply bindM_Ok in H as (res' & s2 & [Hres _]%lift_Ok & [[= ->] _]%retM_Ok).
  unfold check_result in Hres. inv_ok. split_and!; [done..|]. by exists s, s1, audit.
Qed.

Lemma run_outcome fd s r s' : _run_with_exclusive_lease state fd s = (r, s') → outcome s s' r.
Proof.
  unfold _run_with_exclusive_lease. intros H. apply (outcome_bind _ _ _ _ _ H); clear H.
  { apply tame_value_catch; [apply neat_read_active|intros; eexists; split; [done|apply tame_fenced_or_denied]..|].
    intros e k. destruct e; intros Hv [= <-]; apply tame_fenced_or_denied. }
  intros [active|] s1 _ H; [by eapply resume_outcome|].
  apply (outcome_bind _ _ _ _ _ H); clear H.
  { apply tame_intro. intros s2 r2 s3. unfold exceptM. destruct (_prepare_fresh_plan _ _ s2) as [r3 s4] eqn:E.
    destruct (tame_run _ _ _ _ _ _ (tame_fresh fd) E) as [Ha He].
    destruct r3 as [a|e]; intros [= <- <-]; (split; [done|]); [apply fails_Ok|]. apply fails_Err.
    destruct (reported_ours QuarantineDeniedError e (He _ eq_refl)) as [[reason ->]|?]; [left; eauto|by right; right]. }
  intros [res|[before plan]] s2 Hp H.
  - injection H as <- <-. apply nothing_done; [apply added_refl|]. apply exceptM_Ok in Hp. by eapply fresh_nothing.
  - apply (outcome_bind _ _ _ _ _ H); clear H.
    { apply refusal_escaped, tame_lift. eapply fails_mono; [|apply fails_canonical_sha256]. by left. }
    intros plan_sha256 s3 _ H. apply (outcome_bind _ _ _ _ _ H); clear H.
    { apply refusal_escaped, tame_lift. eapply (fails_mono value_exn); [by left|]. unfold check_active. by solve_fails. }
    intros active s4 [Hactive _]%lift_Ok H. apply (outcome_bind _ _ _ _ _ H); clear H.
    { apply tame_value_catch; [apply tame_seq; [apply neat_prepare|intros _; apply neat_publish_active]|..].
      - intros reason. eexists. split; [done|]. apply tame_fenced_or_denied.
      - intros n. eexists. split; [done|]. apply tame_fenced_or_denied.
      - intros e k _ [= <-]. apply tame_fenced_or_denied. }
    intros _ s5 _ H. rewrite <- (check_active_id _ _ _ _ Hactive) in H. by eapply resume_outcome.
Qed.

(** ** A fresh plan *)

(** The candidate was seen where the plan says, as the plan says. *)
Definition on_disk (until : nat) (c : QuarantineCandidate) : Prop := ∃ parent from to,
  seen parent (List.last (posix_parts (cb_source_relative_path (c_body c))) "") (cb_source_identity (c_body c))
    (cb_content_sha256 (c_body c)) from to ∧ (to ≤ until)%nat.

Lemma on_disk_later t t' c : on_disk t c → (t ≤ t')%nat → on_disk t' c.
Proof. intros (parent & from & to & ? & ?) ?. exists parent, from, to. split; [done|lia]. Qed.

Lemma from_finding_Ok fd f budget s c rest s' : _candidate_from_finding fd f budget s = (Ok (c, rest), s') →
  cb_finding (c_body c) = f ∧ valid_candidate c ∧ on_disk (moment s') c.
Proof.
  unfold _candidate_from_finding. cbv zeta. intros H. apply bindM_Ok in H as (? & ? & _ & H).
  apply bindM_Ok in H as ([[i h] rest'] & s1 & Ho & H). apply bindM_Ok in H as (body & ? & [Hb ->]%lift_Ok & H).
  apply bindM_Ok in H as (id & ? & [Hid ->]%lift_Ok & H). apply bindM_Ok in H as (c' & ? & [Hc ->]%lift_Ok & H).
  apply retM_Ok in H as [[= -> ->] ->]. destruct (check_candidate_Ok _ _ Hc) as [-> ?], (check_body_Ok _ _ Hb) as [-> ?].
  cbn. split_and!; [done|done|]. unfold _observe_candidate in Ho. apply bindM_Ok in Ho as ([[i' h'] r'] & s2 & H1 & H2).
  do 2 (apply bindM_Ok in H2 as (? & ? & [_ ->]%demand_Ok & H2)). apply retM_Ok in H2 as [[= -> -> ->] ->].
  apply candidate_parent_Ok in H1 as (parent & s3 & s4 & H1 & T). apply observed_leaf in H1. by exists parent, (moment s3), (moment s4).
Qed.
Lemma from_findings_Ok fd l budget s cs s' : candidates_from_findings fd l budget s = (Ok cs, s') →
  (λ c, cb_finding (c_body c)) <$> cs = l ∧ Forall valid_candidate cs ∧ Forall (on_disk (moment s')) cs.
Proof.
  revert budget s cs. induction l as [|f l IH]; intros budget s cs; cbn [candidates_from_findings].
  - by intros [-> _]%retM_Ok.
  - intros H. apply bindM_Ok in H as ([c b] & s1 & H1 & H). apply bindM_Ok in H as (cs' & s2 & H2 & [-> ->]%retM_Ok).
    pose proof (later _ _ _ _ (neat_from_findings _ _ _) H2). apply from_finding_Ok in H1 as (<- & ? & ?).
    apply IH in H2 as (<- & ? & ?). split_and!; [done|by constructor|]. constructor; [by eapply on_disk_later|done].
Qed.
Lemma observe_candidates_Ok fd i audit s cs root s' : observe_candidates fd i audit s = (Ok (cs, root), s') →
  (λ c, cb_finding (c_body c)) <$> cs ≡ₚ findings audit ∧ Forall valid_candidate cs ∧ Forall (on_disk (moment s')) cs.
Proof.
  unfold observe_candidates, with_descriptor. intros H. apply bindM_Ok in H as (artifact & s1 & _ & H).
  apply finally_Ok in H as (s2 & H & Hc). pose proof (later _ _ _ _ (neat_close _) Hc). cbv zeta in H.
  do 3 (apply bindM_Ok in H as (? & ? & _ & H)). apply bindM_Ok in H as (cs' & s3 & H1 & H).
  apply bindM_Ok in H as (? & ? & [_ ->]%demand_Ok & H). apply retM_Ok in H as [[= -> ->] ->].
  apply from_findings_Ok in H1 as (<- & ? & ?). rewrite (sort_by_perm candidate_id cs'). split_and!; [done|done|].
  eapply Forall_impl; [done|]. intros c ?. by eapply on_disk_later.
Qed.

(** What a plan made of a report covers. *)
Definition plan_covers (report : StorageIntegrityReport) (before : QuarantineBefore) (plan : QuarantinePlan) (until : nat) : Prop :=
  ∃ audit snapshot, artifact_audit report = Some audit ∧ ledger_snapshot report = Some snapshot ∧
    si_quarantine_allowed report = true ∧ before_report before = report ∧
    canonical_sha256 (dump_before before) = Ok (pb_before_sha256 (p_body plan)) ∧
    pb_ledger_snapshot_sha256 (p_body plan) = ls_snapshot_sha256 snapshot ∧
    _reachable_sha256 (reachable audit) = Ok (pb_reachable_sha256 (p_body plan)) ∧
    (λ c, cb_finding (c_body c)) <$> pb_candidates (p_body plan) ≡ₚ findings audit ∧
    Forall (on_disk until) (pb_candidates (p_body plan)).

Lemma plan_report_Ok fd report s before plan s' : plan_report state fd report s = (Ok (before, plan), s') →
  valid_plan plan ∧ ∃ sa sb again, audit_storage state sa = (Ok again, sb) ∧
    canonical_sha256 (dump_report again) = canonical_sha256 (dump_report report) ∧
    plan_covers report before plan (moment sa).
Proof.
  unfold plan_report. intros H. apply bindM_Ok in H as ([] & ? & [Hq ->]%lift_Ok & H). unfold _require_quarantinable in Hq.
  destruct (artifact_audit report) as [audit|] eqn:Ea; [|done]. inv_ok.
  destruct (ledger_snapshot report) as [snapshot|] eqn:Es; [|by apply lift_Ok in H as [[=] _]].
  do 5 (apply bindM_Ok in H as (? & ? & _ & H)).
  apply bindM_Ok in H as ([cs root] & s1 & (Hp & Hv & Hd)%observe_candidates_Ok & H).
  apply bindM_Ok in H as (again & s2 & Hagain & H). apply bindM_Ok in H as (a & ? & [Hx _]%lift_Ok & H).
  apply bindM_Ok in H as (b & ? & [Hy _]%lift_Ok & H). apply bindM_Ok in H as (? & ? & [E%String.eqb_eq _]%demand_Ok & H).
  do 2 (apply bindM_Ok in H as (? & ? & _ & H)). cbv zeta in H. apply bindM_Ok in H as (bs & ? & [Hz _]%lift_Ok & H).
  apply bindM_Ok in H as (reach & ? & [Hr _]%lift_Ok & H). apply bindM_Ok in H as (body & ? & [Hbody _]%lift_Ok & H).
  apply bindM_Ok in H as (id & ? & [Hid _]%lift_Ok & H). apply bindM_Ok in H as (plan' & ? & [Hplan _]%lift_Ok & H).
  apply retM_Ok in H as [[= -> ->] _]. destruct (check_plan_body_Ok _ _ Hbody) as [-> ?], (check_plan_Ok _ _ Hplan) as [-> ?].
  split; [done|]. exists s1, s2, again. split_and!; [done|congruence|]. by exists audit, snapshot.
Qed.
End outcome.
