(* ===== verification/QuarantineFacts.v ===== *)
(** * What [quarantine_orphans] guarantees (src/guildmind/storage/quarantine.py)

    However it ends, it moves nothing but planned orphans that it has just seen; what it
    returns or raises says whether the fence was removed; and what it returns as completed
    stands for an audited storage and durable records. *)

From Stdlib Require Import Permutation.
From S2P Require Import Prelude Order Loop Effects PyStr Files Descriptors Disk Float64 Json Text Hash Datetime Fields Usage.
From S2P Require Import Maintenance MaintenanceFacts.
From S2P Require Import Models Sqlite EventStore Artifacts Integrity Coordinator Reports QuarantineRecords QuarantineFiles.
From S2P Require Import ArtifactFacts CoordinatorFacts Tame AuditErrors Quarantine QuarantineTrace.
From S2P Require Import QuarantineMoves QuarantineRun QuarantineOutcome LeaseEffects.

Local Open Scope Z_scope.

Section facts.
Context {kernel : Kernel} {disk : Disk} {world : World} {hashing : Hashing} {datetimes : PydanticDatetime}.
Context {parser : PydanticJson} {ledgers : Ledgers} {env : Environment}.

(** ** From the lease to the protocol *)

Definition lease_denied : exn := QuarantineDeniedError (failure_value MAINTENANCE_DENIED).

(** What becomes of the outcome under the lease. *)
Definition surface (e : exn) : exn :=
  match e with
  | _CommittedFailure outcome transaction completion => QuarantineFinalizationError outcome transaction completion
  | _ => if is_lease_failure e then lease_denied else e
  end.
Definition surfaced (r0 r : result QuarantineResult) : Prop :=
  match r0 with
  | Ok res => r = Ok res ∨ r = Err (finalization res) ∨ ∃ msg, r = Err (AssertionError msg)
  | Err e => r = Err (surface e)
  end.

Lemma lease_exn_cases e : lease_exn e → is_lease_failure e = true ∨ ∃ msg, e = AssertionError msg.
Proof. destruct e; try done; eauto. Qed.

Definition on_exit_of (res : QuarantineResult) (e : exn) : exn := if is_lease_failure e then finalization res else e.
Lemma on_exit_surfaced res e : lease_exn e → surfaced (Ok res) (Err (surface (on_exit_of res e))).
Proof.
  intros [H|[msg ->]]%lease_exn_cases; unfold on_exit_of; [rewrite H; right; by left|right; right; by exists msg].
Qed.
Lemma exit_noted l p : ∃ p', __exit__ l true p = (Ok tt, p').
Proof. unfold __exit__, close_noted, catch. destruct (close l p) as [[[]|e] p1]; by eexists. Qed.

(** The return of the descriptor never raises: what it found is handed on. *)
Lemma return_returns l held fd p : ∃ o p', return_descriptor l held fd p = (Ok o, p').
Proof.
  unfold return_descriptor. destruct (reset_owned p) as (p1 & H1 & _). unfold mbind, eff_bind. rewrite H1. cbn.
  destruct (bool_decide _); cbn; [|by eexists _, _]. unfold on_os, os_fstat, system. cbn.
  destruct (kernel_fstat _ fd) as [m|n]; cbn; [|by eexists _, _]. destruct (negb _); cbn; by eexists _, _.
Qed.

(** A part of the way to the protocol, or its end. *)
Lemma gentle_step {A B} (m : P A) (f : A → P B) s0 p r p' : gentle m → added leasing s0 (machine_of p) → (m ≫= f) p = (r, p') →
  (∃ a p1, m p = (Ok a, p1) ∧ added leasing s0 (machine_of p1) ∧ f a p1 = (r, p')) ∨
  (∃ e, r = Err e ∧ lease_exn e ∧ added leasing s0 (machine_of p')).
Proof.
  intros Hm Ha [(a & p1 & H1 & H2)|(e & H1 & ->)]%bindM_inv; destruct (Hm _ _ _ H1) as [Ha1 He].
  - left. exists a, p1. split_and!; [done|by eapply added_trans|done].
  - right. exists e. split_and!; [done|by apply He|by eapply added_trans].
Qed.

Lemma borrowed_run l (body : Z → Sys QuarantineResult) p r p' :
  borrowing l true on_exit_of (λ fd, on_os (body fd)) p = (r, p') →
  (∃ e, r = Err e ∧ lease_exn e ∧ added leasing (machine_of p) (machine_of p')) ∨
  (∃ fd s0 r0 s1, added leasing (machine_of p) s0 ∧ body fd s0 = (r0, s1) ∧ added leasing s1 (machine_of p') ∧
     (r = r0 ∨ ∃ res e, r0 = Ok res ∧ lease_exn e ∧ r = Err (on_exit_of res e))).
Proof.
  unfold borrowing. intros H. pose proof (added_refl leasing (machine_of p)) as A0.
  apply (gentle_step _ _ (machine_of p)) in H as [(fd & p1 & _ & A1 & H)|H]; [|by left|apply gentle_lend|done].
  apply (gentle_step _ _ (machine_of p)) in H as [(lease & p2 & _ & A2 & H)|H]; [|by left|apply gentle_lease|done].
  apply (gentle_step _ _ (machine_of p)) in H as [(held & p3 & _ & A3 & H)|H]; [|by left|apply gentle_held|done].
  right. unfold finally in H. destruct (on_os (body fd) p3) as [r0 p4] eqn:H4. apply on_os_inv in H4 as (s1 & H4 & ->).
  exists fd, (machine_of p3), r0, s1. split; [done|]. split; [done|]. set (p4 := _ : process) in H.
  destruct (return_returns l held fd p4) as (o & p5 & H5). destruct (finds_return l held fd) as [Hg Hf].
  destruct (Hg _ _ _ H5) as [A5 _]. unfold mbind, eff_bind in H. rewrite H5 in H.
  destruct r0 as [res|e0], o as [e|]; injection H as <- <-; (split; [exact A5|]); [|by left..].
  right. exists res, e. split_and!; [done|by eapply Hf|done].
Qed.

Lemma surface_lease e : lease_exn e → lease_exn (surface e) ∨ surface e = lease_denied.
Proof. destruct e; try done; first [by left|by right]. Qed.

Lemma orphans_run k state p r p' : quarantine_orphans k state p = (r, p') →
  (added leasing (machine_of p) (machine_of p') ∧ ∃ e, r = Err e ∧ (lease_exn e ∨ e = lease_denied)) ∨
  (∃ fd s0 r0 s1, added leasing (machine_of p) s0 ∧ _run_with_exclusive_lease state fd s0 = (r0, s1) ∧
     added leasing s1 (machine_of p') ∧ surfaced r0 r).
Proof.
  unfold quarantine_orphans. intros [(l & p1 & H1 & H)|(e & H1 & ->)]%bindM_inv.
  2:{ left. unfold exceptM in H1. destruct (acquire_exclusive k state p) as [[l|e0] p1] eqn:E; [done|].
      destruct (gentle_acquire _ _ _ _ _ _ E) as [A He]. injection H1 as <- <-. split; [done|].
      eexists. split; [done|]. pose proof (He _ eq_refl). destruct e0; try done; first [by left|by right]. }
  apply exceptM_Ok in H1. destruct (gentle_acquire _ _ _ _ _ _ H1) as [A1 _]. clear H1.
  change (exceptM surface (_ ← __enter__ l;
    finally (borrowing l true on_exit_of (λ state_fd, on_os (_run_with_exclusive_lease state state_fd)))
      (λ r, match r with Ok res => exceptM (on_exit_of res) (__exit__ l false) | Err _ => __exit__ l true end)) p1 = (r, p')) in H.
  unfold exceptM at 1 in H. destruct ((__enter__ l ≫= _) p1) as [r1 p2] eqn:E.
  assert (p' = p2 ∧ r = match r1 with Ok a => Ok a | Err e => Err (surface e) end) as [-> ->] by (destruct r1; by injection H).
  clear H. apply (gentle_step _ _ (machine_of p)) in E as [(? & p3 & _ & A3 & E)|(e & -> & He & A3)];
    [|left; split; [done|]; eexists; split; [done|by apply surface_lease]|apply gentle_enter|done].
  unfold finally in E. destruct (borrowing _ _ _ _ p3) as [r2 p4] eqn:E4. apply borrowed_run in E4 as
    [(e & -> & He & A4)|(fd & s0 & r0 & s1 & A4 & Hrun & A5 & Hr)].
  - left. destruct (exit_noted l p4) as [p5 E5]. destruct (gentle_exit _ _ _ _ _ E5) as [A5 _].
    rewrite E5 in E. injection E as <- <-. split; [exact (added_trans _ _ _ _ A3 (added_trans _ _ _ _ A4 A5))|]. eexists. split; [done|].
    by apply surface_lease.
  - right. exists fd, s0, r0, s1. split; [exact (added_trans _ _ _ _ A3 A4)|]. split; [done|]. destruct r2 as [res|e2].
    + destruct (exceptM (on_exit_of res) (__exit__ l false) p4) as [re p5] eqn:E5. unfold exceptM in E5.
      destruct (__exit__ l false p4) as [rx px] eqn:Ex. destruct (gentle_exit _ _ _ _ _ Ex) as [A6 He6].
      assert (r0 = Ok res) as -> by (by destruct Hr as [<-|(res' & e & ? & ? & ?)]).
      destruct rx as [[]|ex]; injection E5 as <- <-; injection E as <- <-; (split; [by eapply added_trans|]); [by left|].
      by apply on_exit_surfaced, He6.
    + destruct (exit_noted l p4) as [p5 E5]. destruct (gentle_exit _ _ _ _ _ E5) as [A6 _].
      rewrite E5 in E. injection E as <- <-. split; [by eapply added_trans|].
      destruct Hr as [<-|(res & e & -> & He & [= ->])]; [done|]. by apply on_exit_surfaced.
Qed.
(** ** What was done *)

(** Effects of leases and of upkeep. *)
Definition working (e : effect) : Prop := leasing e ∨ upkeep e.
(** The removal of the fence. *)
Definition unfences (e : effect) : Prop := match e with UnlinkAt _ name => name = _ACTIVE_NAME | _ => False end.
(** What may be done at all. *)
Definition permitted (e : effect) : Prop :=
  working e ∨ unfences e ∨ ∃ c, valid_candidate c ∧ is_actionable (cb_finding (c_body c)) = true ∧ moves [c] e.

Definition did (P : effect → Prop) (s s' : sys) : Prop := ∃ new, effects s' = effects s ++ new ∧ Forall P new.

Lemma did_trans P s1 s2 s3 : did P s1 s2 → did P s2 s3 → did P s1 s3.
Proof.
  intros (n1 & E1 & ?) (n2 & E2 & ?). exists (n1 ++ n2). rewrite E2, E1, app_assoc. split; [done|]. by apply Forall_app.
Qed.
Lemma added_did (P Q : effect → Prop) s s' : (∀ e, P e → Q e) → added P s s' → did Q s s'.
Proof. intros H (_ & new & E & Hn). exists new. split; [done|]. by eapply Forall_impl. Qed.
Lemma around P s0 s1 s2 s3 : (∀ e, leasing e → P e) → added leasing s0 s1 → did P s1 s2 → added leasing s2 s3 → did P s0 s3.
Proof.
  intros H A1 A2 A3. eapply did_trans; [by eapply added_did|]. eapply did_trans; [exact A2|]. by eapply added_did.
Qed.

Lemma upkeep_fenced e : upkeep e → ¬ unfences e.
Proof.
  destruct e; cbn [upkeep unfences]; try (intros _; exact id). intros [H|(stem & token & H)] ->; [by vm_compute in H|].
  unfold temporary_of in H. by injection H.
Qed.
Lemma leasing_fenced e : leasing e → ¬ unfences e.
Proof. destruct e; cbn; tauto. Qed.
Lemma moving_fenced l e : moving l e → ¬ unfences e.
Proof. intros [H|H]; [by apply upkeep_fenced|destruct e; cbn in *; tauto]. Qed.

Lemma in_force_valid active l c : in_force active l → c ∈ l → valid_candidate c.
Proof.
  intros [->|(plan & (Hv & _) & ->)] Hc; [by apply not_elem_of_nil in Hc|].
  destruct Hv as (_ & _ & Hall). by eapply Forall_forall in Hall.
Qed.
Lemma valid_actionable c : valid_candidate c → is_actionable (cb_finding (c_body c)) = true.
Proof. intros [_ H]. unfold check_candidate_body in H. by inv_ok. Qed.
Lemma moving_permitted active l e : in_force active l → moving l e → permitted e.
Proof.
  intros Hl [H|H]; [left; by right|]. right. right. destruct e; try done. destruct H as (c & t0 & t1 & t2 & Hc & H).
  exists c. pose proof (in_force_valid _ _ _ Hl Hc) as Hv. split_and!; [done|by apply valid_actionable|].
  exists c, t0, t1, t2. split; [left|done].
Qed.
Lemma unfenced_permitted active l version from s s' : in_force active l → unfenced l version from s s' → did permitted s s'.
Proof.
  intros Hl (pre & post & t & E & H1 & H2 & _). eexists. split; [exact E|].
  apply Forall_app. split; [eapply Forall_impl; [exact H1|]; intros e; by eapply moving_permitted|].
  constructor; [right; by left|]. eapply Forall_impl; [exact H2|]. intros e He. left. by right.
Qed.
Lemma outcome_permitted state s s' r : outcome state s s' r → did permitted s s'.
Proof.
  intros [res Hu _|e Hu _|active l e Hl Hu _|active res version r0 (plan & payload & from & Hp & _ & _ & _ & Hu) _].
  - eapply added_did; [|exact Hu]. intros e. left. by right.
  - eapply added_did; [|exact Hu]. intros e'. left. by right.
  - eapply added_did; [|exact Hu]. intros e'. by eapply moving_permitted.
  - eapply unfenced_permitted; [|exact Hu]. right. by exists plan.
Qed.

(** C9. Whatever becomes of a quarantine, each effect it had on the disk is the work of its
    lease, the upkeep of its own records, the removal of ACTIVE, or the rename of a valid
    candidate (an ownerless orphan on a canonical path) whose entry was just before seen to
    be the very file that was planned, with the content that was planned. *)
Theorem quarantine_moves_only_seen_orphans k state p r p' : quarantine_orphans k state p = (r, p') →
  ∃ new, effects (machine_of p') = effects (machine_of p) ++ new ∧ Forall permitted new.
Proof.
  intros [(A & _)|(fd & s0 & r0 & s1 & A1 & Hrun%run_outcome%outcome_permitted & A2 & _)]%orphans_run.
  - eapply (added_did _ permitted), A. intros e. left. by left.
  - eapply around; [|done..]. intros e. left. by left.
Qed.

(** ** What a completed quarantine stands for *)

(** Two reports of one ledger and of the same reachable artifacts. *)
Definition same_evidence (r1 r2 : StorageIntegrityReport) : Prop := ∃ l1 l2 a1 a2 reach,
  ledger_snapshot r1 = Some l1 ∧ ledger_snapshot r2 = Some l2 ∧ ls_snapshot_sha256 l1 = ls_snapshot_sha256 l2 ∧
  artifact_audit r1 = Some a1 ∧ artifact_audit r2 = Some a2 ∧
  _reachable_sha256 (reachable a1) = Ok reach ∧ _reachable_sha256 (reachable a2) = Ok reach.

(** A clean report: nothing but what runs refer to is left. *)
Definition nothing_left (r : StorageIntegrityReport) : Prop :=
  clean r = true ∧ ∃ audit, artifact_audit r = Some audit ∧ findings audit = [].

Lemma before_matches_Ok before plan : _require_before_matches_plan before plan = Ok tt → ∃ snapshot audit,
  ledger_snapshot (before_report before) = Some snapshot ∧ artifact_audit (before_report before) = Some audit ∧
  ls_snapshot_sha256 snapshot = pb_ledger_snapshot_sha256 (p_body plan) ∧
  _reachable_sha256 (reachable audit) = Ok (pb_reachable_sha256 (p_body plan)).
Proof.
  unfold _require_before_matches_plan. cbv zeta. intros H. inv_ok. destruct (ledger_snapshot _) as [snapshot|]; [|done].
  destruct (artifact_audit _) as [audit|]; [|done]. inv_ok.
  repeat match goal with X : str_eqb _ _ = true |- _ => apply String.eqb_eq in X end. exists snapshot, audit.
  split_and!; [done..|congruence].
Qed.
Lemma final_report_Ok plan report : _require_final_report plan report = Ok tt → nothing_left report ∧ ∃ snapshot audit,
  ledger_snapshot report = Some snapshot ∧ artifact_audit report = Some audit ∧
  ls_snapshot_sha256 snapshot = pb_ledger_snapshot_sha256 (p_body plan) ∧
  _reachable_sha256 (reachable audit) = Ok (pb_reachable_sha256 (p_body plan)).
Proof.
  unfold _require_final_report, _require_report_graph. intros H. inv_ok. destruct (si_quarantine_allowed report); [|done].
  destruct (ledger_snapshot report) as [snapshot|]; [|done]. destruct (artifact_audit report) as [audit|] eqn:Ea; [|done].
  inv_ok. split_andb. repeat match goal with X : str_eqb _ _ = true |- _ => apply String.eqb_eq in X end.
  split; [split; [done|by exists audit]|]. exists snapshot, audit. split_and!; [done..|congruence].
Qed.
Lemma final_same_evidence active plan report : planned active plan → _require_final_report plan report = Ok tt →
  nothing_left report ∧ ∃ before, canonical_sha256 (dump_before before) = Ok (qa_before_sha256 active) ∧
    same_evidence (before_report before) report.
Proof.
  intros (_ & _ & _ & _ & before & Hb & (l1 & a1 & E1 & E2 & E3 & E4)%before_matches_Ok)
    (Hn & l2 & a2 & F1 & F2 & F3 & F4)%final_report_Ok.
  split; [done|]. exists before. split; [done|]. exists l1, l2, a1, a2, (pb_reachable_sha256 (p_body plan)).
  split_and!; [done|done|congruence|done..].
Qed.

(** The fence was removed once, after a moment. *)
Definition unfenced_once (from : nat) (s s' : sys) : Prop := ∃ pre version post t,
  effects s' = effects s ++ pre ++ UnlinkAt version _ACTIVE_NAME :: post ∧ Forall (λ e, ¬ unfences e) (pre ++ post) ∧
  disk_unlink t version _ACTIVE_NAME = Done tt ∧ (from ≤ t)%nat.

Lemma unfenced_once_around l version from s0 s1 s2 s3 : added leasing s0 s1 → unfenced l version from s1 s2 → added leasing s2 s3 →
  unfenced_once from s0 s3.
Proof.
  intros (_ & n1 & E1 & H1) (pre & post & t & E2 & H2 & H3 & Hd & ? & _) (_ & n2 & E3 & H4).
  exists (n1 ++ pre), version, (post ++ n2), t. rewrite E3, E2, E1, <- !app_assoc. cbn. split_and!; try done.
  rewrite !Forall_app. split_and!; (eapply Forall_impl; [done|]); intros e; try apply leasing_fenced;
    [apply moving_fenced|apply upkeep_fenced].
Qed.

(** The records of a completed transaction, and what was seen before it was unfenced. *)
Definition completion (state : path) (active : QuarantineActive) (plan : QuarantinePlan) (res : QuarantineResult) (until : nat)
    : Prop :=
  planned active plan ∧ result_of plan res ∧ committed_to plan (qa_plan_sha256 active) res ∧
  nothing_left (qs_final_report res) ∧
  (∃ before, canonical_sha256 (dump_before before) = Ok (qa_before_sha256 active) ∧
     same_evidence (before_report before) (qs_final_report res)) ∧
  ∃ payload s s', audit_storage state s = (Ok (qs_final_report res), s') ∧ (moment s' ≤ until)%nat ∧
    Forall (held payload (moment s)) (pb_candidates (p_body plan)).

Lemma completes_completion state active res version s0 s1 s2 s3 : added leasing s0 s1 →
  completes state active res version s1 s2 → added leasing s2 s3 →
  ∃ plan until, completion state active plan res until ∧ unfenced_once until s0 s3.
Proof.
  intros A1 (plan & payload & until & Hp & (sa & sb & Ha & Ht & Hh & Hf) & Hc & Hr & Hu) A2. exists plan, until.
  split; [|by eapply unfenced_once_around]. destruct (final_same_evidence _ _ _ Hp Hf) as [? ?].
  split_and!; try done. by exists payload, sa, sb.
Qed.

(** C10. A quarantine that returns has either found nothing to do in a clean storage and
    touched nothing but its own lease and leftovers; or it removed ACTIVE, once, after every
    candidate of the plan that ACTIVE commits to was seen in the payload, the same file with
    the same content, and an audit found the ledger and the reachable artifacts that the
    BEFORE report had and no orphan left.  Its completion digest commits to the plan, to the
    BEFORE and AFTER reports and to one receipt for each candidate. *)
Theorem completed_quarantine_stands_for_evidence k state p res p' : quarantine_orphans k state p = (Ok res, p') →
  (nothing_to_do state res ∧ did working (machine_of p) (machine_of p')) ∨
  (∃ active plan until, completion state active plan res until ∧ unfenced_once until (machine_of p) (machine_of p')).
Proof.
  intros [(_ & e & [=] & _)|(fd & s0 & r0 & s1 & A1 & Hrun%run_outcome & A2 & Hs)]%orphans_run.
  destruct Hrun as [res' Hu Hn|e Hu He|active l e Hl Hu He|active res' version r0 Hc Hr]; cbn in Hs; try done.
  - left. destruct Hs as [[= ->]|[[=]|[? [=]]]]. split; [done|]. eapply around; [by left|done| |done].
    eapply added_did; [|exact Hu]. by right.
  - right. assert (r0 = Ok res') as ->.
    { destruct Hr as [->|[->|[[reason ->] _]]]; [done|by cbn in Hs..]. }
    destruct Hs as [[= ->]|[[=]|[? [=]]]]. exists active. by eapply completes_completion.
Qed.

(** ** What an exception says *)

(** What the exceptions of the public operation say about the disk. *)
Definition says (state : path) (s s' : sys) (e : exn) : Prop :=
  match e with
  | QuarantineDeniedError _ => did working s s'
  | QuarantineIncompleteError _ _ =>
      did (λ e, ¬ unfences e) s s' ∨
      ∃ active plan res until t version n, completion state active plan res until ∧ unfenced_once until s s' ∧
        kernel_fsync t version = OSError n
  | QuarantineFinalizationError outcome transaction digest => ∃ res,
      outcome = quarantine_outcome_value (qs_outcome res) ∧ transaction = qs_transaction_id res ∧
      digest = qs_completion_sha256 res ∧
      ((nothing_to_do state res ∧ did working s s') ∨
       ∃ active plan until, completion state active plan res until ∧ unfenced_once until s s')
  | AssertionError _ =>
      did (λ e, ¬ unfences e) s s' ∨
      ∃ active plan res until, completion state active plan res until ∧ unfenced_once until s s'
  | _ => did (λ e, ¬ unfences e) s s'
  end.

Lemma working_fenced e : working e → ¬ unfences e.
Proof. intros [H|H]; [by apply leasing_fenced|by apply upkeep_fenced]. Qed.
Lemma did_working_fenced s s' : did working s s' → did (λ e, ¬ unfences e) s s'.
Proof. intros (new & E & H). exists new. split; [done|]. eapply Forall_impl; [exact H|apply working_fenced]. Qed.
Lemma lease_says state s s' e : lease_exn e ∨ e = lease_denied → added leasing s s' → says state s s' e.
Proof.
  intros H A. assert (did working s s') as Hw by (eapply added_did; [|exact A]; by left).
  pose proof (did_working_fenced _ _ Hw) as Hf. destruct H as [H| ->]; [|done]. destruct e; try done. by left.
Qed.
(** The result of the protocol, when giving up the lease fails. *)
Lemma finalization_says state s s' res :
  (nothing_to_do state res ∧ did working s s') ∨
    (∃ active plan until, completion state active plan res until ∧ unfenced_once until s s') →
  says state s s' (finalization res) ∧ ∀ msg, says state s s' (AssertionError msg).
Proof.
  intros H. split; [by exists res|]. intros msg. destruct H as [[_ H]|(active & plan & until & H)].
  - left. by apply did_working_fenced.
  - right. by exists active, plan, res, until.
Qed.

Section ordinary.
Context (Hledgers : ordinary_ledgers) (Hchecks : ordinary_checks).

(** An exception that is not of the protocol's own making passes as it is, and says that
    ACTIVE was not removed. *)
Lemma escaped_says state s s' e : escaped state e → did (λ e, ¬ unfences e) s s' → says state s s' (surface e).
Proof.
  intros He Hd. assert (∀ e, ordinary e → ¬ local_exn e ∨ value_exn e → says state s s' (surface e)) as Ho.
  { intros e0 H0 H1. destruct e0; try done. by destruct H1 as [H1|H1]; [destruct H1|]. }
  destruct He as [He|[(s1 & s2 & He) ?]]; apply Ho; [by destruct e|by right| |by left].
  by apply (calm_audit_storage Hledgers Hchecks) in He.
Qed.

(** C11. An exception of a quarantine says how far it came.  Denied: nothing was moved,
    recorded as moved or unfenced; there is only the upkeep of the lease and of leftovers.
    Incomplete: ACTIVE was not removed, or it was, after everything was moved and audited,
    but the removal could not be synced.  (The second case drops an authoritative result:
    a directory that cannot be closed replaces the failure that carries it.)  Finalization:
    the result it carries is as good as one that was returned.  Any other exception, of the
    lease or out of an audit: ACTIVE was not removed, unless the bound on waiting for the
    process failed after a completed quarantine.  It assumes of SQLite and the checks around
    the ledger that they do not raise exceptions of the protocol or of a lease. *)
Theorem quarantine_error_says_how_far k state p e p' : quarantine_orphans k state p = (Err e, p') →
  says state (machine_of p) (machine_of p') e.
Proof.
  intros [(A & e0 & [= <-] & He)|(fd & s0 & r0 & s1 & A1 & Hrun%run_outcome & A2 & Hs)]%orphans_run;
    [by apply lease_says|].
  assert (∀ res, (nothing_to_do state res ∧ did working (machine_of p) (machine_of p')) ∨
    (∃ active plan until, completion state active plan res until ∧ unfenced_once until (machine_of p) (machine_of p')) →
    surfaced (Ok res) (Err e) → says state (machine_of p) (machine_of p') e) as Hok.
  { intros res H%finalization_says [[=]|[[= ->]|[msg [= ->]]]]; apply H. }
  destruct Hrun as [res Hu Hn|e0 Hu He|active l e0 Hl Hu He|active res version r0 Hc Hr].
  - apply (Hok res); [|done]. left. split; [done|].
    eapply around; [by left|done| |done]. eapply added_did; [|exact Hu]. by right.
  - injection Hs as ->. assert (did working (machine_of p) (machine_of p')) as Hw.
    { eapply around; [by left|done| |done]. eapply added_did; [|exact Hu]. by right. }
    destruct He as [[reason ->]|[(reason & tx & ->)|He]]; [done|left; by apply did_working_fenced|].
    by apply escaped_says, did_working_fenced.
  - injection Hs as ->. assert (did (λ e, ¬ unfences e) (machine_of p) (machine_of p')) as Hw.
    { eapply around; [apply leasing_fenced|done| |done]. eapply added_did; [|exact Hu]. apply moving_fenced. }
    destruct He as [[reason ->]|He]; [by left|by apply escaped_says].
  - destruct (completes_completion _ _ _ _ _ _ _ _ A1 Hc A2) as (plan & until & H1 & H2).
    destruct Hr as [->|[->|[[reason ->] (t & n & Hf)]]].
    + apply (Hok res); [right; eauto|done].
    + injection Hs as ->. exists res. split_and!; [done..|]. right. eauto.
    + injection Hs as ->. right. by exists active, plan, res, until, t, version, n.
Qed.
End ordinary.

(** ** Fresh plans *)

(** C12. A fresh plan covers exactly what the audit found: its candidates are the audit's
    findings, each one seen on disk with the identity and the content it was planned with;
    it commits to the audited report, its ledger snapshot and its reachable artifacts; and a
    second audit, after the candidates were seen, gave the same report. *)
Theorem fresh_plan_covers_the_audit state fd s before plan s' :
  _prepare_fresh_plan state fd s = (Ok (inr (before, plan)), s') →
  added upkeep s s' ∧ valid_plan plan ∧ ∃ report s1 sa again sb,
    audit_storage state s = (Ok report, s1) ∧ audit_storage state sa = (Ok again, sb) ∧
    canonical_sha256 (dump_report again) = canonical_sha256 (dump_report report) ∧
    plan_covers report before plan (moment sa).
Proof.
  intros H. split; [by apply (tame_run _ _ _ _ _ _ (tame_fresh state fd) H)|]. unfold _prepare_fresh_plan in H.
  apply bindM_Ok in H as (report & s1 & Ha & H).
  destruct (clean report && _); [by apply bindM_Ok in H as (? & ? & _ & [[=] _]%retM_Ok)|].
  apply bindM_Ok in H as ([before' plan'] & s2 & (Hv & sa & sb & again & H1 & H2 & H3)%plan_report_Ok & [[= -> ->] _]%retM_Ok).
  split; [done|]. by exists report, s1, sa, again, sb.
Qed.
End facts.
