(* ===== verification/SampleQuarantine.v ===== *)
(** * A concrete quarantine

    A state directory with a database of one run and one temporary orphan, and the records
    of a transaction that was interrupted before its move: BEFORE, PLAN and ACTIVE.  What
    the kernel answers depends on the moment: the entries change where the transaction
    moves the orphan and publishes its records. *)

From Stdlib Require Import Ascii.
From S2P Require Import Prelude Order Loop Effects PyStr Files Descriptors Disk Float64 Json Text Hash Datetime Fields Usage.
From S2P Require Import Maintenance.
From S2P Require Import Models Replay SampleRun Sqlite EventStore SampleLedger Artifacts Integrity SampleStore Coordinator.
From S2P Require Import CoordinatorFacts AuditErrors Reports QuarantineRecords QuarantineFiles Tame Quarantine QuarantineTrace QuarantineMoves.
From S2P Require Import QuarantineRun QuarantineOutcome LeaseEffects QuarantineFacts.

Local Open Scope Z_scope.

#[export] Existing Instance constant_hashing.
#[export] Existing Instance sample_ledgers.

(** ** The objects of the state directory *)

Inductive node :=
  | Slash | State | Root | Base | Shard | Space | Version | Transactions | Transaction | Payload | Receipts
  | Database | Lock | Active | Before | Plan | Orphan | Receipt | After | Complete.
#[export] Instance node_eq_dec : EqDecision node.
Proof. solve_decision. Defined.

Definition nodes : list node :=
  [Slash; State; Root; Base; Shard; Space; Version; Transactions; Transaction; Payload; Receipts; Database; Lock; Active; Before;
   Plan; Orphan; Receipt; After; Complete].
Fixpoint position (n : node) (l : list node) : Z :=
  match l with [] => 0 | m :: l => if decide (n = m) then 0 else 1 + position n l end.
Definition inode (n : node) : Z := 1 + position n nodes.
Definition is_directory (n : node) : bool := inode n <=? 11.

(** A stat with the size of what can be read. *)
Definition node_stat (n : node) (size : Z) : stat_result :=
  {| st_kind := if is_directory n then Directory else Regular; st_perm := if is_directory n then 448 else 384;
     st_dev := 1; st_ino := inode n; st_nlink := 1; st_size := size; st_mtime_ns := 0; st_ctime_ns := 0 |}.

Definition orphan_file : string := ".artifact-a".
Definition orphan_path : string := "sha256/00/" +:+ orphan_file.

(** ** What the audits see *)

Definition artifact_directories : list (path * node) :=
  [([], Slash); (["state"], State); (["state"; "artifacts"], Root); (["state"; "artifacts"; "sha256"], Base);
   (["state"; "artifacts"; "sha256"; "00"], Shard)].
Definition orphan_place : path := ["state"; "artifacts"; "sha256"; "00"; orphan_file].

Definition paths_of (orphan : bool) : list (path * node) :=
  artifact_directories ++ (["state"; "runs.db"], Database) :: (if orphan then [(orphan_place, Orphan)] else []).
Definition path_stat (orphan : bool) (p : path) : option stat_result :=
  (λ q, node_stat q.2 0) <$> List.find (λ q, bool_decide (q.1 = p)) (paths_of orphan).
Definition path_entries (orphan : bool) (p : path) : list DirEntry :=
  omap (λ q, if bool_decide (removelast q.1 = p)
             then if bool_decide (q.1 = []) then None else Some {| de_name := Name (List.last q.1 ""); de_stat := Done (node_stat q.2 0) |} else None)
    (paths_of orphan).
Definition quarantine_tree (orphan : bool) : FileSystem :=
  {| lstat := λ p, match path_stat orphan p with Some m => Done m | None => OSError (Some ENOENT) end;
     scandir := λ p, {| entries := path_entries orphan p; scan_error := None |};
     open_file := λ _, OSError (Some ENOENT);
     resolve := λ _ p, Done p |}.

Abbreviation audit_of orphan := (audit_storage (world := frozen (quarantine_tree orphan)) ["state"] start).
Definition no_report : StorageIntegrityReport :=
  {| si_state := UNINITIALIZED; database_present := false; artifact_root_present := false; ledger_snapshot := None;
     artifact_audit := None; diagnostic := None; initialization_allowed := false; references_verified := false;
     read_allowed := false; mutation_allowed := false; si_quarantine_allowed := false; clean := false |}.
Definition report_of (orphan : bool) : StorageIntegrityReport :=
  match (audit_of orphan).1 with Ok r => r | Err _ => no_report end.

(** ** The records *)

Definition orphan_identity : QuarantineRecords.FileIdentity :=
  {| qf_device := 1; qf_inode := inode Orphan; qf_mode := 384; qf_link_count := 1; qf_size_bytes := 0; qf_mtime_ns := 0;
     qf_ctime_ns := 0 |}.
Definition orphan_finding : ArtifactFinding :=
  {| finding := fkey TEMP_ORPHAN orphan_path None None (Some 0) None None; owners := [] |}.
Definition orphan_candidate : QuarantineCandidate :=
  {| candidate_id := digest0;
     c_body := {| cb_finding := orphan_finding; cb_source_relative_path := orphan_path; cb_source_identity := orphan_identity;
                  cb_content_sha256 := digest0 |} |}.
Definition directory_of (n : node) : DirectoryIdentity := {| di_device := 1; di_inode := inode n |}.
Definition orphan_plan : QuarantinePlan :=
  {| qp_transaction_id := digest0;
     p_body := {| pb_before_sha256 := digest0; pb_ledger_snapshot_sha256 := digest0; pb_reachable_sha256 := digest0;
                  pb_state_identity := directory_of State; pb_database_identity := directory_of Database;
                  pb_artifact_root_identity := directory_of Root; pb_candidates := [orphan_candidate] |} |}.
Definition orphan_active : QuarantineActive :=
  {| qa_transaction_id := digest0; qa_plan_sha256 := digest0; qa_before_sha256 := digest0 |}.
Definition orphan_receipt : QuarantineReceipt :=
  {| qr_transaction_id := digest0; qr_plan_sha256 := digest0; qr_candidate_id := digest0;
     qr_source_relative_path := orphan_path; qr_destination_relative_path := destination_relative_path orphan_candidate;
     qr_content_sha256 := digest0; qr_size_bytes := 0; qr_device := 1; qr_inode := inode Orphan; qr_mode := 384;
     qr_mtime_ns := 0 |}.
Definition orphan_complete : QuarantineComplete :=
  {| qc_transaction_id := digest0; qc_plan_sha256 := digest0; qc_before_sha256 := digest0; qc_after_sha256 := digest0;
     qc_receipts := [{| rm_candidate_id := digest0; rm_receipt_sha256 := digest0 |}] |}.

Definition record_bytes (v : json) : list Byte.byte :=
  match canonical_json v with Ok text => utf8_encode text | Err _ => [] end.
Definition content (n : node) : list Byte.byte :=
  match n with
  | Active => record_bytes (dump_active orphan_active)
  | Before => record_bytes (dump_before {| before_report := report_of true |})
  | Plan => record_bytes (dump_plan orphan_plan)
  | Receipt => record_bytes (dump_receipt orphan_receipt)
  | After => record_bytes (dump_after {| af_transaction_id := digest0; after_report := report_of false |})
  | Complete => record_bytes (dump_complete orphan_complete)
  | _ => []
  end.
Definition metadata (n : node) : stat_result := node_stat n (Z.of_nat (length (content n))).

(** ** The kernel *)

(** What has been done: nothing, the move, the receipt, AFTER, COMPLETE; at which moments. *)
Definition milestones : list nat := [286; 308; 352; 380]%nat.
Definition phase (t : nat) : nat := length (List.filter (λ m, m <=? t)%nat milestones).

Definition children (k : nat) (n : node) : list (string * node) :=
  match n with
  | State => [("runs.db", Database); ("artifacts", Root); (_QUARANTINE_NAME, Space); (MAINTENANCE_LOCK_FILENAME, Lock)]
  | Root => [("sha256", Base)]
  | Base => [("00", Shard)]
  | Shard => if Nat.eqb k 0 then [(orphan_file, Orphan)] else []
  | Space => [(_VERSION_NAME, Version)]
  | Version => [(_TRANSACTIONS_NAME, Transactions); (_ACTIVE_NAME, Active)]
  | Transactions => [(digest0, Transaction)]
  | Transaction =>
      [(_BEFORE_NAME, Before); (_PLAN_NAME, Plan); (_PAYLOAD_NAME, Payload); (_RECEIPTS_NAME, Receipts)] ++
      (if (3 <=? k)%nat then [(_AFTER_NAME, After)] else []) ++ (if (4 <=? k)%nat then [(_COMPLETE_NAME, Complete)] else [])
  | Payload => if Nat.eqb k 0 then [] else [(digest0, Orphan)]
  | Receipts => if (2 <=? k)%nat then [(receipt_name digest0, Receipt)] else []
  | _ => []
  end.

(** A descriptor is the moment at which it was opened and the object. *)
Definition descriptor_of (t : nat) (n : node) : Z := 100 * Z.of_nat t + inode n.
Definition object_of (fd : Z) : node := default Slash (nodes !! Z.to_nat (fd mod 100 - 1)).
Definition opened_at (fd : Z) : nat := Z.to_nat (fd / 100).
Definition child (t : nat) (n : node) (name : string) : option node :=
  snd <$> List.find (λ c, str_eqb c.1 name) (children (phase t) n).
Definition found {A} (f : node → A) (o : option node) : os_result A :=
  match o with Some n => Done (f n) | None => OSError (Some ENOENT) end.

(** The record that is being written. *)
Definition in_progress (t : nat) : node := match phase t with 0%nat | 1%nat => Receipt | 2%nat => After | _ => Complete end.

Definition quarantine_kernel : Kernel :=
  {| kernel_open := λ t l _, match l with
                             | Rooted _ => Done (descriptor_of t State)
                             | At fd name => found (descriptor_of t) (child t (object_of fd) name)
                             end;
     kernel_create := λ t _ _, Done (descriptor_of t (in_progress t));
     kernel_dup := λ t fd, Done (descriptor_of t (object_of fd));
     kernel_close := λ _ _, Done tt;
     kernel_fstat := λ _ fd, Done (metadata (object_of fd));
     kernel_stat := λ t fd name, found metadata (child t (object_of fd) name);
     kernel_scan := λ t fd, {| entries := (λ c, {| de_name := Name c.1; de_stat := Done (metadata c.2) |}) <$>
                                            children (phase t) (object_of fd); scan_error := None |};
     kernel_fsync := λ _ _, Done tt; kernel_flock := λ _ _ _, Done tt; kernel_unlock := λ _ _, Done tt |}.

(** A file is read in one piece, two calls after it was opened; a rename may fail. *)
Definition quarantine_disk (renamed : os_result unit) : Disk :=
  {| disk_read := λ t fd _, Done (if Nat.eqb t (opened_at fd + 2) then content (object_of fd) else []);
     disk_write := λ _ _ data, Done (Z.of_nat (length data)); disk_mkdir := λ _ _ _, Done tt;
     disk_unlink := λ _ _ _, Done tt; disk_rename := λ _ _ _ _ _, renamed; disk_token := λ _, String.substring 0 32 digest0 |}.

Definition quarantine_world : World :=
  {| fs_at := λ t, quarantine_tree (Nat.eqb (phase t) 0); effect_at := λ _ _, OSError (Some EROFS) |}.

Abbreviation sample_quarantine renamed := (quarantine_orphans (kernel := quarantine_kernel) (disk := quarantine_disk renamed)
  (world := quarantine_world) 1 ["state"] (new_process start 7)).

(** ** What happens *)

#[local] Existing Instance quarantine_kernel.
#[local] Existing Instance quarantine_world.

(** What a run ended with. *)
Definition ended (r : result QuarantineResult) : option (QuarantineOutcome * Z * bool) + option string :=
  match r with
  | Ok res => inl (Some (qs_outcome res, qs_quarantined_count res, qs_resumed res))
  | Err (QuarantineIncompleteError reason _) => inr (Some reason)
  | Err _ => inr None
  end.
Definition is_move (e : effect) : bool := match e with RenameAt _ name _ _ => str_eqb name orphan_file | _ => false end.

Lemma sample_completed : ended (sample_quarantine (Done tt)).1 = inl (Some (COMPLETED, 1, true)) ∧
  length (List.filter is_move (effects (machine_of (sample_quarantine (Done tt)).2))) = 1%nat.
Proof. vm_compute. split; reflexivity. Qed.
Lemma sample_interrupted : ended (sample_quarantine (OSError (Some EXDEV))).1 = inr (Some "cross_device").
Proof. vm_compute. reflexivity. Qed.

(** The interrupted transaction is resumed, and its orphan moved. *)
Lemma quarantine_moves_only_seen_orphans_witness : ∃ new,
  effects (machine_of (sample_quarantine (Done tt)).2) = new ∧ length (List.filter is_move new) = 1%nat ∧
  Forall (permitted (disk := quarantine_disk (Done tt))) new.
Proof.
  destruct (quarantine_moves_only_seen_orphans (disk := quarantine_disk (Done tt)) 1 ["state"] (new_process start 7)
    (sample_quarantine (Done tt)).1 (sample_quarantine (Done tt)).2 (surjective_pairing _)) as (new & E & H).
  cbn [new_process machine_of start effects app] in E. exists new. split; [exact E|]. split; [|exact H].
  rewrite <- E. exact (proj2 sample_completed).
Defined.

(** The result that is returned. *)
Lemma completed_quarantine_stands_for_evidence_witness : ∃ res,
  (sample_quarantine (Done tt)).1 = Ok res ∧ qs_outcome res = COMPLETED ∧
  ∃ active plan until, completion (disk := quarantine_disk (Done tt)) ["state"] active plan res until ∧
    unfenced_once (disk := quarantine_disk (Done tt)) until start (machine_of (sample_quarantine (Done tt)).2).
Proof.
  pose proof (proj1 sample_completed) as Hr. destruct (sample_quarantine (Done tt)) as [[res|e] p'] eqn:E; cbn [fst snd] in *;
    [|destruct e; discriminate Hr]. cbn [ended] in Hr. injection Hr as Ho Hc Hs. exists res. split; [reflexivity|]. split; [exact Ho|].
  destruct (completed_quarantine_stands_for_evidence (disk := quarantine_disk (Done tt)) 1 ["state"] (new_process start 7) res p' E)
    as [[(Hn & _) _]|H]; [|exact H]. rewrite Ho in Hn. discriminate Hn.
Defined.

(** A rename across devices leaves the transaction fenced. *)
Lemma quarantine_error_says_how_far_witness : ∃ transaction,
  (sample_quarantine (OSError (Some EXDEV))).1 = Err (QuarantineIncompleteError "cross_device" transaction) ∧
  did (λ e, ¬ unfences e) start (machine_of (sample_quarantine (OSError (Some EXDEV))).2).
Proof.
  assert ordinary_ledgers as Hl by (intros t file base; exact (fails_Ok _ _)).
  assert ordinary_checks as Hc by (intros n; exact (fails_Ok _ _)).
  pose proof sample_interrupted as Hr. destruct (sample_quarantine (OSError (Some EXDEV))) as [[res|e] p'] eqn:E;
    cbn [fst snd] in *; [discriminate Hr|]. destruct e; try discriminate Hr. cbn [ended] in Hr. injection Hr as ->.
  eexists. split; [reflexivity|].
  destruct (quarantine_error_says_how_far (disk := quarantine_disk (OSError (Some EXDEV)))
    Hl Hc 1 ["state"] (new_process start 7) _ p' E)
    as [H|(active & plan & res & until & t & version & n & _ & _ & H)]; [exact H|discriminate H].
Defined.

(** The plan of the transaction, made afresh. *)
Abbreviation sample_plan := (_prepare_fresh_plan (disk := quarantine_disk (Done tt)) ["state"] (descriptor_of 0 State) start).
Definition planned_candidates (r : result (QuarantineResult + QuarantineBefore * QuarantinePlan)) : list string :=
  match r with Ok (inr (_, plan)) => (λ c, cb_source_relative_path (c_body c)) <$> pb_candidates (p_body plan) | _ => [] end.
Lemma sample_planned : planned_candidates sample_plan.1 = [orphan_path].
Proof. vm_compute. reflexivity. Qed.

Lemma fresh_plan_covers_the_audit_witness : ∃ before plan, sample_plan.1 = Ok (inr (before, plan)) ∧
  planned_candidates sample_plan.1 = [orphan_path] ∧
  valid_plan plan ∧ ∃ report until, plan_covers (disk := quarantine_disk (Done tt)) report before plan until.
Proof.
  pose proof sample_planned as Hr. destruct sample_plan as [[[res|[before plan]]|e] s'] eqn:E; cbn [fst snd] in *;
    [discriminate Hr| |discriminate Hr]. exists before, plan. split; [reflexivity|]. split; [exact Hr|].
  destruct (fresh_plan_covers_the_audit (disk := quarantine_disk (Done tt)) ["state"] _ _ _ _ _ E)
    as (_ & Hv & report & s1 & sa & again & sb & _ & _ & _ & H).
  split; [exact Hv|]. exists report, (moment sa). exact H.
Defined.
