(* ===== verification/Campaign.v ===== *)
(** * The records of a reliability campaign (src/guildmind/domain/campaign.py)

    The manifest with its full-factorial schedule, the evidence of one attempt, and the
    report whose aggregate claims are derived.  As in Models.v: [check_X] is the
    constructor, [dump_X] the JSON form, [validate_X] reads it. *)

From Stdlib Require Import Ascii.
From S2P Require Import Prelude Order PyStr Float64 Json Text Hash Datetime Fields Usage Models Reports.

Local Open Scope Z_scope.

(** ** Constraints *)

Definition is_campaign_edge (c : ascii) : bool := is_lower c || is_digit c.
Definition is_campaign_char (c : ascii) : bool := is_campaign_edge c || N.eqb (code c) 45.
Definition edges_ok (s : string) : bool :=
  match String.get 0 s, String.get (String.length s - 1) s with
  | Some a, Some b => is_campaign_edge a && is_campaign_edge b
  | _, _ => false
  end.
(** [CampaignId]: between 2 and 128 characters, no hyphen first or last *)
Definition is_campaign_id (s : string) : bool :=
  Nat.leb 2 (String.length s) && Nat.leb (String.length s) 128 && str_all is_campaign_char s && edges_ok s.
Definition c_campaign_id (s : string) : result string :=
  if is_campaign_id s then Ok s else invalid "string_pattern_mismatch".

Definition is_rate (f : float64) : bool := nonneg_valid f && fleb f (float_of_Z 1).
(** [CampaignRate] *)
Definition c_rate (f : float64) : result float64 := if is_rate f then Ok f else invalid "less_than_equal".

(** ** Enumerations *)

Inductive CampaignEvidenceTier := DEVELOPMENT | REFERENCE.
#[export] Instance evidence_tier_eq_dec : EqDecision CampaignEvidenceTier.
Proof. solve_decision. Defined.
Definition tier_value (t : CampaignEvidenceTier) : string :=
  match t with DEVELOPMENT => "development" | REFERENCE => "reference" end.

Inductive CampaignEvaluatorKind := LOCAL | CONTAINER.
#[export] Instance evaluator_kind_eq_dec : EqDecision CampaignEvaluatorKind.
Proof. solve_decision. Defined.
Definition evaluator_kind_value (k : CampaignEvaluatorKind) : string :=
  match k with LOCAL => "local" | CONTAINER => "container" end.

Inductive CampaignAttemptDisposition :=
  | EXPECTED | UNEXPECTED_RESULT | CAMPAIGN_INFRASTRUCTURE_ERROR | EVIDENCE_MISSING | EVIDENCE_RUN_SET_INVALID
  | EVIDENCE_NONTERMINAL | EVIDENCE_INVALID | POST_COMMIT_MAINTENANCE_ERROR.
#[export] Instance disposition_eq_dec : EqDecision CampaignAttemptDisposition.
Proof. solve_decision. Defined.
Definition disposition_value (d : CampaignAttemptDisposition) : string :=
  match d with
  | EXPECTED => "expected" | UNEXPECTED_RESULT => "unexpected_result"
  | CAMPAIGN_INFRASTRUCTURE_ERROR => "infrastructure_error" | EVIDENCE_MISSING => "evidence_missing"
  | EVIDENCE_RUN_SET_INVALID => "evidence_run_set_invalid" | EVIDENCE_NONTERMINAL => "evidence_nonterminal"
  | EVIDENCE_INVALID => "evidence_invalid" | POST_COMMIT_MAINTENANCE_ERROR => "post_commit_maintenance_error"
  end.
Definition all_dispositions : list CampaignAttemptDisposition :=
  [EXPECTED; UNEXPECTED_RESULT; CAMPAIGN_INFRASTRUCTURE_ERROR; EVIDENCE_MISSING; EVIDENCE_RUN_SET_INVALID;
   EVIDENCE_NONTERMINAL; EVIDENCE_INVALID; POST_COMMIT_MAINTENANCE_ERROR].

(** [disposition.is_infrastructure_error] *)
Definition is_infrastructure_error (d : CampaignAttemptDisposition) : bool :=
  negb (bool_decide (d ∈ [EXPECTED; UNEXPECTED_RESULT])).

(** ** The manifest *)

Record ReliabilityCampaignEvaluator := {
  ev_kind : CampaignEvaluatorKind;
  ev_evaluator_version : string;
  ev_environment_digest : string;
}.
Definition check_campaign_evaluator (e : ReliabilityCampaignEvaluator) : result ReliabilityCampaignEvaluator :=
  v ← c_nonempty (ev_evaluator_version e);
  d ← c_sha256_digest (ev_environment_digest e);
  Ok {| ev_kind := ev_kind e; ev_evaluator_version := v; ev_environment_digest := d |}.
Definition dump_campaign_evaluator (e : ReliabilityCampaignEvaluator) : json :=
  JObj [("kind", JStr (evaluator_kind_value (ev_kind e))); ("evaluator_version", JStr (ev_evaluator_version e));
        ("environment_digest", JStr (ev_environment_digest e))].
Definition validate_campaign_evaluator (v : json) : result ReliabilityCampaignEvaluator :=
  o ← v_model ["kind"; "evaluator_version"; "environment_digest"] v;
  kind ← field o "kind" (v_member evaluator_kind_value [LOCAL; CONTAINER]);
  version ← field o "evaluator_version" v_str;
  digest ← field o "environment_digest" v_str;
  check_campaign_evaluator {| ev_kind := kind; ev_evaluator_version := version; ev_environment_digest := digest |}.

(** [ReliabilityCampaignModel], of the only kind "scripted_patch" *)
Record ReliabilityCampaignModel := { cm_model_id : string }.
Definition check_campaign_model (m : ReliabilityCampaignModel) : result ReliabilityCampaignModel :=
  id ← c_nonempty (cm_model_id m); Ok {| cm_model_id := id |}.
Definition dump_campaign_model (m : ReliabilityCampaignModel) : json :=
  JObj [("kind", JStr "scripted_patch"); ("model_id", JStr (cm_model_id m))].
Definition validate_campaign_model (v : json) : result ReliabilityCampaignModel :=
  o ← v_model ["kind"; "model_id"] v;
  _ ← field_default o "kind" tt (v_literal "scripted_patch");
  id ← field o "model_id" v_str;
  check_campaign_model {| cm_model_id := id |}.

(** [PurePosixPath(value)]: whether it is absolute, its named parts, and [as_posix()] *)
Definition posix_absolute (value : string) : bool := startswith "/" value.
Definition posix_parts (value : string) : list string :=
  List.filter (λ part, negb (existsb (str_eqb part) [""; "."])) (split_char "/"%char value).
Definition posix_text (value : string) : string :=
  match posix_parts value with [] => "." | parts => join "/" parts end.

(** [_fixture_path_is_plain_relative_posix(value)] *)
Definition is_plain_relative_posix (value : string) : bool :=
  negb (contains "\" value || contains (String (chr 0) "") value) &&
  negb (posix_absolute value || bool_decide (posix_parts value = []) ||
        existsb (λ part, existsb (str_eqb part) [""; "."; ".."]) (posix_parts value) ||
        negb (str_eqb (posix_text value) value)).

(** [ReliabilityCampaignFixture]: it expects [RunStatus.SUCCEEDED] and "passed". *)
Record ReliabilityCampaignFixture := {
  fx_fixture_id : string;
  fx_fixture_path : string;
  fx_fixture_tree_sha256 : string;
  fx_solution_patch_sha256 : string;
}.
Definition expected_run_status (f : ReliabilityCampaignFixture) : RunStatus := SUCCEEDED.
Definition expected_evaluation_outcome (f : ReliabilityCampaignFixture) : string := "passed".
Definition check_campaign_fixture (f : ReliabilityCampaignFixture) : result ReliabilityCampaignFixture :=
  id ← c_campaign_id (fx_fixture_id f);
  p ← c_nonempty (fx_fixture_path f);
  _ ← require (is_plain_relative_posix p) (ValidationError "fixture_path must be a plain POSIX relative path");
  tree ← c_sha256 (fx_fixture_tree_sha256 f);
  patch ← c_sha256 (fx_solution_patch_sha256 f);
  Ok {| fx_fixture_id := id; fx_fixture_path := p; fx_fixture_tree_sha256 := tree; fx_solution_patch_sha256 := patch |}.
Definition dump_campaign_fixture (f : ReliabilityCampaignFixture) : json :=
  JObj [("fixture_id", JStr (fx_fixture_id f)); ("fixture_path", JStr (fx_fixture_path f));
        ("fixture_tree_sha256", JStr (fx_fixture_tree_sha256 f));
        ("solution_patch_sha256", JStr (fx_solution_patch_sha256 f));
        ("expected_run_status", JStr (status_value (expected_run_status f)));
        ("expected_evaluation_outcome", JStr (expected_evaluation_outcome f))].
Definition validate_campaign_fixture (v : json) : result ReliabilityCampaignFixture :=
  o ← v_model ["fixture_id"; "fixture_path"; "fixture_tree_sha256"; "solution_patch_sha256"; "expected_run_status";
               "expected_evaluation_outcome"] v;
  id ← field o "fixture_id" v_str;
  p ← field o "fixture_path" v_str;
  tree ← field o "fixture_tree_sha256" v_str;
  patch ← field o "solution_patch_sha256" v_str;
  _ ← field_default o "expected_run_status" tt (v_literal (status_value SUCCEEDED));
  _ ← field_default o "expected_evaluation_outcome" tt (v_literal "passed");
  check_campaign_fixture {| fx_fixture_id := id; fx_fixture_path := p; fx_fixture_tree_sha256 := tree;
                            fx_solution_patch_sha256 := patch |}.

Record ReliabilityCampaignAttempt := {
  at_attempt_id : string;
  at_fixture_id : string;
  at_round_index : Z;
  at_seed : Z;
}.
#[export] Instance campaign_attempt_eq_dec : EqDecision ReliabilityCampaignAttempt.
Proof. solve_decision. Defined.
Definition check_campaign_attempt (a : ReliabilityCampaignAttempt) : result ReliabilityCampaignAttempt :=
  id ← c_campaign_id (at_attempt_id a);
  fx ← c_campaign_id (at_fixture_id a);
  r ← c_nonneg (at_round_index a);
  s ← c_nonneg (at_seed a);
  Ok {| at_attempt_id := id; at_fixture_id := fx; at_round_index := r; at_seed := s |}.
Definition dump_campaign_attempt (a : ReliabilityCampaignAttempt) : json :=
  JObj [("attempt_id", JStr (at_attempt_id a)); ("fixture_id", JStr (at_fixture_id a));
        ("round_index", JInt (at_round_index a)); ("seed", JInt (at_seed a))].
Definition validate_campaign_attempt (v : json) : result ReliabilityCampaignAttempt :=
  o ← v_model ["attempt_id"; "fixture_id"; "round_index"; "seed"] v;
  id ← field o "attempt_id" v_str;
  fx ← field o "fixture_id" v_str;
  r ← field o "round_index" v_int;
  s ← field o "seed" v_int;
  check_campaign_attempt {| at_attempt_id := id; at_fixture_id := fx; at_round_index := r; at_seed := s |}.

Record ReliabilityCampaignManifest := {
  mf_campaign_id : string;
  mf_evidence_tier : CampaignEvidenceTier;
  mf_experiment_id : string;
  mf_candidate_id : string;
  mf_code_source_sha256 : string;
  mf_evaluator : ReliabilityCampaignEvaluator;
  mf_model : ReliabilityCampaignModel;
  mf_budget_limits : BudgetLimits;
  mf_rounds : Z;
  mf_maximum_infrastructure_error_rate : float64;
  mf_fixtures : list ReliabilityCampaignFixture;
  mf_attempts : list ReliabilityCampaignAttempt;
}.

(** Every fixture in every round, round by round. *)
Definition expected_bindings (m : ReliabilityCampaignManifest) : list (string * Z) :=
  round_index ← seqZ 0 (mf_rounds m); fixture_id ← fx_fixture_id <$> mf_fixtures m; [(fixture_id, round_index)].

Definition binding (a : ReliabilityCampaignAttempt) : string * Z := (at_fixture_id a, at_round_index a).

(** [_schedule_is_complete_unique_and_canonical] *)
Definition _schedule_is_complete_unique_and_canonical (m : ReliabilityCampaignManifest) : result unit :=
  let fixture_ids := fx_fixture_id <$> mf_fixtures m in
  _ ← require (bool_decide (fixture_ids = sorted_set id fixture_ids))
        (ValidationError "campaign fixtures must be unique and ordered by fixture_id");
  _ ← require (unique (fx_fixture_path <$> mf_fixtures m)) (ValidationError "campaign fixture paths must be unique");
  _ ← require (unique (at_attempt_id <$> mf_attempts m)) (ValidationError "campaign attempt IDs must be unique");
  _ ← require (bool_decide (binding <$> mf_attempts m = expected_bindings m))
        (ValidationError "campaign attempts must be the complete round-major fixture schedule");
  _ ← require (negb (bool_decide (mf_evidence_tier m = REFERENCE)) ||
               bool_decide (ev_kind (mf_evaluator m) = CONTAINER))
        (ValidationError "reference campaigns require the container evaluator");
  require (bool_decide (max_model_retries (mf_budget_limits m) = Some 0))
    (ValidationError "campaign attempt budgets must disable model retries").

(** [Field(min_length=1, max_length=...)] *)
Definition c_length {A} (bound : Z) (l : list A) : result (list A) :=
  if (0 <? Z.of_nat (length l)) && (Z.of_nat (length l) <=? bound) then Ok l else invalid "too_long".

Definition check_campaign_manifest (m : ReliabilityCampaignManifest) : result ReliabilityCampaignManifest :=
  id ← c_campaign_id (mf_campaign_id m);
  experiment ← c_campaign_id (mf_experiment_id m);
  candidate ← c_campaign_id (mf_candidate_id m);
  code_source ← c_sha256 (mf_code_source_sha256 m);
  evaluator ← check_campaign_evaluator (mf_evaluator m);
  model ← check_campaign_model (mf_model m);
  limits ← check_limits (mf_budget_limits m);
  rounds ← c_positive (mf_rounds m);
  rate ← c_rate (mf_maximum_infrastructure_error_rate m);
  fixtures ← mapR check_campaign_fixture (mf_fixtures m);
  fixtures ← c_length 100 fixtures;
  attempts ← mapR check_campaign_attempt (mf_attempts m);
  attempts ← c_length 10000 attempts;
  let m := {| mf_campaign_id := id; mf_evidence_tier := mf_evidence_tier m; mf_experiment_id := experiment;
              mf_candidate_id := candidate; mf_code_source_sha256 := code_source; mf_evaluator := evaluator;
              mf_model := model; mf_budget_limits := limits; mf_rounds := rounds;
              mf_maximum_infrastructure_error_rate := rate; mf_fixtures := fixtures; mf_attempts := attempts |} in
  _ ← _schedule_is_complete_unique_and_canonical m;
  Ok m.

Definition manifest_schema : string := "guildmind.reliability-campaign/v1".
Definition campaign_report_schema : string := "guildmind.reliability-campaign-report/v1".
Definition dump_campaign_manifest (m : ReliabilityCampaignManifest) : json :=
  JObj [("schema_version", JStr manifest_schema); ("report_schema_version", JStr campaign_report_schema);
        ("campaign_id", JStr (mf_campaign_id m)); ("evidence_tier", JStr (tier_value (mf_evidence_tier m)));
        ("experiment_id", JStr (mf_experiment_id m)); ("candidate_id", JStr (mf_candidate_id m));
        ("code_source_sha256", JStr (mf_code_source_sha256 m));
        ("evaluator", dump_campaign_evaluator (mf_evaluator m)); ("model", dump_campaign_model (mf_model m));
        ("budget_limits", dump_limits (mf_budget_limits m)); ("rounds", JInt (mf_rounds m)); ("retry_limit", JInt 0);
        ("maximum_infrastructure_error_rate", JFloat (mf_maximum_infrastructure_error_rate m));
        ("fixtures", JArr (dump_campaign_fixture <$> mf_fixtures m));
        ("attempts", JArr (dump_campaign_attempt <$> mf_attempts m))].

(** [Literal[0]] *)
Definition v_zero (v : json) : result unit :=
  match v with JInt 0 => Ok tt | _ => invalid "literal_error" end.

Definition campaign_manifest_keys : list string :=
  ["schema_version"; "report_schema_version"; "campaign_id"; "evidence_tier"; "experiment_id"; "candidate_id";
   "code_source_sha256"; "evaluator"; "model"; "budget_limits"; "rounds"; "retry_limit";
   "maximum_infrastructure_error_rate"; "fixtures"; "attempts"].
Definition validate_campaign_manifest (v : json) : result ReliabilityCampaignManifest :=
  o ← v_model campaign_manifest_keys v;
  _ ← v_tag o manifest_schema;
  _ ← field_default o "report_schema_version" tt (v_literal campaign_report_schema);
  id ← field o "campaign_id" v_str;
  tier ← field o "evidence_tier" (v_member tier_value [DEVELOPMENT; REFERENCE]);
  experiment ← field o "experiment_id" v_str;
  candidate ← field o "candidate_id" v_str;
  code_source ← field o "code_source_sha256" v_str;
  evaluator ← field o "evaluator" validate_campaign_evaluator;
  model ← field o "model" validate_campaign_model;
  limits ← field o "budget_limits" validate_limits;
  rounds ← field o "rounds" v_int;
  _ ← field_default o "retry_limit" tt v_zero;
  rate ← field o "maximum_infrastructure_error_rate" v_float;
  fixtures ← field o "fixtures" (v_list validate_campaign_fixture);
  attempts ← field o "attempts" (v_list validate_campaign_attempt);
  check_campaign_manifest
    {| mf_campaign_id := id; mf_evidence_tier := tier; mf_experiment_id := experiment; mf_candidate_id := candidate;
       mf_code_source_sha256 := code_source; mf_evaluator := evaluator; mf_model := model; mf_budget_limits := limits;
       mf_rounds := rounds; mf_maximum_infrastructure_error_rate := rate; mf_fixtures := fixtures;
       mf_attempts := attempts |}.

(** ** The evidence of an attempt *)

Record ReliabilityCampaignTerminalEvidence := {
  tv_run_id : string;
  tv_task_id : string;
  tv_task_content_sha256 : string;
  tv_evaluator_version : string;
  tv_environment_digest : string;
  tv_requested_model : string;
  tv_returned_model : option string;
  tv_code_revision : string;
  tv_budget_used : BudgetUsage;
  tv_budget_reserved : BudgetUsage;
  tv_run_status : RunStatus;
  tv_evaluation_outcome : option string;
  tv_manifest_revision : Z;
  tv_manifest_sha256 : string;
  tv_event_count : Z;
  tv_head_event_sha256 : string;
  tv_semantic_digest : string;
  tv_ledger_snapshot_sha256 : string;
  tv_storage_state : string;
  tv_references_verified : bool;
  tv_storage_clean : bool;
}.

(** [_run_is_terminal] *)
Definition _run_is_terminal (t : ReliabilityCampaignTerminalEvidence) : result unit :=
  _ ← require (is_terminal (tv_run_status t)) (ValidationError "campaign terminal evidence requires a terminal run");
  _ ← require (tv_manifest_revision t <? tv_event_count t)
        (ValidationError "manifest revision must be less than event count");
  _ ← require (usage_eqb (tv_budget_reserved t) empty_usage)
        (ValidationError "campaign terminal evidence cannot retain reserved budget");
  require (negb (bool_decide (tv_run_status t = SUCCEEDED)) || present (tv_returned_model t))
    (ValidationError "successful campaign evidence requires a returned model").

Definition check_terminal_evidence (t : ReliabilityCampaignTerminalEvidence)
    : result ReliabilityCampaignTerminalEvidence :=
  run_id ← c_campaign_id (tv_run_id t);
  task_id ← c_nonempty (tv_task_id t);
  task_content ← c_sha256 (tv_task_content_sha256 t);
  version ← c_nonempty (tv_evaluator_version t);
  environment ← c_sha256_digest (tv_environment_digest t);
  requested ← c_nonempty (tv_requested_model t);
  returned ← c_opt c_nonempty (tv_returned_model t);
  revision ← c_nonempty (tv_code_revision t);
  used ← check_usage (tv_budget_used t);
  reserved ← check_usage (tv_budget_reserved t);
  outcome ← c_opt c_nonempty (tv_evaluation_outcome t);
  manifest_revision ← c_nonneg (tv_manifest_revision t);
  manifest_sha ← c_sha256 (tv_manifest_sha256 t);
  count ← c_positive (tv_event_count t);
  head ← c_sha256 (tv_head_event_sha256 t);
  semantic ← c_sha256 (tv_semantic_digest t);
  ledger ← c_sha256 (tv_ledger_snapshot_sha256 t);
  state ← c_nonempty (tv_storage_state t);
  let t := {| tv_run_id := run_id; tv_task_id := task_id; tv_task_content_sha256 := task_content;
              tv_evaluator_version := version; tv_environment_digest := environment; tv_requested_model := requested;
              tv_returned_model := returned; tv_code_revision := revision; tv_budget_used := used;
              tv_budget_reserved := reserved; tv_run_status := tv_run_status t; tv_evaluation_outcome := outcome;
              tv_manifest_revision := manifest_revision; tv_manifest_sha256 := manifest_sha; tv_event_count := count;
              tv_head_event_sha256 := head; tv_semantic_digest := semantic; tv_ledger_snapshot_sha256 := ledger;
              tv_storage_state := state; tv_references_verified := tv_references_verified t;
              tv_storage_clean := tv_storage_clean t |} in
  _ ← _run_is_terminal t;
  Ok t.

Definition dump_terminal_evidence (t : ReliabilityCampaignTerminalEvidence) : json :=
  JObj [("run_id", JStr (tv_run_id t)); ("task_id", JStr (tv_task_id t));
        ("task_content_sha256", JStr (tv_task_content_sha256 t)); ("evaluator_version", JStr (tv_evaluator_version t));
        ("environment_digest", JStr (tv_environment_digest t)); ("requested_model", JStr (tv_requested_model t));
        ("returned_model", dump_opt JStr (tv_returned_model t)); ("code_revision", JStr (tv_code_revision t));
        ("budget_used", dump_usage (tv_budget_used t)); ("budget_reserved", dump_usage (tv_budget_reserved t));
        ("run_status", JStr (status_value (tv_run_status t)));
        ("evaluation_outcome", dump_opt JStr (tv_evaluation_outcome t));
        ("manifest_revision", JInt (tv_manifest_revision t)); ("manifest_sha256", JStr (tv_manifest_sha256 t));
        ("event_count", JInt (tv_event_count t)); ("head_event_sha256", JStr (tv_head_event_sha256 t));
        ("semantic_digest", JStr (tv_semantic_digest t));
        ("ledger_snapshot_sha256", JStr (tv_ledger_snapshot_sha256 t)); ("storage_state", JStr (tv_storage_state t));
        ("references_verified", JBool (tv_references_verified t)); ("storage_clean", JBool (tv_storage_clean t))].

Definition terminal_keys : list string :=
  ["run_id"; "task_id"; "task_content_sha256"; "evaluator_version"; "environment_digest"; "requested_model";
   "returned_model"; "code_revision"; "budget_used"; "budget_reserved"; "run_status"; "evaluation_outcome";
   "manifest_revision"; "manifest_sha256"; "event_count"; "head_event_sha256"; "semantic_digest";
   "ledger_snapshot_sha256"; "storage_state"; "references_verified"; "storage_clean"].
Definition validate_terminal_evidence (v : json) : result ReliabilityCampaignTerminalEvidence :=
  o ← v_model terminal_keys v;
  run_id ← field o "run_id" v_str;
  task_id ← field o "task_id" v_str;
  task_content ← field o "task_content_sha256" v_str;
  version ← field o "evaluator_version" v_str;
  environment ← field o "environment_digest" v_str;
  requested ← field o "requested_model" v_str;
  returned ← field o "returned_model" (v_opt v_str);
  revision ← field o "code_revision" v_str;
  used ← field o "budget_used" validate_usage;
  reserved ← field o "budget_reserved" validate_usage;
  status ← field o "run_status" v_status;
  outcome ← field o "evaluation_outcome" (v_opt v_str);
  manifest_revision ← field o "manifest_revision" v_int;
  manifest_sha ← field o "manifest_sha256" v_str;
  count ← field o "event_count" v_int;
  head ← field o "head_event_sha256" v_str;
  semantic ← field o "semantic_digest" v_str;
  ledger ← field o "ledger_snapshot_sha256" v_str;
  state ← field o "storage_state" v_str;
  verified ← field o "references_verified" v_bool;
  storage_clean ← field o "storage_clean" v_bool;
  check_terminal_evidence
    {| tv_run_id := run_id; tv_task_id := task_id; tv_task_content_sha256 := task_content;
       tv_evaluator_version := version; tv_environment_digest := environment; tv_requested_model := requested;
       tv_returned_model := returned; tv_code_revision := revision; tv_budget_used := used;
       tv_budget_reserved := reserved; tv_run_status := status; tv_evaluation_outcome := outcome;
       tv_manifest_revision := manifest_revision; tv_manifest_sha256 := manifest_sha; tv_event_count := count;
       tv_head_event_sha256 := head; tv_semantic_digest := semantic; tv_ledger_snapshot_sha256 := ledger;
       tv_storage_state := state; tv_references_verified := verified; tv_storage_clean := storage_clean |}.

Record ReliabilityCampaignAttemptEvidence := {
  av_attempt : ReliabilityCampaignAttempt;
  av_disposition : CampaignAttemptDisposition;
  av_observed_run_ids : list string;
  av_terminal : option ReliabilityCampaignTerminalEvidence;
  av_recovery_attempted : bool;
  av_recovery_succeeded : bool;
  av_execution_error_type : option string;
  av_diagnostic : option string;
}.

(** [_shape_matches_disposition] *)
Definition _shape_matches_disposition (e : ReliabilityCampaignAttemptEvidence) : result unit :=
  let disposed d := bool_decide (av_disposition e = d) in
  let only_declared := bool_decide (av_observed_run_ids e = [at_attempt_id (av_attempt e)]) in
  _ ← require (bool_decide (av_observed_run_ids e = sorted_set id (av_observed_run_ids e)))
        (ValidationError "observed run IDs must be unique and ordered");
  _ ← require (negb (av_recovery_succeeded e) || av_recovery_attempted e)
        (ValidationError "successful recovery requires a recovery attempt");
  _ ← require match av_terminal e with
              | Some t => str_eqb (tv_run_id t) (at_attempt_id (av_attempt e))
              | None => true
              end (ValidationError "terminal run ID must equal the declared attempt ID");
  _ ← require (negb (disposed EXPECTED || disposed UNEXPECTED_RESULT || disposed POST_COMMIT_MAINTENANCE_ERROR) ||
               present (av_terminal e)) (ValidationError "campaign disposition requires terminal evidence");
  _ ← require (negb ((disposed EXPECTED || disposed UNEXPECTED_RESULT) && present (av_execution_error_type e)))
        (ValidationError "ordinary result dispositions cannot retain an execution error");
  _ ← require (negb (disposed EVIDENCE_MISSING && (negb (bool_decide (av_observed_run_ids e = [])) ||
                                             present (av_terminal e))))
        (ValidationError "missing evidence cannot contain observed runs");
  require (negb (disposed EVIDENCE_NONTERMINAL && (negb only_declared || present (av_terminal e))))
    (ValidationError "nonterminal evidence requires exactly the declared run").

Definition check_attempt_evidence (e : ReliabilityCampaignAttemptEvidence) : result ReliabilityCampaignAttemptEvidence :=
  attempt ← check_campaign_attempt (av_attempt e);
  ids ← mapR c_nonempty (av_observed_run_ids e);
  terminal ← c_opt check_terminal_evidence (av_terminal e);
  error_type ← c_opt c_nonempty (av_execution_error_type e);
  diagnostic ← c_opt c_nonempty (av_diagnostic e);
  let e := {| av_attempt := attempt; av_disposition := av_disposition e; av_observed_run_ids := ids;
              av_terminal := terminal; av_recovery_attempted := av_recovery_attempted e;
              av_recovery_succeeded := av_recovery_succeeded e; av_execution_error_type := error_type;
              av_diagnostic := diagnostic |} in
  _ ← _shape_matches_disposition e;
  Ok e.

(** [evidence.is_reconciled_terminal] *)
Definition is_reconciled_terminal (e : ReliabilityCampaignAttemptEvidence) : bool :=
  match av_terminal e with
  | Some t => bool_decide (av_observed_run_ids e = [at_attempt_id (av_attempt e)]) &&
              tv_references_verified t && tv_storage_clean t
  | None => false
  end.

Definition attempt_schema : string := "guildmind.reliability-campaign-attempt/v1".
Definition dump_attempt_evidence (e : ReliabilityCampaignAttemptEvidence) : json :=
  JObj [("schema_version", JStr attempt_schema); ("attempt", dump_campaign_attempt (av_attempt e));
        ("disposition", JStr (disposition_value (av_disposition e)));
        ("observed_run_ids", dump_strings (av_observed_run_ids e));
        ("terminal", dump_opt dump_terminal_evidence (av_terminal e));
        ("recovery_attempted", JBool (av_recovery_attempted e));
        ("recovery_succeeded", JBool (av_recovery_succeeded e));
        ("execution_error_type", dump_opt JStr (av_execution_error_type e));
        ("diagnostic", dump_opt JStr (av_diagnostic e))].
Definition attempt_evidence_keys : list string :=
  ["schema_version"; "attempt"; "disposition"; "observed_run_ids"; "terminal"; "recovery_attempted";
   "recovery_succeeded"; "execution_error_type"; "diagnostic"].
Definition validate_attempt_evidence (v : json) : result ReliabilityCampaignAttemptEvidence :=
  o ← v_model attempt_evidence_keys v;
  _ ← v_tag o attempt_schema;
  attempt ← field o "attempt" validate_campaign_attempt;
  disposition ← field o "disposition" (v_member disposition_value all_dispositions);
  ids ← field o "observed_run_ids" (v_list v_str);
  terminal ← field_default o "terminal" None (v_opt validate_terminal_evidence);
  attempted ← field_default o "recovery_attempted" false v_bool;
  succeeded ← field_default o "recovery_succeeded" false v_bool;
  error_type ← field_default o "execution_error_type" None (v_opt v_str);
  diagnostic ← field_default o "diagnostic" None (v_opt v_str);
  check_attempt_evidence
    {| av_attempt := attempt; av_disposition := disposition; av_observed_run_ids := ids; av_terminal := terminal;
       av_recovery_attempted := attempted; av_recovery_succeeded := succeeded; av_execution_error_type := error_type;
       av_diagnostic := diagnostic |}.

(** ** The report *)

Record ReliabilityCampaignReportBody := {
  bd_manifest : ReliabilityCampaignManifest;
  bd_source_manifest_sha256 : string;
  bd_campaign_manifest_sha256 : string;
  bd_git_revision : string;
  bd_recorded_at : datetime;
  bd_state_manifest_verified : bool;
  bd_code_identity_verified : bool;
  bd_attempts : list ReliabilityCampaignAttemptEvidence;
  bd_intended_attempt_count : Z;
  bd_terminal_attempt_count : Z;
  bd_reconciled_attempt_count : Z;
  bd_expected_attempt_count : Z;
  bd_infrastructure_error_count : Z;
  bd_infrastructure_error_rate : float64;
  bd_complete : bool;
  bd_all_expected : bool;
  bd_threshold_met : bool;
  bd_campaign_passed : bool;
}.

(** [sum(p(item) for item in l)] *)
Definition count {A} (p : A → bool) (l : list A) : Z := Z.of_nat (length (List.filter p l)).
(** [a / b] of integers, for [0 <= a] and [0 < b] *)
Definition int_ratio (a b : Z) : float64 := of_ratio false (Z.to_N a * scale) (Z.to_N b).

(** The aggregate claims. *)
Record Aggregates := {
  ag_intended : Z; ag_terminal : Z; ag_reconciled : Z; ag_expected : Z; ag_infrastructure_errors : Z; ag_rate : float64;
  ag_complete : bool; ag_all_expected : bool; ag_threshold_met : bool; ag_campaign_passed : bool;
}.

(** What the attempts' evidence gives. *)
Definition derive_aggregates (state_manifest_verified code_identity_verified : bool) (maximum : float64) (intended : Z)
    (attempts : list ReliabilityCampaignAttemptEvidence) : Aggregates :=
  let reconciled := count is_reconciled_terminal attempts in
  let expected := count (λ e, bool_decide (av_disposition e = EXPECTED)) attempts in
  let infrastructure_errors := count (λ e, is_infrastructure_error (av_disposition e)) attempts in
  let rate := int_ratio infrastructure_errors intended in
  let complete := reconciled =? intended in
  let all_expected := expected =? intended in
  let threshold_met := fleb rate maximum in
  {| ag_intended := intended; ag_terminal := count (λ e, present (av_terminal e)) attempts;
     ag_reconciled := reconciled; ag_expected := expected; ag_infrastructure_errors := infrastructure_errors;
     ag_rate := rate; ag_complete := complete; ag_all_expected := all_expected; ag_threshold_met := threshold_met;
     ag_campaign_passed := state_manifest_verified && code_identity_verified && complete && all_expected &&
                           threshold_met |}.

(** [observed != derived] compares them one by one. *)
Definition aggregates_eqb (a b : Aggregates) : bool :=
  (ag_intended a =? ag_intended b) && (ag_terminal a =? ag_terminal b) && (ag_reconciled a =? ag_reconciled b) &&
  (ag_expected a =? ag_expected b) && (ag_infrastructure_errors a =? ag_infrastructure_errors b) &&
  feqb (ag_rate a) (ag_rate b) && Bool.eqb (ag_complete a) (ag_complete b) &&
  Bool.eqb (ag_all_expected a) (ag_all_expected b) && Bool.eqb (ag_threshold_met a) (ag_threshold_met b) &&
  Bool.eqb (ag_campaign_passed a) (ag_campaign_passed b).

Definition observed_aggregates (b : ReliabilityCampaignReportBody) : Aggregates :=
  {| ag_intended := bd_intended_attempt_count b; ag_terminal := bd_terminal_attempt_count b;
     ag_reconciled := bd_reconciled_attempt_count b; ag_expected := bd_expected_attempt_count b;
     ag_infrastructure_errors := bd_infrastructure_error_count b; ag_rate := bd_infrastructure_error_rate b;
     ag_complete := bd_complete b; ag_all_expected := bd_all_expected b; ag_threshold_met := bd_threshold_met b;
     ag_campaign_passed := bd_campaign_passed b |}.

Section hashing.
Context {hashing : Hashing}.

(** [manifest.content_sha256] *)
Definition manifest_content_sha256 (m : ReliabilityCampaignManifest) : result string :=
  canonical_sha256 (dump_campaign_manifest m).

(** [_aggregate_claims_are_exactly_derived]; with no attempt, the division raises. *)
Definition _aggregate_claims_are_exactly_derived (b : ReliabilityCampaignReportBody) : result unit :=
  content ← manifest_content_sha256 (bd_manifest b);
  _ ← require (str_eqb (bd_campaign_manifest_sha256 b) content)
        (ValidationError "campaign manifest hash does not match the retained manifest");
  _ ← require (bool_decide (av_attempt <$> bd_attempts b = mf_attempts (bd_manifest b)))
        (ValidationError "campaign report attempts must equal the declared schedule");
  let derived := derive_aggregates (bd_state_manifest_verified b) (bd_code_identity_verified b)
    (mf_maximum_infrastructure_error_rate (bd_manifest b)) (Z.of_nat (length (mf_attempts (bd_manifest b))))
    (bd_attempts b) in
  require (aggregates_eqb (observed_aggregates b) derived)
    (ValidationError "campaign report aggregate claims must be derived").

Definition check_report_body (b : ReliabilityCampaignReportBody) : result ReliabilityCampaignReportBody :=
  manifest ← check_campaign_manifest (bd_manifest b);
  source ← c_sha256 (bd_source_manifest_sha256 b);
  content ← c_sha256 (bd_campaign_manifest_sha256 b);
  revision ← c_nonempty (bd_git_revision b);
  recorded_at ← c_datetime (bd_recorded_at b);
  attempts ← mapR check_attempt_evidence (bd_attempts b);
  intended ← c_positive (bd_intended_attempt_count b);
  terminal ← c_nonneg (bd_terminal_attempt_count b);
  reconciled ← c_nonneg (bd_reconciled_attempt_count b);
  expected ← c_nonneg (bd_expected_attempt_count b);
  errors ← c_nonneg (bd_infrastructure_error_count b);
  rate ← c_rate (bd_infrastructure_error_rate b);
  let b := {| bd_manifest := manifest; bd_source_manifest_sha256 := source; bd_campaign_manifest_sha256 := content;
              bd_git_revision := revision; bd_recorded_at := recorded_at;
              bd_state_manifest_verified := bd_state_manifest_verified b;
              bd_code_identity_verified := bd_code_identity_verified b; bd_attempts := attempts;
              bd_intended_attempt_count := intended; bd_terminal_attempt_count := terminal;
              bd_reconciled_attempt_count := reconciled; bd_expected_attempt_count := expected;
              bd_infrastructure_error_count := errors; bd_infrastructure_error_rate := rate;
              bd_complete := bd_complete b; bd_all_expected := bd_all_expected b; bd_threshold_met := bd_threshold_met b;
              bd_campaign_passed := bd_campaign_passed b |} in
  _ ← _aggregate_claims_are_exactly_derived b;
  Ok b.

Definition body_schema : string := "guildmind.reliability-campaign-report-body/v1".
Definition dump_report_body (b : ReliabilityCampaignReportBody) : json :=
  JObj [("schema_version", JStr body_schema); ("manifest", dump_campaign_manifest (bd_manifest b));
        ("source_manifest_sha256", JStr (bd_source_manifest_sha256 b));
        ("campaign_manifest_sha256", JStr (bd_campaign_manifest_sha256 b)); ("git_revision", JStr (bd_git_revision b));
        ("recorded_at", dump_datetime (bd_recorded_at b));
        ("state_manifest_verified", JBool (bd_state_manifest_verified b));
        ("code_identity_verified", JBool (bd_code_identity_verified b));
        ("attempts", JArr (dump_attempt_evidence <$> bd_attempts b));
        ("intended_attempt_count", JInt (bd_intended_attempt_count b));
        ("terminal_attempt_count", JInt (bd_terminal_attempt_count b));
        ("reconciled_attempt_count", JInt (bd_reconciled_attempt_count b));
        ("expected_attempt_count", JInt (bd_expected_attempt_count b));
        ("infrastructure_error_count", JInt (bd_infrastructure_error_count b));
        ("infrastructure_error_rate", JFloat (bd_infrastructure_error_rate b)); ("complete", JBool (bd_complete b));
        ("all_expected", JBool (bd_all_expected b)); ("threshold_met", JBool (bd_threshold_met b));
        ("campaign_passed", JBool (bd_campaign_passed b))].

Record ReliabilityCampaignReport := { rp_body : ReliabilityCampaignReportBody; rp_body_sha256 : string }.

(** [ReliabilityCampaignReport(...)], with [_body_hash_matches] *)
Definition check_campaign_report (r : ReliabilityCampaignReport) : result ReliabilityCampaignReport :=
  body ← check_report_body (rp_body r);
  digest ← c_sha256 (rp_body_sha256 r);
  observed ← canonical_sha256 (dump_report_body body);
  _ ← require (str_eqb digest observed) (ValidationError "campaign report body hash mismatch");
  Ok {| rp_body := body; rp_body_sha256 := digest |}.

Definition dump_campaign_report (r : ReliabilityCampaignReport) : json :=
  JObj [("schema_version", JStr campaign_report_schema); ("body", dump_report_body (rp_body r));
        ("body_sha256", JStr (rp_body_sha256 r))].

(** [report.canonical_bytes()] and [report.content_sha256] *)
Definition report_canonical_bytes (r : ReliabilityCampaignReport) : result (list Byte.byte) :=
  text ← canonical_json (dump_campaign_report r); Ok (utf8_encode text).
Definition report_content_sha256 (r : ReliabilityCampaignReport) : result string :=
  sha256_bytes <$> report_canonical_bytes r.

Section datetimes.
Context {datetimes : PydanticDatetime}.

Definition report_body_keys : list string :=
  ["schema_version"; "manifest"; "source_manifest_sha256"; "campaign_manifest_sha256"; "git_revision"; "recorded_at";
   "state_manifest_verified"; "code_identity_verified"; "attempts"; "intended_attempt_count"; "terminal_attempt_count";
   "reconciled_attempt_count"; "expected_attempt_count"; "infrastructure_error_count"; "infrastructure_error_rate";
   "complete"; "all_expected"; "threshold_met"; "campaign_passed"].
Definition validate_report_body (v : json) : result ReliabilityCampaignReportBody :=
  o ← v_model report_body_keys v;
  _ ← v_tag o body_schema;
  manifest ← field o "manifest" validate_campaign_manifest;
  source ← field o "source_manifest_sha256" v_str;
  content ← field o "campaign_manifest_sha256" v_str;
  revision ← field o "git_revision" v_str;
  recorded_at ← field o "recorded_at" v_datetime;
  state_verified ← field o "state_manifest_verified" v_bool;
  code_verified ← field o "code_identity_verified" v_bool;
  attempts ← field o "attempts" (v_list validate_attempt_evidence);
  intended ← field o "intended_attempt_count" v_int;
  terminal ← field o "terminal_attempt_count" v_int;
  reconciled ← field o "reconciled_attempt_count" v_int;
  expected ← field o "expected_attempt_count" v_int;
  errors ← field o "infrastructure_error_count" v_int;
  rate ← field o "infrastructure_error_rate" v_float;
  complete ← field o "complete" v_bool;
  all_expected ← field o "all_expected" v_bool;
  threshold_met ← field o "threshold_met" v_bool;
  passed ← field o "campaign_passed" v_bool;
  check_report_body
    {| bd_manifest := manifest; bd_source_manifest_sha256 := source; bd_campaign_manifest_sha256 := content;
       bd_git_revision := revision; bd_recorded_at := recorded_at; bd_state_manifest_verified := state_verified;
       bd_code_identity_verified := code_verified; bd_attempts := attempts; bd_intended_attempt_count := intended;
       bd_terminal_attempt_count := terminal; bd_reconciled_attempt_count := reconciled;
       bd_expected_attempt_count := expected; bd_infrastructure_error_count := errors;
       bd_infrastructure_error_rate := rate; bd_complete := complete; bd_all_expected := all_expected;
       bd_threshold_met := threshold_met; bd_campaign_passed := passed |}.

(** [ReliabilityCampaignReport.model_validate(value)] *)
Definition validate_campaign_report (v : json) : result ReliabilityCampaignReport :=
  o ← v_model ["schema_version"; "body"; "body_sha256"] v;
  _ ← v_tag o campaign_report_schema;
  body ← field o "body" validate_report_body;
  digest ← field o "body_sha256" v_str;
  check_campaign_report {| rp_body := body; rp_body_sha256 := digest |}.
End datetimes.
End hashing.
