(* ===== verification/CampaignFiles.v ===== *)
(** * The files of a campaign (src/guildmind/runtime/campaign.py)

    Strict reading of manifests and reports, the identities of source and fixture trees,
    the publication of evidence, and the loaders.  Paths are absolute when they enter
    ([os.path.abspath]); a name that UTF-8 does not encode is not representable here. *)

From S2P Require Import Prelude Order Loop Effects PyStr Files Descriptors Disk Float64 Json Text Patch Hash Datetime Fields.
From S2P Require Import Usage Models Specs LocalEvaluation Artifacts Fixture Reports Campaign.

Local Open Scope Z_scope.

Definition _MANIFEST_MAX_BYTES : Z := 1048576.
Definition _REPORT_MAX_BYTES : Z := 16777216.
Definition _TREE_MAX_FILES : Z := 20000.
Definition _TREE_MAX_BYTES : Z := 268435456.
Definition _STATE_MANIFEST_NAME : string := "campaign-manifest.json".
Definition _ATTEMPTS_DIRECTORY_NAME : string := "attempts".
Definition _CODE_IDENTITY_SCHEMA : string := "guildmind.campaign-code-source/v1".
Definition _FIXTURE_IDENTITY_SCHEMA : string := "guildmind.campaign-fixture-tree/v1".

(** [raise CampaignConfigurationError(...)], unless [b] *)
Definition campaign_configured (b : bool) (msg : string) : result unit := require b (CampaignConfigurationError msg).
Definition unconfigured {A} (msg : string) : Sys A := lift (Err (CampaignConfigurationError msg)).
(** [except OSError as error: raise CampaignConfigurationError(...)] *)
Definition or_unconfigured {A} (msg : string) (o : os_result A) : Sys A :=
  match o with Done a => mret a | OSError _ => unconfigured msg end.

(** What [os.walk] finds in a directory: the names, each with [entry.is_dir()]. *)
Class Walks := { walk_entries : nat → path → os_result (list (string * bool)) }.

(** [for x in l: acc = f(acc, x)] *)
Fixpoint fold_eff {S A B} (f : A → B → eff S A) (acc : A) (l : list B) : eff S A :=
  match l with
  | [] => mret acc
  | x :: l => acc ← f acc x; fold_eff f acc l
  end.

(** [_strict_json_object(data, label=...)] *)
Definition _strict_json_object (data : list Byte.byte) : result dict :=
  text ← of_option (CampaignConfigurationError "must be UTF-8 JSON") (utf8_decode data);
  value ← except (λ _, CampaignConfigurationError "is not valid JSON") (strict_loads text);
  match value with
  | JObj o => Ok o
  | _ => Err (CampaignConfigurationError "must be a JSON object")
  end.

(** ** Reading *)

Section reading.
Context {world : World}.

(** [_canonical_existing_path(path, label=...)] *)
Definition _canonical_existing_path (p : path) : Sys path :=
  o ← call (λ _, resolve true p);
  resolved ← or_unconfigured "is unavailable" o;
  _ ← lift (campaign_configured (bool_decide (resolved = p)) "path may not traverse symbolic links");
  mret resolved.

(** [_canonical_real_directory(path, label=...)] *)
Definition _canonical_real_directory (p : path) : Sys path :=
  resolved ← _canonical_existing_path p;
  o ← call (λ _, lstat resolved);
  metadata ← or_unconfigured "is unavailable" o;
  _ ← lift (campaign_configured (is_kind Directory metadata) "must be a real directory");
  mret resolved.

(** The body of [while chunk := os.read(descriptor, min(1_048_576, max_bytes + 1 - observed))] *)
Definition campaign_chunk (fd : descriptor) (max_bytes : Z) (s : nat * list Byte.byte)
    : step (nat * list Byte.byte) (result (list Byte.byte)) :=
  let wanted := Z.min 1048576 (max_bytes + 1 - Z.of_nat (length s.2)) in
  match fd_read fd s.1 wanted with
  | OSError _ => Leave (Err (CampaignConfigurationError "could not be read safely"))
  | Done [] => Leave (Ok s.2)
  | Done chunk =>
      let data := s.2 ++ take (Z.to_nat wanted) chunk in
      if max_bytes <? Z.of_nat (length data)
      then Leave (Err (CampaignConfigurationError "exceeds its byte limit"))
      else Continue (S s.1, data)
  end.

(** From the open descriptor to its bytes, the body of the [try] that ends in [os.close]. *)
Definition read_regular (max_bytes : Z) (fd : descriptor) : result (list Byte.byte * stat_result * stat_result) :=
  let os (o : os_result stat_result) : result stat_result :=
    match o with Done m => Ok m | OSError _ => Err (CampaignConfigurationError "could not be read safely") end in
  before ← os (fd_stat fd);
  _ ← campaign_configured (is_kind Regular before && (st_nlink before =? 1) && (st_size before <=? max_bytes))
        "must be a bounded single-link regular file";
  read ← bounded (run_loop (Z.to_pos (max_bytes + 2)) (campaign_chunk fd max_bytes) (O, []));
  data ← read;
  after ← os (fd_final_stat fd);
  Ok (data, before, after).

(** The seven fields that are compared; the mode is the kind and the permissions. *)
Definition read_identity (m : stat_result) :=
  (st_dev m, st_ino m, (st_kind m, st_perm m), st_nlink m, st_size m, st_mtime_ns m, st_ctime_ns m).

(** [_read_regular_file(path, label=..., max_bytes=...)] *)
Definition _read_regular_file (p : path) (max_bytes : Z) : Sys (list Byte.byte) :=
  f ← call (λ _, open_file p);
  fd ← or_unconfigured "could not be opened safely" f;
  '((data, before, after) : list Byte.byte * stat_result * stat_result) ←
    finally (lift (read_regular max_bytes fd)) (λ _, close_file);
  o ← call (λ _, lstat p);
  path_after ← or_unconfigured "changed while it was read" o;
  _ ← lift (campaign_configured (bool_decide (read_identity before = read_identity after) &&
                                 bool_decide (read_identity before = read_identity path_after))
        "changed while it was read");
  mret data.

(** [_identity_file(path, label=...)]; the [OSError] of its own [os.lstat] is not caught. *)
Definition _identity_file (p : path) : Sys (list Byte.byte * Z) :=
  data ← _read_regular_file p _TREE_MAX_BYTES;
  o ← call (λ _, lstat p);
  metadata ← raise_error o;
  mret (data, st_perm metadata).

(** [os.path.islink(path)] and [os.path.lexists(path)] *)
Definition islink (p : path) : Sys bool :=
  o ← call (λ _, lstat p);
  mret match o with Done m => is_kind SymbolicLink m | OSError _ => false end.
Definition lexists (p : path) : Sys bool :=
  o ← call (λ _, lstat p);
  mret match o with Done _ => true | OSError _ => false end.
End reading.

(** ** Trees *)

(** The dict that [_file_entry] makes. *)
Record FileEntry := { en_mode : Z; en_path : string; en_sha256 : string; en_size_bytes : Z }.
Definition dump_file_entry (e : FileEntry) : json :=
  JObj [("mode", JInt (en_mode e)); ("path", JStr (en_path e)); ("sha256", JStr (en_sha256 e));
        ("size_bytes", JInt (en_size_bytes e))].

(** The identity of a directory while its tree is walked. *)
Definition directory_snapshot (m : stat_result) : Z * Z * Z * Z := (st_dev m, st_ino m, st_mtime_ns m, st_ctime_ns m).

Record TreeScan := {
  directory_snapshots : list (path * (Z * Z * Z * Z));
  tree_files : list FileEntry;
  total_bytes : Z;
}.

(** [directory_snapshots[directory] = snapshot] *)
Fixpoint snapshot_set (l : list (path * (Z * Z * Z * Z))) (p : path) (v : Z * Z * Z * Z) : list (path * (Z * Z * Z * Z)) :=
  match l with
  | [] => [(p, v)]
  | (q, w) :: l => if bool_decide (q = p) then (q, v) :: l else (q, w) :: snapshot_set l p v
  end.

Definition is_generated_file (name : string) : bool := endswith ".pyc" name || endswith ".pyo" name.

Definition tree_identity (schema : string) (files : list FileEntry) : json :=
  JObj [("files", JArr (dump_file_entry <$> files)); ("schema_version", JStr schema)].

Section trees.
Context {hashing : Hashing} {world : World} {workspaces : Workspaces} {walks : Walks}.

(** [_file_entry(relative_path, data, mode)] *)
Definition _file_entry (relative_path : string) (data : list Byte.byte) (mode : Z) : FileEntry :=
  {| en_mode := mode; en_path := relative_path; en_sha256 := sha256_bytes data;
     en_size_bytes := Z.of_nat (length data) |}.

(** One of a directory's directories: whether the walk goes on into it. *)
Definition retain (ignore_generated : bool) (current : path) (kept : list string) (name : string) : Sys (list string) :=
  o ← call (λ _, lstat (current ++ [name]));
  child ← raise_error o;
  _ ← lift (campaign_configured (is_kind Directory child) "contains a linked or special directory");
  mret (if ignore_generated && str_eqb name "__pycache__" then kept else kept ++ [name]).

(** One of a directory's files. *)
Definition add_file (ignore_generated : bool) (base current : path) (t : TreeScan) (name : string) : Sys TreeScan :=
  if ignore_generated && is_generated_file name then mret t
  else
    '((data, mode) : list Byte.byte * Z) ← _identity_file (current ++ [name]);
    let total := total_bytes t + Z.of_nat (length data) in
    _ ← lift (campaign_configured
          (negb ((_TREE_MAX_FILES <=? Z.of_nat (length (tree_files t))) || (_TREE_MAX_BYTES <? total)))
          "exceeds its bounded inventory");
    relative ← lift (of_option (ValueError "is not in the subpath of") (LocalEvaluation.relative_to (current ++ [name]) base));
    mret {| directory_snapshots := directory_snapshots t;
            tree_files := tree_files t ++ [_file_entry (as_posix relative) data mode]; total_bytes := total |}.

(** The body of the [for] over [os.walk]: the names of the directory in their order. *)
Definition visit (ignore_generated : bool) (base current : path) (listed : list (string * bool)) (t : TreeScan)
    : Sys (TreeScan * list string) :=
  o ← call (λ _, lstat current);
  metadata ← raise_error o;
  _ ← lift (campaign_configured (is_kind Directory metadata) "contains a replaced directory");
  let t := {| directory_snapshots := snapshot_set (directory_snapshots t) current (directory_snapshot metadata);
              tree_files := tree_files t; total_bytes := total_bytes t |} in
  let directory_names := sort_by id (List.filter (λ e, e.2) listed).*1 in
  let file_names := sort_by id (List.filter (λ e, negb e.2) listed).*1 in
  retained ← fold_eff (retain ignore_generated current) [] directory_names;
  t ← fold_eff (add_file ignore_generated base current) t file_names;
  mret (t, retained).

(** [os.walk] pushes the directories it was left, the last one first, unless they have
    become links. *)
Definition push (current : path) (stack : list path) (name : string) : Sys (list path) :=
  link ← islink (current ++ [name]);
  mret (if link : bool then stack else (current ++ [name]) :: stack).

Definition tree_step (ignore_generated : bool) (base : path) (s : list path * TreeScan)
    : Sys (step (list path * TreeScan) TreeScan) :=
  match s.1 with
  | [] => mret (Leave s.2)
  | current :: stack =>
      o ← ask (λ n, walk_entries n current);
      listed ← or_unconfigured "could not be enumerated" o;
      '((t, retained) : TreeScan * list string) ← visit ignore_generated base current listed s.2;
      stack ← fold_eff (push current) stack (reverse retained);
      mret (Continue (stack, t))
  end.

(** The directory is the one that was walked. *)
Definition recheck_directory (entry : path * (Z * Z * Z * Z)) : Sys unit :=
  o ← call (λ _, lstat entry.1);
  metadata ← raise_error o;
  lift (campaign_configured (is_kind Directory metadata && bool_decide (directory_snapshot metadata = entry.2))
          "changed while it was enumerated").

(** [_tree_entries(root, relative_to=..., label=..., ignore_generated_python=...)]; the
    walk visits at most [patience] directories. *)
Definition _tree_entries (patience : positive) (root base : path) (ignore_generated : bool) : Sys (list FileEntry) :=
  root ← _canonical_real_directory root;
  t ← loopM patience (tree_step ignore_generated base)
        ([root], {| directory_snapshots := []; tree_files := []; total_bytes := 0 |});
  _ ← forM recheck_directory (directory_snapshots t);
  mret (sort_by en_path (tree_files t)).

(** [campaign_code_source_sha256(repository_root)] *)
Definition campaign_code_source_sha256 (patience : positive) (repository_root : path) : Sys string :=
  repository ← _canonical_real_directory repository_root;
  entries ← _tree_entries patience (repository ++ ["src"; "guildmind"]) repository true;
  inputs ← mapM_eff (λ name, '((data, mode) : list Byte.byte * Z) ← _identity_file (repository ++ [name]);
                             mret (_file_entry name data mode)) ["pyproject.toml"; "uv.lock"];
  lift (canonical_sha256 (tree_identity _CODE_IDENTITY_SCHEMA (sort_by en_path (entries ++ inputs)))).

(** [campaign_fixture_tree_sha256(fixture_root)] *)
Definition campaign_fixture_tree_sha256 (patience : positive) (fixture_root : path) : Sys string :=
  root ← _canonical_real_directory fixture_root;
  entries ← _tree_entries patience root root false;
  lift (canonical_sha256 (tree_identity _FIXTURE_IDENTITY_SCHEMA entries)).
End trees.

(** ** Publication *)

Section publication.
Context {world : World} {workspaces : Workspaces} {kernel : Kernel} {disk : Disk}.

(** [ensure_campaign_output_available(output_path)] *)
Definition ensure_campaign_output_available (output_path : path) : Sys path :=
  _ ← lift (require (bool_decide (output_path ≠ [])) (CampaignEvidenceError "campaign output cannot be a filesystem root"));
  parent ← _canonical_real_directory (path_parent output_path);
  let output := parent ++ [path_name output_path] in
  exists_already ← lexists output;
  _ ← lift (require (negb exists_already) (CampaignEvidenceError "campaign evidence already exists"));
  mret output.

(** [while offset < len(payload): offset += os.write(descriptor, payload[offset:])]; on a
    regular file a write of some bytes writes some. *)
Definition write_payload (fd : Z) (payload : list Byte.byte) (offset : Z) : Sys (step Z unit) :=
  if offset <? Z.of_nat (length payload) then
    o ← os_write fd (drop (Z.to_nat offset) payload);
    written ← raise_os o;
    mret (Continue (offset + written))
  else mret (Leave tt).

(** The temporary is written, synced and looked at, and its descriptor closed. *)
Definition write_evidence (fd : Z) (payload : list Byte.byte) : Sys unit :=
  finally
    (_ ← loopM (Z.to_pos (Z.of_nat (length payload) + 1)) (write_payload fd payload) 0;
     o ← os_fsync fd;
     _ ← raise_os o;
     m ← os_fstat fd;
     metadata ← raise_os m;
     lift (require (is_kind Regular metadata && (st_nlink metadata =? 1) &&
                    (st_size metadata =? Z.of_nat (length payload)))
             (CampaignEvidenceError "campaign evidence temporary file is invalid")))
    (λ _, close_fd fd).

(** The [finally] clause while the temporary is there: whatever fails is passed over. *)
Definition discard_temporary (parent : Z) (temporary : string) : Sys unit :=
  o ← os_unlink parent temporary;
  match o with
  | Done _ => synced ← os_fsync parent; mret tt
  | OSError _ => mret tt
  end.

(** The temporary from its creation to the rename. *)
Definition rename_evidence (parent fd : Z) (temporary name : string) (payload : list Byte.byte) : Sys unit :=
  finally
    (_ ← write_evidence fd payload;
     o ← rename_noreplace_at parent temporary parent name;
     match o with
     | Done _ => mret tt
     | OSError n => if file_exists n then lift (Err (CampaignEvidenceError "campaign evidence already exists"))
                    else lift (Err (OSException n))
     end)
    (λ r, match r with Ok _ => mret tt | Err _ => discard_temporary parent temporary end).

(** The outer [try] with its clauses. *)
Definition publish_evidence (parent : Z) (temporary name : string) (payload : list Byte.byte) : Sys unit :=
  exceptM (λ e, match e with
                | OSException _ => CampaignEvidenceError "campaign evidence could not be published"
                | _ => e
                end)
    (o ← os_create parent temporary;
     fd ← raise_os o;
     _ ← rename_evidence parent fd temporary name payload;
     synced ← os_fsync parent;
     raise_os synced).

Definition newline : list Byte.byte := [byte_of 10].

(** [f".{output.name}.tmp-{uuid.uuid4().hex}"] *)
Definition temporary_name (name token : string) : string := "." +:+ name +:+ ".tmp-" +:+ token.

(** [write_campaign_evidence_file(data, output_path)] *)
Definition write_campaign_evidence_file (data : list Byte.byte) (output_path : path) : Sys unit :=
  output ← ensure_campaign_output_available output_path;
  let payload := data ++ newline in
  o ← os_open (Rooted (path_parent output)) DirectoryFlags;
  parent ← raise_os o;
  token ← token_hex;
  let name := path_name output in
  _ ← finally (publish_evidence parent (temporary_name name token) name payload) (λ _, close_fd parent);
  observed ← _read_regular_file output (Z.max _REPORT_MAX_BYTES (Z.of_nat (length data) + 1));
  lift (require (bool_decide (observed = payload))
          (CampaignEvidenceError "published campaign evidence bytes do not match")).

(** [write_reliability_campaign_report(report, output_path)] *)
Definition write_reliability_campaign_report {hashing : Hashing} (report : ReliabilityCampaignReport) (output_path : path)
    : Sys unit :=
  data ← lift (report_canonical_bytes report);
  write_campaign_evidence_file data output_path.

(** [_fsync_directory(path)], where an [OSError] is caught *)
Definition sync_state (p : path) : Sys unit := _ ← perform (FsyncDirectory p); mret tt.

(** [_prepare_new_campaign_state(configured)] *)
Definition _prepare_new_campaign_state (configured : path) : Sys path :=
  _ ← lift (campaign_configured (bool_decide (configured ≠ [])) "campaign state directory cannot be a filesystem root");
  parent ← _canonical_real_directory (path_parent configured);
  let state := parent ++ [path_name configured] in
  exists_already ← lexists state;
  _ ← lift (campaign_configured (negb exists_already) "campaign state already exists");
  _ ← exceptM (λ e, match e with
                    | OSException _ => CampaignConfigurationError "campaign state could not be created"
                    | _ => e
                    end)
        (_ ← ask_os (λ n, make_directory n false false state);
         _ ← sync_state parent;
         _ ← ask_os (λ n, make_directory n false false (state ++ [_ATTEMPTS_DIRECTORY_NAME]));
         sync_state state);
  mret state.
End publication.

(** ** Loading *)

Record LoadedReliabilityCampaignFixture := {
  lf_specification : ReliabilityCampaignFixture;
  lf_root : path;
  lf_solution_patch : path;
}.

Record LoadedReliabilityCampaign := {
  lc_manifest_path : path;
  lc_repository_root : path;
  lc_source_manifest_sha256 : string;
  lc_manifest : ReliabilityCampaignManifest;
  lc_fixtures : list LoadedReliabilityCampaignFixture;
}.

(** [campaign.fixture(fixture_id)] *)
Definition campaign_fixture (c : LoadedReliabilityCampaign) (fixture_id : string) : result LoadedReliabilityCampaignFixture :=
  of_option (KeyError "unknown campaign fixture")
    (List.find (λ f, str_eqb (fx_fixture_id (lf_specification f)) fixture_id) (lc_fixtures c)).

Section loading.
Context {hashing : Hashing} {datetimes : PydanticDatetime} {world : World} {workspaces : Workspaces} {walks : Walks}.
Variable patience : positive.

(** [_load_reliability_campaign_manifest(path)] *)
Definition _load_reliability_campaign_manifest (p : path)
    : Sys (path * list Byte.byte * ReliabilityCampaignManifest) :=
  manifest_path ← _canonical_existing_path p;
  manifest_bytes ← _read_regular_file manifest_path _MANIFEST_MAX_BYTES;
  raw_manifest ← lift (_strict_json_object manifest_bytes);
  specification ← lift (except (λ e, match e with
                                     | ValidationError _ => CampaignConfigurationError "campaign manifest is invalid"
                                     | _ => e
                                     end) (validate_campaign_manifest (JObj raw_manifest)));
  mret (manifest_path, manifest_bytes, specification).

(** [load_reliability_campaign_manifest(path)] *)
Definition load_reliability_campaign_manifest (p : path) : Sys ReliabilityCampaignManifest :=
  loaded ← _load_reliability_campaign_manifest p; mret loaded.2.

(** [load_reliability_campaign_report(path)] *)
Definition load_reliability_campaign_report (p : path) : Sys ReliabilityCampaignReport :=
  raw_report ← exceptM (λ e, match e with
                             | CampaignConfigurationError _ => CampaignEvidenceError "campaign report cannot be loaded"
                             | _ => e
                             end)
    (report_path ← _canonical_existing_path p;
     report_bytes ← _read_regular_file report_path _REPORT_MAX_BYTES;
     lift (_strict_json_object report_bytes));
  lift (except (λ e, match e with
                     | ValidationError _ => CampaignEvidenceError "campaign report is invalid"
                     | _ => e
                     end) (validate_campaign_report (JObj raw_report))).

(** [_plain_repository_descendant(repository, value)] *)
Definition _plain_repository_descendant (repository : path) (value : string) : Sys path :=
  descendant ← _canonical_real_directory (repository ++ posix_parts value);
  _ ← lift (campaign_configured (_is_within descendant repository) "campaign fixture escapes the repository root");
  mret descendant.

(** One fixture of the campaign, verified before, loaded, and verified after. *)
Definition load_campaign_fixture (repository : path) (fixture : ReliabilityCampaignFixture)
    : Sys LoadedReliabilityCampaignFixture :=
  fixture_root ← _plain_repository_descendant repository (fx_fixture_path fixture);
  observed_tree ← campaign_fixture_tree_sha256 patience fixture_root;
  _ ← lift (campaign_configured (str_eqb observed_tree (fx_fixture_tree_sha256 fixture))
        "campaign fixture tree digest mismatch");
  task_manifest ← _read_regular_file (fixture_root ++ ["task.json"]) _MANIFEST_MAX_BYTES;
  raw_task ← lift (_strict_json_object task_manifest);
  _ ← lift (campaign_configured (bool_decide (jget raw_task "task_id" = Some (JStr (fx_fixture_id fixture))))
        "campaign fixture ID does not match task.json");
  let solution_patch := fixture_root ++ ["solution.patch"] in
  solution_bytes ← _read_regular_file solution_patch _MANIFEST_MAX_BYTES;
  _ ← lift (campaign_configured (str_eqb (sha256_bytes solution_bytes) (fx_solution_patch_sha256 fixture))
        "campaign solution patch digest mismatch");
  loaded_spec ← exceptM (λ e, match e with
                              | OSException _ => CampaignConfigurationError "campaign fixture cannot be loaded"
                              | _ => if is_value_error e then CampaignConfigurationError "campaign fixture cannot be loaded" else e
                              end) (from_fixture patience fixture_root);
  _ ← lift (campaign_configured (str_eqb (sp_task_id loaded_spec) (fx_fixture_id fixture))
        "loaded campaign fixture ID disagrees");
  final_tree ← campaign_fixture_tree_sha256 patience fixture_root;
  _ ← lift (campaign_configured (str_eqb final_tree (fx_fixture_tree_sha256 fixture))
        "campaign fixture changed while it was loaded");
  mret {| lf_specification := fixture; lf_root := fixture_root; lf_solution_patch := solution_patch |}.

(** [load_reliability_campaign(manifest_path, repository_root=...)] *)
Definition load_reliability_campaign (manifest_path repository_root : path) : Sys LoadedReliabilityCampaign :=
  repository ← _canonical_real_directory repository_root;
  '((manifest, manifest_bytes, specification) : path * list Byte.byte * ReliabilityCampaignManifest) ←
    _load_reliability_campaign_manifest manifest_path;
  _ ← lift (campaign_configured (_is_within manifest repository)
        "campaign manifest must be inside the repository root");
  observed_code ← campaign_code_source_sha256 patience repository;
  _ ← lift (campaign_configured (str_eqb observed_code (mf_code_source_sha256 specification))
        "campaign code source digest mismatch");
  fixtures ← mapM_eff (load_campaign_fixture repository) (mf_fixtures specification);
  mret {| lc_manifest_path := manifest; lc_repository_root := repository;
          lc_source_manifest_sha256 := sha256_bytes manifest_bytes; lc_manifest := specification;
          lc_fixtures := fixtures |}.
End loading.
