(* ===== verification/CampaignRun.v ===== *)
(** * Running and reconciling a campaign (src/guildmind/runtime/campaign.py)

    [run_reliability_campaign] dispatches every declared attempt once, in the order of the
    schedule, and keeps a note of what went wrong; [reconcile_reliability_campaign] looks
    at what is left of each attempt, twice, and derives the report. *)

From S2P Require Import Prelude Order Loop Effects PyStr Files Descriptors Disk Float64 Json Text Patch Hash Datetime Fields.
From S2P Require Import Usage Budget Models Specs LocalEvaluation Protocol Replay Sqlite EventStore Artifacts Fixture.
From S2P Require Import Integrity Coordinator Maintenance Recovery Runner Reports Campaign CampaignFiles.

Local Open Scope Z_scope.

Record _AttemptExecutionNote := {
  nt_error_type : option string;
  nt_post_commit_maintenance_error : bool;
  nt_recovery_attempted : bool;
  nt_recovery_succeeded : bool;
  nt_diagnostic : option string;
}.

(** The notes of a campaign, by attempt. *)
Abbreviation notes := (gmap string _AttemptExecutionNote).

(** The subclass of [OSError] that an error number selects. *)
Definition os_error_name (number : option Z) : string :=
  match number with
  | Some 2 => "FileNotFoundError" | Some 17 => "FileExistsError" | Some 1 | Some 13 => "PermissionError"
  | Some 20 => "NotADirectoryError" | Some 21 => "IsADirectoryError" | Some 4 => "InterruptedError"
  | Some 3 => "ProcessLookupError" | Some 10 => "ChildProcessError" | Some 110 => "TimeoutError"
  | Some 11 | Some 114 | Some 115 => "BlockingIOError" | Some 32 | Some 108 => "BrokenPipeError"
  | Some 103 => "ConnectionAbortedError" | Some 104 => "ConnectionResetError" | Some 111 => "ConnectionRefusedError"
  | _ => "OSError"
  end.

(** [type(error).__name__] *)
Definition type_name (e : exn) : string :=
  match e with
  | ValueError _ => "ValueError" | ValidationError _ => "ValidationError" | TypeError _ => "TypeError"
  | KeyError _ => "KeyError" | IndexError _ => "IndexError" | JSONDecodeError _ => "JSONDecodeError"
  | UnicodeDecodeError _ => "UnicodeDecodeError" | OverflowError _ => "OverflowError"
  | ReplayIntegrityError _ => "ReplayIntegrityError" | StoreIntegrityError _ => "StoreIntegrityError"
  | SqliteIntegrityError _ => "IntegrityError" | SqliteOperationalError _ => "OperationalError" | ReservationExceededError _ => "ReservationExceededError"
  | BudgetExceededError _ => "BudgetExceededError" | ArtifactCorruptionError _ => "ArtifactCorruptionError"
  | FixtureConfigurationError _ => "FixtureConfigurationError" | OSException n => os_error_name n
  | CampaignConfigurationError _ => "CampaignConfigurationError" | CampaignEvidenceError _ => "CampaignEvidenceError"
  | MaintenanceBusyError _ => "MaintenanceBusyError" | MaintenanceIntegrityError _ _ => "MaintenanceIntegrityError"
  | RecoveryDeniedError _ _ => "RecoveryDeniedError"
  | RecoveryPostCommitMaintenanceError _ => "RecoveryPostCommitMaintenanceError"
  | FixtureRunPostCommitMaintenanceError _ => "FixtureRunPostCommitMaintenanceError"
  | PatchValidationError _ => "PatchValidationError" | PatchApplyError _ => "PatchApplyError"
  | _ProtocolFailure _ => "_ProtocolFailure" | _CommittedFailure _ _ _ => "_CommittedFailure"
  | QuarantineDeniedError _ => "QuarantineDeniedError" | QuarantineIncompleteError _ _ => "QuarantineIncompleteError"
  | QuarantineFinalizationError _ _ _ => "QuarantineFinalizationError" | AssertionError _ => "AssertionError"
  end.

(** [text or other] *)
Definition or_text (text : option string) (other : string) : string :=
  match text with Some s => if str_nonempty s then s else other | None => other end.

#[export] Instance commitment_eq_dec : EqDecision VerifiedRunRootCommitment.
Proof. solve_decision. Defined.
#[export] Instance verified_snapshot_eq_dec : EqDecision VerifiedLedgerSnapshot.
Proof. solve_decision. Defined.

(** [datetime.now(UTC)] *)
Class WallClock := { datetime_now : nat → datetime }.

(** [_attempt_evidence(attempt, observed_run_ids, note, ...)] *)
Definition _attempt_evidence (attempt : ReliabilityCampaignAttempt) (observed : list string)
    (note : option _AttemptExecutionNote) (disposition : CampaignAttemptDisposition) (diagnostic : option string)
    (terminal : option ReliabilityCampaignTerminalEvidence) : result ReliabilityCampaignAttemptEvidence :=
  check_attempt_evidence
    {| av_attempt := attempt; av_disposition := disposition; av_observed_run_ids := observed; av_terminal := terminal;
       av_recovery_attempted := match note with Some n => nt_recovery_attempted n | None => false end;
       av_recovery_succeeded := match note with Some n => nt_recovery_succeeded n | None => false end;
       av_execution_error_type := match note with Some n => nt_error_type n | None => None end;
       av_diagnostic := diagnostic |}.

(** The revision a campaign gives its runs. *)
Definition campaign_code_revision (m : ReliabilityCampaignManifest) : string :=
  "source-sha256:" +:+ mf_code_source_sha256 m.

Section campaign.
Context {hashing : Hashing} {datetimes : PydanticDatetime} {parser : PydanticJson}.
Context {world : World} {workspaces : Workspaces} {walks : Walks} {ledgers : Ledgers} {wall : WallClock}.
(** The audits' checks outside the tables; they take no stamp. *)
Context {audits : Environment}.

(** ** Reconciling one attempt *)

(** [except (KeyError, OSError, StoreIntegrityError, ValueError)] *)
Definition is_ledger_failure (e : exn) : bool :=
  match e with KeyError _ | OSException _ | StoreIntegrityError _ => true | _ => is_value_error e end.
(** [except (ArtifactCorruptionError, OSError, ValidationError, ValueError)] *)
Definition is_task_failure (e : exn) : bool :=
  match e with ArtifactCorruptionError _ | OSException _ => true | _ => is_value_error e end.

(** The manifest and the events of the attempt's run, or what reading them raised. *)
Definition attempt_ledger (state : path) (run_id : string) : Sys (exn + RunManifest * list EventRecord) :=
  catch
    (opened ← (λ s, (Ok (open_ledger (moment s) (state ++ ["runs.db"]) (path_parent state)),
                     {| moment := S (moment s); effects := effects s |}));
     st ← lift opened;
     manifest ← lift (load_manifest run_id (db st));
     evs ← lift (list_events run_id (db st));
     mret (inr (manifest, evs)))
    (λ e, if is_ledger_failure e then Some (mret (inl e)) else None).

(** [TaskSpec.model_validate_json(task_bytes)], which must be canonical *)
Definition task_of_bytes (data : list Byte.byte) : result TaskSpec :=
  value ← of_option (ValidationError "json_invalid") (from_json data);
  task ← validate_task value;
  text ← canonical_json (dump_task task);
  _ ← require (bool_decide (data = utf8_encode text)) (ValueError "task spec is not canonical JSON");
  Ok task.

(** The task that the run's evidence retains, or what reading it raised. *)
Definition attempt_task (state : path) (reference : ArtifactRef) : Sys (exn + TaskSpec) :=
  catch
    (store ← open_existing_read_only (state ++ ["artifacts"]) (Some (path_parent state));
     task_bytes ← get_bytes store reference;
     task ← lift (task_of_bytes task_bytes);
     mret (inr task))
    (λ e, if is_task_failure e then Some (mret (inl e)) else None).

(** [task.metadata.get("evaluator_version")], if it is a string that says something *)
Definition task_evaluator_version (task : TaskSpec) : option string :=
  match jget (metadata task) "evaluator_version" with
  | Some (JStr s) => if py_strip_nonempty s then Some s else None
  | _ => None
  end.

(** What the run had to be. *)
Definition identity_matches (m : ReliabilityCampaignManifest) (fixture : ReliabilityCampaignFixture)
    (attempt : ReliabilityCampaignAttempt) (manifest : RunManifest) (task : TaskSpec) (version : string)
    (replay : ReplayState) : bool :=
  let expected_model := cm_model_id (mf_model m) in
  str_eqb (m_experiment_id manifest) (mf_experiment_id m) &&
  str_eqb (m_task_id manifest) (fx_fixture_id fixture) &&
  str_eqb (ts_task_id task) (fx_fixture_id fixture) &&
  str_eqb (m_candidate_id manifest) (mf_candidate_id m) &&
  str_eqb (m_requested_model manifest) expected_model &&
  bool_decide (m_returned_model manifest ∈ [None; Some expected_model]) &&
  (negb (present (evaluation_outcome replay)) || bool_decide (m_returned_model manifest = Some expected_model)) &&
  (m_seed manifest =? at_seed attempt) &&
  str_eqb (m_environment_digest manifest) (ev_environment_digest (mf_evaluator m)) &&
  str_eqb (image_digest task) (ev_environment_digest (mf_evaluator m)) &&
  str_eqb version (ev_evaluator_version (mf_evaluator m)) &&
  str_eqb (m_code_revision manifest) (campaign_code_revision m) &&
  limits_eqb (m_budget_limits manifest) (mf_budget_limits m).

(** The terminal commitment. *)
Definition terminal_evidence (manifest : RunManifest) (evs : list EventRecord) (replay : ReplayState) (task : TaskSpec)
    (version : string) (commitment : VerifiedRunRootCommitment) (final : StorageIntegrityReport)
    (final_snapshot : VerifiedLedgerSnapshot) : result ReliabilityCampaignTerminalEvidence :=
  digest ← semantic_digest evs;
  check_terminal_evidence
    {| tv_run_id := m_run_id manifest; tv_task_id := m_task_id manifest; tv_task_content_sha256 := task_content_hash task;
       tv_evaluator_version := version; tv_environment_digest := m_environment_digest manifest;
       tv_requested_model := m_requested_model manifest; tv_returned_model := m_returned_model manifest;
       tv_code_revision := m_code_revision manifest; tv_budget_used := budget_used replay;
       tv_budget_reserved := budget_reserved replay; tv_run_status := m_status manifest;
       tv_evaluation_outcome := evaluation_outcome replay; tv_manifest_revision := rc_manifest_revision commitment;
       tv_manifest_sha256 := rc_manifest_sha256 commitment; tv_event_count := rc_event_count commitment;
       tv_head_event_sha256 := rc_head_event_sha256 commitment; tv_semantic_digest := digest;
       tv_ledger_snapshot_sha256 := ls_snapshot_sha256 final_snapshot;
       tv_storage_state := storage_state_value (si_state final); tv_references_verified := references_verified final;
       tv_storage_clean := clean final |}.

(** The disposition of verified terminal evidence, and its diagnostic. *)
Definition dispose (matches : bool) (note : option _AttemptExecutionNote) (fixture : ReliabilityCampaignFixture)
    (status : RunStatus) (outcome : option string) : CampaignAttemptDisposition * option string :=
  let post_commit := match note with Some n => nt_post_commit_maintenance_error n | None => false end in
  let raised := match note with Some n => present (nt_error_type n) | None => false end in
  let noted := match note with Some n => nt_diagnostic n | None => None end in
  if negb matches then (EVIDENCE_INVALID, Some "attempt_identity_mismatch")
  else if post_commit
  then (POST_COMMIT_MAINTENANCE_ERROR, Some (or_text noted "post_commit_maintenance_release_failed"))
  else if raised then (CAMPAIGN_INFRASTRUCTURE_ERROR, Some (or_text noted "execution_raised"))
  else if bool_decide (status = INFRASTRUCTURE_ERROR) || bool_decide (outcome = Some "error")
  then (CAMPAIGN_INFRASTRUCTURE_ERROR, Some "attempt_terminalized_as_infrastructure_error")
  else if bool_decide (status = expected_run_status fixture) &&
          bool_decide (outcome = Some (expected_evaluation_outcome fixture))
  then (EXPECTED, None)
  else (UNEXPECTED_RESULT, Some "attempt_terminal_result_did_not_match_expectation").

(** The commitment of the audit is to what the ledger gave. *)
Definition commitment_holds (commitment : VerifiedRunRootCommitment) (manifest : RunManifest) (evs : list EventRecord)
    : result bool :=
  last_event ← of_option (IndexError "list index out of range") (last evs);
  head ← content_hash last_event;
  digest ← canonical_sha256 (dump_manifest manifest);
  Ok (str_eqb (rc_manifest_sha256 commitment) digest && (rc_event_count commitment =? Z.of_nat (length evs)) &&
      str_eqb (rc_head_event_sha256 commitment) head).

(** From a terminal run whose replay holds to its evidence: the retained task, the second
    audit, the terminal commitment and its disposition. *)
Definition reconcile_terminal (c : LoadedReliabilityCampaign) (attempt : ReliabilityCampaignAttempt) (state : path)
    (note : option _AttemptExecutionNote) (fixture : ReliabilityCampaignFixture) (snapshot : VerifiedLedgerSnapshot)
    (commitment : VerifiedRunRootCommitment) (manifest : RunManifest) (evs : list EventRecord) (replay : ReplayState)
    : Sys ReliabilityCampaignAttemptEvidence :=
  let observed := rc_run_id <$> ls_roots snapshot in
  let invalid_evidence text := lift (_attempt_evidence attempt observed note EVIDENCE_INVALID (Some text) None) in
  match m_artifacts manifest !! "task_spec" with
  | None => invalid_evidence "attempt_task_spec_missing"
  | Some reference =>
      read ← attempt_task state reference;
      match read with
      | inl e => invalid_evidence ("attempt_task_spec_invalid:" +:+ type_name e)
      | inr task =>
          match task_evaluator_version task with
          | None => invalid_evidence "attempt_evaluator_version_missing"
          | Some version =>
              final ← audit_storage state;
              if negb (bool_decide (ledger_snapshot final = Some snapshot) && references_verified final && clean final)
              then invalid_evidence "attempt_changed_during_reconciliation"
              else
                terminal ← lift (terminal_evidence manifest evs replay task version commitment final snapshot);
                let matches := identity_matches (lc_manifest c) fixture attempt manifest task version replay in
                let '(disposition, text) := dispose matches note fixture (m_status manifest) (evaluation_outcome replay) in
                lift (_attempt_evidence attempt observed note disposition text (Some terminal))
          end
      end
  end.

(** From an audited ledger that holds exactly the declared run. *)
Definition reconcile_ledger (c : LoadedReliabilityCampaign) (attempt : ReliabilityCampaignAttempt) (state : path)
    (note : option _AttemptExecutionNote) (fixture : ReliabilityCampaignFixture) (snapshot : VerifiedLedgerSnapshot)
    : Sys ReliabilityCampaignAttemptEvidence :=
  let observed := rc_run_id <$> ls_roots snapshot in
  let evidence disposition text := lift (_attempt_evidence attempt observed note disposition (Some text) None) in
  read ← attempt_ledger state (at_attempt_id attempt);
  match read with
  | inl e => evidence EVIDENCE_INVALID ("attempt_event_store_invalid:" +:+ type_name e)
  | inr (manifest, evs) =>
      if negb (is_terminal (m_status manifest)) then evidence EVIDENCE_NONTERMINAL "attempt_run_is_nonterminal"
      else match replay_events evs true with
      | Err (ReplayIntegrityError msg) =>
          evidence EVIDENCE_INVALID ("attempt_replay_invalid:" +:+ type_name (ReplayIntegrityError msg))
      | Err e => lift (Err e)
      | Ok replay =>
          commitment ← lift (of_option (IndexError "tuple index out of range") (head (ls_roots snapshot)));
          holds ← lift (commitment_holds commitment manifest evs);
          if negb (holds : bool) then evidence EVIDENCE_INVALID "attempt_changed_after_initial_audit"
          else reconcile_terminal c attempt state note fixture snapshot commitment manifest evs replay
      end
  end.

(** [_reconcile_attempt(campaign, attempt, state_directory, note)] *)
Definition _reconcile_attempt (c : LoadedReliabilityCampaign) (attempt : ReliabilityCampaignAttempt) (state : path)
    (note : option _AttemptExecutionNote) : Sys ReliabilityCampaignAttemptEvidence :=
  loaded ← lift (campaign_fixture c (at_fixture_id attempt));
  let fixture := lf_specification loaded in
  integrity ← audit_storage state;
  let observed := match ledger_snapshot integrity with Some l => rc_run_id <$> ls_roots l | None => [] end in
  let evidence disposition text := lift (_attempt_evidence attempt observed note disposition (Some text) None) in
  if negb (database_present integrity) then evidence EVIDENCE_MISSING "attempt_database_missing"
  else match ledger_snapshot integrity with
  | None => evidence EVIDENCE_INVALID (or_text (diagnostic integrity) "attempt_ledger_snapshot_missing")
  | Some snapshot =>
      if negb (bool_decide (observed = [at_attempt_id attempt]))
      then evidence EVIDENCE_RUN_SET_INVALID "attempt_run_set_does_not_match_schedule"
      else reconcile_ledger c attempt state note fixture snapshot
  end.

(** ** The report *)

(** Whether the state's own manifest is the campaign's. *)
Definition verify_state_manifest (state : path) (expected : list Byte.byte) : Sys bool :=
  catch (observed ← _read_regular_file (state ++ [_STATE_MANIFEST_NAME]) _MANIFEST_MAX_BYTES;
         mret (bool_decide (observed = expected)))
    (λ e, match e with CampaignConfigurationError _ => Some (mret false) | _ => None end).

(** The report on the attempts' evidence; a campaign that was loaded declares an attempt. *)
Definition report_on (c : LoadedReliabilityCampaign) (git_revision : string) (recorded_at : datetime)
    (state_verified code_verified : bool) (attempts : list ReliabilityCampaignAttemptEvidence)
    : result ReliabilityCampaignReport :=
  let m := lc_manifest c in
  content ← manifest_content_sha256 m;
  let a := derive_aggregates state_verified code_verified (mf_maximum_infrastructure_error_rate m)
             (Z.of_nat (length attempts)) attempts in
  body ← check_report_body
    {| bd_manifest := m; bd_source_manifest_sha256 := lc_source_manifest_sha256 c;
       bd_campaign_manifest_sha256 := content; bd_git_revision := git_revision; bd_recorded_at := recorded_at;
       bd_state_manifest_verified := state_verified; bd_code_identity_verified := code_verified;
       bd_attempts := attempts; bd_intended_attempt_count := ag_intended a;
       bd_terminal_attempt_count := ag_terminal a; bd_reconciled_attempt_count := ag_reconciled a;
       bd_expected_attempt_count := ag_expected a; bd_infrastructure_error_count := ag_infrastructure_errors a;
       bd_infrastructure_error_rate := ag_rate a; bd_complete := ag_complete a; bd_all_expected := ag_all_expected a;
       bd_threshold_met := ag_threshold_met a; bd_campaign_passed := ag_campaign_passed a |};
  digest ← canonical_sha256 (dump_report_body body);
  check_campaign_report {| rp_body := body; rp_body_sha256 := digest |}.

(** Where an attempt keeps its state. *)
Definition attempt_directory (state : path) (attempt : ReliabilityCampaignAttempt) : path :=
  state ++ [_ATTEMPTS_DIRECTORY_NAME; at_attempt_id attempt].

(** [reconcile_reliability_campaign(campaign, state_directory=..., ...)] *)
Definition reconcile_reliability_campaign (patience : positive) (c : LoadedReliabilityCampaign) (state : path)
    (execution_notes : notes) (git_revision : string) (recorded_at : option datetime) : Sys ReliabilityCampaignReport :=
  text ← lift (canonical_json (dump_campaign_manifest (lc_manifest c)));
  state_verified ← verify_state_manifest state (utf8_encode text ++ newline);
  attempts ← mapM_eff (λ attempt, _reconcile_attempt c attempt (attempt_directory state attempt)
                                    (execution_notes !! at_attempt_id attempt)) (mf_attempts (lc_manifest c));
  observed_code ← campaign_code_source_sha256 patience (lc_repository_root c);
  let code_verified := str_eqb observed_code (mf_code_source_sha256 (lc_manifest c)) in
  recorded ← match recorded_at with Some d => mret d | None => ask (λ n, datetime_now n) end;
  lift (report_on c git_revision recorded state_verified code_verified attempts).

(** ** Running *)

Section running.
Context {kernel : Kernel} {disk : Disk} {writable : WritableLedgers} {stores : EventLedgers}.

(** [_require_supported_execution(campaign, evaluator)] *)
Definition _require_supported_execution {evaluator : Evaluator} (patience : positive) (c : LoadedReliabilityCampaign)
    : Sys unit :=
  let m := lc_manifest c in
  _ ← lift (campaign_configured (bool_decide (mf_evidence_tier m = DEVELOPMENT))
        "the initial campaign executor supports development evidence only");
  _ ← lift (campaign_configured (bool_decide (ev_kind (mf_evaluator m) = LOCAL))
        "the initial campaign executor supports the local evaluator only");
  _ ← lift (campaign_configured (str_eqb evaluator_identity (ev_evaluator_version (mf_evaluator m)))
        "campaign evaluator version mismatch");
  _ ← lift (campaign_configured (str_eqb environment_digest (ev_environment_digest (mf_evaluator m)))
        "campaign evaluator environment mismatch");
  observed ← campaign_code_source_sha256 patience (lc_repository_root c);
  lift (campaign_configured (str_eqb observed (mf_code_source_sha256 m)) "campaign code identity changed before execution").

(** [_recover_after_execution_error(state_directory, attempt, clock)]: attempted and
    succeeded *)
Definition _recover_after_execution_error {env : Environment} (locks : nat) (state : path)
    (attempt : ReliabilityCampaignAttempt) : Run (bool * bool) :=
  catch (_ ← on_recovery (recover_existing_fixture_run locks state (at_attempt_id attempt) "campaign_execution_exception");
         mret (true, true))
    (λ _, Some (mret (true, false))).

(** A new clock starts at its first stamp. *)
Definition new_clock : Run unit := λ s, (Ok tt, {| rn_recovery := rn_recovery s; rn_ticks := 0 |}).

(** The request of an attempt. *)
Definition attempt_request (m : ReliabilityCampaignManifest) (fixture : LoadedReliabilityCampaignFixture)
    (attempt : ReliabilityCampaignAttempt) : run_request :=
  {| rq_fixture_root := lf_root fixture; rq_run_id := at_attempt_id attempt; rq_code_revision := campaign_code_revision m;
     rq_experiment_id := mf_experiment_id m; rq_candidate_id := mf_candidate_id m; rq_seed := at_seed attempt;
     rq_budget_limits := Some (mf_budget_limits m) |}.

(** [FixtureRunner(...).run(...)] *)
Definition run_attempt {env : Environment} {evaluator : Evaluator} (locks : nat) (reads : positive)
    (m : ReliabilityCampaignManifest) (fixture : LoadedReliabilityCampaignFixture) (attempt : ReliabilityCampaignAttempt)
    (attempt_state : path) : Run FixtureRunResult :=
  runner ← in_system (new_runner attempt_state);
  run (model := ScriptedPatchModel (lf_solution_patch fixture) (Some (cm_model_id (mf_model m))) None None)
    locks reads runner (attempt_request m fixture attempt).

(** The [except] clauses: the notes after an attempt that raised. *)
Definition note_execution_error {env : Environment} (locks : nat) (attempt_state : path)
    (attempt : ReliabilityCampaignAttempt) (ns : notes) (e : exn) : Run notes :=
  match e with
  | FixtureRunPostCommitMaintenanceError _ =>
      mret (<[at_attempt_id attempt :=
        {| nt_error_type := Some "FixtureRunPostCommitMaintenanceError"; nt_post_commit_maintenance_error := true;
           nt_recovery_attempted := false; nt_recovery_succeeded := false;
           nt_diagnostic := Some "post_commit_maintenance_release_failed" |}]> ns)
  | BudgetExceededError _ => _ ← _recover_after_execution_error locks attempt_state attempt; mret ns
  | _ =>
      '((attempted, succeeded) : bool * bool) ← _recover_after_execution_error locks attempt_state attempt;
      mret (<[at_attempt_id attempt :=
        {| nt_error_type := Some (type_name e); nt_post_commit_maintenance_error := false;
           nt_recovery_attempted := attempted; nt_recovery_succeeded := succeeded;
           nt_diagnostic := Some "execution_raised" |}]> ns)
  end.

(** The note on a fixture that changed before its attempt was dispatched. *)
Definition changed_before_dispatch : _AttemptExecutionNote :=
  {| nt_error_type := Some "CampaignConfigurationError"; nt_post_commit_maintenance_error := false;
     nt_recovery_attempted := false; nt_recovery_succeeded := false;
     nt_diagnostic := Some "fixture_identity_changed_before_dispatch" |}.
(** The note on a fixture that changed during the attempt, after the note there was. *)
Definition changed_during_execution (prior : option _AttemptExecutionNote) : _AttemptExecutionNote :=
  {| nt_error_type := match prior with Some n => nt_error_type n | None => Some "CampaignConfigurationError" end;
     nt_post_commit_maintenance_error := match prior with Some n => nt_post_commit_maintenance_error n | None => false end;
     nt_recovery_attempted := match prior with Some n => nt_recovery_attempted n | None => false end;
     nt_recovery_succeeded := match prior with Some n => nt_recovery_succeeded n | None => false end;
     nt_diagnostic := Some "fixture_identity_changed_during_execution" |}.

(** The body of the [for] over the attempts. *)
Definition dispatch_attempt {evaluator : Evaluator} (clocks : nat → Environment) (locks : nat) (patience : positive)
    (c : LoadedReliabilityCampaign) (state : path) (ns : notes) (indexed : nat * ReliabilityCampaignAttempt) : Run notes :=
  let '(index, attempt) := indexed in
  fixture ← lift (campaign_fixture c (at_fixture_id attempt));
  let declared := fx_fixture_tree_sha256 (lf_specification fixture) in
  let attempt_state := attempt_directory state attempt in
  observed ← in_system (campaign_fixture_tree_sha256 patience (lf_root fixture));
  if negb (str_eqb observed declared) then mret (<[at_attempt_id attempt := changed_before_dispatch]> ns)
  else
    _ ← new_clock;
    ns ← catch
      (_ ← run_attempt (env := clocks index) locks patience (lc_manifest c) fixture attempt attempt_state; mret ns)
      (λ e, Some (note_execution_error (env := clocks index) locks attempt_state attempt ns e));
    final ← in_system (campaign_fixture_tree_sha256 patience (lf_root fixture));
    mret (if str_eqb final declared then ns
          else <[at_attempt_id attempt := changed_during_execution (ns !! at_attempt_id attempt)]> ns).

(** [enumerate(l)] *)
Definition enumerate {A} (l : list A) : list (nat * A) := zip (seq 0 (length l)) l.

(** [run_reliability_campaign(campaign, state_directory=..., ...)] with its evaluator and
    its clocks; paths are absolute. *)
Definition run_reliability_campaign {evaluator : Evaluator} (clocks : nat → Environment) (locks : nat)
    (patience : positive) (c : LoadedReliabilityCampaign) (state_directory : path) (git_revision : string)
    (recorded_at : option datetime) : Run ReliabilityCampaignReport :=
  _ ← in_system (_require_supported_execution patience c);
  state ← in_system (_prepare_new_campaign_state state_directory);
  text ← lift (canonical_json (dump_campaign_manifest (lc_manifest c)));
  _ ← in_system (write_campaign_evidence_file (utf8_encode text) (state ++ [_STATE_MANIFEST_NAME]));
  ns ← fold_eff (dispatch_attempt clocks locks patience c state) ∅ (enumerate (mf_attempts (lc_manifest c)));
  in_system (reconcile_reliability_campaign patience c state ns git_revision recorded_at).
End running.
End campaign.
