(* ===== verification/CampaignRecords.v ===== *)
(** * The records of a campaign read back (facts on Campaign.v)

    A checked record is a fixed point of its check, and validating its JSON form gives it
    back, from the fixture of a manifest to the report. *)

From S2P Require Import Prelude Order PyStr Float64 Json Text Hash Datetime Fields Usage Models Specs Reports Campaign.

Local Open Scope Z_scope.

Lemma settles_campaign_id : settles c_campaign_id.
Proof. apply settles_guard. Qed.
Lemma settles_rate : settles c_rate.
Proof. apply settles_guard. Qed.
#[export] Hint Resolve settles_campaign_id settles_rate : settle.

(** What a length constraint accepts it gives back. *)
Lemma length_Ok {A} bound (l k : list A) : c_length bound l = Ok k → k = l.
Proof. unfold c_length. destruct (_ && _); [by intros [= <-]|done]. Qed.

(** What the checks of the fields have accepted, in the hypotheses; and the checks again. *)
Ltac settle_fields :=
  inv_ok; repeat match goal with X : c_length _ ?l = Ok ?k |- _ => tryif constr_eq l k then fail else
            (pose proof (length_Ok _ _ _ X); subst k) end;
  settle.

Lemma settles_campaign_evaluator : settles check_campaign_evaluator.
Proof. intros a b. unfold check_campaign_evaluator. intros H. settle_fields. simpl. by settled. Qed.
Lemma settles_campaign_model : settles check_campaign_model.
Proof. intros a b. unfold check_campaign_model. intros H. settle_fields. simpl. by settled. Qed.
Lemma settles_campaign_fixture : settles check_campaign_fixture.
Proof. intros a b. unfold check_campaign_fixture. intros H. settle_fields. simpl. settled. by run_ok; settled. Qed.
Lemma settles_campaign_attempt : settles check_campaign_attempt.
Proof. intros a b. unfold check_campaign_attempt. intros H. settle_fields. simpl. by settled. Qed.
#[export] Hint Resolve settles_campaign_evaluator settles_campaign_model settles_campaign_fixture
  settles_campaign_attempt : settle.

Ltac campaign_fields := cbn [mf_campaign_id mf_evidence_tier mf_experiment_id mf_candidate_id mf_code_source_sha256
  mf_evaluator mf_model mf_budget_limits mf_rounds mf_maximum_infrastructure_error_rate mf_fixtures mf_attempts
  tv_run_id tv_task_id tv_task_content_sha256 tv_evaluator_version tv_environment_digest tv_requested_model
  tv_returned_model tv_code_revision tv_budget_used tv_budget_reserved tv_run_status tv_evaluation_outcome
  tv_manifest_revision tv_manifest_sha256 tv_event_count tv_head_event_sha256 tv_semantic_digest
  tv_ledger_snapshot_sha256 tv_storage_state tv_references_verified tv_storage_clean
  av_attempt av_disposition av_observed_run_ids av_terminal av_recovery_attempted av_recovery_succeeded
  av_execution_error_type av_diagnostic
  bd_manifest bd_source_manifest_sha256 bd_campaign_manifest_sha256 bd_git_revision bd_recorded_at
  bd_state_manifest_verified bd_code_identity_verified bd_attempts bd_intended_attempt_count bd_terminal_attempt_count
  bd_reconciled_attempt_count bd_expected_attempt_count bd_infrastructure_error_count bd_infrastructure_error_rate
  bd_complete bd_all_expected bd_threshold_met bd_campaign_passed].

Lemma settles_campaign_manifest : settles check_campaign_manifest.
Proof. intros a b. unfold check_campaign_manifest. intros H. settle_fields. campaign_fields. settled. by run_ok. Qed.
Lemma settles_terminal_evidence : settles check_terminal_evidence.
Proof. intros a b. unfold check_terminal_evidence. intros H. settle_fields. campaign_fields. settled. by run_ok. Qed.
#[export] Hint Resolve settles_campaign_manifest settles_terminal_evidence : settle.
Lemma settles_attempt_evidence : settles check_attempt_evidence.
Proof. intros a b. unfold check_attempt_evidence. intros H. settle_fields. campaign_fields. settled. by run_ok. Qed.
#[export] Hint Resolve settles_attempt_evidence : settle.

(** ** Reading back *)

Lemma v_tag_get o text : nodup_keys o = true → jget o "schema_version" = Some (JStr text) → v_tag (sort_dict o) text = Ok tt.
Proof.
  intros H1 H2. unfold v_tag. erewrite field_default_get by eassumption. simpl. by rewrite String.eqb_refl.
Qed.

Lemma v_literal_same text : v_literal text (JStr text) = Ok tt.
Proof. simpl. unfold str_eqb. by rewrite String.eqb_refl. Qed.

(** Steps a reader of a campaign's record over the dumped record. *)
Ltac read_campaign_step :=
  first [read_record_step | rewrite v_tag_get by reflexivity]; cbn [mbind result_bind sort_json v_str v_int v_float v_bool v_opt v_zero];
  rewrite ?v_literal_same; cbn [mbind result_bind].

Lemma validate_dump_campaign_evaluator e : check_campaign_evaluator e = Ok e →
  validate_campaign_evaluator (sort_json (dump_campaign_evaluator e)) = Ok e.
Proof.
  intros He. unfold validate_campaign_evaluator, dump_campaign_evaluator.
  destruct e as [[] v d]; by repeat read_campaign_step.
Qed.
Lemma validate_dump_campaign_model m : check_campaign_model m = Ok m →
  validate_campaign_model (sort_json (dump_campaign_model m)) = Ok m.
Proof.
  intros Hm. unfold validate_campaign_model, dump_campaign_model. destruct m. by repeat read_campaign_step.
Qed.
Lemma validate_dump_campaign_fixture f : check_campaign_fixture f = Ok f →
  validate_campaign_fixture (sort_json (dump_campaign_fixture f)) = Ok f.
Proof.
  intros Hf. unfold validate_campaign_fixture, dump_campaign_fixture. destruct f. by repeat read_campaign_step.
Qed.
Lemma validate_dump_campaign_attempt a : check_campaign_attempt a = Ok a →
  validate_campaign_attempt (sort_json (dump_campaign_attempt a)) = Ok a.
Proof.
  intros Ha. unfold validate_campaign_attempt, dump_campaign_attempt. destruct a. by repeat read_campaign_step.
Qed.

(** Lists of records. *)
Lemma v_list_dump {A} (check : A → result A) (validate : json → result A) (dump : A → json) l k :
  settles check → (∀ a, check a = Ok a → validate (sort_json (dump a)) = Ok a) →
  mapR check k = Ok l → v_list validate (JArr (sort_json <$> (dump <$> l))) = Ok l.
Proof.
  intros Hc Hv Hl. simpl. rewrite <- list_fmap_compose. apply (mapR_fmap validate (sort_json ∘ dump)).
  eapply Forall_impl; [by eapply mapR_settled|]. intros a. apply Hv.
Qed.

Lemma v_disposition_value d : v_member disposition_value all_dispositions (JStr (disposition_value d)) = Ok d.
Proof. by destruct d. Qed.
Lemma v_tier_value t : v_member tier_value [DEVELOPMENT; REFERENCE] (JStr (tier_value t)) = Ok t.
Proof. by destruct t. Qed.

(** What a checked manifest's parts satisfy. *)
Lemma campaign_manifest_parts m m' : check_campaign_manifest m = Ok m' →
  check_campaign_evaluator (mf_evaluator m') = Ok (mf_evaluator m') ∧
  check_campaign_model (mf_model m') = Ok (mf_model m') ∧ check_limits (mf_budget_limits m') = Ok (mf_budget_limits m') ∧
  mapR check_campaign_fixture (mf_fixtures m') = Ok (mf_fixtures m') ∧
  mapR check_campaign_attempt (mf_attempts m') = Ok (mf_attempts m') ∧
  _schedule_is_complete_unique_and_canonical m' = Ok tt.
Proof. unfold check_campaign_manifest. intros H. settle_fields. by campaign_fields. Qed.

Lemma validate_dump_campaign_manifest m : check_campaign_manifest m = Ok m →
  validate_campaign_manifest (sort_json (dump_campaign_manifest m)) = Ok m.
Proof.
  intros Hm. destruct (campaign_manifest_parts m m Hm) as (He & Hmo & Hl & Hf & Ha & _).
  apply validate_dump_campaign_evaluator in He. apply validate_dump_campaign_model in Hmo.
  apply check_limits_Ok in Hl as [_ Hl]. apply validate_dump_limits in Hl.
  apply (v_list_dump _ _ _ _ _ settles_campaign_fixture validate_dump_campaign_fixture) in Hf.
  apply (v_list_dump _ _ _ _ _ settles_campaign_attempt validate_dump_campaign_attempt) in Ha.
  unfold validate_campaign_manifest, dump_campaign_manifest.
  repeat (read_campaign_step; rewrite ?He, ?Hmo, ?Hl, ?Hf, ?Ha, ?v_tier_value; cbn [mbind result_bind]).
  by destruct m.
Qed.

Lemma terminal_evidence_parts t t' : check_terminal_evidence t = Ok t' →
  check_usage (tv_budget_used t') = Ok (tv_budget_used t') ∧
  check_usage (tv_budget_reserved t') = Ok (tv_budget_reserved t') ∧ _run_is_terminal t' = Ok tt.
Proof. unfold check_terminal_evidence. intros H. settle_fields. by campaign_fields. Qed.

Lemma validate_dump_terminal_evidence t : check_terminal_evidence t = Ok t →
  validate_terminal_evidence (sort_json (dump_terminal_evidence t)) = Ok t.
Proof.
  intros Ht. destruct (terminal_evidence_parts t t Ht) as (Hu & Hr & _).
  apply check_usage_Ok in Hu as [_ Hu], Hr as [_ Hr]. apply validate_dump_usage in Hu, Hr.
  unfold validate_terminal_evidence, dump_terminal_evidence.
  repeat (read_campaign_step; rewrite ?Hu, ?Hr, ?v_status_value; cbn [mbind result_bind]). by destruct t.
Qed.

Lemma attempt_evidence_parts e e' : check_attempt_evidence e = Ok e' →
  check_campaign_attempt (av_attempt e') = Ok (av_attempt e') ∧
  c_opt check_terminal_evidence (av_terminal e') = Ok (av_terminal e') ∧ _shape_matches_disposition e' = Ok tt.
Proof. unfold check_attempt_evidence. intros H. settle_fields. by campaign_fields. Qed.

Lemma v_opt_terminal o : c_opt check_terminal_evidence o = Ok o →
  v_opt validate_terminal_evidence (sort_json (dump_opt dump_terminal_evidence o)) = Ok o.
Proof.
  destruct o as [t|]; simpl; [|done]. intros H. inv_ok.
  match goal with X : check_terminal_evidence _ = Ok _, Y : Some _ = Some _ |- _ => injection Y as <- end.
  change (v_opt validate_terminal_evidence (sort_json (dump_terminal_evidence t)) = Ok (Some t)).
  unfold v_opt. rewrite validate_dump_terminal_evidence by done. by destruct t.
Qed.

Lemma validate_dump_attempt_evidence e : check_attempt_evidence e = Ok e →
  validate_attempt_evidence (sort_json (dump_attempt_evidence e)) = Ok e.
Proof.
  intros He. destruct (attempt_evidence_parts e e He) as (Ha & Ht & _).
  apply validate_dump_campaign_attempt in Ha. apply v_opt_terminal in Ht.
  assert (v_list v_str (sort_json (dump_strings (av_observed_run_ids e))) = Ok (av_observed_run_ids e)) as Hs.
  { unfold dump_strings. change (JArr (JStr <$> ?l)) with (dump_strs l). rewrite sort_dump_strs. apply v_list_str. }
  unfold validate_attempt_evidence, dump_attempt_evidence.
  repeat (read_campaign_step; rewrite ?Ha, ?Ht, ?Hs, ?v_disposition_value; cbn [mbind result_bind]). by destruct e.
Qed.

Section hashing.
Context {hashing : Hashing}.

Lemma settles_report_body : settles check_report_body.
Proof. intros a b. unfold check_report_body. intros H. settle_fields. campaign_fields. settled. by run_ok. Qed.
#[local] Hint Resolve settles_report_body : settle.
Lemma settles_campaign_report : settles check_campaign_report.
Proof. intros a b. unfold check_campaign_report. intros H. settle_fields. simpl. settled. by run_ok. Qed.

Lemma report_body_parts b b' : check_report_body b = Ok b' →
  check_campaign_manifest (bd_manifest b') = Ok (bd_manifest b') ∧ c_datetime (bd_recorded_at b') = Ok (bd_recorded_at b') ∧
  mapR check_attempt_evidence (bd_attempts b') = Ok (bd_attempts b') ∧
  is_rate (bd_infrastructure_error_rate b') = true ∧ _aggregate_claims_are_exactly_derived b' = Ok tt.
Proof.
  unfold check_report_body. intros H. settle_fields. campaign_fields. split_and!; try done.
  match goal with X : c_rate _ = Ok _ |- _ => unfold c_rate in X; by destruct (is_rate _) end.
Qed.

Context {datetimes : PydanticDatetime}.

Lemma validate_dump_report_body b : check_report_body b = Ok b →
  validate_report_body (sort_json (dump_report_body b)) = Ok b.
Proof.
  intros Hb. destruct (report_body_parts b b Hb) as (Hm & Hd & Ha & _).
  apply validate_dump_campaign_manifest in Hm. apply v_dump_datetime in Hd.
  apply (v_list_dump _ _ _ _ _ settles_attempt_evidence validate_dump_attempt_evidence) in Ha.
  unfold validate_report_body, dump_report_body.
  repeat (read_campaign_step; rewrite ?Hm, ?Hd, ?Ha; cbn [mbind result_bind]). by destruct b.
Qed.

Lemma validate_dump_campaign_report r : check_campaign_report r = Ok r →
  validate_campaign_report (sort_json (dump_campaign_report r)) = Ok r.
Proof.
  intros Hr. assert (check_report_body (rp_body r) = Ok (rp_body r)) as Hb.
  { pose proof Hr as H. unfold check_campaign_report in H. settle_fields. done. }
  apply validate_dump_report_body in Hb. unfold validate_campaign_report, dump_campaign_report.
  repeat (read_campaign_step; rewrite ?Hb; cbn [mbind result_bind]). by destruct r.
Qed.
End hashing.
