(* ===== verification/CampaignFacts.v ===== *)
(** * What the records of a campaign say

    The schedule of a checked manifest is the full factorial of its rounds and fixtures;
    the aggregate claims of a checked report are those of the attempts' evidence; and a
    report that was published reads back. *)

From S2P Require Import Prelude Order PyStr Float64 Json Text Hash Datetime Fields Usage Models Specs Reports Campaign CampaignRecords.

Local Open Scope Z_scope.

(** ** The schedule *)

Lemma NoDup_sorted_set {A K} `{EqDecision A} `{Ordered K} (key : A → K) (l : list A) : NoDup (sorted_set key l).
Proof. unfold sorted_set. rewrite sort_by_perm. apply NoDup_remove_dups. Qed.

(** The pairs of two lists, the first list's elements second. *)
Lemma elem_of_pairs {A B} (l : list A) (k : list B) a b : (b, a) ∈ (a ← l; b ← k; [(b, a)]) ↔ a ∈ l ∧ b ∈ k.
Proof.
  rewrite list_elem_of_bind. setoid_rewrite list_elem_of_bind. split.
  - intros (a' & (b' & [= -> ->]%list_elem_of_singleton & Hb) & Ha). done.
  - intros [Ha Hb]. exists a. split; [|done]. exists b. by rewrite list_elem_of_singleton.
Qed.

Lemma NoDup_pairs {A B} (l : list A) (k : list B) : NoDup l → NoDup k → NoDup (a ← l; b ← k; [(b, a)]).
Proof.
  intros Hl Hk. apply NoDup_bind; [| |done].
  - intros a1 a2 p _ _ (b1 & ->%list_elem_of_singleton & _)%list_elem_of_bind.
    intros (b2 & [= -> ->]%list_elem_of_singleton & _)%list_elem_of_bind. done.
  - intros a _. apply NoDup_bind; [|intros b _; apply NoDup_singleton|done].
    intros b1 b2 p _ _ ->%list_elem_of_singleton [= ->]%list_elem_of_singleton. done.
Qed.

Lemma length_pairs {A B} (l : list A) (k : list B) : length (a ← l; b ← k; [(b, a)]) = (length l * length k)%nat.
Proof.
  induction l as [|a l IH]; [done|]. cbn [mbind list_bind length]. rewrite length_app, IH. simpl. f_equal.
  clear. induction k as [|b k IH]; [done|]. simpl. by rewrite <- IH.
Qed.

(** C18. A manifest that is accepted schedules every fixture in every round, once, round by
    round; every attempt has an identity of its own; nothing else is scheduled. *)
Theorem schedule_is_full_factorial m m' : check_campaign_manifest m = Ok m' →
  NoDup (at_attempt_id <$> mf_attempts m') ∧ NoDup (binding <$> mf_attempts m') ∧
  (∀ fixture_id round, (fixture_id, round) ∈ binding <$> mf_attempts m' ↔
     fixture_id ∈ fx_fixture_id <$> mf_fixtures m' ∧ 0 ≤ round < mf_rounds m') ∧
  Z.of_nat (length (mf_attempts m')) = mf_rounds m' * Z.of_nat (length (mf_fixtures m')) ∧
  0 < Z.of_nat (length (mf_attempts m')) ≤ 10000.
Proof.
  intros H. assert (0 < mf_rounds m' ∧ 0 < Z.of_nat (length (mf_attempts m')) ≤ 10000) as [Hr Hlen].
  { unfold check_campaign_manifest in H. inv_ok. simpl.
    repeat match goal with
    | X : c_length _ _ = Ok _ |- _ => unfold c_length in X
    | X : c_positive _ = Ok _ |- _ => unfold c_positive in X
    | X : (if ?b then _ else _) = Ok _ |- _ => destruct b eqn:?; [injection X as <-|done]
    end. split_andb. lia. }
  apply campaign_manifest_parts in H as (_ & _ & _ & _ & _ & H).
  unfold _schedule_is_complete_unique_and_canonical in H. inv_ok. unfold unique in *. split_andb.
  match goal with X : binding <$> _ = _ |- _ => rename X into Hb end.
  assert (NoDup (fx_fixture_id <$> mf_fixtures m')) as Hids.
  { match goal with X : _ = sorted_set _ _ |- _ => rewrite X end. apply NoDup_sorted_set. }
  split; [done|]. rewrite Hb. unfold expected_bindings. split; [apply NoDup_pairs; [apply NoDup_seqZ|done]|]. split.
  - intros f r. rewrite elem_of_pairs, elem_of_seqZ. intuition lia.
  - split; [|done]. rewrite <- (length_fmap binding), Hb. unfold expected_bindings.
    rewrite length_pairs, length_seqZ, length_fmap. lia.
Qed.

(** ** The aggregate claims *)

Lemma count_bound {A} (p : A → bool) l : 0 ≤ count p l ≤ Z.of_nat (length l).
Proof. unfold count. split; [lia|]. induction l as [|a l IH]; simpl; [lia|]. destruct (p a); simpl; lia. Qed.
Lemma count_mono {A} (p q : A → bool) l : (∀ a, p a = true → q a = true) → count p l ≤ count q l.
Proof.
  unfold count. intros H. induction l as [|a l IH]; simpl; [lia|].
  destruct (p a) eqn:E; [rewrite (H _ E)|destruct (q a)]; simpl; lia.
Qed.
Lemma count_disjoint {A} (p q : A → bool) l : (∀ a, p a = true → q a = false) → count p l + count q l ≤ Z.of_nat (length l).
Proof.
  unfold count. intros H. induction l as [|a l IH]; simpl; [lia|].
  destruct (p a) eqn:E; [rewrite (H _ E)|destruct (q a)]; simpl; lia.
Qed.
Lemma count_all {A} (p : A → bool) l : count p l = Z.of_nat (length l) ↔ ∀ a, a ∈ l → p a = true.
Proof.
  rewrite <- Forall_forall. unfold count. induction l as [|a l IH]; simpl; [by split|].
  rewrite Forall_cons. pose proof (count_bound p l) as Hb. unfold count in Hb.
  destruct (p a) eqn:E; simpl; [rewrite <- IH; split; [intros; split; [done|lia]|intros [_ ?]; lia]|].
  split; [lia|by intros [? _]].
Qed.

(** No infrastructure error is a rate of zero, which meets every threshold. *)
Lemma zero_ratio n : 0 < n → int_ratio 0 n = fzero.
Proof.
  intros Hn. unfold int_ratio. change (Z.to_N 0 * scale)%N with 0%N. apply of_ratio_zero_num.
Qed.
Lemma zero_meets f : is_rate f = true → fleb fzero f = true.
Proof.
  unfold is_rate, nonneg_valid. intros [[H _]%andb_true_iff _]%andb_true_iff. destruct f as [sg m| |]; try done. unfold fleb, fzero.
  rewrite (nonneg_signed sg m) by done. apply Z.leb_le. simpl. lia.
Qed.

Lemma aggregates_eqb_eq a b : aggregates_eqb a b = true →
  ag_intended a = ag_intended b ∧ ag_terminal a = ag_terminal b ∧ ag_reconciled a = ag_reconciled b ∧
  ag_expected a = ag_expected b ∧ ag_infrastructure_errors a = ag_infrastructure_errors b ∧
  ag_complete a = ag_complete b ∧ ag_all_expected a = ag_all_expected b ∧ ag_threshold_met a = ag_threshold_met b ∧
  ag_campaign_passed a = ag_campaign_passed b.
Proof.
  unfold aggregates_eqb. intros H. split_andb.
  repeat match goal with
  | X : Bool.eqb _ _ = true |- _ => apply Bool.eqb_prop in X
  | X : (_ =? _) = true |- _ => apply Z.eqb_eq in X
  end. done.
Qed.

(** What the evidence of an attempt says when it counts for a pass. *)
Definition stands (e : ReliabilityCampaignAttemptEvidence) : Prop :=
  av_disposition e = EXPECTED ∧ is_reconciled_terminal e = true.

Lemma passed_stands sv cv maximum n attempts : n = Z.of_nat (length attempts) →
  ag_campaign_passed (derive_aggregates sv cv maximum n attempts) = true →
  sv = true ∧ cv = true ∧ Forall stands attempts.
Proof.
  intros ->. unfold derive_aggregates. cbn [ag_campaign_passed]. rewrite !andb_true_iff, !Z.eqb_eq, !count_all.
  intros [[[[-> ->] Hr] He] _]. split_and!; try done. apply Forall_forall. intros e Hin.
  split; [|by apply Hr]. specialize (He _ Hin). by split_andb.
Qed.

(** The aggregates pass exactly when all evidence stands: the threshold adds nothing. *)
Lemma passed_iff sv cv maximum attempts : is_rate maximum = true → 0 < Z.of_nat (length attempts) →
  ag_campaign_passed (derive_aggregates sv cv maximum (Z.of_nat (length attempts)) attempts) = true ↔
  sv = true ∧ cv = true ∧ ∀ e, e ∈ attempts → stands e.
Proof.
  intros Hm Hn. split; [intros (-> & -> & Hall)%passed_stands; [by rewrite <- Forall_forall|done]|].
  unfold derive_aggregates. cbn [ag_campaign_passed]. rewrite !andb_true_iff, !Z.eqb_eq, !count_all.
  intros (-> & -> & Hall). split_and!; try done; [apply Hall| |].
    + intros e Hin. apply bool_decide_eq_true, Hall, Hin.
    + assert (count (λ e, is_infrastructure_error (av_disposition e)) attempts = 0) as ->.
      { pose proof (count_bound (λ e, is_infrastructure_error (av_disposition e)) attempts) as [? _].
        assert (∀ l, (∀ e, e ∈ l → stands e) → List.filter (λ e, is_infrastructure_error (av_disposition e)) l = []) as Hf.
        { induction l as [|e l IH]; intros Hl; [done|]. simpl. destruct (Hl e) as [-> _]; [left|].
          apply IH. intros x Hx. apply Hl. by right. }
        unfold count. by rewrite (Hf attempts Hall). }
      rewrite zero_ratio by done. by apply zero_meets.
Qed.

(** What standing evidence is, spelled out. *)
Definition evidence_of_success (e : ReliabilityCampaignAttemptEvidence) : Prop :=
  av_disposition e = EXPECTED ∧ av_execution_error_type e = None ∧
  av_observed_run_ids e = [at_attempt_id (av_attempt e)] ∧
  ∃ t, av_terminal e = Some t ∧ tv_run_id t = at_attempt_id (av_attempt e) ∧ is_terminal (tv_run_status t) = true ∧
    tv_references_verified t = true ∧ tv_storage_clean t = true.

Lemma stands_success e : check_attempt_evidence e = Ok e → stands e ↔ evidence_of_success e.
Proof.
  intros (_ & Ht & H)%attempt_evidence_parts. unfold stands, evidence_of_success, is_reconciled_terminal.
  unfold _shape_matches_disposition in H. inv_ok.
  destruct (av_terminal e) as [t|] eqn:E; [|by split; [intros [_ ?]|intros (_ & _ & _ & t & ? & _)]].
  cbn [c_opt fmap result_fmap] in Ht. apply fmap_Ok in Ht as (t' & Ht & [= <-]).
  apply terminal_evidence_parts in Ht as (_ & _ & Ht). unfold _run_is_terminal in Ht. inv_ok.
  match goal with X : str_eqb (tv_run_id t) _ = true |- _ => apply String.eqb_eq in X; rename X into Hid end.
  split.
  - intros [Hd Hr]. split_andb. rewrite Hd in *. split_and!; try done; [|by exists t].
    destruct (av_execution_error_type e); [|done]. simpl in *. done.
  - intros (Hd & _ & Ho & t' & [= <-] & _ & _ & Hr & Hc). split; [done|]. rewrite Ho, Hr, Hc, bool_decide_true; done.
Qed.

Lemma manifest_rate m m' : check_campaign_manifest m = Ok m' → is_rate (mf_maximum_infrastructure_error_rate m') = true.
Proof.
  unfold check_campaign_manifest. intros H. inv_ok. simpl.
  match goal with X : c_rate _ = Ok _ |- _ => unfold c_rate in X; destruct (is_rate _) eqn:E in X; [|done]; by injection X as <- end.
Qed.

Section report.
Context {hashing : Hashing}.

Lemma manifest_has_attempts m m' : check_campaign_manifest m = Ok m' → 0 < Z.of_nat (length (mf_attempts m')).
Proof.
  unfold check_campaign_manifest. intros H. inv_ok. simpl.
  match goal with X : c_length 10000 _ = Ok _ |- _ => unfold c_length in X; destruct (_ && _) eqn:El in X; [|done] end.
  split_andb. match goal with X : Ok _ = Ok _ |- _ => injection X as <- end. lia.
Qed.

Lemma body_schedule b b' : check_report_body b = Ok b' → av_attempt <$> bd_attempts b' = mf_attempts (bd_manifest b').
Proof.
  intros (_ & _ & _ & _ & H)%report_body_parts. unfold _aggregate_claims_are_exactly_derived in H. inv_ok. by split_andb.
Qed.

(** C17. A report that is accepted is about the declared schedule, and its aggregate claims are
    those of the evidence it carries: it passed exactly when the state's manifest and the
    code are verified and every declared attempt has an expected result with a verified,
    clean and sole terminal run of its own, and what is missing shows in the counts. *)
Theorem report_claims_are_derived b b' : check_report_body b = Ok b' →
  let evidence := bd_attempts b' in
  av_attempt <$> evidence = mf_attempts (bd_manifest b') ∧
  (bd_campaign_passed b' = true ↔
     bd_state_manifest_verified b' = true ∧ bd_code_identity_verified b' = true ∧
     ∀ e, e ∈ evidence → evidence_of_success e) ∧
  bd_intended_attempt_count b' = Z.of_nat (length evidence) ∧ 0 < bd_intended_attempt_count b' ∧
  bd_reconciled_attempt_count b' ≤ bd_terminal_attempt_count b' ≤ bd_intended_attempt_count b' ∧
  bd_expected_attempt_count b' + bd_infrastructure_error_count b' ≤ bd_intended_attempt_count b'.
Proof.
  intros Hb. pose proof (body_schedule b b' Hb) as Hs. apply report_body_parts in Hb as (Hm & _ & Ha & _ & H).
  simpl. unfold _aggregate_claims_are_exactly_derived in H. inv_ok. clear H1.
  pose proof (manifest_has_attempts _ _ Hm) as Hn. rewrite <- Hs, length_fmap in Hn.
  match goal with X : aggregates_eqb _ _ = true |- _ =>
    apply aggregates_eqb_eq in X; destruct X as (E1 & E2 & E3 & E4 & E5 & _ & _ & _ & E6) end.
  rewrite <- Hs, length_fmap in E1, E2, E3, E4, E5, E6. simpl in E1, E2, E3, E4, E5.
  change (bd_campaign_passed b' = ag_campaign_passed (derive_aggregates (bd_state_manifest_verified b')
    (bd_code_identity_verified b') (mf_maximum_infrastructure_error_rate (bd_manifest b'))
    (Z.of_nat (length (bd_attempts b'))) (bd_attempts b'))) in E6.
  split; [done|]. split.
  - rewrite E6, passed_iff by (done || by eapply manifest_rate).
    apply (mapR_settled _ _ _ settles_attempt_evidence) in Ha. rewrite Forall_forall in Ha.
    split; intros (? & ? & Hall); split_and!; try done; intros e He; apply (stands_success e (Ha e He)), Hall, He.
  - rewrite E1, E2, E3, E4, E5. split; [done|]. split; [done|]. split.
    + split; [|apply count_bound]. apply count_mono. intros e. unfold is_reconciled_terminal. by destruct (av_terminal e).
    + apply count_disjoint. intros e He. unfold is_infrastructure_error. split_andb. by rewrite He.
Qed.
End report.
