(* ===== verification/CampaignReconcile.v ===== *)
(** * What the reconciliation of a campaign stands for

    Reconciling only reads: the one thing it does to the machine is to close the files it
    opened.  An attempt whose evidence is "expected" stands for a run of its ledger, audited
    before and after it was read; a campaign that passed stands for every declared run. *)

From S2P Require Import Prelude Order Loop Effects PyStr Files Descriptors Disk Float64 Json Text Patch Hash Datetime Fields.
From S2P Require Import Usage Budget Models Specs LocalEvaluation Protocol Replay Sqlite EventStore Artifacts ArtifactFacts.
From S2P Require Import Fixture Integrity Coordinator CoordinatorFacts Maintenance Recovery Runner Reports Campaign.
From S2P Require Import CampaignFiles CampaignRun CampaignRecords CampaignFacts.

Local Open Scope Z_scope.

(** ** Reading closes files, and does nothing else *)

Definition closes (e : effect) : Prop := e = CloseFile.
Abbreviation reads_only := (within closes).

Section loops.
Context (P : effect → Prop).

Lemma within_fold {A B} (f : A → B → Sys A) acc l : (∀ a b, within P (f a b)) → within P (fold_eff f acc l).
Proof.
  intros Hf. revert acc. induction l as [|b l IH]; intros acc; cbn [fold_eff]; [apply within_ret|].
  apply within_bind; [apply Hf|apply IH].
Qed.
Lemma within_loopM {A B} p (body : A → Sys (step A B)) a : (∀ a, within P (body a)) → within P (loopM p body a).
Proof.
  intros Hb s r s' H. pose (T := λ s1 : sys, (moment s ≤ moment s1)%nat ∧ ∃ new, effects s1 = effects s ++ new ∧ Forall P new).
  refine (loopM_ind (λ _ s1, T s1) (λ _ s1, T s1) p body a s r s' H _ _ _ _ _).
  - split; [done|]. exists []. by rewrite app_nil_r.
  - intros a1 s1 a2 s2 H1 H2. eapply within_trans; [exact H1|by apply (Hb _ _ _ _ H2)].
  - intros a1 s1 b s2 H1 H2. eapply within_trans; [exact H1|by apply (Hb _ _ _ _ H2)].
  - intros a1 s1 e s2 H1 H2. eapply within_trans; [exact H1|by apply (Hb _ _ _ _ H2)].
  - done.
Qed.
Lemma within_ask {A} (f : nat → A) : within P (ask f).
Proof. apply within_none. intros s r s' [= <- <-]. split; [simpl; lia|done]. Qed.
End loops.

Lemma within_raise_error {A} P (o : os_result A) : within P (raise_error o).
Proof. destruct o; [apply within_ret|apply within_lift]. Qed.
Lemma within_or_unconfigured {A} P msg (o : os_result A) : within P (or_unconfigured msg o).
Proof. destruct o; [apply within_ret|apply within_lift]. Qed.
#[export] Hint Resolve within_ask within_raise_error within_or_unconfigured : within.

Section reading.
Context {world : World}.

Lemma reads_close : reads_only close_file.
Proof. unfold close_file. solve_within; done. Qed.
#[local] Hint Resolve reads_close : within.

Lemma reads_existing p : reads_only (_canonical_existing_path p).
Proof. unfold _canonical_existing_path. solve_within. Qed.
#[local] Hint Resolve reads_existing : within.
Lemma reads_directory p : reads_only (_canonical_real_directory p).
Proof. unfold _canonical_real_directory. solve_within. Qed.
Lemma reads_regular p n : reads_only (CampaignFiles._read_regular_file p n).
Proof. unfold CampaignFiles._read_regular_file. solve_within. Qed.
#[local] Hint Resolve reads_directory reads_regular : within.
Lemma reads_identity p : reads_only (_identity_file p).
Proof. unfold _identity_file. solve_within. Qed.
Lemma reads_islink p : reads_only (islink p).
Proof. unfold islink. solve_within. Qed.
End reading.
#[export] Hint Resolve reads_close reads_existing reads_directory reads_regular reads_identity reads_islink : within.

Section trees.
Context {hashing : Hashing} {world : World} {workspaces : Workspaces} {walks : Walks}.

Lemma reads_tree patience r b i : reads_only (_tree_entries patience r b i).
Proof.
  unfold _tree_entries, recheck_directory. solve_within. apply within_loopM. intros [stack t].
  unfold tree_step, visit. solve_within; apply within_fold; intros; unfold retain, add_file, push; solve_within.
Qed.
#[local] Hint Resolve reads_tree : within.
Lemma reads_code_source patience r : reads_only (campaign_code_source_sha256 patience r).
Proof. unfold campaign_code_source_sha256. solve_within. apply within_mapM. intros name. solve_within. Qed.
Lemma reads_fixture_tree patience r : reads_only (campaign_fixture_tree_sha256 patience r).
Proof. unfold campaign_fixture_tree_sha256. solve_within. Qed.
End trees.
#[export] Hint Resolve reads_code_source reads_fixture_tree : within.

(** ** One attempt *)

(** What a program returns, when it does. *)
Definition returns {A} (P : A → Prop) (m : Sys A) : Prop := ∀ s a s', m s = (Ok a, s') → P a.
Lemma returns_bind {A B} P (m : Sys A) (f : A → Sys B) : (∀ a, returns P (f a)) → returns P (m ≫= f).
Proof. intros H s b s' (a & s1 & _ & Hf)%bindM_Ok. by apply (H a _ _ _ Hf). Qed.
Lemma returns_raise {A} (P : A → Prop) e : returns P (lift (Err e)).
Proof. by intros s a s' [? _]%lift_Ok. Qed.

Section attempt.
Context {hashing : Hashing} {datetimes : PydanticDatetime} {parser : PydanticJson}.
Context {world : World} {ledgers : Ledgers} {audits : Environment}.

Lemma quiet_attempt_ledger state run_id : quiet (attempt_ledger state run_id).
Proof.
  unfold quiet, attempt_ledger. apply within_catch.
  - apply within_bind; [apply within_none; intros s r s' [= <- <-]; split; [simpl; lia|done]|]. intros. solve_within.
  - intros e k. destruct (is_ledger_failure e); [|done]. intros [= <-]. apply within_ret.
Qed.

Lemma reads_attempt_task state reference : reads_only (attempt_task state reference).
Proof.
  unfold attempt_task, get_bytes, path_for. apply within_catch.
  - solve_within; try (by apply within_read); first [apply quiet_within, quiet_open|apply quiet_within, quiet_parent].
  - intros e k. destruct (is_task_failure e); [|done]. intros [= <-]. apply within_ret.
Qed.

Lemma reads_audit state : reads_only (audit_storage state).
Proof. apply quiet_within, quiet_audit_storage. Qed.
#[local] Hint Resolve reads_audit reads_attempt_task : within.

Lemma reads_terminal c attempt state note fixture snapshot commitment manifest evs replay :
  reads_only (reconcile_terminal c attempt state note fixture snapshot commitment manifest evs replay).
Proof. unfold reconcile_terminal. solve_within. Qed.
#[local] Hint Resolve reads_terminal : within.

Lemma reads_attempt c attempt state note : reads_only (_reconcile_attempt c attempt state note).
Proof.
  unfold _reconcile_attempt, reconcile_ledger. solve_within. apply quiet_within, quiet_attempt_ledger.
Qed.

(** What an attempt's ledger is when it is the ledger of a finished run: it holds the run's
    manifest and its events, their replay holds, and a commitment is to both. *)
Definition ledger_of_run (t : nat) (state : path) (run_id : string) (commitment : VerifiedRunRootCommitment)
    (manifest : RunManifest) (evs : list EventRecord) (replay : ReplayState) : Prop :=
  ∃ st last_event, open_ledger t (state ++ ["runs.db"]) (path_parent state) = Ok st ∧
    load_manifest run_id (db st) = Ok manifest ∧ list_events run_id (db st) = Ok evs ∧
    is_terminal (m_status manifest) = true ∧ replay_events evs true = Ok replay ∧
    canonical_sha256 (dump_manifest manifest) = Ok (rc_manifest_sha256 commitment) ∧
    rc_event_count commitment = Z.of_nat (length evs) ∧ last evs = Some last_event ∧
    content_hash last_event = Ok (rc_head_event_sha256 commitment).

(** The task a run's manifest refers to: the bytes that were read hash to the reference's
    digest, and are the canonical text of the task. *)
Definition retained_task (manifest : RunManifest) (task : TaskSpec) : Prop :=
  ∃ reference bytes text, m_artifacts manifest !! "task_spec" = Some reference ∧
    Z.of_nat (length bytes) = size_bytes reference ∧ sha256_bytes bytes = sha256 reference ∧
    task_of_bytes bytes = Ok task ∧ canonical_json (dump_task task) = Ok text ∧ bytes = utf8_encode text.

(** What evidence that a declared result came about stands for, from one moment to another. *)
Definition stands_for_run (c : LoadedReliabilityCampaign) (attempt : ReliabilityCampaignAttempt) (state : path)
    (e : ReliabilityCampaignAttemptEvidence) (since until : nat) : Prop :=
  ∃ loaded first s0 s1 snapshot commitment t manifest evs replay task version second sa sb terminal,
    campaign_fixture c (at_fixture_id attempt) = Ok loaded ∧
    (since ≤ moment s0 ≤ moment s1)%nat ∧ (moment s1 ≤ t < moment sa)%nat ∧ (moment sa ≤ moment sb ≤ until)%nat ∧
    audit_storage state s0 = (Ok first, s1) ∧ ledger_snapshot first = Some snapshot ∧
    ls_roots snapshot = [commitment] ∧ rc_run_id commitment = at_attempt_id attempt ∧
    ledger_of_run t state (at_attempt_id attempt) commitment manifest evs replay ∧
    retained_task manifest task ∧ task_evaluator_version task = Some version ∧
    audit_storage state sa = (Ok second, sb) ∧ ledger_snapshot second = Some snapshot ∧
    references_verified second = true ∧ clean second = true ∧
    identity_matches (lc_manifest c) (lf_specification loaded) attempt manifest task version replay = true ∧
    m_status manifest = expected_run_status (lf_specification loaded) ∧
    evaluation_outcome replay = Some (expected_evaluation_outcome (lf_specification loaded)) ∧
    terminal_evidence manifest evs replay task version commitment second snapshot = Ok terminal ∧
    av_terminal e = Some terminal.

Lemma attempt_ledger_Ok state run_id s manifest evs s' : attempt_ledger state run_id s = (Ok (inr (manifest, evs)), s') →
  (moment s < moment s')%nat ∧ ∃ st, open_ledger (moment s) (state ++ ["runs.db"]) (path_parent state) = Ok st ∧
    load_manifest run_id (db st) = Ok manifest ∧ list_events run_id (db st) = Ok evs.
Proof.
  intros H. unfold attempt_ledger in H.
  apply catch_Ok in H as [H|(e & s1 & k & _ & Hk & H)].
  - apply bindM_Ok in H as (o & s1 & [= <- <-] & H). apply bindM_Ok in H as (st & s2 & [Ho ->]%lift_Ok & H).
    apply bindM_Ok in H as (m & s3 & [Hm ->]%lift_Ok & H). apply bindM_Ok in H as (l & s4 & [Hl ->]%lift_Ok & H).
    apply retM_Ok in H as [[= -> ->] ->]. split; [simpl; lia|]. by exists st.
  - destruct (is_ledger_failure e); [|done]. injection Hk as <-. by apply retM_Ok in H as [[=] _].
Qed.

Lemma task_of_bytes_Ok data task : task_of_bytes data = Ok task →
  ∃ text, canonical_json (dump_task task) = Ok text ∧ data = utf8_encode text.
Proof.
  unfold task_of_bytes. intros H. inv_ok.
  match goal with X : bool_decide _ = true |- _ => apply bool_decide_eq_true in X end. eauto.
Qed.

Lemma attempt_task_Ok state reference s task s' : attempt_task state reference s = (Ok (inr task), s') →
  ∃ bytes, Z.of_nat (length bytes) = size_bytes reference ∧ sha256_bytes bytes = sha256 reference ∧
    task_of_bytes bytes = Ok task.
Proof.
  intros H. unfold attempt_task, get_bytes in H.
  apply catch_Ok in H as [H|(e & s1 & k & _ & Hk & H)].
  - apply bindM_Ok in H as (st & s1 & _ & H). apply bindM_Ok in H as (bytes & s2 & H & Hrest).
    apply bindM_Ok in H as (p & s3 & _ & H). apply read_verified_spec in H as (_ & Hz & Ha & _ & _).
    apply bindM_Ok in Hrest as (task' & s4 & [Ht _]%lift_Ok & [[= ->] _]%retM_Ok).
    exists bytes. split_and!; [done| |done]. unfold authentic in Ha. naive_solver.
  - destruct (is_task_failure e); [|done]. injection Hk as <-. by apply retM_Ok in H as [[=] _].
Qed.

Lemma checked_attempt_same a b : check_campaign_attempt a = Ok b → b = a.
Proof.
  unfold check_campaign_attempt, c_campaign_id, c_nonneg. destruct a; simpl.
  intros H. inv_ok. repeat case_match; simplify_eq. done.
Qed.

(** What [_attempt_evidence] says: of its attempt, with its disposition, on its terminal. *)
Lemma attempt_evidence_Ok attempt observed note disposition text terminal e :
  _attempt_evidence attempt observed note disposition text terminal = Ok e →
  av_attempt e = attempt ∧ av_disposition e = disposition ∧
  match terminal with
  | Some t => check_terminal_evidence t = Ok t → av_terminal e = Some t
  | None => av_terminal e = None
  end.
Proof.
  unfold _attempt_evidence, check_attempt_evidence. intros H. inv_ok. simpl in *.
  match goal with X : check_campaign_attempt _ = Ok _ |- _ => apply checked_attempt_same in X as -> end.
  split_and!; [done..|]. destruct terminal as [t|]; simpl in *; inv_ok; [|done]. intros Ht. congruence.
Qed.

(** The branch of [H] ends in evidence that is not of a declared result. *)
Ltac not_expected H := apply lift_Ok in H as [(_ & Hd & _)%attempt_evidence_Ok _]; congruence.

(** An attempt with a terminal run: what the disposition means. *)
Lemma dispose_expected matches note fixture status outcome text :
  dispose matches note fixture status outcome = (EXPECTED, text) →
  matches = true ∧ status = expected_run_status fixture ∧ outcome = Some (expected_evaluation_outcome fixture).
Proof.
  unfold dispose. destruct matches; simpl; [|done]. repeat case_match; intros; simplify_eq; split_andb; done.
Qed.

Lemma holds_Ok commitment manifest evs : commitment_holds commitment manifest evs = Ok true →
  ∃ last_event, canonical_sha256 (dump_manifest manifest) = Ok (rc_manifest_sha256 commitment) ∧
    rc_event_count commitment = Z.of_nat (length evs) ∧ last evs = Some last_event ∧
    content_hash last_event = Ok (rc_head_event_sha256 commitment).
Proof.
  unfold commitment_holds. intros H. inv_ok. split_andb.
  repeat match goal with X : str_eqb _ _ = true |- _ => apply String.eqb_eq in X as -> end.
  match goal with X : last evs = Some ?ev |- _ => exists ev end. split_and!; try done. by apply Z.eqb_eq.
Qed.

(** From the terminal run to the evidence: the task was retained, and the second audit saw
    the same ledger. *)
Lemma terminal_expected c attempt state note fixture snapshot commitment manifest evs replay s e s' :
  reconcile_terminal c attempt state note fixture snapshot commitment manifest evs replay s = (Ok e, s') →
  av_disposition e = EXPECTED →
  ∃ task version second sa sb terminal, retained_task manifest task ∧ task_evaluator_version task = Some version ∧
    (moment s ≤ moment sa ≤ moment sb)%nat ∧ (moment sb ≤ moment s')%nat ∧
    audit_storage state sa = (Ok second, sb) ∧ ledger_snapshot second = Some snapshot ∧
    references_verified second = true ∧ clean second = true ∧
    identity_matches (lc_manifest c) fixture attempt manifest task version replay = true ∧
    m_status manifest = expected_run_status fixture ∧
    evaluation_outcome replay = Some (expected_evaluation_outcome fixture) ∧
    terminal_evidence manifest evs replay task version commitment second snapshot = Ok terminal ∧
    av_terminal e = Some terminal.
Proof.
  intros H He. unfold reconcile_terminal in H. destruct (m_artifacts manifest !! "task_spec") as [reference|] eqn:Er.
  2:{ not_expected H. }
  apply bindM_Ok in H as (read & s1 & Hread & H). pose proof (reads_attempt_task _ _ _ _ _ Hread) as [T1 _].
  destruct read as [e1|task]; [not_expected H|].
  destruct (task_evaluator_version task) as [version|] eqn:Ev;
    [|not_expected H].
  apply bindM_Ok in H as (second & s2 & Ha & H). pose proof (reads_audit _ _ _ _ Ha) as [T2 _].
  destruct (negb _) eqn:En; [not_expected H|].
  apply negb_false_iff in En. split_andb.
  apply bindM_Ok in H as (terminal & s3 & [Hte ->]%lift_Ok & H).
  destruct (dispose _ _ _ _ _) as [disposition text] eqn:Ed.
  apply lift_Ok in H as [(_ & Hd & Hav)%attempt_evidence_Ok ->].
  assert (disposition = EXPECTED) as -> by congruence. apply dispose_expected in Ed as (? & ? & ?).
  apply attempt_task_Ok in Hread as (bytes & Hz & Hh & Ht). pose proof (task_of_bytes_Ok _ _ Ht) as (tx & Hc & Hb).
  exists task, version, second, s1, s2, terminal. split_and!; try done; [by exists reference, bytes, tx|].
  apply Hav. unfold terminal_evidence in Hte. inv_ok. by eapply settles_terminal_evidence.
Qed.

Lemma ledger_expected c attempt state note fixture snapshot s e s' :
  reconcile_ledger c attempt state note fixture snapshot s = (Ok e, s') → av_disposition e = EXPECTED →
  rc_run_id <$> ls_roots snapshot = [at_attempt_id attempt] →
  ∃ commitment t manifest evs replay s1, ls_roots snapshot = [commitment] ∧
    rc_run_id commitment = at_attempt_id attempt ∧ (moment s ≤ t < moment s1)%nat ∧
    ledger_of_run t state (at_attempt_id attempt) commitment manifest evs replay ∧
    reconcile_terminal c attempt state note fixture snapshot commitment manifest evs replay s1 = (Ok e, s').
Proof.
  intros H He Hroots. destruct (ls_roots snapshot) as [|commitment [|]] eqn:El; [done| |done]. injection Hroots as Hid.
  unfold reconcile_ledger in H. apply bindM_Ok in H as (read & s1 & Hread & H).
  destruct read as [e1|[manifest evs]]; [not_expected H|].
  apply attempt_ledger_Ok in Hread as (T & st & Ho & Hm & Hl).
  destruct (is_terminal (m_status manifest)) eqn:Et; simpl in H;
    [|not_expected H].
  destruct (replay_events evs true) as [replay|e1] eqn:Er.
  2:{ destruct e1; apply lift_Ok in H as [H _]; try done. apply attempt_evidence_Ok in H as (_ & Hd & _). congruence. }
  rewrite El in H. apply bindM_Ok in H as (co & s2 & [[= <-] ->]%lift_Ok & H).
  apply bindM_Ok in H as (holds & s3 & [Hh ->]%lift_Ok & H).
  destruct holds; simpl in H; [|not_expected H].
  apply holds_Ok in Hh as (last_event & ? & ? & ? & ?).
  exists commitment, (moment s), manifest, evs, replay, s1. split_and!; try done. by exists st, last_event.
Qed.

(** Evidence that the declared result came about stands for the declared run. *)
Lemma attempt_expected c attempt state note s e s' : _reconcile_attempt c attempt state note s = (Ok e, s') →
  av_disposition e = EXPECTED → stands_for_run c attempt state e (moment s) (moment s').
Proof.
  intros H He. unfold _reconcile_attempt in H. apply bindM_Ok in H as (loaded & s0 & [Hf ->]%lift_Ok & H).
  apply bindM_Ok in H as (first & s1 & Ha & H). pose proof (reads_audit _ _ _ _ Ha) as [T1 _].
  destruct (database_present first); simpl in H; [|not_expected H].
  destruct (ledger_snapshot first) as [snapshot|] eqn:Es; [|not_expected H].
  destruct (bool_decide (rc_run_id <$> ls_roots snapshot = _)) eqn:Ed; simpl in H;
    [|not_expected H].
  apply bool_decide_eq_true in Ed.
  apply ledger_expected in H as (commitment & t & manifest & evs & replay & s2 & ? & ? & ? & ? & H); [|done..].
  apply terminal_expected in H as (task & version & second & sa & sb & terminal & ? & ? & ? & ? & ? & ? & ? & ? & ? & ? & ? & ? & ?); [|done].
  exists loaded, first, s, s1, snapshot, commitment, t, manifest, evs, replay, task, version, second, sa, sb, terminal.
  split_and!; try done; lia.
Qed.

(** Whatever an attempt comes to, the evidence is of that attempt, and is checked, and it
    does not pass over the error of a note. *)
Definition evidence_of (attempt : ReliabilityCampaignAttempt) (note : option _AttemptExecutionNote)
    (e : ReliabilityCampaignAttemptEvidence) : Prop :=
  av_attempt e = attempt ∧ check_attempt_evidence e = Ok e ∧
  (av_disposition e = EXPECTED → ∀ n, note = Some n → nt_error_type n = None).
Lemma evidence_returned attempt observed note disposition text terminal :
  returns (evidence_of attempt note) (lift (_attempt_evidence attempt observed note disposition text terminal)).
Proof.
  intros s e s' [H _]%lift_Ok. split; [by apply attempt_evidence_Ok in H as [? _]|].
  unfold _attempt_evidence in H. split; [by apply settles_attempt_evidence in H|]. intros Hd n ->.
  pose proof (attempt_evidence_parts _ _ H) as (_ & _ & Hs). unfold _shape_matches_disposition in Hs.
  unfold check_attempt_evidence in H. inv_ok. simpl in *. subst.
  destruct (nt_error_type n); [|done]. simpl in *. inv_ok. subst. done.
Qed.
Lemma attempt_returns c attempt state note : returns (evidence_of attempt note) (_reconcile_attempt c attempt state note).
Proof.
  unfold _reconcile_attempt, reconcile_ledger, reconcile_terminal.
  repeat match goal with
  | |- returns _ (lift (_attempt_evidence _ _ _ _ _ _)) => apply evidence_returned
  | |- returns _ (lift (Err _)) => apply returns_raise
  | |- returns _ (mbind _ _) => apply returns_bind; intros ?
  | |- returns _ (match ?x with _ => _ end) => destruct x
  end.
Qed.
End attempt.

(** ** The campaign *)

(** Calls that only read, one after another: each result, and when it was made. *)
Lemma mapM_window {A B} (P : effect → Prop) (f : A → Sys B) l s l' s' : (∀ a, within P (f a)) →
  mapM_eff f l s = (Ok l', s') →
  (moment s ≤ moment s')%nat ∧
  Forall2 (λ a b, ∃ s1 s2, f a s1 = (Ok b, s2) ∧ (moment s ≤ moment s1)%nat ∧ (moment s2 ≤ moment s')%nat) l l'.
Proof.
  intros Hf. revert s l'. induction l as [|a l IH]; intros s l' H; cbn [mapM_eff] in H.
  - apply retM_Ok in H as [-> ->]. by split.
  - apply bindM_Ok in H as (b & s1 & Ha & H). apply bindM_Ok in H as (bs & s2 & Hl & [-> ->]%retM_Ok).
    pose proof (Hf a _ _ _ Ha) as [T1 _]. apply IH in Hl as [T2 Hl]. split; [lia|]. constructor.
    + exists s, s1. split_and!; [done|lia..].
    + eapply Forall2_impl; [exact Hl|]. intros x y (s3 & s4 & ? & ? & ?). exists s3, s4. split_and!; [done|lia..].
Qed.

Section reconcile.
Context {hashing : Hashing} {datetimes : PydanticDatetime} {parser : PydanticJson}.
Context {world : World} {workspaces : Workspaces} {walks : Walks} {ledgers : Ledgers} {wall : WallClock}.
Context {audits : Environment}.

Lemma reads_state_manifest state expected : reads_only (verify_state_manifest state expected).
Proof.
  unfold verify_state_manifest. apply within_catch; [solve_within|].
  intros e k. destruct e; intros [=]; subst. apply within_ret.
Qed.

Lemma reads_reconcile patience c state ns revision recorded_at :
  reads_only (reconcile_reliability_campaign patience c state ns revision recorded_at).
Proof.
  unfold reconcile_reliability_campaign. solve_within; [apply reads_state_manifest|].
  apply within_mapM. intros. apply reads_attempt.
Qed.

Lemma report_body_claims b b' : check_report_body b = Ok b' →
  mapR check_attempt_evidence (bd_attempts b) = Ok (bd_attempts b') ∧ bd_campaign_passed b' = bd_campaign_passed b ∧
  bd_state_manifest_verified b' = bd_state_manifest_verified b ∧ bd_code_identity_verified b' = bd_code_identity_verified b.
Proof. unfold check_report_body. intros H. inv_ok. by simpl in *. Qed.

Lemma report_body_of r r' : check_campaign_report r = Ok r' → check_report_body (rp_body r) = Ok (rp_body r').
Proof. unfold check_campaign_report. intros H. inv_ok. by simpl in *. Qed.

Lemma report_on_Ok c revision recorded sv cv attempts r : Forall (λ e, check_attempt_evidence e = Ok e) attempts →
  report_on c revision recorded sv cv attempts = Ok r →
  check_campaign_report r = Ok r ∧ bd_attempts (rp_body r) = attempts ∧
  (bd_campaign_passed (rp_body r) = true → sv = true ∧ cv = true ∧ Forall stands attempts).
Proof.
  intros Ha. unfold report_on. intros H. inv_ok.
  match goal with X : check_campaign_report _ = Ok r |- _ =>
    split; [by apply settles_campaign_report in X|apply report_body_of in X; rename X into Hb] end.
  match goal with X : check_report_body _ = Ok ?b |- _ => tryif constr_eq b (rp_body r) then fail else rename X into Hb0 end.
  pose proof (settles_report_body _ _ Hb0) as Hs. cbn [rp_body] in Hb. rewrite Hs in Hb. injection Hb as Hb. rewrite <- Hb.
  apply report_body_claims in Hb0 as (Hl & -> & _). cbn [bd_attempts bd_campaign_passed] in *.
  split.
  - assert (mapR check_attempt_evidence attempts = Ok attempts) as Hk; [|congruence].
    clear -Ha. induction Ha as [|e l He _ IH]; [done|]. simpl. by rewrite He, IH.
  - by apply passed_stands.
Qed.

(** Every declared attempt has checked evidence, in the order of the schedule, and evidence
    that the declared result came about stands for a run. *)
Definition stands_for_schedule (c : LoadedReliabilityCampaign) (state : path) (ns : notes) (since until : nat)
    (evidence : list ReliabilityCampaignAttemptEvidence) : Prop :=
  Forall2 (λ attempt e, evidence_of attempt (ns !! at_attempt_id attempt) e ∧
      (av_disposition e = EXPECTED → ∃ t t', (since ≤ t)%nat ∧ (t' ≤ until)%nat ∧
         stands_for_run c attempt (attempt_directory state attempt) e t t'))
    (mf_attempts (lc_manifest c)) evidence.

(** What the report of a reconciliation is made of. *)
Lemma reconcile_parts patience c state ns revision recorded_at s r s' :
  reconcile_reliability_campaign patience c state ns revision recorded_at s = (Ok r, s') →
  stands_for_schedule c state ns (moment s) (moment s') (bd_attempts (rp_body r)) ∧
  ∃ text sv s1 code sa sb, canonical_json (dump_campaign_manifest (lc_manifest c)) = Ok text ∧
    verify_state_manifest state (utf8_encode text ++ newline) s = (Ok sv, s1) ∧
    campaign_code_source_sha256 patience (lc_repository_root c) sa = (Ok code, sb) ∧
    (bd_campaign_passed (rp_body r) = true →
       sv = true ∧ code = mf_code_source_sha256 (lc_manifest c) ∧ Forall stands (bd_attempts (rp_body r))).
Proof.
  intros H. unfold reconcile_reliability_campaign in H.
  apply bindM_Ok in H as (text & s0 & [Ht ->]%lift_Ok & H).
  apply bindM_Ok in H as (sv & s1 & Hsv & H). pose proof (reads_state_manifest _ _ _ _ _ Hsv) as [T1 _].
  apply bindM_Ok in H as (attempts & s2 & Hat & H).
  apply mapM_window with (P := closes) in Hat as [T2 Hat]; [|intros; apply reads_attempt].
  apply bindM_Ok in H as (code & s3 & Hcode & H). pose proof (reads_code_source _ _ _ _ _ Hcode) as [T3 _].
  apply bindM_Ok in H as (recorded & s4 & Hrec & [Hr ->]%lift_Ok).
  assert (moment s3 ≤ moment s4)%nat as T4.
  { destruct recorded_at; [apply retM_Ok in Hrec as [_ ->]; done|injection Hrec as _ <-; simpl; lia]. }
  apply report_on_Ok in Hr as (_ & -> & Hp).
  2:{ clear -Hat. induction Hat as [|a e ? ? (? & ? & He & _)]; constructor; [by apply attempt_returns in He as (_ & ? & _)|done]. }
  split.
  - eapply Forall2_impl; [exact Hat|]. intros a e (sa & sb & He & Ta & Tb). split; [by apply attempt_returns in He|].
    intros Hd. exists (moment sa), (moment sb). split; [lia|]. split; [lia|]. by eapply attempt_expected.
  - exists text, sv, s1, code, s2, s3. split_and!; try done. intros (-> & Hcv & Hall)%Hp.
    apply String.eqb_eq in Hcv as ->. done.
Qed.

(** C13. A reconciliation only reads, and gives checked evidence of every declared attempt
    in the order of the schedule.  Evidence that the declared result came about stands for a
    run: the attempt's storage was audited before and after it was read, both times with the
    same snapshot of a ledger of exactly that run, the second time clean and with all
    references verified; in between, the ledger gave the committed manifest and events,
    whose replay ends in the declared status and outcome, and the retained task, and all of
    them are what the manifest declares.  A campaign that passed has such evidence of every
    attempt, and the state's manifest and the source code were the declared ones. *)
Theorem passed_campaign_stands_for_runs patience c state ns revision recorded_at s r s' :
  reconcile_reliability_campaign patience c state ns revision recorded_at s = (Ok r, s') →
  (∃ new, effects s' = effects s ++ new ∧ Forall closes new) ∧
  stands_for_schedule c state ns (moment s) (moment s') (bd_attempts (rp_body r)) ∧
  (bd_campaign_passed (rp_body r) = true →
     Forall (λ e, av_disposition e = EXPECTED) (bd_attempts (rp_body r)) ∧
     (∃ text s1 s2, canonical_json (dump_campaign_manifest (lc_manifest c)) = Ok text ∧
        CampaignFiles._read_regular_file (state ++ [_STATE_MANIFEST_NAME]) _MANIFEST_MAX_BYTES s1 =
          (Ok (utf8_encode text ++ newline), s2)) ∧
     ∃ s1 s2, campaign_code_source_sha256 patience (lc_repository_root c) s1 =
        (Ok (mf_code_source_sha256 (lc_manifest c)), s2)).
Proof.
  intros H. pose proof (reads_reconcile _ _ _ _ _ _ _ _ _ H) as [_ Hc]. split; [exact Hc|]. clear Hc.
  apply reconcile_parts in H as (Hs & text & sv & s1 & code & sa & sb & Ht & Hsv & Hcode & Hp). split; [exact Hs|].
  intros (-> & -> & Hall)%Hp. split; [|split].
  - eapply Forall_impl; [exact Hall|]. by intros e [? _].
  - exists text. unfold verify_state_manifest in Hsv. apply catch_Ok in Hsv as [Hsv|(e & s5 & k & _ & Hk & Hsv)].
    + apply bindM_Ok in Hsv as (observed & s5 & Hrd & [Hb _]%retM_Ok). symmetry in Hb. apply bool_decide_eq_true in Hb as ->.
      by eexists _, _.
    + destruct e; try done. injection Hk as <-. by apply retM_Ok in Hsv as [? _].
  - by eexists _, _.
Qed.
End reconcile.
