(* ===== verification/CampaignDispatch.v ===== *)
(** * What the dispatch of a campaign does with what its runs raise

    Every attempt of the schedule is dispatched in its turn; whatever its run raises becomes
    a note on that attempt, and only on it; and the result that was declared is only
    reported of an attempt that was executed between two looks at its fixture. *)

From S2P Require Import Prelude Order Loop Effects PyStr Files Descriptors Disk Float64 Json Text Patch Hash Datetime Fields.
From S2P Require Import Usage Budget Models Specs LocalEvaluation Protocol Replay Sqlite EventStore Artifacts ArtifactFacts.
From S2P Require Import Fixture Integrity Coordinator Maintenance Recovery Runner Reports Campaign.
From S2P Require Import CampaignFiles CampaignRun CampaignRecords CampaignFacts CampaignReconcile.

Local Open Scope Z_scope.

(** A fold over programs: each step, in its order. *)
Lemma fold_eff_app {S A B} (f : A → B → eff S A) acc l k s :
  fold_eff f acc (l ++ k) s = (acc ← fold_eff f acc l; fold_eff f acc k) s.
Proof.
  revert acc s. induction l as [|b l IH]; intros acc s; [done|].
  unfold mbind, eff_bind in *. cbn [fold_eff app]. unfold mbind, eff_bind. destruct (f acc b s) as [[a|e] s1]; [apply IH|done].
Qed.

(** A fold that ends goes through a state and an accumulator for each of its steps. *)
Lemma fold_eff_trace {S A B} (f : A → B → eff S A) acc l s acc' s' : fold_eff f acc l s = (Ok acc', s') →
  ∃ (states : nat → S) (accs : nat → A), states 0%nat = s ∧ accs 0%nat = acc ∧ states (length l) = s' ∧
    accs (length l) = acc' ∧
    ∀ i b, l !! i = Some b → f (accs i) b (states i) = (Ok (accs (i + 1)%nat), states (i + 1)%nat).
Proof.
  revert acc s. induction l as [|b l IH]; intros acc s H; cbn [fold_eff] in H.
  { injection H as <- <-. by exists (λ _, s), (λ _, acc). }
  apply bindM_Ok in H as (a & s1 & Hb & H). apply IH in H as (states & accs & <- & <- & Hs & Ha & H).
  exists (λ i, match i with O => s | S i => states i end), (λ i, match i with O => acc | S i => accs i end).
  split_and!; [done..|]. intros [|i] b' Hi; [by injection Hi as ->|]. exact (H i b' Hi).
Qed.

Lemma enumerate_lookup {A} (l : list A) index a : (index, a) ∈ enumerate l ↔ l !! index = Some a.
Proof.
  unfold enumerate. rewrite list_elem_of_lookup. setoid_rewrite lookup_zip_Some. split.
  - intros (i & [-> _]%lookup_seq & H). done.
  - intros H. exists index. split; [|done]. apply lookup_seq. split; [done|]. by eapply lookup_lt_Some.
Qed.

Section dispatch.
Context {hashing : Hashing} {datetimes : PydanticDatetime} {parser : PydanticJson}.
Context {world : World} {workspaces : Workspaces} {walks : Walks} {ledgers : Ledgers} {wall : WallClock}.
Context {audits : Environment} {kernel : Kernel} {disk : Disk} {writable : WritableLedgers} {stores : EventLedgers}.
Context {evaluator : Evaluator}.
Variable clocks : nat → Environment.
Variable locks : nat.
Variable patience : positive.
Variable c : LoadedReliabilityCampaign.
Variable state : path.

(** A look at a fixture that gave its declared identity. *)
Definition identified (loaded : LoadedReliabilityCampaignFixture) (s s' : run_state) : Prop :=
  in_system (campaign_fixture_tree_sha256 patience (lf_root loaded)) s =
    (Ok (fx_fixture_tree_sha256 (lf_specification loaded)), s').

(** A run that raised nothing but the refusal of a budget, which was followed by a recovery. *)
Definition ran (index : nat) (loaded : LoadedReliabilityCampaignFixture) (attempt : ReliabilityCampaignAttempt)
    (s s' : run_state) : Prop :=
  let env := clocks index in
  let attempt_state := attempt_directory state attempt in
  ∃ result s1, run_attempt locks patience (lc_manifest c) loaded attempt attempt_state s = (result, s1) ∧
    ((∃ run, result = Ok run ∧ s' = s1) ∨
     (∃ msg outcome, result = Err (BudgetExceededError msg) ∧
        _recover_after_execution_error locks attempt_state attempt s1 = (Ok outcome, s'))).

(** The attempt at [index] was executed, from one state to another: its fixture was the
    declared one, its run began with a clock of its own and raised nothing else, and its
    fixture still was the declared one. *)
Definition executed_from (s : run_state) (index : nat) (attempt : ReliabilityCampaignAttempt) (s' : run_state) : Prop :=
  ∃ loaded s1 s2, campaign_fixture c (at_fixture_id attempt) = Ok loaded ∧ identified loaded s s1 ∧
    ran index loaded attempt {| rn_recovery := rn_recovery s1; rn_ticks := 0 |} s2 ∧ identified loaded s2 s'.
Definition executed (index : nat) (attempt : ReliabilityCampaignAttempt) : Prop :=
  ∃ s s', executed_from s index attempt s'.

(** Every note names an error. *)
Definition all_noted (ns : notes) : Prop := ∀ id n, ns !! id = Some n → nt_error_type n ≠ None.

Lemma all_noted_insert ns id n : all_noted ns → nt_error_type n ≠ None → all_noted (<[id:=n]> ns).
Proof. intros H Hn id' n'. rewrite lookup_insert_Some. intros [[-> <-]|[? ?]]; [done|by eapply H]. Qed.

Lemma recovery_caught {env : Environment} attempt_state attempt s :
  ∃ succeeded s', _recover_after_execution_error locks attempt_state attempt s = (Ok (true, succeeded), s').
Proof. unfold _recover_after_execution_error, catch, mbind, eff_bind. destruct (on_recovery _ s) as [[a|e] s1]; simpl; eauto. Qed.

(** The [except] clauses never raise: they leave a note, but for a refused budget. *)
Lemma error_noted {env : Environment} attempt_state attempt ns e s :
  ∃ ns' s', note_execution_error locks attempt_state attempt ns e s = (Ok ns', s') ∧
    ((∃ n, ns' = <[at_attempt_id attempt:=n]> ns ∧ nt_error_type n ≠ None) ∨
     (ns' = ns ∧ ∃ msg outcome, e = BudgetExceededError msg ∧
        _recover_after_execution_error locks attempt_state attempt s = (Ok outcome, s'))).
Proof.
  destruct (recovery_caught attempt_state attempt s) as (succeeded & s' & E).
  assert (∀ f : bool * bool → notes, (x ← _recover_after_execution_error locks attempt_state attempt; mret (f x)) s =
    (Ok (f (true, succeeded)), s')) as Hr by (intros f; unfold mbind, eff_bind; by rewrite E).
  destruct e; cbn [note_execution_error];
    first [ eexists _, _; split; [apply (Hr (λ _, ns))|]; right; by eauto 6
          | eexists _, _; split; [unfold mbind, eff_bind; rewrite E; reflexivity|]; left; eexists; by split
          | eexists _, _; split; [reflexivity|]; left; eexists; by split ].
Qed.

(** A look at the attempt's fixture failed. *)
Definition unidentified (attempt : ReliabilityCampaignAttempt) (e : exn) : Prop :=
  campaign_fixture c (at_fixture_id attempt) = Err e ∨
  ∃ loaded s s', campaign_fixture c (at_fixture_id attempt) = Ok loaded ∧
    in_system (campaign_fixture_tree_sha256 patience (lf_root loaded)) s = (Err e, s').

(** An attempt after its turn has a note that names an error, or was executed. *)
Definition accounted (s : run_state) (ns : notes) (index : nat) (attempt : ReliabilityCampaignAttempt) (ns' : notes)
    (s' : run_state) : Prop :=
  (∃ n, ns' = <[at_attempt_id attempt:=n]> ns ∧ nt_error_type n ≠ None) ∨ (ns' = ns ∧ executed_from s index attempt s').

Lemma note_changed prior : (∀ n, prior = Some n → nt_error_type n ≠ None) →
  nt_error_type (changed_during_execution prior) ≠ None.
Proof. intros H. unfold changed_during_execution. destruct prior as [n|]; simpl; [by apply H|done]. Qed.

(** The last look at the fixture, after a run that left [ns']. *)
Lemma last_look ns ns' loaded attempt (s3 : run_state) r s' : all_noted ns' →
  (∃ n, ns' = <[at_attempt_id attempt:=n]> ns ∧ nt_error_type n ≠ None) ∨ ns' = ns →
  campaign_fixture c (at_fixture_id attempt) = Ok loaded →
  (final ← in_system (campaign_fixture_tree_sha256 patience (lf_root loaded));
   mret (if str_eqb final (fx_fixture_tree_sha256 (lf_specification loaded)) then ns'
         else <[at_attempt_id attempt := changed_during_execution (ns' !! at_attempt_id attempt)]> ns')) s3 = (r, s') →
  match r with
  | Ok ns'' => (∃ n, ns'' = <[at_attempt_id attempt:=n]> ns ∧ nt_error_type n ≠ None) ∨
               (ns'' = ns ∧ ns' = ns ∧ identified loaded s3 s')
  | Err e => unidentified attempt e
  end.
Proof.
  intros Hn Hns Hf H. apply bindM_inv in H as [(final & s4 & Hl & H)|(e & He & ->)]; [|right; eauto].
  injection H as <- <-. destruct (str_eqb final _) eqn:E.
  - apply String.eqb_eq in E as ->. destruct Hns as [Hns| ->]; [left; exact Hns|right; split_and!; [done|done|exact Hl]].
  - left. eexists. split; [|apply note_changed; intros n; apply Hn].
    destruct Hns as [(n & -> & _)| ->]; [by rewrite insert_insert_eq|done].
Qed.

Lemma run_caught ns index loaded attempt s r s' :
  catch (_ ← run_attempt (env := clocks index) locks patience (lc_manifest c) loaded attempt (attempt_directory state attempt);
         mret ns)
    (λ e, Some (note_execution_error (env := clocks index) locks (attempt_directory state attempt) attempt ns e)) s = (r, s') →
  ∃ ns', r = Ok ns' ∧ ((∃ n, ns' = <[at_attempt_id attempt:=n]> ns ∧ nt_error_type n ≠ None) ∨
                       (ns' = ns ∧ ran index loaded attempt s s')).
Proof.
  unfold catch. intros H. match type of H with match ?x with _ => _ end = _ => destruct x as [[ns1|e] s1] eqn:E end.
  - injection H as <- <-. apply bindM_Ok in E as (result & s2 & Hr & [-> ->]%retM_Ok). exists ns. split; [done|].
    right. split; [done|]. eexists _, _. split; [exact Hr|]. left. by eexists.
  - apply bindM_Err in E as [E|(? & ? & _ & [=])].
    destruct (error_noted (env := clocks index) (attempt_directory state attempt) attempt ns e s1) as (ns' & s2 & H' & Hc).
    rewrite H in H'. injection H' as -> ->. exists ns'. split; [done|]. destruct Hc as [Hc|(-> & msg & outcome & -> & Hc)]; [by left|].
    right. split; [done|]. eexists _, _. split; [exact E|]. right. eauto.
Qed.

Lemma all_noted_accounted ns attempt ns' : all_noted ns →
  (∃ n, ns' = <[at_attempt_id attempt:=n]> ns ∧ nt_error_type n ≠ None) ∨ ns' = ns → all_noted ns'.
Proof. intros H [(n & -> & Hn)| ->]; [by apply all_noted_insert|done]. Qed.

Lemma dispatch_spec ns index attempt s r s' : all_noted ns →
  dispatch_attempt clocks locks patience c state ns (index, attempt) s = (r, s') →
  match r with Ok ns' => accounted s ns index attempt ns' s' | Err e => unidentified attempt e end.
Proof.
  intros Hn H. unfold dispatch_attempt in H.
  apply bindM_inv in H as [(loaded & s0 & [Hf ->]%lift_Ok & H)|(e & [= He _] & ->)]; [|by left].
  apply bindM_inv in H as [(observed & s1 & Hl & H)|(e & He & ->)]; [|right; eauto].
  destruct (str_eqb observed _) eqn:E; cbn [negb] in H.
  2:{ injection H as <- <-. left. by exists changed_before_dispatch. }
  apply String.eqb_eq in E as ->.
  apply bindM_inv in H as [(? & s2 & [= <- <-] & H)|(e & [=] & ->)].
  apply bindM_inv in H as [(ns' & s3 & Hc & H)|(e & He & ->)].
  2:{ by apply run_caught in He as (? & ? & _). }
  apply run_caught in Hc as (ns1 & [= <-] & Hc).
  apply last_look with (ns := ns) in H; [|eapply all_noted_accounted; [exact Hn|]|naive_solver|done]; [|naive_solver].
  destruct r as [ns''|e]; [|done]. destruct H as [H|(-> & -> & H)]; [by left|].
  destruct Hc as [(n & Hns & Hn')|(_ & Hc)].
  - left. exists n. by rewrite <- Hns.
  - right. split; [done|]. by exists loaded, s1, s3.
Qed.

(** The whole schedule, from its first attempt. *)
Lemma schedule_accounted ns l s r s' : all_noted ns → fold_eff (dispatch_attempt clocks locks patience c state) ns l s = (r, s') →
  match r with
  | Ok ns' => all_noted ns' ∧ (∀ id, is_Some (ns !! id) → is_Some (ns' !! id)) ∧
              ∀ index attempt, (index, attempt) ∈ l → is_Some (ns' !! at_attempt_id attempt) ∨ executed index attempt
  | Err e => ∃ index attempt, (index, attempt) ∈ l ∧ unidentified attempt e
  end.
Proof.
  revert ns s. induction l as [|[index attempt] l IH]; intros ns s Hn H; cbn [fold_eff] in H.
  { injection H as <- <-. split_and!; [done|done|]. by intros ? ? ?%not_elem_of_nil. }
  apply bindM_inv in H as [(ns1 & s1 & Hd & H)|(e & Hd & ->)]; apply dispatch_spec in Hd; try done.
  2:{ exists index, attempt. split; [left|done]. }
  assert (all_noted ns1 ∧ (∀ id, is_Some (ns !! id) → is_Some (ns1 !! id)) ∧
          (is_Some (ns1 !! at_attempt_id attempt) ∨ executed index attempt)) as (Hn1 & Hkeep & Hhere).
  { destruct Hd as [(n & -> & Hnn)|[-> He]]; [|split_and!; [done|done|right; by eexists _, _]]. split; [by apply all_noted_insert|]. split.
    - intros id Hid. destruct (decide (at_attempt_id attempt = id)) as [->|Hne]; [by rewrite lookup_insert_eq|].
      by rewrite lookup_insert_ne.
    - left. by rewrite lookup_insert_eq. }
  apply IH in H; [|done]. destruct r as [ns'|e].
  - destruct H as (H1 & H2 & H3). split_and!; [done|by auto|]. intros i a [[= -> ->]|Hin]%elem_of_cons; [|by apply H3].
    destruct Hhere; [left; by apply H2|by right].
  - destruct H as (i & a & Hin & Hu). exists i, a. split; [by right|done].
Qed.

(** C15. The schedule is dispatched to its end.  As long as the fixtures can be identified,
    nothing that a run or a recovery raises ends the campaign: every declared attempt gets
    its turn, and after it either a note names the error, or the attempt was executed, with
    a clock of its own, between two looks at its fixture that gave the declared identity. *)
Theorem schedule_is_dispatched_to_its_end s : let attempts := mf_attempts (lc_manifest c) in
  (∀ attempt e, attempt ∈ attempts → ¬ unidentified attempt e) →
  ∃ ns s', fold_eff (dispatch_attempt clocks locks patience c state) ∅ (enumerate attempts) s = (Ok ns, s') ∧
    all_noted ns ∧
    ∀ index attempt, attempts !! index = Some attempt → is_Some (ns !! at_attempt_id attempt) ∨ executed index attempt.
Proof.
  intros attempts Hi. assert (all_noted ∅) as Hn by (intros id n; by rewrite lookup_empty).
  destruct (fold_eff _ ∅ _ s) as [r s'] eqn:E. pose proof (schedule_accounted _ _ _ _ _ Hn E) as H. destruct r as [ns|e].
  - destruct H as (H1 & _ & H3). exists ns, s'. split_and!; [done|done|]. intros index attempt Ha%enumerate_lookup. by apply H3.
  - destruct H as (index & attempt & Hin%enumerate_lookup & Hu). exfalso. eapply Hi; [|exact Hu].
    by eapply list_elem_of_lookup_2.
Qed.
End dispatch.

Section campaign.
Context {hashing : Hashing} {datetimes : PydanticDatetime} {parser : PydanticJson}.
Context {world : World} {workspaces : Workspaces} {walks : Walks} {ledgers : Ledgers} {wall : WallClock}.
Context {audits : Environment} {kernel : Kernel} {disk : Disk} {writable : WritableLedgers} {stores : EventLedgers}.
Context {evaluator : Evaluator}.

(** The moment of the machine. *)
Definition clock (s : run_state) : nat := moment (machine_of (rc_process (rn_recovery s))).

Lemma in_system_run {A} (m : Sys A) s a s' : in_system m s = (Ok a, s') →
  ∃ w w', m w = (Ok a, w') ∧ moment w = clock s ∧ moment w' = clock s'.
Proof.
  unfold in_system, on_recovery, on_system, on_process, on_os. intros H.
  destruct (m (machine_of (rc_process (rn_recovery s)))) as [r w] eqn:E. injection H as -> <-.
  exists (machine_of (rc_process (rn_recovery s))), w. split_and!; [exact E|done|reflexivity].
Qed.

(** What the notes and the states of the dispatch say of each attempt. *)
Lemma turn_accounted clocks locks patience c state (attempts : list ReliabilityCampaignAttempt) (turn : nat → run_state)
    (noted : nat → notes) : noted 0%nat = ∅ →
  (∀ i b, enumerate attempts !! i = Some b →
     dispatch_attempt clocks locks patience c state (noted i) b (turn i) = (Ok (noted (i + 1)%nat), turn (i + 1)%nat)) →
  ∀ n, (n ≤ length attempts)%nat → all_noted (noted n) ∧
    ∀ index attempt, (index < n)%nat → attempts !! index = Some attempt →
      is_Some (noted n !! at_attempt_id attempt) ∨
      executed_from clocks locks patience c state (turn index) index attempt (turn (index + 1)%nat).
Proof.
  intros H0 Hd n. induction n as [|n IH]; intros Hn; [split; [intros id k; by rewrite H0, lookup_empty|lia]|].
  destruct IH as [Ha He]; [lia|]. destruct (lookup_lt_is_Some_2 attempts n) as [attempt Hat]; [lia|].
  assert (enumerate attempts !! n = Some (n, attempt)) as Hen.
  { unfold enumerate. apply lookup_zip_Some. split; [|done]. apply lookup_seq. split; lia. }
  pose proof (Hd _ _ Hen) as Hturn. apply dispatch_spec in Hturn; [|done]. rewrite Nat.add_1_r in *.
  assert (all_noted (noted (S n)) ∧ ∀ id, is_Some (noted n !! id) → is_Some (noted (S n) !! id)) as [Hall Hkeep].
  { destruct Hturn as [(k & -> & Hk)|[-> _]]; [|done]. split; [by apply all_noted_insert|]. intros id Hid.
    destruct (decide (at_attempt_id attempt = id)) as [->|Hne]; [by rewrite lookup_insert_eq|by rewrite lookup_insert_ne]. }
  split; [done|]. intros index a Hi Hl. destruct (decide (index = n)) as [->|Hne].
  - rewrite Hat in Hl. injection Hl as ->. rewrite Nat.add_1_r. destruct Hturn as [(k & -> & _)|[_ Hx]]; [left|by right].
    by rewrite lookup_insert_eq.
  - destruct (He index a) as [Hx|Hx]; [lia|done|left; by apply Hkeep|by right].
Qed.

(** C14. A declared result that a campaign reports was executed in its turn, and is what was
    left afterwards.  The campaign prepares a state directory of its own and writes the
    manifest there; then the attempts are dispatched one after another, in the order of the
    schedule, each from the state that the one before it left; and then it looks at what is
    left.  An attempt that is reported as expected was executed in its turn: its fixture was
    the declared one, the run began with a clock of its own and raised nothing (but possibly
    a budget's refusal), and its fixture still was the declared one.  And its evidence stands
    for the run that was found there after the last turn. *)
Theorem expected_results_were_executed clocks locks patience c state_directory revision recorded_at s r s' :
  run_reliability_campaign clocks locks patience c state_directory revision recorded_at s = (Ok r, s') →
  let attempts := mf_attempts (lc_manifest c) in let n := length attempts in
  ∃ s1 s2 state text (turn : nat → run_state) (noted : nat → notes),
    in_system (_require_supported_execution patience c) s = (Ok tt, s1) ∧
    in_system (_prepare_new_campaign_state state_directory) s1 = (Ok state, s2) ∧
    canonical_json (dump_campaign_manifest (lc_manifest c)) = Ok text ∧
    in_system (write_campaign_evidence_file (utf8_encode text) (state ++ [_STATE_MANIFEST_NAME])) s2 = (Ok tt, turn 0%nat) ∧
    noted 0%nat = ∅ ∧
    (∀ index attempt, attempts !! index = Some attempt →
       dispatch_attempt clocks locks patience c state (noted index) (index, attempt) (turn index) =
         (Ok (noted (index + 1)%nat), turn (index + 1)%nat)) ∧
    in_system (reconcile_reliability_campaign patience c state (noted n) revision recorded_at) (turn n) = (Ok r, s') ∧
    ∀ index e, bd_attempts (rp_body r) !! index = Some e →
      attempts !! index = Some (av_attempt e) ∧
      (av_disposition e = EXPECTED →
         executed_from clocks locks patience c state (turn index) index (av_attempt e) (turn (index + 1)%nat) ∧
         ∃ since until, (clock (turn n) ≤ since)%nat ∧ (until ≤ clock s')%nat ∧
           stands_for_run c (av_attempt e) (attempt_directory state (av_attempt e)) e since until).
Proof.
  intros H. cbv zeta. unfold run_reliability_campaign in H.
  apply bindM_Ok in H as ([] & s1 & H1 & H). apply bindM_Ok in H as (state & s2 & H2 & H).
  apply bindM_Ok in H as (text & s3 & [Ht ->]%lift_Ok & H). apply bindM_Ok in H as ([] & s4 & H4 & H).
  apply bindM_Ok in H as (ns & s5 & Hd & H). apply fold_eff_trace in Hd as (turn & noted & <- & H0 & Hs & Hns & Hd).
  assert (length (enumerate (mf_attempts (lc_manifest c))) = length (mf_attempts (lc_manifest c))) as El.
  { unfold enumerate. rewrite length_zip, length_seq. apply Nat.min_id. }
  rewrite El in Hs, Hns. subst s5 ns. exists s1, s2, state, text, turn, noted.
  split; [exact H1|]. split; [exact H2|]. split; [exact Ht|]. split; [exact H4|]. split; [exact H0|]. split.
  { intros index attempt Ha. apply Hd. apply lookup_zip_Some. split; [|done]. apply lookup_seq. split; [lia|]. by eapply lookup_lt_Some. }
  split; [exact H|]. intros index e He. destruct (turn_accounted _ _ _ _ _ _ _ _ H0 Hd _ (le_n _)) as [Hn Hex].
  apply in_system_run in H as (w & w' & [Hr _]%reconcile_parts & <- & <-).
  destruct (Forall2_lookup_r _ _ _ _ _ Hr He) as (attempt & Ha & (<- & _ & Hnote) & Hst). split; [done|].
  intros Hexp. split; [|by apply Hst].
  destruct (Hex index (av_attempt e)) as [[k Hk]|?]; [by eapply lookup_lt_Some|done| |done].
  exfalso. eapply Hn; [exact Hk|]. by apply Hnote.
Qed.
End campaign.
