(* ===== verification/CampaignPublish.v ===== *)
(** * What the publication of evidence does to the disk

    The trace of [write_campaign_evidence_file], however it ends: the evidence gets its
    name by one rename that never replaces, from a temporary that holds all of its bytes,
    synced and closed; what is not renamed is not left under that name. *)

From S2P Require Import Prelude Order Loop Effects PyStr Files Descriptors Disk Float64 Json Text Patch Hash Datetime Fields.
From S2P Require Import Usage Models Specs LocalEvaluation Artifacts ArtifactFacts Fixture Reports.
From S2P Require Import Campaign CampaignFiles CampaignReconcile.

Local Open Scope Z_scope.

(** What a program adds to the log, as time goes on. *)
Definition logs (s s' : sys) (l : list effect) : Prop := (moment s ≤ moment s')%nat ∧ effects s' = effects s ++ l.
Lemma logs_refl s : logs s s [].
Proof. unfold logs. by rewrite app_nil_r. Qed.
Lemma logs_trans s1 s2 s3 l k : logs s1 s2 l → logs s2 s3 k → logs s1 s3 (l ++ k).
Proof. unfold logs. intros [? H1] [? H2]. split; [lia|]. by rewrite H2, H1, app_assoc. Qed.
Lemma quiet_logs {A} (m : Sys A) s r s' : quiet m → m s = (r, s') → logs s s' [].
Proof. intros Hq H. destruct (quiet_Ok _ _ _ _ Hq H) as [? E]. split; [done|]. by rewrite E, app_nil_r. Qed.

Section publication.
Context {world : World} {workspaces : Workspaces} {kernel : Kernel} {disk : Disk}.

Lemma system_logs {A} (f : nat → os_result A) log s r s' : system f log s = (r, s') →
  ∃ o, r = Ok o ∧ logs s s' (match o with Done a => log a | OSError _ => [] end) ∧ o = f (moment s) ∧ moment s' = S (moment s).
Proof.
  unfold system, logs. intros [= <- <-]. eexists. split; [done|]. simpl. split; [|done]. split; [lia|].
  destruct (f _); [done|by rewrite app_nil_r].
Qed.

Lemma close_fd_logs fd s r s' : close_fd fd s = (r, s') → logs s s' [CloseFd fd].
Proof.
  unfold close_fd. intros H. apply bindM_inv in H as [(o & s1 & [= <- <-] & H)|(e & [=] & _)].
  unfold logs. destruct (kernel_close _ _); injection H as <- <-; (split; [simpl; lia|done]).
Qed.

(** A payload in the pieces that were written. *)
Definition pieces (fd : Z) (chunks : list (list Byte.byte)) : list effect := WriteFd fd <$> chunks.

(** The writes of the payload, until [offset]. *)
Lemma writes_logs fd payload s r s' : (∀ t data n, disk_write t fd data = Done n → 0 ≤ n) →
  loopM (Z.to_pos (Z.of_nat (length payload) + 1)) (write_payload fd payload) 0 s = (r, s') →
  ∃ chunks, logs s s' (pieces fd chunks) ∧ (r = Ok tt → concat chunks = payload).
Proof.
  intros Hw H.
  pose (T := λ (a : Z) (s1 : sys), ∃ chunks, logs s s1 (pieces fd chunks) ∧ concat chunks = take (Z.to_nat a) payload ∧ 0 ≤ a).
  refine (loopM_ind T (λ r s1, ∃ chunks, logs s s1 (pieces fd chunks) ∧ (r = Ok tt → concat chunks = payload))
            _ (write_payload fd payload) 0 s r s' H _ _ _ _ _).
  - exists []. split_and!; [apply logs_refl|done|done].
  - intros a s1 a' s2 (chunks & H1 & H2 & H3) Hs. unfold write_payload in Hs. destruct (a <? _) eqn:E; [|done].
    apply bindM_Ok in Hs as (o & s3 & Hs & Hr). pose proof (system_logs _ _ _ _ _ Hs) as (o' & [= <-] & Hl & _).
    destruct o as [n|]; [|done]. apply bindM_Ok in Hr as (w & s4 & [-> ->]%retM_Ok & [[= ->] ->]%retM_Ok).
    injection Hs as Hn _. apply Hw in Hn. exists (chunks ++ [take (Z.to_nat n) (drop (Z.to_nat a) payload)]).
    split; [unfold pieces; rewrite fmap_app; by apply (logs_trans _ s1)|].
    split; [|lia]. rewrite concat_app. simpl. rewrite app_nil_r, H2, Z2Nat.inj_add by lia. by rewrite take_take_drop.
  - intros a s1 [] s2 (chunks & H1 & H2 & H3) Hs. unfold write_payload in Hs. destruct (a <? _) eqn:E.
    + apply bindM_Ok in Hs as (o & s3 & _ & Hs). apply bindM_Ok in Hs as (w & s4 & _ & [[=] _]%retM_Ok).
    + apply retM_Ok in Hs as [_ ->]. exists chunks. split; [done|]. intros _. rewrite H2, take_ge; [done|lia].
  - intros a s1 e s2 (chunks & H1 & H2 & H3) Hs. exists chunks. split; [|done]. unfold write_payload in Hs.
    destruct (a <? _); [|done]. apply bindM_Err in Hs as [[=]|(o & s3 & Hs & Hr)].
    pose proof (system_logs _ _ _ _ _ Hs) as (o' & [= <-] & Hl & _).
    destruct o as [n|n]; [by apply bindM_Err in Hr as [[=]|(? & ? & _ & [=])]|].
    apply bindM_Err in Hr as [[= _ <-]|(? & ? & [=] & _)]. rewrite <- (app_nil_r (pieces fd chunks)). by apply (logs_trans _ s1).
  - intros a s1 (chunks & H1 & _). by exists chunks.
Qed.

(** [try: m; finally: c] *)
Lemma finally_inv {A} (m : Sys A) c s r s' : finally m c s = (r, s') →
  ∃ r1 s1 r2, m s = (r1, s1) ∧ c r1 s1 = (r2, s') ∧ ((r2 = Ok tt ∧ r = r1) ∨ ∃ e, r2 = Err e ∧ r = Err e).
Proof.
  unfold finally. destruct (m s) as [r1 s1]. destruct (c r1 s1) as [r2 s2] eqn:E. intros H. exists r1, s1, r2.
  destruct r2 as [[]|e]; injection H as <- <-; split_and!; eauto.
Qed.

(** The temporary from its first write to its closing. *)
Definition staging (fd : Z) (chunks : list (list Byte.byte)) (synced : bool) : list effect :=
  pieces fd chunks ++ (if synced then [FsyncFd fd] else []) ++ [CloseFd fd].

Lemma write_evidence_logs fd payload s r s' : (∀ t data n, disk_write t fd data = Done n → 0 ≤ n) →
  write_evidence fd payload s = (r, s') →
  ∃ chunks synced, logs s s' (staging fd chunks synced) ∧ (r = Ok tt → synced = true ∧ concat chunks = payload).
Proof.
  intros Hw H. unfold write_evidence in H. apply finally_inv in H as (r1 & s1 & r2 & Hm & Hc%close_fd_logs & Hr).
  assert (∃ chunks synced, logs s s1 (pieces fd chunks ++ (if synced : bool then [FsyncFd fd] else [])) ∧
            (r1 = Ok tt → synced = true ∧ concat chunks = payload)) as (chunks & synced & Hl & Hok).
  { apply bindM_inv in Hm as [([] & s2 & Hloop & Hm)|(e & Hloop & ->)];
      apply writes_logs in Hloop as (chunks & Hl & Hok); try done.
    2:{ exists chunks, false. by rewrite app_nil_r. }
    specialize (Hok eq_refl). apply bindM_inv in Hm as [(o & s3 & Hs & Hm)|(e & [=] & _)].
    pose proof (system_logs _ _ _ _ _ Hs) as (o' & [= <-] & Hl' & _).
    destruct o as [[]|n]; [|apply bindM_inv in Hm as [(? & ? & [=] & _)|(e & [= _ <-] & ->)]].
    2:{ exists chunks, false. split; [by eapply logs_trans|done]. }
    exists chunks, true. split; [|done]. rewrite <- (app_nil_r (_ ++ _)). eapply logs_trans; [by eapply logs_trans|].
    eapply quiet_logs; [|exact Hm]. unfold quiet, raise_os. solve_within.
    apply within_none. intros s5 r5 s6 [= <- <-]. split; [simpl; lia|]. simpl. destruct (kernel_fstat _ _); [by rewrite app_nil_r|done]. }
  exists chunks, synced. split; [unfold staging; rewrite app_assoc; by eapply logs_trans|].
  intros ->. destruct Hr as [[_ <-]|(e & _ & [=])]. by apply Hok.
Qed.

(** A temporary that was not renamed is removed and its directory synced, unless the system,
    asked at a moment between [from] and [to], refuses to. *)
Definition cleanup_of (from to : nat) (parent : Z) (temporary : string) (l : list effect) : Prop :=
  (l = [] ∧ ∃ t n, (from ≤ t < to)%nat ∧ disk_unlink t parent temporary = OSError n) ∨
  (l = [UnlinkAt parent temporary] ∧ ∃ t n, (from ≤ t < to)%nat ∧ kernel_fsync t parent = OSError n) ∨
  l = [UnlinkAt parent temporary; FsyncFd parent].
Lemma cleanup_mono from to from' to' parent temporary l : cleanup_of from to parent temporary l →
  (from' ≤ from)%nat → (to ≤ to')%nat → cleanup_of from' to' parent temporary l.
Proof.
  intros [(-> & t & n & ? & ?)|[(-> & t & n & ? & ?)|H]] ? ?; [left|right; left|right; right; done]; (split; [done|]);
    exists t, n; (split; [lia|done]).
Qed.

Lemma discard_logs parent temporary s r s' : discard_temporary parent temporary s = (r, s') →
  r = Ok tt ∧ ∃ l, logs s s' l ∧ cleanup_of (moment s) (moment s') parent temporary l.
Proof.
  intros H. unfold discard_temporary in H. apply bindM_inv in H as [(o & s1 & Hs & H)|(e & [=] & _)].
  pose proof (system_logs _ _ _ _ _ Hs) as (o' & [= <-] & Hl & Ho & T1). destruct o as [[]|n].
  - apply bindM_inv in H as [(o & s2 & Hs' & H)|(e & [=] & _)]. injection H as <- <-. split; [done|].
    pose proof (system_logs _ _ _ _ _ Hs') as (o' & [= <-] & Hl' & Ho' & T2). destruct o as [[]|n].
    + eexists. split; [by eapply logs_trans|]. by right; right.
    + eexists. split; [by eapply logs_trans|]. right; left. split; [done|]. exists (moment s1), n. split; [lia|done].
  - injection H as <- <-. split; [done|]. exists []. split; [done|]. left. split; [done|]. exists (moment s), n. split; [lia|done].
Qed.

(** From the creation of the temporary: it is renamed when it is complete, or discarded. *)
Lemma rename_logs parent fd temporary name payload s r s' : (∀ t data n, disk_write t fd data = Done n → 0 ≤ n) →
  rename_evidence parent fd temporary name payload s = (r, s') →
  ∃ chunks, (r = Ok tt ∧ concat chunks = payload ∧
               logs s s' (staging fd chunks true ++ [RenameAt parent temporary parent name])) ∨
            (∃ e synced l, r = Err e ∧ cleanup_of (moment s) (moment s') parent temporary l ∧
               logs s s' (staging fd chunks synced ++ l)).
Proof.
  intros Hw H. unfold rename_evidence in H. apply finally_inv in H as (r1 & s1 & r2 & Hm & Hc & Hr).
  assert (∃ chunks, (r1 = Ok tt ∧ concat chunks = payload ∧
               logs s s1 (staging fd chunks true ++ [RenameAt parent temporary parent name])) ∨
            (∃ e synced, r1 = Err e ∧ logs s s1 (staging fd chunks synced))) as (chunks & [(-> & Hp & Hl)|(e & synced & -> & Hl)]).
  { apply bindM_inv in Hm as [([] & s2 & Hs & Hm)|(e & Hs & ->)];
      apply write_evidence_logs in Hs as (chunks & synced & Hl & Hok); try done; exists chunks; [|right; eauto].
    destruct (Hok eq_refl) as [-> Hp]. apply bindM_inv in Hm as [(o & s3 & Hs & Hm)|(e & [=] & _)].
    pose proof (system_logs _ _ _ _ _ Hs) as (o' & [= <-] & Hl' & _). destruct o as [[]|n].
    - injection Hm as <- <-. left. split_and!; [done|done|by eapply logs_trans].
    - right. destruct (file_exists n); injection Hm as <- <-; eexists _, true; (split; [done|]);
        rewrite <- (app_nil_r (staging _ _ _)); by eapply logs_trans. }
  - injection Hc as <- <-. exists chunks. left. destruct Hr as [[_ ->]|(e & [=] & _)]. done.
  - apply discard_logs in Hc as (-> & l & Hl' & Hd). exists chunks. right. destruct Hr as [[_ ->]|(? & [=] & _)].
    exists e, synced, l. split_and!; [done| |by eapply logs_trans]. eapply cleanup_mono; [exact Hd| |done]. apply Hl.
Qed.

(** What a publication below the open directory [parent] did, between two moments, and
    whether the evidence has its name: no temporary could be created; the temporary was
    discarded; or a temporary with all the bytes, synced and closed, was renamed. *)
Inductive evidence_trace (from to : nat) (parent : Z) (temporary name : string) (payload : list Byte.byte)
    : bool → list effect → Prop :=
  | nothing_created : evidence_trace from to parent temporary name payload false [OpenFd parent; CloseFd parent]
  | discarded fd chunks synced l : cleanup_of from to parent temporary l →
      evidence_trace from to parent temporary name payload false
        ([OpenFd parent; CreateFd parent temporary fd] ++ staging fd chunks synced ++ l ++ [CloseFd parent])
  | published fd chunks rest : concat chunks = payload →
      rest = [CloseFd parent] ∨ rest = [FsyncFd parent; CloseFd parent] ∨ rest = [FsyncFd parent; CloseFd parent; CloseFile] →
      evidence_trace from to parent temporary name payload true
        ([OpenFd parent; CreateFd parent temporary fd] ++ staging fd chunks true ++
         RenameAt parent temporary parent name :: rest).
Lemma trace_mono from to from' to' parent temporary name payload d l : evidence_trace from to parent temporary name payload d l →
  (from' ≤ from)%nat → (to ≤ to')%nat → evidence_trace from' to' parent temporary name payload d l.
Proof. intros [|fd chunks synced k H|fd chunks rest H1 H2] ? ?; constructor; try done. by eapply cleanup_mono. Qed.

(** From the open directory to its closing. *)
Lemma publish_logs parent temporary name payload s r s' : (∀ t fd data n, disk_write t fd data = Done n → 0 ≤ n) →
  publish_evidence parent temporary name payload s = (r, s') →
  (∃ e l, r = Err e ∧ logs s s' l ∧ 
     evidence_trace (moment s) (moment s') parent temporary name payload false (OpenFd parent :: l ++ [CloseFd parent])) ∨
  (∃ fd chunks l, concat chunks = payload ∧
     logs s s' (CreateFd parent temporary fd :: staging fd chunks true ++ RenameAt parent temporary parent name :: l) ∧
     (l = [FsyncFd parent] ∨ (l = [] ∧ ∃ e, r = Err e))).
Proof.
  intros Hw H. unfold publish_evidence, exceptM in H. match type of H with match ?x with _ => _ end = _ => destruct x as [r1 s1] eqn:E end.
  assert (s' = s1) as -> by (destruct r1; by injection H as _ <-).
  assert (∀ e, r1 = Err e → ∃ e', r = Err e') as Herr by (intros e ->; injection H as <-; eauto). clear H.
  apply bindM_inv in E as [(o & s2 & Hs & E)|(e & [=] & _)]. pose proof (system_logs _ _ _ _ _ Hs) as (o' & [= <-] & Hl & _).
  destruct o as [fd|n]; [|apply bindM_inv in E as [(? & ? & [=] & _)|(e & [= _ <-] & ->)]].
  2:{ left. destruct (Herr _ eq_refl) as [e' ->]. exists e', []. split_and!; [done|done|constructor]. }
  apply bindM_inv in E as [(fd' & s3 & [-> ->]%retM_Ok & E)|(e & [=] & _)].
  apply bindM_inv in E as [([] & s3 & Hr & E)|(e & Hr & ->)]; apply rename_logs in Hr as (chunks & Hr); try (intros; by eapply Hw).
  - destruct Hr as [(_ & Hp & Hl')|(? & ? & ? & [=] & _)]. right.
    apply bindM_inv in E as [(o & s4 & Hs' & E)|(e & [=] & _)]. pose proof (system_logs _ _ _ _ _ Hs') as (o' & [= <-] & Hl'' & _).
    assert (logs s s1 ([CreateFd parent temporary fd] ++ (staging fd chunks true ++ [RenameAt parent temporary parent name]) ++
       match o with Done a => [FsyncFd parent] | OSError _ => [] end)) as Hall.
    { eapply logs_trans; [exact Hl|]. eapply logs_trans; [exact Hl'|]. destruct o; injection E as _ <-; done. }
    rewrite <- app_assoc in Hall. exists fd, chunks. eexists. split_and!; [done|exact Hall|].
    destruct o as [[]|n]; [by left|]. injection E as <- _. right. split; [done|]. by eapply Herr.
  - destruct Hr as [([=] & _)|(e' & synced & l & _ & Hd & Hl')]. left. destruct (Herr _ eq_refl) as [e1 ->].
    exists e1, (CreateFd parent temporary fd :: staging fd chunks synced ++ l). split_and!; [done|by apply (logs_trans _ _ _ _ _ Hl Hl')|].
    cbn [app]. rewrite <- app_assoc.
    apply (discarded _ _ parent temporary name payload fd chunks synced l). eapply cleanup_mono; [exact Hd|apply Hl|done].
Qed.

Lemma quiet_available output : quiet (ensure_campaign_output_available output).
Proof.
  unfold quiet, ensure_campaign_output_available, _canonical_real_directory, _canonical_existing_path, lexists, or_unconfigured.
  solve_within.
Qed.

(** The output is available: its directory is where its path says, without any link, and
    its name is free. *)
Definition available (from to : nat) (output : path) : Prop := ∃ t1 t2 t3 m n,
  (from ≤ t1 < t2)%nat ∧ (t2 < t3 < to)%nat ∧
  resolve (FileSystem := fs_at t1) true (path_parent output) = Done (path_parent output) ∧
  lstat (FileSystem := fs_at t2) (path_parent output) = Done m ∧ is_kind Directory m = true ∧
  lstat (FileSystem := fs_at t3) output = OSError n.

Lemma parent_name (p : path) : p ≠ [] → path_parent p ++ [path_name p] = p.
Proof. intros H. unfold path_parent, path_name. symmetry. by apply app_removelast_last. Qed.

Lemma canonical_directory_Ok p s q s' : _canonical_real_directory p s = (Ok q, s') →
  q = p ∧ ∃ m, (moment s + 2 ≤ moment s')%nat ∧ resolve (FileSystem := fs_at (moment s)) true p = Done p ∧
    lstat (FileSystem := fs_at (moment s + 1)) p = Done m ∧ is_kind Directory m = true.
Proof.
  unfold _canonical_real_directory, _canonical_existing_path, or_unconfigured. intros H.
  apply bindM_Ok in H as (q0 & s1 & H1 & H). apply bindM_Ok in H1 as (o & s2 & [-> ->]%call_Ok & H1).
  destruct (resolve true p) as [q1|] eqn:Er; [|done]. apply bindM_Ok in H1 as (q2 & s3 & [-> ->]%retM_Ok & H1).
  apply bindM_Ok in H1 as (? & s4 & [Hq ->]%lift_Ok & [-> ->]%retM_Ok). apply require_Ok, bool_decide_eq_true in Hq as ->.
  apply bindM_Ok in H as (o & s2 & [-> ->]%call_Ok & H). destruct (lstat p) as [m|] eqn:El; [|done].
  apply bindM_Ok in H as (m' & s3 & [-> ->]%retM_Ok & H). apply bindM_Ok in H as (? & s4 & [Hm ->]%lift_Ok & [-> ->]%retM_Ok).
  split; [done|]. exists m. simpl in *. rewrite Nat.add_1_r. split_and!; [lia|done|done|by apply require_Ok in Hm].
Qed.

Lemma available_Ok output s target s' : ensure_campaign_output_available output s = (Ok target, s') →
  target = output ∧ available (moment s) (moment s') output.
Proof.
  intros H. unfold ensure_campaign_output_available in H. apply bindM_Ok in H as (? & s0 & [Hne ->]%lift_Ok & H).
  apply require_Ok, bool_decide_eq_true in Hne.
  apply bindM_Ok in H as (parent & s1 & Hp & H). apply canonical_directory_Ok in Hp as (-> & m & T & H1 & H2 & H3).
  apply bindM_Ok in H as (there & s2 & Hx & H). apply bindM_Ok in H as (? & s3 & [Hn ->]%lift_Ok & [-> ->]%retM_Ok).
  unfold lexists in Hx. apply bindM_Ok in Hx as (o & s3 & [-> ->]%call_Ok & [-> ->]%retM_Ok). rewrite parent_name in * by done.
  split; [done|]. destruct (lstat output) as [m'|n] eqn:El; [done|].
  exists (moment s), (moment s + 1)%nat, (moment s1), m, n. simpl. split_and!; try done; lia.
Qed.

Lemma read_back_logs p limit s r s' : CampaignFiles._read_regular_file p limit s = (r, s') →
  ∃ l, logs s s' l ∧ (l = [CloseFile] ∨ (l = [] ∧ ∃ e, r = Err e)).
Proof.
  intros H. unfold CampaignFiles._read_regular_file in H.
  apply bindM_inv in H as [(f & s1 & [-> ->]%call_Ok & H)|(e & [=] & _)].
  assert (logs s {| moment := S (moment s); effects := effects s |} []) as L0
    by (split; [simpl; lia|by rewrite app_nil_r]).
  destruct (open_file p) as [fd|n].
  2:{ injection H as <- <-. exists []. split; [split; [simpl; lia|by rewrite app_nil_r]|eauto]. }
  apply bindM_inv in H as [(fd' & s2 & [-> ->]%retM_Ok & H)|(e & [=] & _)].
  assert (∀ rr s2 s3, close_file s2 = (rr, s3) → logs s2 s3 [CloseFile] ∨ (logs s2 s3 [] ∧ ∃ e, rr = Err e)) as Hcl.
  { intros rr s2 s3. unfold close_file, perform, attempt, mbind, eff_bind. destruct (effect_at _ _); intros [= <- <-];
      [left; split; [simpl; lia|done]|]. right. split; [split; [simpl; lia|by rewrite app_nil_r]|eauto]. }
  apply bindM_inv in H as [([[data before] after] & s3 & Hr & H)|(e & Hr & ->)];
    apply finally_inv in Hr as (r1 & s4 & r2 & [= <- <-] & Hc & Hr); apply Hcl in Hc as [Hl|[Hl (e' & ->)]].
  - assert (quiet (o ← call (λ _, lstat p); path_after ← or_unconfigured "changed while it was read" o;
       _ ← lift (campaign_configured (bool_decide (read_identity before = read_identity after) &&
                   bool_decide (read_identity before = read_identity path_after)) "changed while it was read"); mret data)) as Hq.
    { unfold quiet. solve_within. }
    apply (quiet_logs _ _ _ _ Hq) in H. exists [CloseFile]. split; [|by left]. 
    exact (logs_trans _ _ _ _ _ L0 (logs_trans _ _ _ _ _ Hl H)).
  - by destruct Hr as [[[=] _]|(? & _ & [=])].
  - exists [CloseFile]. split; [exact (logs_trans _ _ _ _ _ L0 Hl)|by left].
  - exists []. split; [exact (logs_trans _ _ _ _ _ L0 Hl)|eauto].
Qed.

(** The look at what was published. *)
Lemma compare_logs target limit payload s r s' :
  (observed ← CampaignFiles._read_regular_file target limit;
   lift (require (bool_decide (observed = payload))
           (CampaignEvidenceError "published campaign evidence bytes do not match"))) s = (r, s') →
  ∃ l, logs s s' l ∧ ((l = [] ∧ ∃ e, r = Err e) ∨
    (l = [CloseFile] ∧ (r = Ok tt → ∃ s1, CampaignFiles._read_regular_file target limit s = (Ok payload, s1)))).
Proof.
  intros H. apply bindM_inv in H as [(observed & s1 & Hrd & [= Hq ->])|(e & Hrd & ->)];
    destruct (read_back_logs _ _ _ _ _ Hrd) as (l & Ll & [->|[-> [e' He]]]); try done.
  - exists [CloseFile]. split; [done|]. right. split; [done|]. intros ->.
    apply require_Ok, bool_decide_eq_true in Hq as ->. eauto.
  - exists [CloseFile]. split; [done|]. by right.
  - exists []. split; [done|]. left. eauto.
Qed.

(** The publication below the open directory, its closing, and what follows when both
    succeeded. *)
Lemma publish_closed parent temporary name payload (next : Sys unit) s r s' :
  (∀ t fd data n, disk_write t fd data = Done n → 0 ≤ n) →
  (_ ← finally (publish_evidence parent temporary name payload) (λ _, close_fd parent); next) s = (r, s') →
  (∃ e l, r = Err e ∧ logs s s' l ∧ 
     ∃ d, evidence_trace (moment s) (moment s') parent temporary name payload d (OpenFd parent :: l)) ∨
  (∃ fd chunks s1, concat chunks = payload ∧ next s1 = (r, s') ∧
     logs s s1 (CreateFd parent temporary fd :: staging fd chunks true ++
                [RenameAt parent temporary parent name; FsyncFd parent; CloseFd parent])).
Proof.
  intros Hw H.
  assert (∃ r1 s1 r2 s2, publish_evidence parent temporary name payload s = (r1, s1) ∧ logs s1 s2 [CloseFd parent] ∧
     (r2 = Ok tt → r1 = Ok tt) ∧ ((∃ e, r = Err e ∧ s' = s2 ∧ r2 = Err e) ∨ (r2 = Ok tt ∧ next s2 = (r, s'))))
    as (r1 & s1 & r2 & s2 & Hp & Lc & H12 & Hrest).
  { apply bindM_inv in H as [([] & s2 & Hf & H)|(e & Hf & ->)];
      apply finally_inv in Hf as (r1 & s1 & r2 & Hp & Hc%close_fd_logs & Hr); exists r1, s1.
    - exists (Ok tt), s2. split_and!; [done|done| |by right]. by destruct Hr as [[_ <-]|(? & _ & [=])].
    - exists (Err e), s'. split_and!; [done|done|done|left; eauto]. }
  clear H. apply publish_logs in Hp as [(e & l & -> & Hl & Htr)|(fd & chunks & l & Hch & Hl & Hlast)]; [| |exact Hw].
  - destruct Hrest as [(e2 & -> & -> & _)|[H2 _]]; [|by specialize (H12 H2)].
    left. exists e2, (l ++ [CloseFd parent]). split_and!; [done|by apply (logs_trans _ _ _ _ _ Hl)|exists false].
    eapply trace_mono; [exact Htr|done|apply Lc].
  - pose proof (logs_trans _ _ _ _ _ Hl Lc) as L. destruct Hlast as [->|[-> [e ->]]].
    2:{ destruct Hrest as [(e2 & -> & -> & _)|[H2 _]]; [|by specialize (H12 H2)]. left. exists e2. eexists.
        split_and!; [done|exact L|]. exists true. cbn [app]. rewrite <- !app_assoc.
        apply (published _ _ parent temporary name payload fd chunks [CloseFd parent]); [done|by left]. }
    cbn [app] in L. rewrite <- !app_assoc in L. cbn [app] in L. destruct Hrest as [(e2 & -> & -> & _)|[_ Hn]].
    + left. exists e2. eexists. split_and!; [done|exact L|]. exists true.
      apply (published _ _ parent temporary name payload fd chunks); [done|by right; left].
    + right. by exists fd, chunks, s2.
Qed.

(** C16. Evidence is published whole, once, and never over anything.  Nothing is done unless
    the output's directory is where its path says, without any link, and the name is free;
    then that directory, and no other, is opened.  However the publication ends, what it did
    there is one of these: no temporary was created; or one was, and it was removed again,
    unless the system refused to; or one rename that never replaces gave the output's name
    to a temporary that held all of its bytes and the final newline, synced and closed.
    Nothing else was written.  If it returns, the last of these happened, the directory was
    synced and closed, and the file at the output's path was then read back with exactly
    these bytes. *)
Theorem evidence_is_published_whole data output s r s' : (∀ t fd bytes n, disk_write t fd bytes = Done n → 0 ≤ n) →
  write_campaign_evidence_file data output s = (r, s') →
  ∃ l, logs s s' l ∧
    ((l = [] ∧ ∃ e, r = Err e) ∨
     ∃ t parent token d, available (moment s) t output ∧ (t < moment s')%nat ∧
       kernel_open t (Rooted (path_parent output)) DirectoryFlags = Done parent ∧
       evidence_trace t (moment s') parent (temporary_name (path_name output) token) (path_name output) (data ++ newline) d l ∧
       (r = Ok tt → d = true ∧ ∃ limit s1 s2 start,
          l = start ++ [FsyncFd parent; CloseFd parent; CloseFile] ∧
          effects s1 = effects s ++ start ++ [FsyncFd parent; CloseFd parent] ∧
          CampaignFiles._read_regular_file output limit s1 = (Ok (data ++ newline), s2))).
Proof.
  intros Hw H. unfold write_campaign_evidence_file in H.
  apply bindM_inv in H as [(target & s1 & Ha & H)|(e & Ha & ->)]; pose proof (quiet_logs _ _ _ _ (quiet_available output) Ha) as L1.
  2:{ exists []. split; [done|]. left. eauto. }
  apply available_Ok in Ha as (-> & Ha).
  apply bindM_inv in H as [(o & s2 & Ho & H)|(e & [=] & _)]. pose proof (system_logs _ _ _ _ _ Ho) as (o' & [= <-] & L2 & Hpo & T2).
  pose proof (logs_trans _ _ _ _ _ L1 L2) as L3. clear L2 Ho.
  destruct o as [parent|m]; [|apply bindM_inv in H as [(? & ? & [=] & _)|(e & [= _ <-] & ->)]].
  2:{ exists []. split; [done|]. left. eauto. }
  apply bindM_inv in H as [(? & s3 & [-> ->]%retM_Ok & H)|(e & [=] & _)].
  apply bindM_inv in H as [(token & s3 & [= _ <-] & H)|(e & [=] & _)].
  set (s3 := {| moment := S (moment s2); effects := effects s2 |}) in H.
  assert (logs s s3 [OpenFd parent]) as L4 by (split; [destruct L3; simpl; lia|apply L3]). cbv zeta in H.
  assert (moment s1 < moment s3)%nat as T3 by (simpl; lia). clearbody s3.
  apply publish_closed in H as [(e & l & -> & Hl & d & Htr)|(fd & chunks & s4 & Hch & H & Hl)]; [| |exact Hw];
    pose proof (logs_trans _ _ _ _ _ L4 Hl) as L5.
  - exists (OpenFd parent :: l). split; [exact L5|]. right. exists (moment s1), parent, token, d.
    split_and!; [done|destruct Hl; lia|done| |done]. eapply trace_mono; [exact Htr|lia|done].
  - apply compare_logs in H as (l & Ll & Hr). eexists. split; [exact (logs_trans _ _ _ _ _ L5 Ll)|].
    right. exists (moment s1), parent, token, true. split_and!; [done|destruct Hl, Ll; lia|done| |].
    + cbn [app]. rewrite <- !app_assoc. cbn [app].
      apply (published _ _ parent _ _ _ fd chunks ([FsyncFd parent; CloseFd parent] ++ l)); [done|].
      destruct Hr as [[-> _]|[-> _]]; [right; left|right; right]; done.
    + intros ->. split; [done|]. destruct Hr as [[_ [? [=]]]|[-> Hr]]. destruct (Hr eq_refl) as [s5 Hs].
      eexists _, s4, s5, (OpenFd parent :: CreateFd parent _ fd :: staging fd chunks true ++ [RenameAt parent _ parent _]).
      split_and!; [| |exact Hs].
      * cbn [app]. by rewrite <- !app_assoc.
      * destruct L5 as [_ ->]. cbn [app]. by rewrite <- !app_assoc.
Qed.
End publication.
