(* ===== verification/CampaignReport.v ===== *)
(** * Reports that were published are read back

    The text of a checked report, with the newline that its publication adds, is parsed
    strictly to the report; and what is loaded is a checked report. *)

From S2P Require Import Prelude Order Loop Effects PyStr Files Descriptors Disk Float64 Json Text Patch Hash Datetime Fields.
From S2P Require Import Usage Models Specs LocalEvaluation Artifacts ArtifactFacts Fixture Reports.
From S2P Require Import Campaign CampaignFiles CampaignRecords CampaignFacts CampaignPublish.

Local Open Scope Z_scope.

Lemma utf8_encode_app s1 s2 : utf8_encode (s1 +:+ s2) = utf8_encode s1 ++ utf8_encode s2.
Proof. induction s1 as [|c s1 IH]; [done|]. cbn [utf8_encode String.append]. by rewrite IH, app_assoc. Qed.

(** A canonical text with a newline after it. *)
Lemma loads_with_newline strict v text : json_wf v = true → canonical_json v = Ok text →
  loads_with strict (text +:+ String (chr 10) EmptyString) = Ok (sort_json v).
Proof.
  intros Hw [Hf ->]%canonical_json_inv.
  assert (json_wf (sort_json v) = true) as Hw' by (by rewrite sort_json_wf).
  assert (finite_json (sort_json v) = true) as Hf' by (by rewrite sort_json_finite).
  unfold loads_with. rewrite (dumps_skip (sort_json v) _ Hw' Hf').
  rewrite (dumps_reads strict (sort_json v) Hw' Hf'); [done| |done].
  pose proof (need_length (sort_json v) Hw' Hf'). rewrite str_length_app. lia.
Qed.

Lemma wf_list {A} (dump : A → json) l : Forall (λ a, json_wf (dump a) = true) l → json_wf (JArr (dump <$> l)) = true.
Proof. cbn [json_wf]. induction 1 as [|a l Ha _ IH]; [done|]. simpl. by rewrite Ha. Qed.

Lemma wf_object o : nodup_keys o = true → forallb (λ kv, json_wf kv.2) o = true → json_wf (JObj o) = true.
Proof. simpl. by intros -> ->. Qed.

(** The members of a record that was dumped. *)
Ltac wf_members := apply wf_object; [reflexivity|]; cbn [forallb snd];
  repeat match goal with
  | |- (_ && _) = true => apply andb_true_iff; split
  | |- json_wf (JStr _) = true => reflexivity
  | |- json_wf (JInt _) = true => reflexivity
  | |- json_wf (JBool _) = true => reflexivity
  | |- json_wf (dump_datetime _) = true => reflexivity
  | |- json_wf (dump_opt JStr _) = true => apply dump_opt_str_wf
  | |- true = true => reflexivity
  end; try done.

Lemma rate_wf f : is_rate f = true → json_wf (JFloat f) = true.
Proof. unfold is_rate. intros [[_ H]%nonneg_valid_finite _]%andb_true_iff. done. Qed.

Lemma campaign_manifest_wf m : check_campaign_manifest m = Ok m → json_wf (dump_campaign_manifest m) = true.
Proof.
  intros H. pose proof (manifest_rate _ _ H) as Hr%rate_wf. apply campaign_manifest_parts in H as (_ & _ & Hl & _).
  apply check_limits_Ok in Hl as [_ Hl]. apply dump_limits_wf in Hl as [Hl _].
  unfold dump_campaign_manifest. wf_members; apply wf_list, Forall_true; by intros [].
Qed.

Lemma attempt_evidence_wf e : check_attempt_evidence e = Ok e → json_wf (dump_attempt_evidence e) = true.
Proof.
  intros (_ & Ht & _)%attempt_evidence_parts. unfold dump_attempt_evidence. wf_members.
  - unfold dump_strings. by apply wf_list, Forall_true.
  - destruct (av_terminal e) as [t|]; [|done]. simpl in Ht. inv_ok. injection Ht as <-.
    apply terminal_evidence_parts in H as (Hu & Hr & _).
    apply check_usage_Ok in Hu as [_ Hu], Hr as [_ Hr]. apply dump_usage_wf in Hu as [Hu _], Hr as [Hr _].
    cbn [dump_opt]. unfold dump_terminal_evidence. wf_members.
Qed.

Section report.
Context {hashing : Hashing} {datetimes : PydanticDatetime}.

Lemma campaign_report_wf r : check_campaign_report r = Ok r → json_wf (dump_campaign_report r) = true.
Proof.
  intros Hr. assert (check_report_body (rp_body r) = Ok (rp_body r)) as Hb.
  { unfold check_campaign_report in Hr. inv_ok. match goal with X : check_report_body _ = Ok _ |- _ => by rewrite X end. }
  apply report_body_parts in Hb as (Hm & _ & Ha & Hrate & _). unfold dump_campaign_report. wf_members.
  unfold dump_report_body. wf_members; [by apply campaign_manifest_wf| |by apply rate_wf].
  apply wf_list. eapply Forall_impl; [by apply (mapR_settled _ _ _ settles_attempt_evidence) in Ha|apply attempt_evidence_wf].
Qed.

(** What is read strictly from a published report. *)
Lemma published_object r text : check_campaign_report r = Ok r → canonical_json (dump_campaign_report r) = Ok text →
  ∃ o, _strict_json_object (utf8_encode text ++ newline) = Ok o ∧ JObj o = sort_json (dump_campaign_report r).
Proof.
  intros Hr Ht. pose proof (loads_with_newline true _ _ (campaign_report_wf r Hr) Ht) as Hl.
  unfold _strict_json_object, strict_loads.
  assert (utf8_encode text ++ newline = utf8_encode (text +:+ String (chr 10) EmptyString)) as -> by (by rewrite utf8_encode_app).
  rewrite utf8_decode_encode. cbn [of_option mbind result_bind]. rewrite Hl. eexists. by split.
Qed.

Context {world : World} {workspaces : Workspaces}.

Lemma loaded_report_checked p s r s' : load_reliability_campaign_report p s = (Ok r, s') → check_campaign_report r = Ok r.
Proof.
  unfold load_reliability_campaign_report. intros H. apply bindM_Ok in H as (o & s1 & _ & [H _]%lift_Ok).
  unfold except in H. destruct (validate_campaign_report _) as [r'|] eqn:E; [|done]. injection H as ->.
  unfold validate_campaign_report in E. inv_ok. by eapply settles_campaign_report.
Qed.

(** A file that is read holds no more than the limit. *)
Lemma read_regular_bounded n fd data before after : 0 <= n → read_regular n fd = Ok (data, before, after) →
  Z.of_nat (length data) <= n.
Proof.
  unfold read_regular. intros Hn H. apply bind_Ok in H as (m & _ & H). apply bind_Ok in H as (? & _ & H).
  apply bind_Ok in H as (read & Hl & H). apply bind_Ok in H as (d & -> & H). apply bind_Ok in H as (m' & _ & [= <- _ _]).
  destruct (run_loop _ _ _) as [|ended] eqn:E; [done|]. injection Hl as ->.
  refine (run_loop_ind _ (λ c, Z.of_nat (length c.2) <= n) (λ o, ∀ b, o = Ok b → Z.of_nat (length b) <= n) _ _ _ E _ _ _ d eq_refl);
    [done|..]; intros c o Hc; unfold campaign_chunk; cbv zeta; destruct (fd_read fd c.1 _) as [[|b bs]|];
    try (destruct (Z.ltb_spec n (Z.of_nat (length (c.2 ++ take (Z.to_nat (Z.min 1048576 (n + 1 - Z.of_nat (length c.2)))) (b :: bs))))));
    try done; intros [= <-]; try done; by intros ? [= <-].
Qed.
Lemma read_file_bounded q n s data s' : 0 <= n → CampaignFiles._read_regular_file q n s = (Ok data, s') → Z.of_nat (length data) <= n.
Proof.
  unfold CampaignFiles._read_regular_file. intros Hn H. apply bindM_Ok in H as (f & s1 & _ & H).
  apply bindM_Ok in H as (fd & s2 & _ & H). apply bindM_Ok in H as ([[d before] after] & s3 & Hr & H).
  apply bindM_Ok in H as (o & s4 & _ & H). apply bindM_Ok in H as (m & s5 & _ & H).
  apply bindM_Ok in H as (? & s6 & _ & [-> _]%retM_Ok). apply finally_inv in Hr as (r1 & s7 & r2 & [= <- _] & _ & [[_ Hr]|(? & _ & [=])]).
  by eapply read_regular_bounded.
Qed.

Lemma loaded_report_bounded p s r s' : load_reliability_campaign_report p s = (Ok r, s') →
  ∃ q s1 data, _canonical_existing_path p s = (Ok q, s1) ∧
    CampaignFiles._read_regular_file q _REPORT_MAX_BYTES s1 = (Ok data, s') ∧ Z.of_nat (length data) <= 16 * 1024 * 1024.
Proof.
  unfold load_reliability_campaign_report. intros H. apply bindM_Ok in H as (o & s1 & H & [_ ->]%lift_Ok).
  apply exceptM_Ok in H. apply bindM_Ok in H as (q & s2 & Hq & H). apply bindM_Ok in H as (data & s3 & Hd & [_ ->]%lift_Ok).
  exists q, s2, data. split_and!; [done|done|]. by apply read_file_bounded in Hd.
Qed.

(** C19. A report that was published is read back, if it is not too long.  A path that leads
    to the bytes of a checked report's publication, read within the loader's 16 MiB, loads
    as exactly that report; and whatever a path loads as is a checked report: its schedule,
    its claims and its body's digest hold.  A publication of more than 16 MiB does not load,
    although it may be published. *)
Theorem published_report_reads_back p s :
  (∀ r s', load_reliability_campaign_report p s = (Ok r, s') → check_campaign_report r = Ok r ∧
     ∃ q s1 data, _canonical_existing_path p s = (Ok q, s1) ∧
       CampaignFiles._read_regular_file q _REPORT_MAX_BYTES s1 = (Ok data, s') ∧
       Z.of_nat (length data) <= 16 * 1024 * 1024) ∧
  ∀ r data q s1 s2, check_campaign_report r = Ok r → report_canonical_bytes r = Ok data →
    _canonical_existing_path p s = (Ok q, s1) →
    CampaignFiles._read_regular_file q _REPORT_MAX_BYTES s1 = (Ok (data ++ newline), s2) →
    load_reliability_campaign_report p s = (Ok r, s2).
Proof.
  split; [intros r s' H; split; [by eapply loaded_report_checked|by eapply loaded_report_bounded]|].
  unfold report_canonical_bytes. intros r data q s1 s2 Hr Hd Hp Hq. inv_ok.
  match goal with X : canonical_json _ = Ok _ |- _ => destruct (published_object r _ Hr X) as (o & Ho & Es) end.
  unfold load_reliability_campaign_report, exceptM, mbind, eff_bind. rewrite Hp, Hq. unfold lift. rewrite Ho, Es.
  by rewrite validate_dump_campaign_report.
Qed.
End report.
