(* ===== verification/SampleCampaign.v ===== *)
(** * A concrete campaign

    One fixture, one round, one attempt: a machine in four phases (before the campaign, with
    its empty state directory, while the attempt runs, and afterwards), on which the
    campaign is run to a report that passes. *)

From S2P Require Import Prelude Order Loop Effects PyStr Files Descriptors Disk Float64 Json Text Patch Hash Datetime Fields.
From S2P Require Import Usage Budget Models Specs LocalEvaluation Protocol Replay SampleRun Sqlite EventStore SampleLedger StoreGrowth.
From S2P Require Import Artifacts ArtifactFacts Fixture SampleFixture Integrity SampleStore Coordinator CoordinatorFacts.
From S2P Require Import Maintenance MaintenanceFacts Recovery RecoveryFacts Runner RunnerFacts SampleRunner Reports.
From S2P Require Import Campaign CampaignFiles CampaignRun CampaignRecords CampaignFacts CampaignReconcile CampaignDispatch CampaignPublish CampaignReport.

Local Open Scope Z_scope.

(** ** The machine *)

(** A tree of these files and directories, where one directory may have all pairs of
    hexadecimal digits below it. *)
Definition tree_of (files : list (path * list Byte.byte)) (directories : list path) (pairs : option path) : FileSystem :=
  let bytes_of p := snd <$> List.find (λ f, bool_decide (f.1 = p)) files in
  let is_directory p := bool_decide (p ∈ directories) || bool_decide (Some (path_parent p) = pairs) in
  let below p := path_name <$> List.filter (λ q, bool_decide (path_parent q = p ∧ q ≠ [])) (directories ++ files.*1) in
  let status p := match bytes_of p with
                  | Some d => Done (regular d)
                  | None => if is_directory p then Done (sample_metadata Directory 0) else OSError (Some ENOENT)
                  end in
  {| lstat := status;
     scandir := λ p,
       {| entries := ((λ n, {| de_name := Name n; de_stat := status (p ++ [n]) |}) <$> below p) ++
            (if bool_decide (Some p = pairs)
             then (λ n, {| de_name := Name n; de_stat := Done (sample_metadata Directory 0) |}) <$> hex_pairs else []);
          scan_error := None |};
     open_file := λ p, match bytes_of p with
                       | Some d => Done {| fd_stat := Done (regular d); fd_final_stat := Done (regular d);
                                           fd_read := λ k _, Done (match k with O => d | _ => [] end);
                                           fd_close := Done tt |}
                       | None => OSError (Some ENOENT)
                       end;
     resolve := λ _ p, Done p |}.

Definition campaign_state : path := ["runs"; "camp"].
Definition run_state_directory : path := campaign_state ++ ["attempts"; "run-1"].
Definition run_artifacts : path := run_state_directory ++ ["artifacts"; "sha256"].

Definition still_files : list (path * list Byte.byte) :=
  fixture_files ++ [(["fix"; "solution.patch"], utf8_encode "diff"); (["repo"; "pyproject.toml"], utf8_encode "[project]");
                    (["repo"; "uv.lock"], utf8_encode "version = 1")].
Definition still_directories : list path :=
  [[]; ["fix"]; ["fix"; "ws"]; ["fix"; "hidden"]; ["repo"]; ["repo"; "src"]; ["repo"; "src"; "guildmind"]; ["runs"]].

Section machine.
(** When the phases begin. *)
Context (prepared published finished : nat).
Context (manifest_text : list Byte.byte) (known : list (string * list Byte.byte)).

Definition artifact_files (temporaries : bool) : list (path * list Byte.byte) :=
  d ← known; (if temporaries : bool then [(run_artifacts ++ [take_prefix 2 d.1; ".artifact-x"], d.2)] else []) ++
             [(run_artifacts ++ [take_prefix 2 d.1; d.1], d.2)].
Definition artifact_directories : list path :=
  [run_state_directory; run_state_directory ++ ["artifacts"]; run_artifacts].

Definition campaign_tree (t : nat) : FileSystem :=
  let attempts := [campaign_state; campaign_state ++ ["attempts"]] in
  let recorded := (campaign_state ++ ["campaign-manifest.json"], manifest_text) in
  if Nat.ltb t prepared then tree_of still_files still_directories None
  else if Nat.ltb t published then tree_of still_files (still_directories ++ attempts) None
  else if Nat.ltb t finished
  then tree_of (still_files ++ recorded :: artifact_files true) (still_directories ++ attempts ++ artifact_directories)
         (Some run_artifacts)
  else tree_of (still_files ++ recorded :: (run_state_directory ++ ["runs.db"], []) :: artifact_files false)
         (still_directories ++ attempts ++ artifact_directories ++
          remove_dups ((λ d, run_artifacts ++ [take_prefix 2 d.1]) <$> known)) None.

Definition campaign_world : World :=
  {| fs_at := campaign_tree;
     effect_at := λ _ e, match e with
                         | Mkdir _ | RenameNoreplace _ _ => OSError (Some EEXIST)
                         | Mkstemp directory _ => Done (directory ++ [".artifact-x"])
                         | _ => Done []
                         end |}.
End machine.

(** [os.walk] lists the tree. *)
Definition campaign_walks : Walks :=
  {| walk_entries := λ t p,
       let below l := path_name <$> List.filter (λ q, bool_decide (path_parent q = p ∧ q ≠ [])) l in
       Done (((λ n, (n, true)) <$> below still_directories) ++ ((λ n, (n, false)) <$> below still_files.*1)) |}.

Definition campaign_workspaces : Workspaces :=
  {| walk := λ _ _, []; rglob := λ _ _, Done [["app.py"]; ["test_app.py"]]; copytree := λ _ _ _, Done tt;
     git_apply := λ _ _ _ _, Completed 0 []; temporary_directory := λ _ _, Done ["tmp"]; remove_tree := λ _ _, Done tt;
     make_directory := λ _ _ _ _, Done tt; read_bytes := λ _ _, Done (utf8_encode "diff"); is_file := λ _ _, Done true;
     write_bytes := λ _ _ _, Done tt; chmod := λ _ _ _, Done tt |}.

(** The disk writes what it is given; the new file has the size of the manifest's text. *)
Definition campaign_kernel (size : Z) : Kernel :=
  {| kernel_open := λ _ l _, Done match l with Rooted _ => 3 | At _ _ => 4 end;
     kernel_create := λ _ _ name, if startswith ".campaign-manifest.json.tmp-" name then Done 5 else OSError (Some EEXIST);
     kernel_dup := λ _ _, Done 6; kernel_close := λ _ _, Done tt;
     kernel_fstat := λ _ fd, Done (if fd =? 4 then lock_metadata else if fd =? 5 then sample_metadata Regular size
                                   else sample_metadata Directory 0);
     kernel_stat := λ _ _ name, if str_eqb name MAINTENANCE_LOCK_FILENAME then Done lock_metadata
                                else OSError (Some ENOENT);
     kernel_scan := λ _ _, {| entries := []; scan_error := None |}; kernel_fsync := λ _ _, Done tt;
     kernel_flock := λ _ _ _, Done tt; kernel_unlock := λ _ _, Done tt |}.
Definition campaign_disk : Disk :=
  {| disk_read := λ _ _ _, Done []; disk_write := λ _ _ data, Done (Z.of_nat (length data)); disk_mkdir := λ _ _ _, Done tt;
     disk_unlink := λ _ _ _, Done tt; disk_rename := λ _ _ _ _ _, Done tt; disk_token := λ _, "0" |}.

Definition passing_evaluator : Evaluator :=
  {| evaluator_identity := "evaluator-1"; environment_digest := "sha256:" +:+ zeros 64;
     evaluate := λ spec _ _, mret
       {| lr_task_id := sp_task_id spec; lr_status := PASSED; exit_code := Some 0; stdout := "ok"; lr_stderr := "";
          output_truncated := false; execution := []; raw_candidate_stdout := None; raw_scorer_stdout := None |} |}.

Definition campaign_clock : WallClock := {| datetime_now := λ _, cs_occurred_at (@clock_stamp steady O) |}.
Definition campaign_ledgers (final : database) : Ledgers :=
  {| open_ledger := λ _ _ _, Ok {| db := final; left_open := None; ticks := 0; checks := 0; machine := start |} |}.

(** ** The campaign *)

#[local] Existing Instance sample_hashing.

Definition fixture_identity : string := Eval vm_compute in
  match (campaign_fixture_tree_sha256 (world := campaign_world 0 0 0 [] []) (walks := campaign_walks) 10 ["fix"] start).1 with
  | Ok d => d | Err e => type_name e end.
Definition code_identity : string := Eval vm_compute in
  match (campaign_code_source_sha256 (world := campaign_world 0 0 0 [] []) (walks := campaign_walks) 10 ["repo"] start).1 with
  | Ok d => d | Err e => type_name e end.

Definition sample_campaign_manifest : ReliabilityCampaignManifest :=
  {| mf_campaign_id := "campaign-1"; mf_evidence_tier := DEVELOPMENT; mf_experiment_id := "experiment-0001";
     mf_candidate_id := "scripted-solo-v0"; mf_code_source_sha256 := code_identity;
     mf_evaluator := {| ev_kind := LOCAL; ev_evaluator_version := "evaluator-1";
                        ev_environment_digest := "sha256:" +:+ zeros 64 |};
     mf_model := {| cm_model_id := "model-1" |}; mf_budget_limits := default_limits; mf_rounds := 1;
     mf_maximum_infrastructure_error_rate := fzero;
     mf_fixtures := [{| fx_fixture_id := "task-1"; fx_fixture_path := "fix"; fx_fixture_tree_sha256 := fixture_identity;
                        fx_solution_patch_sha256 := sample_digest (utf8_encode "diff") |}];
     mf_attempts := [{| at_attempt_id := "run-1"; at_fixture_id := "task-1"; at_round_index := 0; at_seed := 0 |}] |}.
Example campaign_manifest_checked : check_campaign_manifest sample_campaign_manifest = Ok sample_campaign_manifest.
Proof. vm_compute. reflexivity. Qed.

Definition sample_campaign : LoadedReliabilityCampaign :=
  {| lc_manifest_path := ["repo"; "campaign.json"]; lc_repository_root := ["repo"];
     lc_source_manifest_sha256 := zeros 64; lc_manifest := sample_campaign_manifest;
     lc_fixtures := (λ f, {| lf_specification := f; lf_root := ["fix"]; lf_solution_patch := ["fix"; "solution.patch"] |})
                    <$> mf_fixtures sample_campaign_manifest |}.

Definition manifest_text : list Byte.byte := Eval vm_compute in
  match canonical_json (dump_campaign_manifest sample_campaign_manifest) with
  | Ok text => utf8_encode text ++ newline | Err _ => [] end.

Definition sample_loaded_fixture : LoadedReliabilityCampaignFixture :=
  {| lf_specification := {| fx_fixture_id := "task-1"; fx_fixture_path := "fix"; fx_fixture_tree_sha256 := fixture_identity;
                            fx_solution_patch_sha256 := sample_digest (utf8_encode "diff") |};
     lf_root := ["fix"]; lf_solution_patch := ["fix"; "solution.patch"] |}.
Definition sample_attempt : ReliabilityCampaignAttempt :=
  {| at_attempt_id := "run-1"; at_fixture_id := "task-1"; at_round_index := 0; at_seed := 0 |}.

(** The run of the attempt, on a machine that has its last phase ahead. *)
Abbreviation attempt_run known := (run_attempt (world := campaign_world 0 0 5000 manifest_text known)
  (workspaces := campaign_workspaces) (kernel := campaign_kernel 0) (ledgers := sample_ledgers) (writable := no_database)
  (stores := fresh_database) (env := steady) (evaluator := passing_evaluator) 1 10 sample_campaign_manifest
  sample_loaded_fixture sample_attempt run_state_directory idle_runner).

(** The texts that it puts, and the ledger that it leaves. *)
Definition campaign_texts : list (string * list Byte.byte) := Eval vm_compute in
  learn 8 (λ known, machine_of (rc_process (rn_recovery (attempt_run known).2))) [].
Definition campaign_database : database := Eval vm_compute in
  match last (rc_sessions (rn_recovery (attempt_run campaign_texts).2)) with Some (_, d) => d | None => empty_database end.

Abbreviation sample_campaign_world phases := (campaign_world phases.1.1 phases.1.2 phases.2 manifest_text campaign_texts).
Abbreviation sample_campaign_kernel := (campaign_kernel (Z.of_nat (length manifest_text))).

(** The campaign with its phases, from nothing to its report; and its reconciliation when
    all is done. *)
Abbreviation sample_campaign_run := (run_reliability_campaign (world := sample_campaign_world (20, 26, 830)%nat)
  (workspaces := campaign_workspaces) (walks := campaign_walks) (ledgers := campaign_ledgers campaign_database)
  (wall := campaign_clock) (audits := steady) (kernel := sample_campaign_kernel) (disk := campaign_disk)
  (writable := no_database) (stores := fresh_database) (evaluator := passing_evaluator)
  (λ _, steady) 1 10 sample_campaign campaign_state "revision-1" None idle_runner).
Abbreviation sample_reconciliation := (reconcile_reliability_campaign (world := sample_campaign_world (0, 0, 0)%nat)
  (walks := campaign_walks) (ledgers := campaign_ledgers campaign_database)
  (wall := campaign_clock) (audits := steady) 10 sample_campaign campaign_state ∅ "revision-1" None start).

Definition sample_report : ReliabilityCampaignReport.
Proof.
  let r := eval vm_compute in sample_reconciliation.1 in match r with Ok ?report => exact report end.
Defined.

(** ** The theorems at the sample *)

Lemma schedule_is_full_factorial_witness : check_campaign_manifest sample_campaign_manifest = Ok sample_campaign_manifest ∧
  NoDup (at_attempt_id <$> mf_attempts sample_campaign_manifest) ∧
  Z.of_nat (length (mf_attempts sample_campaign_manifest)) = 1.
Proof.
  assert (check_campaign_manifest sample_campaign_manifest = Ok sample_campaign_manifest) as H by (vm_compute; reflexivity).
  split; [exact H|]. destruct (schedule_is_full_factorial _ _ H) as (H1 & _ & _ & H2 & _).
  split; [exact H1|]. rewrite H2. reflexivity.
Defined.

(** The report passes, so all of its evidence is of success. *)
Lemma report_claims_are_derived_witness : check_report_body (rp_body sample_report) = Ok (rp_body sample_report) ∧
  bd_campaign_passed (rp_body sample_report) = true ∧
  ∀ e, e ∈ bd_attempts (rp_body sample_report) → evidence_of_success e.
Proof.
  assert (check_report_body (rp_body sample_report) = Ok (rp_body sample_report)) as H by (vm_compute; reflexivity).
  assert (bd_campaign_passed (rp_body sample_report) = true) as Hp by (vm_compute; reflexivity).
  split; [exact H|]. split; [exact Hp|]. exact (proj2 (proj2 (proj1 (proj1 (proj2 (report_claims_are_derived _ _ H))) Hp))).
Defined.

(** What is left of the campaign is reconciled, and passes. *)
Lemma passed_campaign_stands_for_runs_witness : ∃ r s', sample_reconciliation = (Ok r, s') ∧
  bd_campaign_passed (rp_body r) = true ∧ Forall (λ e, av_disposition e = EXPECTED) (bd_attempts (rp_body r)) ∧
  stands_for_schedule (world := sample_campaign_world (0, 0, 0)%nat) (ledgers := campaign_ledgers campaign_database)
    (audits := steady) sample_campaign campaign_state ∅ 0 (moment s') (bd_attempts (rp_body r)).
Proof.
  assert (match sample_reconciliation.1 with Ok r => bd_campaign_passed (rp_body r) | Err _ => false end = true) as H
    by (vm_compute; reflexivity).
  destruct sample_reconciliation as [[r|e] s'] eqn:E; [|discriminate H]. exists r, s'. split; [reflexivity|]. split; [exact H|].
  destruct (passed_campaign_stands_for_runs _ _ _ _ _ _ _ _ _ E) as (_ & Hs & Hp).
  split; [exact (proj1 (Hp H))|exact Hs].
Defined.

(** The report is found where it was published, and reads back. *)
Definition report_bytes : list Byte.byte := Eval vm_compute in
  match report_canonical_bytes sample_report with Ok data => data | Err _ => [] end.
Definition report_world : World :=
  {| fs_at := λ _, tree_of [(["report.json"], report_bytes ++ newline)] [[]] None; effect_at := λ _ _, Done [] |}.
Lemma published_report_reads_back_witness : check_campaign_report sample_report = Ok sample_report ∧
  report_canonical_bytes sample_report = Ok report_bytes ∧
  ∃ s, load_reliability_campaign_report (world := report_world) ["report.json"] start = (Ok sample_report, s).
Proof.
  assert (check_campaign_report sample_report = Ok sample_report) as Hr by (vm_compute; reflexivity).
  assert (report_canonical_bytes sample_report = Ok report_bytes) as Hd by (vm_compute; reflexivity).
  split; [exact Hr|]. split; [exact Hd|]. eexists.
  refine (proj2 (published_report_reads_back (world := report_world) ["report.json"] start) _ _ ["report.json"] _ _ Hr Hd _ _);
    vm_compute; reflexivity.
Defined.

(** The manifest is published: the write is what it was given. *)
Abbreviation published_manifest := (write_campaign_evidence_file (world := sample_campaign_world (0, 3, 1000)%nat)
  (kernel := sample_campaign_kernel) (disk := campaign_disk) (removelast manifest_text)
  (campaign_state ++ ["campaign-manifest.json"]) start).
Lemma evidence_is_published_whole_witness : ∃ s' l t parent token, published_manifest = (Ok tt, s') ∧ logs start s' l ∧
  available (world := sample_campaign_world (0, 3, 1000)%nat) 0 t (campaign_state ++ ["campaign-manifest.json"]) ∧
  kernel_open (Kernel := sample_campaign_kernel) t (Rooted campaign_state) DirectoryFlags = Done parent ∧
  evidence_trace (kernel := sample_campaign_kernel) (disk := campaign_disk) t (moment s') parent
    (temporary_name "campaign-manifest.json" token) "campaign-manifest.json" (removelast manifest_text ++ newline) true l.
Proof.
  assert (∀ t fd bytes n, disk_write (Disk := campaign_disk) t fd bytes = Done n → 0 ≤ n) as Hw by (intros t fd bytes n [= <-]; lia).
  assert (is_ok published_manifest.1 = true) as H by (vm_compute; reflexivity).
  destruct published_manifest as [[[]|e] s'] eqn:E; [|discriminate H].
  destruct (evidence_is_published_whole _ _ _ _ _ Hw E) as (l & Hl & [[_ [e [=]]]|(t & parent & token & d & Ha & _ & Ho & Ht & Hd)]).
  exists s', l, t, parent, token. split; [reflexivity|]. split; [exact Hl|]. split; [exact Ha|]. split; [exact Ho|].
  destruct (Hd eq_refl) as [-> _]. exact Ht.
Defined.

(** Whatever was done before, the fixture can be identified. *)
Lemma sample_identified (s : run_state) :
  (in_system (campaign_fixture_tree_sha256 (world := sample_campaign_world (0, 0, 0)%nat) (walks := campaign_walks) 10 ["fix"]) s).1
    = Ok fixture_identity.
Proof. destruct s as [[[[m l] ?] ?] ?]. vm_compute. reflexivity. Qed.

(** The schedule is dispatched on the machine as it is left, where the run cannot even
    begin. *)
Abbreviation sample_dispatched := (fold_eff (dispatch_attempt (world := sample_campaign_world (0, 0, 0)%nat)
  (workspaces := campaign_workspaces) (walks := campaign_walks) (ledgers := campaign_ledgers campaign_database)
  (kernel := campaign_kernel 0) (writable := no_database) (stores := fresh_database)
  (evaluator := passing_evaluator) (λ _, steady) 1 10 sample_campaign campaign_state) ∅
  (enumerate (mf_attempts (lc_manifest sample_campaign))) idle_runner).
Lemma schedule_is_dispatched_to_its_end_witness :
  (∀ attempt e, attempt ∈ mf_attempts (lc_manifest sample_campaign) →
     ¬ unidentified (world := sample_campaign_world (0, 0, 0)%nat) (walks := campaign_walks) 10 sample_campaign attempt e) ∧
  ∃ ns s', sample_dispatched = (Ok ns, s') ∧ all_noted ns.
Proof.
  assert (∀ attempt e, attempt ∈ mf_attempts (lc_manifest sample_campaign) →
     ¬ unidentified (world := sample_campaign_world (0, 0, 0)%nat) (walks := campaign_walks) 10 sample_campaign attempt e) as H.
  { intros attempt e ->%list_elem_of_singleton [Hf|(loaded & s & s' & Hf & Hl)].
    - vm_compute in Hf. discriminate Hf.
    - assert (loaded = sample_loaded_fixture) as -> by (vm_compute in Hf; injection Hf as <-; reflexivity).
      pose proof (sample_identified s) as Hs. change ["fix"] with (lf_root sample_loaded_fixture) in Hs.
      rewrite Hl in Hs. discriminate Hs. }
  split; [exact H|].
  destruct (schedule_is_dispatched_to_its_end (λ _, steady) 1 10 sample_campaign campaign_state (evaluator := passing_evaluator)
    (world := sample_campaign_world (0, 0, 0)%nat) (workspaces := campaign_workspaces) (walks := campaign_walks)
    (ledgers := campaign_ledgers campaign_database) (kernel := campaign_kernel 0) (writable := no_database)
    (stores := fresh_database) idle_runner H) as (ns & s' & E & Hn & _).
  exists ns, s'. split; [exact E|exact Hn].
Defined.

(** The campaign is run, and passes: its attempt was executed. *)
Lemma expected_results_were_executed_witness : ∃ r s', sample_campaign_run = (Ok r, s') ∧
  ∃ e state turn, bd_attempts (rp_body r) = [e] ∧ av_disposition e = EXPECTED ∧
    executed_from (world := sample_campaign_world (20, 26, 830)%nat) (workspaces := campaign_workspaces) (walks := campaign_walks)
      (ledgers := campaign_ledgers campaign_database) (kernel := sample_campaign_kernel) (writable := no_database)
      (stores := fresh_database) (evaluator := passing_evaluator) (λ _, steady) 1 10 sample_campaign state (turn 0%nat) 0 (av_attempt e)
      (turn 1%nat).
Proof.
  assert (match sample_campaign_run.1 with Ok r => match bd_attempts (rp_body r) with [e] => bool_decide (av_disposition e = EXPECTED)
            | _ => false end | Err _ => false end = true) as H by (vm_compute; reflexivity).
  destruct sample_campaign_run as [[r|e] s'] eqn:E; [|discriminate H]. exists r, s'. split; [reflexivity|].
  destruct (expected_results_were_executed _ _ _ _ _ _ _ _ _ _ E) as (s1 & s2 & state & text & turn & noted & Hw).
  pose proof (proj2 (proj2 (proj2 (proj2 (proj2 (proj2 (proj2 Hw))))))) as Hr. clear Hw.
  cbn [fst] in H. destruct (bd_attempts (rp_body r)) as [|e [|]]; [discriminate H| |discriminate H].
  apply bool_decide_eq_true in H. exists e, state, turn. split; [reflexivity|]. split; [exact H|].
  exact (proj1 (proj2 (Hr 0%nat e eq_refl) H)).
Defined.
